(* ===== verification/_CoqProject ===== *)
-Q . S2P
Prelude.v
CString.v
Net.v
Kalloc.v
Pipe.v
Ide.v
BlockDev.v
Bio.v
Fs.v
FsAlloc.v
DemoDisk.v
FsInode.v
FsFile.v
FsTrunc.v
FsRefs.v
FsDir.v
Vm.v
VmMap.v
VmUser.v
VmSpace.v
Exec.v
ExecCorrect.v
ExecFile.v
Ne.v
NeCorrect.v
NeSend.v
NeCard.v
Spinlock.v
Syscall.v
File.v
FileInv.v
SysFile.v
SysInv.v
Console.v
Tty.v
Kbd.v
Proc.v
ProcInv.v
ProcSys.v
Trap.v
User.v
Sh.v
ShParse.v
ShPrint.v
ShRun.v
Programs.v
ProgramsCorrect.v
Grep.v
Mkfs.v
MkfsCorrect.v
MkfsTree.v
Umalloc.v
UmallocCorrect.v
Bootmain.v
Intr.v
IntrCorrect.v
Mp.v
Main.v
Seg.v
