(* ===== verification/Prelude.v ===== *)
(** * Verification of the xv6-network kernel

    The program is the xv6 teaching kernel for x86 multiprocessors with a driver
    for NE2000 network cards, its user programs and its tools.  Processes enter
    the kernel by traps ([trap.c], [syscall.c]); system calls work on processes
    ([proc.c], [sysproc.c]) and on files ([sysfile.c], [file.c]); files are
    inodes ([fs.c]) over a buffer cache ([bio.c]) over the disk ([ide.c]), pipes
    ([pipe.c]), or devices ([console.c], [eth/eth.c]); memory is handed out in
    pages ([kalloc.c]) and mapped by page tables ([vm.c], [exec.c]); spin locks
    ([spinlock.c]) protect what several CPUs share.  The boot loader
    ([bootmain.c]) loads the kernel, which finds the processors ([mp.c]), sets
    up interrupts ([lapic.c], [ioapic.c], [picirq.c], [timer.c]) and starts the
    other processors ([main.c]).

    ** How the code is modelled

    C functions are Rocq functions over explicit state.  Kernel code that can
    fail is in the monad [M] of this file: an outcome is a result, a panic with
    its message, a sleep on a channel, or exhausted fuel; [wp] is total
    correctness (the code returns, and the result is right), [wlp] partial.
    Machine integers are [Z] with [u32], [s32] and the like where the code can
    wrap around.  Pointers are addresses where the code computes with them and
    indices into the array they point into elsewhere.  Loops of the source are
    structural where they count, and [loop] with fuel otherwise; the theorems
    give the fuel that is enough (the length of what is walked over), so that
    "the code returns" is part of what they say.  What is not in the repository
    (the disk, the network card, the ports) is a class of operations with a
    class of laws taken from its documentation, and an instance of it for the
    concrete examples.  Code under a lock runs in one step of a machine up to
    where it returns or sleeps, except for [Spinlock], where each memory access
    of the lock itself is a step.

    ** The files and what they show

    - [Prelude]: the monad, its rules, shared lemmas and tactics.
    - [CString]: [string.c] and the string routines of [ulib.c].
    - [Net]: [net/net.c], [net/net.h], [ethtest.c]: byte order, checksums, and
      that the frame [getip] sends has valid lengths and checksums.
    - [Kalloc]: [kalloc.c].  Over every sequence of calls the allocated and the
      free pages partition memory.
    - [Pipe]: [pipe.c].  Readers get the bytes in the order they were written;
      no process sleeps on a condition that holds.
    - [Ide], [BlockDev], [Bio]: [ide.c] and [bio.c].  Requests are served in
      order; the cache is a block device on which a read gives what was last
      written ([BlockSpec] is what the file system relies on).
    - [Fs], [FsAlloc], [FsInode], [FsFile], [FsTrunc], [FsRefs], [FsDir],
      [DemoDisk]: [fs.c].  Blocks belong to one owner; reference counts count;
      [readi], [writei] and [itrunc] on the contents of files; [namex] finds
      the inode a path leads to.
    - [Vm], [VmMap], [VmUser], [VmSpace]: [vm.c].  Page tables as finite maps;
      what a process can reach; copying and resizing of address spaces.
    - [Exec], [ExecCorrect], [ExecFile]: [exec.c].  The new address space is
      what the file describes, or everything is given back.
    - [Ne], [NeCorrect], [NeSend], [NeCard]: [eth/ne.c], [eth/eth.c].  Transfers
      to and from the card, the transmit queue over all histories, reception.
    - [Spinlock]: [spinlock.c].  Mutual exclusion for any number of CPUs.
    - [Syscall], [File], [FileInv], [SysFile], [SysInv]: [syscall.c], [file.c],
      [sysfile.c].  Arguments lie in the memory of the process; on every path of
      every call the counts of files, pipes, pages and inodes stay right.
    - [Console], [Tty], [Kbd]: [console.c], [kbd.c], [uart.c].  The ring buffer
      of the console refines a line discipline on lists.
    - [Proc], [ProcInv], [ProcSys]: [proc.c], [sysproc.c].  The invariant of the
      process table in every interleaving, no lost wakeup between [exit] and
      [wait], [fork], [wait] and the scheduler.
    - [Trap]: [trap.c] and the clock.  A killed process never returns to user
      mode; [sleep] lasts as long as asked.
    - [User]: programs as trees of system calls, [printf.c], [ulib.c].
    - [Sh], [ShParse], [ShPrint], [ShRun]: [sh.c].  The parser terminates and
      reads back printed commands; commands are started with the descriptors
      their syntax says.
    - [Programs], [ProgramsCorrect], [Grep]: the other user programs.
    - [Mkfs], [MkfsCorrect], [MkfsTree]: [mkfs.c].  The image is a file system
      with the files in its root directory, and the kernel's [namei] and [readi]
      find them there.
    - [Umalloc], [UmallocCorrect]: [umalloc.c].  Over every history of calls the
      blocks in use are disjoint, and the free list stays a ring.
    - [Bootmain]: [bootmain.c].  The kernel's segments are in memory before the
      jump to it.
    - [Intr], [IntrCorrect]: [lapic.c], [ioapic.c], [picirq.c], [timer.c].  On
      models of the controllers, lines are delivered as they were enabled.
    - [Mp]: [mp.c].  What [mpinit] reads off the BIOS's tables, and that it does
      not end on a table with an unknown entry.
    - [Main]: [bootothers] and [jmpkstack] of [main.c].  Every other processor
      is started once, on a stack of its own.
    - [Seg]: the segments of [vm.c] and [mmu.h].  The descriptor tables, the
      per-CPU variables, and the switch to a process.

    ** Not modelled

    Assembly ([bootasm.S], [bootother.S], [multiboot.S], [swtch.S],
    [trapasm.S], [initcode.S] and the generated [vectors.S]) has no C semantics
    to translate; a context switch is a step of the process machine.  [main] and
    [mainc] of [main.c] call the initialisation of each part in turn; each is in
    the file of its part.  The tests ([usertests.c], [forktest.c],
    [stressfs.c]) exercise the system calls from outside.  [defs.h] and
    [types.h] declare names; the scripts build the image. *)

From stdpp Require Import base numbers list gmap strings list_numbers.
From Stdlib Require Import Lia ZArith ZifyBool.

(** ** Scope and tactics *)

Declare Scope xv6_scope.
Delimit Scope xv6_scope with xv6.

Open Scope Z_scope.

(** Discharge index and width side conditions. *)
Ltac zlia := solve [ lia | Z.div_mod_to_equations; lia | nia ].

(** Split every conditional on decidable comparisons found in the goal. *)
Ltac split_if :=
  repeat match goal with
         | |- context [if ?b then _ else _] => let E := fresh "E" in destruct b eqn:E
         end.

(** Turn boolean comparison hypotheses into propositions. *)
Ltac bool_hyps :=
  repeat match goal with
         | H : (_ && _)%bool = true |- _ => apply andb_true_iff in H as [? ?]
         | H : (_ || _)%bool = false |- _ => apply orb_false_iff in H as [? ?]
         | H : negb _ = true |- _ => apply negb_true_iff in H
         | H : negb _ = false |- _ => apply negb_false_iff in H
         | H : (_ <? _) = true |- _ => apply Z.ltb_lt in H
         | H : (_ <? _) = false |- _ => apply Z.ltb_ge in H
         | H : (_ <=? _) = true |- _ => apply Z.leb_le in H
         | H : (_ <=? _) = false |- _ => apply Z.leb_gt in H
         | H : (_ =? _) = true |- _ => apply Z.eqb_eq in H
         | H : (_ =? _) = false |- _ => apply Z.eqb_neq in H
         | H : Nat.eqb _ _ = true |- _ => apply Nat.eqb_eq in H
         | H : Nat.eqb _ _ = false |- _ => apply Nat.eqb_neq in H
         end.

(** ** Machine integers

    A C [uint] is a [Z] kept in [0, 2^32); every operation whose result may
    leave that range is wrapped with [u32] where the source computes it.  A C
    [int] is a [Z] in [-2^31, 2^31); [s32] is the conversion to it. *)

Definition u8 (x : Z) : Z := x mod 2 ^ 8.
Definition u16 (x : Z) : Z := x mod 2 ^ 16.
Definition u32 (x : Z) : Z := x mod 2 ^ 32.

Definition s16 (x : Z) : Z :=
  let y := x mod 2 ^ 16 in if y <? 2 ^ 15 then y else y - 2 ^ 16.
Definition s32 (x : Z) : Z :=
  let y := x mod 2 ^ 32 in if y <? 2 ^ 31 then y else y - 2 ^ 32.

(** [x & m] is non-zero: the C idiom for testing flag bits. *)
Definition tst (x m : Z) : bool := negb (Z.land x m =? 0).

(** [x & ~m] for flag words. *)
Definition clr (x m : Z) : Z := Z.ldiff x m.

Lemma u8_range x : 0 <= u8 x < 256.
Proof. unfold u8. apply Z.mod_pos_bound. lia. Qed.
Lemma u16_range x : 0 <= u16 x < 65536.
Proof. unfold u16. apply Z.mod_pos_bound. lia. Qed.
Lemma u32_range x : 0 <= u32 x < 2 ^ 32.
Proof. unfold u32. apply Z.mod_pos_bound. lia. Qed.
Lemma u8_small x : 0 <= x < 256 -> u8 x = x.
Proof. intros. unfold u8. apply Z.mod_small. lia. Qed.
Lemma u16_small x : 0 <= x < 65536 -> u16 x = x.
Proof. intros. unfold u16. apply Z.mod_small. lia. Qed.
Lemma u32_small x : 0 <= x < 2 ^ 32 -> u32 x = x.
Proof. intros. unfold u32. by apply Z.mod_small. Qed.
Lemma u32_u32 x : u32 (u32 x) = u32 x.
Proof. apply u32_small, u32_range. Qed.
Lemma u32_add_l x y : u32 (u32 x + y) = u32 (x + y).
Proof. apply Zplus_mod_idemp_l. Qed.
Lemma u32_add_r x y : u32 (x + u32 y) = u32 (x + y).
Proof. apply Zplus_mod_idemp_r. Qed.

(** Remove the wraps of sums that stay in range, innermost first. *)
Ltac unwrap32 :=
  repeat match goal with
         | |- context [u32 ?x] =>
             lazymatch x with
             | context [u32 _] => fail
             | _ => rewrite (u32_small x) by lia
             end
         end.

Lemma s32_range x : - 2 ^ 31 <= s32 x < 2 ^ 31.
Proof. unfold s32. pose proof (Z.mod_pos_bound x (2 ^ 32)). split_if; bool_hyps; lia. Qed.
Lemma s32_small x : - 2 ^ 31 <= x < 2 ^ 31 -> s32 x = x.
Proof.
  intros Hx. unfold s32. destruct (decide (0 <= x)).
  - rewrite Z.mod_small by lia. split_if; bool_hyps; lia.
  - replace (x mod 2 ^ 32) with (x + 2 ^ 32).
    + split_if; bool_hyps; lia.
    + symmetry. rewrite <- (Z.mod_small (x + 2 ^ 32) (2 ^ 32)) by lia.
      rewrite <- (Z_mod_plus_full x 1 (2 ^ 32)). f_equal.
Qed.
Lemma s16_small x : - 2 ^ 15 <= x < 2 ^ 15 -> s16 x = x.
Proof.
  intros Hx. unfold s16. destruct (decide (0 <= x)).
  - rewrite Z.mod_small by lia. split_if; bool_hyps; lia.
  - replace (x mod 2 ^ 16) with (x + 2 ^ 16).
    + split_if; bool_hyps; lia.
    + symmetry. rewrite <- (Z.mod_small (x + 2 ^ 16) (2 ^ 16)) by lia.
      rewrite <- (Z_mod_plus_full x 1 (2 ^ 16)). f_equal.
Qed.

(** Flag words: setting and clearing a mask. *)
Lemma tst_lor_same x m : m <> 0 -> tst (Z.lor x m) m = true.
Proof.
  intros Hm. unfold tst. apply negb_true_iff, Z.eqb_neq.
  replace (Z.land (Z.lor x m) m) with m; [done|].
  apply Z.bits_inj'. intros n Hn. rewrite Z.land_spec, Z.lor_spec.
  by destruct (Z.testbit x n), (Z.testbit m n).
Qed.
Lemma tst_clr_same x m : tst (clr x m) m = false.
Proof.
  unfold tst, clr. apply negb_false_iff, Z.eqb_eq.
  apply Z.bits_inj'. intros n Hn. rewrite Z.land_spec, Z.ldiff_spec, Z.bits_0.
  by destruct (Z.testbit x n), (Z.testbit m n).
Qed.
Lemma tst_lor_other x m k : Z.land m k = 0 -> tst (Z.lor x m) k = tst x k.
Proof.
  intros Hmk. unfold tst. do 2 f_equal.
  apply Z.bits_inj'. intros n Hn. rewrite !Z.land_spec, Z.lor_spec.
  assert (Hb : Z.testbit (Z.land m k) n = false) by (rewrite Hmk; apply Z.bits_0).
  rewrite Z.land_spec in Hb.
  destruct (Z.testbit x n), (Z.testbit m n), (Z.testbit k n); done.
Qed.
Lemma tst_clr_other x m k : Z.land m k = 0 -> tst (clr x m) k = tst x k.
Proof.
  intros Hmk. unfold tst, clr. do 2 f_equal.
  apply Z.bits_inj'. intros n Hn. rewrite !Z.land_spec, Z.ldiff_spec.
  assert (Hb : Z.testbit (Z.land m k) n = false) by (rewrite Hmk; apply Z.bits_0).
  rewrite Z.land_spec in Hb.
  destruct (Z.testbit x n), (Z.testbit m n), (Z.testbit k n); done.
Qed.
Lemma land_pow2 x k : 0 <= k -> Z.land x (2 ^ k) = if Z.testbit x k then 2 ^ k else 0.
Proof.
  intros Hk. apply Z.bits_inj'. intros n Hn. rewrite Z.land_spec, Z.pow2_bits_eqb by done.
  destruct (Z.eqb_spec k n) as [->|].
  - rewrite andb_true_r. destruct (Z.testbit x n); [|by rewrite Z.bits_0].
    by rewrite Z.pow2_bits_true.
  - rewrite andb_false_r. destruct (Z.testbit x k); [|by rewrite Z.bits_0].
    by rewrite Z.pow2_bits_false.
Qed.
Lemma tst_0_l m : tst 0 m = false.
Proof. done. Qed.

Create Rewrite HintDb flags.
Create HintDb xv6.
#[export] Hint Rewrite tst_clr_same tst_0_l : flags.
#[export] Hint Rewrite tst_lor_same using (first [lia | discriminate]) : flags.
#[export] Hint Rewrite tst_lor_other tst_clr_other using reflexivity : flags.

(** ** Lists as byte arrays *)

(** Overwrite [length bs] elements of [l] from index [off] on. *)
Definition splice {A} (off : nat) (bs l : list A) : list A :=
  take off l ++ bs ++ drop (off + length bs) l.

(** The [n] elements of [l] from [off] on. *)
Definition slice {A} (off n : nat) (l : list A) : list A := take n (drop off l).

Definition is_byte (b : Z) : Prop := 0 <= b < 256.
Definition bytes (l : list Z) : Prop := Forall is_byte l.

Section Splice.
Context {A : Type}.
Implicit Types (l bs : list A) (off n i : nat).

Lemma length_splice off bs l :
  (off + length bs <= length l)%nat -> length (splice off bs l) = length l.
Proof. intros. unfold splice. rewrite !length_app, length_take, length_drop. lia. Qed.

Lemma lookup_splice_in off bs l i :
  (off <= length l)%nat -> (off <= i < off + length bs)%nat ->
  splice off bs l !! i = bs !! (i - off)%nat.
Proof.
  intros. unfold splice. rewrite lookup_app_r by (rewrite length_take; lia).
  rewrite length_take, Nat.min_l by lia. by rewrite lookup_app_l by lia.
Qed.

Lemma lookup_splice_out off bs l i :
  (off + length bs <= length l)%nat -> (i < off \/ off + length bs <= i)%nat ->
  splice off bs l !! i = l !! i.
Proof.
  intros Hlen [Hi|Hi]; unfold splice.
  - rewrite lookup_app_l by (rewrite length_take; lia). by rewrite lookup_take_lt.
  - rewrite lookup_app_r by (rewrite length_take; lia).
    rewrite length_take, Nat.min_l by lia.
    rewrite lookup_app_r by lia. rewrite lookup_drop. f_equal. lia.
Qed.

Lemma length_slice off n l : length (slice off n l) = (n `min` (length l - off))%nat.
Proof. unfold slice. by rewrite length_take, length_drop. Qed.

Lemma lookup_slice off n l i : (i < n)%nat -> slice off n l !! i = l !! (off + i)%nat.
Proof. intros. unfold slice. by rewrite lookup_take_lt, lookup_drop. Qed.

Lemma slice_app_l off n l l' : (off + n <= length l)%nat -> slice off n (l ++ l') = slice off n l.
Proof. intros. unfold slice. rewrite drop_app_le, take_app_le by (rewrite ?length_drop; lia). done. Qed.

Lemma slice_app_r off n l l' : (length l <= off)%nat -> slice off n (l ++ l') = slice (off - length l) n l'.
Proof. intros. unfold slice. by rewrite drop_app_ge. Qed.

Lemma slice_splice_same off bs l :
  (off + length bs <= length l)%nat -> slice off (length bs) (splice off bs l) = bs.
Proof.
  intros Hlen. apply list_eq. intros i. destruct (decide (i < length bs)%nat).
  - rewrite lookup_slice, lookup_splice_in by lia. f_equal. lia.
  - rewrite !lookup_ge_None_2; [done|lia|]. rewrite length_slice. lia.
Qed.

Lemma slice_splice_grow off bs l :
  (off <= length l)%nat -> slice off (length bs) (splice off bs l) = bs.
Proof.
  intros Hl. unfold slice, splice. rewrite drop_app_ge by (rewrite length_take; lia).
  rewrite length_take, Nat.min_l, Nat.sub_diag, drop_0 by lia. by rewrite take_app_length.
Qed.

Lemma slice_splice_other off off' n bs l :
  (off + length bs <= length l)%nat ->
  (off' + n <= off \/ off + length bs <= off')%nat ->
  slice off' n (splice off bs l) = slice off' n l.
Proof.
  intros Hlen Hd. apply list_eq. intros i. destruct (decide (i < n)%nat).
  - rewrite !lookup_slice by done. apply lookup_splice_out; lia.
  - rewrite !lookup_ge_None_2; [done| |]; rewrite length_slice; lia.
Qed.

Lemma slice_splice_inner off j n bs l :
  (off + length bs <= length l)%nat -> (j + n <= length bs)%nat ->
  slice (off + j) n (splice off bs l) = slice j n bs.
Proof.
  intros Hl Hj. apply list_eq. intros i. destruct (decide (i < n)%nat).
  - rewrite !lookup_slice, lookup_splice_in by lia. f_equal. lia.
  - rewrite !lookup_ge_None_2; [done| |]; rewrite length_slice; lia.
Qed.
End Splice.

Lemma splice_app_r {B} off (bs a l : list B) : splice (length a + off) bs (a ++ l) = a ++ splice off bs l.
Proof.
  unfold splice. rewrite take_app_add, <- Nat.add_assoc, drop_app_add. by rewrite <- app_assoc.
Qed.

Lemma splice_app_l {B} off (bs a l : list B) :
  (off + length bs <= length a)%nat -> splice off bs (a ++ l) = splice off bs a ++ l.
Proof.
  intros H. unfold splice. rewrite take_app_le, drop_app_le by lia. by rewrite <- !app_assoc.
Qed.

Lemma splice_nil {B} off (l : list B) : splice off [] l = l.
Proof. unfold splice. simpl. by rewrite Nat.add_0_r, take_drop. Qed.

(** Two adjacent overwrites are one. *)
Lemma splice_splice_adj {B} off (a b l : list B) :
  (off <= length l)%nat -> splice (off + length a) b (splice off a l) = splice off (a ++ b) l.
Proof.
  intros H. unfold splice. rewrite length_app.
  assert (E : length (take off l ++ a) = (off + length a)%nat) by (rewrite length_app, length_take; lia).
  rewrite (app_assoc (take off l) a). set (r := drop (off + length a) l).
  replace (take (off + length a) ((take off l ++ a) ++ r)) with (take off l ++ a)
    by (by rewrite <- E, take_app_length).
  replace (drop (off + length a + length b) ((take off l ++ a) ++ r)) with (drop (length b) r)
    by (by rewrite <- E, drop_app_add).
  unfold r. rewrite drop_drop, <- !app_assoc. do 3 f_equal. f_equal. lia.
Qed.

Lemma bytes_splice off bs l : bytes bs -> bytes l -> bytes (splice off bs l).
Proof.
  intros ??. unfold splice, bytes. rewrite !Forall_app.
  repeat split; [by apply Forall_take|done|by apply Forall_drop].
Qed.
Lemma bytes_slice off n l : bytes l -> bytes (slice off n l).
Proof. intros. unfold slice. by apply Forall_take, Forall_drop. Qed.

(** ** Little-endian integers in byte arrays *)

Fixpoint le_enc (n : nat) (z : Z) : list Z :=
  match n with
  | O => []
  | S n => z mod 256 :: le_enc n (z / 256)
  end.

Fixpoint le_dec (bs : list Z) : Z :=
  match bs with
  | [] => 0
  | b :: bs => b + 256 * le_dec bs
  end.

(** Load and store an [n]-byte little-endian word at byte offset [off]. *)
Definition ldw (n : nat) (l : list Z) (off : nat) : Z := le_dec (slice off n l).
Definition stw (n : nat) (off : nat) (z : Z) (l : list Z) : list Z :=
  splice off (le_enc n z) l.

Lemma length_le_enc n z : length (le_enc n z) = n.
Proof. revert z. induction n; simpl; auto. Qed.

Lemma bytes_le_enc n z : bytes (le_enc n z).
Proof.
  revert z. induction n; intros; simpl; constructor; [|apply IHn].
  unfold is_byte. apply Z.mod_pos_bound. lia.
Qed.

Lemma le_dec_enc n z : le_dec (le_enc n z) = z mod 256 ^ Z.of_nat n.
Proof.
  revert z. induction n as [|n IH]; intros z; simpl le_enc; simpl le_dec.
  - by rewrite Z.mod_1_r.
  - rewrite IH, Nat2Z.inj_succ, Z.pow_succ_r by lia.
    rewrite Z.rem_mul_r by (try lia; apply Z.pow_nonzero; lia). lia.
Qed.

Lemma le_dec_range l : bytes l -> 0 <= le_dec l < 256 ^ Z.of_nat (length l).
Proof.
  induction 1 as [|b l Hb _ IH]; [simpl; lia|].
  simpl length. rewrite Nat2Z.inj_succ, Z.pow_succ_r by lia.
  simpl le_dec. unfold is_byte in Hb. lia.
Qed.

Lemma le_enc_dec l : bytes l -> le_enc (length l) (le_dec l) = l.
Proof.
  induction 1 as [|b l Hb _ IH]; [done|]. simpl. unfold is_byte in Hb.
  f_equal.
  - rewrite Z.mul_comm, Z_mod_plus_full. by apply Z.mod_small.
  - rewrite Z.mul_comm, Z_div_plus_full by lia.
    rewrite Z.div_small by lia. exact IH.
Qed.

(** Arrays of words. *)
Lemma length_words_enc n (a : list Z) : length (a ≫= le_enc n) = (n * length a)%nat.
Proof.
  induction a as [|z a IH]; [simpl; lia|].
  rewrite bind_cons, length_app, length_le_enc, IH. simpl length. lia.
Qed.

Lemma ldw_words_enc n (a : list Z) i z :
  a !! i = Some z -> ldw n (a ≫= le_enc n) (n * i) = z mod 256 ^ Z.of_nat n.
Proof.
  intros Hi. rewrite <- le_dec_enc. unfold ldw. f_equal. revert i Hi.
  induction a as [|y a IH]; intros [|i] Hi; [done|done| |]; rewrite bind_cons.
  - injection Hi as ->. replace (n * 0)%nat with 0%nat by lia. unfold slice. rewrite drop_0.
    rewrite take_app_le by (rewrite length_le_enc; lia). rewrite take_ge; [done|].
    rewrite length_le_enc. lia.
  - simpl in Hi. rewrite <- (IH i Hi). unfold slice. f_equal. rewrite drop_app_ge by (rewrite length_le_enc; lia).
    f_equal. rewrite length_le_enc. lia.
Qed.

Lemma length_stw n off z l :
  (off + n <= length l)%nat -> length (stw n off z l) = length l.
Proof. intros. unfold stw. apply length_splice. by rewrite length_le_enc. Qed.

(** Arithmetic about the lengths of arrays that were stored to. *)
Ltac len_lia := repeat rewrite length_stw by len_lia; lia.

Lemma ldw_stw_same n off z l :
  (off + n <= length l)%nat -> ldw n (stw n off z l) off = z mod 256 ^ Z.of_nat n.
Proof.
  intros. unfold ldw, stw. rewrite <- (length_le_enc n z) at 1.
  rewrite slice_splice_same by (by rewrite length_le_enc). apply le_dec_enc.
Qed.

Lemma ldw_stw_other n n' off off' z l :
  (off + n <= length l)%nat -> (off' + n' <= off \/ off + n <= off')%nat ->
  ldw n' (stw n off z l) off' = ldw n' l off'.
Proof.
  intros. unfold ldw, stw. by rewrite slice_splice_other by (rewrite length_le_enc; lia).
Qed.

Lemma ldw_range n l off :
  bytes l -> (off + n <= length l)%nat -> 0 <= ldw n l off < 256 ^ Z.of_nat n.
Proof.
  intros Hb Hl. unfold ldw. pose proof (le_dec_range (slice off n l)) as H.
  rewrite length_slice, Nat.min_l in H by lia. apply H. by apply bytes_slice.
Qed.

Lemma bytes_stw n off z l : bytes l -> bytes (stw n off z l).
Proof. intros. apply bytes_splice; [apply bytes_le_enc|done]. Qed.

(** ** Layouts of structures: fields with their sizes, in order *)

Abbreviation layout := (list (string * Z)).
Definition sizeof (l : layout) : Z := foldr (fun f n => snd f + n) 0 l.
Fixpoint offsetof (f : string) (l : layout) : Z :=
  match l with
  | [] => 0
  | (g, n) :: l => if bool_decide (f = g) then 0 else n + offsetof f l
  end.

(** ** The kernel monad

    A kernel routine runs on the state of its component and either returns
    ([Ok]), puts the calling process to sleep on a channel ([Sleep]: the code
    reached [sleep(chan, lk)] and another process or an interrupt must run
    before it goes on), calls [panic] ([Panic]), or has used up the fuel given
    to one of its loops ([NoFuel]). *)

Inductive chan : Type :=
| ChanBuf (b : nat)        (* a struct buf: bget, iderw *)
| ChanInode (i : nat)      (* a struct inode: ilock *)
| ChanPipeRead (p : Z)     (* &p->nread *)
| ChanPipeWrite (p : Z)    (* &p->nwrite *)
| ChanProc (p : nat)       (* a struct proc: wait *)
| ChanTicks                (* &ticks *)
| ChanInput.               (* &input.r *)

#[global] Instance chan_eq_dec : EqDecision chan.
Proof. solve_decision. Defined.

Inductive outcome (S A : Type) : Type :=
| Ok (a : A) (s : S)
| Sleep (c : chan) (s : S)
| Panic (msg : string) (s : S)
| NoFuel.
Arguments Ok {S A} a s.
Arguments Sleep {S A} c s.
Arguments Panic {S A} msg s.
Arguments NoFuel {S A}.

Definition M (S A : Type) : Type := S -> outcome S A.

#[global] Instance M_ret S : MRet (M S) := fun A a s => Ok a s.
#[global] Instance M_bind S : MBind (M S) := fun A B k m s =>
  match m s with
  | Ok a s' => k a s'
  | Sleep c s' => Sleep c s'
  | Panic msg s' => Panic msg s'
  | NoFuel => NoFuel
  end.

Definition gets {S A} (f : S -> A) : M S A := fun s => Ok (f s) s.
Definition modify {S} (f : S -> S) : M S unit := fun s => Ok tt (f s).
Definition panic {S A} (msg : string) : M S A := fun s => Panic msg s.
Definition sleep_on {S A} (c : chan) : M S A := fun s => Sleep c s.
Definition when {S} (b : bool) (m : M S unit) : M S unit := if b then m else mret tt.

(** Run an action of a component on the part of a larger state that is its. *)
Definition zoom {S T A} (get : S -> T) (put : T -> S -> S) (m : M T A) : M S A :=
  fun s => match m (get s) with
           | Ok a t => Ok a (put t s)
           | Sleep c t => Sleep c (put t s)
           | Panic msg t => Panic msg (put t s)
           | NoFuel => NoFuel
           end.

(** A C loop: [body] goes round again with [inl] or leaves with [inr]. *)
Fixpoint loop {S St R} (fuel : nat) (body : St -> M S (St + R)) (st : St) : M S R :=
  match fuel with
  | O => fun _ => NoFuel
  | S fuel => r ← body st;
              match r with inl st' => loop fuel body st' | inr r => mret r end
  end.

(** [wp m Q s]: run from [s], [m] returns, and [Q] holds of its result and
    final state.  A run that sleeps, panics or runs out of fuel does not
    satisfy it. *)
Definition wp {S A} (m : M S A) (Q : A -> S -> Prop) (s : S) : Prop :=
  match m s with Ok a s' => Q a s' | _ => False end.

Section Wp.
Context {S : Type}.

Lemma wp_ret {A} (a : A) (Q : A -> S -> Prop) s : Q a s -> wp (mret a) Q s.
Proof. done. Qed.

Lemma wp_bind {A B} (m : M S A) (k : A -> M S B) Q s :
  wp m (fun a => wp (k a) Q) s -> wp (m ≫= k) Q s.
Proof. unfold wp, mbind, M_bind. by destruct (m s). Qed.

Lemma wp_mono {A} (m : M S A) (Q Q' : A -> S -> Prop) s :
  wp m Q s -> (forall a s', Q a s' -> Q' a s') -> wp m Q' s.
Proof. unfold wp. destruct (m s); auto. Qed.

Lemma wp_gets {A} (f : S -> A) (Q : A -> S -> Prop) s : Q (f s) s -> wp (gets f) Q s.
Proof. done. Qed.

Lemma wp_modify (f : S -> S) (Q : unit -> S -> Prop) s : Q tt (f s) -> wp (modify f) Q s.
Proof. done. Qed.

Lemma wp_when b (m : M S unit) (Q : unit -> S -> Prop) s :
  (b = true -> wp m Q s) -> (b = false -> Q tt s) -> wp (when b m) Q s.
Proof. intros H1 H2. destruct b; [by apply H1|by apply H2]. Qed.

Lemma wp_if {A} (b : bool) (m1 m2 : M S A) (Q : A -> S -> Prop) s :
  (b = true -> wp m1 Q s) -> (b = false -> wp m2 Q s) -> wp (if b then m1 else m2) Q s.
Proof. destruct b; auto. Qed.

Lemma wp_zoom {T A} (get : S -> T) (put : T -> S -> S) (m : M T A) Q s :
  wp m (fun a t => Q a (put t s)) (get s) -> wp (zoom get put m) Q s.
Proof. unfold wp, zoom. by destruct (m (get s)). Qed.

Lemma wp_elim {A} (m : M S A) Q s : wp m Q s -> exists a s', m s = Ok a s' /\ Q a s'.
Proof. unfold wp. destruct (m s); naive_solver. Qed.

Lemma wp_run {A} (m : M S A) (Q : A -> S -> Prop) s a s' : wp m Q s -> m s = Ok a s' -> Q a s'.
Proof. unfold wp. intros H Hm. by rewrite Hm in H. Qed.

Lemma wp_intro {A} (m : M S A) (Q : A -> S -> Prop) s a s' :
  m s = Ok a s' -> Q a s' -> wp m Q s.
Proof. unfold wp. by intros ->. Qed.

(** The loop rules: an invariant and a measure below the fuel, the measure
    first as a ghost number the invariant mentions, then as a function. *)
Lemma wp_loop_ghost {St R} (I : nat -> St -> S -> Prop)
    (body : St -> M S (St + R)) (Q : R -> S -> Prop) fuel n st s :
  (forall n st s, I n st s ->
     wp (body st) (fun r s' => match r with
                               | inl st' => exists n', (n' < n)%nat /\ I n' st' s'
                               | inr r => Q r s'
                               end) s) ->
  I n st s -> (n < fuel)%nat -> wp (loop fuel body st) Q s.
Proof.
  intros Hbody. revert n st s. induction fuel as [|fuel IH]; intros n st s HI Hm; [lia|].
  simpl. apply wp_bind. eapply wp_mono; [by eapply Hbody|].
  intros [st'|r] s' H; [|done]. destruct H as (n' & Hn & HI'). eapply IH; [done|lia].
Qed.

Lemma wp_loop {St R} (I : St -> S -> Prop) (meas : St -> S -> nat)
    (body : St -> M S (St + R)) (Q : R -> S -> Prop) fuel st s :
  (forall st s, I st s ->
     wp (body st) (fun r s' => match r with
                               | inl st' => I st' s' /\ (meas st' s' < meas st s)%nat
                               | inr r => Q r s'
                               end) s) ->
  I st s -> (meas st s < fuel)%nat -> wp (loop fuel body st) Q s.
Proof.
  intros Hbody HI Hm.
  apply (wp_loop_ghost (fun n st s => n = meas st s /\ I st s) _ _ _ (meas st s)); [|done|done].
  intros n st1 s1 [-> HI1]. eapply wp_mono; [by apply Hbody|].
  intros [st'|r] s'; [|done]. intros [HI' Hm']. eauto.
Qed.
End Wp.

(** ** Frames

    [keeps R m]: whenever [m] returns, its initial and final states are related
    by [R]; for what a routine leaves alone whatever it finds. *)
Definition keeps {S A} (R : S -> S -> Prop) (m : M S A) : Prop :=
  forall s a s', m s = Ok a s' -> R s s'.

Section Keeps.
Context {S : Type} (R : S -> S -> Prop) `{!PreOrder R}.

Lemma keeps_ret {A} (a : A) : keeps R (mret a : M S A).
Proof. intros s b s' [= _ <-]. reflexivity. Qed.

Lemma keeps_bind {A B} (m : M S A) (k : A -> M S B) :
  keeps R m -> (forall a, keeps R (k a)) -> keeps R (m ≫= k).
Proof.
  intros Hm Hk s b s'. unfold mbind, M_bind. destruct (m s) as [a s1| | |] eqn:E; try done.
  intros Hr. etrans; [by eapply Hm|by eapply Hk].
Qed.

Lemma keeps_gets {A} (f : S -> A) : keeps R (gets f).
Proof. intros s b s' [= _ <-]. reflexivity. Qed.

Lemma keeps_panic {A} msg : keeps R (panic msg : M S A).
Proof. done. Qed.

Lemma keeps_sleep {A} c : keeps R (sleep_on c : M S A).
Proof. done. Qed.

Lemma keeps_when b (m : M S unit) : keeps R m -> keeps R (when b m).
Proof. destruct b; [done|]. intros _. apply keeps_ret. Qed.

Lemma keeps_loop {St A} fuel (body : St -> M S (St + A)) st :
  (forall st, keeps R (body st)) -> keeps R (loop fuel body st).
Proof.
  intros Hb. revert st. induction fuel as [|fuel IH]; intros st; [done|]. simpl.
  apply keeps_bind; [done|]. intros [st'|r]; [done|apply keeps_ret].
Qed.
End Keeps.

(** Decompose a routine; [keeps_op] solves the component's own operations. *)
Ltac keeps_step keeps_op :=
  repeat first
    [ progress (intros; cbv zeta)
    | lazymatch goal with
      | |- PreOrder _ => apply _
      | |- keeps _ (mret _) => apply keeps_ret
      | |- keeps _ (_ ≫= _) => apply keeps_bind
      | |- keeps _ (gets _) => apply keeps_gets
      | |- keeps _ (panic _) => apply keeps_panic
      | |- keeps _ (sleep_on _) => apply keeps_sleep
      | |- keeps _ (when _ _) => apply keeps_when
      | |- keeps _ (loop _ _ _) => apply keeps_loop
      | |- keeps _ (if ?b then _ else _) => destruct b
      | |- keeps _ (match ?e with _ => _ end) => let E := fresh "E" in destruct e eqn:E
      end
    | keeps_op ].

(** Step through one monadic operation. *)
Ltac wp_step :=
  lazymatch goal with
  | |- wp (mret _) _ _ => apply wp_ret
  | |- wp (_ ≫= _) _ _ => apply wp_bind
  | |- wp (gets _) _ _ => apply wp_gets
  | |- wp (modify _) _ _ => apply wp_modify
  | |- wp (when _ _) _ _ => apply wp_when; intros ?
  | |- wp (if _ then _ else _) _ _ => apply wp_if; intros ?
  | |- wp (zoom _ _ _) _ _ => apply wp_zoom
  end; cbv beta.

(** ** Partial correctness

    [wlp m Q W s]: if [m] returns, [Q] holds of its result and final state, and
    if it goes to sleep, [W] holds of the channel and the state it leaves.
    Used where a routine calls components that may themselves sleep or panic. *)
Definition wlp {S A} (m : M S A) (Q : A -> S -> Prop) (W : chan -> S -> Prop) (s : S) : Prop :=
  match m s with Ok a s' => Q a s' | Sleep c s' => W c s' | _ => True end.

Section Wlp.
Context {S : Type}.

Lemma wlp_ret {A} (a : A) (Q : A -> S -> Prop) W s : Q a s -> wlp (mret a) Q W s.
Proof. done. Qed.

Lemma wlp_bind {A B} (m : M S A) (k : A -> M S B) Q W s :
  wlp m (fun a s' => wlp (k a) Q W s') W s -> wlp (m ≫= k) Q W s.
Proof. unfold wlp, mbind, M_bind. by destruct (m s). Qed.

Lemma wlp_mono {A} (m : M S A) (Q Q' : A -> S -> Prop) (W W' : chan -> S -> Prop) s :
  wlp m Q W s -> (forall a s', Q a s' -> Q' a s') -> (forall c s', W c s' -> W' c s') ->
  wlp m Q' W' s.
Proof. unfold wlp. destruct (m s); auto. Qed.

Lemma wlp_seq {A B} (m : M S A) (k : A -> M S B) P Q W s :
  wlp m P W s -> (forall a s', P a s' -> wlp (k a) Q W s') -> wlp (m ≫= k) Q W s.
Proof. intros Hm Hk. apply wlp_bind. by eapply wlp_mono. Qed.

Lemma wlp_gets {A} (f : S -> A) (Q : A -> S -> Prop) W s : Q (f s) s -> wlp (gets f) Q W s.
Proof. done. Qed.

Lemma wlp_modify (f : S -> S) (Q : unit -> S -> Prop) W s : Q tt (f s) -> wlp (modify f) Q W s.
Proof. done. Qed.

Lemma wlp_panic {A} msg (Q : A -> S -> Prop) W s : wlp (panic msg) Q W s.
Proof. done. Qed.

Lemma wlp_sleep {A} c (Q : A -> S -> Prop) (W : chan -> S -> Prop) s : W c s -> wlp (sleep_on c) Q W s.
Proof. done. Qed.

Lemma wlp_when b (m : M S unit) (Q : unit -> S -> Prop) W s :
  (b = true -> wlp m Q W s) -> (b = false -> Q tt s) -> wlp (when b m) Q W s.
Proof. destruct b; unfold when; intros H1 H2; [by apply H1|by apply wlp_ret, H2]. Qed.

Lemma wlp_if {A} (b : bool) (m1 m2 : M S A) (Q : A -> S -> Prop) W s :
  (b = true -> wlp m1 Q W s) -> (b = false -> wlp m2 Q W s) -> wlp (if b then m1 else m2) Q W s.
Proof. destruct b; auto. Qed.

Lemma wlp_zoom {T A} (get : S -> T) (put : T -> S -> S) (m : M T A) (Q : A -> S -> Prop) (W : chan -> S -> Prop) s :
  wlp m (fun a t => Q a (put t s)) (fun c t => W c (put t s)) (get s) -> wlp (zoom get put m) Q W s.
Proof. unfold wlp, zoom. by destruct (m (get s)). Qed.

Lemma wlp_loop {St R} (I : St -> S -> Prop) (body : St -> M S (St + R)) (Q : R -> S -> Prop) W fuel st s :
  I st s ->
  (forall st s, I st s ->
     wlp (body st) (fun r s' => match r with inl st' => I st' s' | inr v => Q v s' end) W s) ->
  wlp (loop fuel body st) Q W s.
Proof.
  intros HI Hbody. revert st s HI. induction fuel as [|fuel IH]; intros st s HI; [done|].
  simpl. apply wlp_bind. eapply wlp_mono; [by apply Hbody| |done].
  intros [st'|v] s'; [apply IH|apply wlp_ret].
Qed.

Lemma wlp_wp {A} (m : M S A) (Q : A -> S -> Prop) W s : wp m Q s -> wlp m Q W s.
Proof. unfold wp, wlp. by destruct (m s). Qed.

Lemma wlp_ok {A} (m : M S A) Q W s a s' : wlp m Q W s -> m s = Ok a s' -> Q a s'.
Proof. unfold wlp. intros H E. by rewrite E in H. Qed.

Lemma wlp_slept {A} (m : M S A) Q W s c s' : wlp m Q W s -> m s = Sleep c s' -> W c s'.
Proof. unfold wlp. intros H E. by rewrite E in H. Qed.

Lemma wlp_intro {A} (m : M S A) (Q : A -> S -> Prop) (W : chan -> S -> Prop) s :
  (forall a s', m s = Ok a s' -> Q a s') -> (forall c s', m s = Sleep c s' -> W c s') -> wlp m Q W s.
Proof. unfold wlp. intros. by destruct (m s); auto. Qed.

End Wlp.

Ltac wlp_step :=
  lazymatch goal with
  | |- wlp (mret _) _ _ _ => apply wlp_ret
  | |- wlp (_ ≫= _) _ _ _ => apply wlp_bind
  | |- wlp (gets _) _ _ _ => apply wlp_gets
  | |- wlp (modify _) _ _ _ => apply wlp_modify
  | |- wlp (panic _) _ _ _ => apply wlp_panic
  | |- wlp (sleep_on _) _ _ _ => apply wlp_sleep
  | |- wlp (when _ _) _ _ _ => apply wlp_when; intros ?
  | |- wlp (if _ then _ else _) _ _ _ => apply wlp_if; intros ?
  | |- wlp (zoom _ _ _) _ _ _ => apply wlp_zoom
  end; cbv beta.

(** The value of a computation that returned. *)
Definition returned {S A} (o : outcome S A) : option A := match o with Ok a _ => Some a | _ => None end.
Lemma returned_Ok {S A} (o : outcome S A) a : returned o = Some a -> exists s, o = Ok a s.
Proof. destruct o; simpl; intros; simplify_eq; eauto. Qed.

(** ** Generic list lemmas *)

Lemma alter_insert_some {A} (f : A -> A) (l : list A) i a :
  l !! i = Some a -> alter f i l = <[i := f a]> l.
Proof.
  intros Hi. apply list_eq. intros j. destruct (decide (i = j)) as [<-|].
  - rewrite list_lookup_alter_eq, Hi, list_lookup_insert_eq; [done|]. by eapply lookup_lt_Some.
  - by rewrite list_lookup_alter_ne, list_lookup_insert_ne.
Qed.

(** Turning off exactly one element of a filtered list without duplicates
    makes it one shorter. *)
Lemma length_filter_flip {A} (P P' : A -> Prop)
    `{!forall x, Decision (P x)} `{!forall x, Decision (P' x)} (l : list A) a :
  NoDup l -> a ∈ l -> P a -> ~ P' a -> (forall x, x <> a -> P x <-> P' x) ->
  length (filter P l) = S (length (filter P' l)).
Proof.
  intros Hnd Hin HP HP' Hiff. induction l as [|x l IH]; [set_solver|].
  apply NoDup_cons in Hnd as [Hx Hnd]. apply elem_of_cons in Hin as [->|Hin].
  - rewrite filter_cons_True, filter_cons_False by done. simpl. f_equal. f_equal.
    clear IH. induction l as [|y l IHl]; [done|].
    apply not_elem_of_cons in Hx as [Hy Hx]. apply NoDup_cons in Hnd as [_ Hnd].
    destruct (decide (P y)).
    + rewrite !filter_cons_True by naive_solver. f_equal. auto.
    + rewrite !filter_cons_False by naive_solver. auto.
  - assert (x <> a) by set_solver. destruct (decide (P x)).
    + rewrite !filter_cons_True by naive_solver. simpl. f_equal. auto.
    + rewrite !filter_cons_False by naive_solver. auto.
Qed.
