(* ===== verification/CString.v ===== *)
(** * The C string and memory routines: [src/string.c] and [src/ulib.c]

    Memory is a function from addresses to bytes.  A pointer that is only read
    through is the view [i |-> p[i]] of the memory behind it, and [p++] is
    [next p]; the routines that write take the memory and return the new one.
    The loops run on their own counter, or on fuel where the source has no
    bound ([strlen], [strcpy], [strcmp], [strchr], [atoi]). *)

From stdpp Require Import base numbers list.
From Stdlib Require Import Lia ZArith ZifyBool.
From S2P Require Import Prelude.
Open Scope Z_scope.

Definition mem : Type := Z -> Z.
Definition upd (m : mem) (a v : Z) : mem := fun x => if x =? a then v else m x.

(** What a [const char*] sees, and the pointer one further. *)
Definition at_ptr (m : mem) (p : Z) : Z -> Z := fun i => m (p + i).
Definition next (p : Z -> Z) : Z -> Z := fun i => p (i + 1).

(** A byte array as what a pointer to its start sees. *)
Definition view (l : list Z) : Z -> Z := fun i => default 0 (l !! Z.to_nat i).

(** ** src/string.c *)

Module Kernel.

(** x86.h: [rep stosb]. *)
Fixpoint stosb (m : mem) (addr data : Z) (cnt : nat) : mem :=
  match cnt with
  | O => m
  | S cnt => stosb (upd m addr (u8 data)) (addr + 1) data cnt
  end.

Definition memset (m : mem) (dst c : Z) (n : Z) : mem := stosb m dst c (Z.to_nat n).

Fixpoint memcmp (s1 s2 : Z -> Z) (n : nat) : Z :=
  match n with
  | O => 0
  | S n => if s1 0 =? s2 0 then memcmp (next s1) (next s2) n else s1 0 - s2 0
  end.

(** [while(n-- > 0) *d++ = *s++] *)
Fixpoint copy_up (m : mem) (d s : Z) (n : nat) : mem :=
  match n with
  | O => m
  | S n => copy_up (upd m d (m s)) (d + 1) (s + 1) n
  end.

(** [while(n-- > 0) *--d = *--s] *)
Fixpoint copy_down (m : mem) (d s : Z) (n : nat) : mem :=
  match n with
  | O => m
  | S n => copy_down (upd m (d - 1) (m (s - 1))) (d - 1) (s - 1) n
  end.

Definition memmove (m : mem) (dst src : Z) (n : nat) : mem :=
  let s := src in
  let d := dst in
  if (s <? d) && (d <? s + Z.of_nat n)
  then copy_down m (d + Z.of_nat n) (s + Z.of_nat n) n
  else copy_up m d s n.

Definition memcpy (m : mem) (dst src : Z) (n : nat) : mem := memmove m dst src n.

Fixpoint strncmp (p q : Z -> Z) (n : nat) : Z :=
  match n with
  | O => 0
  | S n => if negb (p 0 =? 0) && (p 0 =? q 0) then strncmp (next p) (next q) n
           else u8 (p 0) - u8 (q 0)
  end.

(** [while(n-- > 0) *s++ = 0] *)
Fixpoint zero_pad (m : mem) (s : Z) (n : nat) : mem :=
  match n with
  | O => m
  | S n => zero_pad (upd m s 0) (s + 1) n
  end.

Fixpoint strncpy (m : mem) (s t : Z) (n : nat) : mem :=
  match n with
  | O => m
  | S n => let c := m t in
           let m := upd m s c in
           if negb (c =? 0) then strncpy m (s + 1) (t + 1) n else zero_pad m (s + 1) n
  end.

(** The loop of [safestrcpy], entered with [n >= 1]: [--n > 0] stops it one
    byte early, and the last byte written is NUL. *)
Fixpoint safestrcpy_loop (m : mem) (s t : Z) (n : nat) : mem :=
  match n with
  | O => m
  | S O => upd m s 0
  | S n => let c := m t in
           let m := upd m s c in
           if negb (c =? 0) then safestrcpy_loop m (s + 1) (t + 1) n else upd m (s + 1) 0
  end.

Definition safestrcpy (m : mem) (s t n : Z) : mem :=
  if n <=? 0 then m else safestrcpy_loop m s t (Z.to_nat n).

Fixpoint strlen_from (fuel : nat) (s : Z -> Z) (n : Z) : option Z :=
  match fuel with
  | O => None
  | S fuel => if s n =? 0 then Some n else strlen_from fuel s (n + 1)
  end.

Definition strlen (fuel : nat) (s : Z -> Z) : option Z := strlen_from fuel s 0.

End Kernel.

(** ** src/ulib.c *)

Module Ulib.

Fixpoint strcpy (fuel : nat) (m : mem) (s t : Z) : option mem :=
  match fuel with
  | O => None
  | S fuel => let c := m t in
              let m := upd m s c in
              if negb (c =? 0) then strcpy fuel m (s + 1) (t + 1) else Some m
  end.

Fixpoint strcmp (fuel : nat) (p q : Z -> Z) : option Z :=
  match fuel with
  | O => None
  | S fuel => if negb (p 0 =? 0) && (p 0 =? q 0) then strcmp fuel (next p) (next q)
              else Some (u8 (p 0) - u8 (q 0))
  end.

(** The index of the first [c] before the terminating NUL, or [-1] for the
    null pointer. *)
Fixpoint strchr_from (fuel : nat) (s : Z -> Z) (c i : Z) : option Z :=
  match fuel with
  | O => None
  | S fuel => if s i =? 0 then Some (-1)
              else if s i =? c then Some i
              else strchr_from fuel s c (i + 1)
  end.

Definition strchr (fuel : nat) (s : Z -> Z) (c : Z) : option Z := strchr_from fuel s c 0.

Fixpoint atoi_from (fuel : nat) (s : Z -> Z) (n : Z) : option Z :=
  match fuel with
  | O => None
  | S fuel => if (48 <=? s 0) && (s 0 <=? 57)
              then atoi_from fuel (next s) (s32 (n * 10 + s 0 - 48))
              else Some n
  end.

Definition atoi (fuel : nat) (s : Z -> Z) : option Z := atoi_from fuel s 0.

(** The user-level [memmove] always copies upwards. *)
Definition memmove (m : mem) (vdst vsrc n : Z) : mem :=
  Kernel.copy_up m vdst vsrc (Z.to_nat n).

End Ulib.

(** ** Specification vocabulary *)

(** The bytes of the string at [p], cut at its NUL or after [n] bytes. *)
Fixpoint cstrn (p : Z -> Z) (n : nat) : list Z :=
  match n with
  | O => []
  | S n => if p 0 =? 0 then [] else p 0 :: cstrn (next p) n
  end.

(** A fixed-size name field holding the string: padded with NULs to [n]. *)
Definition padded (n : nat) (l : list Z) : list Z := l ++ replicate (n - length l) 0.

Definition is_char_view (p : Z -> Z) : Prop := forall i, is_byte (p i).

(** ** Lemmas *)

Lemma upd_eq m a v : upd m a v a = v.
Proof. unfold upd. by rewrite Z.eqb_refl. Qed.
Lemma upd_ne m a v x : x <> a -> upd m a v x = m x.
Proof. unfold upd. intros. by rewrite (proj2 (Z.eqb_neq x a)). Qed.

Lemma length_cstrn p n : (length (cstrn p n) <= n)%nat.
Proof.
  revert p. induction n as [|n IH]; intros p; simpl; [lia|].
  destruct (p 0 =? 0); simpl; [lia|]. specialize (IH (next p)). lia.
Qed.

(** Case analysis on the range tests of both sides. *)
Ltac in_range :=
  repeat match goal with
         | |- context [if ?b then _ else _] => let E := fresh "E" in destruct b eqn:E
         end; try lia; try done; try (f_equal; lia).

(** The upward copy reads each source byte before anything below the write
    pointer can have changed it, when it does not start inside the source. *)
Lemma copy_up_spec m d s n a :
  (d <= s \/ s + Z.of_nat n <= d) ->
  Kernel.copy_up m d s n a =
  if (d <=? a) && (a <? d + Z.of_nat n) then m (s + (a - d)) else m a.
Proof.
  revert m d s. induction n as [|n IH]; intros m d s Hds; simpl Kernel.copy_up.
  - in_range.
  - rewrite IH by lia. unfold upd. in_range.
Qed.

Lemma copy_down_spec m d s n a :
  s <= d ->
  Kernel.copy_down m d s n a =
  if (d - Z.of_nat n <=? a) && (a <? d) then m (s - (d - a)) else m a.
Proof.
  revert m d s. induction n as [|n IH]; intros m d s Hds; simpl Kernel.copy_down.
  - in_range.
  - rewrite IH by lia. unfold upd. in_range.
Qed.

Lemma stosb_spec m d c n a :
  Kernel.stosb m d c n a =
  if (d <=? a) && (a <? d + Z.of_nat n) then u8 c else m a.
Proof.
  revert m d. induction n as [|n IH]; intros m d; simpl Kernel.stosb.
  - in_range.
  - rewrite IH. unfold upd. in_range.
Qed.

Lemma zero_pad_spec m s n a :
  Kernel.zero_pad m s n a = if (s <=? a) && (a <? s + Z.of_nat n) then 0 else m a.
Proof.
  assert (H : Kernel.zero_pad m s n = Kernel.stosb m s 0 n).
  { revert m s. induction n; intros; simpl; auto. }
  rewrite H, stosb_spec. done.
Qed.

(** ** Properties *)

(** Whatever the overlap of source and destination,
    [memmove] leaves in [dst, dst+n) the bytes the source held before the
    call, and changes nothing else. *)
Theorem memmove_correct m dst src n a :
  Kernel.memmove m dst src n a =
  if (dst <=? a) && (a <? dst + Z.of_nat n) then m (src + (a - dst)) else m a.
Proof.
  unfold Kernel.memmove.
  destruct ((src <? dst) && (dst <? src + Z.of_nat n)) eqn:E.
  - rewrite copy_down_spec by lia. in_range.
  - rewrite copy_up_spec by lia. done.
Qed.

Lemma strncmp_diff p q n :
  is_char_view p -> is_char_view q ->
  Kernel.strncmp p q n = 0 <-> cstrn p n = cstrn q n.
Proof.
  revert p q. induction n as [|n IH]; intros p q Hp Hq; simpl; [done|].
  pose proof (Hp 0) as Hp0. pose proof (Hq 0) as Hq0. unfold is_byte in *.
  destruct (p 0 =? 0) eqn:Ep; destruct (q 0 =? 0) eqn:Eq; bool_hyps; simpl.
  - rewrite !u8_small by lia. split; [done|lia].
  - rewrite !u8_small by lia. split; [lia|done].
  - destruct (p 0 =? q 0) eqn:E; bool_hyps; [lia|].
    rewrite !u8_small by lia. split; [lia|done].
  - destruct (p 0 =? q 0) eqn:E; bool_hyps.
    + rewrite IH; [|intros i; apply Hp|intros i; apply Hq].
      split; intros H; [by rewrite E, H|by inversion H].
    + rewrite !u8_small by lia. split; [lia|intros H; inversion H; lia].
Qed.

Lemma cstrn_ext p q n :
  (forall i, 0 <= i < Z.of_nat n -> p i = q i) -> cstrn p n = cstrn q n.
Proof.
  revert p q. induction n as [|n IH]; intros p q H; simpl; [done|].
  rewrite <- (H 0) by lia. destruct (p 0 =? 0); [done|]. f_equal.
  apply IH. intros i Hi. unfold next. apply H. lia.
Qed.

(** [strncpy] into a field that does not overlap the source string. *)
Lemma strncpy_lookup m s t n a :
  (s + Z.of_nat n <= t \/ t + Z.of_nat n <= s) ->
  Kernel.strncpy m s t n a =
  if (s <=? a) && (a <? s + Z.of_nat n)
  then default 0 (padded n (cstrn (at_ptr m t) n) !! Z.to_nat (a - s))
  else m a.
Proof.
  revert m s t. induction n as [|n IH]; intros m s t Hd; [simpl; in_range|].
  simpl Kernel.strncpy. simpl cstrn.
  replace (at_ptr m t 0) with (m t) by (unfold at_ptr; f_equal; lia).
  destruct (m t =? 0) eqn:E; cbv [negb].
  - unfold padded. simpl length. rewrite zero_pad_spec. unfold upd.
    destruct (decide (s <= a < s + Z.of_nat (S n))).
    + rewrite app_nil_l, lookup_replicate_2 by lia. simpl default. in_range.
    + in_range.
  - rewrite IH by lia.
    rewrite (cstrn_ext (at_ptr (upd m s (m t)) (t + 1)) (next (at_ptr m t)) n).
    2:{ intros i Hi. unfold at_ptr, next. rewrite upd_ne by lia. f_equal. lia. }
    unfold upd. destruct (decide (s < a)).
    + replace (Z.to_nat (a - s)) with (S (Z.to_nat (a - (s + 1)))) by lia.
      unfold padded. simpl app. rewrite lookup_cons. in_range.
    + destruct (decide (a = s)) as [->|]; [rewrite Z.sub_diag|]; in_range.
Qed.

Lemma cstrn_nonzero p n : Forall (fun c => c <> 0) (cstrn p n).
Proof.
  revert p. induction n as [|n IH]; intros p; simpl; [constructor|].
  destruct (p 0 =? 0) eqn:E; bool_hyps; [constructor|constructor; auto].
Qed.

(** Reading a padded field back as a bounded string gives the string. *)
Lemma cstrn_padded l n :
  (length l <= n)%nat -> Forall (fun c => c <> 0) l -> cstrn (view (padded n l)) n = l.
Proof.
  revert l. induction n as [|n IH]; intros l Hl Hnz; [by destruct l; simpl in *; [|lia]|].
  destruct l as [|c l]; [done|]. inversion Hnz; subst.
  simpl cstrn. change (view (padded (S n) (c :: l)) 0) with c.
  rewrite (proj2 (Z.eqb_neq c 0)) by done. f_equal.
  transitivity (cstrn (view (padded n l)) n); [|apply IH; [simpl in *; lia|done]].
  apply cstrn_ext. intros i Hi. unfold next, view, padded.
  replace (Z.to_nat (i + 1)) with (S (Z.to_nat i)) by lia. done.
Qed.

(** A name copied with [strncpy] into an [n]-byte field that does not
    overlap it compares equal, with [strncmp] over [n] bytes, to the name and
    to exactly those names whose first [n] bytes spell the same string; bytes
    outside the field are unchanged. *)
Theorem strncpy_strncmp m s t n q :
  (forall a, is_byte (m a)) -> is_char_view q ->
  (s + Z.of_nat n <= t \/ t + Z.of_nat n <= s) ->
  (Kernel.strncmp q (at_ptr (Kernel.strncpy m s t n) s) n = 0
     <-> cstrn q n = cstrn (at_ptr m t) n) /\
  (forall a, a < s \/ s + Z.of_nat n <= a -> Kernel.strncpy m s t n a = m a).
Proof.
  intros Hm Hq Hd. split.
  - assert (Hf : cstrn (at_ptr (Kernel.strncpy m s t n) s) n = cstrn (at_ptr m t) n).
    { etransitivity; [|apply (cstrn_padded _ n); auto using length_cstrn, cstrn_nonzero].
      apply cstrn_ext. intros i Hi. unfold at_ptr at 1. rewrite strncpy_lookup by done.
      rewrite (proj2 (andb_true_iff _ _)) by (split; [apply Z.leb_le|apply Z.ltb_lt]; lia).
      unfold view. do 2 f_equal. lia. }
    rewrite <- Hf. apply strncmp_diff; [done|].
    intros i. unfold at_ptr. rewrite strncpy_lookup by done.
    destruct ((s <=? s + i) && (s + i <? s + Z.of_nat n)); [|apply Hm].
    assert (Hb : bytes (padded n (cstrn (at_ptr m t) n))).
    { unfold padded, bytes. apply Forall_app. split.
      - generalize (at_ptr m t) (fun i => Hm (t + i) : is_byte (at_ptr m t i)). clear.
        intros p. revert p. induction n as [|n IH]; intros p Hp; simpl; [constructor|].
        destruct (p 0 =? 0); constructor; [apply Hp|]. apply IH. intros i. apply Hp.
      - apply Forall_replicate. unfold is_byte. lia. }
    destruct (padded n _ !! Z.to_nat (s + i - s)) as [b|] eqn:Hl; simpl.
    + by apply (Forall_lookup_1 _ _ _ _ Hb Hl).
    + unfold is_byte. lia.
  - intros a Ha. rewrite strncpy_lookup by done.
    destruct ((s <=? a) && (a <? s + Z.of_nat n)) eqn:E; [|done]. bool_hyps. lia.
Qed.

Lemma strncpy_strncmp_witness :
  let m := upd (upd (fun _ => 0) 100 97) 101 98 in
  Kernel.strncmp (view [97; 98]) (at_ptr (Kernel.strncpy m 0 100 14) 0) 14 = 0.
Proof.
  intros m. apply (strncpy_strncmp m 0 100 14 (view [97; 98])).
  - intros a. unfold m, upd, is_byte. in_range.
  - intros i. unfold view, is_byte. destruct (Z.to_nat i) as [|[|k]]; simpl; lia.
  - lia.
  - reflexivity.
Defined.

Lemma safestrcpy_loop_out m s t n a :
  a < s \/ s + Z.of_nat n <= a -> Kernel.safestrcpy_loop m s t n a = m a.
Proof.
  revert m s t. induction n as [|n IH]; intros m s t Ha; [done|].
  destruct n as [|n]; [simpl; apply upd_ne; lia|].
  change (Kernel.safestrcpy_loop m s t (S (S n)))
    with (if negb (m t =? 0)
          then Kernel.safestrcpy_loop (upd m s (m t)) (s + 1) (t + 1) (S n)
          else upd (upd m s (m t)) (s + 1) 0).
  destruct (negb (m t =? 0)).
  - rewrite IH by lia. apply upd_ne. lia.
  - unfold upd. in_range.
Qed.

Lemma safestrcpy_loop_in m s t n i :
  (s + Z.of_nat n <= t \/ t + Z.of_nat n <= s) -> (0 < n)%nat ->
  (i <= length (cstrn (at_ptr m t) (n - 1)))%nat ->
  Kernel.safestrcpy_loop m s t n (s + Z.of_nat i) =
  default 0 (cstrn (at_ptr m t) (n - 1) !! i).
Proof.
  revert m s t i. induction n as [|n IH]; intros m s t i Hd Hn Hi; [lia|].
  replace (S n - 1)%nat with n in * by lia. destruct n as [|n].
  { simpl in *. assert (i = 0)%nat as -> by lia. simpl. unfold upd. in_range. }
  change (Kernel.safestrcpy_loop m s t (S (S n)))
    with (if negb (m t =? 0)
          then Kernel.safestrcpy_loop (upd m s (m t)) (s + 1) (t + 1) (S n)
          else upd (upd m s (m t)) (s + 1) 0).
  simpl cstrn in *. unfold at_ptr at 1 in Hi. unfold at_ptr at 1.
  rewrite !Z.add_0_r in *. destruct (m t =? 0) eqn:E; cbv [negb] in *.
  - simpl in Hi. assert (i = 0)%nat as -> by lia. simpl. unfold upd. in_range.
  - unfold at_ptr at 1. rewrite !Z.add_0_r. destruct i as [|i].
    + rewrite safestrcpy_loop_out by lia. simpl. rewrite Z.add_0_r. apply upd_eq.
    + assert (Hc : cstrn (at_ptr (upd m s (m t)) (t + 1)) n = cstrn (next (at_ptr m t)) n).
      { apply cstrn_ext. intros k Hk. unfold at_ptr, next. rewrite upd_ne by lia. f_equal. lia. }
      replace (s + Z.of_nat (S i)) with (s + 1 + Z.of_nat i) by lia.
      specialize (IH (upd m s (m t)) (s + 1) (t + 1) i).
      cbn [Nat.sub] in IH. rewrite Nat.sub_0_r, Hc in IH.
      rewrite IH by (simpl in *; lia). done.
Qed.

(** Copying a string that does not overlap the
    [n]-byte destination always leaves a NUL-terminated string there, the
    source cut after [n-1] bytes, and writes no byte outside the destination. *)
Theorem safestrcpy_correct m s t n :
  0 < n -> (s + n <= t \/ t + n <= s) ->
  let m' := Kernel.safestrcpy m s t n in
  let l := cstrn (at_ptr m t) (Z.to_nat n - 1) in
  cstrn (at_ptr m' s) (Z.to_nat n) = l /\
  m' (s + Z.of_nat (length l)) = 0 /\ Z.of_nat (length l) < n /\
  (forall a, a < s \/ s + n <= a -> m' a = m a).
Proof.
  intros Hn Hd. cbv zeta. unfold Kernel.safestrcpy.
  rewrite (proj2 (Z.leb_gt n 0)) by lia. set (k := Z.to_nat n).
  set (l := cstrn (at_ptr m t) (k - 1)).
  assert (Hl : (length l <= k - 1)%nat) by apply length_cstrn.
  assert (Hin : forall i, (i <= length l)%nat ->
            Kernel.safestrcpy_loop m s t k (s + Z.of_nat i) = default 0 (l !! i)).
  { intros i Hi. apply safestrcpy_loop_in; lia || done. }
  repeat split.
  - transitivity (cstrn (view (padded k l)) k).
    2:{ apply cstrn_padded; [lia|apply cstrn_nonzero]. }
    assert (Hgen : forall j p q, (forall i, (i <= length l)%nat -> p (Z.of_nat i) = default 0 (l !! i)) ->
             (forall i, (i <= length l)%nat -> q (Z.of_nat i) = default 0 (l !! i)) ->
             cstrn p j = cstrn q j).
    { clear. generalize l. clear. intros l j. revert l.
      induction j as [|j IH]; intros l p q Hp Hq; [done|]. simpl.
      pose proof (Hp 0%nat) as Hp0. pose proof (Hq 0%nat) as Hq0.
      change (Z.of_nat 0) with 0 in Hp0, Hq0.
      rewrite Hp0, Hq0 by lia. destruct l as [|c l]; [done|]. simpl.
      destruct (c =? 0); [done|]. f_equal.
      apply (IH l); intros i Hi; unfold next;
        replace (Z.of_nat i + 1) with (Z.of_nat (S i)) by lia;
        [rewrite Hp|rewrite Hq]; simpl; try lia; done. }
    apply Hgen; intros i Hi; [by apply Hin|].
    unfold view, padded. rewrite Nat2Z.id. destruct (decide (i < length l)%nat).
    + by rewrite lookup_app_l.
    + rewrite lookup_app_r, lookup_replicate_2, (lookup_ge_None_2 l) by lia. done.
  - rewrite Hin by lia. by rewrite lookup_ge_None_2.
  - lia.
  - intros a Ha. apply safestrcpy_loop_out. lia.
Qed.

Lemma safestrcpy_correct_witness :
  let m := foldr (fun '(a, b) f => upd f a b) (fun _ => 0)
             [(100, 105); (101, 110); (102, 105); (103, 116)] in
  cstrn (at_ptr (Kernel.safestrcpy m 0 100 3) 0) 3 = [105; 110].
Proof. intros m. apply (safestrcpy_correct m 0 100 3); lia. Defined.

(** ** Unbounded scans *)

Lemma strlen_from_spec s k n fuel :
  (forall i, n <= i < k -> s i <> 0) -> s k = 0 -> n <= k -> (Z.to_nat (k - n) < fuel)%nat ->
  Kernel.strlen_from fuel s n = Some k.
Proof.
  revert n. induction fuel as [|fuel IH]; intros n Hne Hk Hn Hf; [lia|]. simpl.
  destruct (decide (n = k)) as [->|]; [by rewrite Hk|].
  rewrite (proj2 (Z.eqb_neq (s n) 0)) by (apply Hne; lia).
  apply IH; [intros; apply Hne; lia|done|lia|lia].
Qed.

(** The decimal value of a digit string. *)
Definition dec_value (ds : list Z) : Z := foldl (fun n d => n * 10 + d) 0 ds.

Lemma foldl_dec_mono ds n :
  0 <= n -> Forall (fun d => 0 <= d <= 9) ds -> n <= foldl (fun n d => n * 10 + d) n ds.
Proof.
  revert n. induction ds as [|d ds IH]; intros n Hn Hd; simpl; [lia|].
  inversion Hd; subst. etransitivity; [|apply IH; [lia|done]]. lia.
Qed.

(** On a string of decimal digits followed by a
    non-digit, whose value fits an [int], [atoi] returns the value. *)
Theorem atoi_correct ds c fuel :
  Forall (fun d => 0 <= d <= 9) ds -> dec_value ds < 2 ^ 31 ->
  ~ (48 <= c <= 57) -> (length ds < fuel)%nat ->
  Ulib.atoi fuel (view (map (Z.add 48) ds ++ [c])) = Some (dec_value ds).
Proof.
  unfold Ulib.atoi, dec_value.
  assert (G : forall ds n fuel p, 0 <= n -> Forall (fun d => 0 <= d <= 9) ds ->
    foldl (fun n d => n * 10 + d) n ds < 2 ^ 31 -> ~ (48 <= c <= 57) -> (length ds < fuel)%nat ->
    (forall i, 0 <= i -> p i = view (map (Z.add 48) ds ++ [c]) i) ->
    Ulib.atoi_from fuel p n = Some (foldl (fun n d => n * 10 + d) n ds)).
  { clear ds fuel. induction ds as [|d ds IH]; intros n fuel p Hn Hd Hb Hc Hf Hp;
      (destruct fuel as [|fuel]; [simpl in *; lia|]); simpl Ulib.atoi_from; rewrite Hp by lia.
    - change (view (map (Z.add 48) [] ++ [c]) 0) with c.
      destruct ((48 <=? c) && (c <=? 57)) eqn:E; [lia|done].
    - change (view (map (Z.add 48) (d :: ds) ++ [c]) 0) with (48 + d).
      inversion Hd; subst. simpl foldl in *.
      destruct ((48 <=? 48 + d) && (48 + d <=? 57)) eqn:E; [|lia].
      pose proof (foldl_dec_mono ds (n * 10 + d) ltac:(lia) ltac:(done)).
      replace (n * 10 + (48 + d) - 48) with (n * 10 + d) by lia.
      rewrite s32_small by lia.
      apply IH; simpl in *; try done; try lia.
      intros i Hi. unfold next. rewrite Hp by lia. unfold view.
      replace (Z.to_nat (i + 1)) with (S (Z.to_nat i)) by lia. done. }
  intros. by apply G.
Qed.

Lemma atoi_correct_witness :
  Ulib.atoi 4 (view (map (Z.add 48) [1; 0; 7] ++ [10])) = Some 107.
Proof. apply (atoi_correct [1; 0; 7] 10 4); [repeat constructor; lia|done|lia|simpl; lia]. Defined.

(** The user-level [memmove] has no downward copy; it
    is correct when the destination starts below the source or does not meet
    it, and it is not when the destination starts inside the source. *)
Theorem ulib_memmove_overlap :
  (forall m dst src n a, 0 <= n -> dst <= src \/ src + n <= dst ->
     Ulib.memmove m dst src n a = Kernel.memmove m dst src (Z.to_nat n) a) /\
  (exists m dst src n a,
     Ulib.memmove m dst src n a <> Kernel.memmove m dst src (Z.to_nat n) a).
Proof.
  split.
  - intros m dst src n a Hn H. unfold Ulib.memmove, Kernel.memmove.
    destruct ((src <? dst) && (dst <? src + Z.of_nat (Z.to_nat n))) eqn:E; [lia|done].
  - exists (fun a => a), 1, 0, 2, 2. vm_compute. done.
Qed.
