(* ===== verification/Net.v ===== *)
(** * Network byte order, IP and UDP checksums, the DHCP discover frame

    [src/net/net.h], [src/net/net.c] and the frame that [getip] of
    [src/ethtest.c] sends.  Headers are the bytes they occupy in memory on the
    little-endian machine; a [u16_t*] walked over them reads two bytes at a
    time, low byte first. *)

From stdpp Require Import base numbers list.
From Stdlib Require Import Lia ZArith ZifyBool.
From S2P Require Import Prelude CString.
Open Scope Z_scope.

(** ** net.h: byte order *)

Definition HTONS (x : Z) : Z := u16 (Z.lor (Z.shiftr (u16 x) 8) (Z.shiftl (u16 x) 8)).
Definition HTONL (x : Z) : Z :=
  u32 (Z.lor (Z.lor (Z.lor (Z.land (Z.shiftr (u32 x) 24) 0x000000FF)
                           (Z.land (Z.shiftr (u32 x) 8) 0x0000FF00))
                    (Z.land (u32 (Z.shiftl (u32 x) 8)) 0x00FF0000))
             (Z.land (u32 (Z.shiftl (u32 x) 24)) 0xFF000000)).
Definition NTOHS (x : Z) : Z := HTONS x.
Definition NTOHL (x : Z) : Z := HTONL x.
Definition htons (x : Z) : Z := HTONS x.
Definition htonl (x : Z) : Z := HTONL x.
Definition ntohs (x : Z) : Z := NTOHS x.
Definition ntohl (x : Z) : Z := NTOHL x.

(** ** net.c *)

(** [sum = (sum & 0xFFFF) + (sum >> 16)] *)
Definition fold_carry (sum : Z) : Z := u32 (Z.land sum 0xFFFF + Z.shiftr sum 16).

(** [while(size > 1) { sum += *buf++; size -= 2; }], and the odd byte. *)
Fixpoint sum_words (buf : Z -> Z) (size : nat) (sum : Z) : Z :=
  match size with
  | O => sum
  | S O => u32 (sum + buf 0)
  | S (S size) => sum_words (next (next buf)) size (u32 (sum + (buf 0 + 256 * buf 1)))
  end.

Definition checksum (buf : Z -> Z) (size : nat) : Z :=
  let sum := sum_words buf size 0 in
  let sum := fold_carry sum in
  let sum := fold_carry sum in
  u16 (Z.lnot sum).

(** Field offsets of [ip4_hdr_t] and [udp_hdr_t]. *)
Definition IP_VER_IHL : nat := 0.
Definition IP_LENGTH : nat := 2.
Definition IP_PROTOCOL : nat := 9.
Definition IP_CHECKSUM : nat := 10.
Definition IP_SRC : nat := 12.
Definition IP_DST : nat := 16.
Definition UDP_LENGTH : nat := 4.
Definition UDP_CHECKSUM : nat := 6.

Definition ip4_hdrlen (hdr : list Z) : nat :=
  Z.to_nat (Z.land (ldw 1 hdr IP_VER_IHL) 0xF * 4).

Definition ip4_checksum (hdr : list Z) : list Z :=
  let hdr := stw 2 IP_CHECKSUM 0 hdr in
  stw 2 IP_CHECKSUM (checksum (view hdr) (ip4_hdrlen hdr)) hdr.

(** The part of the sum that does not depend on the payload. *)
Definition udp_header_sum (ip udp : list Z) : Z :=
  let sum := 0 in
  let addr := ldw 4 ip IP_SRC in
  let sum := u32 (sum + Z.land (Z.shiftr addr 16) 0xFFFF) in
  let sum := u32 (sum + Z.land addr 0xFFFF) in
  let addr := ldw 4 ip IP_DST in
  let sum := u32 (sum + Z.land (Z.shiftr addr 16) 0xFFFF) in
  let sum := u32 (sum + Z.land addr 0xFFFF) in
  let sum := u32 (sum + htons (ldw 1 ip IP_PROTOCOL)) in
  let sum := u32 (sum + ldw 2 udp UDP_LENGTH) in
  foldl (fun sum i => u32 (sum + ldw 2 udp (2 * i))) sum (seq 0 4).

(** [size] is an [int]: a length field below the header size makes it
    negative, which skips the loop and still adds one byte. *)
Definition udp_payload_sum (data : Z -> Z) (size sum : Z) : Z :=
  if size <? 0 then u32 (sum + data 0) else sum_words data (Z.to_nat size) sum.

Definition udp_checksum (ip udp : list Z) (data : Z -> Z) : list Z :=
  let udp := stw 2 UDP_CHECKSUM 0 udp in
  let sum := udp_header_sum ip udp in
  let size := s32 (ntohs (ldw 2 udp UDP_LENGTH) - 8) in
  let sum := udp_payload_sum data size sum in
  let sum := fold_carry sum in
  let sum := fold_carry sum in
  stw 2 UDP_CHECKSUM (u16 (Z.lnot sum)) udp.

(** ** ethtest.c: the frame built by [getip] *)

Definition ETH_TYPE_IP4 : Z := 0x0800.
Definition IP_PROTOCOL_UDP : Z := 17.
Definition UDP_PORT_BOOTPS : Z := 67.
Definition UDP_PORT_BOOTPC : Z := 68.
Definition DHCP_FLAGS_BCAST : Z := 0x8000.
Definition DHCP_MAGIC : Z := 0x63825363.
Definition MAC_ADDRESS : list Z := [0x52; 0x54; 0x00; 0x12; 0x34; 0x56].

Definition ethhdr : list Z := replicate 6 0xFF ++ MAC_ADDRESS ++ le_enc 2 (HTONS ETH_TYPE_IP4).

Definition iphdr : list Z :=
  [0x45; 0] ++ le_enc 2 0 ++ le_enc 2 0 ++ le_enc 2 0 ++ [0xFF; IP_PROTOCOL_UDP] ++
  le_enc 2 0 ++ [0; 0; 0; 0] ++ [0xFF; 0xFF; 0xFF; 0xFF].

Definition udphdr : list Z :=
  le_enc 2 (HTONS UDP_PORT_BOOTPC) ++ le_enc 2 (HTONS UDP_PORT_BOOTPS) ++ le_enc 2 0 ++ le_enc 2 0.

Definition dhcp_options : list Z :=
  [53; 1; 1] ++ [61; 7; 1] ++ MAC_ADDRESS ++ [0xFF].

Definition dhcp : list Z :=
  [1; 1; 6; 0] ++ le_enc 4 0 ++ le_enc 2 0 ++ le_enc 2 DHCP_FLAGS_BCAST ++
  replicate 16 0 ++ (MAC_ADDRESS ++ replicate 10 0) ++ replicate 64 0 ++ replicate 128 0 ++
  le_enc 4 (HTONL DHCP_MAGIC) ++ (dhcp_options ++ replicate (308 - 13) 0).

(** The bytes [getip] hands to [write(fd, buf, size)]. *)
Definition getip_frame : list Z :=
  let size := 8 + Z.of_nat (length dhcp) - 308 + 13 in
  let udphdr := stw 2 UDP_LENGTH (htons (u16 size)) udphdr in
  let size := size + 20 in
  let iphdr := stw 2 IP_LENGTH (htons (u16 size)) iphdr in
  let iphdr := ip4_checksum iphdr in
  let udphdr := udp_checksum iphdr udphdr (view dhcp) in
  take (Z.to_nat (size + 14)) (ethhdr ++ iphdr ++ udphdr ++ dhcp).

(** ** Lemmas *)

Lemma lor_shiftl_add a b n : 0 <= n -> 0 <= a < 2 ^ n -> Z.lor a (Z.shiftl b n) = a + b * 2 ^ n.
Proof.
  intros Hn Ha. rewrite <- Z.shiftl_mul_pow2 by done.
  rewrite Z.add_nocarry_lxor.
  2:{ apply Z.bits_inj'. intros k Hk. rewrite Z.land_spec, Z.bits_0, Z.shiftl_spec by done.
      destruct (decide (k < n)).
      - rewrite (Z.testbit_neg_r b) by lia. apply andb_false_r.
      - rewrite <- (Z.mod_small a (2 ^ n)) by done.
        rewrite Z.mod_pow2_bits_high by lia. done. }
  symmetry. apply Z.lxor_lor.
  apply Z.bits_inj'. intros k Hk. rewrite Z.land_spec, Z.bits_0, Z.shiftl_spec by done.
  destruct (decide (k < n)).
  - rewrite (Z.testbit_neg_r b) by lia. apply andb_false_r.
  - rewrite <- (Z.mod_small a (2 ^ n)) by done.
    rewrite Z.mod_pow2_bits_high by lia. done.
Qed.

Lemma land_ffff x : Z.land x 0xFFFF = x mod 2 ^ 16.
Proof. change 0xFFFF with (Z.ones 16). apply Z.land_ones. lia. Qed.

Lemma fold_carry_arith s : 0 <= s < 2 ^ 32 -> fold_carry s = s mod 65536 + s / 65536.
Proof.
  intros Hs. unfold fold_carry. rewrite land_ffff, Z.shiftr_div_pow2 by lia.
  apply u32_small. change (2 ^ 16) with 65536. change (2 ^ 32) with 4294967296 in *.
  Z.div_mod_to_equations. lia.
Qed.

(** Two folds bring any 32-bit sum to its residue modulo [2^16 - 1], taken in
    [1, 2^16 - 1] unless the sum is zero. *)
Lemma fold_twice s :
  0 <= s < 2 ^ 32 ->
  let f := fold_carry (fold_carry s) in
  0 <= f <= 65535 /\ (f - s) mod 65535 = 0 /\ (0 < s -> 0 < f).
Proof.
  intros Hs. cbv zeta.
  assert (H1 : 0 <= fold_carry s <= 131070 /\ (0 < s -> 0 < fold_carry s)).
  { rewrite fold_carry_arith by done. change (2 ^ 32) with 4294967296 in *.
    Z.div_mod_to_equations. lia. }
  rewrite (fold_carry_arith (fold_carry s)) by lia.
  rewrite (fold_carry_arith s) in * by done. change (2 ^ 32) with 4294967296 in *.
  set (f := s mod 65536 + s / 65536) in *.
  assert (Hf : f = s - 65535 * (s / 65536)) by (unfold f; Z.div_mod_to_equations; lia).
  assert (Hg : f mod 65536 + f / 65536 = f - 65535 * (f / 65536))
    by (Z.div_mod_to_equations; lia).
  rewrite Hg. repeat split.
  - Z.div_mod_to_equations. lia.
  - clear Hf Hg. clearbody f. Z.div_mod_to_equations. lia.
  - rewrite Hf at 1. replace (s - 65535 * (s / 65536) - 65535 * (f / 65536) - s)
      with ((- (s / 65536) - f / 65536) * 65535) by lia. apply Z_mod_mult.
  - clear Hf Hg. clearbody f. Z.div_mod_to_equations. lia.
Qed.

Lemma checksum_value s : 0 <= s <= 65535 -> u16 (Z.lnot s) = 65535 - s.
Proof.
  intros. unfold u16, Z.lnot. change (2 ^ 16) with 65536.
  symmetry. apply Z.mod_unique_pos with (q := -1); lia.
Qed.

(** Adding the checksum to the sum it was computed from gives all ones. *)
Lemma fold_complement s c :
  0 <= s < 2 ^ 32 -> c = 65535 - fold_carry (fold_carry s) -> s + c < 2 ^ 32 ->
  fold_carry (fold_carry (s + c)) = 65535.
Proof.
  intros Hs Hc Hb.
  assert (Hz : s = 0 -> fold_carry (fold_carry s) = 0) by (intros ->; done).
  destruct (fold_twice s) as (Hr & Hm & Hp); [lia|].
  destruct (fold_twice (s + c)) as (Hr' & Hm' & Hp'); [lia|].
  set (f := fold_carry (fold_carry s)) in *.
  set (g := fold_carry (fold_carry (s + c))) in *. clearbody f g.
  apply Z.mod_divide in Hm as [k Hk]; [|lia]. apply Z.mod_divide in Hm' as [k' Hk']; [|lia].
  assert (0 < g) by (apply Hp'; destruct (decide (s = 0)); lia).
  assert (g = 65535 * (k' - k + 1)) by lia. nia.
Qed.

(** The sum of the 16-bit words, without wrap-around. *)
Fixpoint words (buf : Z -> Z) (size : nat) : Z :=
  match size with
  | O => 0
  | S O => buf 0
  | S (S size) => buf 0 + 256 * buf 1 + words (next (next buf)) size
  end.

Lemma two_step_ind (P : nat -> Prop) :
  P 0%nat -> P 1%nat -> (forall n, P n -> P (S (S n))) -> forall n, P n.
Proof.
  intros H0 H1 HS n. assert (P n /\ P (S n)) as [? _]; [|done].
  induction n as [|n [? ?]]; auto.
Qed.

Lemma words_range buf size :
  is_char_view buf -> 0 <= 2 * words buf size <= 65535 * (Z.of_nat size + 1).
Proof.
  revert buf. induction size as [| |size IH] using two_step_ind; intros buf Hb;
    pose proof (Hb 0); unfold is_byte in *; simpl words; try lia.
  assert (is_char_view (next (next buf))) as Hn by (intros i; apply Hb).
  pose proof (IH _ Hn). pose proof (Hb 1). unfold is_byte in *. lia.
Qed.

Lemma sum_words_exact buf size s :
  is_char_view buf -> 0 <= s -> s + words buf size < 2 ^ 32 ->
  sum_words buf size s = s + words buf size.
Proof.
  revert buf s. induction size as [| |size IH] using two_step_ind; intros buf s Hb Hs Hw;
    pose proof (Hb 0); unfold is_byte in *; simpl in *; [lia|by rewrite u32_small by lia|].
  assert (is_char_view (next (next buf))) as Hn by (intros i; apply Hb).
  pose proof (words_range _ size Hn). pose proof (Hb 1). unfold is_byte in *.
  rewrite u32_small by lia. rewrite IH by (done || lia). lia.
Qed.

Lemma words_ext p q n : (forall i, 0 <= i < Z.of_nat n -> p i = q i) -> words p n = words q n.
Proof.
  revert p q. induction n as [| |n IH] using two_step_ind; intros p q H; [done|simpl; apply H; lia|].
  simpl. rewrite (H 0), (H 1) by lia. f_equal. apply IH. intros i Hi. apply H. lia.
Qed.

Lemma words_view_splice l off w n :
  (off + 2 <= length l)%nat -> (Nat.Even off) -> (off + 2 <= n)%nat -> 0 <= w < 65536 ->
  words (view (stw 2 off w (stw 2 off 0 l))) n = words (view (stw 2 off 0 l)) n + w.
Proof.
  intros Hl [k Hk] Hn Hw. subst off. revert l n Hl Hn.
  induction k as [|k IH]; intros l n Hl Hn.
  - destruct l as [|a [|b l]]; simpl in Hl; try lia.
    destruct n as [|[|n]]; try lia.
    change (stw 2 (2 * 0) 0 (a :: b :: l)) with (0 :: 0 :: drop 0 l).
    change (stw 2 (2 * 0) w (0 :: 0 :: drop 0 l)) with (w mod 256 :: (w / 256) mod 256 :: drop 0 (drop 0 l)).
    rewrite !drop_0. cbn [words].
    rewrite (words_ext (next (next (view (w mod 256 :: (w / 256) mod 256 :: l))))
                       (next (next (view (0 :: 0 :: l))))).
    2:{ intros i Hi. unfold next, view.
        replace (Z.to_nat (i + 1 + 1)) with (S (S (Z.to_nat i))) by lia. done. }
    change (view (w mod 256 :: (w / 256) mod 256 :: l) 0) with (w mod 256).
    change (view (w mod 256 :: (w / 256) mod 256 :: l) 1) with ((w / 256) mod 256).
    change (view (0 :: 0 :: l) 0) with 0. change (view (0 :: 0 :: l) 1) with 0.
    Z.div_mod_to_equations. lia.
  - destruct l as [|a [|b l]]; simpl in Hl; try lia.
    destruct n as [|[|n]]; try lia.
    replace (2 * S k)%nat with (S (S (2 * k))) by lia.
    change (stw 2 (S (S (2 * k))) 0 (a :: b :: l)) with (a :: b :: stw 2 (2 * k) 0 l).
    change (stw 2 (S (S (2 * k))) w (a :: b :: stw 2 (2 * k) 0 l))
      with (a :: b :: stw 2 (2 * k) w (stw 2 (2 * k) 0 l)).
    cbn [words].
    assert (Hv : forall x y (r : list Z), words (next (next (view (x :: y :: r)))) n = words (view r) n).
    { intros x y r. apply words_ext. intros i Hi. unfold next, view.
      replace (Z.to_nat (i + 1 + 1)) with (S (S (Z.to_nat i))) by lia. done. }
    rewrite !Hv, IH by lia. change (view (a :: b :: ?x) 0) with a. 
    unfold view. simpl. lia.
Qed.

Lemma land_byte_field y k :
  0 <= k -> Z.land y (Z.shiftl 255 k) = (y / 2 ^ k) mod 256 * 2 ^ k.
Proof.
  intros Hk. rewrite <- Z.shiftl_mul_pow2 by done.
  change 256 with (2 ^ 8). rewrite <- Z.land_ones by lia. rewrite <- Z.shiftr_div_pow2 by done.
  apply Z.bits_inj'. intros n Hn. rewrite Z.land_spec, !Z.shiftl_spec by done.
  destruct (decide (n < k)).
  - rewrite !(Z.testbit_neg_r _ (n - k)) by lia. apply andb_false_r.
  - rewrite Z.land_spec, Z.shiftr_spec by lia. do 2 f_equal. lia.
Qed.

Lemma htons_arith x : 0 <= x < 65536 -> htons x = x / 256 + x mod 256 * 256.
Proof.
  intros Hx. unfold htons, HTONS. rewrite !(u16_small x) by done.
  rewrite lor_shiftl_add, Z.shiftr_div_pow2; [|lia|lia|].
  2:{ rewrite Z.shiftr_div_pow2 by lia. change (2 ^ 8) with 256. Z.div_mod_to_equations. lia. }
  unfold u16. change (2 ^ 8) with 256. change (2 ^ 16) with 65536.
  Z.div_mod_to_equations. lia.
Qed.

Lemma byte_of_shifted x k j :
  0 <= k -> k <= j <= 24 -> (u32 (x * 2 ^ k) / 2 ^ j) mod 256 = (x / 2 ^ (j - k)) mod 256.
Proof.
  intros Hk Hj. change 256 with (2 ^ 8). apply Z.bits_inj'. intros n Hn.
  destruct (decide (n < 8)).
  - rewrite !Z.mod_pow2_bits_low, !Z.div_pow2_bits by lia. unfold u32.
    rewrite Z.mod_pow2_bits_low, Z.mul_pow2_bits by lia. f_equal. lia.
  - by rewrite !Z.mod_pow2_bits_high by lia.
Qed.

Lemma htonl_arith x :
  0 <= x < 2 ^ 32 ->
  htonl x = x / 2 ^ 24 + (x / 2 ^ 16) mod 256 * 2 ^ 8 + (x / 2 ^ 8) mod 256 * 2 ^ 16
            + x mod 256 * 2 ^ 24.
Proof.
  intros Hx. unfold htonl, HTONL. rewrite (u32_small x) by done.
  change 0x000000FF with (Z.shiftl 255 0). change 0x0000FF00 with (Z.shiftl 255 8).
  change 0x00FF0000 with (Z.shiftl 255 16). change 0xFF000000 with (Z.shiftl 255 24).
  rewrite !land_byte_field by lia. rewrite !Z.shiftr_div_pow2, !Z.shiftl_mul_pow2 by lia.
  rewrite <- !(Z.shiftl_mul_pow2 (_ mod 256)) by lia. rewrite Z.shiftl_0_r.
  set (a := (x / 2 ^ 24 / 2 ^ 0) mod 256). set (b := (x / 2 ^ 8 / 2 ^ 8) mod 256).
  set (c := (u32 (x * 2 ^ 8) / 2 ^ 16) mod 256). set (d := (u32 (x * 2 ^ 24) / 2 ^ 24) mod 256).
  assert (0 <= a < 256) by (apply Z.mod_pos_bound; lia).
  assert (0 <= b < 256) by (apply Z.mod_pos_bound; lia).
  assert (0 <= c < 256) by (apply Z.mod_pos_bound; lia).
  assert (0 <= d < 256) by (apply Z.mod_pos_bound; lia).
  rewrite (lor_shiftl_add a b 8) by lia. rewrite (lor_shiftl_add _ c 16) by lia.
  rewrite (lor_shiftl_add _ d 24) by lia. rewrite u32_small by lia.
  rewrite !Z.shiftl_mul_pow2 by lia.
  assert (a = x / 2 ^ 24) as ->.
  { unfold a. rewrite Z.div_1_r. apply Z.mod_small.
    change (2 ^ 32) with (2 ^ 24 * 256) in Hx.
    split; [apply Z.div_pos; lia|apply Z.div_lt_upper_bound; lia]. }
  assert (b = (x / 2 ^ 16) mod 256) as ->.
  { unfold b. by rewrite Z.div_div by lia. }
  assert (c = (x / 2 ^ 8) mod 256) as ->.
  { apply (byte_of_shifted x 8 16); lia. }
  assert (d = x mod 256) as ->.
  { unfold d. rewrite (byte_of_shifted x 24 24) by lia. by rewrite Z.div_1_r. }
  lia.
Qed.

Lemma le_enc_inj_rev n x y :
  0 <= x < 256 ^ Z.of_nat n -> 0 <= y < 256 ^ Z.of_nat n -> le_enc n x = le_enc n y -> x = y.
Proof.
  intros Hx Hy H. rewrite <- (Z.mod_small x (256 ^ Z.of_nat n)) by done.
  rewrite <- (Z.mod_small y (256 ^ Z.of_nat n)) by done.
  by rewrite <- !le_dec_enc, H.
Qed.

Lemma htons_bytes x : 0 <= x < 65536 -> le_enc 2 (htons x) = rev (le_enc 2 x).
Proof.
  intros Hx. rewrite htons_arith by done. simpl.
  f_equal; [|f_equal]; Z.div_mod_to_equations; lia.
Qed.

Lemma htonl_bytes x : 0 <= x < 2 ^ 32 -> le_enc 4 (htonl x) = rev (le_enc 4 x).
Proof.
  intros Hx. rewrite htonl_arith by done. pose proof (Z.div_mod x 256).
  assert (Hb : exists b0 b1 b2 b3, x = b0 + 256 * (b1 + 256 * (b2 + 256 * b3)) /\
            is_byte b0 /\ is_byte b1 /\ is_byte b2 /\ is_byte b3).
  { exists (x mod 256), (x / 256 mod 256), (x / 256 / 256 mod 256), (x / 256 / 256 / 256).
    unfold is_byte. change (2 ^ 32) with 4294967296 in *. Z.div_mod_to_equations. lia. }
  destruct Hb as (b0 & b1 & b2 & b3 & Hxb & H0 & H1 & H2 & H3). unfold is_byte in *.
  assert (x / 2 ^ 24 = b3) as -> by (change (2 ^ 24) with 16777216; Z.div_mod_to_equations; lia).
  assert ((x / 2 ^ 16) mod 256 = b2) as ->
    by (change (2 ^ 16) with 65536; Z.div_mod_to_equations; lia).
  assert ((x / 2 ^ 8) mod 256 = b1) as ->
    by (change (2 ^ 8) with 256; Z.div_mod_to_equations; lia).
  assert (x mod 256 = b0) as -> by (Z.div_mod_to_equations; lia).
  assert (E : forall c0 c1 c2 c3, is_byte c0 -> is_byte c1 -> is_byte c2 -> is_byte c3 ->
            le_enc 4 (c0 + 256 * (c1 + 256 * (c2 + 256 * c3))) = [c0; c1; c2; c3]).
  { intros. transitivity (le_enc (length [c0; c1; c2; c3]) (le_dec [c0; c1; c2; c3])).
    - simpl length. f_equal. simpl. lia.
    - apply le_enc_dec. repeat constructor; unfold is_byte in *; lia. }
  rewrite Hxb, E by done.
  replace (b3 + b2 * 2 ^ 8 + b1 * 2 ^ 16 + b0 * 2 ^ 24)
    with (b3 + 256 * (b2 + 256 * (b1 + 256 * b0))) by lia.
  by rewrite E by done.
Qed.

Lemma htons_range x : 0 <= htons x < 65536.
Proof. apply u16_range. Qed.
Lemma htonl_range x : 0 <= htonl x < 2 ^ 32.
Proof. apply u32_range. Qed.

Lemma htons_involutive x : 0 <= x < 65536 -> htons (htons x) = x.
Proof.
  intros Hx. pose proof (htons_range x) as Hr. pose proof (htons_range (htons x)) as Hr'.
  apply (le_enc_inj_rev 2); [done|done|]. rewrite !htons_bytes by done. apply rev_involutive.
Qed.

Lemma htonl_involutive x : 0 <= x < 2 ^ 32 -> htonl (htonl x) = x.
Proof.
  intros Hx. pose proof (htonl_range x) as Hr. pose proof (htonl_range (htonl x)) as Hr'.
  apply (le_enc_inj_rev 4); [done|done|]. rewrite !htonl_bytes by done. apply rev_involutive.
Qed.

(** [htons] and [htonl] reverse the bytes a value has in memory,
    so [ntohs] and [ntohl] undo them. *)
Theorem byte_order_roundtrip :
  (forall x, 0 <= x < 65536 -> le_enc 2 (htons x) = rev (le_enc 2 x) /\ ntohs (htons x) = x) /\
  (forall x, 0 <= x < 2 ^ 32 -> le_enc 4 (htonl x) = rev (le_enc 4 x) /\ ntohl (htonl x) = x).
Proof.
  split; intros x Hx.
  - split; [by apply htons_bytes|exact (htons_involutive x Hx)].
  - split; [by apply htonl_bytes|exact (htonl_involutive x Hx)].
Qed.

Lemma view_bytes l : bytes l -> is_char_view (view l).
Proof.
  intros H i. unfold view. destruct (l !! Z.to_nat i) eqn:E; simpl.
  - by apply (Forall_lookup_1 _ _ _ _ H E).
  - unfold is_byte. lia.
Qed.

(** For any header bytes that include the checksum
    field, the words of the header that [ip4_checksum] leaves add up to all
    ones: a receiver that recomputes [checksum] over the header finds 0.
    Only the checksum field is changed. *)
Theorem ip4_checksum_verifies hdr :
  bytes hdr -> (12 <= ip4_hdrlen hdr <= length hdr)%nat ->
  checksum (view (ip4_checksum hdr)) (ip4_hdrlen hdr) = 0 /\
  ip4_hdrlen (ip4_checksum hdr) = ip4_hdrlen hdr /\
  length (ip4_checksum hdr) = length hdr /\
  (forall i, i < IP_CHECKSUM \/ IP_CHECKSUM + 2 <= i -> ip4_checksum hdr !! i = hdr !! i)%nat.
Proof.
  intros Hb Hl. unfold ip4_checksum. unfold IP_CHECKSUM. cbv zeta.
  set (h0 := stw 2 10 0 hdr).
  assert (Hlen : length h0 = length hdr) by (apply length_stw; lia).
  assert (Hihl : forall w h, (12 <= length h)%nat -> ip4_hdrlen (stw 2 10 w h) = ip4_hdrlen h).
  { intros w h Hh. unfold ip4_hdrlen, IP_VER_IHL. by rewrite ldw_stw_other by lia. }
  assert (Hn : ip4_hdrlen h0 = ip4_hdrlen hdr) by (apply Hihl; lia).
  set (n := ip4_hdrlen hdr) in *. rewrite !Hn.
  assert (Hn60 : (n <= 60)%nat).
  { unfold n, ip4_hdrlen. change 0xF with (Z.ones 4). rewrite Z.land_ones by lia.
    pose proof (Z.mod_pos_bound (ldw 1 hdr IP_VER_IHL) (2 ^ 4)). lia. }
  assert (Hb0 : bytes h0) by by apply bytes_stw.
  pose proof (words_range (view h0) n (view_bytes _ Hb0)) as Hw.
  set (c := checksum (view h0) n).
  assert (Hc : c = 65535 - fold_carry (fold_carry (words (view h0) n)) /\ 0 <= c < 65536).
  { unfold c, checksum. rewrite sum_words_exact by (try apply view_bytes; lia || done).
    destruct (fold_twice (words (view h0) n)) as (Hr & _); [lia|].
    rewrite Z.add_0_l, checksum_value by done. lia. }
  destruct Hc as [Hc Hcr]. repeat split.
  - unfold checksum. rewrite sum_words_exact.
    + unfold h0. rewrite words_view_splice by (try lia; by exists 5%nat).
      fold h0. rewrite Z.add_0_l, (fold_complement _ c) by lia. done.
    + apply view_bytes. by apply bytes_stw.
    + done.
    + unfold h0. rewrite words_view_splice by (try lia; by exists 5%nat). fold h0. lia.
  - rewrite Hihl by lia. done.
  - rewrite length_stw by lia. done.
  - intros i Hi. unfold stw.
    rewrite lookup_splice_out by (rewrite ?length_le_enc; lia).
    unfold h0, stw. by rewrite lookup_splice_out by (rewrite ?length_le_enc; lia).
Qed.

Lemma ip4_checksum_verifies_witness :
  checksum (view (ip4_checksum iphdr)) 20 = 0.
Proof.
  apply (ip4_checksum_verifies iphdr).
  - unfold bytes. repeat constructor; done.
  - vm_compute. lia.
Defined.

(** The bounded part of the UDP sum, spelled without wrap-around. *)
Definition udp_header_words (ip udp : list Z) : Z :=
  ldw 2 ip (IP_SRC + 2) + ldw 2 ip IP_SRC + ldw 2 ip (IP_DST + 2) + ldw 2 ip IP_DST +
  htons (ldw 1 ip IP_PROTOCOL) + ldw 2 udp UDP_LENGTH +
  (ldw 2 udp 0 + ldw 2 udp 2 + ldw 2 udp 4 + ldw 2 udp 6).

Lemma ldw4_split l off :
  bytes l -> (off + 4 <= length l)%nat ->
  Z.land (Z.shiftr (ldw 4 l off) 16) 0xFFFF = ldw 2 l (off + 2) /\
  Z.land (ldw 4 l off) 0xFFFF = ldw 2 l off.
Proof.
  intros Hb Hl. rewrite !land_ffff, Z.shiftr_div_pow2 by lia. unfold ldw, slice.
  replace (drop (off + 2) l) with (drop 2 (drop off l)) by (by rewrite drop_drop).
  assert (Hd : bytes (drop off l)) by by apply Forall_drop.
  assert (Hdl : (4 <= length (drop off l))%nat) by (rewrite length_drop; lia).
  destruct (drop off l) as [|b0 [|b1 [|b2 [|b3 r]]]]; simpl in Hdl; try lia.
  inversion_clear Hd as [|? ? H0 Hd1]. inversion_clear Hd1 as [|? ? H1 Hd2].
  inversion_clear Hd2 as [|? ? H2 Hd3]. inversion_clear Hd3 as [|? ? H3 _].
  simpl. unfold is_byte in *. change (2 ^ 16) with 65536. split; Z.div_mod_to_equations; lia.
Qed.

Lemma udp_header_sum_exact ip udp :
  bytes ip -> (20 <= length ip)%nat -> bytes udp -> (8 <= length udp)%nat ->
  udp_header_sum ip udp = udp_header_words ip udp /\
  0 <= udp_header_words ip udp <= 655350.
Proof.
  intros Hi Hil Hu Hul. unfold udp_header_sum, udp_header_words.
  destruct (ldw4_split ip IP_SRC Hi) as [-> ->]; [unfold IP_SRC; lia|].
  destruct (ldw4_split ip IP_DST Hi) as [-> ->]; [unfold IP_DST; lia|].
  unfold IP_SRC, IP_DST, UDP_LENGTH in *.
  assert (Ri : forall off, (off + 2 <= length ip)%nat -> 0 <= ldw 2 ip off < 65536)
    by (intros; by apply (ldw_range 2)).
  assert (Ru : forall off, (off + 2 <= length udp)%nat -> 0 <= ldw 2 udp off < 65536)
    by (intros; by apply (ldw_range 2)).
  pose proof (Ri 14%nat ltac:(lia)). pose proof (Ri 12%nat ltac:(lia)). pose proof (Ri 18%nat ltac:(lia)). pose proof (Ri 16%nat ltac:(lia)).
  pose proof (Ru 4%nat ltac:(lia)). pose proof (Ru 0%nat ltac:(lia)). pose proof (Ru 2%nat ltac:(lia)). pose proof (Ru 6%nat ltac:(lia)).
  pose proof (htons_range (ldw 1 ip IP_PROTOCOL)). clear Ri Ru Hi Hu.
  simpl seq. simpl foldl. simpl (12 + 2)%nat. simpl (16 + 2)%nat.
  unwrap32. lia.
Qed.

(** The pseudo header, the UDP header with the
    checksum [udp_checksum] stored in it, and the payload of the length the
    header states add up to all ones, as a receiver requires (RFC 768). *)
Theorem udp_checksum_verifies ip udp data :
  bytes ip -> (20 <= length ip)%nat -> bytes udp -> (8 <= length udp)%nat ->
  is_char_view data -> 8 <= ntohs (ldw 2 udp UDP_LENGTH) ->
  let udp' := udp_checksum ip udp data in
  let size := ntohs (ldw 2 udp' UDP_LENGTH) - 8 in
  fold_carry (fold_carry (udp_payload_sum data size (udp_header_sum ip udp'))) = 0xFFFF /\
  length udp' = length udp /\
  (forall i, i < UDP_CHECKSUM \/ UDP_CHECKSUM + 2 <= i -> udp' !! i = udp !! i)%nat.
Proof.
  intros Hi Hil Hu Hul Hd Hsz. cbv zeta. unfold udp_checksum.
  unfold UDP_CHECKSUM, UDP_LENGTH in *. cbv zeta.
  set (u0 := stw 2 6 0 udp).
  assert (Hu0 : bytes u0) by by apply bytes_stw.
  assert (Hl0 : length u0 = length udp) by (apply length_stw; lia).
  assert (HL0 : ldw 2 u0 4 = ldw 2 udp 4) by (apply ldw_stw_other; lia).
  rewrite HL0. pose proof (htons_range (ldw 2 udp 4)) as HR.
  change (ntohs (ldw 2 udp 4)) with (htons (ldw 2 udp 4)) in *.
  set (size := htons (ldw 2 udp 4) - 8) in *.
  assert (Hsize : 0 <= size <= 65527) by (unfold size; lia).
  rewrite (s32_small size) by lia.
  destruct (udp_header_sum_exact ip u0) as [Hh Hhr]; [done|done|done|lia|].
  pose proof (words_range data (Z.to_nat size) Hd) as Hw.
  assert (Hp : forall s, 0 <= s <= 720886 ->
            udp_payload_sum data size s = s + words data (Z.to_nat size)).
  { intros s Hs. unfold udp_payload_sum. rewrite (proj2 (Z.ltb_ge size 0)) by lia.
    apply sum_words_exact; [done|lia|]. lia. }
  rewrite Hh, Hp by lia.
  set (S0 := udp_header_words ip u0 + words data (Z.to_nat size)).
  set (c := u16 (Z.lnot (fold_carry (fold_carry S0)))).
  assert (HS0 : 0 <= S0 < 2 ^ 32 - 65536) by (unfold S0; lia).
  assert (Hc : c = 65535 - fold_carry (fold_carry S0) /\ 0 <= c < 65536).
  { unfold c. destruct (fold_twice S0) as (Hr & _); [lia|].
    rewrite checksum_value by done. lia. }
  destruct Hc as [Hc Hcr].
  assert (HL : ldw 2 (stw 2 6 c u0) 4 = ldw 2 udp 4) by (rewrite ldw_stw_other by lia; done).
  rewrite HL. change (ntohs (ldw 2 udp 4) - 8) with size.
  destruct (udp_header_sum_exact ip (stw 2 6 c u0)) as [Hh' Hhr'];
    [done|done|by apply bytes_stw|rewrite length_stw by lia; lia|].
  assert (Hwc : udp_header_words ip (stw 2 6 c u0) = udp_header_words ip u0 + c).
  { unfold udp_header_words, UDP_LENGTH.
    rewrite !(ldw_stw_other 2 2 6) by lia. rewrite ldw_stw_same by lia.
    rewrite Z.mod_small by (simpl; lia).
    assert (ldw 2 u0 6 = 0) as ->; [|lia].
    unfold u0. rewrite ldw_stw_same by lia. done. }
  repeat split.
  - rewrite Hh', Hp, Hwc by lia.
    replace (udp_header_words ip u0 + c + words data (Z.to_nat size)) with (S0 + c) by (unfold S0; lia).
    apply fold_complement; lia.
  - rewrite length_stw by lia. done.
  - intros i Hi'. unfold stw at 1.
    rewrite lookup_splice_out by (rewrite ?length_le_enc; lia).
    unfold u0, stw. by rewrite lookup_splice_out by (rewrite ?length_le_enc; lia).
Qed.

Lemma udp_checksum_verifies_witness :
  let udp := stw 2 UDP_LENGTH (htons 12) udphdr in
  fold_carry (fold_carry (udp_payload_sum (view [104; 105; 33; 10]) 4
    (udp_header_sum iphdr (udp_checksum iphdr udp (view [104; 105; 33; 10]))))) = 0xFFFF.
Proof.
  intros udp. apply (udp_checksum_verifies iphdr udp (view [104; 105; 33; 10])).
  - unfold bytes. repeat constructor; done.
  - vm_compute. lia.
  - unfold bytes. repeat constructor; done.
  - vm_compute. lia.
  - apply view_bytes. repeat constructor; done.
  - vm_compute. done.
Defined.

(** The frame [getip] writes to the Ethernet device is
    295 bytes long, within the limits of [net.h]; its IP length, UDP length
    and both checksums are the ones a receiver requires. *)
Theorem getip_frame_valid :
  let ip := slice 14 20 getip_frame in
  let udp := slice 34 8 getip_frame in
  let data := drop 42 getip_frame in
  length getip_frame = 295%nat /\
  ntohs (ldw 2 ip IP_LENGTH) = Z.of_nat (length getip_frame) - 14 /\
  ntohs (ldw 2 udp UDP_LENGTH) = Z.of_nat (length data) + 8 /\
  checksum (view ip) (ip4_hdrlen ip) = 0 /\
  fold_carry (fold_carry (udp_payload_sum (view data) (Z.of_nat (length data))
                            (udp_header_sum ip udp))) = 0xFFFF.
Proof. vm_compute. repeat split. Qed.

(** The flags field of the DHCP message, in network byte order, does not have
    the broadcast bit [0x8000]: [getip] stores [DHCP_FLAGS_BCAST] without
    [HTONS]. *)
Theorem getip_broadcast_flag_unswapped :
  ntohs (ldw 2 (drop 42 getip_frame) 10) = 0x0080 /\
  Z.land (ntohs (ldw 2 (drop 42 getip_frame) 10)) DHCP_FLAGS_BCAST = 0.
Proof. vm_compute. split; reflexivity. Qed.
