(* ===== verification/Kalloc.v ===== *)
(** * The physical page allocator: [src/kalloc.c]

    Physical memory is a map from page addresses to the 4096 bytes of the
    page.  The free list is the linked list the code builds: [freelist] is the
    address of the first free page, and the first word of a free page is the
    address of the next one.  [kend] is the linker's [end] symbol. *)

From stdpp Require Import base numbers list gmap strings list_numbers.
From Stdlib Require Import Lia ZArith ZifyBool.
From S2P Require Import Prelude.
Open Scope Z_scope.

Definition PGSIZE : Z := 4096.
Definition PHYSTOP : Z := 0x1000000.

(** mmu.h: [PGROUNDUP] and [PGROUNDDOWN] on 32-bit values. *)
Definition PGROUNDUP (sz : Z) : Z := clr (u32 (sz + PGSIZE - 1)) (PGSIZE - 1).
Definition PGROUNDDOWN (a : Z) : Z := clr a (PGSIZE - 1).

Record kmem := Kmem {
  pages : gmap Z (list Z);   (* physical memory *)
  freelist : Z               (* kmem.freelist; 0 is the null pointer *)
}.

Definition PGLEN : nat := Z.to_nat PGSIZE.
Definition zero_page : list Z := replicate PGLEN 0.
Definition page (k : kmem) (a : Z) : list Z := default zero_page (pages k !! a).
Definition set_page (a : Z) (p : list Z) (k : kmem) : kmem :=
  Kmem (<[a := p]> (pages k)) (freelist k).
Definition set_freelist (r : Z) (k : kmem) : kmem := Kmem (pages k) r.

(** [memset(v, c, PGSIZE)] on a page. *)
Definition memset_page (v c : Z) : M kmem unit := modify (set_page v (replicate PGLEN (u8 c))).

(** [r->next] of the [struct run] at the start of page [r]. *)
Definition run_next (k : kmem) (r : Z) : Z := ldw 4 (page k r) 0.
Definition set_run_next (r next : Z) (k : kmem) : kmem :=
  set_page r (stw 4 0 next (page k r)) k.

Section Kalloc.
Context (kend : Z) (Hkend : 0 < kend).

Definition kfree (v : Z) : M kmem unit :=
  if negb (v mod PGSIZE =? 0) || (v <? kend) || (PHYSTOP <=? v) then panic "kfree"
  else
    memset_page v 1;;
    next ← gets freelist;
    modify (set_run_next v next);;
    modify (set_freelist v).

Definition kalloc : M kmem Z :=
  r ← gets freelist;
  (if negb (r =? 0) then
     next ← gets (fun k => run_next k r);
     modify (set_freelist next)
   else mret tt);;
  mret r.

(** [for(; p + PGSIZE <= PHYSTOP; p += PGSIZE) kfree(p)] *)
Definition kinit : M kmem unit :=
  loop (Z.to_nat (PHYSTOP / PGSIZE) + 1)
    (fun p => if p + PGSIZE <=? PHYSTOP then kfree p;; mret (inl (p + PGSIZE))
              else mret (inr tt))
    (PGROUNDUP kend).

(** ** The free list as a list *)

Definition allocatable (a : Z) : Prop := a mod PGSIZE = 0 /\ kend <= a < PHYSTOP.

(** The linked list from [p] visits exactly the pages [l]. *)
Fixpoint chain (k : kmem) (p : Z) (l : list Z) : Prop :=
  match l with
  | [] => p = 0
  | a :: l => p = a /\ length (page k a) = PGLEN /\ chain k (run_next k a) l
  end.

(** The well-formedness invariant of the allocator. *)
Definition kinv (k : kmem) (l : list Z) : Prop :=
  chain k (freelist k) l /\ NoDup l /\ Forall allocatable l.

(** ** Lemmas *)

Lemma page_set_eq a p k : page (set_page a p k) a = p.
Proof. unfold page, set_page. simpl. by rewrite lookup_insert_eq. Qed.
Lemma page_set_ne a b p k : a <> b -> page (set_page a p k) b = page k b.
Proof. intros. unfold page, set_page. simpl. by rewrite lookup_insert_ne. Qed.

Lemma PGROUNDUP_spec a :
  0 <= a <= 2 ^ 32 - PGSIZE ->
  PGROUNDUP a mod PGSIZE = 0 /\ a <= PGROUNDUP a < a + PGSIZE.
Proof.
  intros Ha. unfold PGROUNDUP, clr, PGSIZE in *. rewrite u32_small by lia.
  change (4096 - 1) with (Z.ones 12).
  rewrite Z.ldiff_ones_r, Z.shiftl_mul_pow2, Z.shiftr_div_pow2 by lia.
  change (2 ^ 12) with 4096. split; Z.div_mod_to_equations; lia.
Qed.

Lemma PGROUNDDOWN_spec a :
  0 <= a -> PGROUNDDOWN a = a - a mod PGSIZE.
Proof.
  intros Ha. unfold PGROUNDDOWN, clr, PGSIZE in *.
  change (4096 - 1) with (Z.ones 12).
  rewrite Z.ldiff_ones_r, Z.shiftl_mul_pow2, Z.shiftr_div_pow2 by lia.
  change (2 ^ 12) with 4096. Z.div_mod_to_equations; lia.
Qed.

(** The list does not change when pages outside it do. *)
Lemma chain_frame k k' p l :
  (forall a, a ∈ l -> page k' a = page k a) -> chain k p l -> chain k' p l.
Proof.
  revert p. induction l as [|a l IH]; intros p Hf Hc; simpl in *; [done|].
  destruct Hc as (-> & Hl & Hc). unfold run_next. rewrite Hf by set_solver.
  split; [done|]. split; [done|]. apply IH; [set_solver|done].
Qed.

Lemma freelist_word k l :
  kinv k l -> freelist k mod 256 ^ Z.of_nat 4 = freelist k.
Proof using Hkend.
  intros (Hc & _ & Hall). apply Z.mod_small.
  destruct l as [|a l]; simpl in Hc; [lia|]. destruct Hc as (-> & _).
  inversion_clear Hall as [|? ? [_ Ha] _]. unfold PHYSTOP in *. simpl. lia.
Qed.

Lemma kfree_wp v k l :
  kinv k l -> allocatable v -> v ∉ l ->
  wp (kfree v) (fun _ k' => kinv k' (v :: l) /\ (forall a, a <> v -> page k' a = page k a)) k.
Proof using Hkend.
  intros Hk Hv Hnl. pose proof Hk as (Hc & Hnd & Hall). pose proof Hv as (Hal & Hr).
  unfold kfree. destruct (_ || _) eqn:E; [lia|]. clear E.
  unfold memset_page. repeat wp_step.
  set (k1 := set_page v (replicate PGLEN (u8 1)) k).
  set (k2 := set_freelist v (set_run_next v (freelist k1) k1)).
  assert (Hne : forall a, a <> v -> page k2 a = page k a).
  { intros a Ha. transitivity (page k1 a); apply page_set_ne; congruence. }
  assert (Hpv : page k2 v = stw 4 0 (freelist k) (replicate PGLEN (u8 1))).
  { transitivity (stw 4 0 (freelist k1) (page k1 v)); [apply page_set_eq|].
    unfold k1. by rewrite page_set_eq. }
  assert (HL : (0 + 4 <= length (replicate PGLEN (u8 1)))%nat)
    by (rewrite length_replicate; unfold PGLEN, PGSIZE; lia).
  split; [|done]. split; [|split; by constructor].
  split; [done|]. unfold run_next. rewrite Hpv. split.
  { by rewrite length_stw, length_replicate. }
  rewrite ldw_stw_same, (freelist_word k l) by done.
  eapply chain_frame; [|exact Hc]. intros a Ha. apply Hne. by intros ->.
Qed.

Lemma kalloc_wp k l :
  kinv k l ->
  wp kalloc (fun r k' => pages k' = pages k /\
               match l with
               | [] => r = 0 /\ kinv k' []
               | a :: l => r = a /\ a <> 0 /\ kinv k' l
               end) k.
Proof using Hkend.
  intros (Hc & Hnd & Hall). unfold kalloc. repeat wp_step.
  - split; [done|].
    destruct l as [|a l]; simpl in Hc; [lia|]. destruct Hc as (Hf & Hl & Hc).
    apply NoDup_cons in Hnd as [Ha Hnd]. inversion_clear Hall as [|? ? Hal Hall'].
    rewrite Hf. split; [done|]. split; [destruct Hal; lia|].
    split; [by apply (chain_frame k)|done].
  - split; [done|]. destruct l as [|a l]; simpl in Hc; [done|].
    destruct Hc as (Hf & _). inversion_clear Hall as [|? ? [? ?] _]. lia.
Qed.

(** ** Allocation traces

    An abstract allocator: the pages handed out and the pages still free.  A
    step is a [kalloc] or a [kfree] of a page that is out. *)

Inductive alloc_op := OpKalloc | OpKfree (v : Z).

Definition run_op (op : alloc_op) : M kmem Z :=
  match op with
  | OpKalloc => kalloc
  | OpKfree v => kfree v;; mret 0
  end.

(** What a client has seen: the pages it holds. *)
Definition client_step (op : alloc_op) (r : Z) (held : list Z) : list Z :=
  match op with
  | OpKalloc => if r =? 0 then held else r :: held
  | OpKfree v => filter (fun a => a <> v) held
  end.

Inductive trace : kmem -> list Z -> kmem -> list Z -> Prop :=
| trace_nil k held : trace k held k held
| trace_cons k held op r k' k'' held'' :
    (forall v, op = OpKfree v -> v ∈ held) ->
    run_op op k = Ok r k' ->
    trace k' (client_step op r held) k'' held'' ->
    trace k held k'' held''.

(** Free and held pages partition the allocatable pages [all]. *)
Definition partition (k : kmem) (held all : list Z) : Prop :=
  exists l, kinv k l /\ NoDup held /\ held ++ l ≡ₚ all.

Lemma run_op_partition op k held all :
  NoDup all -> Forall allocatable all -> partition k held all ->
  (forall v, op = OpKfree v -> v ∈ held) ->
  exists r k', run_op op k = Ok r k' /\ partition k' (client_step op r held) all /\
    (op = OpKalloc -> (r = 0 <-> held ≡ₚ all) /\ (r <> 0 -> r ∉ held)).
Proof using Hkend.
  intros Hnd Hall (l & Hk & Hh & Hp) Hop.
  assert (Hnl : NoDup (held ++ l)) by by rewrite Hp.
  apply NoDup_app in Hnl as (_ & Hdis & Hndl). destruct op as [|v]; simpl.
  - destruct (wp_elim _ _ _ (kalloc_wp k l Hk)) as (r & k' & Hr & _ & Hq).
    exists r, k'. split; [done|]. destruct l as [|a l].
    + destruct Hq as [-> Hk']. simpl. rewrite app_nil_r in Hp.
      split; [exists []; rewrite app_nil_r; done|]. intros _. naive_solver.
    + destruct Hq as (-> & Ha & Hk'). rewrite (proj2 (Z.eqb_neq a 0)) by done.
      assert (a ∉ held) by (intros Hin; apply (Hdis a); set_solver).
      split.
      * exists l. split; [done|]. split; [by constructor|].
        rewrite <- Hp. simpl. by rewrite Permutation_middle.
      * intros _. split; [|done]. split; [done|]. intros Hperm. exfalso.
        apply Permutation_length in Hperm. apply Permutation_length in Hp.
        rewrite length_app in Hp. simpl in Hp. lia.
  - specialize (Hop v eq_refl).
    assert (Hav : allocatable v).
    { rewrite Forall_forall in Hall. apply Hall. rewrite <- Hp. set_solver. }
    assert (Hvl : v ∉ l) by (intros Hin; by apply (Hdis v)).
    destruct (wp_elim _ _ _ (kfree_wp v k l Hk Hav Hvl)) as ([] & k' & Hr & Hk' & _).
    exists 0, k'. unfold mbind, M_bind. rewrite Hr. split; [done|]. split; [|done].
    exists (v :: l). split; [done|]. split; [by apply NoDup_filter|].
    rewrite <- Hp. rewrite <- Permutation_middle. rewrite app_comm_cons. f_equiv.
    clear - Hh Hop. induction held as [|x held IH]; [set_solver|].
    apply NoDup_cons in Hh as [Hx Hh]. destruct (decide (x = v)) as [->|Hxv].
    + rewrite filter_cons_False by naive_solver. f_equiv.
      clear - Hx. induction held as [|y held IH]; [done|].
      rewrite filter_cons_True by set_solver. f_equiv. apply IH. set_solver.
    + rewrite filter_cons_True by naive_solver.
      rewrite Permutation_swap. f_equiv. apply IH; [done|set_solver].
Qed.

(** C9 (kalloc.c): whatever sequence of [kalloc] calls and [kfree]s of pages
    currently held is run, no call panics, and at every point the pages held
    and the free list are disjoint, without duplicates, and together are
    exactly the allocatable pages: [kalloc] never hands out a page twice and
    no page is lost. *)
Theorem alloc_trace_partition k held k' held' all :
  NoDup all -> Forall allocatable all -> partition k held all ->
  trace k held k' held' ->
  partition k' held' all /\
  forall op, (forall v, op = OpKfree v -> v ∈ held') ->
    exists r k'', run_op op k' = Ok r k'' /\
      (op = OpKalloc -> (r = 0 <-> held' ≡ₚ all) /\ (r <> 0 -> r ∉ held')).
Proof using Hkend.
  intros Hnd Hall Hp Ht.
  assert (Hp' : partition k' held' all).
  { induction Ht as [|k held op r k1 k2 held2 Hop Hr Ht IH]; [done|].
    destruct (run_op_partition op k held all Hnd Hall Hp Hop) as (r' & k1' & Hr' & Hp1 & _).
    rewrite Hr in Hr'. injection Hr' as -> ->. auto. }
  split; [done|]. intros op Hop.
  destruct (run_op_partition op k' held' all Hnd Hall Hp' Hop) as (r & k'' & Hr & _ & Hq).
  eauto.
Qed.

(** The pages [kinit] frees, in the order it frees them. *)
Definition all_pages : list Z :=
  (fun i => PGROUNDUP kend + PGSIZE * i) <$>
    seqZ 0 ((PHYSTOP - PGROUNDUP kend) / PGSIZE).

Lemma elem_of_all_pages a :
  kend <= PHYSTOP -> a ∈ all_pages <-> allocatable a.
Proof using Hkend.
  intros He. unfold all_pages, allocatable.
  destruct (PGROUNDUP_spec kend) as [Hm Hr]; [unfold PHYSTOP, PGSIZE in *; lia|].
  rewrite list_elem_of_fmap. split.
  - intros (i & -> & Hi). apply elem_of_seqZ in Hi. unfold PGSIZE, PHYSTOP in *.
    Z.div_mod_to_equations. lia.
  - intros [Ha Har]. exists ((a - PGROUNDUP kend) / PGSIZE).
    rewrite elem_of_seqZ. unfold PGSIZE, PHYSTOP in *. Z.div_mod_to_equations. lia.
Qed.

Lemma NoDup_all_pages : NoDup all_pages.
Proof.
  unfold all_pages. apply NoDup_fmap_2; [|apply NoDup_seqZ].
  intros i j. unfold PGSIZE. lia.
Qed.

Lemma kinit_wp k :
  kend <= PHYSTOP -> freelist k = 0 ->
  wp kinit (fun _ k' => partition k' [] all_pages) k.
Proof using Hkend.
  intros He Hk. destruct (PGROUNDUP_spec kend) as [Hm Hr]; [unfold PHYSTOP, PGSIZE in *; lia|].
  unfold kinit. set (n := (PHYSTOP - PGROUNDUP kend) / PGSIZE).
  eapply (wp_loop
    (fun p k => exists i, 0 <= i <= n /\ p = PGROUNDUP kend + PGSIZE * i /\
       kinv k (reverse ((fun i => PGROUNDUP kend + PGSIZE * i) <$> seqZ 0 i)))
    (fun p _ => Z.to_nat ((PHYSTOP - p) / PGSIZE))).
  - intros p k1 (i & Hi & -> & Hinv). repeat wp_step.
    + assert (i < n) by (unfold n, PGSIZE, PHYSTOP in *; Z.div_mod_to_equations; lia).
      eapply wp_mono; [apply (kfree_wp _ _ _ Hinv)|].
      * unfold allocatable, PGSIZE, PHYSTOP in *. Z.div_mod_to_equations. lia.
      * rewrite elem_of_reverse, list_elem_of_fmap. intros (j & Hj & Hjr).
        apply elem_of_seqZ in Hjr. unfold PGSIZE in *. lia.
      * intros [] k2 [Hk2 _]. apply wp_ret. split.
        -- exists (i + 1). split; [lia|]. split; [lia|].
           replace (seqZ 0 (i + 1)) with (seqZ 0 i ++ [i]).
           { by rewrite fmap_app, reverse_app. }
           rewrite (seqZ_app 0 i 1) by lia. done.
        -- unfold PGSIZE, PHYSTOP in *. Z.div_mod_to_equations. lia.
    + exists (reverse all_pages). rewrite app_nil_l.
      assert (i = n) as -> by (unfold n, PGSIZE, PHYSTOP in *; Z.div_mod_to_equations; lia).
      split; [done|]. split; [constructor|]. apply reverse_Permutation.
  - exists 0. split; [unfold n, PGSIZE, PHYSTOP in *; Z.div_mod_to_equations; lia|]. split; [lia|].
    split; [exact Hk|]. split; constructor.
  - unfold PGSIZE, PHYSTOP in *. Z.div_mod_to_equations. lia.
Qed.

(** From an empty free list, [kinit] terminates without
    a panic and leaves a well-formed free list that holds exactly the pages
    between the end of the kernel and [PHYSTOP], each once. *)
Theorem kinit_frees_all k :
  kend <= PHYSTOP -> freelist k = 0 ->
  wp kinit (fun _ k' => exists l, kinv k' l /\ forall a, a ∈ l <-> allocatable a) k.
Proof using Hkend.
  intros He Hk. eapply wp_mono; [by apply kinit_wp|].
  intros _ k' (l & Hl & _ & Hp). exists l. split; [done|].
  intros a. rewrite <- (elem_of_all_pages a He), <- Hp. done.
Qed.
End Kalloc.

(** A machine whose kernel ends two pages below [PHYSTOP]. *)
Definition two_pages : Z := PHYSTOP - 2 * PGSIZE.

Lemma kinit_frees_all_witness :
  wp (kinit two_pages)
     (fun _ k => exists l, kinv two_pages k l /\ forall a, a ∈ l <-> allocatable two_pages a)
     (Kmem ∅ 0).
Proof. apply kinit_frees_all; done. Defined.

Definition after {A} (m : M kmem A) (k : kmem) : kmem :=
  match m k with Ok _ k' => k' | _ => k end.

Lemma alloc_trace_partition_witness :
  partition two_pages (after kalloc (after (kinit two_pages) (Kmem ∅ 0)))
    [PHYSTOP - PGSIZE] (all_pages two_pages).
Proof.
  apply (alloc_trace_partition two_pages ltac:(done) (after (kinit two_pages) (Kmem ∅ 0)) []).
  - apply NoDup_all_pages.
  - apply Forall_forall. intros x. apply elem_of_all_pages; done.
  - pose proof (kinit_wp two_pages ltac:(done) (Kmem ∅ 0) ltac:(done) ltac:(done)) as H.
    unfold wp in H. unfold after. destruct (kinit two_pages (Kmem ∅ 0)); done.
  - eapply (trace_cons two_pages _ _ OpKalloc (PHYSTOP - PGSIZE)); [done| |constructor].
    vm_compute. reflexivity.
Defined.
