(* ===== verification/Pipe.v ===== *)
(** * Pipes: [src/pipe.c]

    [pipewrite], [piperead] and [pipeclose] run under the pipe's lock from the
    moment they get it until they release it or call [sleep]; each such
    stretch is one atomic run of the model, given by a function from the pipe
    to the new pipe, the channels it woke, and how it ended: with a return
    value or asleep, with what is left to do.  The concurrent system is the
    step relation [step] over a set of threads that interleave these runs; a
    sleeping thread runs again only when a [wakeup] on its channel (or a
    [kill]) has made it runnable. *)

From stdpp Require Import base numbers list gmap list_numbers.
From Stdlib Require Import Lia ZArith ZifyBool.
From S2P Require Import Prelude.
Open Scope Z_scope.

Definition PIPESIZE : Z := 512.

(** struct pipe, without its lock. *)
Record pipe := Pipe {
  data : list Z;       (* char data[PIPESIZE] *)
  nread : Z;           (* number of bytes read, a uint *)
  nwrite : Z;          (* number of bytes written, a uint *)
  readopen : bool;     (* read fd is still open *)
  writeopen : bool     (* write fd is still open *)
}.

(** The two channels of a pipe: [&p->nread] and [&p->nwrite]. *)
Inductive pchan := CNread | CNwrite.

(** [pipealloc] on a fresh page with contents [junk]. *)
Definition pipe_init (junk : list Z) : pipe := Pipe junk 0 0 true true.

Definition pipe_full (p : pipe) : bool := nwrite p =? u32 (nread p + PIPESIZE).
Definition pipe_empty (p : pipe) : bool := nread p =? nwrite p.

(** [p->data[p->nwrite++ % PIPESIZE] = b] *)
Definition pipe_put (b : Z) (p : pipe) : pipe :=
  Pipe (<[Z.to_nat (nwrite p mod PIPESIZE) := b]> (data p)) (nread p) (u32 (nwrite p + 1))
       (readopen p) (writeopen p).

(** [p->data[p->nread++ % PIPESIZE]] *)
Definition pipe_get (p : pipe) : Z * pipe :=
  (default 0 (data p !! Z.to_nat (nread p mod PIPESIZE)),
   Pipe (data p) (u32 (nread p + 1)) (nwrite p) (readopen p) (writeopen p)).

(** How a run of [pipewrite] ends: a return value, or asleep on [&p->nwrite]
    with the bytes still to write. *)
Inductive wresult := WRet (r : Z) | WSleep (rest : list Z).

Fixpoint pipewrite_run (killed : bool) (n : Z) (rest : list Z) (p : pipe)
    : pipe * list pchan * wresult :=
  match rest with
  | [] => (p, [CNread], WRet n)
  | b :: rest' =>
      if pipe_full p then
        if negb (readopen p) || killed then (p, [], WRet (-1))
        else (p, [CNread], WSleep rest)
      else pipewrite_run killed n rest' (pipe_put b p)
  end.

Definition pipewrite (killed : bool) (addr : list Z) (n : Z) (p : pipe) :=
  pipewrite_run killed n (take (Z.to_nat n) addr) p.

(** [for(i = 0; i < n; i++) { if(p->nread == p->nwrite) break; addr[i] = ... }] *)
Fixpoint pipe_copy (n : nat) (p : pipe) : list Z * pipe :=
  match n with
  | O => ([], p)
  | S n => if pipe_empty p then ([], p)
           else let '(b, p) := pipe_get p in
                let '(bs, p) := pipe_copy n p in (b :: bs, p)
  end.

Inductive rresult := RRet (r : Z) (bytes : list Z) | RSleep.

Definition piperead (killed : bool) (n : Z) (p : pipe) : pipe * list pchan * rresult :=
  if pipe_empty p && writeopen p then
    if killed then (p, [], RRet (-1) []) else (p, [], RSleep)
  else
    let '(bs, p) := pipe_copy (Z.to_nat n) p in
    (p, [CNwrite], RRet (Z.of_nat (length bs)) bs).

(** The flag is whether the page is given back with [kfree]. *)
Definition pipeclose (writable : bool) (p : pipe) : pipe * list pchan * bool :=
  let '(p, w) :=
    if writable then (Pipe (data p) (nread p) (nwrite p) (readopen p) false, [CNread])
    else (Pipe (data p) (nread p) (nwrite p) false (writeopen p), [CNwrite]) in
  (p, w, negb (readopen p) && negb (writeopen p)).

(** ** The concurrent system *)

Inductive thread :=
| Idle
| Writing (n : Z) (rest : list Z)      (* runnable in pipewrite *)
| AsleepW (n : Z) (rest : list Z)      (* asleep on &p->nwrite *)
| Reading (n : Z)                      (* runnable in piperead *)
| AsleepR (n : Z).                     (* asleep on &p->nread *)

(** proc.c [wakeup1]: every thread asleep on the channel becomes runnable. *)
Definition wake1 (c : pchan) (t : thread) : thread :=
  match c, t with
  | CNread, AsleepR n => Reading n
  | CNwrite, AsleepW n rest => Writing n rest
  | _, _ => t
  end.
Definition wakeups (cs : list pchan) (t : thread) : thread := foldl (fun t c => wake1 c t) t cs.

(** The pipe, the threads, and what went in and came out so far. *)
Record sys := Sys {
  pp : pipe;
  threads : list thread;
  put_log : list Z;
  got_log : list Z
}.

Definition after_write (n : Z) (r : wresult) : thread :=
  match r with WRet _ => Idle | WSleep rest => AsleepW n rest end.
Definition after_read (n : Z) (r : rresult) : thread :=
  match r with RRet _ _ => Idle | RSleep => AsleepR n end.
Definition got (r : rresult) : list Z := match r with RRet _ bs => bs | RSleep => [] end.

(** The bytes of [rest] that a run of [pipewrite] stores in the pipe. *)
Fixpoint stored (rest : list Z) (p : pipe) : list Z :=
  match rest with
  | [] => []
  | b :: rest' => if pipe_full p then [] else b :: stored rest' (pipe_put b p)
  end.

(** A writer's run, with the value of [proc->killed] it read, or anything else. *)
Inductive event := EvWriter (killed : bool) | EvOther.

Definition is_writer (t : thread) : bool :=
  match t with Writing _ _ | AsleepW _ _ => true | _ => false end.
Definition is_reader (t : thread) : bool :=
  match t with Reading _ | AsleepR _ => true | _ => false end.

(** A thread inside [pipewrite] or [piperead] holds a reference to the
    [struct file] of that end ([file.c]), so calls start only on an open end
    and [fileclose] closes an end only when no thread is in a call on it. *)
Inductive step : sys -> event -> sys -> Prop :=
| step_call_write s t addr n :
    threads s !! t = Some Idle ->
    writeopen (pp s) = true ->
    step s EvOther
      (Sys (pp s) (<[t := Writing n (take (Z.to_nat n) addr)]> (threads s)) (put_log s) (got_log s))
| step_call_read s t n :
    threads s !! t = Some Idle ->
    readopen (pp s) = true ->
    step s EvOther (Sys (pp s) (<[t := Reading n]> (threads s)) (put_log s) (got_log s))
| step_run_write s t killed n rest p' w r :
    threads s !! t = Some (Writing n rest) ->
    pipewrite_run killed n rest (pp s) = (p', w, r) ->
    step s (EvWriter killed)
      (Sys p' (wakeups w <$> <[t := after_write n r]> (threads s))
           (put_log s ++ stored rest (pp s)) (got_log s))
| step_run_read s t killed n p' w r :
    threads s !! t = Some (Reading n) ->
    piperead killed n (pp s) = (p', w, r) ->
    step s EvOther
      (Sys p' (wakeups w <$> <[t := after_read n r]> (threads s)) (put_log s) (got_log s ++ got r))
| step_close s (writable : bool) p' w freed :
    (forall t x, threads s !! t = Some x -> (if writable then is_writer x else is_reader x) = false) ->
    pipeclose writable (pp s) = (p', w, freed) ->
    step s EvOther (Sys p' (wakeups w <$> threads s) (put_log s) (got_log s))
| step_kill_writer s t n rest :
    threads s !! t = Some (AsleepW n rest) ->
    step s EvOther (Sys (pp s) (<[t := Writing n rest]> (threads s)) (put_log s) (got_log s))
| step_kill_reader s t n :
    threads s !! t = Some (AsleepR n) ->
    step s EvOther (Sys (pp s) (<[t := Reading n]> (threads s)) (put_log s) (got_log s)).

Inductive reachable (P : event -> Prop) (junk : list Z) : sys -> Prop :=
| reach_init th :
    (forall t x, th !! t = Some x -> x = Idle) ->
    reachable P junk (Sys (pipe_init junk) th [] [])
| reach_step s e s' : reachable P junk s -> P e -> step s e s' -> reachable P junk s'.

(** ** The pipe as a bounded queue *)

Definition pcount (p : pipe) : Z := u32 (nwrite p - nread p).

(** The unread bytes, oldest first. *)
Definition contents (p : pipe) : list Z :=
  (fun k => default 0 (data p !! Z.to_nat ((nread p + k) mod PIPESIZE))) <$> seqZ 0 (pcount p).

Definition pipe_wf (p : pipe) : Prop :=
  length (data p) = Z.to_nat PIPESIZE /\
  0 <= nread p < 2 ^ 32 /\ 0 <= nwrite p < 2 ^ 32 /\ pcount p <= PIPESIZE.

Lemma u32_sub_mod a b : 0 <= a < 2 ^ 32 -> 0 <= b < 2 ^ 32 ->
  u32 (a - b) = if b <=? a then a - b else a - b + 2 ^ 32.
Proof.
  intros. unfold u32. destruct (b <=? a) eqn:E.
  - apply Z.mod_small. lia.
  - symmetry. apply Z.mod_unique_pos with (q := -1); lia.
Qed.

Lemma u32_succ a : 0 <= a < 2 ^ 32 -> u32 (a + 1) = if a =? 2 ^ 32 - 1 then 0 else a + 1.
Proof.
  intros. destruct (a =? 2 ^ 32 - 1) eqn:E; [by replace a with (2 ^ 32 - 1) by lia|].
  apply u32_small. lia.
Qed.

Lemma mod512_wrap a : (a + 2 ^ 32) mod PIPESIZE = a mod PIPESIZE.
Proof. replace (2 ^ 32) with (8388608 * PIPESIZE) by done. apply Z_mod_plus_full. Qed.

Lemma pipe_full_count p : pipe_wf p -> pipe_full p = true <-> pcount p = PIPESIZE.
Proof.
  intros (_ & Hr & Hw & Hc). unfold pipe_full, pcount in *.
  rewrite u32_sub_mod in * by done. unfold u32, PIPESIZE in *.
  destruct (decide (nread p + 512 < 2 ^ 32)).
  - rewrite (Z.mod_small (nread p + 512)) by lia.
    destruct (nread p <=? nwrite p) eqn:E; lia.
  - rewrite <- (Z.mod_unique_pos (nread p + 512) (2 ^ 32) 1 (nread p + 512 - 2 ^ 32)) by lia.
    destruct (nread p <=? nwrite p) eqn:E; lia.
Qed.

Lemma pipe_empty_count p : pipe_wf p -> pipe_empty p = true <-> pcount p = 0.
Proof.
  intros (_ & Hr & Hw & Hc). unfold pipe_empty, pcount in *.
  rewrite u32_sub_mod in * by done. destruct (nread p <=? nwrite p) eqn:E; lia.
Qed.

Lemma pcount_range p : 0 <= pcount p.
Proof. apply u32_range. Qed.

(** The write index is [pcount] places after the read index in the ring. *)
Lemma nwrite_index p :
  pipe_wf p -> nwrite p mod PIPESIZE = (nread p + pcount p) mod PIPESIZE.
Proof.
  intros (_ & Hr & Hw & Hc). unfold pcount. rewrite u32_sub_mod by done.
  destruct (nread p <=? nwrite p) eqn:E; [f_equal; lia|].
  rewrite <- (mod512_wrap (nwrite p)). f_equal. lia.
Qed.

Lemma contents_empty p : pipe_wf p -> pipe_empty p = true -> contents p = [].
Proof.
  intros Hwf He. apply pipe_empty_count in He; [|done]. unfold contents. by rewrite He.
Qed.

Lemma length_contents p : length (contents p) = Z.to_nat (pcount p).
Proof. unfold contents. by rewrite length_fmap, length_seqZ. Qed.

Lemma pipe_put_spec b p :
  pipe_wf p -> pipe_full p = false ->
  pipe_wf (pipe_put b p) /\ contents (pipe_put b p) = contents p ++ [b].
Proof.
  intros Hwf Hnf. pose proof Hwf as (Hl & Hr & Hw & Hc). pose proof (pcount_range p) as H0.
  assert (Hlt : pcount p < PIPESIZE).
  { assert (pcount p <> PIPESIZE); [|lia]. intros H. apply pipe_full_count in H; congruence. }
  assert (Hc' : pcount (pipe_put b p) = pcount p + 1).
  { unfold pcount, PIPESIZE in *. simpl. rewrite u32_sub_mod in Hlt by done.
    rewrite u32_succ by done. rewrite !u32_sub_mod by (try done; split_if; lia).
    split_if; lia. }
  split.
  - split; [by simpl; rewrite length_insert|]. simpl. split; [done|]. split; [apply u32_range|].
    rewrite Hc'. lia.
  - unfold contents. rewrite Hc', (seqZ_app 0 (pcount p) 1) by lia.
    rewrite fmap_app. simpl. f_equal.
    + apply list_fmap_ext. intros i k Hk. apply lookup_seqZ in Hk as [-> Hk].
      rewrite list_lookup_insert_ne; [done|]. rewrite nwrite_index by done.
      unfold PIPESIZE in *. Z.div_mod_to_equations. lia.
    + rewrite Z.add_0_l, <- nwrite_index by done.
      rewrite list_lookup_insert_eq; [done|]. rewrite Hl. unfold PIPESIZE.
      Z.div_mod_to_equations. lia.
Qed.

Lemma pipe_get_spec p b p' :
  pipe_wf p -> pipe_empty p = false -> pipe_get p = (b, p') ->
  pipe_wf p' /\ contents p = b :: contents p'.
Proof.
  intros Hwf Hne Hg. pose proof Hwf as (Hl & Hr & Hw & Hc). pose proof (pcount_range p) as H0.
  injection Hg as Hb Hp'.
  assert (Hpos : 0 < pcount p).
  { assert (pcount p <> 0); [|lia]. intros H. apply pipe_empty_count in H; congruence. }
  assert (Hc' : pcount p' = pcount p - 1).
  { subst p'. unfold pcount in *. simpl. rewrite u32_sub_mod in Hpos by done.
    rewrite u32_succ by done. rewrite !u32_sub_mod by (try done; split_if; lia).
    split_if; lia. }
  split.
  - split; [by subst p'|]. subst p'. simpl in *. split; [apply u32_range|]. split; [done|].
    rewrite Hc'. lia.
  - unfold contents. rewrite Hc'. replace (seqZ 0 (pcount p)) with (0 :: seqZ 1 (pcount p - 1)).
    2:{ rewrite (seqZ_cons 0 (pcount p)) by lia. by f_equal. }
    simpl. f_equal; [by rewrite Z.add_0_r|].
    rewrite <- (Z.add_0_r 1) at 1. rewrite <- fmap_add_seqZ, <- list_fmap_compose.
    apply list_fmap_ext. intros i k Hk. simpl. apply lookup_seqZ in Hk as [-> Hk].
    subst p'. simpl. do 3 f_equal. rewrite u32_succ by done.
    destruct (nread p =? 2 ^ 32 - 1) eqn:E; [|f_equal; lia].
    rewrite <- (mod512_wrap (0 + _)). f_equal. lia.
Qed.

(** ** What a run does to the queue *)

Lemma pipewrite_run_spec killed n rest p p' w r :
  pipe_wf p -> pipewrite_run killed n rest p = (p', w, r) ->
  pipe_wf p' /\ contents p' = contents p ++ stored rest p /\
  readopen p' = readopen p /\ writeopen p' = writeopen p /\
  match r with
  | WRet v => (v = n /\ stored rest p = rest /\ w = [CNread]) \/
              (v = -1 /\ w = [] /\ (readopen p = false \/ killed = true) /\ pipe_full p' = true)
  | WSleep rest' => rest = stored rest p ++ rest' /\ rest' <> [] /\ w = [CNread] /\
                    readopen p = true /\ killed = false /\ pipe_full p' = true
  end.
Proof.
  revert p. induction rest as [|b rest IH]; intros p Hwf Hrun; simpl in Hrun |- *.
  { simplify_eq. rewrite app_nil_r. naive_solver. }
  destruct (pipe_full p) eqn:Hf.
  - rewrite app_nil_r. destruct (negb (readopen p) || killed) eqn:Hc; simplify_eq.
    + split_and!; [done..|]. right. split_and!; try done.
      destruct (readopen p'); [|by left]. right. by destruct killed.
    + apply orb_false_iff in Hc as [Hc ->]. apply negb_false_iff in Hc. by split_and!.
  - destruct (pipe_put_spec b p Hwf Hf) as [Hwf' Hc'].
    destruct (IH _ Hwf' Hrun) as (? & Hc & ? & ? & Hr). split_and!; [done| |done|done|].
    + by rewrite Hc, Hc', <- app_assoc.
    + destruct r; simpl in Hr.
      * destruct Hr as [(? & Hr & ?)|Hr]; [left|right; exact Hr].
        split_and!; [done|by f_equal|done].
      * destruct Hr as (Hr & ?). split; [|done]. simpl. by f_equal.
Qed.

Lemma pipe_copy_spec n p bs p' :
  pipe_wf p -> pipe_copy n p = (bs, p') ->
  pipe_wf p' /\ contents p = bs ++ contents p' /\ bs = take n (contents p) /\
  readopen p' = readopen p /\ writeopen p' = writeopen p.
Proof.
  revert p bs. induction n as [|n IH]; intros p bs Hwf Hc; cbn [pipe_copy] in Hc.
  { by simplify_eq. }
  destruct (pipe_empty p) eqn:He.
  { simplify_eq. rewrite contents_empty by done. done. }
  destruct (pipe_get p) as [b q] eqn:Hg. destruct (pipe_copy n q) as [bs' q'] eqn:Hq.
  simplify_eq. destruct (pipe_get_spec _ _ _ Hwf He Hg) as [Hwf' Hb].
  destruct (IH _ _ Hwf' Hq) as (? & Hq1 & Hq2 & Hq3 & Hq4). injection Hg as _ Hq0.
  split_and!; [done| | | |].
  - rewrite Hb, Hq1. done.
  - rewrite Hb. simpl. by f_equal.
  - rewrite Hq3. by subst q.
  - rewrite Hq4. by subst q.
Qed.

Lemma piperead_spec killed n p p' w r :
  pipe_wf p -> piperead killed n p = (p', w, r) ->
  pipe_wf p' /\ contents p = got r ++ contents p' /\
  readopen p' = readopen p /\ writeopen p' = writeopen p /\
  match r with
  | RRet v bs =>
      (v = -1 /\ killed = true /\ p' = p /\ bs = [] /\ w = [] /\ contents p = []) \/
      (v = Z.of_nat (length bs) /\ bs = take (Z.to_nat n) (contents p) /\ w = [CNwrite] /\
       (contents p = [] -> writeopen p = false))
  | RSleep => p' = p /\ w = [] /\ pipe_empty p = true /\ writeopen p = true /\ killed = false
  end.
Proof.
  intros Hwf. unfold piperead. destruct (pipe_empty p && writeopen p) eqn:Hc.
  - apply andb_true_iff in Hc as [He Ho].
    destruct killed; intros; simplify_eq; split_and!; try done; left.
    split_and!; try done. by apply contents_empty.
  - destruct (pipe_copy (Z.to_nat n) p) as [bs q] eqn:Hq. intros; simplify_eq.
    destruct (pipe_copy_spec _ _ _ _ Hwf Hq) as (? & ? & ? & ? & ?).
    split_and!; try done. right. split_and!; try done. intros Hnil.
    destruct (pipe_empty p) eqn:He; [done|]. exfalso.
    assert (pcount p <> 0) by (intros H'; apply pipe_empty_count in H'; congruence).
    pose proof (pcount_range p). pose proof (length_contents p) as Hl.
    rewrite Hnil in Hl. simpl in Hl. lia.
Qed.

Lemma pipeclose_spec writable p p' w freed :
  pipeclose writable p = (p', w, freed) ->
  contents p' = contents p /\ (pipe_wf p -> pipe_wf p') /\
  pipe_empty p' = pipe_empty p /\ pipe_full p' = pipe_full p /\
  readopen p' = readopen p && writable /\ writeopen p' = writeopen p && negb writable /\
  w = [if writable then CNread else CNwrite].
Proof. destruct writable; intros [= <- <- <-]; by rewrite ?andb_true_r, ?andb_false_r. Qed.

(** ** Invariants of the concurrent system *)

Lemma is_writer_wakeups w t : is_writer (wakeups w t) = is_writer t.
Proof.
  revert t. induction w as [|c w IH]; intros t; [done|]. simpl. rewrite IH. by destruct c, t.
Qed.

Lemma is_reader_wakeups w t : is_reader (wakeups w t) = is_reader t.
Proof.
  revert t. induction w as [|c w IH]; intros t; [done|]. simpl. rewrite IH. by destruct c, t.
Qed.

Lemma wakeups_asleepR w t n : wakeups w t = AsleepR n -> t = AsleepR n /\ CNread ∉ w.
Proof.
  revert t. induction w as [|c w IH]; intros t Hw; [split; [done|apply not_elem_of_nil]|].
  apply IH in Hw as [Ht Hw]. rewrite not_elem_of_cons. by destruct c, t.
Qed.

Lemma wakeups_asleepW w t n rest :
  wakeups w t = AsleepW n rest -> t = AsleepW n rest /\ CNwrite ∉ w.
Proof.
  revert t. induction w as [|c w IH]; intros t Hw; [split; [done|apply not_elem_of_nil]|].
  apply IH in Hw as [Ht Hw]. rewrite not_elem_of_cons. by destruct c, t.
Qed.

(** A thread of the new state is the one that ran or an old one. *)
Lemma lookup_ran (th : list thread) (f : thread -> thread) t x u y :
  (f <$> <[t := x]> th) !! u = Some y ->
  exists z, y = f z /\ (z = x \/ th !! u = Some z).
Proof.
  intros (z & -> & Hz)%list_lookup_fmap_Some. exists z. split; [done|].
  apply list_lookup_insert_Some in Hz. naive_solver.
Qed.

Lemma lookup_started (th : list thread) t x u y :
  <[t := x]> th !! u = Some y -> y = x \/ th !! u = Some y.
Proof.
  intros H. destruct (lookup_ran th id t x u y) as (z & -> & Hz); [by rewrite list_fmap_id|].
  destruct Hz; auto.
Qed.

(** Threads are in a call only on an end that is open. *)
Definition ends_open (s : sys) : Prop :=
  forall t x, threads s !! t = Some x ->
    (is_writer x = true -> writeopen (pp s) = true) /\
    (is_reader x = true -> readopen (pp s) = true).

Definition fifo (s : sys) : Prop :=
  pipe_wf (pp s) /\ put_log s = got_log s ++ contents (pp s).

(** Whoever sleeps has a reason to: nothing to read, or no room to write. *)
Definition no_lost_wakeup (s : sys) : Prop :=
  forall t x, threads s !! t = Some x ->
    match x with
    | AsleepR _ => pipe_empty (pp s) = true /\ writeopen (pp s) = true
    | AsleepW _ rest => pipe_full (pp s) = true /\ readopen (pp s) = true /\ rest <> []
    | _ => True
    end.

Lemma step_fifo s e s' : fifo s -> step s e s' -> fifo s'.
Proof.
  intros [Hwf Hlog] Hstep. destruct Hstep; unfold fifo; simpl; try done.
  - destruct (pipewrite_run_spec _ _ _ _ _ _ _ Hwf H0) as (? & Hc & _).
    split; [done|]. by rewrite Hlog, Hc, <- app_assoc.
  - destruct (piperead_spec _ _ _ _ _ _ Hwf H0) as (? & Hc & _).
    split; [done|]. by rewrite Hlog, Hc, <- app_assoc.
  - destruct (pipeclose_spec _ _ _ _ _ H0) as (Hc & Hw & _). rewrite Hc. auto.
Qed.

Lemma step_ends_open s e s' : fifo s -> ends_open s -> step s e s' -> ends_open s'.
Proof.
  intros [Hwf _] Hopen Hstep u y Hu. destruct Hstep; simpl in Hu |- *.
  1,2,6,7: apply lookup_started in Hu as [->|Hu]; [|by eapply Hopen];
    simpl; split; try done; intros; by eapply Hopen.
  - destruct (pipewrite_run_spec _ _ _ _ _ _ _ Hwf H0) as (_ & _ & -> & -> & _).
    apply lookup_ran in Hu as (z & -> & Hz). rewrite is_writer_wakeups, is_reader_wakeups.
    destruct Hz as [->|Hz]; [|by eapply Hopen]. destruct r; simpl; split; try done.
    intros _. by eapply Hopen.
  - destruct (piperead_spec _ _ _ _ _ _ Hwf H0) as (_ & _ & -> & -> & _).
    apply lookup_ran in Hu as (z & -> & Hz). rewrite is_writer_wakeups, is_reader_wakeups.
    destruct Hz as [->|Hz]; [|by eapply Hopen]. destruct r; simpl; split; try done.
    intros _. by eapply Hopen.
  - destruct (pipeclose_spec _ _ _ _ _ H0) as (_ & _ & _ & _ & -> & -> & _).
    rewrite list_lookup_fmap in Hu. destruct (threads s !! u) as [z|] eqn:Hz; [|done].
    injection Hu as <-. rewrite is_writer_wakeups, is_reader_wakeups.
    pose proof (H _ _ Hz). pose proof (Hopen _ _ Hz) as [Hw Hr].
    destruct writable; cbv [negb]; rewrite ?andb_true_r, ?andb_false_r; split; auto; congruence.
Qed.

Lemma full_not_empty p : pipe_wf p -> pipe_full p = true -> pipe_empty p = true -> False.
Proof. intros Hwf Hf%pipe_full_count He%pipe_empty_count; unfold PIPESIZE in *; lia || done. Qed.

(** A run of a writer that was not killed leaves no reader asleep behind it. *)
Lemma write_no_lost_wakeup s t n rest p' w r :
  fifo s -> ends_open s -> no_lost_wakeup s ->
  threads s !! t = Some (Writing n rest) ->
  pipewrite_run false n rest (pp s) = (p', w, r) ->
  no_lost_wakeup (Sys p' (wakeups w <$> <[t := after_write n r]> (threads s))
                    (put_log s ++ stored rest (pp s)) (got_log s)).
Proof.
  intros [Hwf _] Hopen Hlive Ht Hrun u y Hu. simpl in *.
  destruct (pipewrite_run_spec _ _ _ _ _ _ _ Hwf Hrun) as (_ & _ & Hr & Hw & Hres).
  apply lookup_ran in Hu as (z & Hy & Hz). destruct y; try done.
  - symmetry in Hy. apply wakeups_asleepW in Hy as [-> _]. destruct Hz as [Hz|Hz].
    + destruct r; simpl in Hz; simplify_eq. rewrite Hr. naive_solver.
    + destruct (Hlive _ _ Hz) as (Hf & Ho & Hne). rewrite Hr. split; [|done].
      destruct rest; simpl in Hrun; [by simplify_eq|]. rewrite Hf in Hrun.
      by destruct (negb _ || false); simplify_eq.
  - symmetry in Hy. apply wakeups_asleepR in Hy as [-> Hnw]. exfalso.
    destruct Hz as [Hz|Hz]; [by destruct r; simpl in Hz|].
    pose proof (Hopen _ _ Hz) as [_ Hro]. specialize (Hro eq_refl).
    destruct r; [destruct Hres as [(_ & _ & ->)|(_ & _ & [?|?] & _)]|destruct Hres as (_ & _ & -> & _)];
      try congruence; by apply Hnw, list_elem_of_here.
Qed.

Lemma read_no_lost_wakeup s t killed n p' w r :
  fifo s -> no_lost_wakeup s ->
  piperead killed n (pp s) = (p', w, r) ->
  no_lost_wakeup (Sys p' (wakeups w <$> <[t := after_read n r]> (threads s))
                    (put_log s) (got_log s ++ got r)).
Proof.
  intros [Hwf _] Hlive Hrun u y Hu. simpl in *.
  destruct (piperead_spec _ _ _ _ _ _ Hwf Hrun) as (_ & _ & _ & _ & Hres).
  apply lookup_ran in Hu as (z & Hy & Hz). destruct y; try done.
  - symmetry in Hy. apply wakeups_asleepW in Hy as [-> Hnw].
    destruct Hz as [Hz|Hz]; [by destruct r; simpl in Hz|]. pose proof (Hlive _ _ Hz).
    destruct r; [destruct Hres as [(_ & _ & -> & _)|(_ & _ & -> & _)]|destruct Hres as (-> & _)];
      [done| |done]. by exfalso; apply Hnw, list_elem_of_here.
  - symmetry in Hy. apply wakeups_asleepR in Hy as [-> Hnw].
    destruct Hz as [Hz|Hz]; [destruct r; simpl in Hz; simplify_eq; naive_solver|].
    destruct (Hlive _ _ Hz) as [He Ho].
    destruct r; [destruct Hres as [(_ & _ & -> & _)|(_ & _ & _ & Hno)]|destruct Hres as (-> & _)];
      [done| |done]. rewrite Hno in Ho; [done|]. by apply contents_empty.
Qed.

Lemma step_no_lost_wakeup s e s' :
  fifo s -> ends_open s -> no_lost_wakeup s -> e <> EvWriter true -> step s e s' ->
  no_lost_wakeup s'.
Proof.
  intros Hfifo Hopen Hlive He Hstep. destruct Hstep.
  1,2,6,7: intros u y Hu; simpl in Hu |- *; apply lookup_started in Hu as [->|Hu];
    [done|by eapply Hlive].
  - destruct killed; [done|]. by eapply write_no_lost_wakeup.
  - by eapply read_no_lost_wakeup.
  - intros u y Hu. simpl in *. rewrite list_lookup_fmap in Hu.
    destruct (threads s !! u) as [z|] eqn:Hz; [|done]. injection Hu as Hu.
    destruct (pipeclose_spec _ _ _ _ _ H0) as (_ & _ & -> & -> & -> & -> & ->).
    pose proof (H _ _ Hz) as Hcall. pose proof (Hlive _ _ Hz) as Hl.
    destruct y; try done.
    + apply wakeups_asleepW in Hu as [-> Hnw]. destruct writable; [by simpl in Hcall|].
      by exfalso; apply Hnw, list_elem_of_here.
    + apply wakeups_asleepR in Hu as [-> Hnw]. destruct writable; [|by simpl in Hcall].
      by exfalso; apply Hnw, list_elem_of_here.
Qed.

Lemma reachable_inv P junk s :
  length junk = Z.to_nat PIPESIZE -> reachable P junk s -> fifo s /\ ends_open s.
Proof.
  intros Hj. induction 1 as [th Hth|s e s' _ [IH1 IH2] _ Hstep].
  - split; [done|]. intros t x Ht. by rewrite (Hth _ _ Ht).
  - split; [by eapply step_fifo|by eapply step_ends_open].
Qed.

(** C7: bytes come out of a pipe in the order they went in, none lost and none
    duplicated, for every interleaving of readers, writers, closes and kills
    and through the wrap-around of both 32-bit counters: everything put is
    what was got followed by the (at most 512) bytes still in the ring. *)
Theorem pipe_fifo junk s :
  length junk = Z.to_nat PIPESIZE -> reachable (fun _ => True) junk s ->
  put_log s = got_log s ++ contents (pp s) /\
  Z.of_nat (length (contents (pp s))) <= PIPESIZE.
Proof.
  intros Hj Hr. destruct (reachable_inv _ _ _ Hj Hr) as [[Hwf Hlog] _]. split; [done|].
  rewrite length_contents. pose proof (pcount_range (pp s)). destruct Hwf. lia.
Qed.

(** C8: no lost wakeup: as long as no writer sees [proc->killed], a reader is
    asleep only while the pipe is empty and its write end open, a writer only
    while the pipe is full and its read end open. *)
Theorem pipe_no_lost_wakeup junk s :
  length junk = Z.to_nat PIPESIZE -> reachable (fun e => e <> EvWriter true) junk s ->
  no_lost_wakeup s.
Proof.
  intros Hj Hr. induction Hr as [th Hth|s e s' Hr IH He Hstep].
  - intros t x Ht. by rewrite (Hth _ _ Ht).
  - destruct (reachable_inv _ _ _ Hj Hr). by eapply step_no_lost_wakeup.
Qed.

(** ** Concrete runs *)

(** The steps of a schedule, and an interpreter for schedules. *)
Inductive act :=
| ACallWrite (t : nat) (addr : list Z) (n : Z)
| ACallRead (t : nat) (n : Z)
| ARun (t : nat) (killed : bool).

Definition act_event (s : sys) (a : act) : event :=
  match a with
  | ARun t killed => match threads s !! t with Some (Writing _ _) => EvWriter killed | _ => EvOther end
  | _ => EvOther
  end.

Definition exec (s : sys) (a : act) : option sys :=
  match a with
  | ACallWrite t addr n =>
      match threads s !! t, writeopen (pp s) with
      | Some Idle, true => Some (Sys (pp s) (<[t := Writing n (take (Z.to_nat n) addr)]> (threads s))
                                     (put_log s) (got_log s))
      | _, _ => None
      end
  | ACallRead t n =>
      match threads s !! t, readopen (pp s) with
      | Some Idle, true => Some (Sys (pp s) (<[t := Reading n]> (threads s)) (put_log s) (got_log s))
      | _, _ => None
      end
  | ARun t killed =>
      match threads s !! t with
      | Some (Writing n rest) =>
          let '(p', w, r) := pipewrite_run killed n rest (pp s) in
          Some (Sys p' (wakeups w <$> <[t := after_write n r]> (threads s))
                    (put_log s ++ stored rest (pp s)) (got_log s))
      | Some (Reading n) =>
          let '(p', w, r) := piperead killed n (pp s) in
          Some (Sys p' (wakeups w <$> <[t := after_read n r]> (threads s))
                    (put_log s) (got_log s ++ got r))
      | _ => None
      end
  end.

Fixpoint exec_all (s : sys) (acts : list act) : option sys :=
  match acts with
  | [] => Some s
  | a :: acts => s' ← exec s a; exec_all s' acts
  end.

Lemma exec_step s a s' : exec s a = Some s' -> step s (act_event s a) s'.
Proof.
  destruct a as [t addr n|t n|t killed]; simpl.
  - destruct (threads s !! t) as [[]|] eqn:Ht; try done.
    destruct (writeopen (pp s)) eqn:Ho; [|done]. intros [= <-]. by constructor.
  - destruct (threads s !! t) as [[]|] eqn:Ht; try done.
    destruct (readopen (pp s)) eqn:Ho; [|done]. intros [= <-]. by constructor.
  - destruct (threads s !! t) as [[]|] eqn:Ht; try done.
    + destruct (pipewrite_run _ _ _ _) as [[p' w] r] eqn:Hr. intros [= <-]. by econstructor.
    + destruct (piperead _ _ _) as [[p' w] r] eqn:Hr. intros [= <-]. by econstructor.
Qed.

(** A schedule in which no run is of a killed thread has no killed writer. *)
Definition spared (a : act) : bool := match a with ARun _ killed => negb killed | _ => true end.

Lemma exec_all_reachable P junk s acts s' :
  (forall s a, a ∈ acts -> P (act_event s a)) ->
  reachable P junk s -> exec_all s acts = Some s' -> reachable P junk s'.
Proof.
  revert s. induction acts as [|a acts IH]; simpl; intros s HP Hs He; [by simplify_eq|].
  destruct (exec s a) as [s1|] eqn:H1; [|done]. eapply IH; [|eapply reach_step; [exact Hs| |]|exact He].
  - intros. apply HP. by apply list_elem_of_further.
  - apply (HP s a), list_elem_of_here.
  - by apply exec_step.
Qed.

Lemma spared_event s a : spared a = true -> act_event s a <> EvWriter true.
Proof. destruct a as [| |t []]; simpl; try done. by destruct (threads s !! t) as [[]|]. Qed.

Definition zero_junk : list Z := replicate (Z.to_nat PIPESIZE) 0.
Definition sys0 : sys := Sys (pipe_init zero_junk) [Idle; Idle] [] [].

Lemma sys0_reachable P : reachable P zero_junk sys0.
Proof. apply reach_init. intros [|[|t]] x; simpl; intros [=]; done. Qed.

(** Thread 0 starts to read and falls asleep on the empty pipe; thread 1 writes
    three bytes, and thread 0 wakes up and gets two. *)
Definition demo : list act :=
  [ACallRead 0 2; ARun 0 false; ACallWrite 1 [7; 8; 9] 3; ARun 1 false; ARun 0 false].

Lemma pipe_fifo_witness :
  exists s, exec_all sys0 demo = Some s /\ got_log s = [7; 8] /\
    put_log s = got_log s ++ contents (pp s) /\
    Z.of_nat (length (contents (pp s))) <= PIPESIZE.
Proof.
  destruct (exec_all sys0 demo) as [s|] eqn:Hs; [|by vm_compute in Hs].
  exists s. split; [done|]. split; [by vm_compute in Hs; simplify_eq|].
  apply (pipe_fifo zero_junk s); [by vm_compute|].
  by apply (exec_all_reachable _ _ sys0 demo); [|apply sys0_reachable|].
Defined.

Lemma pipe_no_lost_wakeup_witness :
  exists s, exec_all sys0 (take 3 demo) = Some s /\ threads s !! 0%nat = Some (AsleepR 2) /\
    no_lost_wakeup s.
Proof.
  destruct (exec_all sys0 (take 3 demo)) as [s|] eqn:Hs; [|by vm_compute in Hs].
  exists s. split; [done|]. split; [by vm_compute in Hs; simplify_eq|].
  apply (pipe_no_lost_wakeup zero_junk s); [by vm_compute|].
  apply (exec_all_reachable _ _ sys0 (take 3 demo)); [|apply sys0_reachable|done].
  intros s' a Ha. apply spared_event. revert a Ha. by apply Forall_forall; repeat constructor.
Defined.

(** The killed path of [pipewrite] returns without the [wakeup(&p->nread)] of
    the other paths: a writer killed before a 513-byte write leaves 512 bytes
    in the pipe and the reader asleep. *)
Definition killed_demo : list act :=
  [ACallRead 0 2; ARun 0 false; ACallWrite 1 (replicate 513 65) 513; ARun 1 true].

Theorem pipe_killed_writer_strands_reader :
  exists s, reachable (fun _ => True) zero_junk s /\
    threads s = [AsleepR 2; Idle] /\ pipe_full (pp s) = true.
Proof.
  destruct (exec_all sys0 killed_demo) as [s|] eqn:Hs; [|by vm_compute in Hs].
  exists s. split; [by apply (exec_all_reachable _ _ sys0 killed_demo); [|apply sys0_reachable|]|].
  assert (H : match exec_all sys0 killed_demo with
              | Some s => threads s = [AsleepR 2; Idle] /\ pipe_full (pp s) = true
              | None => False end) by (vm_compute; split; reflexivity).
  by rewrite Hs in H.
Qed.
