(* ===== verification/Ide.v ===== *)
(** * The IDE disk driver: [src/ide.c], [src/buf.h]

    The driver's state is the array of [struct buf] (shared with the buffer
    cache), the request queue threaded through the buffers' [qnext] pointers,
    and the disk.  The disk is hardware: its port operations are the class
    [Ata] and what the driver relies on (the ATA PIO protocol) is [AtaSpec];
    [SimAta] is a concrete disk that satisfies it.

    [iderw] sleeps until the disk interrupt has completed its request, so its
    model runs [ideintr] at the point where it sleeps. *)

From stdpp Require Import base numbers list gmap strings.
From Stdlib Require Import Lia ZArith ZifyBool.
From S2P Require Import Prelude.
Open Scope Z_scope.

(** ** struct buf *)

Definition NBUF : nat := 10.
Definition BSIZE : Z := 512.
Definition BLEN : nat := Z.to_nat BSIZE.

Definition B_BUSY : Z := 1.
Definition B_VALID : Z := 2.
Definition B_DIRTY : Z := 4.

Record buf := Buf {
  b_flags : Z;
  b_dev : Z;
  b_sector : Z;
  b_prev : nat;              (* LRU cache list; NBUF is &bcache.head *)
  b_next : nat;
  b_qnext : option nat;      (* disk queue *)
  b_data : list Z
}.

Definition set_flags (f : Z) (b : buf) : buf :=
  Buf f (b_dev b) (b_sector b) (b_prev b) (b_next b) (b_qnext b) (b_data b).
Definition set_id (dev sector : Z) (b : buf) : buf :=
  Buf (b_flags b) dev sector (b_prev b) (b_next b) (b_qnext b) (b_data b).
Definition set_prev (i : nat) (b : buf) : buf :=
  Buf (b_flags b) (b_dev b) (b_sector b) i (b_next b) (b_qnext b) (b_data b).
Definition set_next (i : nat) (b : buf) : buf :=
  Buf (b_flags b) (b_dev b) (b_sector b) (b_prev b) i (b_qnext b) (b_data b).
Definition set_qnext (q : option nat) (b : buf) : buf :=
  Buf (b_flags b) (b_dev b) (b_sector b) (b_prev b) (b_next b) q (b_data b).
Definition set_data (d : list Z) (b : buf) : buf :=
  Buf (b_flags b) (b_dev b) (b_sector b) (b_prev b) (b_next b) (b_qnext b) d.

(** The sector a buffer stands for. *)
Definition bkey (b : buf) : Z * Z := (b_dev b, b_sector b).

(** ** The disk *)

Abbreviation sectors := (gmap (Z * Z) (list Z)).

Definition zero_block : list Z := replicate BLEN 0.
Definition blk (d : sectors) (k : Z * Z) : list Z := default zero_block (d !! k).

Definition IDE_BSY : Z := 0x80.
Definition IDE_DRDY : Z := 0x40.
Definition IDE_DF : Z := 0x20.
Definition IDE_ERR : Z := 0x01.
Definition IDE_CMD_READ : Z := 0x20.
Definition IDE_CMD_WRITE : Z := 0x30.

(** The port instructions of [x86.h] on the disk's ports. *)
Class Ata := {
  hw : Type;
  inb : Z -> hw -> Z * hw;
  outb : Z -> Z -> hw -> hw;
  insl : Z -> Z -> hw -> list Z * hw;       (* port, count of 32-bit words *)
  outsl : Z -> list Z -> Z -> hw -> hw
}.

(** The sector the task file registers select: LBA28 address and drive bit. *)
Definition lba (r : Z -> Z) : Z * Z :=
  ((r 0x1f6 / 16) mod 2,
   r 0x1f3 + 2 ^ 8 * r 0x1f4 + 2 ^ 16 * r 0x1f5 + 2 ^ 24 * (r 0x1f6 mod 16)).

(** What an error-free ATA disk does in PIO mode, one sector at a time. *)
Class AtaSpec `{Ata} := {
  hdisk : hw -> sectors;                    (* the sectors' contents *)
  hreg : hw -> Z -> Z;                      (* the task file registers *)
  hpolls : hw -> nat;                       (* status reads until ready *)
  hpend : hw -> option (Z * Z);             (* the sector a READ has ready *)
  hwant : hw -> option (Z * Z);             (* the sector a WRITE waits for *)
  POLLS : nat;                              (* bound on the status reads *)
  polls_bound : forall h, (hpolls h < POLLS)%nat;
  inb_status : forall h,
    let '(r, h') := inb 0x1f7 h in
    (Z.land r (Z.lor IDE_BSY IDE_DRDY) = IDE_DRDY /\ Z.land r (Z.lor IDE_DF IDE_ERR) = 0
     \/ (hpolls h' < hpolls h)%nat /\ Z.land r (Z.lor IDE_BSY IDE_DRDY) <> IDE_DRDY) /\
    hdisk h' = hdisk h /\ hpend h' = hpend h /\ (forall p, hreg h' p = hreg h p);
  outb_reg : forall p v h, 0x1f2 <= p <= 0x1f6 \/ p = 0x3f6 -> 0 <= v < 256 ->
    hdisk (outb p v h) = hdisk h /\ hreg (outb p v h) p = v /\
    (forall q, q <> p -> hreg (outb p v h) q = hreg h q);
  outb_read : forall h, hreg h 0x1f2 = 1 ->
    let h' := outb 0x1f7 IDE_CMD_READ h in
    hdisk h' = hdisk h /\ hpend h' = Some (lba (hreg h));
  outb_write : forall h, hreg h 0x1f2 = 1 ->
    let h' := outb 0x1f7 IDE_CMD_WRITE h in
    hdisk h' = hdisk h /\ hwant h' = Some (lba (hreg h));
  insl_data : forall h k, hpend h = Some k ->
    let '(d, h') := insl 0x1f0 (BSIZE / 4) h in
    d = blk (hdisk h) k /\ hdisk h' = hdisk h;
  outsl_data : forall h k d, hwant h = Some k -> length d = BLEN ->
    hdisk (outsl 0x1f0 d (BSIZE / 4) h) = <[k := d]> (hdisk h)
}.

(** ** The driver *)

Record ide `{Ata} := Ide {
  bufs : list buf;                          (* bcache.buf and, last, bcache.head *)
  idequeue : option nat;
  havedisk1 : bool;
  dev_hw : hw
}.

Section Driver.
Context `{HA : Ata}.

Definition null_buf : buf := Buf 0 0 0 0 0 None [].
Definition getb (i : nat) (s : ide) : buf := default null_buf (bufs s !! i).
Definition updb (i : nat) (f : buf -> buf) (s : ide) : ide :=
  Ide _ (alter f i (bufs s)) (idequeue s) (havedisk1 s) (dev_hw s).
Definition set_queue (q : option nat) (s : ide) : ide :=
  Ide _ (bufs s) q (havedisk1 s) (dev_hw s).
Definition set_hw (h : hw) (s : ide) : ide :=
  Ide _ (bufs s) (idequeue s) (havedisk1 s) h.

Definition in_b (p : Z) : M ide Z :=
  fun s => let '(r, h) := inb p (dev_hw s) in Ok r (set_hw h s).
Definition out_b (p v : Z) : M ide unit := modify (fun s => set_hw (outb p v (dev_hw s)) s).

(** while(((r = inb(0x1f7)) & (IDE_BSY|IDE_DRDY)) != IDE_DRDY) ; *)
Definition idewait (fuel : nat) (checkerr : bool) : M ide Z :=
  r ← loop fuel (fun _ : unit =>
        r ← in_b 0x1f7;
        mret (if Z.land r (Z.lor IDE_BSY IDE_DRDY) =? IDE_DRDY then inr r else inl tt)) tt;
  mret (if checkerr && negb (Z.land r (Z.lor IDE_DF IDE_ERR) =? 0) then -1 else 0).

(** The pointer argument is never null here: [ideintr] tests it and [iderw]
    passes its own; the panic is for [None]. *)
Definition idestart (fuel : nat) (b : option nat) : M ide unit :=
  match b with
  | None => panic "idestart"
  | Some i =>
      _ ← idewait fuel false;
      b ← gets (getb i);
      _ ← out_b 0x3f6 0;
      _ ← out_b 0x1f2 1;
      _ ← out_b 0x1f3 (Z.land (b_sector b) 0xff);
      _ ← out_b 0x1f4 (Z.land (Z.shiftr (b_sector b) 8) 0xff);
      _ ← out_b 0x1f5 (Z.land (Z.shiftr (b_sector b) 16) 0xff);
      _ ← out_b 0x1f6 (Z.lor (Z.lor 0xe0 (Z.shiftl (Z.land (b_dev b) 1) 4))
                             (Z.land (Z.shiftr (b_sector b) 24) 0x0f));
      if tst (b_flags b) B_DIRTY then
        _ ← out_b 0x1f7 IDE_CMD_WRITE;
        modify (fun s => set_hw (outsl 0x1f0 (b_data b) (BSIZE / 4) (dev_hw s)) s)
      else out_b 0x1f7 IDE_CMD_READ
  end.

(** The buffer that was completed is the one whose sleepers are woken. *)
Definition ideintr (fuel : nat) : M ide (option nat) :=
  q ← gets idequeue;
  match q with
  | None => mret None
  | Some i =>
      b ← gets (getb i);
      _ ← modify (set_queue (b_qnext b));
      _ ← (if tst (b_flags b) B_DIRTY then mret tt
           else r ← idewait fuel true;
                when (0 <=? r)
                  (fun s => let '(d, h) := insl 0x1f0 (BSIZE / 4) (dev_hw s) in
                            Ok tt (set_hw h (updb i (set_data d) s))));
      _ ← modify (updb i (fun b => set_flags (Z.lor (b_flags b) B_VALID) b));
      _ ← modify (updb i (fun b => set_flags (clr (b_flags b) B_DIRTY) b));
      q ← gets idequeue;
      _ ← (match q with Some _ => idestart fuel q | None => mret tt end);
      mret (Some i)
  end.

(** struct buf **pp: the address of [idequeue] or of a buffer's [qnext]. *)
Inductive qptr := QHead | QNext (i : nat).
Definition qderef (pp : qptr) (s : ide) : option nat :=
  match pp with QHead => idequeue s | QNext i => b_qnext (getb i s) end.
Definition qassign (pp : qptr) (q : option nat) (s : ide) : ide :=
  match pp with QHead => set_queue q s | QNext i => updb i (set_qnext q) s end.

(** for(pp=&idequeue; *pp; pp=&( *pp)->qnext) ; *)
Definition qlast (fuel : nat) : M ide qptr :=
  loop fuel (fun pp => q ← gets (qderef pp);
                       mret (match q with Some i => inl (QNext i) | None => inr pp end)) QHead.

Definition ide_done (b : buf) : bool := Z.land (b_flags b) (Z.lor B_VALID B_DIRTY) =? B_VALID.

(** [iderw] up to the loop in which it waits. *)
Definition iderw_start (fuel : nat) (i : nat) : M ide unit :=
  b ← gets (getb i);
  have ← gets havedisk1;
  if negb (tst (b_flags b) B_BUSY) then panic "iderw: buf not busy" else
  if ide_done b then panic "iderw: nothing to do" else
  if negb (b_dev b =? 0) && negb have then panic "iderw: ide disk 1 not present" else
  _ ← modify (updb i (set_qnext None));
  pp ← qlast (S (S NBUF));
  _ ← modify (qassign pp (Some i));
  q ← gets idequeue;
  when (bool_decide (q = Some i)) (idestart fuel (Some i)).

(** [picenable] and [ioapicenable], which act on the interrupt controllers
    only, are left out. *)
Definition ideinit (fuel : nat) : M ide unit :=
  _ ← idewait fuel false;
  _ ← out_b 0x1f6 (Z.lor 0xe0 (Z.shiftl 1 4));
  found ← loop 1001 (fun i : Z =>
    if 1000 <=? i then mret (inr false) else
    r ← in_b 0x1f7;
    mret (if negb (r =? 0) then inr true else inl (i + 1))) 0;
  _ ← when found (modify (fun s => Ide _ (bufs s) (idequeue s) true (dev_hw s)));
  out_b 0x1f6 (Z.lor 0xe0 (Z.shiftl 0 4)).

Definition iderw (fuel : nat) (i : nat) : M ide unit :=
  _ ← iderw_start fuel i;
  loop (S (S NBUF)) (fun _ : unit =>
    b ← gets (getb i);
    if ide_done b then mret (inr tt)
    else _ ← ideintr fuel; mret (inl tt)) tt.

End Driver.

(** ** The device protocol *)

Lemma ide_done_flags b : ide_done b = tst (b_flags b) B_VALID && negb (tst (b_flags b) B_DIRTY).
Proof.
  unfold ide_done, tst, B_VALID, B_DIRTY. rewrite Z.land_lor_distr_r.
  rewrite (land_pow2 _ 1), (land_pow2 _ 2) by lia.
  by destruct (Z.testbit (b_flags b) 1), (Z.testbit (b_flags b) 2).
Qed.

(** A sector that LBA28 on two drives can address. *)
Definition addressable (k : Z * Z) : Prop := 0 <= k.1 <= 1 /\ 0 <= k.2 < 2 ^ 28.

Lemma land_byte x : Z.land x 0xff = x mod 256.
Proof. apply (Z.land_ones x 8). lia. Qed.
Lemma land_nibble x : Z.land x 0x0f = x mod 16.
Proof. apply (Z.land_ones x 4). lia. Qed.

Lemma drive_register dev x :
  0 <= dev <= 1 -> 0 <= x < 16 ->
  Z.lor (Z.lor 0xe0 (Z.shiftl (Z.land dev 1) 4)) x = 0xe0 + 16 * dev + x.
Proof.
  intros Hd Hx. assert (dev = 0 \/ dev = 1) as [-> | ->] by lia.
  all: assert (x ∈ seqZ 0 16) as Hin by (apply elem_of_seqZ; lia).
  all: repeat (apply elem_of_cons in Hin as [->|Hin]; [reflexivity|]); by apply not_elem_of_nil in Hin.
Qed.

Section Protocol.
Context `{HS : AtaSpec}.

(** The state after port accesses that moved only the device. *)
Definition moved (s s' : ide) (P : hw -> Prop) : Prop :=
  exists h, s' = set_hw h s /\ P h.

Lemma set_hw_set_hw h h' s : set_hw h (set_hw h' s) = set_hw h s.
Proof. done. Qed.

Lemma moved_refl s (P : hw -> Prop) : P (dev_hw s) -> moved s s P.
Proof. intros. exists (dev_hw s). by destruct s. Qed.

Lemma idewait_wp fuel checkerr s :
  (POLLS <= fuel)%nat ->
  wp (idewait fuel checkerr)
     (fun r s' => r = 0 /\ moved s s' (fun h =>
        hdisk h = hdisk (dev_hw s) /\ hpend h = hpend (dev_hw s))) s.
Proof.
  intros Hfuel. unfold idewait. wp_step.
  apply (wp_loop (fun _ s1 => moved s s1 (fun h =>
           hdisk h = hdisk (dev_hw s) /\ hpend h = hpend (dev_hw s)))
         (fun _ s1 => hpolls (dev_hw s1))).
  - intros [] s1 (h & -> & Hd & Hp). wp_step. unfold in_b, wp at 1. simpl.
    pose proof (inb_status h) as Hs. destruct (inb 0x1f7 h) as [r h'].
    destruct Hs as (Hr & Hd' & Hp' & _). cbv beta. wp_step.
    assert (Hm : moved s (set_hw h' (set_hw h s)) (fun h =>
              hdisk h = hdisk (dev_hw s) /\ hpend h = hpend (dev_hw s))).
    { exists h'. split; [done|]. by rewrite Hd', Hp'. }
    destruct (Z.eqb_spec (Z.land r (Z.lor IDE_BSY IDE_DRDY)) IDE_DRDY) as [E|E].
    + destruct Hr as [[_ Hr]|[_ Hr]]; [|done]. wp_step. rewrite Hr. simpl. rewrite andb_false_r.
      by split.
    + destruct Hr as [[Hr _]|[Hr _]]; [done|]. by split.
  - by apply moved_refl.
  - pose proof (polls_bound (dev_hw s)). lia.
Qed.

Lemma out_b_wp p v Q h s : Q tt (set_hw (outb p v h) s) -> wp (out_b p v) Q (set_hw h s).
Proof. done. Qed.

(** The register writes of [idestart] select the buffer's sector. *)
Lemma lba_select (r : Z -> Z) dev sector :
  addressable (dev, sector) ->
  r 0x1f3 = Z.land sector 0xff -> r 0x1f4 = Z.land (Z.shiftr sector 8) 0xff ->
  r 0x1f5 = Z.land (Z.shiftr sector 16) 0xff ->
  r 0x1f6 = Z.lor (Z.lor 0xe0 (Z.shiftl (Z.land dev 1) 4)) (Z.land (Z.shiftr sector 24) 0x0f) ->
  lba r = (dev, sector).
Proof.
  intros [Hd Hs]; simpl in *. rewrite land_byte, land_byte, land_byte, land_nibble.
  rewrite !Z.shiftr_div_pow2 by lia. intros E3 E4 E5 E6.
  rewrite drive_register in E6 by (try apply Z.mod_pos_bound; lia).
  unfold lba. rewrite E3, E4, E5, E6. f_equal; Z.div_mod_to_equations; lia.
Qed.

(** The six register writes of [idestart], in its order. *)
Definition select_sector (dev sector : Z) (h : hw) : hw :=
  outb 0x1f6 (Z.lor (Z.lor 0xe0 (Z.shiftl (Z.land dev 1) 4)) (Z.land (Z.shiftr sector 24) 0x0f))
  (outb 0x1f5 (Z.land (Z.shiftr sector 16) 0xff)
  (outb 0x1f4 (Z.land (Z.shiftr sector 8) 0xff)
  (outb 0x1f3 (Z.land sector 0xff) (outb 0x1f2 1 (outb 0x3f6 0 h))))).

Lemma select_sector_spec dev sector h :
  addressable (dev, sector) ->
  hdisk (select_sector dev sector h) = hdisk h /\
  hreg (select_sector dev sector h) 0x1f2 = 1 /\
  lba (hreg (select_sector dev sector h)) = (dev, sector).
Proof.
  intros Ha. pose proof Ha as [Hd Hs]; simpl in *.
  assert (Hdr : 0 <= Z.lor (Z.lor 0xe0 (Z.shiftl (Z.land dev 1) 4))
                           (Z.land (Z.shiftr sector 24) 0x0f) < 256).
  { rewrite land_nibble, drive_register by (try apply Z.mod_pos_bound; lia).
    pose proof (Z.mod_pos_bound (Z.shiftr sector 24) 16). lia. }
  unfold select_sector.
  destruct (outb_reg 0x3f6 0 h) as (D0 & _); [lia..|].
  set (h0 := outb 0x3f6 0 h) in *. destruct (outb_reg 0x1f2 1 h0) as (D1 & R1 & _); [lia..|].
  set (h1 := outb 0x1f2 1 h0) in *.
  destruct (outb_reg 0x1f3 (Z.land sector 0xff) h1) as (D2 & R2 & O2);
    [lia|rewrite land_byte; apply Z.mod_pos_bound; lia|]. set (h2 := outb 0x1f3 _ h1) in *.
  destruct (outb_reg 0x1f4 (Z.land (Z.shiftr sector 8) 0xff) h2) as (D3 & R3 & O3);
    [lia|rewrite land_byte; apply Z.mod_pos_bound; lia|]. set (h3 := outb 0x1f4 _ h2) in *.
  destruct (outb_reg 0x1f5 (Z.land (Z.shiftr sector 16) 0xff) h3) as (D4 & R4 & O4);
    [lia|rewrite land_byte; apply Z.mod_pos_bound; lia|]. set (h4 := outb 0x1f5 _ h3) in *.
  destruct (outb_reg 0x1f6 _ h4 ltac:(lia) Hdr) as (D5 & R5 & O5).
  set (h5 := outb 0x1f6 _ h4) in *.
  split; [congruence|]. split; [rewrite O5, O4, O3, O2 by done; done|].
  apply lba_select; [done| | | |done].
  - rewrite O5, O4, O3 by done. done.
  - rewrite O5, O4 by done. done.
  - rewrite O5 by done. done.
Qed.

(** A request the driver can serve. *)
Definition servable (b : buf) : Prop :=
  ide_done b = false /\ addressable (bkey b) /\ length (b_data b) = BLEN.

Lemma idestart_wp fuel i s :
  (POLLS <= fuel)%nat -> servable (getb i s) ->
  wp (idestart fuel (Some i))
     (fun _ s' => moved s s' (fun h =>
        if tst (b_flags (getb i s)) B_DIRTY
        then hdisk h = <[bkey (getb i s) := b_data (getb i s)]> (hdisk (dev_hw s))
        else hdisk h = hdisk (dev_hw s) /\ hpend h = Some (bkey (getb i s)))) s.
Proof.
  intros Hfuel (_ & Ha & Hl). unfold idestart. wp_step.
  eapply wp_mono; [by apply idewait_wp|]. intros r s1 (_ & h & -> & Hd & _).
  do 2 wp_step. change (getb i (set_hw h s)) with (getb i s). set (b := getb i s) in *.
  do 6 (wp_step; apply out_b_wp).
  destruct (select_sector_spec (b_dev b) (b_sector b) h Ha) as (Hd1 & Hc & Hlba).
  destruct (tst (b_flags b) B_DIRTY) eqn:Hdirty; [|apply out_b_wp].
  - wp_step. apply out_b_wp. wp_step.
    destruct (outb_write (select_sector (b_dev b) (b_sector b) h) Hc) as [Hd2 Hw].
    eexists. split; [reflexivity|]. rewrite Hlba in Hw.
    pose proof (outsl_data _ _ (b_data b) Hw Hl) as Ho. by rewrite Hd2, Hd1, Hd in Ho.
  - destruct (outb_read (select_sector (b_dev b) (b_sector b) h) Hc) as [Hd2 Hp].
    eexists. split; [reflexivity|]. rewrite Hlba in Hp.
    split; [|exact Hp]. by rewrite Hd1, Hd in Hd2.
Qed.
End Protocol.

(** ** The request queue *)

(** The buffers reached from [start] through [qnext] are [q]. *)
Fixpoint qchain (bs : list buf) (start : option nat) (q : list nat) : Prop :=
  match q with
  | [] => start = None
  | i :: q => start = Some i /\ exists b, bs !! i = Some b /\ qchain bs (b_qnext b) q
  end.

Lemma qchain_alter f i bs start q :
  i ∉ q -> qchain bs start q -> qchain (alter f i bs) start q.
Proof.
  revert start. induction q as [|j q IH]; simpl; intros start Hi; [done|].
  apply not_elem_of_cons in Hi as [Hij Hi]. intros (-> & b & Hb & Hq). split; [done|].
  exists b. rewrite list_lookup_alter_ne by done. auto.
Qed.

(** The queue of a live driver is short enough for the loops' fuel. *)
Lemma qchain_bound bs start q :
  NoDup q -> qchain bs start q -> (length q <= length bs)%nat.
Proof.
  intros Hnd Hq. assert (Hlt : forall i, i ∈ q -> i ∈ seq 0 (length bs)).
  { revert start Hq. clear Hnd. induction q as [|j q IH]; intros start Hq i Hi; [by apply not_elem_of_nil in Hi|].
    destruct Hq as (_ & b & Hb & Hq). apply elem_of_cons in Hi as [->|Hi]; [|by eapply IH].
    apply elem_of_seq. apply lookup_lt_Some in Hb. lia. }
  rewrite <- (length_seq (length bs) 0). apply submseteq_length, NoDup_submseteq; auto.
Qed.

(** Writing through the last pointer appends. *)
Definition qwrite (bs : list buf) (pp : qptr) (start : option nat) (j : nat) : list buf * option nat :=
  match pp with
  | QHead => (bs, Some j)
  | QNext i => (alter (set_qnext (Some j)) i bs, start)
  end.

Section Queue.
Context `{HA : Ata}.

Lemma getb_lookup i s b : bufs s !! i = Some b -> getb i s = b.
Proof. unfold getb. by intros ->. Qed.

Lemma lookup_getb i s : (i < length (bufs s))%nat -> bufs s !! i = Some (getb i s).
Proof.
  intros Hi. unfold getb. destruct (bufs s !! i) eqn:E; [done|].
  apply lookup_ge_None in E. lia.
Qed.

Lemma getb_updb i f s : (i < length (bufs s))%nat -> getb i (updb i f s) = f (getb i s).
Proof.
  intros Hi. unfold getb, updb. simpl. rewrite list_lookup_alter_eq.
  by destruct (lookup_lt_is_Some_2 _ _ Hi) as [b ->].
Qed.

Lemma getb_updb_ne i j f s : i <> j -> getb i (updb j f s) = getb i s.
Proof. intros. unfold getb, updb. simpl. by rewrite list_lookup_alter_ne. Qed.

(** The last [pp] of the walk: the queue's head pointer when it is empty,
    the [qnext] of its last buffer otherwise. *)
Definition qend (q : list nat) : qptr :=
  match last q with None => QHead | Some i => QNext i end.

Lemma qlast_wp q s :
  NoDup q -> (length (bufs s) <= S NBUF)%nat -> qchain (bufs s) (idequeue s) q ->
  wp (qlast (S (S NBUF))) (fun pp s' => s' = s /\ pp = qend q) s.
Proof.
  intros Hnd Hlen Hq. pose proof (qchain_bound _ _ _ Hnd Hq).
  apply (wp_loop_ghost (fun n pp s' => s' = s /\ exists q1 q2, n = length q2 /\
           q = q1 ++ q2 /\ pp = qend q1 /\ qchain (bufs s) (qderef pp s) q2) _ _ _ (length q)).
  - intros n pp s' (-> & q1 & q2 & -> & -> & -> & Hq2). repeat wp_step.
    destruct q2 as [|i q2]; simpl in Hq2; [by rewrite Hq2, app_nil_r|].
    destruct Hq2 as (-> & b & Hb & Hq2). exists (length q2). split; [simpl; lia|].
    split; [done|]. exists (q1 ++ [i]), q2. split_and!; [done|by rewrite <- app_assoc| |].
    + unfold qend. by rewrite last_snoc.
    + simpl. by rewrite (getb_lookup _ _ _ Hb).
  - split; [done|]. by exists [], q.
  - lia.
Qed.

Lemma qchain_snoc_frame bs start q i b :
  NoDup (q ++ [i]) -> bs !! i = Some b -> b_qnext b = None -> qchain bs start q ->
  let '(bs', start') := qwrite bs (qend q) start i in qchain bs' start' (q ++ [i]).
Proof.
  intros Hnd Hi Hn. revert start. induction q as [|j q IH]; intros start Hq.
  { simpl. eauto. }
  simpl in Hnd. apply NoDup_cons in Hnd as [Hj Hnd]. destruct Hq as (-> & c & Hc & Hq).
  specialize (IH Hnd _ Hq). destruct q as [|k q].
  - simpl in *. split; [done|]. exists (set_qnext (Some i) c).
    rewrite list_lookup_alter_eq, Hc. split; [done|]. simpl. split; [done|].
    exists b. rewrite list_lookup_alter_ne by set_solver. done.
  - assert (Hl : qend (j :: k :: q) = qend (k :: q)) by done. rewrite Hl.
    destruct (qend (k :: q)) as [|l] eqn:Hqe.
    { unfold qend in Hqe. rewrite last_cons in Hqe. by destruct (last q). }
    assert (j <> l) as Hjl.
    { intros <-. apply Hj, elem_of_app. left. unfold qend in Hqe.
      destruct (last (k :: q)) as [x|] eqn:Hx; [|done]. injection Hqe as ->.
      by apply last_Some_elem_of in Hx. }
    simpl in IH |- *. split; [done|]. exists c.
    rewrite list_lookup_alter_ne by done. done.
Qed.
End Queue.

(** ** What the driver implements: requests served one at a time, in order *)

(** A buffer without its queue link. *)
Definition unlinked (b : buf) : buf := set_qnext None b.

(** Serving one request: write the sector or read it, and mark the buffer. *)
Definition served (flags : Z) : Z := clr (Z.lor flags B_VALID) B_DIRTY.
Definition serve (bd : list buf * sectors) (i : nat) : list buf * sectors :=
  let '(bs, d) := bd in
  match bs !! i with
  | None => bd
  | Some b =>
      if tst (b_flags b) B_DIRTY
      then (alter (fun b => set_flags (served (b_flags b)) b) i bs, <[bkey b := b_data b]> d)
      else (alter (fun b => set_flags (served (b_flags b)) (set_data (blk d (bkey b)) b)) i bs, d)
  end.

Lemma length_serve bd i : length (serve bd i).1 = length bd.1.
Proof.
  destruct bd as [bs d]. simpl. destruct (bs !! i); [|done].
  destruct (tst _ _); simpl; by rewrite length_alter.
Qed.

Lemma serve_other bd i j : i <> j -> (serve bd i).1 !! j = bd.1 !! j.
Proof.
  intros. destruct bd as [bs d]. simpl. destruct (bs !! i); [|done].
  destruct (tst _ _); simpl; by rewrite list_lookup_alter_ne.
Qed.

Lemma serve_done bd i b : (serve bd i).1 !! i = Some b -> ide_done b = true.
Proof.
  destruct bd as [bs d]. simpl. destruct (bs !! i) as [c|] eqn:E; simpl; [|congruence].
  destruct (tst _ _); simpl; rewrite list_lookup_alter_eq, E; intros [= <-];
    rewrite ide_done_flags; simpl; unfold served; by autorewrite with flags.
Qed.

(** The disk writes the first request's sector as soon as it is started. *)
Definition started (bs : list buf) (q : list nat) (d : sectors) : sectors :=
  match q with
  | i :: _ => match bs !! i with
              | Some b => if tst (b_flags b) B_DIRTY then <[bkey b := b_data b]> d else d
              | None => d
              end
  | [] => d
  end.

Section Refinement.
Context `{HS : AtaSpec} (fuel : nat) (Hfuel : (POLLS <= fuel)%nat).

(** [s] has the buffers [bs] and the disk [d] of the abstract driver, with the
    requests [q] waiting and the first of them in progress. *)
Record driving (s : ide) (q : list nat) (bs : list buf) (d : sectors) : Prop := Driving {
  dr_bufs : unlinked <$> bufs s = bs;
  dr_len : length bs = S NBUF;
  dr_nodup : NoDup q;
  dr_chain : qchain (bufs s) (idequeue s) q;
  dr_req : forall i b, i ∈ q -> bs !! i = Some b -> servable b;
  dr_disk : hdisk (dev_hw s) = started bs q d;
  dr_pend : forall i b q', q = i :: q' -> bs !! i = Some b -> tst (b_flags b) B_DIRTY = false ->
            hpend (dev_hw s) = Some (bkey b)
}.

Lemma driving_getb s q bs d i b :
  driving s q bs d -> bs !! i = Some b -> unlinked (getb i s) = b /\ (i < length (bufs s))%nat.
Proof.
  intros Hdr Hi. rewrite <- (dr_bufs _ _ _ _ Hdr), list_lookup_fmap in Hi.
  destruct (bufs s !! i) as [c|] eqn:Hc; [|done]. injection Hi as <-.
  rewrite (getb_lookup _ _ _ Hc). split; [done|]. by apply lookup_lt_Some in Hc.
Qed.

Lemma unlinked_alter (f : buf -> buf) (i : nat) (l : list buf) :
  (forall b, unlinked (f b) = f (unlinked b)) ->
  unlinked <$> alter f i l = alter f i (unlinked <$> l).
Proof.
  intros Hf. apply list_eq. intros j. rewrite list_lookup_fmap.
  destruct (decide (i = j)) as [->|].
  - rewrite !list_lookup_alter_eq, list_lookup_fmap. destruct (l !! j); simpl; [|done].
    by rewrite Hf.
  - by rewrite !list_lookup_alter_ne, list_lookup_fmap.
Qed.

Lemma unlinked_set_qnext q (i : nat) (l : list buf) : unlinked <$> alter (set_qnext q) i l = unlinked <$> l.
Proof.
  apply list_eq. intros j. rewrite !list_lookup_fmap. destruct (decide (i = j)) as [->|].
  - rewrite list_lookup_alter_eq. by destruct (l !! j).
  - by rewrite list_lookup_alter_ne.
Qed.

(** Starting the first request of a queue whose disk is idle. *)
Lemma start_driving s q bs d i b :
  (unlinked <$> bufs s = bs) -> length bs = S NBUF -> NoDup (i :: q) ->
  qchain (bufs s) (idequeue s) (i :: q) -> bs !! i = Some b ->
  (forall j c, j ∈ i :: q -> bs !! j = Some c -> servable c) ->
  hdisk (dev_hw s) = d ->
  wp (idestart fuel (Some i)) (fun _ s' => driving s' (i :: q) bs d /\ havedisk1 s' = havedisk1 s) s.
Proof using Hfuel.
  intros Hbs Hlen Hnd Hq Hi Hreq Hd.
  assert (Hgb : unlinked (getb i s) = b).
  { rewrite <- Hbs, list_lookup_fmap in Hi. unfold getb. by destruct (bufs s !! i); simplify_eq/=. }
  assert (Hsv : servable b) by (eapply Hreq; [apply list_elem_of_here|done]).
  eapply wp_mono; [apply idestart_wp; [exact Hfuel|by rewrite <- Hgb in Hsv]|].
  intros [] s' (h & -> & Hh). subst b. split; [|done].
  constructor; [exact Hbs|done|done|exact Hq|exact Hreq|simpl; rewrite Hi; simpl|].
  - destruct (tst _ _); [by rewrite Hh, Hd|]. destruct Hh as [Hh _]. by rewrite Hh.
  - intros j c q' [= <- <-] Hj Hdirty. rewrite Hi in Hj. injection Hj as <-. simpl in Hdirty. rewrite Hdirty in Hh. by destruct Hh.
Qed.

Definition served_state (i : nat) (s : ide) (d : list Z) (h : hw) : ide :=
  set_hw h (updb i (fun b => set_flags (served (b_flags b)) (set_data d b))
    (set_queue (b_qnext (getb i s)) s)).

(** What [ideintr] does before it starts the next request. *)
Lemma ideintr_complete i q bs d b s :
  driving s (i :: q) bs d -> bs !! i = Some b ->
  wp (if tst (b_flags (getb i s)) B_DIRTY then mret tt
      else r ← idewait fuel true;
           when (0 <=? r)
             (fun s => let '(d, h) := insl 0x1f0 (BSIZE / 4) (dev_hw s) in
                       Ok tt (set_hw h (updb i (set_data d) s))))
     (fun _ s' => exists h, hdisk h = (serve (bs, d) i).2 /\
        updb i (fun b => set_flags (clr (b_flags b) B_DIRTY) b)
          (updb i (fun b => set_flags (Z.lor (b_flags b) B_VALID) b) s') =
        served_state i s (if tst (b_flags b) B_DIRTY then b_data b else blk d (bkey b)) h)
     (set_queue (b_qnext (getb i s)) s).
Proof using Hfuel.
  intros Hdr Hb. destruct (driving_getb _ _ _ _ _ _ Hdr Hb) as [Hgb Hi].
  assert (Hf : b_flags (getb i s) = b_flags b) by by rewrite <- Hgb.
  pose proof (dr_disk _ _ _ _ Hdr) as Hd. simpl in Hd |- *. rewrite Hb in *.
  assert (Halt : forall l : list buf, alter (fun b => set_flags (clr (b_flags b) B_DIRTY) b) i
            (alter (fun b => set_flags (Z.lor (b_flags b) B_VALID) b) i l) =
            alter (fun b => set_flags (served (b_flags b)) b) i l).
  { intros l. rewrite list_alter_alter_eq. by apply list_alter_ext. }
  rewrite Hf. wp_step; rename H0 into Hdirty; rewrite Hdirty in *.
  - wp_step. exists (dev_hw s). split; [done|]. unfold updb, served_state, set_hw, set_queue. simpl.
    f_equal. rewrite Halt. apply list_alter_ext; [|done]. intros c Hc. f_equal.
    rewrite <- Hgb. rewrite (getb_lookup _ _ _ Hc). by destruct c.
  - wp_step. eapply wp_mono; [apply idewait_wp, Hfuel|]. intros r s1 (-> & h & -> & Hh & Hp).
    wp_step; [|done]. unfold wp. simpl in Hh, Hp |- *.
    rewrite (dr_pend _ _ _ _ Hdr _ _ _ eq_refl Hb Hdirty) in Hp.
    pose proof (insl_data h _ Hp) as Hins. destruct (insl _ _ h) as [dat h']. destruct Hins as [-> Hh'].
    exists h'. simpl. split; [congruence|]. unfold updb, served_state, set_hw, set_queue. simpl.
    f_equal. rewrite Halt, list_alter_alter_eq, Hh, Hd. done.
Qed.

Lemma ideintr_wp i q bs d s :
  driving s (i :: q) bs d -> (i < length bs)%nat ->
  wp (ideintr fuel)
     (fun r s' => r = Some i /\ driving s' q (serve (bs, d) i).1 (serve (bs, d) i).2 /\
                  havedisk1 s' = havedisk1 s) s.
Proof using Hfuel.
  intros Hdr Hi. destruct (lookup_lt_is_Some_2 _ _ Hi) as [b Hb].
  destruct (driving_getb _ _ _ _ _ _ Hdr Hb) as [Hgb Hi'].
  pose proof (dr_nodup _ _ _ _ Hdr) as Hnd. apply NoDup_cons in Hnd as [Hiq Hnd].
  pose proof (dr_chain _ _ _ _ Hdr) as (Hhead & c & Hc & Hq).
  unfold ideintr. wp_step. wp_step. rewrite Hhead. do 5 wp_step.
  eapply wp_mono; [by eapply ideintr_complete|]. intros _ s1 (h & Hh & Hs1).
  do 4 wp_step. rewrite Hs1. clear s1 Hs1.
  set (dat := if tst (b_flags b) B_DIRTY then b_data b else blk d (bkey b)) in *.
  assert (Hbs : unlinked <$> bufs (served_state i s dat h) = (serve (bs, d) i).1).
  { unfold served_state. simpl. rewrite unlinked_alter by done. rewrite (dr_bufs _ _ _ _ Hdr), Hb.
    unfold dat. destruct (tst (b_flags b) B_DIRTY); apply list_alter_ext; try done;
      intros x Hx; rewrite Hb in Hx; injection Hx as <-; by destruct b. }
  assert (Hq' : qchain (bufs (served_state i s dat h)) (idequeue (served_state i s dat h)) q).
  { simpl. rewrite (getb_lookup _ _ _ Hc). by apply qchain_alter. }
  assert (Hreq : forall j x, j ∈ q -> (serve (bs, d) i).1 !! j = Some x -> servable x).
  { intros j x Hj Hx. rewrite serve_other in Hx by (intros ->; done).
    eapply (dr_req _ _ _ _ Hdr); [by apply list_elem_of_further|done]. }
  assert (Hlen : length (serve (bs, d) i).1 = S NBUF)
    by (rewrite length_serve; apply (dr_len _ _ _ _ Hdr)).
  wp_step. wp_step. destruct q as [|j q].
  - cbn [qchain] in Hq'. rewrite Hq'. do 2 wp_step. split; [done|]. split; [|done].
    constructor; try done. all: intros; by exfalso; eapply not_elem_of_nil.
  - pose proof Hq' as (Hj & x & Hx & _). rewrite Hj.
    assert (exists y, (serve (bs, d) i).1 !! j = Some y) as [y Hy].
    { rewrite <- Hbs, list_lookup_fmap, Hx. by eexists. }
    wp_step. eapply wp_mono; [eapply (start_driving _ q); eauto|].
    intros [] s' [Hdr' Hh']. wp_step. done.
Qed.

Lemma qassign_write pp j s :
  bufs (qassign pp (Some j) s) = (qwrite (bufs s) pp (idequeue s) j).1 /\
  idequeue (qassign pp (Some j) s) = (qwrite (bufs s) pp (idequeue s) j).2 /\
  dev_hw (qassign pp (Some j) s) = dev_hw s /\ havedisk1 (qassign pp (Some j) s) = havedisk1 s /\
  unlinked <$> bufs (qassign pp (Some j) s) = unlinked <$> bufs s.
Proof. destruct pp; simpl; by rewrite ?unlinked_set_qnext. Qed.

(** The queue after [iderw] has appended its buffer. *)
Lemma enqueue_chain i q s :
  NoDup (q ++ [i]) -> (i < length (bufs s))%nat -> qchain (bufs s) (idequeue s) q ->
  let s1 := qassign (qend q) (Some i) (updb i (set_qnext None) s) in
  qchain (bufs s1) (idequeue s1) (q ++ [i]) /\
  (idequeue s1 = Some i <-> q = []).
Proof.
  intros Hnd Hi Hq s1.
  assert (Hiq : i ∉ q) by (apply NoDup_app in Hnd as (_ & Hd & _); intros Hin; by apply (Hd _ Hin), list_elem_of_here).
  assert (Hq1 : qchain (bufs (updb i (set_qnext None) s)) (idequeue s) q) by by apply qchain_alter.
  destruct (lookup_lt_is_Some_2 _ _ Hi) as [b Hb].
  assert (Hb1 : bufs (updb i (set_qnext None) s) !! i = Some (set_qnext None b)).
  { simpl. by rewrite list_lookup_alter_eq, Hb. }
  pose proof (qchain_snoc_frame _ _ _ _ _ Hnd Hb1 eq_refl Hq1) as Hq2.
  destruct (qassign_write (qend q) i (updb i (set_qnext None) s)) as (E1 & E2 & _).
  unfold s1. rewrite E1, E2. clear E1 E2 s1.
  change (idequeue (updb i (set_qnext None) s)) with (idequeue s).
  destruct (qwrite _ _ _ _) as [bs2 st2] eqn:Ew. cbn [fst snd].
  split; [done|]. destruct q as [|j q].
  - simpl in Ew. by simplify_eq.
  - split; [|done]. intros ->. destruct Hq2 as [[= ->] _]. by destruct Hiq; apply list_elem_of_here.
Qed.

Lemma iderw_start_wp i q bs d b s :
  driving s q bs d -> i ∉ q -> bs !! i = Some b -> tst (b_flags b) B_BUSY = true ->
  servable b -> b_dev b = 0 \/ havedisk1 s = true ->
  wp (iderw_start fuel i)
     (fun _ s' => driving s' (q ++ [i]) bs d /\ havedisk1 s' = havedisk1 s) s.
Proof using Hfuel.
  intros Hdr Hiq Hb Hbusy Hsv Hdev. destruct (driving_getb _ _ _ _ _ _ Hdr Hb) as [Hgb Hi].
  assert (Hnd : NoDup (q ++ [i])).
  { apply NoDup_app. split_and!; [apply (dr_nodup _ _ _ _ Hdr)| |apply NoDup_singleton].
    intros j Hj ->%list_elem_of_singleton. done. }
  assert (Hreq : forall j c, j ∈ q ++ [i] -> bs !! j = Some c -> servable c).
  { intros j c [Hj | ->%list_elem_of_singleton]%elem_of_app Hc; [by eapply (dr_req _ _ _ _ Hdr)|].
    by simplify_eq. }
  assert (Hfl : b_flags (getb i s) = b_flags b /\ b_dev (getb i s) = b_dev b /\
                ide_done (getb i s) = ide_done b) by by rewrite <- Hgb.
  destruct Hfl as (Hf1 & Hf2 & Hf3). pose proof Hsv as [Hnd' _].
  destruct (enqueue_chain i q s Hnd Hi (dr_chain _ _ _ _ Hdr)) as [Hq2 Hhead].
  unfold iderw_start. do 4 wp_step. rewrite Hf1, Hf2, Hf3, Hbusy, Hnd'.
  replace (negb (b_dev b =? 0) && negb (havedisk1 s)) with false
    by (destruct Hdev as [-> | ->]; by rewrite ?andb_false_r).
  cbv [negb]. do 3 wp_step. eapply wp_mono; [apply (qlast_wp q)|].
  - apply (dr_nodup _ _ _ _ Hdr).
  - simpl. rewrite length_alter, <- (length_fmap unlinked), (dr_bufs _ _ _ _ Hdr).
    by rewrite (dr_len _ _ _ _ Hdr).
  - by apply qchain_alter, (dr_chain _ _ _ _ Hdr).
  - intros pp s1 [-> ->]. do 4 wp_step.
    set (s1 := qassign (qend q) (Some i) (updb i (set_qnext None) s)) in *.
    assert (Hs1 : unlinked <$> bufs s1 = bs /\ dev_hw s1 = dev_hw s /\ havedisk1 s1 = havedisk1 s).
    { unfold s1. destruct (qassign_write (qend q) i (updb i (set_qnext None) s)) as (_ & _ & -> & -> & ->).
      simpl. by rewrite unlinked_set_qnext, (dr_bufs _ _ _ _ Hdr). }
    destruct Hs1 as (Hs1 & Hh1 & Hd1). pose proof (dr_len _ _ _ _ Hdr) as Hlen.
    pose proof (dr_disk _ _ _ _ Hdr) as Hdisk. rewrite <- Hh1 in Hdisk. rewrite <- Hd1.
    wp_step; rename H0 into Hst; [apply bool_decide_eq_true in Hst|apply bool_decide_eq_false in Hst].
    + apply Hhead in Hst as ->. by eapply start_driving.
    + destruct q as [|j q]; [by destruct Hst; apply Hhead|]. split; [|done].
      constructor; try done. rewrite Hh1. intros j' c q' [= <- <-] Hc Hdty.
      by eapply (dr_pend _ _ _ _ Hdr).
Qed.

Lemma driving_pending s q bs d i :
  driving s q bs d -> i ∈ q -> (i < length bs)%nat -> ide_done (getb i s) = false.
Proof.
  intros Hdr Hi Hlt. destruct (lookup_lt_is_Some_2 _ _ Hlt) as [b Hb].
  destruct (driving_getb _ _ _ _ _ _ Hdr Hb) as [Hgb _].
  destruct (dr_req _ _ _ _ Hdr _ _ Hi Hb) as [Hd _]. by rewrite <- Hgb in Hd.
Qed.

Lemma length_serves l bd : length (foldl serve bd l).1 = length bd.1.
Proof. revert bd. induction l as [|i l IH]; intros bd; [done|]. simpl. by rewrite IH, length_serve. Qed.

Lemma iderw_wp i q bs d b s :
  driving s q bs d -> i ∉ q -> bs !! i = Some b -> tst (b_flags b) B_BUSY = true ->
  servable b -> b_dev b = 0 \/ havedisk1 s = true ->
  wp (iderw fuel i)
     (fun _ s' => driving s' [] (foldl serve (bs, d) (q ++ [i])).1 (foldl serve (bs, d) (q ++ [i])).2 /\
                  havedisk1 s' = havedisk1 s) s.
Proof using Hfuel.
  intros Hdr Hiq Hb Hbusy Hsv Hdev. unfold iderw. wp_step.
  assert (Hi : (i < length bs)%nat) by by eapply lookup_lt_Some.
  eapply wp_mono; [by eapply iderw_start_wp|]. intros [] s1 [Hdr1 Hd1].
  set (all := q ++ [i]) in *.
  apply (wp_loop_ghost (fun n _ s' => exists q1 q2, all = q1 ++ q2 /\ n = length q2 /\
           havedisk1 s' = havedisk1 s /\
           driving s' q2 (foldl serve (bs, d) q1).1 (foldl serve (bs, d) q1).2) _ _ _ (length all)).
  - intros n [] s2 (q1 & q2 & Hall & -> & Hd2 & Hdr2). do 2 wp_step. wp_step; rename H0 into Hdone.
    + wp_step. destruct q2 as [|j q2]; [rewrite app_nil_r in Hall; by rewrite Hall|]. exfalso.
      assert (Hin : i ∈ j :: q2).
      { assert (last all = Some i) as Hl by (unfold all; by rewrite last_snoc).
        rewrite Hall, last_app in Hl. rewrite last_cons in Hl.
        destruct (last q2) eqn:E; injection Hl as ->; [|apply list_elem_of_here].
        by apply list_elem_of_further, last_Some_elem_of. }
      rewrite (driving_pending _ _ _ _ _ Hdr2 Hin) in Hdone; [done|].
      by rewrite length_serves.
    + destruct q2 as [|j q2].
      * exfalso. rewrite app_nil_r in Hall. subst q1. unfold all in Hdr2.
        rewrite foldl_snoc in Hdr2. set (bd := foldl serve (bs, d) q) in *.
        assert (Hi2 : (i < length (serve bd i).1)%nat)
          by (rewrite length_serve; unfold bd; by rewrite length_serves).
        destruct (lookup_lt_is_Some_2 _ _ Hi2) as [c Hc].
        destruct (driving_getb _ _ _ _ _ _ Hdr2 Hc) as [Hgc _].
        apply serve_done in Hc. rewrite <- Hgc in Hc.
        change (ide_done (getb i s2) = true) in Hc. congruence.
      * wp_step. eapply wp_mono; [eapply ideintr_wp; [exact Hdr2|]|].
        { pose proof (dr_chain _ _ _ _ Hdr2) as (_ & x & Hx & _). apply lookup_lt_Some in Hx.
          by rewrite <- (dr_bufs _ _ _ _ Hdr2), length_fmap. }
        intros r s3 (_ & Hdr3 & Hd3). wp_step. exists (length q2). split; [simpl; lia|].
        exists (q1 ++ [j]), q2. rewrite <- surjective_pairing in Hdr3. rewrite foldl_snoc.
        split_and!; [by rewrite <- app_assoc|done|congruence|done].
  - exists [], all. by split_and!.
  - pose proof (qchain_bound _ _ _ (dr_nodup _ _ _ _ Hdr1) (dr_chain _ _ _ _ Hdr1)) as Hle.
    pose proof (dr_len _ _ _ _ Hdr1). rewrite <- (dr_bufs _ _ _ _ Hdr1), length_fmap in *. lia.
Qed.
End Refinement.

(** C6: [iderw] returns (it neither panics nor waits forever), and by then the
    requests that were waiting and its own have been served one after the
    other in the order they were queued: each dirty buffer's sector holds its
    data, each other buffer holds the sector as it was at its turn, and all of
    them are valid and clean.  The port I/O, the [qnext] list and the
    interrupt handler implement exactly this. *)
Theorem iderw_serves_in_order `{HS : AtaSpec} fuel i q bs d b s :
  (POLLS <= fuel)%nat ->
  driving s q bs d -> i ∉ q -> bs !! i = Some b -> tst (b_flags b) B_BUSY = true ->
  servable b -> b_dev b = 0 \/ havedisk1 s = true ->
  exists s', iderw fuel i s = Ok tt s' /\
    driving s' [] (foldl serve (bs, d) (q ++ [i])).1 (foldl serve (bs, d) (q ++ [i])).2.
Proof.
  intros Hfuel Hdr Hiq Hb Hbusy Hsv Hdev.
  destruct (wp_elim _ _ _ (iderw_wp fuel Hfuel i q bs d b s Hdr Hiq Hb Hbusy Hsv Hdev))
    as ([] & s' & Hrun & Hdr' & _). eauto.
Qed.

(** A transfer the disk reports as failed is not reported to the caller of
    [iderw]: [ideintr] skips the [insl] but marks the buffer valid all the
    same. *)
Lemma idewait_error `{HA : Ata} fuel h s :
  inb 0x1f7 (dev_hw s) = (Z.lor IDE_DRDY IDE_ERR, h) ->
  idewait (S fuel) true s = Ok (-1) (set_hw h s).
Proof. intros Hin. unfold idewait, mbind, M_bind. simpl. unfold mbind, M_bind, in_b. by rewrite Hin. Qed.

(** When the status read by [idewait(1)] has an error bit, [ideintr]
    leaves the buffer's data as they were and sets [B_VALID]: whoever waits
    for the block gets the bytes the buffer held before. *)
Theorem ideintr_error_marks_valid `{HA : Ata} fuel i b h s :
  idequeue s = Some i -> bufs s !! i = Some b -> b_qnext b = None ->
  tst (b_flags b) B_DIRTY = false -> inb 0x1f7 (dev_hw s) = (Z.lor IDE_DRDY IDE_ERR, h) ->
  exists s', ideintr (S fuel) s = Ok (Some i) s' /\
    getb i s' = set_flags (served (b_flags b)) b /\ ide_done (getb i s') = true.
Proof.
  intros Hq Hb Hn Hd Hin.
  assert (Hwp : wp (ideintr (S fuel)) (fun r s' => r = Some i /\
            getb i s' = set_flags (served (b_flags b)) b) s).
  { unfold ideintr. do 2 wp_step. rewrite Hq. do 2 wp_step. rewrite (getb_lookup _ _ _ Hb), Hd, Hn.
    do 4 wp_step. eapply wp_intro; [by apply idewait_error|]. cbv beta. wp_step; [done|].
    do 6 wp_step. simpl. do 2 wp_step. split; [done|].
    assert (i < length (bufs s))%nat by by eapply lookup_lt_Some.
    rewrite !getb_updb by (simpl; rewrite ?length_alter; done).
    change (getb i (set_hw h (set_queue None s))) with (getb i s).
    by rewrite (getb_lookup _ _ _ Hb). }
  destruct (wp_elim _ _ _ Hwp) as (r & s' & Hrun & -> & Hg). exists s'. rewrite Hg.
  split; [done|]. split; [done|]. rewrite ide_done_flags. simpl. unfold served.
  by autorewrite with flags.
Qed.

(** ** A concrete disk *)

Module SimAta.

(** How many status reads the disk still answers with BSY. *)
Inductive busy := Ready | Busy1 | Busy2.

Record sim := Sim {
  s_disk : sectors;
  s_reg : gmap Z Z;
  s_busy : busy;
  s_pend : option (Z * Z);
  s_want : option (Z * Z)
}.

Definition reg (h : sim) (p : Z) : Z := default 0 (s_reg h !! p).

Definition sim_inb (p : Z) (h : sim) : Z * sim :=
  if p =? 0x1f7 then
    match s_busy h with
    | Ready => (IDE_DRDY, h)
    | Busy2 => (IDE_BSY, Sim (s_disk h) (s_reg h) Busy1 (s_pend h) (s_want h))
    | Busy1 => (IDE_BSY, Sim (s_disk h) (s_reg h) Ready (s_pend h) (s_want h))
    end
  else (reg h p, h).

Definition sim_outb (p v : Z) (h : sim) : sim :=
  if p =? 0x1f7 then
    if v =? IDE_CMD_READ then Sim (s_disk h) (s_reg h) Busy2 (Some (lba (reg h))) None
    else if v =? IDE_CMD_WRITE then Sim (s_disk h) (s_reg h) Busy1 None (Some (lba (reg h)))
    else h
  else Sim (s_disk h) (<[p := v]> (s_reg h)) (s_busy h) (s_pend h) (s_want h).

Definition sim_insl (p n : Z) (h : sim) : list Z * sim :=
  match s_pend h with
  | Some k => (blk (s_disk h) k, Sim (s_disk h) (s_reg h) (s_busy h) None (s_want h))
  | None => ([], h)
  end.

Definition sim_outsl (p : Z) (d : list Z) (n : Z) (h : sim) : sim :=
  match s_want h with
  | Some k => Sim (<[k := d]> (s_disk h)) (s_reg h) (s_busy h) (s_pend h) None
  | None => h
  end.

#[global] Instance sim_ata : Ata :=
  {| hw := sim; inb := sim_inb; outb := sim_outb; insl := sim_insl; outsl := sim_outsl |}.

#[global] Program Instance sim_ata_spec : AtaSpec :=
  {| hdisk := s_disk; hreg := reg; hpend := s_pend; hwant := s_want; POLLS := 3;
     hpolls := fun h => match s_busy h with Ready => 0 | Busy1 => 1 | Busy2 => 2 end%nat |}.
Next Obligation. intros h. simpl. destruct (s_busy h); lia. Qed.
Next Obligation.
  intros h. simpl. unfold sim_inb. simpl. destruct (s_busy h) eqn:E; simpl.
  - split; [by left|done].
  - split; [right; split; [lia|done]|done].
  - split; [right; split; [lia|done]|done].
Qed.
Next Obligation.
  intros p v h Hp Hv. simpl. unfold sim_outb. replace (p =? 0x1f7) with false by lia.
  unfold reg. simpl. rewrite lookup_insert_eq. split_and!; [done|done|].
  intros q Hq. by rewrite lookup_insert_ne.
Qed.
Next Obligation. done. Qed.
Next Obligation. done. Qed.
Next Obligation. intros h k Hk. simpl in *. unfold sim_insl. by rewrite Hk. Qed.
Next Obligation. intros h k d Hk Hd. simpl in *. unfold sim_outsl. by rewrite Hk. Qed.

(** A disk at rest with contents [d], and a driver on it. *)
Definition sim0 (d : sectors) : sim := Sim d ∅ Ready None None.
Definition ide0 (bs : list buf) (d : sectors) : ide := Ide _ bs None true (sim0 d).

Lemma ide0_driving bs d :
  length bs = S NBUF -> unlinked <$> bs = bs -> driving (ide0 bs d) [] bs d.
Proof.
  intros Hl Hu. constructor; simpl; try done; [by rewrite NoDup_nil|].
  intros ? ? Hin. by apply not_elem_of_nil in Hin.
Qed.

End SimAta.

(** Buffer 3 is to be written to sector 7 and buffer 5 read from sector 9. *)
Definition demo_bufs : list buf :=
  <[3%nat := Buf (Z.lor B_BUSY B_DIRTY) 1 7 0 0 None (replicate BLEN 42)]>
  (<[5%nat := Buf B_BUSY 1 9 0 0 None (replicate BLEN 0)]> (replicate (S NBUF) null_buf)).

Lemma demo_addr : addressable (1, 7).
Proof. split; simpl; lia. Qed.

Lemma iderw_serves_in_order_witness :
  exists s1 s2, iderw_start 3 3 (SimAta.ide0 demo_bufs ∅) = Ok tt s1 /\
    iderw 3 5 s1 = Ok tt s2 /\
    driving s2 [] (foldl serve (demo_bufs, ∅) [3; 5]%nat).1 (foldl serve (demo_bufs, ∅) [3; 5]%nat).2.
Proof.
  assert (H0 : driving (SimAta.ide0 demo_bufs ∅) [] demo_bufs ∅)
    by (apply SimAta.ide0_driving; reflexivity).
  destruct (wp_elim _ _ _ (iderw_start_wp (HS := SimAta.sim_ata_spec) 3 (le_n 3) 3 [] demo_bufs ∅ _ _ H0
              (not_elem_of_nil _) eq_refl eq_refl (conj eq_refl (conj demo_addr eq_refl))
              (or_intror eq_refl))) as ([] & s1 & Hs1 & Hdr1 & Hd1).
  destruct (iderw_serves_in_order 3 5 [3%nat] demo_bufs ∅
              (Buf B_BUSY 1 9 0 0 None (replicate BLEN 0)) s1) as (s2 & Hs2 & Hdr2).
  - simpl. lia.
  - exact Hdr1.
  - intros Hin%list_elem_of_singleton. lia.
  - reflexivity.
  - reflexivity.
  - split_and!; [reflexivity|split; simpl; lia|reflexivity].
  - right. exact Hd1.
  - exists s1, s2. split; [exact Hs1|]. split; [exact Hs2|exact Hdr2].
Defined.

(** A disk whose status register always shows an error. *)
Definition failing_ata : Ata :=
  {| hw := unit; inb := fun _ h => (Z.lor IDE_DRDY IDE_ERR, h); outb := fun _ _ h => h;
     insl := fun _ _ h => ([], h); outsl := fun _ _ _ h => h |}.

Lemma ideintr_error_marks_valid_witness :
  exists s', ideintr (HA := failing_ata) 1
      (Ide failing_ata [Buf B_BUSY 1 9 0 0 None [1; 2; 3]] (Some 0%nat) true tt) = Ok (Some 0%nat) s' /\
    getb 0 s' = Buf (Z.lor B_BUSY B_VALID) 1 9 0 0 None [1; 2; 3] /\ ide_done (getb 0 s') = true.
Proof.
  apply (ideintr_error_marks_valid (HA := failing_ata) 0 0
           (Buf B_BUSY 1 9 0 0 None [1; 2; 3]) tt); reflexivity.
Defined.
