(* ===== verification/BlockDev.v ===== *)
(** * The block interface: what the buffer cache promises to the file system

    [src/bio.c] says how its interface is to be used: "To get a buffer for a
    particular disk block, call bread.  After changing buffer data, call bwrite
    to flush it to disk.  When done with the buffer, call brelse.  Do not use
    the buffer after calling brelse.  Only one process at a time can use a
    buffer, so do not keep them longer than necessary."  [BlockOps] names the
    operations and [BlockSpec] states that contract; the file system's theorems
    are proved against it and the buffer cache discharges it. *)

From stdpp Require Import base numbers list gmap.
From Stdlib Require Import Lia ZArith ZifyBool.
From S2P Require Import Prelude Ide.
Open Scope Z_scope.

(** A [struct buf *] is a buffer number; [bdata] and [bset] are uses of
    [bp->data] by its owner. *)
Class BlockOps (S : Type) := {
  bread : Z -> Z -> M S nat;
  bdata : nat -> S -> list Z;
  bset : nat -> list Z -> S -> S;
  bwrite : nat -> M S unit;
  brelse : nat -> M S unit
}.

(** The buffers that are out, each with its sector and its present data. *)
Abbreviation holds := (gmap nat ((Z * Z) * list Z)).

Definition not_held (H : holds) (k : Z * Z) : Prop :=
  forall i k' dat, H !! i = Some (k', dat) -> k' <> k.

(** [bstate s d H]: the disk holds the sectors [d], and the buffers [H] are
    out.  A buffer may go back only when its data are those of the disk. *)
Class BlockSpec (S : Type) `{BlockOps S} := {
  bstate : S -> sectors -> holds -> Prop;
  bcap : nat;
  blk_length : forall s d H k, bstate s d H -> length (blk d k) = BLEN;
  bread_spec : forall s d H dev sector,
    bstate s d H -> addressable (dev, sector) -> not_held H (dev, sector) -> (size H < bcap)%nat ->
    wp (bread dev sector) (fun i s' => H !! i = None /\
      bstate s' d (<[i := ((dev, sector), blk d (dev, sector))]> H)) s;
  bdata_spec : forall s d H i k dat,
    bstate s d H -> H !! i = Some (k, dat) -> bdata i s = dat;
  bset_spec : forall s d H i k dat dat',
    bstate s d H -> H !! i = Some (k, dat) -> length dat' = BLEN ->
    bstate (bset i dat' s) d (<[i := (k, dat')]> H);
  bwrite_spec : forall s d H i k dat,
    bstate s d H -> H !! i = Some (k, dat) ->
    wp (bwrite i) (fun _ s' => bstate s' (<[k := dat]> d) H) s;
  brelse_spec : forall s d H i k,
    bstate s d H -> H !! i = Some (k, blk d k) ->
    wp (brelse i) (fun _ s' => bstate s' d (delete i H)) s
}.

Lemma not_held_empty k : not_held ∅ k.
Proof. intros i k' dat. by rewrite lookup_empty. Qed.

Lemma not_held_insert (H : holds) i k k' dat :
  not_held H k -> k' <> k -> not_held (<[i := (k', dat)]> H) k.
Proof.
  intros Hn Hk j k'' dat' Hj. apply lookup_insert_Some in Hj as [(_ & Hj)|(_ & Hj)].
  - by injection Hj as <- <-.
  - by eapply Hn.
Qed.

Lemma blk_insert d k dat : blk (<[k := dat]> d) k = dat.
Proof. unfold blk. by rewrite lookup_insert_eq. Qed.

Lemma blk_insert_ne d k k' dat : k <> k' -> blk (<[k := dat]> d) k' = blk d k'.
Proof. intros. unfold blk. by rewrite lookup_insert_ne. Qed.
