(* ===== verification/Bio.v ===== *)
(** * The buffer cache: [src/bio.c]

    The cache is the array of buffers of [Ide] with the doubly linked list
    through [prev] and [next]; element [NBUF] of the array is
    [bcache.head].  [bget], [bread], [bwrite] and [brelse] follow those
    pointers as the code does.  The list represents an order of the buffers,
    most recently used first, and the cache implements the block interface. *)

From stdpp Require Import base numbers strings functions list gmap.
From Stdlib Require Import Lia ZArith ZifyBool.
From S2P Require Import Prelude Ide BlockDev.
Open Scope Z_scope.

(** b->dev = -1 for a uint *)
Definition NODEV : Z := u32 (-1).

Section Bio.
Context `{HA : Ata}.

(** Insert [b] at the head of the list. *)
Definition link_front (b : nat) : M ide unit :=
  head ← gets (getb NBUF);
  _ ← modify (updb b (set_next (b_next head)));
  _ ← modify (updb b (set_prev NBUF));
  head ← gets (getb NBUF);
  _ ← modify (updb (b_next head) (set_prev b));
  modify (updb NBUF (set_next b)).

Definition binit : M ide unit :=
  _ ← modify (updb NBUF (set_prev NBUF));
  _ ← modify (updb NBUF (set_next NBUF));
  loop (S NBUF) (fun b : nat =>
    if (b <? NBUF)%nat then
      head ← gets (getb NBUF);
      _ ← modify (updb b (set_next (b_next head)));
      _ ← modify (updb b (set_prev NBUF));
      _ ← modify (updb b (fun x => set_id NODEV (b_sector x) x));
      head ← gets (getb NBUF);
      _ ← modify (updb (b_next head) (set_prev b));
      _ ← modify (updb NBUF (set_next b));
      mret (inl (S b))
    else mret (inr tt)) 0%nat.

(** A hit on a busy buffer sleeps; the caller starts again at [loop:]. *)
Definition bget_cached (dev sector : Z) : M ide (option nat) :=
  head ← gets (getb NBUF);
  loop (S NBUF) (fun b : nat =>
    if (b =? NBUF)%nat then mret (inr None) else
    x ← gets (getb b);
    if (b_dev x =? dev) && (b_sector x =? sector) then
      if negb (tst (b_flags x) B_BUSY) then
        _ ← modify (updb b (fun x => set_flags (Z.lor (b_flags x) B_BUSY) x));
        mret (inr (Some b))
      else sleep_on (ChanBuf b)
    else mret (inl (b_next x))) (b_next head).

Definition bget_fresh (dev sector : Z) : M ide nat :=
  head ← gets (getb NBUF);
  loop (S NBUF) (fun b : nat =>
    if (b =? NBUF)%nat then panic "bget: no buffers" else
    x ← gets (getb b);
    if negb (tst (b_flags x) B_BUSY) then
      _ ← modify (updb b (set_id dev sector));
      _ ← modify (updb b (set_flags B_BUSY));
      mret (inr b)
    else mret (inl (b_prev x))) (b_prev head).

Definition bget (dev sector : Z) : M ide nat :=
  r ← bget_cached dev sector;
  match r with Some b => mret b | None => bget_fresh dev sector end.

Definition bread (fuel : nat) (dev sector : Z) : M ide nat :=
  b ← bget dev sector;
  x ← gets (getb b);
  _ ← when (negb (tst (b_flags x) B_VALID)) (iderw fuel b);
  mret b.

Definition bwrite (fuel : nat) (b : nat) : M ide unit :=
  x ← gets (getb b);
  if negb (tst (b_flags x) B_BUSY) then panic "bwrite" else
  _ ← modify (updb b (fun x => set_flags (Z.lor (b_flags x) B_DIRTY) x));
  iderw fuel b.

(** The channel [b] is woken last. *)
Definition brelse (b : nat) : M ide unit :=
  x ← gets (getb b);
  if negb (tst (b_flags x) B_BUSY) then panic "brelse" else
  _ ← modify (updb (b_next x) (set_prev (b_prev x)));
  x ← gets (getb b);
  _ ← modify (updb (b_prev x) (set_next (b_next x)));
  _ ← link_front b;
  modify (updb b (fun x => set_flags (clr (b_flags x) B_BUSY) x)).
End Bio.

(** ** Doubly linked lists *)

(** Following [f] from [x] visits [l] and arrives at [t]. *)
Fixpoint path (f : nat -> nat) (x : nat) (l : list nat) (t : nat) : Prop :=
  match l with
  | [] => f x = t
  | y :: l => f x = y /\ path f y l t
  end.

Lemma path_ext f g x l t :
  (forall y, y ∈ x :: l -> f y = g y) -> path f x l t -> path g x l t.
Proof.
  revert x. induction l as [|y l IH]; simpl; intros x Heq Hp.
  - rewrite <- Heq; [done|apply list_elem_of_here].
  - destruct Hp as [<- Hp]. rewrite <- Heq by apply list_elem_of_here. split; [done|].
    apply IH; [|done]. intros z Hz. apply Heq. by apply list_elem_of_further.
Qed.

Lemma path_app f x l1 b l2 t : path f x (l1 ++ b :: l2) t <-> path f x l1 b /\ path f b l2 t.
Proof. revert x. induction l1 as [|y l1 IH]; intros x; simpl; [done|]. rewrite IH. tauto. Qed.

Definition lastd (x : nat) (l : list nat) : nat := default x (last l).
Definition headd (t : nat) (l : list nat) : nat := default t (head l).

Lemma lastd_cons x y l : lastd x (y :: l) = lastd y l.
Proof. unfold lastd. rewrite last_cons. by destruct (last l). Qed.

Lemma lastd_in x l : lastd x l ∈ x :: l.
Proof.
  revert x. induction l as [|y l IH]; intros x; [apply list_elem_of_here|].
  rewrite lastd_cons. apply list_elem_of_further, IH.
Qed.

Lemma lastd_reverse t l : lastd t (reverse l) = headd t l.
Proof. unfold lastd, headd. by rewrite last_reverse. Qed.
Lemma headd_reverse t l : headd t (reverse l) = lastd t l.
Proof. unfold lastd, headd. by rewrite head_reverse. Qed.

Lemma path_head f x l t : path f x l t -> f x = headd t l.
Proof. destruct l; [done|]. by intros [? _]. Qed.

Lemma path_retarget f x l t n :
  NoDup (x :: l) -> path f x l t -> path (<[lastd x l := n]> f) x l n.
Proof.
  revert x. induction l as [|y l IH]; intros x Hnd Hp.
  { simpl. by rewrite fn_lookup_insert. }
  rewrite lastd_cons. apply NoDup_cons in Hnd as [Hx Hnd]. destruct Hp as [Hxy Hp]. split; [|by apply IH].
  rewrite fn_lookup_insert_ne; [done|]. intros <-. apply Hx, lastd_in.
Qed.

(** Unlinking [b]. *)
Lemma path_remove f x l1 b l2 t :
  NoDup (x :: l1 ++ b :: l2) -> path f x (l1 ++ b :: l2) t ->
  path (<[lastd x l1 := headd t l2]> f) x (l1 ++ l2) t.
Proof.
  intros Hnd [Hp1 Hp2]%path_app.
  assert (Hx : NoDup (x :: l1) /\ forall y, y ∈ x :: l1 -> y ∉ l2).
  { rewrite app_comm_cons in Hnd. apply NoDup_app in Hnd as (H1 & H2 & _). split; [done|].
    intros y Hy Hy2. by apply (H2 y Hy), list_elem_of_further. }
  destruct Hx as [Hnd1 Hdis]. destruct l2 as [|n l2].
  - rewrite app_nil_r. by eapply path_retarget.
  - destruct Hp2 as [Hbn Hp2]. apply path_app. split; [by eapply path_retarget|].
    apply (path_ext f); [|done]. intros y Hy. rewrite fn_lookup_insert_ne; [done|].
    intros <-. by apply (Hdis (lastd x l1)); [apply lastd_in|].
Qed.

(** Linking [b] at the front, and at the end. *)
Lemma path_push f x l t b :
  b ∉ x :: l -> x ∉ l -> path f x l t -> path (<[x := b]> (<[b := f x]> f)) x (b :: l) t.
Proof.
  intros Hb Hx Hp. apply not_elem_of_cons in Hb as [Hbx Hb].
  split; [by rewrite fn_lookup_insert|]. apply (path_ext (<[b := f x]> f)).
  { intros y Hy. rewrite (fn_lookup_insert_ne (<[b := f x]> f) x y); [done|].
    intros <-. apply elem_of_cons in Hy as [->|Hy]; done. }
  destruct l as [|y l]; simpl; rewrite fn_lookup_insert; [done|].
  destruct Hp as [Hxy Hp]. split; [done|]. apply (path_ext f); [|done].
  intros z Hz. rewrite fn_lookup_insert_ne; [done|]. by intros ->.
Qed.

Lemma path_snoc f x l t b :
  NoDup (x :: l) -> b ∉ x :: l -> path f x l t ->
  path (<[lastd x l := b]> (<[b := t]> f)) x (l ++ [b]) t.
Proof.
  intros Hnd Hb Hp. apply path_app. split.
  - eapply path_retarget; [done|]. apply (path_ext f); [|done].
    intros z Hz. rewrite fn_lookup_insert_ne; [done|]. by intros ->.
  - simpl. rewrite fn_lookup_insert_ne, fn_lookup_insert; [done|].
    intros <-. apply Hb, lastd_in.
Qed.

(** ** The cache's list *)

Section Lru.
Context `{HA : Ata}.
Implicit Types s : ide.

Definition nx s i : nat := b_next (getb i s).
Definition pv s i : nat := b_prev (getb i s).
Definition sized s : Prop := length (bufs s) = S NBUF.

Lemma sized_updb i f s : sized s -> sized (updb i f s).
Proof. unfold sized, updb. simpl. by rewrite length_alter. Qed.

Lemma getb_updb_if i f s j :
  sized s -> (i <= NBUF)%nat -> getb j (updb i f s) = if decide (i = j) then f (getb j s) else getb j s.
Proof.
  intros Hs Hi. destruct (decide (i = j)) as [->|].
  - apply getb_updb. unfold sized in Hs. lia.
  - by apply getb_updb_ne.
Qed.

(** [order] lists the buffers from most to least recently used. *)
Definition dll s (order : list nat) : Prop :=
  NoDup (NBUF :: order) /\ (forall i, i ∈ order -> (i < NBUF)%nat) /\
  path (nx s) NBUF order NBUF /\ path (pv s) NBUF (reverse order) NBUF.

Lemma dll_ext s s' order :
  (forall i, nx s' i = nx s i) -> (forall i, pv s' i = pv s i) -> dll s order -> dll s' order.
Proof.
  intros Hn Hp (? & ? & H1 & H2). split_and!; [done|done| |].
  - by apply (path_ext (nx s)).
  - by apply (path_ext (pv s)).
Qed.

(** The pointer updates of [brelse]. *)
Definition unlink b s : ide :=
  let s1 := updb (nx s b) (set_prev (pv s b)) s in updb (pv s1 b) (set_next (nx s1 b)) s1.
Definition relink b s : ide :=
  let s1 := updb b (set_prev NBUF) (updb b (set_next (nx s NBUF)) s) in
  updb NBUF (set_next b) (updb (nx s1 NBUF) (set_prev b) s1).

Lemma headd_le l : (forall i, i ∈ l -> (i < NBUF)%nat) -> (headd NBUF l <= NBUF)%nat.
Proof. intros H. destruct l as [|i l]; [done|]. pose proof (H i (list_elem_of_here i l)). unfold headd. simpl. lia. Qed.

Lemma dll_neighbours s l1 b l2 :
  dll s (l1 ++ b :: l2) -> nx s b = headd NBUF l2 /\ pv s b = lastd NBUF l1.
Proof.
  intros (_ & _ & Hn & Hp). apply path_app in Hn as [_ Hn].
  rewrite reverse_app, reverse_cons, <- app_assoc in Hp. apply path_app in Hp as [_ Hp].
  split; [by apply path_head|]. rewrite <- headd_reverse. by apply path_head.
Qed.

Lemma unlink_dll s l1 b l2 :
  sized s -> dll s (l1 ++ b :: l2) -> dll (unlink b s) (l1 ++ l2).
Proof.
  intros Hs Hd. pose proof (dll_neighbours _ _ _ _ Hd) as [Hnb Hpb].
  pose proof Hd as (Hnd & Hlt & Hn & Hp).
  assert (Hsub : forall i, i ∈ l1 ++ l2 -> i ∈ l1 ++ b :: l2) by set_solver.
  assert (Hn1 : (headd NBUF l2 <= NBUF)%nat) by (apply headd_le; intros; apply Hlt; set_solver).
  assert (Hp1 : (lastd NBUF l1 <= NBUF)%nat).
  { rewrite <- headd_reverse. apply headd_le. intros i Hi. apply Hlt. rewrite elem_of_reverse in Hi. set_solver. }
  assert (Hbl : (b < NBUF)%nat) by (apply Hlt; set_solver).
  unfold unlink. rewrite Hnb, Hpb. set (s1 := updb (headd NBUF l2) _ s).
  assert (Hnx1 : forall j, nx s1 j = nx s j).
  { intros j. unfold nx, s1. rewrite getb_updb_if by done. by destruct (decide _). }
  assert (Hpv1 : forall j, pv s1 j = <[headd NBUF l2 := lastd NBUF l1]> (pv s) j).
  { intros j. unfold pv, s1. rewrite getb_updb_if by done. unfold insert, fn_insert. by destruct (decide _). }
  assert (Hpb1 : pv s1 b = lastd NBUF l1).
  { rewrite Hpv1. destruct (decide (headd NBUF l2 = b)) as [->|]; [by rewrite fn_lookup_insert|].
    by rewrite fn_lookup_insert_ne. }
  rewrite Hpb1, Hnx1, Hnb. clear Hpb1.
  assert (Hsz : sized s1) by by apply sized_updb.
  split_and!.
  - rewrite NoDup_cons in Hnd |- *. destruct Hnd as [Hno Hnd]. split; [set_solver|].
    apply NoDup_app in Hnd as (? & ? & Hnd). apply NoDup_cons in Hnd as [? ?].
    apply NoDup_app. set_solver.
  - auto.
  - apply (path_ext (<[lastd NBUF l1 := headd NBUF l2]> (nx s))); [|by eapply path_remove].
    intros j _. unfold nx. rewrite (getb_updb_if _ _ s1) by done. unfold insert, fn_insert.
    destruct (decide _); [done|]. exact (eq_sym (Hnx1 j)).
  - rewrite reverse_app.
    apply (path_ext (<[lastd NBUF (reverse l2) := headd NBUF (reverse l1)]> (pv s))).
    + intros j _. rewrite lastd_reverse, headd_reverse, <- Hpv1. unfold pv.
      rewrite (getb_updb_if _ _ s1) by done. by destruct (decide _).
    + rewrite reverse_app, reverse_cons, <- app_assoc in Hp. eapply path_remove; [|exact Hp].
      rewrite NoDup_cons in Hnd |- *. destruct Hnd as [Hno Hnd].
      change (reverse l2 ++ b :: reverse l1) with (reverse l2 ++ [b] ++ reverse l1).
      rewrite app_assoc, <- reverse_cons, <- reverse_app. split; [by rewrite elem_of_reverse|].
      by rewrite reverse_Permutation.
Qed.

Lemma relink_dll s b l :
  sized s -> (b < NBUF)%nat -> b ∉ l -> dll s l -> dll (relink b s) (b :: l).
Proof.
  intros Hs Hb Hbl Hd. pose proof Hd as (Hnd & Hlt & Hn & Hp).
  pose proof Hnd as [Hno Hnd']%NoDup_cons.
  assert (Hb' : b ∉ NBUF :: l) by (apply not_elem_of_cons; split; [lia|done]).
  assert (Hh : nx s NBUF = headd NBUF l) by by apply path_head.
  assert (Hle : (headd NBUF l <= NBUF)%nat) by by apply headd_le.
  unfold relink. rewrite Hh. set (s1 := updb b (set_prev NBUF) _).
  assert (Hnx1 : forall j, nx s1 j = <[b := headd NBUF l]> (nx s) j).
  { intros j. unfold nx, s1. rewrite !getb_updb_if by (try apply sized_updb; done || lia).
    unfold insert, fn_insert. by destruct (decide _). }
  assert (Hpv1 : forall j, pv s1 j = <[b := NBUF]> (pv s) j).
  { intros j. unfold pv, s1. rewrite !getb_updb_if by (try apply sized_updb; done || lia).
    unfold insert, fn_insert. by destruct (decide _). }
  assert (Hs1 : sized s1) by by do 2 apply sized_updb.
  replace (nx s1 NBUF) with (headd NBUF l) by (rewrite Hnx1, fn_lookup_insert_ne by lia; done).
  set (s2 := updb (headd NBUF l) (set_prev b) s1).
  assert (Hs2 : sized s2) by by apply sized_updb.
  split_and!.
  - apply NoDup_cons. rewrite not_elem_of_cons, NoDup_cons. split; [split; [lia|done]|done].
  - intros i [->|Hi]%elem_of_cons; auto.
  - apply (path_ext (<[NBUF := b]> (<[b := nx s NBUF]> (nx s)))); [|by apply path_push].
    intros j _. rewrite Hh. unfold nx at 2. rewrite (getb_updb_if _ _ s2) by done.
    unfold s2. rewrite (getb_updb_if _ _ s1) by done. unfold insert, fn_insert at 1.
    pose proof (Hnx1 j) as Hj. unfold nx at 1 in Hj.
    destruct (decide _); [done|]. by destruct (decide (headd NBUF l = j)).
  - rewrite reverse_cons.
    apply (path_ext (<[lastd NBUF (reverse l) := b]> (<[b := NBUF]> (pv s)))).
    + intros j _. rewrite lastd_reverse. unfold pv at 2. rewrite (getb_updb_if _ _ s2) by done.
      unfold s2. rewrite (getb_updb_if _ _ s1) by done. unfold insert, fn_insert at 1.
      pose proof (Hpv1 j) as Hj. unfold pv at 1 in Hj.
      destruct (decide (NBUF = j)); by destruct (decide (headd NBUF l = j)).
    + apply path_snoc; [by rewrite reverse_Permutation| |done].
      rewrite not_elem_of_cons, elem_of_reverse. split; [lia|done].
Qed.

(** Changes that leave the list alone. *)
Definition keeps_links (f : buf -> buf) : Prop :=
  forall b, b_next (f b) = b_next b /\ b_prev (f b) = b_prev b.

Lemma dll_updb s i f l : sized s -> (i <= NBUF)%nat -> keeps_links f -> dll s l -> dll (updb i f s) l.
Proof.
  intros Hs Hi Hf. apply dll_ext; intros j; unfold nx, pv; rewrite getb_updb_if by done;
    (destruct (decide _); [apply Hf|done]).
Qed.
End Lru.

(** ** bget *)

Section Bget.
Context `{HA : Ata}.
Implicit Types s : ide.

Definition busyb (b : buf) : bool := tst (b_flags b) B_BUSY.
Definition set_busy (b : buf) : buf := set_flags (Z.lor (b_flags b) B_BUSY) b.
Definition recycle (dev sector : Z) (b : buf) : buf := set_flags B_BUSY (set_id dev sector b).

(** The position of a walk: [l] is still to be visited. *)
Definition walking (f : nat -> nat) (st : nat) (l : list nat) : Prop :=
  match l with [] => st = NBUF | i :: l => st = i /\ path f i l NBUF end.

Lemma walking_start f l : path f NBUF l NBUF -> walking f (f NBUF) l.
Proof. by destruct l. Qed.
Lemma walking_next f i l : walking f i (i :: l) -> walking f (f i) l.
Proof. intros [_ H]. by destruct l. Qed.

Lemma bget_cached_wp dev sector order s :
  dll s order -> (length order <= NBUF)%nat ->
  (forall i, i ∈ order -> bkey (getb i s) = (dev, sector) -> busyb (getb i s) = false) ->
  wp (bget_cached dev sector)
     (fun r s' => match r with
        | None => s' = s /\ (forall i, i ∈ order -> bkey (getb i s) <> (dev, sector))
        | Some i => i ∈ order /\ bkey (getb i s) = (dev, sector) /\ s' = updb i set_busy s
        end) s.
Proof.
  intros (Hnd & Hlt & Hn & _) Hlen Hfree. unfold bget_cached. do 2 wp_step.
  apply (wp_loop_ghost (fun n st s' => s' = s /\ exists l1 l2, order = l1 ++ l2 /\ n = length l2 /\
           walking (nx s) st l2 /\ (forall i, i ∈ l1 -> bkey (getb i s) <> (dev, sector)))
         _ _ _ (length order)).
  - intros n st s' (-> & l1 & l2 & -> & -> & Hw & Hl1).
    destruct l2 as [|i l2]; simpl in Hw; [rewrite Hw; simpl; wp_step; by rewrite app_nil_r|].
    assert (Hin : i ∈ l1 ++ i :: l2) by set_solver.
    pose proof (Hlt i Hin). pose proof (Hfree i Hin) as Hbusy. destruct Hw as [-> Hw].
    replace (i =? NBUF)%nat with false by lia. do 2 wp_step. wp_step; rename H0 into Hk.
    + apply andb_true_iff in Hk as [Hk1 Hk2]. apply Z.eqb_eq in Hk1, Hk2.
      assert (Hk : bkey (getb i s) = (dev, sector)) by (unfold bkey; congruence).
      specialize (Hbusy Hk). unfold busyb in Hbusy. rewrite Hbusy. cbv [negb]. by do 3 wp_step.
    + wp_step. exists (length l2). split; [simpl; lia|]. split; [done|].
      exists (l1 ++ [i]), l2. split_and!; [by rewrite <- app_assoc|done| |].
      * by apply (walking_next (nx s)).
      * intros j [Hj | ->%list_elem_of_singleton]%elem_of_app; [auto|]. unfold bkey. intros [= <- <-].
        rewrite !Z.eqb_refl in Hk. done.
  - split; [done|]. exists [], order. split_and!; try done; [by apply (walking_start (nx s))|].
    intros i Hi. by apply not_elem_of_nil in Hi.
  - lia.
Qed.

(** The buffer recycled is the least recently used one that is not busy. *)
Lemma bget_fresh_wp dev sector order s :
  dll s order -> (length order <= NBUF)%nat ->
  (exists i, i ∈ order /\ busyb (getb i s) = false) ->
  wp (bget_fresh dev sector)
     (fun i s' => s' = updb i (recycle dev sector) s /\ exists l1 l2, order = l1 ++ i :: l2 /\
        busyb (getb i s) = false /\ forall j, j ∈ l2 -> busyb (getb j s) = true) s.
Proof.
  intros (Hnd & Hlt & _ & Hp) Hlen (i0 & Hi0 & Hb0). unfold bget_fresh. do 2 wp_step.
  apply (wp_loop_ghost (fun n st s' => s' = s /\ exists l1 l2, order = l1 ++ l2 /\ n = length l1 /\
           walking (pv s) st (reverse l1) /\ (forall i, i ∈ l2 -> busyb (getb i s) = true))
         _ _ _ (length order)).
  - intros n st s' (-> & l1 & l2 & -> & -> & Hw & Hl2).
    destruct l1 as [|i l1 _] using rev_ind.
    { exfalso. rewrite app_nil_l in Hi0. by rewrite Hl2 in Hb0. }
    rewrite reverse_snoc in Hw.
    assert (Hin : i ∈ (l1 ++ [i]) ++ l2) by set_solver. pose proof (Hlt i Hin).
    destruct Hw as [-> Hw]. replace (i =? NBUF)%nat with false by lia. do 2 wp_step.
    wp_step; rename H0 into Hb; [apply negb_true_iff in Hb|apply negb_false_iff in Hb].
    + do 5 wp_step. split.
      * unfold updb. simpl. by rewrite list_alter_alter_eq.
      * exists l1, l2. by rewrite <- app_assoc.
    + wp_step. exists (length l1). split; [rewrite length_app; simpl; lia|]. split; [done|].
      exists l1, (i :: l2). split_and!; [by rewrite <- app_assoc|done| |].
      * by apply (walking_next (pv s)).
      * intros j [->|Hj]%elem_of_cons; auto.
  - split; [done|]. exists order, []. rewrite app_nil_r. split_and!; try done.
    + by apply (walking_start (pv s)).
    + intros i Hi. by apply not_elem_of_nil in Hi.
  - lia.
Qed.
End Bget.

(** ** The invariant of the cache *)

Definition payload (b : buf) : Z * Z * Z * list Z := (b_flags b, b_dev b, b_sector b, b_data b).

(** A buffer that is valid and not busy holds its sector's data. *)
Definition buf_ok (d : sectors) (b : buf) : Prop :=
  length (b_data b) = BLEN /\ tst (b_flags b) B_DIRTY = false /\
  (tst (b_flags b) B_VALID = true -> addressable (bkey b)) /\
  (tst (b_flags b) B_VALID = true -> busyb b = false -> b_data b = blk d (bkey b)) /\
  (busyb b = true -> tst (b_flags b) B_VALID = true).

Section Cache.
Context `{HA : Ata} `{HS : !AtaSpec}.
Implicit Types s : ide.

Definition lru s : Prop := exists order, dll s order /\ order ≡ₚ seq 0 NBUF.

Record cache_inv s (d : sectors) (H : holds) : Prop := CacheInv {
  ci_sized : sized s;
  ci_lru : lru s;
  ci_queue : idequeue s = None;
  ci_have : havedisk1 s = true;
  ci_disk : hdisk (dev_hw s) = d;
  ci_blocks : forall k, length (blk d k) = BLEN;
  ci_uniq : forall i j, (i < NBUF)%nat -> (j < NBUF)%nat -> addressable (bkey (getb i s)) ->
            bkey (getb i s) = bkey (getb j s) -> i = j;
  ci_buf : forall i, (i < NBUF)%nat -> buf_ok d (getb i s);
  ci_held : forall i k dat, H !! i = Some (k, dat) <->
            (i < NBUF)%nat /\ busyb (getb i s) = true /\ bkey (getb i s) = k /\ b_data (getb i s) = dat
}.

Lemma payload_eq b b' : payload b = payload b' ->
  b_flags b = b_flags b' /\ bkey b = bkey b' /\ b_data b = b_data b'.
Proof. intros [= ? ? ? ?]. unfold bkey. split_and!; congruence. Qed.

Lemma buf_ok_payload d d' b b' :
  payload b' = payload b -> blk d' (bkey b) = blk d (bkey b) -> buf_ok d b -> buf_ok d' b'.
Proof.
  intros (Hf & Hk & Hd)%payload_eq Hblk (H1 & H2 & H3 & H4 & H5).
  unfold buf_ok, busyb in *. rewrite Hf, Hk, Hd, Hblk. done.
Qed.

(** Changing one buffer, and at most its sector of the disk. *)
Lemma cache_inv_update s s' d d' H H' i :
  cache_inv s d H -> sized s' -> lru s' -> idequeue s' = None -> havedisk1 s' = true ->
  hdisk (dev_hw s') = d' -> (i < NBUF)%nat ->
  (forall j, j <> i -> payload (getb j s') = payload (getb j s)) ->
  buf_ok d' (getb i s') ->
  (forall j, (j < NBUF)%nat -> j <> i -> bkey (getb j s) <> bkey (getb i s')) ->
  (forall k, k <> bkey (getb i s') -> blk d' k = blk d k) ->
  length (blk d' (bkey (getb i s'))) = BLEN ->
  (forall k dat, H' !! i = Some (k, dat) <->
     busyb (getb i s') = true /\ bkey (getb i s') = k /\ b_data (getb i s') = dat) ->
  (forall j, j <> i -> H' !! j = H !! j) ->
  cache_inv s' d' H'.
Proof.
  intros Hinv Hsz Hlru Hq Hhave Hdisk Hi Hothers Hok Huniq Hsame Hlen Hh1 Hh2.
  constructor; try done.
  - intros k. destruct (decide (k = bkey (getb i s'))) as [->|Hk]; [done|].
    rewrite Hsame by done. apply (ci_blocks _ _ _ Hinv).
  - intros j1 j2 H1 H2 Ha Heq.
    destruct (decide (j1 = i)) as [->|N1], (decide (j2 = i)) as [->|N2]; [done| | |].
    + destruct (payload_eq _ _ (Hothers j2 N2)) as (_ & E2 & _). rewrite E2 in Heq.
      by destruct (Huniq j2).
    + destruct (payload_eq _ _ (Hothers j1 N1)) as (_ & E1 & _). rewrite E1 in Heq.
      by destruct (Huniq j1).
    + destruct (payload_eq _ _ (Hothers j1 N1)) as (_ & E1 & _).
      destruct (payload_eq _ _ (Hothers j2 N2)) as (_ & E2 & _).
      rewrite E1 in Ha, Heq. rewrite E2 in Heq. by apply (ci_uniq _ _ _ Hinv).
  - intros j Hj. destruct (decide (j = i)) as [->|N]; [done|].
    eapply buf_ok_payload; [by apply Hothers|apply Hsame; by apply Huniq|].
    by apply (ci_buf _ _ _ Hinv).
  - intros j k dat. destruct (decide (j = i)) as [->|N]; [rewrite Hh1; tauto|].
    rewrite Hh2 by done. rewrite (ci_held _ _ _ Hinv). unfold busyb.
    by destruct (payload_eq _ _ (Hothers j N)) as (-> & -> & ->).
Qed.

(** No request is in progress. *)
Definition idle s (d : sectors) : Prop :=
  sized s /\ idequeue s = None /\ havedisk1 s = true /\ hdisk (dev_hw s) = d.

Lemma cache_idle s d H : cache_inv s d H -> idle s d.
Proof. by intros []. Qed.

Lemma idle_updb s d i f : idle s d -> idle (updb i f s) d.
Proof. intros (? & ? & ? & ?). by split; [apply sized_updb|]. Qed.

Lemma idle_driving s d : idle s d -> driving s [] (unlinked <$> bufs s) d.
Proof.
  intros (Hs & Hq & _ & Hd). constructor; try done.
  - by rewrite length_fmap.
  - by apply NoDup_nil.
  - intros i b Hi. by apply not_elem_of_nil in Hi.
Qed.

(** [iderw] on an idle driver serves just its own request. *)
Definition transferred (d : sectors) (b : buf) : buf :=
  set_flags (served (b_flags b))
    (if tst (b_flags b) B_DIRTY then b else set_data (blk d (bkey b)) b).

Lemma iderw_idle_wp fuel s d i :
  (POLLS <= fuel)%nat -> idle s d -> (i < NBUF)%nat -> busyb (getb i s) = true ->
  servable (getb i s) ->
  wp (iderw fuel i) (fun _ s' =>
    idle s' (if tst (b_flags (getb i s)) B_DIRTY
             then <[bkey (getb i s) := b_data (getb i s)]> d else d) /\
    forall j, unlinked (getb j s') =
              unlinked (if decide (j = i) then transferred d (getb i s) else getb j s)) s.
Proof.
  intros Hfuel Hidle Hi Hbusy Hsv. pose proof Hidle as (Hs & _ & Hhave & _).
  assert (Hlk : (unlinked <$> bufs s) !! i = Some (unlinked (getb i s))).
  { rewrite list_lookup_fmap, lookup_getb by (unfold sized in Hs; lia). done. }
  eapply wp_mono; [eapply (iderw_wp fuel Hfuel i []); [by apply idle_driving| |exact Hlk|done|done|by right]|].
  { apply not_elem_of_nil. }
  intros [] s' [Hdr Hh]. cbn [foldl app] in Hdr. unfold serve in Hdr. rewrite Hlk in Hdr.
  assert (Hs' : sized s').
  { pose proof (dr_len _ _ _ _ Hdr) as Hl. by rewrite <- (dr_bufs _ _ _ _ Hdr), length_fmap in Hl. }
  assert (Hget : forall j l, unlinked <$> bufs s' = l -> unlinked (getb j s') = default null_buf (l !! j)).
  { intros j l <-. rewrite list_lookup_fmap. unfold getb. by destruct (bufs s' !! j). }
  assert (Hget0 : forall j, unlinked (getb j s) = default null_buf ((unlinked <$> bufs s) !! j)).
  { intros j. rewrite list_lookup_fmap. unfold getb. by destruct (bufs s !! j). }
  split.
  - split_and!; [done|exact (dr_chain _ _ _ _ Hdr)|congruence|].
    rewrite (dr_disk _ _ _ _ Hdr). simpl. by destruct (tst _ _).
  - intros j. rewrite (Hget j _ (dr_bufs _ _ _ _ Hdr)). unfold transferred.
    change (b_flags (unlinked (getb i s))) with (b_flags (getb i s)).
    destruct (decide (j = i)) as [->|N].
    + destruct (tst (b_flags (getb i s)) B_DIRTY); simpl; by rewrite list_lookup_alter_eq, Hlk.
    + rewrite Hget0. destruct (tst (b_flags (getb i s)) B_DIRTY); simpl;
        by rewrite list_lookup_alter_ne.
Qed.

Lemma unlinked_eq b b' : unlinked b = unlinked b' ->
  payload b = payload b' /\ b_next b = b_next b' /\ b_prev b = b_prev b'.
Proof. intros [= ? ? ? ? ? ?]. unfold payload. split_and!; congruence. Qed.

Lemma lru_unlinked s s' :
  (forall j, b_next (getb j s') = b_next (getb j s) /\ b_prev (getb j s') = b_prev (getb j s)) ->
  lru s -> lru s'.
Proof.
  intros Heq (o & Ho & Hp). exists o. split; [|done]. eapply dll_ext; [| |exact Ho]; intros j; apply Heq.
Qed.

Lemma order_elem order i : order ≡ₚ seq 0 NBUF -> i ∈ order <-> (i < NBUF)%nat.
Proof. intros ->. rewrite elem_of_seq. lia. Qed.

(** Some buffer is free when fewer than NBUF are held. *)
Lemma some_free s d H :
  cache_inv s d H -> (size H < NBUF)%nat -> exists i, (i < NBUF)%nat /\ busyb (getb i s) = false.
Proof.
  intros Hinv Hsz.
  destruct (decide (Exists (fun i => busyb (getb i s) = false) (seq 0 NBUF))) as [Hex|Hno].
  { apply Exists_exists in Hex as (i & Hi & Hb). apply elem_of_seq in Hi. exists i. split; [lia|done]. }
  exfalso. apply not_Exists_Forall in Hno; [|apply _]. rewrite Forall_forall in Hno.
  assert (Hsub : list_to_set (seq 0 NBUF) ⊆ dom H).
  { intros i Hi. apply elem_of_list_to_set in Hi. pose proof (Hno i Hi) as Hb.
    apply elem_of_seq in Hi. apply elem_of_dom. exists (bkey (getb i s), b_data (getb i s)).
    apply (ci_held _ _ _ Hinv). split_and!; try done; [lia|]. by apply not_false_is_true. }
  apply subseteq_size in Hsub. rewrite size_list_to_set, size_dom in Hsub by apply NoDup_seq.
  rewrite length_seq in Hsub. lia.
Qed.

(** A buffer that [bget] hands out. *)
Definition granted (d : sectors) (k : Z * Z) (b : buf) : Prop :=
  busyb b = true /\ bkey b = k /\ tst (b_flags b) B_DIRTY = false /\ length (b_data b) = BLEN /\
  (tst (b_flags b) B_VALID = true -> b_data b = blk d k).

Lemma busy_set_busy b : busyb (set_busy b) = true.
Proof. unfold busyb, set_busy. simpl. by autorewrite with flags. Qed.

Lemma bget_wp dev sector s d H :
  cache_inv s d H -> addressable (dev, sector) -> not_held H (dev, sector) -> (size H < NBUF)%nat ->
  wp (bget dev sector) (fun i s1 => (i < NBUF)%nat /\ busyb (getb i s) = false /\
    granted d (dev, sector) (getb i s1) /\
    (forall j, (j < NBUF)%nat -> j <> i -> bkey (getb j s) <> (dev, sector)) /\
    exists f, keeps_links f /\ s1 = updb i f s) s.
Proof.
  intros Hinv Ha Hnh Hsz. destruct (ci_lru _ _ _ Hinv) as (order & Hdll & Hperm).
  pose proof (fun i => order_elem order i Hperm) as Hin. pose proof (ci_sized _ _ _ Hinv) as Hs.
  assert (Hlen : (length order <= NBUF)%nat) by by rewrite Hperm, length_seq.
  unfold bget. wp_step. eapply wp_mono; [apply (bget_cached_wp dev sector order); try done|].
  { intros i Hi Hk. destruct (busyb (getb i s)) eqn:E; [|done].
    destruct (Hnh i (dev, sector) (b_data (getb i s))); [|done].
    apply (ci_held _ _ _ Hinv). split_and!; try done. by apply Hin. }
  intros [i|] s1.
  - intros (Hi%Hin & Hk & ->). wp_step. split; [done|].
    destruct (busyb (getb i s)) eqn:E.
    { destruct (Hnh i (dev, sector) (b_data (getb i s))); [|done]. by apply (ci_held _ _ _ Hinv). }
    rewrite getb_updb by (unfold sized in Hs; lia).
    destruct (ci_buf _ _ _ Hinv i Hi) as (H1 & H2 & H3 & H4 & H5).
    split_and!; [done| | |by exists set_busy].
    + split_and!; [apply busy_set_busy|done| |done|].
      * unfold set_busy. simpl. by autorewrite with flags.
      * unfold set_busy. simpl. autorewrite with flags. intros Hv. by rewrite <- Hk; apply H4.
    + intros j Hj N Hkj. apply N. symmetry. apply (ci_uniq _ _ _ Hinv); [done..|by rewrite Hk|congruence].
  - intros (-> & Hno). destruct (some_free _ _ _ Hinv Hsz) as (i0 & Hi0 & Hb0).
    eapply wp_mono; [apply (bget_fresh_wp dev sector order); try done; exists i0; by rewrite Hin|].
    intros i s' (-> & l1 & l2 & Horder & Hb & _).
    assert (Hi : i ∈ order) by (rewrite Horder; set_solver). apply Hin in Hi.
    split; [done|]. split; [done|]. rewrite getb_updb by (unfold sized in Hs; lia).
    destruct (ci_buf _ _ _ Hinv i Hi) as (H1 & _). split_and!.
    + by split_and!.
    + intros j Hj _. by apply Hno, Hin.
    + by exists (recycle dev sector).
Qed.

(** [bget] recycles the least recently used of the buffers that are not
    busy, and only when no buffer holds the sector; a cached sector's own
    buffer is handed out otherwise. *)
Theorem bget_lru dev sector s d H order :
  cache_inv s d H -> dll s order -> order ≡ₚ seq 0 NBUF -> not_held H (dev, sector) ->
  (size H < NBUF)%nat ->
  exists i s', bget dev sector s = Ok i s' /\
    ((bkey (getb i s) = (dev, sector) /\ s' = updb i set_busy s) \/
     ((forall j, (j < NBUF)%nat -> bkey (getb j s) <> (dev, sector)) /\
      s' = updb i (recycle dev sector) s /\ exists l1 l2, order = l1 ++ i :: l2 /\
      busyb (getb i s) = false /\ forall j, j ∈ l2 -> busyb (getb j s) = true)).
Proof.
  intros Hinv Hdll Hperm Hnh Hsz. pose proof (fun i => order_elem order i Hperm) as Hin.
  assert (Hlen : (length order <= NBUF)%nat) by by rewrite Hperm, length_seq.
  enough (Hwp : wp (bget dev sector) (fun i s' =>
    (bkey (getb i s) = (dev, sector) /\ s' = updb i set_busy s) \/
     ((forall j, (j < NBUF)%nat -> bkey (getb j s) <> (dev, sector)) /\
      s' = updb i (recycle dev sector) s /\ exists l1 l2, order = l1 ++ i :: l2 /\
      busyb (getb i s) = false /\ forall j, j ∈ l2 -> busyb (getb j s) = true)) s).
  { destruct (wp_elim _ _ _ Hwp) as (i & s' & ? & ?). eauto. }
  unfold bget. wp_step. eapply wp_mono; [apply (bget_cached_wp dev sector order); try done|].
  { intros i Hi Hk. destruct (busyb (getb i s)) eqn:E; [|done].
    destruct (Hnh i (dev, sector) (b_data (getb i s))); [|done].
    apply (ci_held _ _ _ Hinv). split_and!; try done. by apply Hin. }
  intros [i|] s1; [intros (_ & Hk & ->); wp_step; by left|].
  intros (-> & Hno). destruct (some_free _ _ _ Hinv Hsz) as (i0 & Hi0 & Hb0).
  eapply wp_mono; [apply (bget_fresh_wp dev sector order); try done; exists i0; by rewrite Hin|].
  intros i s' (-> & Hl). right. split; [|done]. intros j Hj. by apply Hno, Hin.
Qed.

Lemma not_held_free s d H i :
  cache_inv s d H -> busyb (getb i s) = false -> H !! i = None.
Proof.
  intros Hinv Hb. destruct (H !! i) as [[k dat]|] eqn:E; [|done].
  apply (ci_held _ _ _ Hinv) in E as (_ & Hb' & _). congruence.
Qed.

(** The invariant once the buffer handed out for [k] holds its data. *)
Lemma cache_inv_grant s s' d H i k :
  cache_inv s d H -> (i < NBUF)%nat -> busyb (getb i s) = false -> addressable k ->
  (forall j, (j < NBUF)%nat -> j <> i -> bkey (getb j s) <> k) ->
  idle s' d -> lru s' -> (forall j, j <> i -> payload (getb j s') = payload (getb j s)) ->
  granted d k (getb i s') -> tst (b_flags (getb i s')) B_VALID = true ->
  cache_inv s' d (<[i := (k, blk d k)]> H).
Proof.
  intros Hinv Hi Hb Ha Hu (Hs & Hq & Hh & Hd) Hl Ho (Hb' & Hk & Hdty & Hlen & Hv) Hval.
  specialize (Hv Hval).
  apply (cache_inv_update s s' d d H _ i); try done.
  - split_and!; try done; [by rewrite Hk|congruence].
  - by rewrite Hk.
  - apply (ci_blocks _ _ _ Hinv).
  - intros k' dat. rewrite lookup_insert_eq, Hk, Hv. naive_solver.
  - intros j Hj. by rewrite lookup_insert_ne.
Qed.

Lemma bread_wp fuel s d H dev sector :
  (POLLS <= fuel)%nat -> cache_inv s d H -> addressable (dev, sector) -> not_held H (dev, sector) ->
  (size H < NBUF)%nat ->
  wp (bread fuel dev sector) (fun i s' => H !! i = None /\
    cache_inv s' d (<[i := ((dev, sector), blk d (dev, sector))]> H)) s.
Proof.
  intros Hfuel Hinv Ha Hnh Hsz. unfold bread. wp_step. eapply wp_mono; [by apply (bget_wp _ _ s d H)|].
  intros i s1 (Hi & Hb & Hg & Hu & f & Hf & Hs1).
  assert (Hid : idle s1 d) by (subst s1; eapply idle_updb, cache_idle, Hinv).
  assert (Hl : lru s1).
  { destruct (ci_lru _ _ _ Hinv) as (o & Ho & Hp). exists o. split; [|done]. subst s1.
    apply dll_updb; [apply (ci_sized _ _ _ Hinv)|lia|done|done]. }
  assert (Ho : forall j, j <> i -> getb j s1 = getb j s) by (intros; subst s1; by apply getb_updb_ne).
  do 3 wp_step. wp_step; [apply negb_true_iff in H0|apply negb_false_iff in H0]; rename H0 into Hval.
  - pose proof Hg as (Hb1 & Hk1 & Hd1 & Hl1 & _).
    eapply wp_mono; [apply (iderw_idle_wp fuel s1 d i); try done|].
    { split_and!; [by rewrite ide_done_flags, Hval|by rewrite Hk1|done]. }
    intros [] s2 [Hid2 Hget]. rewrite Hd1 in Hid2. wp_step. split; [by eapply not_held_free|].
    assert (Hpay : forall j, payload (getb j s2) =
              payload (if decide (j = i) then transferred d (getb i s1) else getb j s1))
      by (intros j; apply unlinked_eq, Hget).
    eapply (cache_inv_grant s); try done.
    + apply (lru_unlinked s1); [|done]. intros j. pose proof (unlinked_eq _ _ (Hget j)) as (_ & -> & ->).
      unfold transferred. rewrite Hd1. by destruct (decide _) as [->|].
    + intros j Hj. rewrite Hpay. rewrite decide_False by done. by rewrite Ho.
    + pose proof (payload_eq _ _ (Hpay i)) as (Ef & Ek & Ed). rewrite decide_True in Ef, Ek, Ed by done.
      unfold transferred in Ef, Ek, Ed. rewrite Hd1 in Ef, Ek, Ed. simpl in Ef, Ek, Ed.
      unfold granted, busyb. rewrite Ef, Ek, Ed. unfold bkey in *. simpl.
      unfold served. autorewrite with flags. rewrite Hk1.
      split_and!; try done. apply (ci_blocks _ _ _ Hinv).
    + pose proof (payload_eq _ _ (Hpay i)) as (Ef & _). rewrite decide_True in Ef by done.
      rewrite Ef. unfold transferred. simpl. unfold served. by autorewrite with flags.
  - wp_step. split; [by eapply not_held_free|]. eapply (cache_inv_grant s); try done.
    intros j Hj. by rewrite Ho.
Qed.

Lemma held_buf s d H i k dat :
  cache_inv s d H -> H !! i = Some (k, dat) ->
  (i < NBUF)%nat /\ busyb (getb i s) = true /\ bkey (getb i s) = k /\ b_data (getb i s) = dat /\
  tst (b_flags (getb i s)) B_VALID = true /\ tst (b_flags (getb i s)) B_DIRTY = false /\
  addressable k /\ length dat = BLEN /\
  forall j, (j < NBUF)%nat -> j <> i -> bkey (getb j s) <> k.
Proof.
  intros Hinv Hh. pose proof (proj1 (ci_held _ _ _ Hinv _ _ _) Hh) as (Hi & Hb & Hk & Hd).
  destruct (ci_buf _ _ _ Hinv i Hi) as (H1 & H2 & H3 & _ & H5). specialize (H5 Hb). specialize (H3 H5).
  split_and!; try done; [by rewrite <- Hk|by rewrite <- Hd|].
  intros j Hj N Hkj. apply N. symmetry. apply (ci_uniq _ _ _ Hinv); try done. congruence.
Qed.

Lemma bset_inv s d H i k dat dat' :
  cache_inv s d H -> H !! i = Some (k, dat) -> length dat' = BLEN ->
  cache_inv (updb i (set_data dat') s) d (<[i := (k, dat')]> H).
Proof.
  intros Hinv Hh Hlen. destruct (held_buf _ _ _ _ _ _ Hinv Hh) as (Hi & Hb & Hk & Hd & Hv & Hdty & Ha & _ & Hu).
  pose proof (ci_sized _ _ _ Hinv) as Hs. assert (Hi' : (i < length (bufs s))%nat) by (unfold sized in Hs; lia).
  apply (cache_inv_update s _ d d H _ i); try done; try rewrite getb_updb by done.
  - by apply sized_updb.
  - destruct (ci_lru _ _ _ Hinv) as (o & Ho & Hp). exists o. split; [|done]. by apply dll_updb; [|lia| |].
  - apply (ci_queue _ _ _ Hinv).
  - apply (ci_have _ _ _ Hinv).
  - apply (ci_disk _ _ _ Hinv).
  - intros j Hj. by rewrite getb_updb_ne.
  - unfold buf_ok, busyb in *. simpl. rewrite Hb, Hv, Hdty. change (bkey (set_data dat' (getb i s))) with (bkey (getb i s)).
    rewrite Hk. by split_and!.
  - change (bkey (set_data dat' (getb i s))) with (bkey (getb i s)). by rewrite Hk.
  - apply (ci_blocks _ _ _ Hinv).
  - intros k' dat0. rewrite lookup_insert_eq. change (bkey (set_data dat' (getb i s))) with (bkey (getb i s)).
    rewrite Hk. unfold busyb in *. simpl. naive_solver.
  - intros j Hj. by rewrite lookup_insert_ne.
Qed.

Lemma bwrite_wp fuel s d H i k dat :
  (POLLS <= fuel)%nat -> cache_inv s d H -> H !! i = Some (k, dat) ->
  wp (bwrite fuel i) (fun _ s' => cache_inv s' (<[k := dat]> d) H) s.
Proof.
  intros Hfuel Hinv Hh. destruct (held_buf _ _ _ _ _ _ Hinv Hh) as (Hi & Hb & Hk & Hd & Hv & Hdty & Ha & Hlen & Hu).
  pose proof (ci_sized _ _ _ Hinv) as Hs. assert (Hi' : (i < length (bufs s))%nat) by (unfold sized in Hs; lia).
  unfold bwrite. do 2 wp_step. unfold busyb in Hb. rewrite Hb. cbv [negb]. do 2 wp_step.
  set (dirty := fun x => set_flags (Z.lor (b_flags x) B_DIRTY) x). set (s1 := updb i dirty s).
  assert (Hg1 : getb i s1 = dirty (getb i s)) by by apply getb_updb.
  assert (Ho1 : forall j, j <> i -> getb j s1 = getb j s) by (intros; by apply getb_updb_ne).
  assert (Hdt1 : tst (b_flags (getb i s1)) B_DIRTY = true).
  { rewrite Hg1. simpl. by autorewrite with flags. }
  assert (Hk1 : bkey (getb i s1) = k) by (by rewrite Hg1).
  assert (Hd1 : b_data (getb i s1) = dat) by (by rewrite Hg1).
  eapply wp_mono; [apply (iderw_idle_wp fuel s1 d i); try done|].
  - eapply idle_updb, cache_idle, Hinv.
  - rewrite Hg1. unfold busyb. simpl. by autorewrite with flags.
  - split_and!; [by rewrite ide_done_flags, Hdt1, andb_false_r|by rewrite Hk1|by rewrite Hd1].
  - intros [] s2 [(Hs2 & Hq2 & Hh2 & Hd2) Hget]. rewrite Hdt1, Hk1, Hd1 in Hd2.
    assert (Hpay : forall j, payload (getb j s2) =
              payload (if decide (j = i) then transferred d (getb i s1) else getb j s1))
      by (intros j; apply unlinked_eq, Hget).
    pose proof (payload_eq _ _ (Hpay i)) as (Ef & Ek & Ed). rewrite decide_True in Ef, Ek, Ed by done.
    unfold transferred in Ef, Ek, Ed. rewrite Hdt1 in Ef, Ek, Ed. simpl in Ef, Ek, Ed.
    change (bkey (set_flags (served (b_flags (getb i s1))) (getb i s1))) with (bkey (getb i s1)) in Ek.
    rewrite Hk1 in Ek. rewrite Hd1 in Ed. rewrite Hg1 in Ef. simpl in Ef.
    assert (Hlru : lru s2).
    { apply (lru_unlinked s1).
      - intros j. pose proof (unlinked_eq _ _ (Hget j)) as (_ & -> & ->).
        unfold transferred. rewrite Hdt1. by destruct (decide _) as [->|].
      - destruct (ci_lru _ _ _ Hinv) as (o & Ho & Hp). exists o. split; [|done]. by apply dll_updb; [|lia| |]. }
    apply (cache_inv_update s s2 d _ H _ i); try done.
    + intros j Hj. rewrite Hpay, decide_False by done. by rewrite Ho1.
    + unfold buf_ok, busyb. rewrite Ef, Ek, Ed. unfold served. autorewrite with flags. rewrite Hb.
      by split_and!.
    + intros j Hj N. rewrite Ek. by apply Hu.
    + intros k' Hk'. rewrite Ek in Hk'. by apply blk_insert_ne.
    + rewrite Ek. by rewrite blk_insert.
    + intros k' dat'. rewrite Hh. unfold busyb. rewrite Ef, Ek, Ed. unfold served.
      autorewrite with flags. rewrite Hb. naive_solver.
Qed.

Lemma payload_updb i f j s :
  (forall b, payload (f b) = payload b) -> payload (getb j (updb i f s)) = payload (getb j s).
Proof.
  intros Hf. destruct (decide (i = j)) as [->|]; [|by rewrite getb_updb_ne].
  unfold getb, updb. simpl. rewrite list_lookup_alter_eq. destruct (bufs s !! j); [apply Hf|done].
Qed.

Lemma payload_links b j s :
  payload (getb j (relink b (unlink b s))) = payload (getb j s).
Proof. unfold relink, unlink. by rewrite !payload_updb. Qed.

(** [brelse] moves the buffer to the front of the list and frees it. *)
Lemma brelse_lru_wp s b order :
  sized s -> dll s order -> b ∈ order -> busyb (getb b s) = true ->
  wp (brelse b) (fun _ s' => sized s' /\ idequeue s' = idequeue s /\ havedisk1 s' = havedisk1 s /\
    dev_hw s' = dev_hw s /\
    (exists l1 l2, order = l1 ++ b :: l2 /\ dll s' (b :: l1 ++ l2)) /\
    forall j, payload (getb j s') =
      payload (if decide (j = b) then set_flags (clr (b_flags (getb b s)) B_BUSY) (getb b s)
               else getb j s)) s.
Proof.
  intros Hs Hdll Hin Hbusy. apply list_elem_of_split in Hin as (l1 & l2 & ->).
  pose proof Hdll as (Hnd & Hlt & _). pose proof (dll_neighbours _ _ _ _ Hdll) as [Hnb Hpb].
  assert (Hb : (b < NBUF)%nat) by (apply Hlt; set_solver).
  assert (Hbno : b ∉ l1 ++ l2).
  { apply NoDup_cons in Hnd as [_ Hnd]. apply NoDup_app in Hnd as (_ & Hd & Hnd).
    apply NoDup_cons in Hnd as [Hb2 _]. rewrite not_elem_of_app. split; [|done].
    intros Hb1. apply (Hd _ Hb1). apply list_elem_of_here. }
  unfold brelse. do 2 wp_step. unfold busyb in Hbusy. rewrite Hbusy. cbv [negb].
  do 6 wp_step. unfold link_front. repeat wp_step.
  change (updb _ (set_next _) (updb _ (set_prev (b_prev (getb b s))) s)) with (unlink b s).
  match goal with |- context [updb b (fun x => _) ?t] => change t with (relink b (unlink b s)) end.
  assert (Hs1 : sized (unlink b s)) by by do 2 apply sized_updb.
  assert (Hs2 : sized (relink b (unlink b s))) by by do 4 apply sized_updb.
  pose proof (unlink_dll _ _ _ _ Hs Hdll) as Hd1.
  pose proof (relink_dll _ _ _ Hs1 Hb Hbno Hd1) as Hd2.
  split_and!; try done; [by apply sized_updb| |].
  - exists l1, l2. split; [done|]. by apply dll_updb; [|lia| |].
  - intros j. rewrite getb_updb_if by (done || lia).
    pose proof (payload_links b j s) as Hpl. destruct (decide (b = j)) as [<-|].
    + rewrite decide_True by done. apply payload_eq in Hpl as (Ef & Ek & Ed).
      unfold payload. simpl. rewrite Ef, Ed. unfold bkey in Ek. congruence.
    + by rewrite decide_False by done.
Qed.

Lemma brelse_wp s d H i k :
  cache_inv s d H -> H !! i = Some (k, blk d k) ->
  wp (brelse i) (fun _ s' => cache_inv s' d (delete i H)) s.
Proof.
  intros Hinv Hh. destruct (held_buf _ _ _ _ _ _ Hinv Hh) as (Hi & Hb & Hk & Hd & Hv & Hdty & Ha & Hlen & Hu).
  destruct (ci_lru _ _ _ Hinv) as (order & Hdll & Hperm).
  eapply wp_mono; [apply (brelse_lru_wp s i order); try done|].
  - apply (ci_sized _ _ _ Hinv).
  - by apply order_elem.
  - intros [] s' (Hs & Hq & Hhave & Hhw & (l1 & l2 & Ho & Hd') & Hpay).
    pose proof (payload_eq _ _ (Hpay i)) as (Ef & Ek & Ed). rewrite decide_True in Ef, Ek, Ed by done.
    simpl in Ef, Ed. unfold bkey in Ek. simpl in Ek. change (bkey (getb i s') = bkey (getb i s)) in Ek.
    assert (Hnb : busyb (getb i s') = false) by (unfold busyb; rewrite Ef; by autorewrite with flags).
    apply (cache_inv_update s s' d d H _ i); try done.
    + exists (i :: l1 ++ l2). split; [done|]. rewrite <- Hperm, Ho. apply Permutation_middle.
    + rewrite Hq. apply (ci_queue _ _ _ Hinv).
    + rewrite Hhave. apply (ci_have _ _ _ Hinv).
    + rewrite Hhw. apply (ci_disk _ _ _ Hinv).
    + intros j Hj. by rewrite Hpay, decide_False.
    + unfold buf_ok. rewrite Hnb, Ef, Ek, Ed, Hk, Hd. autorewrite with flags. by split_and!.
    + rewrite Ek, Hk. done.
    + rewrite Ek, Hk. apply (ci_blocks _ _ _ Hinv).
    + intros k' dat. rewrite lookup_delete_eq, Hnb. naive_solver.
    + intros j Hj. by rewrite lookup_delete_ne.
Qed.

(** ** The cache implements the block interface *)

Definition bio_ops (fuel : nat) : BlockOps ide := {|
  BlockDev.bread := bread fuel;
  BlockDev.bdata i s := b_data (getb i s);
  BlockDev.bset i dat := updb i (set_data dat);
  BlockDev.bwrite := bwrite fuel;
  BlockDev.brelse := brelse
|}.

#[global] Instance bio_spec : @BlockSpec ide (bio_ops POLLS).
Proof.
  refine (Build_BlockSpec ide (bio_ops POLLS) cache_inv NBUF _ _ _ _ _ _).
  - intros s d H k Hinv. apply (ci_blocks _ _ _ Hinv).
  - intros. by apply bread_wp.
  - intros s d H i k dat Hinv Hh. by apply (ci_held _ _ _ Hinv) in Hh as (_ & _ & _ & Hd).
  - apply bset_inv.
  - intros. by apply bwrite_wp.
  - apply brelse_wp.
Defined.
End Cache.

(** ** From boot on *)

Section Boot.
Context `{HA : Ata} `{HS : !AtaSpec}.

(** The zeroed [bcache] of the kernel's bss, once [ideinit] has found disk 1. *)
Definition boot (z : list Z) (h : hw) : ide :=
  Ide _ (replicate (S NBUF) (Buf 0 0 0 0 0 None z)) None true h.

(** The list [binit] builds: the last buffer first. *)
Definition boot_buf (z : list Z) (i : nat) : buf :=
  Buf 0 NODEV 0 (if (i =? 9)%nat then NBUF else S i) (if (i =? 0)%nat then NBUF else pred i) None z.
Definition booted (z : list Z) (h : hw) : ide :=
  Ide _ ((boot_buf z <$> seq 0 NBUF) ++ [Buf 0 0 0 0 9 None z]) None true h.

Lemma binit_booted z h : binit (boot z h) = Ok tt (booted z h).
Proof. reflexivity. Qed.

Lemma getb_booted z h i : (i < NBUF)%nat -> getb i (booted z h) = boot_buf z i.
Proof. intros Hi. do 10 (destruct i as [|i]; [reflexivity|]). unfold NBUF in Hi. lia. Qed.

Lemma booted_dll z h : dll (booted z h) (reverse (seq 0 NBUF)).
Proof.
  split_and!.
  - apply (bool_decide_unpack (NoDup (NBUF :: reverse (seq 0 NBUF)))). by vm_compute.
  - intros i Hi. rewrite elem_of_reverse, elem_of_seq in Hi. lia.
  - cbv. by split_and!.
  - rewrite reverse_involutive. cbv. by split_and!.
Qed.

Lemma binit_wp z h :
  length z = BLEN -> (forall k, length (blk (hdisk h) k) = BLEN) ->
  wp binit (fun _ s' => cache_inv s' (hdisk h) ∅) (boot z h).
Proof.
  intros Hz Hblk. eapply wp_intro; [apply binit_booted|].
  assert (Hna : forall i, (i < NBUF)%nat -> ~ addressable (bkey (getb i (booted z h)))).
  { intros i Hi [H1 _]. rewrite getb_booted in H1 by done.
    assert (NODEV = 2 ^ 32 - 1) as E by reflexivity. simpl in H1. lia. }
  constructor; try done.
  - exists (reverse (seq 0 NBUF)). split; [apply booted_dll|]. by rewrite reverse_Permutation.
  - intros i j Hi _ Ha. by destruct (Hna i Hi).
  - intros i Hi. rewrite getb_booted by done. by split_and!.
  - intros i k dat. rewrite lookup_empty. split; [done|]. intros (Hi & Hb & _).
    by rewrite getb_booted in Hb.
Qed.

(** The states a well-behaved client can reach, with the disk and the buffers
    that the interface shows it. *)
Inductive bio_run (fuel : nat) : ide -> sectors -> holds -> Prop :=
| run_boot z h s :
    length z = BLEN -> (forall k, length (blk (hdisk h) k) = BLEN) ->
    binit (boot z h) = Ok tt s -> bio_run fuel s (hdisk h) ∅
| run_read s d H dev sector i s' :
    bio_run fuel s d H -> addressable (dev, sector) -> not_held H (dev, sector) ->
    (size H < NBUF)%nat -> bread fuel dev sector s = Ok i s' ->
    bio_run fuel s' d (<[i := ((dev, sector), b_data (getb i s'))]> H)
| run_set s d H i k dat dat' :
    bio_run fuel s d H -> H !! i = Some (k, dat) -> length dat' = BLEN ->
    bio_run fuel (updb i (set_data dat') s) d (<[i := (k, dat')]> H)
| run_write s d H i k dat s' :
    bio_run fuel s d H -> H !! i = Some (k, dat) -> bwrite fuel i s = Ok tt s' ->
    bio_run fuel s' (<[k := dat]> d) H
| run_release s d H i k s' :
    bio_run fuel s d H -> H !! i = Some (k, blk d k) -> brelse i s = Ok tt s' ->
    bio_run fuel s' d (delete i H).

Lemma bread_data s d H i k dat : cache_inv s d (<[i := (k, dat)]> H) -> b_data (getb i s) = dat.
Proof.
  intros Hinv. assert (E : <[i := (k, dat)]> H !! i = Some (k, dat)) by apply lookup_insert_eq.
  by apply (ci_held _ _ _ Hinv) in E as (_ & _ & _ & E).
Qed.

Lemma bio_run_inv fuel s d H : (POLLS <= fuel)%nat -> bio_run fuel s d H -> cache_inv s d H.
Proof.
  intros Hfuel. induction 1 as [z h s Hz Hb Hrun|s d H dev sector i s' _ IH Ha Hn Hs Hrun
    |s d H i k dat dat' _ IH Hh Hl|s d H i k dat s' _ IH Hh Hrun|s d H i k s' _ IH Hh Hrun].
  - exact (wp_run _ _ _ _ _ (binit_wp z h Hz Hb) Hrun).
  - destruct (wp_run _ _ _ _ _ (bread_wp fuel s d H _ _ Hfuel IH Ha Hn Hs) Hrun) as [_ Hinv].
    by rewrite (bread_data _ _ _ _ _ _ Hinv).
  - by eapply bset_inv.
  - exact (wp_run _ _ _ _ _ (bwrite_wp fuel s d H i k dat Hfuel IH Hh) Hrun).
  - exact (wp_run _ _ _ _ _ (brelse_wp s d H i k IH Hh) Hrun).
Qed.
End Boot.


(** The cache just initialised, on an empty simulated disk. *)
Definition sim_booted : ide := booted (HA := SimAta.sim_ata) zero_block (SimAta.sim0 ∅).

Lemma sim_boot_run : bio_run 3 sim_booted ∅ ∅.
Proof.
  apply (run_boot (HS := SimAta.sim_ata_spec) 3 zero_block (SimAta.sim0 ∅)); [done| |done].
  intros k. unfold blk. simpl. by rewrite lookup_empty.
Qed.


Lemma bget_lru_witness :
  exists i s', bget 1 7 sim_booted = Ok i s' /\
    ((bkey (getb i sim_booted) = (1, 7) /\ s' = updb i set_busy sim_booted) \/
     ((forall j, (j < NBUF)%nat -> bkey (getb j sim_booted) <> (1, 7)) /\
      s' = updb i (recycle 1 7) sim_booted /\ exists l1 l2, reverse (seq 0 NBUF) = l1 ++ i :: l2 /\
      busyb (getb i sim_booted) = false /\ forall j, j ∈ l2 -> busyb (getb j sim_booted) = true)).
Proof.
  assert (Hinv : cache_inv sim_booted ∅ ∅)
    by exact (bio_run_inv (HS := SimAta.sim_ata_spec) 3 _ _ _ (le_n 3) sim_boot_run).
  apply (bget_lru 1 7 sim_booted ∅ ∅ (reverse (seq 0 NBUF)) Hinv (booted_dll _ _)
           (reverse_Permutation _) (not_held_empty _)).
  vm_compute. lia.
Defined.
