(* ===== verification/Fs.v ===== *)
(** * The file system's operations: [src/fs.c], [src/fs.h], [src/file.h]

    The four layers of [fs.c] (blocks, inodes, directories, paths) over the
    block interface of [BlockDev].  The state [fs] is the block layer's state
    and the inode cache; a [struct inode *] is an index into the cache.  A
    buffer's data are read with [bdata] and changed with [bupd] between [bread]
    and [brelse], as the code uses [bp->data].

    [ilock] on an inode that is locked ends in [Sleep]: the caller waits for
    another process and starts the [while] loop again.  [wakeup] has no effect
    on this state. *)

From stdpp Require Import base numbers strings list gmap.
From Stdlib Require Import Lia ZArith ZifyBool.
From S2P Require Import Prelude CString Ide BlockDev.
Open Scope Z_scope.

(** ** fs.h, stat.h, file.h *)

Definition ROOTDEV : Z := 1.
Definition ROOTINO : Z := 1.
Definition NDIRECT : Z := 12.
Definition NINDIRECT : Z := BSIZE / 4.
Definition MAXFILE : Z := NDIRECT + NINDIRECT.
Definition IPB : Z := BSIZE / 64.
Definition BPB : Z := BSIZE * 8.
Definition IBLOCK (i : Z) : Z := i / IPB + 2.
Definition BBLOCK (b ninodes : Z) : Z := b / BPB + ninodes / IPB + 3.
Definition DIRSIZ : nat := 14.
Definition DIRENT : nat := 16.

Definition T_DIR : Z := 1.
Definition T_FILE : Z := 2.
Definition T_DEV : Z := 3.

Definition NINODE : nat := 50.
Definition NDEV : Z := 10.
Definition I_BUSY : Z := 1.
Definition I_VALID : Z := 2.

(** The constants as numerals, for arithmetic. *)
Ltac fs_consts :=
  change IPB with 8 in *; change BPB with 4096 in *; change NINDIRECT with 128 in *;
  change MAXFILE with 140 in *; change NDIRECT with 12 in *; change BSIZE with 512 in *.
Ltac fs_lia := fs_consts; Z.div_mod_to_equations; lia.

Record superblock := Superblock { sb_size : Z; sb_nblocks : Z; sb_ninodes : Z }.

Record inode := Inode {
  i_dev : Z;
  i_inum : Z;
  i_ref : Z;
  i_flags : Z;
  i_type : Z;
  i_major : Z;
  i_minor : Z;
  i_nlink : Z;
  i_size : Z;
  i_addrs : list Z
}.

Record stat := Stat { st_type : Z; st_dev : Z; st_ino : Z; st_nlink : Z; st_size : Z }.

Definition set_iflags (f : Z) (ip : inode) : inode :=
  Inode (i_dev ip) (i_inum ip) (i_ref ip) f (i_type ip) (i_major ip) (i_minor ip) (i_nlink ip)
        (i_size ip) (i_addrs ip).
Definition set_iref (r : Z) (ip : inode) : inode :=
  Inode (i_dev ip) (i_inum ip) r (i_flags ip) (i_type ip) (i_major ip) (i_minor ip) (i_nlink ip)
        (i_size ip) (i_addrs ip).
Definition set_itype (t : Z) (ip : inode) : inode :=
  Inode (i_dev ip) (i_inum ip) (i_ref ip) (i_flags ip) t (i_major ip) (i_minor ip) (i_nlink ip)
        (i_size ip) (i_addrs ip).
Definition set_isize (n : Z) (ip : inode) : inode :=
  Inode (i_dev ip) (i_inum ip) (i_ref ip) (i_flags ip) (i_type ip) (i_major ip) (i_minor ip)
        (i_nlink ip) n (i_addrs ip).
Definition set_iaddrs (a : list Z) (ip : inode) : inode :=
  Inode (i_dev ip) (i_inum ip) (i_ref ip) (i_flags ip) (i_type ip) (i_major ip) (i_minor ip)
        (i_nlink ip) (i_size ip) a.
Definition addr_at (ip : inode) (bn : Z) : Z := default 0 (i_addrs ip !! Z.to_nat bn).
Definition set_addr (bn a : Z) (ip : inode) : inode :=
  set_iaddrs (<[Z.to_nat bn := a]> (i_addrs ip)) ip.

Definition null_inode : inode := Inode 0 0 0 0 0 0 0 0 0 [].

(** ** The on-disk inode *)

(** Byte offset of inode [inum] in its block, and of the fields in it. *)
Definition dinode_off (inum : Z) : nat := Z.to_nat (64 * (inum mod IPB)).

Definition dip_type (data : list Z) (off : nat) : Z := s16 (ldw 2 data off).

(** ip->addrs and dip->addrs as bytes. *)
Definition addrs_enc (a : list Z) : list Z := a ≫= le_enc 4.
Definition addrs_dec (data : list Z) (off : nat) : list Z :=
  (fun i => ldw 4 data (off + 4 * i)) <$> seq 0 13.

(** ilock's copy of a dinode into the inode, and iupdate's copy back. *)
Definition load_dinode (data : list Z) (off : nat) (ip : inode) : inode :=
  Inode (i_dev ip) (i_inum ip) (i_ref ip) (i_flags ip)
        (dip_type data off) (s16 (ldw 2 data (off + 2))) (s16 (ldw 2 data (off + 4)))
        (s16 (ldw 2 data (off + 6))) (ldw 4 data (off + 8)) (addrs_dec data (off + 12)).
Definition store_dinode (ip : inode) (off : nat) (data : list Z) : list Z :=
  splice (off + 12) (addrs_enc (i_addrs ip))
    (stw 4 (off + 8) (i_size ip) (stw 2 (off + 6) (i_nlink ip) (stw 2 (off + 4) (i_minor ip)
      (stw 2 (off + 2) (i_major ip) (stw 2 off (i_type ip) data))))).

(** ** Bits of a bitmap block *)

Definition byte_at (data : list Z) (i : Z) : Z := default 0 (data !! Z.to_nat i).
Definition bit_mask (bi : Z) : Z := Z.shiftl 1 (bi mod 8).
Definition bit_free (data : list Z) (bi : Z) : bool :=
  Z.land (byte_at data (bi / 8)) (bit_mask bi) =? 0.
Definition set_bit (bi : Z) (data : list Z) : list Z :=
  <[Z.to_nat (bi / 8) := Z.lor (byte_at data (bi / 8)) (bit_mask bi)]> data.
Definition clear_bit (bi : Z) (data : list Z) : list Z :=
  <[Z.to_nat (bi / 8) := clr (byte_at data (bi / 8)) (bit_mask bi)]> data.

(** for(bi = 0; bi < BPB; bi++) ... if free: the first free bit. *)
Fixpoint find_free (n : nat) (bi : Z) (data : list Z) : option Z :=
  match n with
  | O => None
  | S n => if bit_free data bi then Some bi else find_free n (bi + 1) data
  end.

(** ** Directory entries *)

Definition de_inum (data : list Z) (k : nat) : Z := ldw 2 data (DIRENT * k).
Definition de_name (data : list Z) (k : nat) : list Z := slice (DIRENT * k + 2) DIRSIZ data.

Definition namecmp (s t : list Z) : Z := Kernel.strncmp (view s) (view t) DIRSIZ.

(** for(de = bp->data; de < bp->data + BSIZE; de++): the entry that matches. *)
Fixpoint scan_dirents (n k : nat) (name data : list Z) : option nat :=
  match n with
  | O => None
  | S n => if de_inum data k =? 0 then scan_dirents n (S k) name data
           else if namecmp name (de_name data k) =? 0 then Some k
           else scan_dirents n (S k) name data
  end.

(** ** Paths *)

(** A path is the bytes before its NUL; [*path] of the empty path is 0. *)
Definition SLASH : Z := 47.

Fixpoint skip_slashes (path : list Z) : list Z :=
  match path with
  | c :: path' => if c =? SLASH then skip_slashes path' else path
  | [] => []
  end.

(** while( *path != '/' && *path != 0) path++: the element and what follows. *)
Fixpoint split_elem (path : list Z) : list Z * list Z :=
  match path with
  | c :: path' => if c =? SLASH then ([], path)
                  else let '(e, rest) := split_elem path' in (c :: e, rest)
  | [] => ([], [])
  end.

(** [name] keeps the bytes of its [DIRSIZ] that are not written. *)
Definition skipelem (path name : list Z) : option (list Z * list Z) :=
  let path := skip_slashes path in
  match path with
  | [] => None
  | _ :: _ =>
      let '(s, path) := split_elem path in
      let name := if (DIRSIZ <=? length s)%nat then splice 0 (take DIRSIZ s) name
                  else splice (length s) [0] (splice 0 s name) in
      Some (skip_slashes path, name)
  end.

(** ** The operations *)

Record fs (S : Type) := MkFs { io : S; icache : list inode }.
Arguments MkFs {S} io icache.
Arguments io {S} f.
Arguments icache {S} f.

Section Ops.
Context {S : Type} `{HB : !BlockOps S}.
Abbreviation Fs := (M (fs S)).

(** devsw[major].read and .write, [None] when the entry is null. *)
Context (dev_read : Z -> option (nat -> Z -> Fs (Z * list Z))).
Context (dev_write : Z -> option (nat -> list Z -> Z -> Fs Z)).

Definition on_io {A} (m : M S A) : Fs A := zoom io (fun t s => MkFs t (icache s)) m.
Definition data_of (bp : nat) : Fs (list Z) := gets (fun s => bdata bp (io s)).
Definition bupd (bp : nat) (f : list Z -> list Z) : Fs unit :=
  modify (fun s => MkFs (bset bp (f (bdata bp (io s))) (io s)) (icache s)).
Definition bread_ (dev sector : Z) : Fs nat := on_io (bread dev sector).
Definition bwrite_ (bp : nat) : Fs unit := on_io (bwrite bp).
Definition brelse_ (bp : nat) : Fs unit := on_io (brelse bp).

Definition geti (i : nat) : Fs inode := gets (fun s => default null_inode (icache s !! i)).
Definition updi (i : nat) (f : inode -> inode) : Fs unit :=
  modify (fun s => MkFs (io s) (alter f i (icache s))).

Definition readsb (dev : Z) : Fs superblock :=
  bp ← bread_ dev 1;
  d ← data_of bp;
  _ ← brelse_ bp;
  mret (Superblock (ldw 4 d 0) (ldw 4 d 4) (ldw 4 d 8)).

Definition bzero (dev bno : Z) : Fs unit :=
  bp ← bread_ dev bno;
  _ ← bupd bp (fun _ => replicate BLEN 0);
  _ ← bwrite_ bp;
  brelse_ bp.

Definition balloc (dev : Z) : Fs Z :=
  sb ← readsb dev;
  loop (Z.to_nat (sb_size sb / BPB) + 2) (fun b : Z =>
    if b <? sb_size sb then
      bp ← bread_ dev (BBLOCK b (sb_ninodes sb));
      d ← data_of bp;
      match find_free (Z.to_nat BPB) 0 d with
      | Some bi =>
          _ ← bupd bp (set_bit bi);
          _ ← bwrite_ bp;
          _ ← brelse_ bp;
          mret (inr (u32 (b + bi)))
      | None =>
          _ ← brelse_ bp;
          mret (inl (u32 (b + BPB)))
      end
    else panic "balloc: out of blocks") 0.

Definition bfree (dev b : Z) : Fs unit :=
  _ ← bzero dev b;
  sb ← readsb dev;
  bp ← bread_ dev (BBLOCK b (sb_ninodes sb));
  d ← data_of bp;
  let bi := b mod BPB in
  if bit_free d bi then panic "freeing free block" else
  _ ← bupd bp (clear_bit bi);
  _ ← bwrite_ bp;
  brelse_ bp.

(** Cached inode, or the first slot with no reference. *)
Definition iget (dev inum : Z) : Fs nat :=
  ic ← gets icache;
  match list_find (fun ip => (0 <? i_ref ip) && (i_dev ip =? dev) && (i_inum ip =? inum)) ic with
  | Some (i, _) => _ ← updi i (fun ip => set_iref (i_ref ip + 1) ip); mret i
  | None =>
      match list_find (fun ip => i_ref ip =? 0) ic with
      | None => panic "iget: no inodes"
      | Some (i, _) =>
          _ ← updi i (fun ip => Inode dev inum 1 0 (i_type ip) (i_major ip) (i_minor ip)
                                      (i_nlink ip) (i_size ip) (i_addrs ip));
          mret i
      end
  end.

Definition ialloc (dev type : Z) : Fs nat :=
  sb ← readsb dev;
  loop (Z.to_nat (sb_ninodes sb) + 1) (fun inum : Z =>
    if inum <? sb_ninodes sb then
      bp ← bread_ dev (IBLOCK inum);
      d ← data_of bp;
      if dip_type d (dinode_off inum) =? 0 then
        _ ← bupd bp (fun d => stw 2 (dinode_off inum) type
                                (splice (dinode_off inum) (replicate 64 0) d));
        _ ← bwrite_ bp;
        _ ← brelse_ bp;
        i ← iget dev inum;
        mret (inr i)
      else
        _ ← brelse_ bp;
        mret (inl (inum + 1))
    else panic "ialloc: no inodes") 1.

Definition iupdate (i : nat) : Fs unit :=
  ip ← geti i;
  bp ← bread_ (i_dev ip) (IBLOCK (i_inum ip));
  _ ← bupd bp (store_dinode ip (dinode_off (i_inum ip)));
  _ ← bwrite_ bp;
  brelse_ bp.

Definition idup (i : nat) : Fs nat :=
  _ ← updi i (fun ip => set_iref (i_ref ip + 1) ip);
  mret i.

Definition ilock (i : nat) : Fs unit :=
  ip ← geti i;
  if i_ref ip <? 1 then panic "ilock" else
  if tst (i_flags ip) I_BUSY then sleep_on (ChanInode i) else
  _ ← updi i (fun ip => set_iflags (Z.lor (i_flags ip) I_BUSY) ip);
  if tst (i_flags ip) I_VALID then mret tt else
  bp ← bread_ (i_dev ip) (IBLOCK (i_inum ip));
  d ← data_of bp;
  _ ← updi i (load_dinode d (dinode_off (i_inum ip)));
  _ ← brelse_ bp;
  _ ← updi i (fun ip => set_iflags (Z.lor (i_flags ip) I_VALID) ip);
  ip ← geti i;
  when (i_type ip =? 0) (panic "ilock: no type").

Definition iunlock (i : nat) : Fs unit :=
  ip ← geti i;
  if negb (tst (i_flags ip) I_BUSY) || (i_ref ip <? 1) then panic "iunlock" else
  updi i (fun ip => set_iflags (clr (i_flags ip) I_BUSY) ip).

(** ** Inode contents *)

Definition bmap (i : nat) (bn : Z) : Fs Z :=
  ip ← geti i;
  if bn <? NDIRECT then
    let addr := addr_at ip bn in
    if addr =? 0 then
      addr ← balloc (i_dev ip);
      _ ← updi i (set_addr bn addr);
      mret addr
    else mret addr
  else
  let bn := bn - NDIRECT in
  if bn <? NINDIRECT then
    let addr := addr_at ip NDIRECT in
    addr ← (if addr =? 0 then
              addr ← balloc (i_dev ip);
              _ ← updi i (set_addr NDIRECT addr);
              mret addr
            else mret addr);
    bp ← bread_ (i_dev ip) addr;
    a ← data_of bp;
    let addr := ldw 4 a (Z.to_nat (4 * bn)) in
    addr ← (if addr =? 0 then
              addr ← balloc (i_dev ip);
              _ ← bupd bp (stw 4 (Z.to_nat (4 * bn)) addr);
              _ ← bwrite_ bp;
              mret addr
            else mret addr);
    _ ← brelse_ bp;
    mret addr
  else panic "bmap: out of range".

Definition itrunc (i : nat) : Fs unit :=
  _ ← loop 13 (fun k : Z =>
        if k <? NDIRECT then
          ip ← geti i;
          _ ← when (negb (addr_at ip k =? 0))
                (_ ← bfree (i_dev ip) (addr_at ip k); updi i (set_addr k 0));
          mret (inl (k + 1))
        else mret (inr tt)) 0;
  ip ← geti i;
  _ ← when (negb (addr_at ip NDIRECT =? 0))
        (bp ← bread_ (i_dev ip) (addr_at ip NDIRECT);
         _ ← loop 129 (fun j : Z =>
               if j <? NINDIRECT then
                 a ← data_of bp;
                 _ ← when (negb (ldw 4 a (Z.to_nat (4 * j)) =? 0))
                       (bfree (i_dev ip) (ldw 4 a (Z.to_nat (4 * j))));
                 mret (inl (j + 1))
               else mret (inr tt)) 0;
         _ ← brelse_ bp;
         _ ← bfree (i_dev ip) (addr_at ip NDIRECT);
         updi i (set_addr NDIRECT 0));
  _ ← updi i (set_isize 0);
  iupdate i.

Definition iput (i : nat) : Fs unit :=
  ip ← geti i;
  _ ← when ((i_ref ip =? 1) && tst (i_flags ip) I_VALID && (i_nlink ip =? 0))
        (if tst (i_flags ip) I_BUSY then panic "iput busy" else
         _ ← updi i (fun ip => set_iflags (Z.lor (i_flags ip) I_BUSY) ip);
         _ ← itrunc i;
         _ ← updi i (set_itype 0);
         _ ← iupdate i;
         updi i (set_iflags 0));
  updi i (fun ip => set_iref (i_ref ip - 1) ip).

Definition iunlockput (i : nat) : Fs unit :=
  _ ← iunlock i;
  iput i.

Definition stati (i : nat) : Fs stat :=
  ip ← geti i;
  mret (Stat (i_type ip) (i_dev ip) (i_inum ip) (i_nlink ip) (i_size ip)).

(** Enough rounds for [n] bytes, the first and last blocks being partial. *)
Definition io_fuel (n : Z) : nat := Z.to_nat (n / BSIZE) + 3.

(** The return value, and the bytes stored to [dst]. *)
Definition readi (i : nat) (off n : Z) : Fs (Z * list Z) :=
  ip ← geti i;
  if i_type ip =? T_DEV then
    if (i_major ip <? 0) || (NDEV <=? i_major ip) then mret (-1, []) else
    match dev_read (i_major ip) with
    | None => mret (-1, [])
    | Some f => f i n
    end
  else if (i_size ip <? off) || (u32 (off + n) <? off) then mret (-1, []) else
  let n := if i_size ip <? u32 (off + n) then u32 (i_size ip - off) else n in
  dst ← loop (io_fuel n) (fun st : Z * Z * list Z =>
          let '(tot, off, dst) := st in
          if tot <? n then
            b ← bmap i (off / BSIZE);
            bp ← bread_ (i_dev ip) b;
            let m := Z.min (n - tot) (BSIZE - off mod BSIZE) in
            d ← data_of bp;
            let chunk := slice (Z.to_nat (off mod BSIZE)) (Z.to_nat m) d in
            _ ← brelse_ bp;
            mret (inl (u32 (tot + m), u32 (off + m), dst ++ chunk))
          else mret (inr dst)) (0, off, []);
  mret (n, dst).

Definition writei (i : nat) (src : list Z) (off n : Z) : Fs Z :=
  ip ← geti i;
  if i_type ip =? T_DEV then
    if (i_major ip <? 0) || (NDEV <=? i_major ip) then mret (-1) else
    match dev_write (i_major ip) with
    | None => mret (-1)
    | Some f => f i src n
    end
  else if (i_size ip <? off) || (u32 (off + n) <? off) then mret (-1) else
  let n := if MAXFILE * BSIZE <? u32 (off + n) then u32 (MAXFILE * BSIZE - off) else n in
  off ← loop (io_fuel n) (fun st : Z * Z =>
          let '(tot, off) := st in
          if tot <? n then
            b ← bmap i (off / BSIZE);
            bp ← bread_ (i_dev ip) b;
            let m := Z.min (n - tot) (BSIZE - off mod BSIZE) in
            _ ← bupd bp (splice (Z.to_nat (off mod BSIZE)) (slice (Z.to_nat tot) (Z.to_nat m) src));
            _ ← bwrite_ bp;
            _ ← brelse_ bp;
            mret (inl (u32 (tot + m), u32 (off + m)))
          else mret (inr off)) (0, off);
  ip ← geti i;
  _ ← when ((0 <? n) && (i_size ip <? off)) (_ ← updi i (set_isize off); iupdate i);
  mret n.

(** ** Directories *)

(** The inode found and the offset of its entry. *)
Definition dirlookup (dp : nat) (name : list Z) : Fs (option (nat * Z)) :=
  ip ← geti dp;
  if negb (i_type ip =? T_DIR) then panic "dirlookup not DIR" else
  loop (io_fuel (i_size ip)) (fun off : Z =>
    if off <? i_size ip then
      b ← bmap dp (off / BSIZE);
      bp ← bread_ (i_dev ip) b;
      d ← data_of bp;
      match scan_dirents (Z.to_nat (BSIZE / 16)) 0 name d with
      | Some k =>
          _ ← brelse_ bp;
          j ← iget (i_dev ip) (de_inum d k);
          mret (inr (Some (j, u32 (off + 16 * Z.of_nat k))))
      | None =>
          _ ← brelse_ bp;
          mret (inl (u32 (off + BSIZE)))
      end
    else mret (inr None)) 0.

(** struct dirent with the name padded by [strncpy]. *)
Definition mk_dirent (name : list Z) (inum : Z) : list Z :=
  le_enc 2 inum ++ padded DIRSIZ (cstrn (view name) DIRSIZ).

Definition dirlink (dp : nat) (name : list Z) (inum : Z) : Fs Z :=
  r ← dirlookup dp name;
  match r with
  | Some (i, _) => _ ← iput i; mret (-1)
  | None =>
      ip ← geti dp;
      off ← loop (Z.to_nat (i_size ip / 16) + 2) (fun off : Z =>
              if off <? i_size ip then
                '(r, de) ← readi dp off 16;
                if negb (r =? 16) then panic "dirlink read" else
                if ldw 2 de 0 =? 0 then mret (inr off) else mret (inl (u32 (off + 16)))
              else mret (inr off)) 0;
      r ← writei dp (mk_dirent name inum) off 16;
      if negb (r =? 16) then panic "dirlink" else mret 0
  end.

(** ** Path lookup *)

(** One round of the loop over the path's elements: a next state, or the inode
    found, the contents of [name], and whether the loop was left by a return. *)
Definition namex_round (parent : bool) (st : nat * list Z * list Z)
    : Fs (nat * list Z * list Z + option nat * list Z * bool) :=
  let '(ip, path, name) := st in
  match skipelem path name with
  | None => mret (inr (Some ip, name, false))
  | Some (path, name) =>
      _ ← ilock ip;
      x ← geti ip;
      if negb (i_type x =? T_DIR) then
        _ ← iunlockput ip; mret (inr (None, name, true))
      else if parent && (default 0 (head path) =? 0) then
        _ ← iunlock ip; mret (inr (Some ip, name, true))
      else
        next ← dirlookup ip name;
        match next with
        | None => _ ← iunlockput ip; mret (inr (None, name, true))
        | Some (j, _) => _ ← iunlockput ip; mret (inl (j, path, name))
        end
  end.

(** [cwd] is proc->cwd; the inode found and the last contents of [name]. *)
Definition namex (cwd : nat) (path : list Z) (parent : bool) (name : list Z)
    : Fs (option nat * list Z) :=
  ip ← (if default 0 (head path) =? SLASH then iget ROOTDEV ROOTINO else idup cwd);
  '(ip, name, stop) ← loop (length path + 2) (namex_round parent) (ip, path, name);
  match ip with
  | Some i => if parent && negb stop then _ ← iput i; mret (None, name) else mret (ip, name)
  | None => mret (None, name)
  end.

Definition namei (cwd : nat) (path : list Z) : Fs (option nat) :=
  '(ip, _) ← namex cwd path false (replicate DIRSIZ 0);
  mret ip.

Definition nameiparent (cwd : nat) (path name : list Z) : Fs (option nat * list Z) :=
  namex cwd path true name.
End Ops.
