(* ===== verification/FsAlloc.v ===== *)
(** * The block allocator of [src/fs.c]: readsb, bzero, balloc, bfree

    First the rules for the block operations as the file system uses them,
    then the free bitmap as a set of blocks, and what [balloc] and [bfree] do
    to it. *)

From stdpp Require Import base numbers strings list gmap list_numbers.
From Stdlib Require Import Lia ZArith ZifyBool.
From S2P Require Import Prelude Ide BlockDev Fs.
Open Scope Z_scope.

Section Rules.
Context {S : Type} `{HB : !BlockOps S} `{HS : !BlockSpec S}.
Implicit Types (x : fs S) (d : sectors) (H : holds) (ic : list inode).

(** The file system's view of its state: the disk, the buffers out, the cache. *)
Definition at_fs x d H ic : Prop := bstate (io x) d H /\ icache x = ic.

Lemma bread__wp x d H ic dev sector (Q : nat -> fs S -> Prop) :
  at_fs x d H ic -> addressable (dev, sector) -> not_held H (dev, sector) -> (size H < bcap)%nat ->
  (forall bp x', H !! bp = None ->
     at_fs x' d (<[bp := ((dev, sector), blk d (dev, sector))]> H) ic -> Q bp x') ->
  wp (bread_ dev sector) Q x.
Proof.
  intros [Hb Hi] Ha Hn Hs HQ. unfold bread_, on_io. wp_step.
  eapply wp_mono; [by apply bread_spec|]. intros bp t [Hbp Ht]. by apply HQ.
Qed.

Lemma data_of_wp x d H ic bp k dat (Q : list Z -> fs S -> Prop) :
  at_fs x d H ic -> H !! bp = Some (k, dat) -> Q dat x -> wp (data_of bp) Q x.
Proof.
  intros [Hb _] Hh HQ. unfold data_of. wp_step. by rewrite (bdata_spec _ _ _ _ _ _ Hb Hh).
Qed.

Lemma bupd_wp x d H ic bp k dat f (Q : unit -> fs S -> Prop) :
  at_fs x d H ic -> H !! bp = Some (k, dat) -> length (f dat) = BLEN ->
  (forall x', at_fs x' d (<[bp := (k, f dat)]> H) ic -> Q tt x') ->
  wp (bupd bp f) Q x.
Proof.
  intros [Hb Hi] Hh Hl HQ. unfold bupd. wp_step. apply HQ.
  rewrite (bdata_spec _ _ _ _ _ _ Hb Hh). split; [|done]. by eapply bset_spec.
Qed.

Lemma bwrite__wp x d H ic bp k dat (Q : unit -> fs S -> Prop) :
  at_fs x d H ic -> H !! bp = Some (k, dat) ->
  (forall x', at_fs x' (<[k := dat]> d) H ic -> Q tt x') -> wp (bwrite_ bp) Q x.
Proof.
  intros [Hb Hi] Hh HQ. unfold bwrite_, on_io. wp_step.
  eapply wp_mono; [by eapply bwrite_spec|]. intros [] t Ht. by apply HQ.
Qed.

Lemma brelse__wp x d H ic bp k dat (Q : unit -> fs S -> Prop) :
  at_fs x d H ic -> H !! bp = Some (k, dat) -> dat = blk d k ->
  (forall x', at_fs x' d (delete bp H) ic -> Q tt x') -> wp (brelse_ bp) Q x.
Proof.
  intros [Hb Hi] Hh -> HQ. unfold brelse_, on_io. wp_step.
  eapply wp_mono; [by eapply brelse_spec|]. intros [] t Ht. by apply HQ.
Qed.

Lemma geti_wp x d H ic i ip (Q : inode -> fs S -> Prop) :
  at_fs x d H ic -> ic !! i = Some ip -> Q ip x -> wp (geti i) Q x.
Proof. intros [_ Hi] Hip HQ. unfold geti. wp_step. by rewrite Hi, Hip. Qed.

Lemma updi_wp x d H ic i f (Q : unit -> fs S -> Prop) :
  at_fs x d H ic -> (forall x', at_fs x' d H (alter f i ic) -> Q tt x') -> wp (updi i f) Q x.
Proof. intros [Hb Hi] HQ. unfold updi. wp_step. apply HQ. by rewrite Hi. Qed.

Lemma at_fs_blk x d H ic k : at_fs x d H ic -> length (blk d k) = BLEN.
Proof. intros [Hb _]. by eapply blk_length. Qed.

Lemma size_insert_fresh H bp v : H !! bp = None -> size (<[bp := v]> H) = Datatypes.S (size H).
Proof. apply map_size_insert_None. Qed.

(** Read a block, and put it back unchanged: the disk and [H] are as before. *)
Lemma release_fresh H bp v : H !! bp = None -> delete bp (<[bp := v]> H) = H.
Proof. apply delete_insert_id. Qed.
Lemma release_fresh2 H bp v w : H !! bp = None -> delete bp (<[bp := v]> (<[bp := w]> H)) = H.
Proof. intros. by rewrite insert_insert_eq, delete_insert_id. Qed.

(** ** readsb and bzero *)

Definition sb_of (d : sectors) (dev : Z) : superblock :=
  Superblock (ldw 4 (blk d (dev, 1)) 0) (ldw 4 (blk d (dev, 1)) 4) (ldw 4 (blk d (dev, 1)) 8).

Lemma readsb_wp x d H ic dev (Q : superblock -> fs S -> Prop) :
  at_fs x d H ic -> 0 <= dev <= 1 -> not_held H (dev, 1) -> (size H < bcap)%nat ->
  (forall x', at_fs x' d H ic -> Q (sb_of d dev) x') -> wp (readsb dev) Q x.
Proof.
  intros Hx Hd Hn Hs HQ. unfold readsb. wp_step.
  eapply bread__wp; [done|split; simpl; lia|done|done|]. intros bp x1 Hbp Hx1. wp_step.
  eapply data_of_wp; [done|apply lookup_insert_eq|]. wp_step.
  eapply brelse__wp; [done|apply lookup_insert_eq|done|]. intros x2 Hx2.
  rewrite release_fresh in Hx2 by done. wp_step. by apply HQ.
Qed.

Lemma bzero_wp x d H ic dev bno (Q : unit -> fs S -> Prop) :
  at_fs x d H ic -> addressable (dev, bno) -> not_held H (dev, bno) -> (size H < bcap)%nat ->
  (forall x', at_fs x' (<[(dev, bno) := zero_block]> d) H ic -> Q tt x') -> wp (bzero dev bno) Q x.
Proof.
  intros Hx Ha Hn Hs HQ. unfold bzero. wp_step.
  eapply bread__wp; [done..|]. intros bp x1 Hbp Hx1. wp_step.
  eapply bupd_wp; [done|apply lookup_insert_eq|apply length_replicate|]. intros x2 Hx2. wp_step.
  eapply bwrite__wp; [done|apply lookup_insert_eq|]. intros x3 Hx3.
  eapply brelse__wp; [done|apply lookup_insert_eq|by rewrite blk_insert|]. intros x4 Hx4.
  rewrite release_fresh2 in Hx4 by done. by apply HQ.
Qed.
End Rules.

(** ** Bits *)

Lemma bit_mask_pow bi : bit_mask bi = 2 ^ (bi mod 8).
Proof. unfold bit_mask. by rewrite Z.shiftl_1_l. Qed.

Lemma bit_free_testbit data bi :
  bit_free data bi = negb (Z.testbit (byte_at data (bi / 8)) (bi mod 8)).
Proof.
  unfold bit_free. rewrite bit_mask_pow, land_pow2 by (apply Z.mod_pos_bound; lia).
  destruct (Z.testbit _ _); [|done].
  apply Z.eqb_neq. apply Z.pow_nonzero; [lia|]. apply Z.mod_pos_bound. lia.
Qed.

Lemma byte_at_insert data i j v :
  0 <= i -> 0 <= j -> (Z.to_nat i < length data)%nat ->
  byte_at (<[Z.to_nat i := v]> data) j = if i =? j then v else byte_at data j.
Proof.
  intros Hi Hj Hl. unfold byte_at. destruct (Z.eqb_spec i j) as [<-|].
  - by rewrite list_lookup_insert_eq.
  - by rewrite list_lookup_insert_ne by lia.
Qed.

Lemma bit_free_update data bi bj v :
  length data = BLEN -> 0 <= bi < BPB -> 0 <= bj < BPB ->
  (forall k, Z.testbit v k = (Z.testbit v (bi mod 8) && (k =? bi mod 8)) ||
             (negb (k =? bi mod 8) && Z.testbit (byte_at data (bi / 8)) k)) ->
  bit_free (<[Z.to_nat (bi / 8) := v]> data) bj =
  if bi =? bj then negb (Z.testbit v (bi mod 8)) else bit_free data bj.
Proof.
  intros Hl Hi Hj Hv. rewrite !bit_free_testbit. unfold BLEN, BPB, BSIZE in *.
  rewrite byte_at_insert by (rewrite ?Hl; Z.div_mod_to_equations; lia).
  destruct (Z.eqb_spec bi bj) as [<-|Hne]; [by rewrite Z.eqb_refl|].
  destruct (Z.eqb_spec (bi / 8) (bj / 8)) as [E|]; [|done].
  rewrite Hv, E. replace (bj mod 8 =? bi mod 8) with false by (Z.div_mod_to_equations; lia).
  by rewrite andb_false_r.
Qed.

Lemma bit_free_set data bi bj :
  length data = BLEN -> 0 <= bi < BPB -> 0 <= bj < BPB ->
  bit_free (set_bit bi data) bj = negb (bi =? bj) && bit_free data bj.
Proof.
  intros Hl Hi Hj. unfold set_bit. pose proof (Z.mod_pos_bound bi 8 ltac:(lia)).
  assert (Ht : Z.testbit (bit_mask bi) (bi mod 8) = true)
    by (rewrite bit_mask_pow; apply Z.pow2_bits_true; lia).
  rewrite bit_free_update by (try done; intros k; rewrite !Z.lor_spec, Ht, orb_true_r, andb_true_l,
    bit_mask_pow, Z.pow2_bits_eqb by lia; rewrite (Z.eqb_sym k);
    by destruct (bi mod 8 =? k), (Z.testbit (byte_at data (bi / 8)) k)).
  rewrite Z.lor_spec, Ht, orb_true_r. by destruct (bi =? bj).
Qed.

Lemma bit_free_clear data bi bj :
  length data = BLEN -> 0 <= bi < BPB -> 0 <= bj < BPB ->
  bit_free (clear_bit bi data) bj = (bi =? bj) || bit_free data bj.
Proof.
  intros Hl Hi Hj. unfold clear_bit, clr. pose proof (Z.mod_pos_bound bi 8 ltac:(lia)).
  assert (Ht : Z.testbit (bit_mask bi) (bi mod 8) = true)
    by (rewrite bit_mask_pow; apply Z.pow2_bits_true; lia).
  rewrite bit_free_update by (try done; intros k; rewrite !Z.ldiff_spec, Ht, andb_false_r, andb_false_l,
    bit_mask_pow, Z.pow2_bits_eqb by lia; rewrite (Z.eqb_sym k);
    by destruct (bi mod 8 =? k), (Z.testbit (byte_at data (bi / 8)) k)).
  rewrite Z.ldiff_spec, Ht, andb_false_r. by destruct (bi =? bj).
Qed.

Lemma length_set_bit bi data : length (set_bit bi data) = length data.
Proof. apply length_insert. Qed.
Lemma length_clear_bit bi data : length (clear_bit bi data) = length data.
Proof. apply length_insert. Qed.

Lemma find_free_spec n bi data :
  match find_free n bi data with
  | Some bj => bi <= bj < bi + Z.of_nat n /\ bit_free data bj = true /\
               forall k, bi <= k < bj -> bit_free data k = false
  | None => forall k, bi <= k < bi + Z.of_nat n -> bit_free data k = false
  end.
Proof.
  revert bi. induction n as [|n IH]; intros bi; simpl; [intros; lia|].
  destruct (bit_free data bi) eqn:E.
  - split; [lia|]. split; [done|]. intros; lia.
  - specialize (IH (bi + 1)). destruct (find_free n (bi + 1) data).
    + destruct IH as (? & ? & IH). split; [lia|]. split; [done|]. intros k Hk.
      destruct (decide (k = bi)) as [->|]; [done|]. apply IH. lia.
    + intros k Hk. destruct (decide (k = bi)) as [->|]; [done|]. apply IH. lia.
Qed.

(** ** The bitmap as a set of blocks *)

Section Bitmap.
Context (dev sz ni : Z).

(** The first block of the bitmap, and the first data block as [mkfs.c] lays
    the disk out. *)
Definition bmstart : Z := ni / IPB + 3.
Definition datastart : Z := bmstart + sz / BPB + 1.

(** A disk with a superblock for [sz] blocks and [ni] inodes. *)
Record geom (d : sectors) : Prop := Geom {
  g_size : sb_size (sb_of d dev) = sz;
  g_ninodes : sb_ninodes (sb_of d dev) = ni;
  g_dev : 0 <= dev <= 1;
  g_sz : 0 < sz <= 2 ^ 28;
  g_ni : 0 <= ni;
  g_fits : datastart <= sz
}.

Definition bit (d : sectors) (b : Z) : bool :=
  negb (bit_free (blk d (dev, BBLOCK b ni)) (b mod BPB)).
Definition mark (b : Z) (d : sectors) : sectors :=
  <[(dev, BBLOCK b ni) := set_bit (b mod BPB) (blk d (dev, BBLOCK b ni))]> d.
Definition unmark (b : Z) (d : sectors) : sectors :=
  <[(dev, BBLOCK b ni) := clear_bit (b mod BPB) (blk d (dev, BBLOCK b ni))]> d.

(** Where block [b]'s bit is. *)
Lemma bblock_range b :
  0 <= ni -> 0 <= b < sz -> bmstart <= BBLOCK b ni < datastart.
Proof.
  intros. unfold BBLOCK, datastart, bmstart. fs_lia.
Qed.

Lemma mod_BPB b : 0 <= b mod BPB < BPB.
Proof. apply Z.mod_pos_bound. done. Qed.

Lemma same_bit b b' :
  BBLOCK b ni = BBLOCK b' ni -> b mod BPB = b' mod BPB -> b = b'.
Proof. unfold BBLOCK. intros. fs_lia. Qed.

Lemma bit_mark b b' d :
  (forall k, length (blk d k) = BLEN) -> bit (mark b d) b' = (b =? b') || bit d b'.
Proof.
  intros Hl. unfold bit, mark. destruct (decide (BBLOCK b ni = BBLOCK b' ni)) as [E|E].
  - rewrite <- E, blk_insert, bit_free_set by (done || apply mod_BPB).
    destruct (Z.eqb_spec b b') as [->|]; [by rewrite Z.eqb_refl|].
    destruct (Z.eqb_spec (b mod BPB) (b' mod BPB)) as [Em|]; [|done].
    by destruct (same_bit b b').
  - rewrite blk_insert_ne by congruence. destruct (Z.eqb_spec b b') as [->|]; done.
Qed.

Lemma bit_unmark b b' d :
  (forall k, length (blk d k) = BLEN) -> bit (unmark b d) b' = negb (b =? b') && bit d b'.
Proof.
  intros Hl. unfold bit, unmark. destruct (decide (BBLOCK b ni = BBLOCK b' ni)) as [E|E].
  - rewrite <- E, blk_insert, bit_free_clear by (done || apply mod_BPB).
    destruct (Z.eqb_spec b b') as [->|]; [by rewrite Z.eqb_refl|].
    destruct (Z.eqb_spec (b mod BPB) (b' mod BPB)) as [Em|]; [|by destruct (bit_free _ _)].
    by destruct (same_bit b b').
  - rewrite blk_insert_ne by congruence. destruct (Z.eqb_spec b b') as [->|]; [done|].
    by destruct (bit_free _ _).
Qed.

(** Changing blocks that are not the bitmap's does not change bits. *)
Lemma bit_insert_ne d k dat b : k <> (dev, BBLOCK b ni) -> bit (<[k := dat]> d) b = bit d b.
Proof. intros. unfold bit. by rewrite blk_insert_ne. Qed.

Lemma blk_mark_ne b d k : k <> (dev, BBLOCK b ni) -> blk (mark b d) k = blk d k.
Proof. intros. by apply blk_insert_ne. Qed.
Lemma blk_unmark_ne b d k : k <> (dev, BBLOCK b ni) -> blk (unmark b d) k = blk d k.
Proof. intros. by apply blk_insert_ne. Qed.

(** Any change outside the superblock keeps the geometry. *)
Lemma geom_ext d d' : blk d' (dev, 1) = blk d (dev, 1) -> geom d -> geom d'.
Proof. intros E []. constructor; try done; unfold sb_of; by rewrite E. Qed.

Section Ops.
Context {S : Type} `{HB : !BlockOps S} `{HS : !BlockSpec S}.
Implicit Types (x : fs S) (d : sectors) (H : holds) (ic : list inode).

(** No metadata block is out. *)
Definition meta_free H : Prop := forall b, 0 <= b < datastart -> not_held H (dev, b).

Lemma datastart_pos : 0 <= ni -> 0 < sz -> 3 < datastart.
Proof. intros. unfold datastart, bmstart. fs_lia. Qed.

Lemma geom_bounds d : geom d -> 3 < datastart /\ 0 < sz.
Proof.
  intros []. split; [apply datastart_pos; lia|lia].
Qed.

(** [balloc] returns the lowest free block and marks it, as long as there is
    a free block below the file system's size. *)
Lemma balloc_wp x d H ic (Q : Z -> fs S -> Prop) :
  at_fs x d H ic -> geom d -> meta_free H -> (size H < bcap)%nat ->
  (exists f, 0 <= f < sz /\ bit d f = false) ->
  (forall b x', 0 <= b < sz -> bit d b = false -> (forall b', 0 <= b' < b -> bit d b' = true) ->
     at_fs x' (mark b d) H ic -> Q b x') ->
  wp (balloc dev) Q x.
Proof.
  intros Hx Hg Hm Hs (f & Hf & Hfree) HQ. pose proof (geom_bounds d Hg) as [Hds Hsz].
  pose proof Hg as [G1 G2 Gdev Gsz Gni Gfits]. unfold balloc. wp_step.
  eapply readsb_wp; [done|done|apply Hm; lia|done|]. intros x1 Hx1. rewrite G1, G2.
  apply (wp_loop (fun b x2 => at_fs x2 d H ic /\ b mod BPB = 0 /\ 0 <= b < sz + BPB /\
           forall b', 0 <= b' < b -> bit d b' = true)
         (fun b _ => Z.to_nat ((sz - b) / BPB + 1))).
  - intros b x2 (Hx2 & Hb0 & Hb & Hused). destruct (Z.ltb_spec b sz); [|].
    2:{ rewrite Hused in Hfree by lia. done. }
    assert (Hbb : 0 <= BBLOCK b ni < datastart).
    { pose proof (bblock_range b Gni ltac:(lia)) as Hr. unfold bmstart in Hr. fs_lia. }
    wp_step. eapply bread__wp; [done|split; simpl; lia|apply Hm; lia|done|].
    intros bp x3 Hbp Hx3. wp_step. eapply data_of_wp; [done|apply lookup_insert_eq|].
    pose proof (find_free_spec (Z.to_nat BPB) 0 (blk d (dev, BBLOCK b ni))) as Hff.
    assert (Hbit : forall k, 0 <= k < BPB ->
              bit d (b + k) = negb (bit_free (blk d (dev, BBLOCK b ni)) k)).
    { intros k Hk. unfold bit. assert (E1 : BBLOCK (b + k) ni = BBLOCK b ni)
        by (unfold BBLOCK in *; fs_lia).
      rewrite E1. f_equal. f_equal. fs_lia. }
    destruct (find_free _ _ _) as [bi|].
    + destruct Hff as (Hbi & Hfr & Hlow). rewrite Z2Nat.id in Hbi by done.
      assert (Hbbi : bit d (b + bi) = false) by (rewrite Hbit, Hfr by lia; done).
      assert (Hlow' : forall b', 0 <= b' < b + bi -> bit d b' = true).
      { intros b' Hb'. destruct (Z.ltb_spec b' b); [by apply Hused; lia|].
        replace b' with (b + (b' - b)) by lia. by rewrite Hbit, Hlow by lia. }
      assert (b + bi <= f).
      { destruct (Z.leb_spec (b + bi) f); [done|]. rewrite Hlow' in Hfree by lia. done. }
      wp_step. eapply bupd_wp; [done|apply lookup_insert_eq| |].
      { rewrite length_set_bit. by eapply at_fs_blk. }
      intros x4 Hx4. wp_step. eapply bwrite__wp; [done|apply lookup_insert_eq|]. intros x5 Hx5. wp_step.
      eapply brelse__wp; [done|apply lookup_insert_eq|by rewrite blk_insert|]. intros x6 Hx6.
      rewrite release_fresh2 in Hx6 by done. wp_step. rewrite u32_small by lia.
      apply HQ; [lia|done|done|]. unfold mark.
      assert (E1 : BBLOCK (b + bi) ni = BBLOCK b ni)
        by (unfold BBLOCK in *; fs_lia).
      replace ((b + bi) mod BPB) with bi by fs_lia.
      by rewrite E1.
    + rewrite Z2Nat.id in Hff by done. wp_step.
      eapply brelse__wp; [done|apply lookup_insert_eq|done|]. intros x4 Hx4.
      rewrite release_fresh in Hx4 by done. wp_step.
      assert (HB4 : BPB = 4096) by done.
      rewrite u32_small by lia. split.
      * split_and!; [done| |lia|lia|].
        { fs_lia. }
        intros b' Hb'. destruct (Z.ltb_spec b' b); [by apply Hused; lia|].
        replace b' with (b + (b' - b)) by lia. by rewrite Hbit, Hff by lia.
      * fs_lia.
  - split_and!; [done|done|lia|unfold BPB, BSIZE in *; lia|]. intros; lia.
  - fs_lia.
Qed.

(** The disk after [bfree]: the block zeroed and its bit cleared. *)
Definition freed (b : Z) (d : sectors) : sectors := unmark b (<[(dev, b) := zero_block]> d).

Lemma bit_freed b b' d :
  (forall k, length (blk d k) = BLEN) -> 0 <= ni -> datastart <= b -> 0 <= b' < sz ->
  bit (freed b d) b' = negb (b =? b') && bit d b'.
Proof.
  intros Hl Hni Hb Hb'. unfold freed. rewrite bit_unmark.
  - f_equal. apply bit_insert_ne. pose proof (bblock_range b' Hni Hb'). intros [= E]. lia.
  - intros k. destruct (decide (k = (dev, b))) as [->|]; [by rewrite blk_insert|].
    by rewrite blk_insert_ne.
Qed.

Lemma blk_freed_ne b d k : k <> (dev, BBLOCK b ni) -> k <> (dev, b) -> blk (freed b d) k = blk d k.
Proof. intros. unfold freed. by rewrite blk_unmark_ne, blk_insert_ne. Qed.

Lemma blk_freed b d : 0 <= ni -> datastart <= b < sz -> blk (freed b d) (dev, b) = zero_block.
Proof.
  intros Hni Hb. unfold freed. rewrite blk_unmark_ne, blk_insert; [done|]. intros [= E].
  pose proof (bblock_range b Hni). assert (0 <= b).
  { unfold datastart, bmstart in *. fs_lia. }
  lia.
Qed.

Lemma bfree_wp x d H ic b (Q : unit -> fs S -> Prop) :
  at_fs x d H ic -> geom d -> meta_free H -> (size H < bcap)%nat -> datastart <= b < sz ->
  not_held H (dev, b) -> bit d b = true ->
  (forall x', at_fs x' (freed b d) H ic -> Q tt x') -> wp (bfree dev b) Q x.
Proof.
  intros Hx Hg Hm Hs Hb Hn Hbit HQ. pose proof (geom_bounds d Hg) as [Hds Hsz].
  pose proof Hg as [G1 G2 Gdev Gsz Gni Gfits]. unfold bfree. wp_step.
  eapply bzero_wp; [done|split; simpl; lia|done|done|]. intros x1 Hx1. wp_step.
  eapply readsb_wp; [done|done|apply Hm; lia|done|]. intros x2 Hx2.
  assert (Hsb : sb_of (<[(dev, b) := zero_block]> d) dev = sb_of d dev).
  { unfold sb_of. rewrite blk_insert_ne by (intros [=]; lia). done. }
  rewrite Hsb, G2. clear Hsb.
  assert (Hbb : 0 <= BBLOCK b ni < datastart).
  { pose proof (bblock_range b Gni ltac:(lia)) as Hr. unfold bmstart in Hr. fs_lia. }
  wp_step. eapply bread__wp; [done|split; simpl; lia|apply Hm; lia|done|]. intros bp x3 Hbp Hx3.
  wp_step. eapply data_of_wp; [done|apply lookup_insert_eq|].
  assert (Hbf : bit_free (blk (<[(dev, b) := zero_block]> d) (dev, BBLOCK b ni)) (b mod BPB) = false).
  { rewrite blk_insert_ne by (intros [=]; lia). unfold bit in Hbit. by apply negb_true_iff in Hbit. }
  rewrite Hbf. wp_step.
  eapply bupd_wp; [done|apply lookup_insert_eq| |].
  { rewrite length_clear_bit. by eapply at_fs_blk. }
  intros x4 Hx4. wp_step. eapply bwrite__wp; [done|apply lookup_insert_eq|]. intros x5 Hx5.
  eapply brelse__wp; [done|apply lookup_insert_eq|by rewrite blk_insert|]. intros x6 Hx6.
  rewrite release_fresh2 in Hx6 by done. by apply HQ.
Qed.

(** ** The allocator over time *)

(** A client that allocates blocks and frees blocks it has, starting from the
    disk [d0]; it asks for a block only while one is free. *)
Inductive btrace (d0 : sectors) : fs S -> sectors -> list Z -> Prop :=
| bt_init x ic : at_fs x d0 ∅ ic -> btrace d0 x d0 []
| bt_alloc x d own b x' :
    btrace d0 x d own -> (exists f, 0 <= f < sz /\ bit d f = false) ->
    balloc dev x = Ok b x' -> btrace d0 x' (mark b d) (b :: own)
| bt_free x d own1 b own2 x' :
    btrace d0 x d (own1 ++ b :: own2) -> bfree dev b x = Ok tt x' ->
    btrace d0 x' (freed b d) (own1 ++ own2).

(** A disk as [mkfs] makes it: its metadata blocks are marked in the bitmap,
    and the free blocks hold zeroes. *)
Definition fresh_disk (d : sectors) : Prop :=
  geom d /\ (forall b, 0 <= b < datastart -> bit d b = true) /\
  (forall b, 0 <= b < sz -> bit d b = false -> blk d (dev, b) = zero_block).

(** What is free in [d] is what was free in [d0] and is not owned. *)
Definition owns (d0 d : sectors) (own : list Z) : Prop :=
  geom d /\ NoDup own /\ (forall b, b ∈ own -> 0 <= b < sz /\ bit d0 b = false) /\
  (forall b, 0 <= b < sz -> bit d b = true <-> bit d0 b = true \/ b ∈ own) /\
  (forall b, 0 <= b < sz -> bit d b = false -> blk d (dev, b) = zero_block).

Lemma meta_free_empty : meta_free ∅.
Proof. intros b _. apply not_held_empty. Qed.

Lemma fresh_data d0 b : fresh_disk d0 -> 0 <= b < sz -> bit d0 b = false -> datastart <= b.
Proof.
  intros (_ & Hmeta & _) Hb Hbit. destruct (Z.leb_spec datastart b); [done|].
  rewrite Hmeta in Hbit by lia. done.
Qed.

(** A free block is a data block. *)
Lemma owns_free_data d0 d own b :
  fresh_disk d0 -> owns d0 d own -> 0 <= b < sz -> bit d b = false -> datastart <= b.
Proof.
  intros Hf (_ & _ & _ & Hbits & _) Hb Hfree. apply (fresh_data d0); [done|done|].
  destruct (bit d0 b) eqn:E; [|done]. rewrite (proj2 (Hbits b Hb)) in Hfree; auto.
Qed.

Lemma owns_mark x d0 d own b ic :
  fresh_disk d0 -> at_fs x d ∅ ic -> owns d0 d own -> 0 <= b < sz -> bit d b = false ->
  owns d0 (mark b d) (b :: own).
Proof.
  intros Hfr Hx Ho Hb Hfree. pose proof Ho as (Hg & Hnd & Hown & Hbits & Hzero).
  assert (Hl : forall k, length (blk d k) = BLEN) by (intros k; by eapply at_fs_blk).
  assert (Hno : ~ (bit d0 b = true \/ b ∈ own)) by (rewrite <- Hbits by done; congruence).
  pose proof Hg as [_ _ _ _ Gni _]. pose proof (bblock_range b Gni Hb) as Hbb.
  assert (3 <= bmstart) by (unfold bmstart; fs_lia).
  split_and!.
  - eapply geom_ext; [|done]. apply blk_mark_ne. intros [=]. lia.
  - apply NoDup_cons. split; [tauto|done].
  - intros b' [->|Hb']%elem_of_cons; [|by apply Hown]. split; [done|].
    destruct (bit d0 b); [tauto|done].
  - intros b' Hb'. rewrite bit_mark, orb_true_iff, Hbits, elem_of_cons, Z.eqb_eq by done. naive_solver.
  - intros b' Hb' Hf. rewrite bit_mark in Hf by done. apply orb_false_iff in Hf as [Hne Hf].
    pose proof (owns_free_data _ _ _ _ Hfr Ho Hb' Hf).
    rewrite blk_mark_ne; [by apply Hzero|]. intros [=]. lia.
Qed.

Lemma owns_freed x d0 d own1 b own2 ic :
  fresh_disk d0 -> at_fs x d ∅ ic -> owns d0 d (own1 ++ b :: own2) ->
  owns d0 (freed b d) (own1 ++ own2).
Proof.
  intros Hfr Hx Ho. pose proof Ho as (Hg & Hnd & Hown & Hbits & Hzero).
  assert (Hl : forall k, length (blk d k) = BLEN) by (intros k; by eapply at_fs_blk).
  destruct (Hown b) as [Hb Hb0]; [set_solver|].
  pose proof (fresh_data d0 b Hfr Hb Hb0) as Hdb.
  pose proof (geom_bounds d Hg) as [Hds _]. pose proof Hg as [_ _ _ _ Gni _].
  pose proof (bblock_range b Gni Hb) as Hbb. assert (3 <= bmstart) by (unfold bmstart; fs_lia).
  assert (Hperm : own1 ++ b :: own2 ≡ₚ b :: own1 ++ own2) by (symmetry; apply Permutation_middle).
  rewrite Hperm in Hnd. apply NoDup_cons in Hnd as [Hbn Hnd].
  assert (Hin : forall b', b' ∈ own1 ++ b :: own2 <-> b' = b \/ b' ∈ own1 ++ own2)
    by (intros; by rewrite Hperm, elem_of_cons).
  split_and!.
  - eapply geom_ext; [|done]. apply blk_freed_ne; intros [=]; lia.
  - done.
  - intros b' Hb'. apply Hown, Hin. auto.
  - intros b' Hb'. rewrite bit_freed, andb_true_iff, Hbits, Hin by done.
    rewrite negb_true_iff, Z.eqb_neq. split; [naive_solver|]. intros [H1|H1].
    + split; [|auto]. intros <-. congruence.
    + split; [|auto]. by intros <-.
  - intros b' Hb' Hf. rewrite bit_freed in Hf by done. apply andb_false_iff in Hf as [Hf|Hf].
    + apply negb_false_iff, Z.eqb_eq in Hf as <-. apply blk_freed; [done|lia].
    + destruct (decide (b = b')) as [<-|]; [apply blk_freed; [done|lia]|].
      pose proof (owns_free_data _ _ _ _ Hfr Ho Hb' Hf).
      rewrite blk_freed_ne; [by apply Hzero| |]; intros [=]; lia.
Qed.

Lemma btrace_owns d0 x d own :
  (0 < bcap)%nat -> fresh_disk d0 -> btrace d0 x d own -> exists ic, at_fs x d ∅ ic /\ owns d0 d own.
Proof.
  intros Hcap Hfr. induction 1 as [x ic Hx|x d own b x' _ (ic & Hx & Ho) Hex Hrun
    |x d own1 b own2 x' _ (ic & Hx & Ho) Hrun].
  - exists ic. split; [done|]. destruct Hfr as (Hg & Hm & Hz). split_and!; try done.
    + apply NoDup_nil_2.
    + intros b Hb. by apply not_elem_of_nil in Hb.
    + intros b Hb. rewrite elem_of_nil. tauto.
  - exists ic. pose proof Ho as (Hg & _).
    assert (Hwp : wp (balloc dev) (fun b x' => 0 <= b < sz /\ bit d b = false /\
              at_fs x' (mark b d) ∅ ic) x).
    { eapply balloc_wp; [done|done|apply meta_free_empty|by rewrite map_size_empty|done|].
      intros b1 x1 ? ? _ ?. done. }
    destruct (wp_run _ _ _ _ _ Hwp Hrun) as (Hb & Hf & Hx'). split; [done|]. by eapply owns_mark.
  - exists ic. pose proof Ho as (Hg & _ & Hown & Hbits & _). destruct (Hown b) as [Hb Hb0]; [set_solver|].
    assert (Hwp : wp (bfree dev b) (fun _ x' => at_fs x' (freed b d) ∅ ic) x).
    { eapply bfree_wp; [done|done|apply meta_free_empty|by rewrite map_size_empty| | | |done].
      - split; [by eapply fresh_data|lia].
      - apply not_held_empty.
      - apply Hbits; [done|]. right. set_solver. }
    split; [exact (wp_run _ _ _ _ _ Hwp Hrun)|by eapply owns_freed].
Qed.
End Ops.
End Bitmap.

(** Over any history of [balloc]s and of [bfree]s of blocks so obtained,
    no block is handed out twice, every block handed out lies in the file
    system and was free at the start (so it is never a metadata block), the
    bitmap on the disk marks exactly the blocks marked at the start and the
    ones now owned, and free blocks hold zeroes.  Moreover the next [balloc]
    (while a block is free) returns one that nobody owns, and [bfree] of an
    owned block does not panic. *)
Theorem block_allocator_partition {S} `{HB : !BlockOps S} `{HS : !BlockSpec S}
    dev sz ni d0 (x : fs S) d own :
  (0 < bcap)%nat -> fresh_disk dev sz ni d0 -> btrace dev sz ni d0 x d own ->
  owns dev sz ni d0 d own /\
  ((exists f, 0 <= f < sz /\ bit dev ni d f = false) ->
     exists b x', balloc dev x = Ok b x' /\ b ∉ own /\ 0 <= b < sz) /\
  (forall b, b ∈ own -> exists x', bfree dev b x = Ok tt x').
Proof.
  intros Hcap Hfr Htr. destruct (btrace_owns _ _ _ _ _ _ _ Hcap Hfr Htr) as (ic & Hx & Ho).
  pose proof Ho as (Hg & _ & Hown & Hbits & _). split_and!; [done| |].
  - intros Hex. assert (Hwp : wp (balloc dev) (fun b _ => b ∉ own /\ 0 <= b < sz) x).
    { eapply (balloc_wp dev sz ni); [done|done|apply meta_free_empty|by rewrite map_size_empty|done|].
      intros b x' Hb Hf _ _. split; [|done]. intros Hin.
      assert (bit dev ni d b = true) by (apply Hbits; auto). congruence. }
    destruct (wp_elim _ _ _ Hwp) as (b & x' & ? & ? & ?). eauto.
  - intros b Hb. destruct (Hown b Hb) as [Hr Hb0].
    assert (Hwp : wp (bfree dev b) (fun _ _ => True) x).
    { eapply (bfree_wp dev sz ni); [done|done|apply meta_free_empty|by rewrite map_size_empty| | | |done].
      - split; [by eapply fresh_data|lia].
      - apply not_held_empty.
      - apply Hbits; auto. }
    destruct (wp_elim _ _ _ Hwp) as ([] & x' & ? & _). eauto.
Qed.
