(* ===== verification/DemoDisk.v ===== *)
(** * A small file system image, for concrete instances

    A disk of 16 blocks with 8 inodes, laid out as [mkfs.c] does: superblock,
    inode blocks 2 and 3, bitmap block 4, data from block 5.  The root
    directory (inode 1, block 5) holds ".", ".." and "hello" (inode 2, block
    6, the three bytes "hi!").  [demo_fs] is the file system's state on that
    disk after [binit], on the simulated ATA disk. *)

From stdpp Require Import base numbers strings list gmap.
From Stdlib Require Import Lia ZArith ZifyBool.
From S2P Require Import Prelude CString Ide BlockDev Bio Fs FsAlloc.
Open Scope Z_scope.

Definition demo_sb : list Z := stw 4 0 16 (stw 4 4 11 (stw 4 8 8 zero_block)).

Definition demo_inode (type nlink size addr : Z) : inode :=
  Inode 1 0 0 0 type 0 0 nlink size (addr :: replicate 12 0).
Definition demo_inodes : list Z :=
  store_dinode (demo_inode T_DIR 1 512 5) (dinode_off 1)
    (store_dinode (demo_inode T_FILE 1 3 6) (dinode_off 2) zero_block).

Definition demo_bitmap : list Z := <[0%nat := 0x7f]> zero_block.

Definition s_dot : list Z := [46].
Definition s_dotdot : list Z := [46; 46].
Definition s_hello : list Z := [104; 101; 108; 108; 111].
Definition demo_root : list Z :=
  splice 0 (mk_dirent s_dot 1 ++ mk_dirent s_dotdot 1 ++ mk_dirent s_hello 2) zero_block.
Definition demo_file : list Z := splice 0 [104; 105; 33] zero_block.

Definition demo_disk : sectors :=
  <[(1, 1) := demo_sb]> (<[(1, 2) := demo_inodes]> (<[(1, 4) := demo_bitmap]>
    (<[(1, 5) := demo_root]> (<[(1, 6) := demo_file]> ∅)))).

Lemma blk_length_insert (d : sectors) k dat :
  (forall k, length (blk d k) = BLEN) -> length dat = BLEN ->
  forall k', length (blk (<[k := dat]> d) k') = BLEN.
Proof.
  intros Hd Hl k'. destruct (decide (k = k')) as [->|]; [by rewrite blk_insert|].
  by rewrite blk_insert_ne.
Qed.

Lemma demo_blocks k : length (blk demo_disk k) = BLEN.
Proof.
  revert k. unfold demo_disk. repeat apply blk_length_insert; vm_compute; reflexivity.
Qed.

(** Reading blocks of the demo disk. *)
Lemma demo_blk1 : blk demo_disk (1, 1) = demo_sb.
Proof. unfold demo_disk. by rewrite blk_insert. Qed.
Lemma demo_blk2 : blk demo_disk (1, 2) = demo_inodes.
Proof. unfold demo_disk. by rewrite blk_insert_ne, blk_insert by done. Qed.
Lemma demo_blk4 : blk demo_disk (1, 4) = demo_bitmap.
Proof. unfold demo_disk. by rewrite !blk_insert_ne, blk_insert by done. Qed.
Lemma demo_blk5 : blk demo_disk (1, 5) = demo_root.
Proof. unfold demo_disk. by rewrite !blk_insert_ne, blk_insert by done. Qed.
Lemma demo_blk6 : blk demo_disk (1, 6) = demo_file.
Proof. unfold demo_disk. by rewrite !blk_insert_ne, blk_insert by done. Qed.
Lemma demo_blk_other b : b ∉ [1; 2; 4; 5; 6] -> blk demo_disk (1, b) = zero_block.
Proof.
  intros Hb. rewrite !not_elem_of_cons in Hb. unfold demo_disk.
  rewrite !blk_insert_ne by (intros [=]; lia). done.
Qed.

(** The cache of inodes with nothing in it. *)
Definition demo_icache : list inode := replicate NINODE null_inode.

#[export] Instance demo_ops : BlockOps ide := bio_ops (HA := SimAta.sim_ata) POLLS.
#[export] Instance demo_spec : BlockSpec ide := bio_spec (HA := SimAta.sim_ata).

Definition demo_fs : fs ide :=
  MkFs (booted (HA := SimAta.sim_ata) zero_block (SimAta.sim0 demo_disk)) demo_icache.

Lemma demo_at_fs : at_fs demo_fs demo_disk ∅ demo_icache.
Proof.
  split; [|done]. simpl.
  exact (wp_run _ _ _ _ _ (binit_wp (HA := SimAta.sim_ata) zero_block (SimAta.sim0 demo_disk)
           eq_refl demo_blocks) (binit_booted _ _)).
Qed.

Lemma demo_geom : geom 1 16 8 demo_disk.
Proof.
  constructor; unfold sb_of; rewrite ?demo_blk1; try (vm_compute; reflexivity); try lia.
  vm_compute. done.
Qed.

Lemma demo_bit b : 0 <= b < 16 -> bit 1 8 demo_disk b = (b <? 7).
Proof.
  intros Hb. unfold bit. assert (E : BBLOCK b 8 = 4) by (unfold BBLOCK; fs_lia).
  rewrite E, demo_blk4. assert (Hin : b ∈ seqZ 0 16) by (apply elem_of_seqZ; lia).
  clear Hb E. revert b Hin. apply Forall_forall. repeat constructor.
Qed.

Lemma demo_fresh : fresh_disk 1 16 8 demo_disk.
Proof.
  split_and!; [apply demo_geom| |].
  - intros b Hb. change (datastart 16 8) with 5 in Hb. rewrite demo_bit by lia. lia.
  - intros b Hb Hf. rewrite demo_bit in Hf by done. apply demo_blk_other.
    rewrite !not_elem_of_cons. split_and!; try lia. apply not_elem_of_nil.
Qed.

Lemma block_allocator_partition_witness :
  owns 1 16 8 demo_disk demo_disk [] /\
  ((exists f, 0 <= f < 16 /\ bit 1 8 demo_disk f = false) ->
     exists b x', balloc 1 demo_fs = Ok b x' /\ b ∉ [] /\ 0 <= b < 16) /\
  (forall b, b ∈ [] -> exists x', bfree 1 b demo_fs = Ok tt x').
Proof.
  apply (block_allocator_partition 1 16 8 demo_disk demo_fs demo_disk []).
  - vm_compute. lia.
  - exact demo_fresh.
  - eapply bt_init. exact demo_at_fs.
Defined.
