(* ===== verification/FsInode.v ===== *)
(** * The inode layer of [src/fs.c]: the inode cache and the on-disk inodes

    - what each operation leaves alone in the inode cache, and from it that
      [ip->ref] counts the references that are out ([iget], [idup], [iput]);
    - the on-disk inode: [iupdate] and [ilock] are inverse. *)

From stdpp Require Import base numbers strings list gmap list_numbers.
From Stdlib Require Import Lia ZArith ZifyBool.
From S2P Require Import Prelude Ide BlockDev Fs FsAlloc DemoDisk.
Open Scope Z_scope.

(** ** What the operations leave alone *)

Section Frames.
Context {S : Type} `{HB : !BlockOps S}.
Implicit Types x : fs S.

(** Only slot [i] of the cache may change, and not in what identifies it. *)
Definition touches (i : nat) x x' : Prop :=
  (forall j, j <> i -> icache x' !! j = icache x !! j) /\
  (length (icache x') = length (icache x)) /\
  (forall ip, icache x !! i = Some ip -> exists ip', icache x' !! i = Some ip' /\
     i_dev ip' = i_dev ip /\ i_inum ip' = i_inum ip /\ i_ref ip' = i_ref ip).

#[global] Instance touches_pre i : PreOrder (touches i).
Proof.
  split.
  - intros x. split_and!; [done|done|]. intros ip Hip. by exists ip.
  - intros x y z (H1 & H2 & H3) (H4 & H5 & H6). split_and!.
    + intros j Hj. by rewrite H4, H1.
    + congruence.
    + intros ip Hip. destruct (H3 _ Hip) as (ip' & Hip' & ? & ? & ?).
      destruct (H6 _ Hip') as (ip'' & Hip'' & ? & ? & ?). exists ip''. split_and!; congruence.
Qed.

Lemma touches_same_cache i x x' : icache x' = icache x -> touches i x x'.
Proof. intros E. unfold touches. rewrite E. split_and!; [done|done|]. intros ip Hip. by exists ip. Qed.

Lemma keeps_on_io {A} i (m : M S A) : keeps (touches i) (on_io m).
Proof.
  intros x a x'. unfold on_io, zoom. destruct (m (io x)); try done. intros [= _ <-].
  by apply touches_same_cache.
Qed.
Lemma keeps_bupd i bp f : keeps (touches i) (bupd bp f).
Proof. intros x a x' [= _ <-]. by apply touches_same_cache. Qed.

Definition same_id (f : inode -> inode) : Prop :=
  forall ip, i_dev (f ip) = i_dev ip /\ i_inum (f ip) = i_inum ip /\ i_ref (f ip) = i_ref ip.

Lemma keeps_updi i f : same_id f -> keeps (touches i) (updi (S := S) i f).
Proof.
  intros Hf x a x' [= _ <-]. split_and!; simpl.
  - intros j Hj. by rewrite list_lookup_alter_ne.
  - by rewrite length_alter.
  - intros ip Hip. exists (f ip). rewrite list_lookup_alter_eq, Hip. split; [done|apply Hf].
Qed.

Ltac frame_op := first [apply keeps_on_io | apply keeps_bupd | apply keeps_updi; done | assumption].
Ltac frame := keeps_step frame_op.

Lemma keeps_bzero i dev b : keeps (touches i) (bzero dev b).
Proof. unfold bzero, bread_, bwrite_, brelse_. frame. Qed.
Lemma keeps_readsb i dev : keeps (touches i) (readsb dev).
Proof. unfold readsb, bread_, data_of, brelse_. frame. Qed.
Lemma keeps_balloc i dev : keeps (touches i) (balloc dev).
Proof. unfold balloc, bread_, bwrite_, brelse_, data_of. keeps_step ltac:(first [apply keeps_readsb | frame_op]). Qed.
Lemma keeps_bfree i dev b : keeps (touches i) (bfree dev b).
Proof.
  unfold bfree, bread_, bwrite_, brelse_, data_of.
  keeps_step ltac:(first [apply keeps_readsb | apply keeps_bzero | frame_op]).
Qed.
Lemma keeps_iupdate i j : keeps (touches i) (iupdate j).
Proof. unfold iupdate, geti, bread_, bwrite_, brelse_. frame. Qed.

Lemma keeps_itrunc i : keeps (touches i) (itrunc i).
Proof.
  unfold itrunc, geti, bread_, brelse_, data_of.
  keeps_step ltac:(first [apply keeps_bfree | apply keeps_iupdate | frame_op]).
Qed.
Lemma keeps_bmap i bn : keeps (touches i) (bmap i bn).
Proof.
  unfold bmap, geti, bread_, bwrite_, brelse_, data_of.
  keeps_step ltac:(first [apply keeps_balloc | frame_op]).
Qed.
Lemma keeps_ilock i : keeps (touches i) (ilock i).
Proof. unfold ilock, geti, bread_, brelse_, data_of. frame. Qed.
Lemma keeps_iunlock i : keeps (touches i) (iunlock (S := S) i).
Proof. unfold iunlock, geti. frame. Qed.
End Frames.

(** ** Reference counts *)

Section Refs.
Context {S : Type} `{HB : !BlockOps S}.
Implicit Types x : fs S.

Abbreviation ref := (nat * (Z * Z))%type.    (* slot, (dev, inum) *)

Definition ikey (ip : inode) : Z * Z := (i_dev ip, i_inum ip).
Definition refs_to (i : nat) (refs : list ref) : Z := Z.of_nat (length (filter (fun r => r.1 = i) refs)).

(** A history of the cache: the references that are out, with the inode each
    was obtained for.  [it_use] stands for any operation on an inode that
    leaves the identity of the slots alone: ilock, iunlock, bmap, itrunc,
    readi, writei. *)
Inductive itrace : fs S -> list ref -> Prop :=
| it_init x : (forall i ip, icache x !! i = Some ip -> i_ref ip = 0) -> itrace x []
| it_get x refs dev inum i x' :
    itrace x refs -> iget dev inum x = Ok i x' -> itrace x' ((i, (dev, inum)) :: refs)
| it_dup x refs i k x' j :
    itrace x refs -> (i, k) ∈ refs -> idup i x = Ok j x' -> itrace x' ((j, k) :: refs)
| it_put x r1 i k r2 x' :
    itrace x (r1 ++ (i, k) :: r2) -> iput i x = Ok tt x' -> itrace x' (r1 ++ r2)
| it_use x refs i x' : itrace x refs -> touches i x x' -> itrace x' refs.

Definition refs_inv x (refs : list ref) : Prop :=
  (forall i ip, icache x !! i = Some ip -> i_ref ip = refs_to i refs) /\
  (forall i k, (i, k) ∈ refs -> exists ip, icache x !! i = Some ip /\ ikey ip = k) /\
  (forall i j ip jp, icache x !! i = Some ip -> icache x !! j = Some jp ->
     0 < i_ref ip -> 0 < i_ref jp -> ikey ip = ikey jp -> i = j).

Lemma refs_to_cons i j k refs :
  refs_to i ((j, k) :: refs) = refs_to i refs + (if decide (j = i) then 1 else 0).
Proof.
  unfold refs_to. rewrite filter_cons. simpl.
  destruct (decide (j = i)); simpl length; lia.
Qed.

Lemma refs_to_app i r1 r2 : refs_to i (r1 ++ r2) = refs_to i r1 + refs_to i r2.
Proof. unfold refs_to. rewrite filter_app, length_app. lia. Qed.

Lemma refs_to_pos i k refs : (i, k) ∈ refs -> 0 < refs_to i refs.
Proof.
  intros (r1 & r2 & ->)%list_elem_of_split. rewrite refs_to_app, refs_to_cons, decide_True by done.
  unfold refs_to. lia.
Qed.

(** Changes to a slot that keep its identity, and add [n] to its count. *)
Lemma refs_inv_change x x' refs refs' i n :
  refs_inv x refs ->
  (forall j, j <> i -> icache x' !! j = icache x !! j) ->
  (forall ip, icache x !! i = Some ip -> exists ip', icache x' !! i = Some ip' /\
     ikey ip' = ikey ip /\ i_ref ip' = i_ref ip + n) ->
  (is_Some (icache x' !! i) -> is_Some (icache x !! i)) ->
  (forall j, refs_to j refs' = refs_to j refs + (if decide (j = i) then n else 0)) ->
  (forall j k, (j, k) ∈ refs' -> (j, k) ∈ refs \/
     j = i /\ exists ip, icache x !! i = Some ip /\ ikey ip = k) ->
  (forall ip, icache x !! i = Some ip -> 0 < i_ref ip \/ n <= 0) ->
  refs_inv x' refs'.
Proof.
  intros (H1 & H2 & H3) Hj Hi His Hcnt Hsub Hn.
  assert (Hold : forall j jp, icache x' !! j = Some jp -> exists jp0, icache x !! j = Some jp0 /\
            ikey jp = ikey jp0 /\ i_ref jp = i_ref jp0 + (if decide (j = i) then n else 0)).
  { intros j jp Hjp. destruct (decide (j = i)) as [->|N].
    - destruct His as [ip Hip]; [by eexists|]. destruct (Hi _ Hip) as (ip' & Hip' & Hk & Hr).
      rewrite Hjp in Hip'. injection Hip' as <-. by exists ip.
    - rewrite Hj in Hjp by done. exists jp. split_and!; [done|done|lia]. }
  split_and!.
  - intros j jp Hjp. destruct (Hold _ _ Hjp) as (jp0 & Hjp0 & _ & ->). by rewrite Hcnt, (H1 _ _ Hjp0).
  - intros j k Hjk. assert (exists jp, icache x !! j = Some jp /\ ikey jp = k) as (jp & Hjp & Hk).
    { destruct (Hsub _ _ Hjk) as [Hin|(-> & Hex)]; [by apply H2|done]. }
    destruct (decide (j = i)) as [->|N].
    + destruct (Hi _ Hjp) as (ip' & ? & ? & _). exists ip'. split; [done|congruence].
    + exists jp. by rewrite Hj.
  - intros j1 j2 p1 p2 E1 E2 R1 R2 Hk.
    destruct (Hold _ _ E1) as (q1 & F1 & K1 & V1), (Hold _ _ E2) as (q2 & F2 & K2 & V2).
    apply (H3 _ _ q1 q2 F1 F2); [| |congruence].
    + destruct (decide (j1 = i)) as [->|]; [|lia]. destruct (Hn _ F1); lia.
    + destruct (decide (j2 = i)) as [->|]; [|lia]. destruct (Hn _ F2); lia.
Qed.

(** [iput] is a use of its slot, then the decrement. *)
Lemma iput_frame i x x' :
  iput i x = Ok tt x' -> exists x1, touches i x x1 /\
    x' = MkFs (io x1) (alter (fun ip => set_iref (i_ref ip - 1) ip) i (icache x1)).
Proof.
  unfold iput, geti. intros Hrun. unfold mbind at 1, M_bind at 1, gets at 1 in Hrun.
  set (ip := default null_inode (icache x !! i)) in *.
  set (m := when ((i_ref ip =? 1) && tst (i_flags ip) I_VALID && (i_nlink ip =? 0)) _) in Hrun.
  assert (Hm : keeps (touches i) m).
  { unfold m. keeps_step ltac:(first [apply keeps_itrunc | apply keeps_iupdate
      | apply keeps_updi; done]). }
  unfold mbind, M_bind in Hrun. destruct (m x) as [[] x1| | |] eqn:E; try done.
  injection Hrun as <-. exists x1. split; [by eapply Hm|done].
Qed.

Lemma iget_cases dev inum x i x' :
  iget dev inum x = Ok i x' ->
  exists ip, icache x !! i = Some ip /\
    ((0 < i_ref ip /\ ikey ip = (dev, inum) /\
      icache x' = alter (fun ip => set_iref (i_ref ip + 1) ip) i (icache x)) \/
     (i_ref ip = 0 /\
      (forall j jp, icache x !! j = Some jp -> 0 < i_ref jp -> ikey jp <> (dev, inum)) /\
      icache x' = alter (fun ip => Inode dev inum 1 0 (i_type ip) (i_major ip) (i_minor ip)
                                   (i_nlink ip) (i_size ip) (i_addrs ip)) i (icache x))).
Proof.
  unfold iget, mbind, M_bind, gets, updi, modify. simpl.
  destruct (list_find _ (icache x)) as [[j jp]|] eqn:E1.
  - apply list_find_Some in E1 as (Hj & Hp & _). intros [= <- <-]. exists jp. split; [done|]. left.
    apply Is_true_true in Hp. apply andb_true_iff in Hp as [[H1 H2]%andb_true_iff H3].
    split_and!; [lia|unfold ikey; f_equal; lia|done].
  - apply list_find_None in E1. rewrite Forall_lookup in E1.
    destruct (list_find (fun ip => i_ref ip =? 0) (icache x)) as [[j jp]|] eqn:E2; [|done].
    apply list_find_Some in E2 as (Hj & Hp & _). apply Is_true_true in Hp.
    intros [= <- <-]. exists jp. split; [done|]. right. split_and!; [lia| |done].
    intros k kp Hk Hpos [= Hd Hn]. apply (E1 _ _ Hk). apply Is_true_true.
    rewrite Hd, Hn, !Z.eqb_refl, !andb_true_r. lia.
Qed.

Lemma iget_refs x refs dev inum i x' :
  refs_inv x refs -> iget dev inum x = Ok i x' -> refs_inv x' ((i, (dev, inum)) :: refs).
Proof.
  intros Hinv (ip & Hip & [(Hr & Hk & Hx')|(Hr & Hno & Hx')])%iget_cases.
  - eapply (refs_inv_change x x' refs _ i 1); rewrite ?Hx'; try done.
    + intros j Hj. by rewrite list_lookup_alter_ne.
    + intros ip0 Hip0. rewrite list_lookup_alter_eq, Hip0. by eexists.
    + intros j. rewrite refs_to_cons. by destruct (decide (i = j)), (decide (j = i)).
    + intros j k [[= -> ->]|Hin]%elem_of_cons; [|by left]. right. eauto.
    + intros ip0 Hip0. left. congruence.
  - destruct Hinv as (H1 & H2 & H3). pose proof (H1 _ _ Hip) as Hz. rewrite Hr in Hz.
    assert (Hnone : forall k, (i, k) ∉ refs) by (intros k Hin%refs_to_pos; lia).
    assert (Hlk : forall j jp, icache x' !! j = Some jp ->
              (j = i /\ i_ref jp = 1 /\ ikey jp = (dev, inum)) \/ (j <> i /\ icache x !! j = Some jp)).
    { intros j jp. rewrite Hx'. destruct (decide (j = i)) as [->|N].
      - rewrite list_lookup_alter_eq, Hip. intros [= <-]. by left.
      - rewrite list_lookup_alter_ne by done. by right. }
    split_and!.
    + intros j jp [(-> & -> & _)|(N & Hj)]%Hlk; rewrite refs_to_cons.
      * rewrite decide_True by done. lia.
      * rewrite decide_False by done. rewrite (H1 _ _ Hj). lia.
    + intros j k [[= -> ->]|Hin]%elem_of_cons.
      * rewrite Hx', list_lookup_alter_eq, Hip. by eexists.
      * destruct (H2 _ _ Hin) as (jp & Hjp & Hk). exists jp. rewrite Hx'.
        rewrite list_lookup_alter_ne; [done|]. intros <-. by apply (Hnone k).
    + intros j1 j2 p1 p2 [(-> & R1 & K1)|(N1 & E1)]%Hlk [(-> & R2 & K2)|(N2 & E2)]%Hlk P1 P2 Hk.
      * done.
      * destruct (Hno _ _ E2 P2). congruence.
      * destruct (Hno _ _ E1 P1). congruence.
      * by eapply H3.
Qed.

Lemma idup_refs x refs i k j x' :
  refs_inv x refs -> (i, k) ∈ refs -> idup i x = Ok j x' -> j = i /\ refs_inv x' ((i, k) :: refs).
Proof.
  intros Hinv Hin Hrun. injection Hrun as <- <-. split; [done|].
  pose proof Hinv as (H1 & H2 & _). destruct (H2 _ _ Hin) as (ip & Hip & Hk).
  eapply (refs_inv_change x _ refs _ i 1); simpl; try done.
  - intros j Hj. by rewrite list_lookup_alter_ne.
  - intros ip0 Hip0. rewrite list_lookup_alter_eq, Hip0. by eexists.
  - intros j. rewrite refs_to_cons. by destruct (decide (i = j)), (decide (j = i)).
  - intros j k' [[= -> ->]|Hin']%elem_of_cons; [|by left]. right. eauto.
  - intros ip0 Hip0. left. rewrite (H1 _ _ Hip0). by eapply refs_to_pos.
Qed.

Lemma iput_refs x r1 i k r2 x' :
  refs_inv x (r1 ++ (i, k) :: r2) -> iput i x = Ok tt x' -> refs_inv x' (r1 ++ r2).
Proof.
  intros Hinv (x1 & (T1 & T2 & T3) & ->)%iput_frame. pose proof Hinv as (H1 & H2 & _).
  eapply (refs_inv_change x _ _ _ i (-1)); simpl; try done.
  - intros j Hj. by rewrite list_lookup_alter_ne, T1.
  - intros ip Hip. destruct (T3 _ Hip) as (ip' & Hip' & Hd & Hn & Hr).
    rewrite list_lookup_alter_eq, Hip'. eexists. split; [done|]. unfold ikey. simpl.
    split; [congruence|lia].
  - intros _. apply lookup_lt_is_Some. rewrite <- T2. apply lookup_lt_is_Some.
    destruct (H2 i k) as (ip & Hip & _); [set_solver|]. destruct (T3 _ Hip) as (ip' & -> & _). by eexists.
  - intros j. rewrite !refs_to_app, refs_to_cons. by destruct (decide (i = j)), (decide (j = i)); lia.
  - intros j k' Hin. left. set_solver.
  - intros. right. lia.
Qed.

Lemma use_refs x refs i x' : refs_inv x refs -> touches i x x' -> refs_inv x' refs.
Proof.
  intros Hinv (T1 & T2 & T3). eapply (refs_inv_change x _ _ _ i 0); try done.
  - intros ip Hip. destruct (T3 _ Hip) as (ip' & Hip' & Hd & Hn & Hr). exists ip'.
    unfold ikey. split_and!; [done|congruence|lia].
  - intros Hs%lookup_lt_is_Some. apply lookup_lt_is_Some. by rewrite <- T2.
  - intros j. destruct (decide (j = i)); lia.
  - auto.
  - intros. right. lia.
Qed.

Lemma itrace_inv x refs : itrace x refs -> refs_inv x refs.
Proof.
  induction 1 as [x Hx|x refs dev inum i x' _ IH Hrun|x refs i k x' j _ IH Hin Hrun
    |x r1 i k r2 x' _ IH Hrun|x refs i x' _ IH Ht].
  - split_and!; [intros; rewrite (Hx _ _ H); done|intros i k Hk; by apply not_elem_of_nil in Hk|].
    intros i j ip jp Hi _ Hp. rewrite (Hx _ _ Hi) in Hp. lia.
  - by eapply iget_refs.
  - by destruct (idup_refs _ _ _ _ _ _ IH Hin Hrun) as [-> ?].
  - by eapply iput_refs.
  - by eapply use_refs.
Qed.
End Refs.

(** Reference counting in the inode cache.  After any history of [iget],
    [idup], [iput] (the last of which may truncate and free the inode) and
    uses of inodes, [ip->ref] of every slot is the number of references out
    to it, every reference still denotes the inode it was obtained for, and
    two references to the same inode denote the same slot. *)
Theorem icache_refcounts {S} `{HB : !BlockOps S} (x : fs S) refs :
  itrace x refs ->
  (forall i ip, icache x !! i = Some ip -> i_ref ip = refs_to i refs) /\
  (forall i k, (i, k) ∈ refs -> exists ip, icache x !! i = Some ip /\ ikey ip = k) /\
  (forall i j k, (i, k) ∈ refs -> (j, k) ∈ refs -> i = j).
Proof.
  intros Htr%itrace_inv. destruct Htr as (H1 & H2 & H3). split_and!; [done|done|].
  intros i j k Hi Hj. destruct (H2 _ _ Hi) as (ip & Hip & Hk1), (H2 _ _ Hj) as (jp & Hjp & Hk2).
  apply (H3 _ _ ip jp Hip Hjp); [| |congruence].
  - rewrite (H1 _ _ Hip). by eapply refs_to_pos.
  - rewrite (H1 _ _ Hjp). by eapply refs_to_pos.
Qed.

(** Two references to the root and one to "hello". *)
Lemma icache_refcounts_witness :
  exists x, itrace x [(1%nat, (1, 2)); (0%nat, (1, 1)); (0%nat, (1, 1))] /\
    (forall i ip, icache x !! i = Some ip ->
       i_ref ip = refs_to i [(1%nat, (1, 2)); (0%nat, (1, 1)); (0%nat, (1, 1))]).
Proof.
  assert (H0 : itrace demo_fs []).
  { apply it_init. intros i ip Hip. apply lookup_replicate in Hip as [-> _]. done. }
  eassert (H1 : itrace _ _) by (eapply (it_get _ _ 1 1); [exact H0|reflexivity]).
  eassert (H2 : itrace _ _) by (eapply (it_get _ _ 1 1); [exact H1|reflexivity]).
  eassert (H3 : itrace _ _) by (eapply (it_get _ _ 1 2); [exact H2|reflexivity]).
  eexists. split; [exact H3|]. apply (icache_refcounts _ _ H3).
Defined.

(** ** The on-disk inode *)

(** The fields the disk has a copy of. *)
Definition dfields (ip : inode) : Z * Z * Z * Z * Z * list Z :=
  (i_type ip, i_major ip, i_minor ip, i_nlink ip, i_size ip, i_addrs ip).

(** The fields fit their C types. *)
Definition is_short (z : Z) : Prop := - 2 ^ 15 <= z < 2 ^ 15.
Definition is_uint (z : Z) : Prop := 0 <= z < 2 ^ 32.
Definition inode_typed (ip : inode) : Prop :=
  is_short (i_type ip) /\ is_short (i_major ip) /\ is_short (i_minor ip) /\ is_short (i_nlink ip) /\
  is_uint (i_size ip) /\ length (i_addrs ip) = 13%nat /\ Forall is_uint (i_addrs ip).

Lemma dinode_off_bound inum : (dinode_off inum + 64 <= BLEN)%nat.
Proof. unfold dinode_off, BLEN. fs_lia. Qed.

Lemma length_store_dinode ip off data :
  length (i_addrs ip) = 13%nat -> (off + 64 <= length data)%nat ->
  length (store_dinode ip off data) = length data.
Proof.
  intros Ha Hl. unfold store_dinode, addrs_enc.
  rewrite length_splice; rewrite ?length_words_enc; len_lia.
Qed.

Lemma s16_mod z : is_short z -> s16 (z mod 256 ^ Z.of_nat 2) = z.
Proof.
  intros Hz. change (256 ^ Z.of_nat 2) with (2 ^ 16). unfold s16. rewrite Z.mod_mod by lia.
  fold (s16 z). by apply s16_small.
Qed.

Lemma load_store_same ip ip0 off data :
  inode_typed ip -> (off + 64 <= length data)%nat ->
  dfields (load_dinode (store_dinode ip off data) off ip0) = dfields ip.
Proof.
  intros (H1 & H2 & H3 & H4 & H5 & H6 & H7) Hl. unfold dfields, load_dinode, dip_type. simpl.
  assert (Henc : length (addrs_enc (i_addrs ip)) = 52%nat)
    by (unfold addrs_enc; rewrite length_words_enc; lia).
  assert (Hlow : forall n o, (o + n <= off + 12)%nat -> ldw n (store_dinode ip off data) o =
    ldw n (stw 4 (off + 8) (i_size ip) (stw 2 (off + 6) (i_nlink ip) (stw 2 (off + 4) (i_minor ip)
      (stw 2 (off + 2) (i_major ip) (stw 2 off (i_type ip) data))))) o).
  { intros n o Ho. unfold ldw, store_dinode. rewrite slice_splice_other; [done| |lia].
    rewrite Henc. len_lia. }
  repeat f_equal.
  - rewrite Hlow, !ldw_stw_other, ldw_stw_same by len_lia. by apply s16_mod.
  - rewrite Hlow, !ldw_stw_other, ldw_stw_same by len_lia. by apply s16_mod.
  - rewrite Hlow, !ldw_stw_other, ldw_stw_same by len_lia. by apply s16_mod.
  - rewrite Hlow, !ldw_stw_other, ldw_stw_same by len_lia. by apply s16_mod.
  - rewrite Hlow, ldw_stw_same by len_lia. by apply Z.mod_small.
  - apply list_eq. intros i. unfold addrs_dec. rewrite list_lookup_fmap.
    destruct (decide (i < 13)%nat) as [Hi|Hi].
    + rewrite lookup_seq_lt by done. simpl.
      destruct (lookup_lt_is_Some_2 (i_addrs ip) i) as [a Ha]; [lia|]. rewrite Ha. f_equal.
      unfold store_dinode, ldw at 1. rewrite slice_splice_inner.
      * change (le_dec _) with (ldw 4 (i_addrs ip ≫= le_enc 4) (4 * i)).
        rewrite (ldw_words_enc 4 _ i a Ha). apply Z.mod_small. exact (Forall_lookup_1 _ _ _ _ H7 Ha).
      * rewrite Henc. len_lia.
      * lia.
    + rewrite lookup_seq_ge, lookup_ge_None_2 by lia. done.
Qed.

(** Storing an inode leaves the other seven of its block alone. *)
Lemma load_store_other ip ip0 inum inum' data :
  length (i_addrs ip) = 13%nat -> length data = BLEN -> inum mod IPB <> inum' mod IPB ->
  load_dinode (store_dinode ip (dinode_off inum) data) (dinode_off inum') ip0 =
  load_dinode data (dinode_off inum') ip0.
Proof.
  intros Ha Hl Hne. pose proof (dinode_off_bound inum). pose proof (dinode_off_bound inum').
  assert (Hd : (dinode_off inum + 64 <= dinode_off inum' \/ dinode_off inum' + 64 <= dinode_off inum)%nat).
  { unfold dinode_off. fs_lia. }
  assert (Henc : length (addrs_enc (i_addrs ip)) = 52%nat)
    by (unfold addrs_enc; rewrite length_words_enc; lia).
  assert (Hld : forall n o, (o + n <= 64)%nat ->
    ldw n (store_dinode ip (dinode_off inum) data) (dinode_off inum' + o) =
    ldw n data (dinode_off inum' + o)).
  { intros n o Ho. unfold ldw, store_dinode.
    rewrite slice_splice_other by (rewrite Henc; len_lia).
    change (le_dec (slice ?a ?b ?l)) with (ldw b l a). by rewrite !ldw_stw_other by len_lia. }
  unfold load_dinode, dip_type. rewrite <- (Nat.add_0_r (dinode_off inum')).
  rewrite <- !Nat.add_assoc. rewrite !Hld by (simpl; lia). f_equal.
  unfold addrs_dec. apply list_fmap_ext. intros i k Hk. apply lookup_seq in Hk as [-> Hk].
  rewrite <- !Nat.add_assoc. apply Hld. simpl. lia.
Qed.

(** Inode [inum] as the disk has it. *)
Definition dinode (d : sectors) (dev inum : Z) : inode :=
  load_dinode (blk d (dev, IBLOCK inum)) (dinode_off inum) null_inode.

Definition put_inode (ip : inode) (d : sectors) : sectors :=
  <[(i_dev ip, IBLOCK (i_inum ip)) :=
     store_dinode ip (dinode_off (i_inum ip)) (blk d (i_dev ip, IBLOCK (i_inum ip)))]> d.

Lemma dinode_put_same ip d :
  inode_typed ip -> length (blk d (i_dev ip, IBLOCK (i_inum ip))) = BLEN ->
  dfields (dinode (put_inode ip d) (i_dev ip) (i_inum ip)) = dfields ip.
Proof.
  intros Ht Hl. unfold dinode, put_inode. rewrite blk_insert. apply load_store_same; [done|].
  rewrite Hl. apply dinode_off_bound.
Qed.

Lemma dinode_put_other ip d dev inum :
  length (i_addrs ip) = 13%nat -> length (blk d (i_dev ip, IBLOCK (i_inum ip))) = BLEN ->
  (dev, inum) <> (i_dev ip, i_inum ip) -> dinode (put_inode ip d) dev inum = dinode d dev inum.
Proof.
  intros Ht Hl Hne. unfold dinode, put_inode.
  destruct (decide ((dev, IBLOCK inum) = (i_dev ip, IBLOCK (i_inum ip)))) as [E|E].
  - rewrite E, blk_insert. apply load_store_other; [done|done|].
    intros Hm. injection E as -> E. apply Hne. f_equal. unfold IBLOCK in E. fs_lia.
  - by rewrite blk_insert_ne.
Qed.

Section InodeOps.
Context {S : Type} `{HB : !BlockOps S} `{HS : !BlockSpec S}.
Implicit Types (x : fs S) (d : sectors) (H : holds) (ic : list inode).

Lemma iupdate_wp x d H ic i ip (Q : unit -> fs S -> Prop) :
  at_fs x d H ic -> ic !! i = Some ip -> length (i_addrs ip) = 13%nat ->
  addressable (i_dev ip, IBLOCK (i_inum ip)) ->
  not_held H (i_dev ip, IBLOCK (i_inum ip)) -> (size H < bcap)%nat ->
  (forall x', at_fs x' (put_inode ip d) H ic -> Q tt x') -> wp (iupdate i) Q x.
Proof.
  intros Hx Hip Ht Ha Hn Hs HQ. unfold iupdate. wp_step. eapply geti_wp; [done|done|]. wp_step.
  eapply bread__wp; [done..|]. intros bp x1 Hbp Hx1. wp_step.
  eapply bupd_wp; [done|apply lookup_insert_eq| |].
  { rewrite length_store_dinode; [by eapply at_fs_blk|done|].
    rewrite (at_fs_blk _ _ _ _ _ Hx1). apply dinode_off_bound. }
  intros x2 Hx2. wp_step. eapply bwrite__wp; [done|apply lookup_insert_eq|]. intros x3 Hx3.
  eapply brelse__wp; [done|apply lookup_insert_eq|by rewrite blk_insert|]. intros x4 Hx4.
  rewrite release_fresh2 in Hx4 by done. by apply HQ.
Qed.

(** The inode as [ilock] leaves it. *)
Definition locked d (ip : inode) : inode :=
  if tst (i_flags ip) I_VALID then set_iflags (Z.lor (i_flags ip) I_BUSY) ip
  else set_iflags (Z.lor (Z.lor (i_flags ip) I_BUSY) I_VALID)
         (load_dinode (blk d (i_dev ip, IBLOCK (i_inum ip))) (dinode_off (i_inum ip)) ip).

Lemma ilock_wp x d H ic i ip (Q : unit -> fs S -> Prop) :
  at_fs x d H ic -> ic !! i = Some ip -> 1 <= i_ref ip -> tst (i_flags ip) I_BUSY = false ->
  addressable (i_dev ip, IBLOCK (i_inum ip)) ->
  not_held H (i_dev ip, IBLOCK (i_inum ip)) -> (size H < bcap)%nat ->
  (tst (i_flags ip) I_VALID = false -> i_type (locked d ip) <> 0) ->
  (forall x', at_fs x' d H (<[i := locked d ip]> ic) -> Q tt x') -> wp (ilock i) Q x.
Proof.
  intros Hx Hip Hr Hb Ha Hn Hs Hty HQ. unfold ilock. wp_step. eapply geti_wp; [done|done|].
  replace (i_ref ip <? 1) with false by lia. rewrite Hb. wp_step.
  eapply updi_wp; [done|]. intros x1 Hx1.
  assert (Hins : forall f, alter f i ic = <[i := f ip]> ic) by (intros; by apply alter_insert_some).
  unfold locked in *. destruct (tst (i_flags ip) I_VALID) eqn:Hv.
  { wp_step. apply HQ. by rewrite Hins in Hx1. }
  specialize (Hty eq_refl). wp_step. eapply bread__wp; [done..|]. intros bp x2 Hbp Hx2. wp_step.
  eapply data_of_wp; [done|apply lookup_insert_eq|]. wp_step.
  eapply updi_wp; [done|]. intros x3 Hx3. wp_step.
  eapply brelse__wp; [done|apply lookup_insert_eq|done|]. intros x4 Hx4.
  rewrite release_fresh in Hx4 by done. wp_step. eapply updi_wp; [done|]. intros x5 Hx5. wp_step.
  rewrite !list_alter_alter_eq, Hins in Hx5.
  eapply geti_wp; [done|apply list_lookup_insert_eq; by eapply lookup_lt_Some|].
  unfold compose in *. simpl in *. wp_step; [lia|]. by apply HQ.
Qed.
End InodeOps.

(** The on-disk inode.  [iupdate] followed, once the slot has been recycled
    and its fields are junk, by [ilock] restores every field (negative shorts
    and all 13 block addresses included), and [iupdate] changes no other
    inode on the disk, in the same block or elsewhere. *)
Theorem iupdate_ilock_roundtrip {S} `{HB : !BlockOps S} `{HS : !BlockSpec S}
    (x : fs S) d ic i ip junk :
  (0 < bcap)%nat -> at_fs x d ∅ ic -> ic !! i = Some ip -> inode_typed ip -> i_type ip <> 0 ->
  addressable (i_dev ip, IBLOCK (i_inum ip)) ->
  i_dev junk = i_dev ip -> i_inum junk = i_inum ip -> 1 <= i_ref junk -> i_flags junk = 0 ->
  exists x1 x2 d' ip', iupdate i x = Ok tt x1 /\ at_fs x1 d' ∅ ic /\
    ilock i (MkFs (io x1) (<[i := junk]> ic)) = Ok tt x2 /\
    icache x2 !! i = Some ip' /\ dfields ip' = dfields ip /\
    i_flags ip' = Z.lor I_BUSY I_VALID /\
    forall dev inum, (dev, inum) <> (i_dev ip, i_inum ip) -> dinode d' dev inum = dinode d dev inum.
Proof.
  intros Hcap Hx Hip Ht Hty Ha Jd Jn Jr Jf. pose proof Ht as (_ & _ & _ & _ & _ & Hlen & _).
  assert (Hbl : length (blk d (i_dev ip, IBLOCK (i_inum ip))) = BLEN) by by eapply at_fs_blk.
  assert (Hwp : wp (iupdate i) (fun _ x' => at_fs x' (put_inode ip d) ∅ ic) x).
  { eapply iupdate_wp; [done..|apply not_held_empty|by rewrite map_size_empty|done]. }
  destruct (wp_elim _ _ _ Hwp) as ([] & x1 & Hrun1 & Hx1).
  assert (Hi : (i < length ic)%nat) by by eapply lookup_lt_Some.
  set (ic1 := <[i := junk]> ic). assert (Hx1' : at_fs (MkFs (io x1) ic1) (put_inode ip d) ∅ ic1).
  { by destruct Hx1 as [Hb _]. }
  pose proof (dinode_put_same ip d Ht Hbl) as Hsame.
  assert (Hlk : dfields (locked (put_inode ip d) junk) = dfields ip).
  { unfold locked. rewrite Jf, tst_0_l. unfold dfields. simpl. rewrite Jd, Jn. exact Hsame. }
  assert (Hwp2 : wp (ilock i) (fun _ x' => at_fs x' (put_inode ip d) ∅
            (<[i := locked (put_inode ip d) junk]> ic1)) (MkFs (io x1) ic1)).
  { eapply ilock_wp; [done|by apply list_lookup_insert_eq|done|by rewrite Jf| | | | |done].
    - by rewrite Jd, Jn.
    - apply not_held_empty.
    - by rewrite map_size_empty.
    - intros _ E. apply Hty. unfold dfields in Hlk. congruence. }
  destruct (wp_elim _ _ _ Hwp2) as ([] & x2 & Hrun2 & [_ Hic2]).
  exists x1, x2, (put_inode ip d), (locked (put_inode ip d) junk). split_and!; try done.
  - rewrite Hic2. apply list_lookup_insert_eq. unfold ic1. by rewrite length_insert.
  - unfold locked. rewrite Jf, tst_0_l. done.
  - intros dev inum Hne. by apply dinode_put_other.
Qed.

(** "hello" with a link count of -1 and a device number, and a recycled slot. *)
Definition rt_inode : inode := Inode 1 2 1 0 T_FILE (-7) 3 (-1) 3 (6 :: replicate 12 0).
Definition rt_junk : inode := Inode 1 2 1 0 9 9 9 9 9 (replicate 13 9).

Lemma iupdate_ilock_roundtrip_witness :
  exists x1 x2 d' ip',
    iupdate 0 (MkFs (io demo_fs) (<[0%nat := rt_inode]> demo_icache)) = Ok tt x1 /\
    at_fs x1 d' ∅ (<[0%nat := rt_inode]> demo_icache) /\
    ilock 0 (MkFs (io x1) (<[0%nat := rt_junk]> (<[0%nat := rt_inode]> demo_icache))) = Ok tt x2 /\
    icache x2 !! 0%nat = Some ip' /\ dfields ip' = dfields rt_inode /\
    i_flags ip' = Z.lor I_BUSY I_VALID /\
    forall dev inum, (dev, inum) <> (1, 2) -> dinode d' dev inum = dinode demo_disk dev inum.
Proof.
  apply (iupdate_ilock_roundtrip (MkFs (io demo_fs) (<[0%nat := rt_inode]> demo_icache))
           demo_disk (<[0%nat := rt_inode]> demo_icache) 0 rt_inode rt_junk).
  - vm_compute. lia.
  - split; [apply demo_at_fs|reflexivity].
  - reflexivity.
  - unfold inode_typed, is_short, is_uint. cbn -[Z.pow]. unfold T_FILE. split_and!; try lia.
    repeat (apply Forall_cons_2; [lia|]). apply Forall_nil_2.
  - discriminate.
  - split; simpl; [lia|]. unfold IBLOCK. fs_lia.
  - reflexivity.
  - reflexivity.
  - simpl. lia.
  - reflexivity.
Defined.
