(* ===== verification/FsFile.v ===== *)
(** * File contents in [src/fs.c]: bmap, readi, writei, itrunc

    The bytes of a file are found through its direct blocks and its indirect
    block.  [inode_ok] says that an inode's blocks are its own: in the data
    area, marked in the bitmap, and no two of them the same.  Against that
    invariant [readi] returns a slice of the file's bytes, [writei] overwrites
    one and keeps the invariant, and both leave every other file alone. *)

From stdpp Require Import base numbers strings list gmap list_numbers.
From Stdlib Require Import Lia ZArith ZifyBool.
From S2P Require Import Prelude Ide BlockDev Fs FsAlloc DemoDisk FsInode.
Open Scope Z_scope.

Lemma ldw_zero_block n o : ldw n zero_block o = 0.
Proof.
  unfold ldw, slice, zero_block. rewrite drop_replicate, take_replicate.
  generalize (n `min` (BLEN - o))%nat. intros m. induction m as [|m IH]; [done|]. simpl. by rewrite IH.
Qed.

Lemma byte_at_zero_block i : byte_at zero_block i = 0.
Proof.
  unfold byte_at, zero_block. destruct (replicate BLEN 0 !! Z.to_nat i) eqn:E; [|done].
  by apply lookup_replicate in E as [-> _].
Qed.

Lemma addr_at_set bn bn' a ip :
  length (i_addrs ip) = 13%nat -> 0 <= bn < 13 -> 0 <= bn' ->
  addr_at (set_addr bn a ip) bn' = if bn =? bn' then a else addr_at ip bn'.
Proof.
  intros Hl Hb Hb'. unfold addr_at, set_addr. simpl. destruct (Z.eqb_spec bn bn') as [<-|].
  - by rewrite list_lookup_insert_eq by lia.
  - by rewrite list_lookup_insert_ne by lia.
Qed.

Section File.
Context (dev sz ni : Z).
Implicit Types (d : sectors) (ip : inode).

Abbreviation bit := (bit dev ni).
Abbreviation mark := (mark dev ni).
Abbreviation datastart := (datastart sz ni).
Abbreviation bmstart := (bmstart ni).

(** The indirect block, and block [bn] of the file; 0 when there is none. *)
Definition ind ip : Z := addr_at ip NDIRECT.
Definition baddr d ip (bn : Z) : Z :=
  if bn <? NDIRECT then addr_at ip bn
  else if ind ip =? 0 then 0
  else ldw 4 (blk d (dev, ind ip)) (Z.to_nat (4 * (bn - NDIRECT))).

(** Byte [o] of the file. *)
Definition fbyte d ip (o : Z) : Z := byte_at (blk d (dev, baddr d ip (o / BSIZE))) (o mod BSIZE).

Definition in_file d ip (b : Z) : Prop :=
  b <> 0 /\ (b = ind ip \/ exists bn, 0 <= bn < MAXFILE /\ b = baddr d ip bn).

(** The disk as a whole: metadata blocks are marked, free blocks are zero. *)
Definition disk_ok d : Prop :=
  geom dev sz ni d /\ (forall k, length (blk d k) = BLEN) /\
  (forall b, 0 <= b < datastart -> bit d b = true) /\
  (forall b, 0 <= b < sz -> bit d b = false -> blk d (dev, b) = zero_block).

Record inode_ok d ip : Prop := InodeOk {
  ok_dev : i_dev ip = dev;
  ok_len : length (i_addrs ip) = 13%nat;
  ok_own : forall b, in_file d ip b -> datastart <= b < sz /\ bit d b = true;
  ok_inj : forall bn bn', 0 <= bn < MAXFILE -> 0 <= bn' < MAXFILE -> baddr d ip bn <> 0 ->
           baddr d ip bn = baddr d ip bn' -> bn = bn';
  ok_ind : forall bn, 0 <= bn < MAXFILE -> ind ip <> 0 -> baddr d ip bn <> ind ip
}.

(** From [d], [ip] to [d'], [ip']: only the file's own blocks, free blocks and
    the bitmap have changed, bits were only set, and the file took only free
    blocks. *)
Record ext d ip d' ip' : Prop := Ext {
  e_frame : forall b, 0 <= b < sz -> bit d b = true -> ~ in_file d ip b ->
            (b < bmstart \/ datastart <= b) -> blk d' (dev, b) = blk d (dev, b);
  e_dev : forall k, k.1 <> dev -> blk d' k = blk d k;
  e_bits : forall b, 0 <= b < sz -> bit d b = true -> bit d' b = true;
  e_own : forall b, 0 <= b < sz -> in_file d' ip' b -> in_file d ip b \/ bit d b = false;
  e_fields : ip' = set_iaddrs (i_addrs ip') ip
}.

Lemma ext_refl d ip : ext d ip d ip.
Proof. constructor; try done; [auto|by destruct ip]. Qed.

Lemma ext_trans d ip d1 ip1 d2 ip2 : ext d ip d1 ip1 -> ext d1 ip1 d2 ip2 -> ext d ip d2 ip2.
Proof.
  intros [F1 D1 B1 O1 E1] [F2 D2 B2 O2 E2]. constructor.
  - intros b Hb Hbit Hno Hr. rewrite F2, F1; auto.
    intros Hin. destruct (O1 _ Hb Hin); [done|congruence].
  - intros k Hk. by rewrite D2, D1.
  - auto.
  - intros b Hb Hin. destruct (O2 _ Hb Hin) as [H|H]; [by apply O1|].
    right. destruct (bit d b) eqn:E; [|done]. rewrite B1 in H; done.
  - rewrite E2, E1. done.
Qed.

Lemma disk_ok_data d b : disk_ok d -> 0 <= b < sz -> bit d b = false -> datastart <= b.
Proof.
  intros (_ & _ & Hm & _) Hb Hf. destruct (Z.leb_spec datastart b); [done|].
  rewrite Hm in Hf by lia. done.
Qed.

Lemma disk_ok_bounds d : disk_ok d -> 3 <= bmstart < datastart /\ 0 < sz <= 2 ^ 28 /\ 0 <= ni /\ 0 <= dev <= 1.
Proof.
  intros ([_ _ ? ? ? _] & _). split_and!; try lia.
  - unfold FsAlloc.bmstart. fs_lia.
  - unfold FsAlloc.datastart, FsAlloc.bmstart. fs_lia.
Qed.

Lemma in_file_baddr d ip bn : 0 <= bn < MAXFILE -> baddr d ip bn <> 0 -> in_file d ip (baddr d ip bn).
Proof. intros. split; [done|]. right. eauto. Qed.

Lemma in_file_ind d ip : ind ip <> 0 -> in_file d ip (ind ip).
Proof. intros. split; [done|]. by left. Qed.

(** ** Taking a free block *)

Lemma blk_mark_data d b b' :
  disk_ok d -> 0 <= b < sz -> b' < bmstart \/ datastart <= b' ->
  blk (mark b d) (dev, b') = blk d (dev, b').
Proof.
  intros Hd Hb Hb'. pose proof (disk_ok_bounds d Hd) as (_ & _ & Hni & _).
  pose proof (bblock_range sz ni b Hni Hb). apply blk_mark_ne. intros [=]. lia.
Qed.

Lemma disk_ok_mark d b : disk_ok d -> 0 <= b < sz -> bit d b = false -> disk_ok (mark b d).
Proof.
  intros Hd Hb Hf. pose proof Hd as (Hg & Hl & Hm & Hz). pose proof (disk_ok_bounds d Hd) as ((H3 & _) & _).
  split_and!.
  - eapply geom_ext; [|done]. apply blk_mark_data; [done|done|]. left. lia.
  - intros k. unfold FsAlloc.mark. destruct (decide ((dev, BBLOCK b ni) = k)) as [<-|].
    + rewrite blk_insert, length_set_bit. done.
    + by rewrite blk_insert_ne.
  - intros b' Hb'. rewrite bit_mark by done. rewrite Hm by done. by rewrite orb_true_r.
  - intros b' Hb' Hf'. rewrite bit_mark in Hf' by done. apply orb_false_iff in Hf' as [_ Hf'].
    rewrite blk_mark_data; [by apply Hz|done|done|]. right. by apply (disk_ok_data d).
Qed.

Lemma baddr_ext d d' ip bn :
  (ind ip <> 0 -> blk d' (dev, ind ip) = blk d (dev, ind ip)) -> baddr d' ip bn = baddr d ip bn.
Proof.
  intros E. unfold baddr. destruct (bn <? NDIRECT); [done|].
  destruct (Z.eqb_spec (ind ip) 0); [done|]. by rewrite E.
Qed.

(** Block [b], free before, becomes block [bn] of the file. *)
Lemma attach_block d ip d' ip' bn b :
  disk_ok d -> inode_ok d ip -> 0 <= b < sz -> bit d b = false -> 0 <= bn < MAXFILE ->
  baddr d ip bn = 0 ->
  (forall bn', 0 <= bn' < MAXFILE -> baddr d' ip' bn' = if bn =? bn' then b else baddr d ip bn') ->
  ip' = set_iaddrs (i_addrs ip') ip -> length (i_addrs ip') = 13%nat -> ind ip' = ind ip ->
  (forall b', (ind ip <> 0 -> b' <> ind ip) -> b' < bmstart \/ datastart <= b' -> blk d' (dev, b') = blk d (dev, b')) ->
  (forall k, k.1 <> dev -> blk d' k = blk d k) ->
  (forall b', 0 <= b' < sz -> bit d' b' = (b =? b') || bit d b') ->
  inode_ok d' ip' /\ ext d ip d' ip'.
Proof.
  intros Hd Hok Hb Hf Hbn H0 Hba Hip' Hlen Hind Hblk Hdev Hbit.
  pose proof (disk_ok_data d b Hd Hb Hf) as Hdb. pose proof (disk_ok_bounds d Hd) as (Hbm & _).
  assert (Hin : forall b', in_file d' ip' b' -> b' = b \/ in_file d ip b').
  { intros b' [Hne [->|(bn' & Hbn' & ->)]].
    - right. rewrite Hind in *. by apply in_file_ind.
    - rewrite Hba in * by done. destruct (Z.eqb_spec bn bn'); [by left|]. right. by apply in_file_baddr. }
  assert (Hfresh : ~ in_file d ip b).
  { intros Hib. destruct (ok_own _ _ Hok b Hib). congruence. }
  split.
  - constructor.
    + rewrite Hip'. apply (ok_dev _ _ Hok).
    + done.
    + intros b' [->|Hb']%Hin; [split; [lia|]; by rewrite Hbit, Z.eqb_refl by lia|].
      destruct (ok_own _ _ Hok b' Hb') as [Hr Hbt]. split; [done|].
      rewrite Hbit, Hbt, orb_true_r by lia. done.
    + intros b1 b2 H1 H2. rewrite !Hba by done.
      destruct (Z.eqb_spec bn b1) as [<-|], (Z.eqb_spec bn b2) as [<-|]; [done| | |].
      * intros Hne E. destruct Hfresh. rewrite E. apply in_file_baddr; [done|congruence].
      * intros Hne E. destruct Hfresh. rewrite <- E. by apply in_file_baddr.
      * by apply (ok_inj _ _ Hok).
    + intros b1 H1. rewrite Hba, Hind by done. destruct (Z.eqb_spec bn b1); [|by apply (ok_ind _ _ Hok)].
      intros Hi E. destruct Hfresh. rewrite E. by apply in_file_ind.
  - constructor; try done.
    + intros b' Hb' Hbt Hno Hr. apply Hblk; [|done]. intros Hi ->. by apply Hno, in_file_ind.
    + intros b' Hb' Hbt. rewrite Hbit, Hbt, orb_true_r by done. done.
    + intros b' Hb' [->|Hi]%Hin; auto.
Qed.

Lemma attach_direct d ip bn b :
  disk_ok d -> inode_ok d ip -> 0 <= b < sz -> bit d b = false -> 0 <= bn < NDIRECT ->
  addr_at ip bn = 0 ->
  inode_ok (mark b d) (set_addr bn b ip) /\ ext d ip (mark b d) (set_addr bn b ip) /\
  (forall bn', 0 <= bn' < MAXFILE ->
     baddr (mark b d) (set_addr bn b ip) bn' = if bn =? bn' then b else baddr d ip bn').
Proof.
  intros Hd Hok Hb Hf Hbn H0. pose proof (ok_len _ _ Hok) as Hlen.
  assert (Hind : ind (set_addr bn b ip) = ind ip).
  { unfold ind. rewrite addr_at_set by (done || fs_lia). destruct (Z.eqb_spec bn NDIRECT); [fs_lia|done]. }
  assert (Hba : forall bn', 0 <= bn' < MAXFILE ->
    baddr (mark b d) (set_addr bn b ip) bn' = if bn =? bn' then b else baddr d ip bn').
  { intros bn' Hbn'. unfold baddr. rewrite Hind. destruct (Z.ltb_spec bn' NDIRECT).
    - apply addr_at_set; [done|fs_lia|lia].
    - destruct (Z.eqb_spec bn bn'); [lia|]. destruct (Z.eqb_spec (ind ip) 0) as [|Hi]; [done|].
      rewrite blk_mark_data; [done|done|done|]. right.
      destruct (ok_own _ _ Hok (ind ip)); [by apply in_file_ind|]. lia. }
  enough (inode_ok (mark b d) (set_addr bn b ip) /\ ext d ip (mark b d) (set_addr bn b ip)) by tauto.
  apply (attach_block d ip _ _ bn b); try done.
  - fs_lia.
  - unfold baddr. replace (bn <? NDIRECT) with true by lia. done.
  - simpl. by rewrite length_insert.
  - intros b' _ Hr. by apply blk_mark_data.
  - intros k Hk. apply blk_mark_ne. intros ->. done.
  - intros b' Hb'. apply bit_mark. apply Hd.
Qed.

(** A free block becomes the indirect block; being zero it maps nothing. *)
Lemma attach_ind d ip b :
  disk_ok d -> inode_ok d ip -> 0 <= b < sz -> bit d b = false -> ind ip = 0 ->
  inode_ok (mark b d) (set_addr NDIRECT b ip) /\ ext d ip (mark b d) (set_addr NDIRECT b ip) /\
  ind (set_addr NDIRECT b ip) = b /\ 0 < b /\
  (forall bn', 0 <= bn' < MAXFILE -> baddr (mark b d) (set_addr NDIRECT b ip) bn' = baddr d ip bn').
Proof.
  intros Hd Hok Hb Hf H0. pose proof (ok_len _ _ Hok) as Hlen.
  pose proof (disk_ok_data d b Hd Hb Hf) as Hdb. pose proof (disk_ok_bounds d Hd) as (Hbm & _).
  pose proof Hd as (_ & Hl & _ & Hz).
  assert (Hind : ind (set_addr NDIRECT b ip) = b).
  { unfold ind. rewrite addr_at_set by (done || fs_lia). by rewrite Z.eqb_refl. }
  assert (Hba : forall bn', 0 <= bn' < MAXFILE ->
            baddr (mark b d) (set_addr NDIRECT b ip) bn' = baddr d ip bn').
  { intros bn' Hbn'. unfold baddr. rewrite Hind, H0, Z.eqb_refl. destruct (Z.ltb_spec bn' NDIRECT).
    - rewrite addr_at_set by (done || fs_lia). destruct (Z.eqb_spec NDIRECT bn'); [lia|done].
    - destruct (Z.eqb_spec b 0); [done|]. rewrite blk_mark_data, Hz by (done || lia).
      apply ldw_zero_block. }
  assert (Hfresh : ~ in_file d ip b).
  { intros Hib. destruct (ok_own _ _ Hok b Hib). congruence. }
  assert (Hin : forall b', in_file (mark b d) (set_addr NDIRECT b ip) b' -> b' = b \/ in_file d ip b').
  { intros b' [Hne [->|(bn' & Hbn' & ->)]]; [left; done|]. right. rewrite Hba in * by done.
    by apply in_file_baddr. }
  split_and!; try done; [| |lia].
  - constructor.
    + apply (ok_dev _ _ Hok).
    + simpl. by rewrite length_insert.
    + intros b' [->|Hb']%Hin; [split; [lia|]; rewrite bit_mark by done; by rewrite Z.eqb_refl|].
      destruct (ok_own _ _ Hok b' Hb') as [Hr Hbt]. split; [done|]. rewrite bit_mark by done.
      by rewrite Hbt, orb_true_r.
    + intros b1 b2 H1 H2. rewrite !Hba by done. by apply (ok_inj _ _ Hok).
    + intros b1 H1. rewrite Hba, Hind by done. intros Hi E. destruct Hfresh. rewrite <- E.
      apply in_file_baddr; [done|congruence].
  - constructor; try done.
    + intros b' Hb' _ _ Hr. by apply blk_mark_data.
    + intros k Hk. apply blk_mark_ne. intros ->. done.
    + intros b' Hb' Hbt. rewrite bit_mark by done. by rewrite Hbt, orb_true_r.
    + intros b' Hb' [->|Hi]%Hin; auto.
Qed.

(** Overwriting a data block that is in use. *)
Lemma bit_write d b dat b' :
  disk_ok d -> datastart <= b -> 0 <= b' < sz -> bit (<[(dev, b) := dat]> d) b' = bit d b'.
Proof.
  intros Hd Hb Hb'. pose proof (disk_ok_bounds d Hd) as (_ & _ & Hni & _).
  pose proof (bblock_range sz ni b' Hni Hb'). apply bit_insert_ne. intros [=]. lia.
Qed.

Lemma disk_ok_write d b dat :
  disk_ok d -> datastart <= b < sz -> bit d b = true -> length dat = BLEN ->
  disk_ok (<[(dev, b) := dat]> d).
Proof.
  intros Hd Hb Hbt Hlen. pose proof Hd as (Hg & Hl & Hm & Hz). pose proof (disk_ok_bounds d Hd) as (Hbm & _).
  pose proof (g_fits _ _ _ _ Hg) as Hfit.
  split_and!.
  - eapply geom_ext; [|done]. apply blk_insert_ne. intros [=]. lia.
  - by apply blk_length_insert.
  - intros b' Hb'. rewrite bit_write by (done || lia). by apply Hm.
  - intros b' Hb' Hf. rewrite bit_write in Hf by (done || lia).
    rewrite blk_insert_ne; [by apply Hz|]. intros [= ->]. congruence.
Qed.

Lemma attach_indirect d ip bn b :
  disk_ok d -> inode_ok d ip -> 0 <= b < sz -> bit d b = false -> NDIRECT <= bn < MAXFILE ->
  ind ip <> 0 -> baddr d ip bn = 0 ->
  let d' := <[(dev, ind ip) := stw 4 (Z.to_nat (4 * (bn - NDIRECT))) b (blk d (dev, ind ip))]> (mark b d) in
  disk_ok d' /\ inode_ok d' ip /\ ext d ip d' ip /\
  (forall bn', 0 <= bn' < MAXFILE -> baddr d' ip bn' = if bn =? bn' then b else baddr d ip bn').
Proof.
  intros Hd Hok Hb Hf Hbn Hi H0 d'. pose proof (disk_ok_bounds d Hd) as (Hbm & Hsz & _).
  pose proof Hd as (_ & Hl & _ & _). pose proof (disk_ok_mark d b Hd Hb Hf) as Hdm.
  pose proof (disk_ok_data d b Hd Hb Hf) as Hdb.
  destruct (ok_own _ _ Hok (ind ip)) as [Hri Hbi]; [by apply in_file_ind|].
  assert (Hslen : length (stw 4 (Z.to_nat (4 * (bn - NDIRECT))) b (blk d (dev, ind ip))) = BLEN).
  { rewrite length_stw; [done|]. rewrite Hl. unfold BLEN. fs_lia. }
  assert (Hbit' : forall b', 0 <= b' < sz -> bit d' b' = (b =? b') || bit d b').
  { intros b' Hb'. unfold d'. rewrite bit_write by (done || lia). apply bit_mark. done. }
  assert (Hdd : disk_ok d').
  { apply disk_ok_write; [done|done| |done]. rewrite bit_mark by done. by rewrite Hbi, orb_true_r. }
  assert (Hba : forall bn', 0 <= bn' < MAXFILE ->
            baddr d' ip bn' = if bn =? bn' then b else baddr d ip bn').
  { intros bn' Hbn'. unfold baddr. destruct (Z.ltb_spec bn' NDIRECT).
    - destruct (Z.eqb_spec bn bn'); [lia|done].
    - destruct (Z.eqb_spec (ind ip) 0); [done|]. unfold d'. rewrite blk_insert.
      destruct (Z.eqb_spec bn bn') as [<-|].
      + rewrite ldw_stw_same by (rewrite Hl; unfold BLEN; fs_lia). apply Z.mod_small.
        change (256 ^ Z.of_nat 4) with (2 ^ 32). lia.
      + rewrite ldw_stw_other by (rewrite ?Hl; unfold BLEN; fs_lia). done. }
  enough (inode_ok d' ip /\ ext d ip d' ip) by tauto.
  apply (attach_block d ip _ _ bn b); try done.
  - fs_lia.
  - by destruct ip.
  - apply (ok_len _ _ Hok).
  - intros b' Hne Hr. unfold d'. rewrite blk_insert_ne by (intros [=]; by apply Hne).
    by apply blk_mark_data.
  - intros k Hk. unfold d'. rewrite blk_insert_ne by (intros <-; done). apply blk_mark_ne. by intros ->.
Qed.

(** Overwriting a block of the file itself. *)
Lemma write_block d ip bn dat :
  disk_ok d -> inode_ok d ip -> 0 <= bn < MAXFILE -> baddr d ip bn <> 0 -> length dat = BLEN ->
  let d' := <[(dev, baddr d ip bn) := dat]> d in
  disk_ok d' /\ inode_ok d' ip /\ ext d ip d' ip /\
  (forall bn', 0 <= bn' < MAXFILE -> baddr d' ip bn' = baddr d ip bn').
Proof.
  intros Hd Hok Hbn Hne Hlen d'. pose proof (in_file_baddr d ip bn Hbn Hne) as Hin.
  destruct (ok_own _ _ Hok _ Hin) as [Hr Hbt].
  assert (Hdd : disk_ok d') by by apply disk_ok_write.
  assert (Hbit' : forall b', 0 <= b' < sz -> bit d' b' = bit d b')
    by (intros; apply bit_write; done || lia).
  assert (Hba : forall bn', 0 <= bn' < MAXFILE -> baddr d' ip bn' = baddr d ip bn').
  { intros bn' Hbn'. apply baddr_ext. intros Hi. unfold d'. rewrite blk_insert_ne; [done|].
    intros [= E]. by apply (ok_ind _ _ Hok bn Hbn Hi). }
  assert (Hinf : forall b', in_file d' ip b' -> in_file d ip b').
  { intros b' [Hn [->|(bn' & Hbn' & ->)]]; [by apply in_file_ind|]. rewrite Hba in * by done.
    by apply in_file_baddr. }
  pose proof (disk_ok_bounds d Hd) as (Hbm & _).
  split_and!; try done.
  - constructor; [apply (ok_dev _ _ Hok)|apply (ok_len _ _ Hok)| | |].
    + intros b' Hb'. destruct (ok_own _ _ Hok b' (Hinf _ Hb')) as [Hr' Hbt']. split; [done|].
      by rewrite Hbit' by lia.
    + intros b1 b2 H1 H2. rewrite !Hba by done. by apply (ok_inj _ _ Hok).
    + intros b1 H1. rewrite Hba by done. by apply (ok_ind _ _ Hok).
  - constructor; try done.
    + intros b' Hb' _ Hno _. unfold d'. rewrite blk_insert_ne; [done|]. intros [= <-]. done.
    + intros k Hk. unfold d'. rewrite blk_insert_ne; [done|]. by intros <-.
    + intros b' Hb' Hb1. by rewrite Hbit'.
    + intros b' Hb' Hi. left. auto.
    + by destruct ip.
Qed.

(** ** Counting free blocks *)

Definition nfree d : nat := length (filter (fun b => bit d b = false) (seqZ 0 sz)).

Lemma nfree_mark d b :
  disk_ok d -> 0 <= b < sz -> bit d b = false -> nfree d = S (nfree (mark b d)).
Proof.
  intros (_ & Hl & _) Hb Hf. unfold nfree.
  apply (length_filter_flip (fun b => bit d b = false) (fun b' => bit (mark b d) b' = false) _ b).
  - apply NoDup_seqZ.
  - apply elem_of_seqZ. lia.
  - done.
  - rewrite bit_mark by done. by rewrite Z.eqb_refl.
  - intros b' Hne. rewrite bit_mark by done. destruct (Z.eqb_spec b b'); [congruence|done].
Qed.

Lemma nfree_ext d d' :
  (forall b, 0 <= b < sz -> bit d' b = bit d b) -> nfree d' = nfree d.
Proof.
  intros Heq. unfold nfree. f_equal.
  assert (H : forall l : list Z, (forall b, b ∈ l -> bit d' b = bit d b) ->
    filter (fun b => bit d' b = false) l = filter (fun b => bit d b = false) l).
  { induction l as [|b l IH]; intros Hb; [done|]. rewrite !filter_cons.
    rewrite Hb by apply list_elem_of_here. rewrite IH by (intros; apply Hb; by apply list_elem_of_further). done. }
  apply H. intros b Hb. apply elem_of_seqZ in Hb. apply Heq. lia.
Qed.

Lemma nfree_pos d : (0 < nfree d)%nat -> exists f, 0 <= f < sz /\ bit d f = false.
Proof.
  unfold nfree. intros H. destruct (filter _ _) as [|f l] eqn:E; simpl in H; [lia|].
  assert (Hin : f ∈ filter (fun b => bit d b = false) (seqZ 0 sz)) by (rewrite E; apply list_elem_of_here).
  apply list_elem_of_filter in Hin as [Hf Hin]. apply elem_of_seqZ in Hin. exists f. split; [lia|done].
Qed.

(** ** bmap *)

(** Free blocks that mapping block [bn] takes. *)
Definition cost d ip (bn : Z) : nat :=
  if baddr d ip bn =? 0 then if (NDIRECT <=? bn) && (ind ip =? 0) then 2 else 1 else 0.

(** What [bmap] of block [bn] may do: nothing when the block is there, else
    give the file one free block (and perhaps an indirect block). *)
Record mapped d ip (bn : Z) d' ip' (b : Z) : Prop := Mapped {
  m_disk : disk_ok d';
  m_ok : inode_ok d' ip';
  m_ext : ext d ip d' ip';
  m_addr : baddr d' ip' bn = b;
  m_nz : b <> 0;
  m_kept : baddr d ip bn <> 0 -> d' = d /\ ip' = ip;
  m_fresh : baddr d ip bn = 0 -> blk d' (dev, b) = zero_block;
  m_others : forall bn', 0 <= bn' < MAXFILE -> bn' <> bn -> baddr d' ip' bn' = baddr d ip bn';
  m_data : forall b', datastart <= b' -> b' <> ind ip' -> blk d' (dev, b') = blk d (dev, b');
  m_free : nfree d = (nfree d' + cost d ip bn)%nat;
  m_ind_kept : bn < NDIRECT \/ ind ip <> 0 -> ind ip' = ind ip;
  m_ind_nz : NDIRECT <= bn -> ind ip' <> 0
}.

Lemma mapped_kept d ip bn :
  disk_ok d -> inode_ok d ip -> baddr d ip bn <> 0 -> mapped d ip bn d ip (baddr d ip bn).
Proof.
  intros Hd Hok Hne. constructor; try done; [apply ext_refl|..].
  - unfold cost. replace (baddr d ip bn =? 0) with false by lia. lia.
  - intros Hbn Hi. apply Hne. unfold baddr. replace (bn <? NDIRECT) with false by lia. by rewrite Hi.
Qed.

(** A free block for a direct entry. *)
Lemma mapped_direct d ip bn b :
  disk_ok d -> inode_ok d ip -> 0 <= b < sz -> bit d b = false -> 0 <= bn < NDIRECT -> baddr d ip bn = 0 ->
  mapped d ip bn (mark b d) (set_addr bn b ip) b.
Proof.
  intros Hd Hok Hb Hf Hbn H0. assert (Ha : addr_at ip bn = 0) by (unfold baddr in H0; by replace (bn <? NDIRECT) with true in H0 by lia).
  destruct (attach_direct d ip bn b Hd Hok Hb Hf Hbn Ha) as (Hok' & He & Hba').
  assert (Hbnm : 0 <= bn < MAXFILE) by fs_lia. pose proof (nfree_mark d b Hd Hb Hf) as Hnf.
  pose proof (disk_ok_data d b Hd Hb Hf). pose proof (disk_ok_bounds d Hd) as (Hbm & _).
  constructor; try done.
  - by apply disk_ok_mark.
  - by rewrite Hba', Z.eqb_refl.
  - lia.
  - intros _. pose proof Hd as (_ & _ & _ & Hz). rewrite blk_mark_data; [by apply Hz|done|done|by right].
  - intros bn' Hbn' Hne. rewrite Hba' by done. destruct (Z.eqb_spec bn bn'); [congruence|done].
  - intros b' Hb' _. apply blk_mark_data; auto.
  - unfold cost. rewrite H0. simpl. replace (NDIRECT <=? bn) with false by lia. simpl. lia.
  - intros _. unfold ind. rewrite addr_at_set by (apply (ok_len _ _ Hok) || fs_lia).
    destruct (Z.eqb_spec bn NDIRECT); [lia|done].
  - lia.
Qed.

(** A free block for an entry of the indirect block. *)
Lemma mapped_entry d ip bn b :
  disk_ok d -> inode_ok d ip -> 0 <= b < sz -> bit d b = false -> NDIRECT <= bn < MAXFILE -> ind ip <> 0 -> baddr d ip bn = 0 ->
  mapped d ip bn (<[(dev, ind ip) := stw 4 (Z.to_nat (4 * (bn - NDIRECT))) b (blk d (dev, ind ip))]> (mark b d)) ip b.
Proof.
  intros Hd Hok Hb Hf Hbn Hi H0. pose proof Hd as (_ & Hl & _ & Hz). pose proof (disk_ok_bounds d Hd) as (Hbm & _).
  destruct (ok_own _ _ Hok (ind ip)) as [Hri Hbi]; [by apply in_file_ind|]. pose proof (nfree_mark d b Hd Hb Hf) as Hnf.
  pose proof (disk_ok_data d b Hd Hb Hf). pose proof (disk_ok_mark d b Hd Hb Hf) as Hdm.
  pose proof (attach_indirect d ip bn b Hd Hok Hb Hf Hbn Hi H0) as (Hd' & Hok' & He & Hba').
  assert (Hbnm : 0 <= bn < MAXFILE) by fs_lia.
  assert (Hnf' : nfree (<[(dev, ind ip) := stw 4 (Z.to_nat (4 * (bn - NDIRECT))) b
            (blk d (dev, ind ip))]> (mark b d)) = nfree (mark b d)).
  { apply nfree_ext. intros b' Hb'. apply bit_write; done || lia. }
  assert (Hbi' : b <> ind ip) by congruence.
  constructor; try done.
  - by rewrite Hba', Z.eqb_refl.
  - lia.
  - intros _. rewrite blk_insert_ne by (intros [=]; congruence). rewrite blk_mark_data; [by apply Hz|done|done|by right].
  - intros bn' Hbn' Hne. rewrite Hba' by done. destruct (Z.eqb_spec bn bn'); [congruence|done].
  - intros b' Hb' Hne. rewrite blk_insert_ne by (intros [=]; congruence). apply blk_mark_data; auto.
  - rewrite Hnf'. unfold cost. rewrite H0. simpl. replace (ind ip =? 0) with false by lia. rewrite andb_false_r. lia.
Qed.

(** An indirect block first, then the entry. *)
Lemma mapped_ind d ip bn b d' ip' b' :
  disk_ok d -> inode_ok d ip -> 0 <= b < sz -> bit d b = false -> NDIRECT <= bn < MAXFILE -> ind ip = 0 ->
  mapped (mark b d) (set_addr NDIRECT b ip) bn d' ip' b' -> mapped d ip bn d' ip' b'.
Proof.
  intros Hd Hok Hb Hf Hbn Hi [M1 M2 M3 M4 M5 M6 M7 M8 M9 M10 M11 M12]. pose proof (nfree_mark d b Hd Hb Hf) as Hnf.
  destruct (attach_ind d ip b Hd Hok Hb Hf Hi) as (Hok' & He & Hind & _ & Hba').
  pose proof (disk_ok_data d b Hd Hb Hf). pose proof (disk_ok_bounds d Hd) as (Hbm & _). assert (Hbnm : 0 <= bn < MAXFILE) by fs_lia.
  assert (H0 : baddr d ip bn = 0) by (unfold baddr; replace (bn <? NDIRECT) with false by lia; by rewrite Hi).
  rewrite Hba' in * by done. constructor; try done.
  - by eapply ext_trans.
  - intros bn' Hbn' Hne. rewrite M8 by done. by apply Hba'.
  - intros b1 Hb1 Hne. rewrite M9 by done. apply blk_mark_data; auto.
  - unfold cost in *. rewrite Hba', H0, Hind, Hi in * by done. simpl in *. replace (b =? 0) with false in M10 by lia.
    replace (NDIRECT <=? bn) with true in * by lia. simpl in *. lia.
  - intros [?|?]; [lia|done].
Qed.

Section Bmap.
Context {S : Type} `{HB : !BlockOps S} `{HS : !BlockSpec S} (Hcap : (2 <= bcap)%nat).
Implicit Types (x : fs S) (ic : list inode).

(** [balloc] on a well-formed disk. *)
Lemma balloc_ok_wp x d H ic (Q : Z -> fs S -> Prop) :
  at_fs x d H ic -> disk_ok d -> meta_free dev sz ni H -> (size H < bcap)%nat -> (0 < nfree d)%nat ->
  (forall b x', 0 <= b < sz -> bit d b = false -> 0 < b -> disk_ok (mark b d) ->
     nfree d = Datatypes.S (nfree (mark b d)) -> at_fs x' (mark b d) H ic -> Q b x') ->
  wp (balloc dev) Q x.
Proof.
  intros Hx Hd Hm Hs Hn HQ. eapply (balloc_wp dev sz ni); [done|apply Hd|done|done|by apply nfree_pos|].
  intros b x' Hb Hf _ Hx'. pose proof (disk_ok_data d b Hd Hb Hf). pose proof (disk_ok_bounds d Hd) as (Hbm & _).
  apply HQ; try done; [lia|by apply disk_ok_mark|by apply nfree_mark].
Qed.

Lemma bmap_direct_wp x d ic i ip bn (Q : Z -> fs S -> Prop) :
  at_fs x d ∅ ic -> ic !! i = Some ip -> disk_ok d -> inode_ok d ip -> 0 <= bn < NDIRECT ->
  (cost d ip bn <= nfree d)%nat ->
  (forall x' d' ip' b, mapped d ip bn d' ip' b -> at_fs x' d' ∅ (<[i := ip']> ic) -> Q b x') ->
  wp (bmap i bn) Q x.
Proof using Hcap.
  intros Hx Hip Hd Hok Hbn Hfree HQ. unfold bmap. wp_step. eapply geti_wp; [done|done|].
  replace (bn <? NDIRECT) with true by lia. cbv zeta.
  assert (Hba : baddr d ip bn = addr_at ip bn) by (unfold baddr; by replace (bn <? NDIRECT) with true by lia).
  rewrite <- Hba. destruct (Z.eqb_spec (baddr d ip bn) 0) as [H0|H0].
  - wp_step. rewrite (ok_dev _ _ Hok).
    assert (Hcost : cost d ip bn = 1%nat).
    { unfold cost. rewrite H0. simpl. by replace (NDIRECT <=? bn) with false by lia. }
    eapply balloc_ok_wp; [done|done|apply meta_free_empty|rewrite map_size_empty; lia|lia|].
    intros b x1 Hb Hf Hpos Hdm Hnf Hx1. wp_step. eapply updi_wp; [done|]. intros x2 Hx2. wp_step.
    rewrite (alter_insert_some _ _ _ _ Hip) in Hx2.
    eapply HQ; [|exact Hx2]. by apply mapped_direct.
  - wp_step. eapply HQ; [by apply mapped_kept|]. by rewrite list_insert_id.
Qed.

(** The second half of [bmap]: the entry in the indirect block [bi]. *)
Lemma bmap_entry_wp x d ic i ip bn (Q : Z -> fs S -> Prop) :
  at_fs x d ∅ (<[i := ip]> ic) -> disk_ok d -> inode_ok d ip ->
  NDIRECT <= bn < MAXFILE -> ind ip <> 0 -> (cost d ip bn <= nfree d)%nat ->
  (forall x' d' b, mapped d ip bn d' ip b ->
     at_fs x' d' ∅ (<[i := ip]> ic) -> Q b x') ->
  wp (bp ← bread_ dev (ind ip);
      a ← data_of bp;
      let addr := ldw 4 a (Z.to_nat (4 * (bn - NDIRECT))) in
      addr ← (if addr =? 0 then
                addr ← balloc dev;
                _ ← bupd bp (stw 4 (Z.to_nat (4 * (bn - NDIRECT))) addr);
                _ ← bwrite_ bp;
                mret addr
              else mret addr);
      _ ← brelse_ bp;
      mret addr) Q x.
Proof using Hcap.
  intros Hx Hd Hok Hbn Hi Hfree HQ. pose proof Hd as (_ & Hl & _ & Hz).
  pose proof (disk_ok_bounds d Hd) as (Hbm & Hsz & _ & Hdev).
  destruct (ok_own _ _ Hok (ind ip)) as [Hri Hbi]; [by apply in_file_ind|].
  wp_step. eapply bread__wp; [done|split; simpl; lia|apply not_held_empty|rewrite map_size_empty; lia|].
  intros bp x1 Hbp Hx1. wp_step. eapply data_of_wp; [done|apply lookup_insert_eq|]. cbv zeta.
  assert (Hba : ldw 4 (blk d (dev, ind ip)) (Z.to_nat (4 * (bn - NDIRECT))) = baddr d ip bn).
  { unfold baddr. replace (bn <? NDIRECT) with false by lia. by replace (ind ip =? 0) with false by lia. }
  rewrite Hba. wp_step. destruct (Z.eqb_spec (baddr d ip bn) 0) as [H0|H0].
  - assert (Hcost : cost d ip bn = 1%nat).
    { unfold cost. rewrite H0. simpl. replace (ind ip =? 0) with false by lia. by rewrite andb_false_r. }
    wp_step. eapply balloc_ok_wp; [done|done| | |lia|].
    { intros b Hb. apply not_held_insert; [apply not_held_empty|]. intros [=]. lia. }
    { rewrite map_size_insert_None, map_size_empty by done. lia. }
    intros b x2 Hb Hf Hpos Hdm Hnf Hx2. wp_step.
    eapply bupd_wp; [done|apply lookup_insert_eq| |].
    { rewrite length_stw; [done|]. rewrite Hl. unfold BLEN. fs_lia. }
    intros x3 Hx3. wp_step. eapply bwrite__wp; [done|apply lookup_insert_eq|]. intros x4 Hx4. do 2 wp_step.
    eapply brelse__wp; [done|apply lookup_insert_eq|by rewrite blk_insert|]. intros x5 Hx5.
    rewrite release_fresh2 in Hx5 by done. wp_step.
    eapply HQ; [|exact Hx5]. by apply mapped_entry.
  - do 2 wp_step. eapply brelse__wp; [done|apply lookup_insert_eq|done|]. intros x2 Hx2.
    rewrite release_fresh in Hx2 by done. wp_step. eapply HQ; [by apply mapped_kept|done].
Qed.

Lemma bmap_wp x d ic i ip bn (Q : Z -> fs S -> Prop) :
  at_fs x d ∅ ic -> ic !! i = Some ip -> disk_ok d -> inode_ok d ip -> 0 <= bn < MAXFILE ->
  (cost d ip bn <= nfree d)%nat ->
  (forall x' d' ip' b, mapped d ip bn d' ip' b -> at_fs x' d' ∅ (<[i := ip']> ic) -> Q b x') ->
  wp (bmap i bn) Q x.
Proof using Hcap.
  intros Hx Hip Hd Hok Hbn Hfree HQ.
  destruct (decide (bn < NDIRECT)); [eapply bmap_direct_wp; try done; lia|].
  unfold bmap. wp_step. eapply geti_wp; [done|done|].
  replace (bn <? NDIRECT) with false by lia. cbv zeta.
  replace (bn - NDIRECT <? NINDIRECT) with true by fs_lia.
  rewrite (ok_dev _ _ Hok). change (addr_at ip NDIRECT) with (ind ip).
  wp_step. destruct (Z.eqb_spec (ind ip) 0) as [Hi|Hi].
  - assert (H0 : baddr d ip bn = 0).
    { unfold baddr. replace (bn <? NDIRECT) with false by lia. by rewrite Hi. }
    assert (Hcost : cost d ip bn = 2%nat).
    { unfold cost. rewrite H0, Hi. simpl. by replace (NDIRECT <=? bn) with true by lia. }
    wp_step. eapply balloc_ok_wp; [done|done|apply meta_free_empty|rewrite map_size_empty; lia|lia|].
    intros b x1 Hb Hf Hpos Hdm Hnf Hx1. wp_step. eapply updi_wp; [done|]. intros x2 Hx2. wp_step.
    rewrite (alter_insert_some _ _ _ _ Hip) in Hx2.
    destruct (attach_ind d ip b Hd Hok Hb Hf Hi) as (Hok' & He & Hind & _ & Hba').
    set (ip1 := set_addr NDIRECT b ip) in *. rewrite <- Hind.
    assert (Hcost1 : cost (mark b d) ip1 bn = 1%nat).
    { unfold cost. rewrite Hba', H0, Hind by done. simpl. replace (b =? 0) with false by lia.
      by rewrite andb_false_r. }
    eapply (bmap_entry_wp x2 (mark b d) ic i ip1 bn); try done; [lia|lia|lia|].
    intros x3 d3 b3 Hm Hx3. eapply HQ; [|exact Hx3]. apply (mapped_ind d ip bn b); (done || lia).
  - wp_step. eapply (bmap_entry_wp x d ic i ip bn); try done; [by rewrite list_insert_id|lia|].
    intros x3 d3 b3 Hm Hx3. by eapply HQ.
Qed.
End Bmap.

(** ** Bytes of the file *)

(** What a file is: its size is covered by blocks. *)
Definition file_ok d ip : Prop :=
  disk_ok d /\ inode_ok d ip /\ 0 <= i_size ip <= MAXFILE * BSIZE /\
  forall bn, 0 <= bn -> bn * BSIZE < i_size ip -> baddr d ip bn <> 0.

Definition content d ip : list Z := fbyte d ip <$> seqZ 0 (i_size ip).

Lemma mapped_fbyte d ip bn d' ip' b o :
  mapped d ip bn d' ip' b -> inode_ok d ip -> 0 <= o < MAXFILE * BSIZE -> baddr d ip (o / BSIZE) <> 0 ->
  fbyte d' ip' o = fbyte d ip o.
Proof.
  intros [M1 M2 M3 M4 M5 M6 M7 M8 M9 M10 _ _] Hok Ho Hne. unfold fbyte.
  assert (Hr : 0 <= o / BSIZE < MAXFILE) by fs_lia.
  destruct (decide (o / BSIZE = bn)) as [E|E].
  - rewrite E in *. destruct (M6 Hne) as [-> ->]. done.
  - rewrite M8 by done. rewrite M9; [done| |].
    + apply (ok_own _ _ Hok). by apply in_file_baddr.
    + destruct (decide (ind ip' = 0)) as [->|Hi]; [done|]. rewrite <- (M8 _ Hr E).
      by apply (ok_ind _ _ M2).
Qed.

(** Part of one block, as bytes of the file. *)
Lemma chunk_bytes d ip o m :
  length (blk d (dev, baddr d ip (o / BSIZE))) = BLEN -> 0 <= o -> 0 <= m -> o mod BSIZE + m <= BSIZE ->
  slice (Z.to_nat (o mod BSIZE)) (Z.to_nat m) (blk d (dev, baddr d ip (o / BSIZE))) =
  fbyte d ip <$> seqZ o m.
Proof.
  intros Hl Ho Hm Hfit. apply list_eq. intros k. rewrite list_lookup_fmap.
  destruct (decide (k < Z.to_nat m)%nat) as [Hk|Hk].
  - rewrite lookup_slice, lookup_seqZ_lt by lia. simpl. unfold fbyte.
    replace ((o + Z.of_nat k) / BSIZE) with (o / BSIZE) by fs_lia.
    replace ((o + Z.of_nat k) mod BSIZE) with (o mod BSIZE + Z.of_nat k) by fs_lia.
    unfold byte_at. replace (Z.to_nat (o mod BSIZE + Z.of_nat k)) with (Z.to_nat (o mod BSIZE) + k)%nat by fs_lia.
    destruct (lookup_lt_is_Some_2 (blk d (dev, baddr d ip (o / BSIZE))) (Z.to_nat (o mod BSIZE) + k)) as [v Hv].
    { rewrite Hl. unfold BLEN. fs_lia. }
    by rewrite Hv.
  - rewrite lookup_ge_None_2 by (rewrite length_slice; lia). by rewrite lookup_seqZ_ge by lia.
Qed.

Lemma slice_content d ip off n :
  0 <= off -> 0 <= n -> off + n <= i_size ip ->
  slice (Z.to_nat off) (Z.to_nat n) (content d ip) = fbyte d ip <$> seqZ off n.
Proof.
  intros Ho Hn Hs. apply list_eq. intros k. unfold content. rewrite list_lookup_fmap.
  destruct (decide (k < Z.to_nat n)%nat) as [Hk|Hk].
  - rewrite lookup_slice, list_lookup_fmap, !lookup_seqZ_lt by lia. simpl. do 2 f_equal. lia.
  - rewrite lookup_ge_None_2 by (rewrite length_slice; lia). by rewrite lookup_seqZ_ge by lia.
Qed.

(** Rounds of the copying loops still to come from [tot] of [n] bytes at [off]. *)
Definition rounds (off n tot : Z) : nat :=
  if tot <? n then Z.to_nat ((off + n - 1) / BSIZE - (off + tot) / BSIZE + 1) else 0.

Lemma rounds_start off n : 0 <= off -> 0 <= n -> (rounds off n 0 < io_fuel n)%nat.
Proof. intros. unfold rounds, io_fuel. destruct (0 <? n) eqn:E; fs_lia. Qed.

Lemma rounds_step off n tot :
  0 <= off -> 0 <= tot < n ->
  (rounds off n (tot + Z.min (n - tot) (BSIZE - (off + tot) mod BSIZE)) < rounds off n tot)%nat.
Proof.
  intros. unfold rounds. replace (tot <? n) with true by lia.
  destruct (_ <? n) eqn:E; [|fs_lia].
  assert (Z.min (n - tot) (BSIZE - (off + tot) mod BSIZE) = BSIZE - (off + tot) mod BSIZE) as -> by lia.
  fs_lia.
Qed.

Section Io.
Context {S : Type} `{HB : !BlockOps S} `{HS : !BlockSpec S} (Hcap : (2 <= bcap)%nat).
Context (dev_read : Z -> option (nat -> Z -> M (fs S) (Z * list Z))).
Implicit Types (x : fs S) (ic : list inode).

(** The arguments for which [readi] and [writei] fail. *)
Definition bad_range (size off n : Z) : bool := (size <? off) || (u32 (off + n) <? off).

Lemma bad_range_false size off n :
  is_uint off -> is_uint n -> bad_range size off n = false <-> off <= size /\ off + n < 2 ^ 32.
Proof.
  intros [Ho Ho'] [Hn Hn']. unfold bad_range, u32. rewrite orb_false_iff.
  destruct (decide (off + n < 2 ^ 32)).
  - rewrite Z.mod_small by lia. lia.
  - replace ((off + n) mod 2 ^ 32) with (off + n - 2 ^ 32); [lia|].
    apply Z.mod_unique_pos with (q := 1); lia.
Qed.

Lemma readi_wp x d ic i ip off n (Q : Z * list Z -> fs S -> Prop) :
  at_fs x d ∅ ic -> ic !! i = Some ip -> file_ok d ip -> i_type ip <> T_DEV ->
  is_uint off -> is_uint n ->
  (forall x', at_fs x' d ∅ ic ->
     Q (if bad_range (i_size ip) off n then (-1, [])
        else let m := Z.min n (i_size ip - off) in
             (m, slice (Z.to_nat off) (Z.to_nat m) (content d ip))) x') ->
  wp (readi dev_read i off n) Q x.
Proof using Hcap.
  intros Hx Hip (Hd & Hok & Hsz & Hmap) Hty Hoff Hn HQ. unfold readi. wp_step.
  eapply geti_wp; [done|done|]. replace (i_type ip =? T_DEV) with false by lia.
  change ((i_size ip <? off) || (u32 (off + n) <? off)) with (bad_range (i_size ip) off n).
  destruct (bad_range (i_size ip) off n) eqn:Hbr; [wp_step; by apply HQ|].
  apply bad_range_false in Hbr as [Hle Hov]; [|done..].
  unfold is_uint in *. change (MAXFILE * BSIZE) with 71680 in Hsz.
  assert (Hm : (if i_size ip <? u32 (off + n) then u32 (i_size ip - off) else n) =
               Z.min n (i_size ip - off)).
  { rewrite (u32_small (off + n)) by lia. destruct (Z.ltb_spec (i_size ip) (off + n)); [rewrite u32_small|]; lia. }
  rewrite Hm. cbv zeta. set (m := Z.min n (i_size ip - off)) in *. assert (Hmr : 0 <= m <= i_size ip - off) by lia.
  wp_step. pose proof (disk_ok_bounds d Hd) as (Hbm & Hszb & _ & Hdev).
  apply (wp_loop_ghost (fun r st x1 => let '(tot, o, dst) := st in
           at_fs x1 d ∅ ic /\ 0 <= tot <= m /\ o = off + tot /\ dst = fbyte d ip <$> seqZ off tot /\
           r = rounds off m tot) _ _ _ (rounds off m 0)).
  - intros r [[tot o] dst] x1 (Hx1 & Ht & -> & -> & ->). wp_step; rename H into Htn.
    + assert (Htm : tot < m) by lia.
      assert (Hbn : 0 <= (off + tot) / BSIZE < MAXFILE) by fs_lia.
      assert (Hne : baddr d ip ((off + tot) / BSIZE) <> 0) by (apply Hmap; fs_lia).
      wp_step. eapply (bmap_wp Hcap x1 d ic i ip); try done.
      { unfold cost. replace (baddr d ip _ =? 0) with false by lia. lia. }
      intros x2 d2 ip2 b Hmp Hx2. destruct (m_kept _ _ _ _ _ _ Hmp Hne) as [-> ->].
      rewrite list_insert_id in Hx2 by done. pose proof (m_addr _ _ _ _ _ _ Hmp) as <-.
      destruct (ok_own _ _ Hok _ (in_file_baddr d ip _ Hbn Hne)) as [Hr _].
      rewrite (ok_dev _ _ Hok). wp_step.
      eapply bread__wp; [done|split; simpl; lia|apply not_held_empty|rewrite map_size_empty; lia|].
      intros bp x3 Hbp Hx3. wp_step. eapply data_of_wp; [done|apply lookup_insert_eq|]. wp_step.
      eapply brelse__wp; [done|apply lookup_insert_eq|done|]. intros x4 Hx4.
      rewrite release_fresh in Hx4 by done. wp_step.
      set (c := Z.min (m - tot) (BSIZE - (off + tot) mod BSIZE)).
      assert (Hc : 0 < c <= m - tot /\ (off + tot) mod BSIZE + c <= BSIZE) by (unfold c; fs_lia).
      rewrite !u32_small by lia. exists (rounds off m (tot + c)). split; [apply rounds_step; lia|].
      split_and!; [done|lia|lia|lia| |done].
      rewrite chunk_bytes by (try lia; apply Hd).
      rewrite (seqZ_app off tot c), fmap_app by lia. done.
    + do 2 wp_step. specialize (HQ x1 Hx1). rewrite slice_content in HQ by lia.
      replace tot with m by lia. exact HQ.
  - by split_and!; try lia.
  - apply rounds_start; lia.
Qed.
End Io.

(** ** Writing *)

Lemma byte_at_splice k bs (l : list Z) j :
  (k + length bs <= length l)%nat -> 0 <= j ->
  byte_at (splice k bs l) j =
  if (Z.of_nat k <=? j) && (j <? Z.of_nat (k + length bs)) then byte_at bs (j - Z.of_nat k) else byte_at l j.
Proof.
  intros Hl Hj. unfold byte_at. destruct ((_ <=? j) && _) eqn:E.
  - rewrite lookup_splice_in by lia. do 2 f_equal. lia.
  - by rewrite lookup_splice_out by lia.
Qed.

Lemma fbyte_write_block d ip bn dat o :
  inode_ok d ip -> 0 <= bn < MAXFILE -> baddr d ip bn <> 0 -> 0 <= o < MAXFILE * BSIZE ->
  fbyte (<[(dev, baddr d ip bn) := dat]> d) ip o =
  if o / BSIZE =? bn then byte_at dat (o mod BSIZE) else fbyte d ip o.
Proof.
  intros Hok Hbn Hne Ho. assert (Hr : 0 <= o / BSIZE < MAXFILE) by fs_lia. unfold fbyte.
  rewrite (baddr_ext d (<[(dev, baddr d ip bn) := dat]> d) ip).
  2:{ intros Hi. rewrite blk_insert_ne; [done|]. intros [= E]. by apply (ok_ind _ _ Hok bn Hbn Hi). }
  destruct (Z.eqb_spec (o / BSIZE) bn) as [->|E]; [by rewrite blk_insert|].
  rewrite blk_insert_ne; [done|]. intros [= Eq]. apply E. symmetry. by apply (ok_inj _ _ Hok).
Qed.

(** Free blocks needed to map blocks [lo] up to [hi]. *)
Definition missing d ip (lo hi : Z) : nat :=
  length (filter (fun bn => baddr d ip bn = 0) (seqZ lo (hi - lo))).
Definition need d ip (lo hi : Z) : nat :=
  missing d ip lo hi + (if (ind ip =? 0) && (NDIRECT <? hi) then 1 else 0).

Lemma missing_cons d ip lo hi :
  lo < hi -> missing d ip lo hi = ((if (baddr d ip lo =? 0)%Z then 1 else 0) + missing d ip (lo + 1)%Z hi)%nat.
Proof.
  intros Hlt. unfold missing. rewrite (seqZ_cons lo) by lia. rewrite filter_cons.
  replace (Z.pred (hi - lo)) with (hi - (lo + 1)) by lia. replace (Z.succ lo) with (lo + 1) by lia.
  destruct (Z.eqb_spec (baddr d ip lo) 0), (decide (baddr d ip lo = 0)); try done; simpl; lia.
Qed.

Lemma missing_ext d ip d' ip' lo hi :
  0 <= lo -> hi <= MAXFILE -> (forall bn, lo <= bn < hi -> baddr d' ip' bn = baddr d ip bn) ->
  missing d' ip' lo hi = missing d ip lo hi.
Proof.
  intros Hlo Hhi Heq. unfold missing. f_equal.
  assert (H : forall l : list Z, (forall b, b ∈ l -> baddr d' ip' b = baddr d ip b) ->
    filter (fun b => baddr d' ip' b = 0) l = filter (fun b => baddr d ip b = 0) l).
  { induction l as [|b l IH]; intros Hb; [done|]. rewrite !filter_cons.
    rewrite Hb by apply list_elem_of_here.
    rewrite IH by (intros; apply Hb; by apply list_elem_of_further). done. }
  apply H. intros b Hb. apply elem_of_seqZ in Hb. apply Heq. lia.
Qed.

Lemma cost_need d ip lo hi : lo < hi -> (cost d ip lo <= need d ip lo hi)%nat.
Proof.
  intros Hlt. unfold cost, need. rewrite missing_cons by done.
  destruct (baddr d ip lo =? 0); [|lia].
  destruct ((NDIRECT <=? lo) && (ind ip =? 0)) eqn:E; [|lia].
  replace ((ind ip =? 0) && (NDIRECT <? hi)) with true by lia. lia.
Qed.

(** Mapping the first block leaves enough for the others. *)
Lemma need_step d ip lo hi d' ip' b :
  mapped d ip lo d' ip' b -> 0 <= lo < hi -> hi <= MAXFILE -> (need d ip lo hi <= nfree d)%nat ->
  (need d' ip' (lo + 1) hi <= nfree d')%nat.
Proof.
  intros Hm Hlo Hhi Hn. pose proof (m_free _ _ _ _ _ _ Hm) as Hf.
  assert (Hms : missing d' ip' (lo + 1) hi = missing d ip (lo + 1) hi).
  { apply missing_ext; [lia|done|]. intros bn Hbn. apply (m_others _ _ _ _ _ _ Hm); lia. }
  unfold need in *. rewrite missing_cons in Hn by lia. rewrite Hms. unfold cost in Hf.
  pose proof (m_ind_kept _ _ _ _ _ _ Hm) as Hk. pose proof (m_ind_nz _ _ _ _ _ _ Hm) as Hz.
  destruct (Z.leb_spec NDIRECT lo).
  - specialize (Hz ltac:(lia)). replace (ind ip' =? 0) with false by lia. simpl in *.
    destruct (Z.eqb_spec (ind ip) 0) as [Hi|Hi]; simpl in *.
    + replace (NDIRECT <? hi) with true in Hn by lia. destruct (baddr d ip lo =? 0); lia.
    + destruct (baddr d ip lo =? 0); lia.
  - rewrite Hk by lia. simpl in *. destruct (baddr d ip lo =? 0), ((ind ip =? 0) && (NDIRECT <? hi)); lia.
Qed.

(** [tot] bytes of [src] have been written at [off]. *)
Record written d ip (off : Z) (src : list Z) (tot : Z) d1 ip1 : Prop := Written {
  w_disk : disk_ok d1;
  w_ok : inode_ok d1 ip1;
  w_ext : ext d ip d1 ip1;
  w_map : forall bn, 0 <= bn -> bn * BSIZE < Z.max (i_size ip) (off + tot) -> baddr d1 ip1 bn <> 0;
  w_bytes : forall o, 0 <= o < Z.max (i_size ip) (off + tot) ->
            fbyte d1 ip1 o = if (off <=? o) && (o <? off + tot) then byte_at src (o - off) else fbyte d ip o;
  w_same : off + tot <= i_size ip -> ip1 = ip
}.

Lemma written_start d ip off src : file_ok d ip -> 0 <= off <= i_size ip -> written d ip off src 0 d ip.
Proof.
  intros (Hd & Hok & Hsz & Hmap) Hoff. constructor; try done; [apply ext_refl| |].
  - intros bn Hbn Hlt. apply Hmap; lia.
  - intros o Ho. replace ((off <=? o) && (o <? off + 0)) with false by lia. done.
Qed.

Lemma byte_at_slice off n (l : list Z) j :
  0 <= j < Z.of_nat n -> byte_at (slice off n l) j = byte_at l (Z.of_nat off + j).
Proof. intros Hj. unfold byte_at. rewrite lookup_slice by lia. do 2 f_equal. lia. Qed.

(** One round of [writei]'s loop: [c] bytes into block [bn]. *)
Lemma written_step d ip off src tot c d1 ip1 d2 ip2 b :
  written d ip off src tot d1 ip1 -> 0 <= off -> 0 <= tot -> 0 < c -> tot + c <= Z.of_nat (length src) ->
  off + tot + c <= MAXFILE * BSIZE -> 0 <= i_size ip <= MAXFILE * BSIZE ->
  (off + tot) mod BSIZE + c <= BSIZE ->
  off <= i_size ip ->
  mapped d1 ip1 ((off + tot) / BSIZE) d2 ip2 b ->
  written d ip off src (tot + c)
    (<[(dev, b) := splice (Z.to_nat ((off + tot) mod BSIZE)) (slice (Z.to_nat tot) (Z.to_nat c) src)
                          (blk d2 (dev, b))]> d2) ip2.
Proof.
  intros [W1 W2 W3 W4 W5 W6] Hoff Htot Hc Hsrc Hmax Hsz Hfit Hle Hm.
  set (bn := (off + tot) / BSIZE) in *. assert (Hbn : 0 <= bn < MAXFILE) by (unfold bn; fs_lia).
  pose proof Hm as [M1 M2 M3 M4 M5 M6 M7 M8 M9 _ _ _]. subst b.
  set (dat := splice _ _ _). assert (Hslen : length (slice (Z.to_nat tot) (Z.to_nat c) src) = Z.to_nat c)
    by (rewrite length_slice; lia).
  pose proof M1 as (_ & Hl2 & _).
  assert (Hdat : length dat = BLEN).
  { unfold dat. rewrite length_splice; [done|]. rewrite Hslen, Hl2. unfold BLEN. fs_lia. }
  pose proof (write_block d2 ip2 bn dat M1 M2 Hbn M5 Hdat) as (D1 & D2 & D3 & D4).
  assert (Hold : forall o, 0 <= o < Z.max (i_size ip) (off + tot) -> fbyte d2 ip2 o = fbyte d1 ip1 o).
  { intros o Ho. eapply mapped_fbyte; [exact Hm|done|fs_lia|]. apply W4; fs_lia. }
  constructor; try done.
  - eapply ext_trans; [exact W3|]. by eapply ext_trans.
  - intros bn' Hbn' Hlt. rewrite D4 by fs_lia. destruct (decide (bn' = bn)) as [->|N]; [done|].
    rewrite M8 by (done || fs_lia). apply W4; [done|]. unfold bn in N. fs_lia.
  - intros o Ho. rewrite fbyte_write_block by (done || fs_lia).
    destruct (decide (off + tot <= o < off + tot + c)) as [Hin|Hout].
    + replace (o / BSIZE =? bn) with true by (unfold bn; fs_lia).
      replace ((off <=? o) && (o <? off + (tot + c))) with true by lia.
      unfold dat. rewrite byte_at_splice by (rewrite ?Hslen, ?Hl2; unfold BLEN; fs_lia).
      rewrite Hslen. match goal with |- (if ?c then _ else _) = _ => replace c with true by fs_lia end.
      rewrite byte_at_slice by fs_lia. f_equal. fs_lia.
    + assert (Ho' : 0 <= o < Z.max (i_size ip) (off + tot)) by lia.
      replace (if o / BSIZE =? bn then byte_at dat (o mod BSIZE) else fbyte d2 ip2 o) with (fbyte d2 ip2 o).
      * rewrite Hold, W5 by done.
        replace ((off <=? o) && (o <? off + (tot + c))) with ((off <=? o) && (o <? off + tot)) by lia. done.
      * destruct (Z.eqb_spec (o / BSIZE) bn) as [E|]; [|done]. unfold fbyte. rewrite E. unfold dat.
        rewrite byte_at_splice by (rewrite ?Hslen, ?Hl2; unfold BLEN; fs_lia). rewrite Hslen.
        match goal with |- _ = (if ?c then _ else _) => replace c with false; [done|] end.
        unfold bn in E. fs_lia.
  - intros Hno. destruct M6 as [-> ->]; [|apply W6; lia]. apply W4; [lia|]. unfold bn. fs_lia.
Qed.

Section WriteLoop.
Context {S : Type} `{HB : !BlockOps S} `{HS : !BlockSpec S} (Hcap : (2 <= bcap)%nat).
Implicit Types (x : fs S) (ic : list inode).

(** The copying loop of [writei]. *)
Lemma writei_loop_wp x d ic i ip src off m (Q : Z -> fs S -> Prop) :
  at_fs x d ∅ ic -> ic !! i = Some ip -> file_ok d ip ->
  0 <= off <= i_size ip -> 0 <= m <= Z.of_nat (length src) -> off + m <= MAXFILE * BSIZE ->
  (0 < m -> (need d ip (off / BSIZE) ((off + m - 1) / BSIZE + 1) <= nfree d)%nat) ->
  (forall x' d' ip', at_fs x' d' ∅ (<[i := ip']> ic) -> written d ip off src m d' ip' -> Q (off + m) x') ->
  wp (loop (io_fuel m) (fun st : Z * Z =>
        let '(tot, off) := st in
        if tot <? m then
          b ← bmap i (off / BSIZE);
          bp ← bread_ (i_dev ip) b;
          let m := Z.min (m - tot) (BSIZE - off mod BSIZE) in
          _ ← bupd bp (splice (Z.to_nat (off mod BSIZE)) (slice (Z.to_nat tot) (Z.to_nat m) src));
          _ ← bwrite_ bp;
          _ ← brelse_ bp;
          mret (inl (u32 (tot + m), u32 (off + m)))
        else mret (inr off)) (0, off)) Q x.
Proof using Hcap.
  intros Hx Hip Hfile Hoff Hm Hmax Hneed HQ. pose proof Hfile as (Hd & Hok & Hsz & Hmap).
  assert (Hi : (i < length ic)%nat) by by eapply lookup_lt_Some.
  change (MAXFILE * BSIZE) with 71680 in *.
  apply (wp_loop_ghost (fun r st x1 => let '(tot, o) := st in exists d1 ip1,
           at_fs x1 d1 ∅ (<[i := ip1]> ic) /\ 0 <= tot <= m /\ o = off + tot /\
           written d ip off src tot d1 ip1 /\ r = rounds off m tot /\
           (tot < m -> (need d1 ip1 ((off + tot) / BSIZE) ((off + m - 1) / BSIZE + 1) <= nfree d1)%nat))
         _ _ _ (rounds off m 0)).
  - intros r [tot o] x1 (d1 & ip1 & Hx1 & Ht & -> & Hw & -> & Hn1). wp_step; rename H into Htn.
    + assert (Htm : tot < m) by lia. specialize (Hn1 Htm).
      set (bn := (off + tot) / BSIZE) in *. assert (Hbn : 0 <= bn < MAXFILE) by (unfold bn; fs_lia).
      assert (Hhi : bn < (off + m - 1) / BSIZE + 1 /\ (off + m - 1) / BSIZE + 1 <= MAXFILE) by (unfold bn; fs_lia).
      wp_step. eapply (bmap_wp Hcap x1 d1 (<[i := ip1]> ic) i ip1); try done.
      { by apply list_lookup_insert_eq. }
      { apply Hw. } { apply Hw. }
      { etrans; [|exact Hn1]. apply cost_need. lia. }
      intros x2 d2 ip2 b Hmp Hx2. rewrite list_insert_insert_eq in Hx2.
      pose proof (m_addr _ _ _ _ _ _ Hmp) as Hb. pose proof (m_nz _ _ _ _ _ _ Hmp) as Hnz.
      pose proof (m_disk _ _ _ _ _ _ Hmp) as Hd2. pose proof (m_ok _ _ _ _ _ _ Hmp) as Hok2.
      pose proof (disk_ok_bounds d2 Hd2) as (Hbm & Hszb & _ & Hdev). pose proof Hd2 as (_ & Hl2 & _).
      assert (Hr : datastart <= b < sz).
      { rewrite <- Hb. apply (ok_own _ _ Hok2). apply in_file_baddr; [done|congruence]. }
      rewrite (ok_dev _ _ Hok). wp_step.
      eapply bread__wp; [done|split; simpl; lia|apply not_held_empty|rewrite map_size_empty; lia|].
      intros bp x3 Hbp Hx3. cbv zeta. set (c := Z.min (m - tot) (BSIZE - (off + tot) mod BSIZE)).
      assert (Hc : 0 < c <= m - tot /\ (off + tot) mod BSIZE + c <= BSIZE) by (unfold c; fs_lia).
      wp_step. eapply bupd_wp; [done|apply lookup_insert_eq| |].
      { rewrite length_splice; [done|]. rewrite length_slice, Hl2. unfold BLEN. fs_lia. }
      intros x4 Hx4. wp_step. eapply bwrite__wp; [done|apply lookup_insert_eq|]. intros x5 Hx5. wp_step.
      eapply brelse__wp; [done|apply lookup_insert_eq|by rewrite blk_insert|]. intros x6 Hx6.
      rewrite release_fresh2 in Hx6 by done. wp_step. rewrite !u32_small by lia.
      exists (rounds off m (tot + c)). split; [apply rounds_step; lia|].
      do 2 eexists. split; [exact Hx6|]. split_and!; [lia|lia|lia| |done|].
      * apply (written_step _ _ _ _ _ _ d1 ip1); try done; try lia. fs_lia.
      * intros Hlt. replace ((off + (tot + c)) / BSIZE) with (bn + 1) by (unfold bn, c in *; fs_lia).
        rewrite (nfree_ext d2) by (intros; apply bit_write; done || lia).
        assert (Hnd : need (<[(dev, b) := splice (Z.to_nat ((off + tot) mod BSIZE))
                  (slice (Z.to_nat tot) (Z.to_nat c) src) (blk d2 (dev, b))]> d2) ip2 (bn + 1)
                  ((off + m - 1) / BSIZE + 1) = need d2 ip2 (bn + 1) ((off + m - 1) / BSIZE + 1)).
        { unfold need. f_equal. apply missing_ext; [lia|lia|]. intros bn' Hbn'. apply baddr_ext.
          intros Hind. rewrite blk_insert_ne; [done|]. intros [= E]. subst b.
          by apply (ok_ind _ _ Hok2 bn Hbn Hind). }
        rewrite Hnd. eapply need_step; [exact Hmp|lia|lia|done].
    + wp_step. replace tot with m in * by lia. by eapply HQ.
  - exists d, ip. rewrite list_insert_id by done. split_and!; try done; try lia.
    + by apply written_start.
    + intros. rewrite Z.add_0_r. auto.
  - apply rounds_start; lia.
Qed.
End WriteLoop.

(** ** Updating the on-disk inode, and other files *)

Definition disjoint d ip jp : Prop := forall b, in_file d ip b -> in_file d jp b -> False.

(** Two disks on which a file's blocks are the same. *)
Lemma file_ext d d' jp :
  inode_ok d jp -> disk_ok d' ->
  (forall b, in_file d jp b -> blk d' (dev, b) = blk d (dev, b)) ->
  (forall b, in_file d jp b -> bit d' b = true) ->
  inode_ok d' jp /\ (forall bn, 0 <= bn < MAXFILE -> baddr d' jp bn = baddr d jp bn) /\
  (forall b, in_file d' jp b <-> in_file d jp b) /\
  (forall o, 0 <= o < MAXFILE * BSIZE -> baddr d jp (o / BSIZE) <> 0 -> fbyte d' jp o = fbyte d jp o).
Proof.
  intros Hok Hd' Hblk Hbit.
  assert (Hba : forall bn, 0 <= bn < MAXFILE -> baddr d' jp bn = baddr d jp bn).
  { intros bn Hbn. apply baddr_ext. intros Hi. apply Hblk. by apply in_file_ind. }
  assert (Hin : forall b, in_file d' jp b <-> in_file d jp b).
  { intros b. unfold in_file. split; intros [Hne [->|(bn & Hbn & ->)]]; split; auto; right; exists bn;
      split; auto; by rewrite Hba in *. }
  split_and!; try done.
  - constructor; [apply (ok_dev _ _ Hok)|apply (ok_len _ _ Hok)| | |].
    + intros b Hb%Hin. split; [by apply (ok_own _ _ Hok)|auto].
    + intros b1 b2 H1 H2. rewrite !Hba by done. by apply (ok_inj _ _ Hok).
    + intros b1 H1. rewrite Hba by done. by apply (ok_ind _ _ Hok).
  - intros o Ho Hne. unfold fbyte. assert (0 <= o / BSIZE < MAXFILE) by fs_lia.
    rewrite Hba by done. rewrite Hblk; [done|]. by apply in_file_baddr.
Qed.

Lemma content_ext d d' jp :
  file_ok d jp -> disk_ok d' ->
  (forall b, in_file d jp b -> blk d' (dev, b) = blk d (dev, b)) ->
  (forall b, in_file d jp b -> bit d' b = true) ->
  file_ok d' jp /\ content d' jp = content d jp.
Proof.
  intros (Hd & Hok & Hsz & Hmap) Hd' Hblk Hbit.
  destruct (file_ext d d' jp Hok Hd' Hblk Hbit) as (Hok' & Hba & _ & Hfb). split.
  - split_and!; try done; try lia. intros bn Hbn Hlt. rewrite Hba by fs_lia. by apply Hmap.
  - unfold content. apply list_fmap_ext. intros k o Hk. apply lookup_seqZ in Hk as [-> Hk].
    apply Hfb; [fs_lia|]. apply Hmap; fs_lia.
Qed.

(** Writing an inode block. *)
Lemma put_inode_ok d ip :
  disk_ok d -> i_dev ip = dev -> length (i_addrs ip) = 13%nat -> 0 <= i_inum ip < ni ->
  disk_ok (put_inode ip d) /\
  (forall b, datastart <= b -> blk (put_inode ip d) (dev, b) = blk d (dev, b)) /\
  (forall b, 0 <= b < sz -> bit (put_inode ip d) b = bit d b) /\
  addressable (dev, IBLOCK (i_inum ip)).
Proof.
  intros Hd Hdev Hlen Hin. pose proof Hd as (Hg & Hl & Hm & Hz).
  pose proof (disk_ok_bounds d Hd) as (Hbm & Hsz & Hni & Hdv). pose proof (g_fits _ _ _ _ Hg) as Hfit.
  assert (Hib : 2 <= IBLOCK (i_inum ip) < bmstart) by (unfold IBLOCK, FsAlloc.bmstart; fs_lia).
  assert (Hbits : forall b, 0 <= b < sz -> bit (put_inode ip d) b = bit d b).
  { intros b Hb. unfold put_inode. apply bit_insert_ne. rewrite Hdev. intros [= E].
    pose proof (bblock_range sz ni b Hni Hb). lia. }
  assert (Hdata : forall b, IBLOCK (i_inum ip) <> b -> blk (put_inode ip d) (dev, b) = blk d (dev, b)).
  { intros b Hb. unfold put_inode. rewrite Hdev. apply blk_insert_ne. congruence. }
  split_and!; [|intros; apply Hdata; lia|done|split; simpl; lia].
  split_and!.
  - eapply geom_ext; [|done]. apply Hdata. lia.
  - intros k. unfold put_inode. apply blk_length_insert; [done|].
    rewrite length_store_dinode; [done|done|]. rewrite Hl. apply dinode_off_bound.
  - intros b Hb. rewrite Hbits by lia. auto.
  - intros b Hb Hf. rewrite Hbits in Hf by done. rewrite Hdata; [auto|].
    pose proof (disk_ok_data d b Hd Hb Hf). lia.
Qed.

(** Another file, across [ext]. *)
Lemma other_file_ext d ip d' ip' jp :
  ext d ip d' ip' -> disk_ok d' -> file_ok d jp -> disjoint d ip jp ->
  file_ok d' jp /\ content d' jp = content d jp /\ disjoint d' ip' jp.
Proof.
  intros [F1 F2 F3 F4 F5] Hd' Hf Hdis. pose proof Hf as (Hd & Hok & _).
  pose proof (disk_ok_bounds d Hd) as (Hbm & _).
  assert (Hblk : forall b, in_file d jp b -> blk d' (dev, b) = blk d (dev, b)).
  { intros b Hb. destruct (ok_own _ _ Hok b Hb) as [Hr Hbt]. apply F1; try done; [lia| |lia].
    intros Hi. by eapply Hdis. }
  assert (Hbit : forall b, in_file d jp b -> bit d' b = true).
  { intros b Hb. destruct (ok_own _ _ Hok b Hb) as [Hr Hbt]. apply F3; [lia|done]. }
  destruct (content_ext d d' jp Hf Hd' Hblk Hbit) as [H1 H2]. split_and!; [done|done|].
  destruct (file_ext d d' jp Hok Hd' Hblk Hbit) as (_ & _ & Hin & _).
  intros b Hb1 Hb2%Hin. destruct (ok_own _ _ Hok b Hb2) as [Hr Hbt].
  destruct (F4 b ltac:(lia) Hb1) as [Hi|Hi]; [by eapply Hdis|congruence].
Qed.

Lemma other_file_put d ip jp :
  disk_ok d -> i_dev ip = dev -> length (i_addrs ip) = 13%nat -> 0 <= i_inum ip < ni -> file_ok d jp ->
  file_ok (put_inode ip d) jp /\ content (put_inode ip d) jp = content d jp /\
  (forall b, in_file (put_inode ip d) jp b <-> in_file d jp b).
Proof.
  intros Hd Hdev Hlen Hin Hf. destruct (put_inode_ok d ip Hd Hdev Hlen Hin) as (Hd' & Hb & Hbits & _).
  pose proof Hf as (_ & Hok & _). pose proof (disk_ok_bounds d Hd) as (Hbm & _).
  assert (Hblk : forall b, in_file d jp b -> blk (put_inode ip d) (dev, b) = blk d (dev, b)).
  { intros b Hb'. apply Hb, (ok_own _ _ Hok _ Hb'). }
  assert (Hbit : forall b, in_file d jp b -> bit (put_inode ip d) b = true).
  { intros b Hb'. destruct (ok_own _ _ Hok _ Hb'). rewrite Hbits; [done|lia]. }
  destruct (content_ext d _ jp Hf Hd' Hblk Hbit) as [H1 H2].
  destruct (file_ext d _ jp Hok Hd' Hblk Hbit) as (_ & _ & H3 & _). done.
Qed.

(** ** readi and writei against the file's contents *)

Lemma length_content d ip : 0 <= i_size ip -> length (content d ip) = Z.to_nat (i_size ip).
Proof. intros. unfold content. by rewrite length_fmap, length_seqZ. Qed.

Lemma lookup_content d ip o :
  0 <= o -> content d ip !! Z.to_nat o = if o <? i_size ip then Some (fbyte d ip o) else None.
Proof.
  intros Ho. unfold content. rewrite list_lookup_fmap. destruct (Z.ltb_spec o (i_size ip)).
  - rewrite lookup_seqZ_lt by lia. simpl. do 2 f_equal. lia.
  - by rewrite lookup_seqZ_ge by lia.
Qed.

Definition resized (ip : inode) (n : Z) : inode := set_isize (Z.max (i_size ip) n) ip.

Lemma inode_ok_resized d ip n : inode_ok d ip -> inode_ok d (resized ip n).
Proof. by intros []. Qed.

Lemma written_file d ip off src m d1 ip1 :
  file_ok d ip -> 0 <= off <= i_size ip -> 0 <= m <= Z.of_nat (length src) ->
  off + m <= MAXFILE * BSIZE -> written d ip off src m d1 ip1 ->
  file_ok d1 (resized ip1 (off + m)) /\
  i_size (resized ip1 (off + m)) = Z.max (i_size ip) (off + m) /\
  content d1 (resized ip1 (off + m)) = splice (Z.to_nat off) (take (Z.to_nat m) src) (content d ip).
Proof.
  intros (Hd & Hok & Hsz & Hmap) Hoff Hm Hmax [W1 W2 W3 W4 W5 W6].
  assert (Hs1 : i_size ip1 = i_size ip) by (by rewrite (e_fields _ _ _ _ W3)).
  assert (Hsize : i_size (resized ip1 (off + m)) = Z.max (i_size ip) (off + m)) by (simpl; by rewrite Hs1).
  assert (Hfile : file_ok d1 (resized ip1 (off + m))).
  { split; [done|]. split; [by apply inode_ok_resized|]. split; [rewrite Hsize; lia|].
    intros bn Hbn Hlt. rewrite Hsize in Hlt. exact (W4 bn Hbn Hlt). }
  split; [done|]. split; [done|].
  { pose proof (length_content d ip ltac:(lia)) as Hlc.
    assert (Htk : length (take (Z.to_nat m) src) = Z.to_nat m) by (rewrite length_take; lia).
    apply list_eq. intros k. rewrite <- (Nat2Z.id k), lookup_content, Hsize by lia. set (o := Z.of_nat k).
    change (fbyte d1 (resized ip1 (off + m)) o) with (fbyte d1 ip1 o).
    unfold splice. destruct (Z.ltb_spec o (Z.max (i_size ip) (off + m))).
    + rewrite W5 by lia. destruct (decide (o < off)); [|destruct (decide (o < off + m))].
      * replace ((off <=? o) && (o <? off + m)) with false by lia.
        rewrite lookup_app_l by (rewrite length_take; lia). rewrite lookup_take_lt by lia.
        rewrite lookup_content by lia. by replace (o <? i_size ip) with true by lia.
      * replace ((off <=? o) && (o <? off + m)) with true by lia.
        rewrite lookup_app_r, length_take by (rewrite length_take; lia).
        rewrite lookup_app_l, lookup_take_lt by lia. unfold byte_at.
        replace (Z.to_nat o - Z.to_nat off `min` length (content d ip))%nat with (Z.to_nat (o - off)) by lia.
        destruct (lookup_lt_is_Some_2 src (Z.to_nat (o - off))) as [v ->]; [lia|done].
      * replace ((off <=? o) && (o <? off + m)) with false by lia.
        rewrite lookup_app_r, length_take by (rewrite length_take; lia).
        rewrite lookup_app_r, Htk by (rewrite Htk; lia). rewrite lookup_drop.
        replace (Z.to_nat off + Z.to_nat m + _)%nat with (Z.to_nat o) by lia.
        rewrite lookup_content by lia. by replace (o <? i_size ip) with true by lia.
    + rewrite lookup_ge_None_2; [done|]. rewrite !length_app, length_take, Htk, length_drop. lia. }
Qed.

(** The disk's copy of the inode is up to date. *)
Definition synced d ip : Prop := dfields (dinode d dev (i_inum ip)) = dfields ip.

(** The C types of the fields, from the invariant. *)
Lemma inode_ok_typed d ip ip0 :
  disk_ok d -> inode_ok d ip -> inode_typed ip0 -> ip = set_iaddrs (i_addrs ip) (set_isize (i_size ip) ip0) ->
  is_uint (i_size ip) -> inode_typed ip.
Proof.
  intros Hd Hok (H1 & H2 & H3 & H4 & _ & _ & _) E Hs. pose proof (ok_len _ _ Hok) as Hlen.
  pose proof (disk_ok_bounds d Hd) as (Hbm & Hsz & _).
  rewrite E. unfold inode_typed. simpl. split_and!; try done. apply Forall_lookup. intros k a Hk.
  assert (Hk13 : (k < 13)%nat) by (rewrite <- Hlen; by eapply lookup_lt_Some).
  assert (Ha : a = addr_at ip (Z.of_nat k)) by (unfold addr_at; by rewrite Nat2Z.id, Hk).
  unfold is_uint. destruct (decide (a = 0)) as [->|Hne]; [lia|].
  assert (Hin : in_file d ip a).
  { split; [done|]. destruct (decide (Z.of_nat k = NDIRECT)) as [E12|N12]; [left; by rewrite Ha, E12|].
    right. exists (Z.of_nat k). split; [fs_lia|]. unfold baddr.
    replace (Z.of_nat k <? NDIRECT) with true by fs_lia. done. }
  destruct (ok_own _ _ Hok a Hin). lia.
Qed.
End File.

Lemma iblock_range ni inum : 0 <= inum < ni -> 2 <= IBLOCK inum < FsAlloc.bmstart ni.
Proof. intros. unfold IBLOCK, FsAlloc.bmstart. fs_lia. Qed.

Section WriteOp.
Context (dev sz ni : Z).
Context {S : Type} `{HB : !BlockOps S} `{HS : !BlockSpec S} (Hcap : (2 <= bcap)%nat).
Context (dev_write : Z -> option (nat -> list Z -> Z -> M (fs S) Z)).
Implicit Types (x : fs S) (ic : list inode) (d : sectors).

(** The bytes [writei] can take: the file may grow to MAXFILE blocks. *)
Definition fit (off n : Z) : Z := Z.min n (MAXFILE * BSIZE - off).

(** What a successful [writei] leaves. *)
Record wrote d ip (off : Z) (src : list Z) (m : Z) d' ip' : Prop := Wrote {
  wr_file : file_ok dev sz ni d' ip';
  wr_size : i_size ip' = Z.max (i_size ip) (off + m);
  wr_content : content dev d' ip' = splice (Z.to_nat off) (take (Z.to_nat m) src) (content dev d ip);
  wr_ident : ip' = set_iaddrs (i_addrs ip') (set_isize (i_size ip') ip);
  wr_others : forall jp, file_ok dev sz ni d jp -> disjoint dev d ip jp ->
    file_ok dev sz ni d' jp /\ content dev d' jp = content dev d jp /\ disjoint dev d' ip' jp;
  wr_inodes : forall inum, inum <> i_inum ip -> 0 <= inum < ni -> dinode d' dev inum = dinode d dev inum;
  wr_synced : inode_typed ip -> synced dev d ip -> synced dev d' ip'
}.

Lemma written_wrote d ip off src m d1 ip1 :
  file_ok dev sz ni d ip -> 0 <= off <= i_size ip -> 0 <= m <= Z.of_nat (length src) ->
  off + m <= MAXFILE * BSIZE -> written dev sz ni d ip off src m d1 ip1 -> i_size ip < off + m ->
  0 <= i_inum ip < ni -> wrote d ip off src m (put_inode (resized ip1 (off + m)) d1) (resized ip1 (off + m)).
Proof.
  intros Hf Hoff Hm Hmax Hw Hlt Hin. set (ip' := resized ip1 (off + m)).
  destruct (written_file dev sz ni _ _ _ _ _ _ _ Hf Hoff Hm Hmax Hw) as (F1 & F2 & F3). fold ip' in F1, F2, F3.
  pose proof (w_ext _ _ _ _ _ _ _ _ _ _ Hw) as Hext. pose proof (e_fields _ _ _ _ _ _ _ Hext) as Hfl.
  assert (Hid : i_inum ip' = i_inum ip) by (unfold ip'; rewrite Hfl; done).
  pose proof F1 as (Hd1 & Hok1 & _). pose proof (ok_dev _ _ _ _ _ Hok1) as Hdv.
  pose proof (ok_len _ _ _ _ _ Hok1) as Hlen. rewrite <- Hid in Hin.
  destruct (other_file_put dev sz ni d1 ip' ip' Hd1 Hdv Hlen Hin F1) as (P1 & P2 & P3).
  assert (Hident : ip' = set_iaddrs (i_addrs ip') (set_isize (i_size ip') ip)) by (unfold ip'; rewrite Hfl; done).
  constructor; try done.
  - congruence.
  - intros jp Hj Hdis. destruct (other_file_ext dev sz ni d ip d1 ip1 jp Hext Hd1 Hj Hdis) as (J1 & J2 & J3).
    destruct (other_file_put dev sz ni d1 ip' jp Hd1 Hdv Hlen Hin J1) as (K1 & K2 & K3).
    split; [done|]. split; [congruence|]. intros b Hb1%P3 Hb2%K3. by apply (J3 b).
  - intros inum Hne Hr. pose proof (disk_ok_bounds dev sz ni d ltac:(apply Hf)) as (Hbm & _).
    pose proof (iblock_range ni inum Hr) as Hib. pose proof Hf as ((Hg & _ & Hmeta & _) & Hok & _).
    pose proof (g_fits _ _ _ _ Hg). rewrite dinode_put_other; [|done|apply Hd1|congruence].
    unfold dinode. f_equal. apply (e_frame _ _ _ _ _ _ _ Hext); [lia|apply Hmeta; lia| |lia].
    intros Hi. destruct (ok_own _ _ _ _ _ Hok _ Hi) as [Hr' _]. lia.
  - intros Ht Hs. unfold synced. rewrite <- Hdv at 1. apply dinode_put_same; [|apply Hd1].
    eapply inode_ok_typed; [exact Hd1|done|exact Ht|done|]. rewrite F2. unfold is_uint. fs_lia.
Qed.

(** No growth: the file's own blocks were overwritten in place. *)
Lemma written_in_place d ip off src m d1 ip1 :
  file_ok dev sz ni d ip -> 0 <= off <= i_size ip -> 0 <= m <= Z.of_nat (length src) ->
  written dev sz ni d ip off src m d1 ip1 -> off + m <= i_size ip -> 0 <= i_inum ip < ni ->
  ip1 = ip /\ wrote d ip off src m d1 ip.
Proof.
  intros Hf Hoff Hm Hw Hle Hin. pose proof (w_same _ _ _ _ _ _ _ _ _ _ Hw Hle) as ->. split; [done|].
  pose proof Hf as (Hd & Hok & Hsz & _).
  destruct (written_file dev sz ni _ _ _ _ _ _ _ Hf Hoff Hm ltac:(lia) Hw) as (F1 & F2 & F3).
  assert (E : resized ip (off + m) = ip) by (unfold resized; rewrite Z.max_l by lia; by destruct ip).
  rewrite E in F1, F2, F3. pose proof (w_ext _ _ _ _ _ _ _ _ _ _ Hw) as Hext.
  assert (Hind : forall inum, 0 <= inum < ni -> dinode d1 dev inum = dinode d dev inum).
  { intros inum Hr. pose proof (disk_ok_bounds dev sz ni d Hd) as (Hbm & _).
    pose proof (iblock_range ni inum Hr) as Hib. pose proof Hd as (Hg & _ & Hmeta & _).
    pose proof (g_fits _ _ _ _ Hg).
    unfold dinode. f_equal. apply (e_frame _ _ _ _ _ _ _ Hext); [lia|apply Hmeta; lia| |lia].
    intros Hi. destruct (ok_own _ _ _ _ _ Hok _ Hi) as [Hr' _]. lia. }
  constructor; try done.
  - by destruct ip.
  - intros jp Hj Hdis. eapply other_file_ext; [exact Hext|apply F1|done|done].
  - auto.
  - intros _ Hs. unfold synced. by rewrite Hind.
Qed.

Lemma writei_wp x d ic i ip src off n (Q : Z -> fs S -> Prop) :
  at_fs x d ∅ ic -> ic !! i = Some ip -> file_ok dev sz ni d ip -> 0 <= i_inum ip < ni ->
  i_type ip <> T_DEV -> is_uint off -> is_uint n -> n <= Z.of_nat (length src) ->
  bad_range (i_size ip) off n = false ->
  (0 < fit off n -> (need dev d ip (off / BSIZE) ((off + fit off n - 1) / BSIZE + 1) <= nfree dev sz ni d)%nat) ->
  (forall x' d' ip', wrote d ip off src (fit off n) d' ip' -> at_fs x' d' ∅ (<[i := ip']> ic) ->
     Q (fit off n) x') ->
  wp (writei dev_write i src off n) Q x.
Proof using Hcap.
  intros Hx Hip Hf Hin Hty Hoff Hn Hsrc Hbr Hneed HQ. pose proof Hf as (Hd & Hok & Hsz & _).
  unfold writei. wp_step. eapply geti_wp; [done|done|]. replace (i_type ip =? T_DEV) with false by lia.
  change ((i_size ip <? off) || (u32 (off + n) <? off)) with (bad_range (i_size ip) off n). rewrite Hbr.
  apply bad_range_false in Hbr as [Hle Hov]; [|done..]. unfold is_uint in *.
  assert (Hm : (if MAXFILE * BSIZE <? u32 (off + n) then u32 (MAXFILE * BSIZE - off) else n) = fit off n).
  { unfold fit. rewrite (u32_small (off + n)) by lia. change (MAXFILE * BSIZE) with 71680 in *.
    destruct (Z.ltb_spec 71680 (off + n)); [rewrite u32_small|]; lia. }
  rewrite Hm. cbv zeta. set (m := fit off n) in *.
  assert (Hmr : 0 <= m <= n /\ off + m <= MAXFILE * BSIZE) by (unfold m, fit; fs_lia).
  wp_step. eapply (writei_loop_wp dev sz ni Hcap x d ic i ip src off m); try done; try lia.
  intros x1 d1 ip1 Hx1 Hw. assert (Hi : (i < length ic)%nat) by by eapply lookup_lt_Some.
  wp_step. eapply geti_wp; [done|by apply list_lookup_insert_eq|].
  pose proof (w_ext _ _ _ _ _ _ _ _ _ _ Hw) as Hext.
  assert (Hs1 : i_size ip1 = i_size ip) by (by rewrite (e_fields _ _ _ _ _ _ _ Hext)).
  rewrite Hs1. wp_step. destruct ((0 <? m) && (i_size ip <? off + m)) eqn:Hgrow.
  - pose proof (written_wrote d ip off src m d1 ip1 Hf ltac:(lia) ltac:(lia) ltac:(lia) Hw ltac:(lia) Hin) as Hwr.
    assert (Hrs : set_isize (off + m) ip1 = resized ip1 (off + m)) by (unfold resized; rewrite Z.max_r; [done|lia]).
    simpl. wp_step. eapply updi_wp; [done|]. intros x2 Hx2.
    rewrite (alter_insert_some _ _ _ ip1), list_insert_insert_eq, Hrs in Hx2 by (by apply list_lookup_insert_eq).
    destruct (written_file dev sz ni d ip off src m d1 ip1 Hf ltac:(lia) ltac:(lia) ltac:(lia) Hw) as (F1 & _).
    pose proof F1 as (Hd1 & Hok1 & _). pose proof (ok_len _ _ _ _ _ Hok1) as Hlen.
    assert (Hid : i_inum (resized ip1 (off + m)) = i_inum ip) by (simpl; by rewrite (e_fields _ _ _ _ _ _ _ Hext)).
    destruct (put_inode_ok dev sz ni d1 (resized ip1 (off + m)) Hd1 (ok_dev _ _ _ _ _ Hok1) Hlen ltac:(by rewrite Hid))
      as (_ & _ & _ & Hadr).
    eapply iupdate_wp; [done|by apply list_lookup_insert_eq|done| |apply not_held_empty|rewrite map_size_empty; lia|].
    { by rewrite (ok_dev _ _ _ _ _ Hok1). }
    intros x3 Hx3. wp_step. by eapply HQ.
  - simpl. do 2 wp_step. destruct (decide (off + m <= i_size ip)) as [Hno|Hyes].
    + destruct (written_in_place d ip off src m d1 ip1 Hf) as [-> Hwr]; try done; try lia. by eapply HQ.
    + lia.
Qed.
End WriteOp.

(** C3: [readi] of a file returns -1 without reading when the offset lies past
    the end or [off + n] overflows 32 bits, and otherwise the bytes of the
    file from [off] on, at most [n] and up to its end, wherever the blocks lie
    and whether direct or indirect; it changes neither the disk nor the
    inode. *)
Theorem readi_correct {S} `{HB : !BlockOps S} `{HS : !BlockSpec S} dev sz ni dev_read
    (x : fs S) d ic i ip off n :
  (2 <= bcap)%nat -> at_fs x d ∅ ic -> ic !! i = Some ip -> file_ok dev sz ni d ip ->
  i_type ip <> T_DEV -> is_uint off -> is_uint n ->
  exists x', readi dev_read i off n x =
    Ok (if bad_range (i_size ip) off n then (-1, [])
        else let m := Z.min n (i_size ip - off) in
             (m, slice (Z.to_nat off) (Z.to_nat m) (content dev d ip))) x' /\
    at_fs x' d ∅ ic.
Proof.
  intros Hcap Hx Hip Hf Hty Hoff Hn.
  assert (Hwp : wp (readi dev_read i off n) (fun r x' =>
    r = (if bad_range (i_size ip) off n then (-1, [])
         else let m := Z.min n (i_size ip - off) in
              (m, slice (Z.to_nat off) (Z.to_nat m) (content dev d ip))) /\ at_fs x' d ∅ ic) x).
  { by eapply (readi_wp dev sz ni Hcap). }
  destruct (wp_elim _ _ _ Hwp) as (r & x' & Hrun & -> & Hx'). eauto.
Qed.

(** C2: [writei] of a file fails exactly like [readi] on a bad range; otherwise,
    if enough blocks are free for the part of the file that is not mapped yet,
    it returns the number of bytes written (up to the maximal file size), the
    file's contents are the old ones with that many bytes of [src] at [off],
    the file's blocks stay its own, every other file and every other on-disk
    inode is as before, the disk's copy of the inode stays up to date, and
    [readi] of the same range returns the bytes written. *)
Theorem writei_correct {S} `{HB : !BlockOps S} `{HS : !BlockSpec S} dev sz ni dev_read dev_write
    (x : fs S) d ic i ip src off n :
  (2 <= bcap)%nat -> at_fs x d ∅ ic -> ic !! i = Some ip -> file_ok dev sz ni d ip ->
  0 <= i_inum ip < ni -> i_type ip <> T_DEV -> is_uint off -> is_uint n -> n <= Z.of_nat (length src) ->
  (bad_range (i_size ip) off n = true ->
     exists x', writei dev_write i src off n x = Ok (-1) x' /\ at_fs x' d ∅ ic) /\
  (bad_range (i_size ip) off n = false ->
     (0 < fit off n ->
        (need dev d ip (off / BSIZE) ((off + fit off n - 1) / BSIZE + 1) <= nfree dev sz ni d)%nat) ->
     exists x' d' ip', writei dev_write i src off n x = Ok (fit off n) x' /\
       at_fs x' d' ∅ (<[i := ip']> ic) /\ wrote dev sz ni d ip off src (fit off n) d' ip' /\
       exists x'', readi dev_read i off (fit off n) x' = Ok (fit off n, take (Z.to_nat (fit off n)) src) x'').
Proof.
  intros Hcap Hx Hip Hf Hin Hty Hoff Hn Hsrc. split.
  - intros Hbr. exists x. split; [|done]. pose proof Hx as [_ Hic].
    unfold writei, geti, mbind, M_bind, gets. rewrite Hic, Hip. cbn [default from_option id].
    replace (i_type ip =? T_DEV) with false by lia. by unfold bad_range in Hbr; rewrite Hbr.
  - intros Hbr Hneed.
    assert (Hwp : wp (writei dev_write i src off n) (fun r x' => r = fit off n /\ exists d' ip',
       at_fs x' d' ∅ (<[i := ip']> ic) /\ wrote dev sz ni d ip off src (fit off n) d' ip') x).
    { eapply (writei_wp dev sz ni Hcap); try done. intros x' d' ip' Hw Hx'. eauto 6. }
    destruct (wp_elim _ _ _ Hwp) as (r & x' & Hrun & -> & d' & ip' & Hx' & Hw).
    exists x', d', ip'. split_and!; try done.
    pose proof Hw as [W1 W2 W3 W4 _ _ _]. pose proof Hf as (_ & _ & Hsz & _).
    apply bad_range_false in Hbr as [Hle Hov]; [|done..]. unfold is_uint in *.
    set (m := fit off n) in *. assert (Hm : 0 <= m <= n) by (unfold m, fit; fs_lia).
    assert (Hi : (i < length ic)%nat) by by eapply lookup_lt_Some.
    assert (Hwp2 : wp (readi dev_read i off m) (fun r _ => r = (m, take (Z.to_nat m) src)) x').
    { eapply (readi_wp dev sz ni Hcap); [exact Hx'|by apply list_lookup_insert_eq|done| |done|unfold is_uint; lia|].
      - by rewrite W4.
      - intros x'' _. replace (bad_range (i_size ip') off m) with false.
        2:{ symmetry. apply bad_range_false; unfold is_uint; lia. }
        cbv zeta. rewrite Z.min_l by lia. rewrite W3.
        replace (Z.to_nat m) with (length (take (Z.to_nat m) src)) at 1 by (rewrite length_take; lia).
        rewrite slice_splice_grow; [done|]. rewrite length_content; lia. }
    destruct (wp_elim _ _ _ Hwp2) as (r & x'' & Hrun2 & ->). eauto.
Qed.

(** ** "hello" on the demo disk *)

Definition hello_inode : inode := Inode 1 2 1 (Z.lor I_BUSY I_VALID) T_FILE 0 0 1 3 (6 :: replicate 12 0).
Definition hello_fs : fs ide := MkFs (io demo_fs) (<[0%nat := hello_inode]> demo_icache).

Lemma hello_at_fs : at_fs hello_fs demo_disk ∅ (<[0%nat := hello_inode]> demo_icache).
Proof. split; [apply demo_at_fs|reflexivity]. Qed.

Lemma demo_disk_ok : disk_ok 1 16 8 demo_disk.
Proof.
  destruct demo_fresh as (Hg & Hm & Hz). split; [done|]. split; [apply demo_blocks|]. by split.
Qed.

Lemma hello_baddr bn : 0 <= bn < MAXFILE -> baddr 1 demo_disk hello_inode bn = if bn =? 0 then 6 else 0.
Proof.
  intros Hbn. unfold baddr. change (ind hello_inode =? 0) with true. cbn iota.
  destruct (Z.ltb_spec bn NDIRECT).
  - assert (Hin : bn ∈ seqZ 0 12) by (apply elem_of_seqZ; fs_lia). clear Hbn H. revert bn Hin.
    apply Forall_forall. repeat constructor.
  - replace (bn =? 0) with false by fs_lia. done.
Qed.

Lemma hello_in_file b : in_file 1 demo_disk hello_inode b -> b = 6.
Proof.
  intros [Hne [->|(bn & Hbn & ->)]]; [done|]. rewrite hello_baddr in * by done.
  by destruct (bn =? 0).
Qed.

Lemma hello_file_ok : file_ok 1 16 8 demo_disk hello_inode.
Proof.
  split; [apply demo_disk_ok|]. split; [|split; [simpl; fs_lia|]].
  - constructor; [done|done| | |].
    + intros b ->%hello_in_file. rewrite demo_bit by lia. change (datastart 16 8) with 5. lia.
    + intros b1 b2 H1 H2. rewrite !hello_baddr by done.
      destruct (Z.eqb_spec b1 0), (Z.eqb_spec b2 0); lia.
    + intros bn _ Hi. by destruct Hi.
  - intros bn H0 Hlt. simpl in Hlt. rewrite hello_baddr by fs_lia. replace (bn =? 0) with true by fs_lia. lia.
Qed.

Lemma readi_correct_witness :
  exists x', readi (fun _ => None) 0 1 100 hello_fs =
    Ok (let m := Z.min 100 (3 - 1) in
        (m, slice (Z.to_nat 1) (Z.to_nat m) (content 1 demo_disk hello_inode))) x' /\
    at_fs x' demo_disk ∅ (<[0%nat := hello_inode]> demo_icache).
Proof.
  apply (readi_correct 1 16 8 (fun _ => None) hello_fs demo_disk (<[0%nat := hello_inode]> demo_icache)
           0 hello_inode 1 100).
  - vm_compute. lia.
  - exact hello_at_fs.
  - reflexivity.
  - exact hello_file_ok.
  - discriminate.
  - unfold is_uint. lia.
  - unfold is_uint. lia.
Defined.

(** Two more bytes at the end of "hello". *)
Lemma writei_correct_witness :
  exists x' d' ip', writei (fun _ => None) 0 [33; 33] 3 2 hello_fs = Ok 2 x' /\
    at_fs x' d' ∅ (<[0%nat := ip']> (<[0%nat := hello_inode]> demo_icache)) /\
    wrote 1 16 8 demo_disk hello_inode 3 [33; 33] 2 d' ip' /\
    exists x'', readi (fun _ => None) 0 3 2 x' = Ok (2, [33; 33]) x''.
Proof.
  destruct (writei_correct 1 16 8 (fun _ => None) (fun _ => None) hello_fs demo_disk
              (<[0%nat := hello_inode]> demo_icache) 0 hello_inode [33; 33] 3 2) as [_ Hw].
  - vm_compute. lia.
  - exact hello_at_fs.
  - reflexivity.
  - exact hello_file_ok.
  - simpl. lia.
  - discriminate.
  - unfold is_uint. lia.
  - unfold is_uint. lia.
  - simpl. lia.
  - apply Hw; [reflexivity|]. intros _. change (3 / BSIZE) with 0.
    change ((3 + fit 3 2 - 1) / BSIZE + 1) with 1. unfold need.
    rewrite missing_cons by lia. rewrite hello_baddr by fs_lia. simpl. lia.
Defined.
