(* ===== verification/FsTrunc.v ===== *)
(** * Discarding a file: itrunc in [src/fs.c]

    [itrunc] frees the direct blocks, the blocks listed in the indirect block
    and the indirect block itself.  [freeing] relates the disk before to the
    disk at any moment of that: which blocks have been given back, and that
    nothing else has changed. *)

From stdpp Require Import base numbers strings list gmap list_numbers.
From Stdlib Require Import Lia ZArith ZifyBool.
From S2P Require Import Prelude Ide BlockDev Fs FsAlloc DemoDisk FsInode FsFile.
Open Scope Z_scope.

Section Trunc.
Context (dev sz ni : Z).
Implicit Types (d : sectors) (ip : inode) (F : Z -> Prop).

Abbreviation bit := (bit dev ni).
Abbreviation datastart := (datastart sz ni).
Abbreviation bmstart := (bmstart ni).
Abbreviation disk_ok := (disk_ok dev sz ni).
Abbreviation inode_ok := (inode_ok dev sz ni).
Abbreviation file_ok := (file_ok dev sz ni).
Abbreviation baddr := (baddr dev).
Abbreviation in_file := (in_file dev).
Abbreviation content := (content dev).

(** From [d] to [d1] exactly the blocks in [F] were freed. *)
Record freeing d F d1 : Prop := Freeing {
  fr_disk : disk_ok d1;
  fr_bit : forall b, 0 <= b < sz -> bit d1 b = true <-> bit d b = true /\ ~ F b;
  fr_blk : forall b, b < bmstart \/ datastart <= b -> ~ F b -> blk d1 (dev, b) = blk d (dev, b);
  fr_dev : forall k, k.1 <> dev -> blk d1 k = blk d k
}.

Lemma freeing_start d F : disk_ok d -> (forall b, ~ F b) -> freeing d F d.
Proof. intros Hd HF. constructor; try done. intros b _. split; [|by intros []]. by split. Qed.

Lemma freeing_iff d F F' d1 : (forall b, F' b <-> F b) -> freeing d F d1 -> freeing d F' d1.
Proof.
  intros E [H1 H2 H3 H4]. constructor; try done; intros b; rewrite ?E; auto.
Qed.

Lemma disk_ok_freed d b : disk_ok d -> datastart <= b < sz -> disk_ok (freed dev ni b d).
Proof.
  intros Hd Hb. pose proof Hd as (Hg & Hl & Hm & Hz). pose proof (disk_ok_bounds _ _ _ _ Hd) as (Hbm & Hsz & Hni & _).
  pose proof (g_fits _ _ _ _ Hg). pose proof (bblock_range sz ni b Hni ltac:(lia)).
  split_and!.
  - eapply geom_ext; [|done]. apply blk_freed_ne; intros [=]; lia.
  - unfold freed, unmark. apply blk_length_insert; [apply blk_length_insert; [done|apply length_replicate]|].
    rewrite length_clear_bit. rewrite blk_insert_ne; [done|]. intros [=]; lia.
  - intros b' Hb'. rewrite (bit_freed dev sz ni) by (done || lia). rewrite Hm by done.
    destruct (Z.eqb_spec b b'); [lia|done].
  - intros b' Hb' Hf. destruct (decide (b' = b)) as [->|Hne]; [apply (blk_freed dev sz); lia|].
    rewrite (bit_freed dev sz ni) in Hf by (done || lia).
    replace (b =? b') with false in Hf by lia. simpl in Hf.
    pose proof (disk_ok_data _ _ _ _ _ Hd Hb' Hf).
    rewrite blk_freed_ne by (intros [=]; lia). by apply Hz.
Qed.

(** One more block given back. *)
Lemma freeing_step d F d1 b :
  freeing d F d1 -> datastart <= b < sz -> freeing d (fun b' => b' = b \/ F b') (freed dev ni b d1).
Proof.
  intros [Hd Hbit Hblk Hdev] Hb. pose proof Hd as (Hg & Hl & _ & _).
  pose proof (disk_ok_bounds _ _ _ _ Hd) as (Hbm & Hsz & Hni & _).
  pose proof (g_fits _ _ _ _ Hg). pose proof (bblock_range sz ni b Hni ltac:(lia)).
  constructor.
  - by apply disk_ok_freed.
  - intros b' Hb'. rewrite (bit_freed dev sz ni) by (done || lia). rewrite andb_true_iff, Hbit by done.
    rewrite negb_true_iff, Z.eqb_neq.
    split; [intros (? & ? & ?)|intros [? Hno]]; repeat split; try tauto; [by intros [->|]|].
    intros ->. tauto.
  - intros b' Hr Hno. rewrite blk_freed_ne by (intros [=]; first [lia|tauto]). apply Hblk; tauto.
  - intros k Hk. rewrite blk_freed_ne by (intros ->; done). by apply Hdev.
Qed.

(** The file's blocks with numbers below [k]. *)
Definition below d ip (k : Z) (b : Z) : Prop :=
  b <> 0 /\ exists bn, 0 <= bn < k /\ b = baddr d ip bn.

Lemma below_next d ip k b :
  0 <= k -> below d ip (k + 1) b <-> below d ip k b \/ (b <> 0 /\ b = baddr d ip k).
Proof.
  intros Hk. unfold below. split.
  - intros (Hne & bn & Hbn & ->). destruct (decide (bn = k)) as [->|]; [tauto|]. left. split; [done|].
    exists bn. split; [lia|done].
  - intros [(Hne & bn & Hbn & ->)|[Hne ->]]; (split; [done|]); [exists bn|exists k]; split; done || lia.
Qed.

(** Freeing block [k], when there is one, goes from [below k] to [below (k+1)]. *)
Lemma freeing_below d ip k d1 :
  inode_ok d ip -> 0 <= k < MAXFILE -> freeing d (below d ip k) d1 ->
  (baddr d ip k = 0 -> freeing d (below d ip (k + 1)) d1) /\
  (baddr d ip k <> 0 -> datastart <= baddr d ip k < sz /\ bit d1 (baddr d ip k) = true /\
     freeing d (below d ip (k + 1)) (freed dev ni (baddr d ip k) d1)).
Proof.
  intros Hok Hk Hf. split.
  - intros E. eapply freeing_iff; [|done]. intros b. rewrite below_next, E by lia. tauto.
  - intros Hne. destruct (ok_own _ _ _ _ _ Hok _ (in_file_baddr dev d ip k Hk Hne)) as [Hr Hb].
    pose proof (disk_ok_bounds _ _ _ _ (fr_disk _ _ _ Hf)) as (Hbm & _).
    split_and!; [lia|lia| |].
    + apply (fr_bit _ _ _ Hf); [lia|]. split; [done|]. intros (_ & bn & Hbn & E).
      pose proof (ok_inj _ _ _ _ _ Hok k bn Hk ltac:(lia) Hne E). lia.
    + eapply freeing_iff; [|by apply freeing_step]. intros b. rewrite below_next by lia. simpl.
      split; [tauto|]. intros [->|]; tauto.
Qed.

Lemma freeing_all d ip d1 :
  inode_ok d ip -> freeing d (below d ip MAXFILE) d1 ->
  (ind ip = 0 -> freeing d (in_file d ip) d1) /\
  (ind ip <> 0 -> datastart <= ind ip < sz /\ bit d1 (ind ip) = true /\
     blk d1 (dev, ind ip) = blk d (dev, ind ip) /\
     freeing d (in_file d ip) (freed dev ni (ind ip) d1)).
Proof.
  intros Hok Hf. split.
  - intros E. eapply freeing_iff; [|done]. intros b. unfold FsFile.in_file, below. rewrite E. tauto.
  - intros Hne. destruct (ok_own _ _ _ _ _ Hok _ (in_file_ind dev d ip Hne)) as [Hr Hb].
    pose proof (disk_ok_bounds _ _ _ _ (fr_disk _ _ _ Hf)) as (Hbm & _).
    assert (Hno : ~ below d ip MAXFILE (ind ip)).
    { intros (_ & bn & Hbn & E). by apply (ok_ind _ _ _ _ _ Hok bn Hbn Hne). }
    split_and!; [lia|lia| | |].
    + apply (fr_bit _ _ _ Hf); [lia|done].
    + apply (fr_blk _ _ _ Hf); [lia|done].
    + eapply freeing_iff; [|by apply freeing_step]. intros b. unfold FsFile.in_file, below. simpl.
      split; [tauto|]. intros [->|]; [by auto|tauto].
Qed.

(** ** The operation *)

Definition zeroed (k : Z) ip : inode :=
  set_iaddrs (replicate (Z.to_nat k) 0 ++ drop (Z.to_nat k) (i_addrs ip)) ip.
Definition emptied ip : inode := set_isize 0 (set_iaddrs (replicate 13 0) ip).

Lemma addr_at_zeroed k ip : addr_at (zeroed k ip) k = addr_at ip k.
Proof.
  unfold addr_at, zeroed. simpl. rewrite lookup_app_r by (rewrite length_replicate; lia).
  by rewrite length_replicate, Nat.sub_diag, lookup_drop, Nat.add_0_r.
Qed.

Lemma set_addr_zeroed k ip :
  0 <= k < Z.of_nat (length (i_addrs ip)) -> set_addr k 0 (zeroed k ip) = zeroed (k + 1) ip.
Proof.
  intros Hk. destruct (lookup_lt_is_Some_2 (i_addrs ip) (Z.to_nat k)) as [a Ha]; [lia|].
  unfold set_addr, zeroed. simpl. replace (Z.to_nat (k + 1)) with (S (Z.to_nat k)) by lia.
  rewrite (drop_S _ _ _ Ha), insert_app_r_alt by (rewrite length_replicate; lia).
  rewrite length_replicate, Nat.sub_diag, replicate_S_end, <- app_assoc. done.
Qed.

Lemma zeroed_skip k ip :
  0 <= k < Z.of_nat (length (i_addrs ip)) -> addr_at ip k = 0 -> zeroed (k + 1) ip = zeroed k ip.
Proof.
  intros Hk H0. rewrite <- set_addr_zeroed by done. unfold set_addr. rewrite list_insert_id; [done|].
  rewrite <- addr_at_zeroed in H0. unfold addr_at in H0.
  destruct (lookup_lt_is_Some_2 (i_addrs (zeroed k ip)) (Z.to_nat k)) as [a Ha].
  { simpl. rewrite length_app, length_replicate, length_drop. lia. }
  rewrite Ha in H0. simpl in H0. by subst.
Qed.

Lemma zeroed_all ip jp : length (i_addrs ip) = 13%nat -> jp = zeroed (NDIRECT + 1) ip -> set_isize 0 jp = emptied ip.
Proof.
  intros Hl ->. unfold zeroed, emptied. simpl. rewrite drop_ge by (rewrite Hl; done). done.
Qed.

Lemma below_direct d ip b : ind ip = 0 -> below d ip MAXFILE b <-> below d ip NDIRECT b.
Proof.
  intros H0. unfold below. split; intros (Hne & bn & Hbn & ->); (split; [done|]); exists bn; (split; [|done]).
  - unfold FsFile.baddr in Hne. rewrite H0 in Hne. destruct (Z.ltb_spec bn NDIRECT); [lia|done].
  - fs_lia.
Qed.

Section Op.
Context {S : Type} `{HB : !BlockOps S} `{HS : !BlockSpec S} (Hcap : (2 <= bcap)%nat).
Implicit Types (x : fs S) (ic : list inode).

Lemma bfree_ok_wp x d H ic b (Q : unit -> fs S -> Prop) :
  at_fs x d H ic -> disk_ok d -> (forall b', 0 <= b' < datastart -> not_held H (dev, b')) ->
  (size H < bcap)%nat -> datastart <= b < sz -> not_held H (dev, b) -> bit d b = true ->
  (forall x', at_fs x' (freed dev ni b d) H ic -> Q tt x') -> wp (bfree dev b) Q x.
Proof. intros Hx (Hg & _) Hm Hs Hb Hn Ht HQ. by eapply bfree_wp. Qed.

(** The loop over the direct blocks. *)
Lemma itrunc_direct_wp x d ic i ip (Q : unit -> fs S -> Prop) :
  at_fs x d ∅ ic -> ic !! i = Some ip -> disk_ok d -> inode_ok d ip ->
  (forall x' d', freeing d (below d ip NDIRECT) d' -> at_fs x' d' ∅ (<[i := zeroed NDIRECT ip]> ic) -> Q tt x') ->
  wp (loop 13 (fun k : Z =>
        if k <? NDIRECT then
          ip ← geti i;
          _ ← when (negb (addr_at ip k =? 0))
                (_ ← bfree (i_dev ip) (addr_at ip k); updi i (set_addr k 0));
          mret (inl (k + 1))
        else mret (inr tt)) 0) Q x.
Proof using Hcap.
  intros Hx Hi Hd Hok HQ. pose proof (ok_len _ _ _ _ _ Hok) as Hlen.
  assert (Hil : (i < length ic)%nat) by by eapply lookup_lt_Some.
  apply (wp_loop (fun k x1 => 0 <= k <= NDIRECT /\ exists d1, freeing d (below d ip k) d1 /\
     at_fs x1 d1 ∅ (<[i := zeroed k ip]> ic)) (fun k _ => Z.to_nat (NDIRECT - k))).
  - intros k x1 (Hk & d1 & Hf & Hx1). wp_step; rename H into Hlt.
    + assert (Hb : baddr d ip k = addr_at ip k) by (unfold FsFile.baddr; by rewrite Hlt).
      destruct (freeing_below d ip k d1 Hok ltac:(fs_lia) Hf) as [Hskip Htake]. rewrite Hb in Hskip, Htake.
      wp_step. eapply geti_wp; [done|by apply list_lookup_insert_eq|]. wp_step.
      rewrite addr_at_zeroed. wp_step; wp_step.
      * destruct Htake as (Hr & Ht & Hf'); [lia|]. rewrite (ok_dev _ _ _ _ _ Hok : i_dev (zeroed k ip) = dev).
        eapply bfree_ok_wp; [done|apply Hf|intros b' _; apply not_held_empty| |done|apply not_held_empty|done|].
        { rewrite map_size_empty. lia. }
        intros x2 Hx2. eapply updi_wp; [done|]. intros x3 Hx3.
        rewrite (alter_insert_some _ _ _ (zeroed k ip)), list_insert_insert_eq in Hx3
          by (by apply list_lookup_insert_eq).
        rewrite set_addr_zeroed in Hx3 by fs_lia. wp_step. split; [|fs_lia]. split; [fs_lia|]. eauto.
      * split; [|fs_lia]. split; [fs_lia|]. exists d1. split; [apply Hskip; lia|].
        rewrite zeroed_skip by fs_lia. done.
    + wp_step. replace k with NDIRECT in Hf, Hx1 by lia. by eapply HQ.
  - split; [fs_lia|]. exists d. split.
    + apply freeing_start; [done|]. intros b (_ & bn & Hbn & _). lia.
    + unfold zeroed. simpl. rewrite list_insert_id; [done|]. by destruct ip.
  - fs_lia.
Qed.

(** The loop over the entries of the indirect block, held in buffer [bp]. *)
Lemma itrunc_indirect_wp x d d0 ic ip bp (Q : unit -> fs S -> Prop) :
  inode_ok d ip -> ind ip <> 0 -> freeing d (below d ip NDIRECT) d0 ->
  let H : holds := <[bp := ((dev, ind ip), blk d (dev, ind ip))]> ∅ in
  at_fs x d0 H ic ->
  (forall x' d', freeing d (below d ip MAXFILE) d' -> at_fs x' d' H ic -> Q tt x') ->
  wp (loop 129 (fun j : Z =>
        if j <? NINDIRECT then
          a ← data_of bp;
          _ ← when (negb (ldw 4 a (Z.to_nat (4 * j)) =? 0))
                (bfree dev (ldw 4 a (Z.to_nat (4 * j))));
          mret (inl (j + 1))
        else mret (inr tt)) 0) Q x.
Proof using Hcap.
  intros Hok Hind Hf0 H Hx HQ. destruct (ok_own _ _ _ _ _ Hok _ (in_file_ind dev d ip Hind)) as [Hri _].
  assert (Hheld : forall b, b <> ind ip -> not_held H (dev, b)).
  { intros b Hb. apply not_held_insert; [apply not_held_empty|]. intros [=]. done. }
  apply (wp_loop (fun j x1 => 0 <= j <= NINDIRECT /\ exists d1, freeing d (below d ip (NDIRECT + j)) d1 /\
     at_fs x1 d1 H ic) (fun j _ => Z.to_nat (NINDIRECT - j))).
  - intros j x1 (Hj & d1 & Hf & Hx1). wp_step; rename H0 into Hlt.
    + assert (Hk : 0 <= NDIRECT + j < MAXFILE) by fs_lia.
      destruct (freeing_below d ip (NDIRECT + j) d1 Hok Hk Hf) as [Hskip Htake].
      assert (Hb : baddr d ip (NDIRECT + j) = ldw 4 (blk d (dev, ind ip)) (Z.to_nat (4 * j))).
      { unfold FsFile.baddr. replace (NDIRECT + j <? NDIRECT) with false by lia.
        replace (ind ip =? 0) with false by lia. do 2 f_equal. lia. }
      pose proof (ok_ind _ _ _ _ _ Hok _ Hk Hind) as Hni. rewrite <- Z.add_assoc in Hskip, Htake.
      rewrite Hb in Hskip, Htake, Hni.
      wp_step. eapply data_of_wp; [done|apply lookup_insert_eq|]. wp_step. wp_step.
      * destruct Htake as (Hr & Ht & Hf'); [lia|].
        eapply bfree_ok_wp; [done|apply Hf|intros b' Hb'; apply Hheld; lia| |done|by apply Hheld|done|].
        { unfold H. rewrite size_insert_fresh, map_size_empty by done. lia. }
        intros x2 Hx2. wp_step. split; [|fs_lia]. split; [fs_lia|]. eauto.
      * wp_step. split; [|fs_lia]. split; [fs_lia|]. exists d1. split; [apply Hskip; lia|done].
    + wp_step. replace (NDIRECT + j) with MAXFILE in Hf by (unfold MAXFILE; lia). by eapply HQ.
  - split; [fs_lia|]. exists d0. by rewrite Z.add_0_r.
  - fs_lia.
Qed.

Lemma itrunc_wp x d ic i ip (Q : unit -> fs S -> Prop) :
  at_fs x d ∅ ic -> ic !! i = Some ip -> disk_ok d -> inode_ok d ip -> 0 <= i_inum ip < ni ->
  (forall x' d1, freeing d (in_file d ip) d1 ->
     at_fs x' (put_inode (emptied ip) d1) ∅ (<[i := emptied ip]> ic) -> Q tt x') ->
  wp (itrunc i) Q x.
Proof using Hcap.
  intros Hx Hi Hd Hok Hin HQ. pose proof (ok_len _ _ _ _ _ Hok) as Hlen.
  assert (Hil : (i < length ic)%nat) by by eapply lookup_lt_Some.
  pose proof (disk_ok_bounds _ _ _ _ Hd) as (Hbm & Hsz & Hni & Hdev).
  unfold itrunc. wp_step. eapply itrunc_direct_wp; try done. intros x1 d1 Hf Hx1. wp_step.
  eapply geti_wp; [done|by apply list_lookup_insert_eq|]. wp_step.
  rewrite addr_at_zeroed. rewrite (ok_dev _ _ _ _ _ Hok : i_dev (zeroed NDIRECT ip) = dev).
  fold (ind ip).
  assert (Hend : forall x2 d2 jp, freeing d (in_file d ip) d2 -> set_isize 0 jp = emptied ip ->
    at_fs x2 d2 ∅ (<[i := jp]> ic) -> wp (_ ← updi i (set_isize 0); iupdate i) Q x2).
  { intros x2 d2 jp Hf2 Hjp Hx2. wp_step. eapply updi_wp; [done|]. intros x3 Hx3.
    rewrite (alter_insert_some _ _ _ jp), list_insert_insert_eq, Hjp in Hx3 by (by apply list_lookup_insert_eq).
    pose proof (iblock_range ni _ Hin). pose proof (ok_dev _ _ _ _ _ Hok) as Hdv.
    eapply iupdate_wp; [done|by apply list_lookup_insert_eq|done| |apply not_held_empty| |].
    - split; simpl; [lia|]. pose proof (g_fits _ _ _ _ (proj1 Hd)). lia.
    - rewrite map_size_empty. lia.
    - intros x4 Hx4. by eapply HQ. }
  destruct (Z.eqb_spec (ind ip) 0) as [H0|H0]; cbv [negb]; wp_step; try discriminate; try done.
  - destruct (freeing_all d ip d1 Hok) as [Hall _].
    { eapply freeing_iff; [|done]. intros b. by apply below_direct. }
    eapply Hend; [by apply Hall| |done]. apply zeroed_all; [done|].
    by rewrite zeroed_skip by (done || fs_lia).
  - destruct (ok_own _ _ _ _ _ Hok _ (in_file_ind dev d ip H0)) as [Hri _].
    wp_step. eapply bread__wp; [done|split; simpl; lia|apply not_held_empty|rewrite map_size_empty; lia|].
    intros bp x2 Hbp Hx2. wp_step.
    rewrite (fr_blk _ _ _ Hf) in Hx2; [|lia|].
    2:{ intros (_ & bn & Hbn & E). by apply (ok_ind _ _ _ _ _ Hok bn ltac:(fs_lia) H0). }
    eapply itrunc_indirect_wp; [done|done|done|done|]. intros x3 d3 Hf3 Hx3.
    destruct (freeing_all d ip d3 Hok Hf3) as [_ Hall]. destruct Hall as (Hr & Hb & Hblk & Hall); [done|].
    wp_step. eapply brelse__wp; [done|apply lookup_insert_eq|done|]. intros x4 Hx4.
    rewrite release_fresh in Hx4 by done. wp_step.
    eapply bfree_ok_wp; [done|apply Hf3|intros b' _; apply not_held_empty| |done|apply not_held_empty|done|].
    { rewrite map_size_empty. lia. }
    intros x5 Hx5. eapply updi_wp; [done|]. intros x6 Hx6.
    rewrite (alter_insert_some _ _ _ (zeroed NDIRECT ip)), list_insert_insert_eq in Hx6
      by (by apply list_lookup_insert_eq).
    rewrite set_addr_zeroed in Hx6 by fs_lia. eapply Hend; [done| |done]. by apply zeroed_all.
Qed.
End Op.

(** What [itrunc] leaves: exactly the file's blocks are free again, the inode
    is empty in memory and on disk, and no other file or inode is changed. *)
Record truncated d ip d' : Prop := Truncated {
  tr_file : file_ok d' (emptied ip);
  tr_bits : forall b, 0 <= b < sz -> bit d' b = true <-> bit d b = true /\ ~ in_file d ip b;
  tr_zero : forall b, in_file d ip b -> blk d' (dev, b) = zero_block;
  tr_others : forall jp, file_ok d jp -> disjoint dev d ip jp ->
    file_ok d' jp /\ content d' jp = content d jp;
  tr_inodes : forall inum, inum <> i_inum ip -> 0 <= inum < ni -> dinode d' dev inum = dinode d dev inum;
  tr_synced : inode_typed ip -> synced dev d' (emptied ip)
}.

Lemma inode_ok_emptied d ip : i_dev ip = dev -> inode_ok d (emptied ip).
Proof.
  intros Hdev. assert (Ha : forall bn, addr_at (emptied ip) bn = 0).
  { intros bn. unfold addr_at. change (i_addrs (emptied ip)) with (replicate 13 0).
    destruct (replicate 13 0 !! Z.to_nat bn) as [a|] eqn:E; [|done].
    apply lookup_replicate in E as [-> _]. done. }
  assert (Hb : forall bn, baddr d (emptied ip) bn = 0).
  { intros bn. unfold FsFile.baddr, ind. rewrite !Ha. by destruct (_ <? _). }
  assert (Hi : ind (emptied ip) = 0) by apply Ha.
  constructor; [done|done| | |].
  - intros b [Hne [->|(bn & _ & ->)]]; [done|]. by rewrite Hb in Hne.
  - intros bn bn' _ _. rewrite Hb. done.
  - intros bn _. rewrite Hi. done.
Qed.

Lemma freeing_truncated d ip d1 :
  disk_ok d -> inode_ok d ip -> 0 <= i_inum ip < ni -> freeing d (in_file d ip) d1 ->
  truncated d ip (put_inode (emptied ip) d1).
Proof.
  intros Hd Hok Hin Hf. pose proof (ok_dev _ _ _ _ _ Hok) as Hdev. pose proof Hf as [Hd1 Hbit Hblk _].
  pose proof (disk_ok_bounds _ _ _ _ Hd) as (Hbm & _). pose proof Hd1 as (_ & Hl1 & _ & Hz1).
  destruct (put_inode_ok dev sz ni d1 (emptied ip)) as (Hd2 & Hdata & Hb2 & _); [done..|].
  constructor.
  - split; [done|]. split; [by apply inode_ok_emptied|]. split; [simpl; fs_lia|]. simpl. intros bn ? ?. fs_lia.
  - intros b Hb. rewrite Hb2 by done. by apply Hbit.
  - intros b Hb. destruct (ok_own _ _ _ _ _ Hok b Hb) as [Hr _]. rewrite Hdata by lia.
    apply Hz1; [lia|]. destruct (bit d1 b) eqn:E; [|done]. apply Hbit in E; [|lia]. by destruct E.
  - intros jp Hj Hdis. pose proof Hj as (_ & Hjok & _).
    assert (file_ok d1 jp /\ content d1 jp = content d jp) as [Hj1 Hc1].
    { apply content_ext; [done|done| |]; intros b Hb; destruct (ok_own _ _ _ _ _ Hjok b Hb) as [Hr Ht].
      - apply Hblk; [lia|]. intros Hib. by apply (Hdis b).
      - apply Hbit; [lia|]. split; [done|]. intros Hib. by apply (Hdis b). }
    destruct (other_file_put dev sz ni d1 (emptied ip) jp) as (Hj2 & Hc2 & _); [done..|].
    by rewrite Hc2, Hc1.
  - intros inum Hne Hr. rewrite dinode_put_other; [|done|done|by intros [=]].
    unfold dinode. rewrite Hblk; [done| |].
    + pose proof (iblock_range ni inum Hr). lia.
    + intros Hib. destruct (ok_own _ _ _ _ _ Hok _ Hib). pose proof (iblock_range ni inum Hr). lia.
  - intros (H1 & H2 & H3 & H4 & _). unfold synced. rewrite <- Hdev.
    apply (dinode_put_same (emptied ip)); [|done]. repeat (split; [done|]).
    apply (Forall_replicate is_uint 13 0). unfold is_uint. lia.
Qed.
End Trunc.

(** C5: [itrunc] gives back exactly the blocks of the file, direct, indirect and
    the indirect block itself, zeroed; the inode is left with size 0 and no
    block, in memory and on the disk; every other file keeps its bytes and every
    other inode its contents. *)
Theorem itrunc_correct {S} `{HB : !BlockOps S} `{HS : !BlockSpec S} dev sz ni
    (x : fs S) d ic i ip :
  (2 <= bcap)%nat -> at_fs x d ∅ ic -> ic !! i = Some ip -> file_ok dev sz ni d ip ->
  0 <= i_inum ip < ni ->
  exists x' d', itrunc i x = Ok tt x' /\ at_fs x' d' ∅ (<[i := emptied ip]> ic) /\
    truncated dev sz ni d ip d'.
Proof.
  intros Hcap Hx Hi (Hd & Hok & _) Hin.
  assert (Hw : wp (itrunc i) (fun _ x' => exists d', at_fs x' d' ∅ (<[i := emptied ip]> ic) /\
                                truncated dev sz ni d ip d') x).
  { eapply itrunc_wp; try done. intros x' d1 Hf Hx'. eexists. split; [done|]. by apply freeing_truncated. }
  apply wp_elim in Hw as ([] & x' & E & d' & H1 & H2). eauto.
Qed.

Lemma itrunc_correct_witness :
  exists x' d', itrunc 0 hello_fs = Ok tt x' /\
    at_fs x' d' ∅ (<[0%nat := emptied hello_inode]> (<[0%nat := hello_inode]> demo_icache)) /\
    truncated 1 16 8 demo_disk hello_inode d'.
Proof.
  apply (itrunc_correct 1 16 8 hello_fs demo_disk (<[0%nat := hello_inode]> demo_icache) 0 hello_inode).
  - vm_compute. lia.
  - exact hello_at_fs.
  - reflexivity.
  - exact hello_file_ok.
  - simpl. lia.
Defined.
