(* ===== verification/FsRefs.v ===== *)
(** * Inode references through directories and paths

    [held x L]: the references out to slots of the inode cache are exactly the
    list [L].  Each operation of fs.c, run to its end, takes and gives back the
    references its interface says: [dirlookup], [ialloc] and [namei] hand one
    to the caller, [iput] and [iunlockput] take one, everything else leaves
    them as they were, on its error paths too. *)

From stdpp Require Import base numbers strings list gmap list_numbers.
From Stdlib Require Import Lia ZArith ZifyBool.
From S2P Require Import Prelude Ide BlockDev Fs FsAlloc FsInode.
Open Scope Z_scope.

Section Held.
Context {S : Type} `{HB : !BlockOps S}.
Implicit Types (x : fs S) (L : list nat).

Definition held x L : Prop := exists refs, refs_inv x refs /\ refs.*1 ≡ₚ L.

#[global] Instance held_perm x : Proper ((≡ₚ) ==> iff) (held x).
Proof. intros L L' HL. unfold held. by setoid_rewrite HL. Qed.

(** What [held] says, slot by slot. *)
Lemma held_count x L i ip :
  held x L -> icache x !! i = Some ip -> i_ref ip = Z.of_nat (length (filter (fun j => j = i) L)).
Proof.
  intros (refs & (H1 & _) & HL) Hi. rewrite (H1 _ _ Hi), <- HL. unfold refs_to. f_equal. clear.
  induction refs as [|[j k] refs IH]; [done|]. cbn [fmap list_fmap fst]. rewrite !filter_cons. simpl.
  destruct (decide (j = i)); simpl; by rewrite ?IH.
Qed.

Lemma held_slot x L i : held x L -> i ∈ L -> is_Some (icache x !! i).
Proof.
  intros (refs & (_ & H2 & _) & HL) Hi. rewrite <- HL in Hi. apply list_elem_of_fmap in Hi as ([j k] & -> & Hin).
  destruct (H2 _ _ Hin) as (ip & ? & _). by exists ip.
Qed.

Abbreviation T := (fun (_ : chan) (_ : fs S) => True).

Lemma held_iget x L dev inum : held x L -> wlp (iget dev inum) (fun i x' => held x' (i :: L)) T x.
Proof.
  intros (refs & Hr & HL). apply wlp_intro; [|done]. intros i x' Hi.
  exists ((i, (dev, inum)) :: refs). split; [by eapply iget_refs|]. simpl. by rewrite HL.
Qed.

Lemma held_idup x L i : held x L -> i ∈ L -> wlp (idup i) (fun j x' => held x' (j :: L)) T x.
Proof.
  intros (refs & Hr & HL) Hi. pose proof Hi as Hin. rewrite <- HL in Hin.
  apply list_elem_of_fmap in Hin as ([j k] & -> & Hin). apply wlp_intro; [|done]. intros j' x' Hrun.
  destruct (idup_refs _ _ _ _ _ _ Hr Hin Hrun) as [-> Hr']. exists ((j, k) :: refs). simpl. by rewrite HL.
Qed.

Lemma held_iput x L i : held x (i :: L) -> wlp (iput i) (fun _ x' => held x' L) T x.
Proof.
  intros (refs & Hr & HL). apply wlp_intro; [|done]. intros [] x' Hrun.
  assert (Hin : i ∈ refs.*1) by (rewrite HL; set_solver).
  apply list_elem_of_fmap in Hin as ([j k] & -> & Hin).
  apply list_elem_of_split in Hin as (r1 & r2 & ->).
  exists (r1 ++ r2). split; [by eapply iput_refs|].
  apply (Permutation_cons_inv (a := j)). rewrite <- HL, !fmap_app. simpl. by rewrite Permutation_middle.
Qed.

Lemma held_use {A} (m : M (fs S) A) i x L :
  held x L -> keeps (touches i) m -> wlp m (fun _ x' => held x' L) T x.
Proof.
  intros (refs & Hr & HL) Hm. apply wlp_intro; [|done]. intros a x' Hrun. exists refs. split; [|done].
  eapply use_refs; [done|]. by eapply Hm.
Qed.

Lemma held_geti x L i : held x L -> wlp (geti i) (fun _ x' => held x' L) T x.
Proof. intros H. unfold geti. by wlp_step. Qed.

End Held.

(** One step of a routine: a use of slot [i], or an operation with a lemma. *)
Tactic Notation "huse" constr(i) uconstr(lem) :=
  eapply wlp_seq; [apply (held_use _ i); [eassumption|apply lem; eassumption]|cbv beta].
Tactic Notation "hseq" uconstr(lem) :=
  eapply wlp_seq; [eapply lem; eassumption|cbv beta].

Section Refs.
Context {S : Type} `{HB : !BlockOps S}.
Implicit Types (x : fs S) (L : list nat).
Abbreviation T := (fun (_ : chan) (_ : fs S) => True).

Lemma held_iunlockput x L i : held x (i :: L) -> wlp (iunlockput i) (fun _ x' => held x' L) T x.
Proof.
  intros H. unfold iunlockput. huse i keeps_iunlock.
  intros [] x' H'. by apply held_iput.
Qed.

(** Reads and writes of an inode, the devices' own routines included: they
    change no slot but the one of the inode they are called for. *)
Definition dev_frames
    (dev_read : Z -> option (nat -> Z -> M (fs S) (Z * list Z)))
    (dev_write : Z -> option (nat -> list Z -> Z -> M (fs S) Z)) : Prop :=
  (forall major f i n, dev_read major = Some f -> keeps (touches i) (f i n)) /\
  (forall major f i src n, dev_write major = Some f -> keeps (touches i) (f i src n)).

Context (dev_read : Z -> option (nat -> Z -> M (fs S) (Z * list Z))).
Context (dev_write : Z -> option (nat -> list Z -> Z -> M (fs S) Z)).
Context (Hdev : dev_frames dev_read dev_write).

Ltac frame_op := first
  [ apply keeps_on_io | apply keeps_bupd | apply keeps_bmap | apply keeps_iupdate
  | apply keeps_updi; done | assumption ].

Lemma keeps_readi i off n : keeps (touches i) (readi dev_read i off n).
Proof using Hdev.
  destruct Hdev as [Hr _]. unfold readi, geti, bread_, brelse_, data_of. keeps_step frame_op.
  by eapply Hr.
Qed.

Lemma keeps_writei i src off n : keeps (touches i) (writei dev_write i src off n).
Proof using Hdev.
  destruct Hdev as [_ Hw]. unfold writei, geti, bread_, bwrite_, brelse_. keeps_step frame_op.
  by eapply Hw.
Qed.

Lemma held_dirlookup x L d name :
  held x L ->
  wlp (dirlookup d name) (fun r x' => held x' (match r with Some (j, _) => j :: L | None => L end)) T x.
Proof.
  intros H. unfold dirlookup. hseq held_geti. intros ip x1 Hx1.
  wlp_step; [by wlp_step|]. apply (wlp_loop (fun _ x' => held x' L)); [done|].
  clear. intros off x H. wlp_step; [|by wlp_step].
  huse d keeps_bmap. intros b x1 Hx1.
  huse d keeps_on_io. intros bp x2 Hx2.
  unfold data_of. do 2 wlp_step. destruct (scan_dirents _ _ _ _) as [k|].
  - huse d keeps_on_io. intros [] x3 Hx3.
    hseq held_iget. intros j x4 Hx4. by wlp_step.
  - huse d keeps_on_io. intros [] x3 Hx3. by wlp_step.
Qed.

Lemma held_ialloc x L dev type : held x L -> wlp (ialloc dev type) (fun i x' => held x' (i :: L)) T x.
Proof.
  intros H. unfold ialloc. huse 0%nat keeps_readsb.
  intros sb x1 Hx1. apply (wlp_loop (fun _ x' => held x' L)); [done|].
  clear -HB. intros inum x H. wlp_step; [|by wlp_step].
  huse 0%nat keeps_on_io. intros bp x1 Hx1.
  unfold data_of. do 2 wlp_step. wlp_step.
  - huse 0%nat keeps_bupd. intros [] x2 Hx2.
    huse 0%nat keeps_on_io. intros [] x3 Hx3.
    huse 0%nat keeps_on_io. intros [] x4 Hx4.
    hseq held_iget. intros j x5 Hx5. by wlp_step.
  - huse 0%nat keeps_on_io. intros [] x3 Hx3. by wlp_step.
Qed.

Lemma held_dirlink x L d name inum :
  held x L -> wlp (dirlink dev_read dev_write d name inum) (fun _ x' => held x' L) T x.
Proof using Hdev.
  intros H. unfold dirlink. hseq held_dirlookup.
  intros [[i off]|] x1 Hx1.
  - hseq held_iput. intros [] x2 Hx2. by wlp_step.
  - hseq held_geti. intros ip x2 Hx2.
    eapply (wlp_seq _ _ (fun _ x' => held x' L)).
    + apply (wlp_loop (fun _ x' => held x' L)); [done|]. intros off x3 Hx3. wlp_step; [|by wlp_step].
      huse d keeps_readi. intros [r de] x4 Hx4.
      wlp_step; [by wlp_step|]. wlp_step; by wlp_step.
    + intros off x3 Hx3. huse d keeps_writei.
      intros r x4 Hx4. wlp_step; by wlp_step.
Qed.

(** [namex] hands the caller a reference to the inode it returns, and has
    given back every other one it took on the way. *)
Lemma held_namex x L cwd path parent name :
  held x L -> cwd ∈ L ->
  wlp (namex cwd path parent name)
    (fun r x' => held x' (match r.1 with Some i => i :: L | None => L end)) T x.
Proof.
  intros H Hc. unfold namex.
  eapply (wlp_seq _ _ (fun i x' => held x' (i :: L))).
  { wlp_step; [by apply held_iget|by apply held_idup]. }
  intros i x1 Hx1.
  eapply (wlp_seq _ _ (fun r x' => held x' (match r.1.1 with Some i => i :: L | None => L end))).
  { apply (wlp_loop (fun st x' => held x' (st.1.1 :: L))); [done|].
    clear -HB. intros [[i path] name] x H. cbn [fst] in H. unfold namex_round.
    destruct (skipelem path name) as [[path' name']|]; [|by wlp_step].
    huse i keeps_ilock. intros [] x1 Hx1.
    hseq held_geti. intros ip x2 Hx2. wlp_step; [|wlp_step].
    - hseq held_iunlockput. intros [] x3 Hx3. by wlp_step.
    - huse i keeps_iunlock. intros [] x3 Hx3. by wlp_step.
    - hseq held_dirlookup. intros [[j off]|] x3 Hx3.
      + rewrite Permutation_swap in Hx3. hseq held_iunlockput. intros [] x4 Hx4. by wlp_step.
      + hseq held_iunlockput. intros [] x4 Hx4. by wlp_step. }
  intros [[r name'] stop] x2 Hx2. cbn [fst] in Hx2. destruct r as [j|]; [|by wlp_step].
  wlp_step; [|by wlp_step]. hseq held_iput. intros [] x3 Hx3. by wlp_step.
Qed.

Lemma held_namei x L cwd path :
  held x L -> cwd ∈ L ->
  wlp (namei cwd path) (fun r x' => held x' (match r with Some i => i :: L | None => L end)) T x.
Proof.
  intros H Hc. unfold namei. hseq held_namex. intros [r nm] x' H'. by wlp_step.
Qed.

End Refs.
