(* ===== verification/FsDir.v ===== *)
(** * Directories and path names in [src/fs.c]: dirlookup, skipelem, namex

    A directory is the list of its entries, a path the list of its elements,
    and looking up a path is a walk from directory to directory.  [walk] says
    this on the disk alone.  [namex], which goes through the buffer cache and
    the inode cache, locks and unlocks every inode on the way and reads the
    directories block by block, finds exactly the inode that [walk] finds. *)

From stdpp Require Import base numbers strings list gmap list_numbers.
From Stdlib Require Import Lia ZArith ZifyBool.
From S2P Require Import Prelude CString Ide BlockDev Fs FsAlloc DemoDisk FsInode FsFile.
Open Scope Z_scope.

(** ** Names and paths *)

(** The name in a field of [DIRSIZ] bytes. *)
Definition name_of (l : list Z) : list Z := cstrn (view l) DIRSIZ.

(** A path as C has it: bytes, none of them NUL. *)
Definition is_path (path : list Z) : Prop := Forall (fun c => 0 < c < 256) path.

(** The parts of a path between its slashes; [cur] is the part begun. *)
Fixpoint parts (cur path : list Z) : list (list Z) :=
  match path with
  | [] => [cur]
  | c :: path => if c =? SLASH then cur :: parts [] path else parts (cur ++ [c]) path
  end.

(** The elements: the parts that are not empty, cut to [DIRSIZ] bytes. *)
Definition elems (path : list Z) : list (list Z) :=
  take DIRSIZ <$> filter (fun p => p <> []) (parts [] path).

Lemma parts_split path : forall cur,
  parts cur path = match split_elem path with
                   | (e, []) => [cur ++ e]
                   | (e, _ :: rest) => (cur ++ e) :: parts [] rest
                   end.
Proof.
  induction path as [|c path IH]; intros cur; cbn [parts split_elem]; [by rewrite app_nil_r|].
  destruct (c =? SLASH); [by rewrite app_nil_r|]. rewrite IH.
  destruct (split_elem path) as [e [|c' rest]]; by rewrite <- app_assoc.
Qed.

Lemma elems_slash path : elems (SLASH :: path) = elems path.
Proof. done. Qed.

Lemma elems_skip path : elems (skip_slashes path) = elems path.
Proof.
  induction path as [|c path IH]; [done|]. cbn [skip_slashes].
  destruct (Z.eqb_spec c SLASH) as [->|]; [by rewrite elems_slash|done].
Qed.

Lemma split_elem_app path e rest : split_elem path = (e, rest) -> path = e ++ rest /\ (rest = [] \/ head rest = Some SLASH).
Proof.
  revert e rest. induction path as [|c path IH]; intros e rest; cbn [split_elem]; [intros [= <- <-]; by split; [|left]|].
  destruct (Z.eqb_spec c SLASH) as [->|]; [intros [= <- <-]; by split; [|right]|].
  destruct (split_elem path) as [e' rest'] eqn:E. intros [= <- <-].
  destruct (IH _ _ eq_refl) as [-> H]. by split.
Qed.

Lemma skip_slashes_suffix path : exists p, path = p ++ skip_slashes path.
Proof.
  induction path as [|c path [p IH]]; [by exists []|]. cbn [skip_slashes].
  destruct (c =? SLASH); [exists (c :: p); cbn [app]; by f_equal|by exists []].
Qed.

Lemma skip_slashes_head path : skip_slashes path = [] \/ exists c r, skip_slashes path = c :: r /\ c <> SLASH.
Proof.
  induction path as [|c path IH]; [by left|]. cbn [skip_slashes].
  destruct (Z.eqb_spec c SLASH); [done|]. right. eauto.
Qed.

(** An element, and the elements after it. *)
Lemma elems_split path e rest :
  split_elem path = (e, rest) -> e <> [] -> elems path = take DIRSIZ e :: elems rest.
Proof.
  intros E He. destruct (split_elem_app _ _ _ E) as [_ Hr]. unfold elems. rewrite parts_split, E. cbn [app].
  destruct rest as [|c rest].
  - rewrite filter_cons_True by done. done.
  - destruct Hr as [Hr|[= ->]]; [done|]. rewrite filter_cons_True by done. cbn [fmap list_fmap]. f_equal.
Qed.

Lemma elems_nil path : elems path = [] <-> skip_slashes path = [].
Proof.
  rewrite <- elems_skip. destruct (skip_slashes_head path) as [->|(c & r & -> & Hc)]; [done|].
  split; [|done]. destruct (split_elem (c :: r)) as [e rest] eqn:E. intros H. exfalso.
  rewrite (elems_split _ e rest) in H; [done|done|]. cbn [split_elem] in E.
  replace (c =? SLASH) with false in E by lia. destruct (split_elem r). by injection E as <- _.
Qed.

Lemma elems_single e : e <> [] -> SLASH ∉ e -> (length e <= DIRSIZ)%nat -> elems e = [e].
Proof.
  intros Hne Hs Hl. assert (Hp : forall cur, parts cur e = [cur ++ e]).
  { clear Hne Hl. induction e as [|c e IH]; intros cur; cbn [parts]; [by rewrite app_nil_r|].
    apply not_elem_of_cons in Hs as [Hc Hs]. replace (c =? SLASH) with false by lia. by rewrite IH, <- app_assoc. }
  unfold elems. rewrite Hp. cbn [app]. rewrite filter_cons_True by done. cbn [fmap list_fmap]. by rewrite take_ge.
Qed.

Lemma cstrn_view_app l r n : Forall (fun c => c <> 0) l -> (length l <= n)%nat ->
  cstrn (view (l ++ r)) n = l ++ cstrn (view r) (n - length l).
Proof.
  revert n. induction l as [|c l IH]; intros n Hl Hn; [by rewrite Nat.sub_0_r|].
  apply Forall_cons in Hl as [Hc Hl]. destruct n as [|n]; [simpl in Hn; lia|]. cbn [cstrn length].
  change (view ((c :: l) ++ r) 0) with c. replace (c =? 0) with false by lia. cbn [app]. f_equal.
  rewrite Nat.sub_succ, <- IH by (done || (simpl in Hn; lia)). apply cstrn_ext. intros i Hi. unfold next, view.
  replace (Z.to_nat (i + 1)) with (S (Z.to_nat i)) by lia. done.
Qed.

(** What [skipelem] writes to [name], of [DIRSIZ] bytes. *)
Definition put_name (e name : list Z) : list Z :=
  if (DIRSIZ <=? length e)%nat then splice 0 (take DIRSIZ e) name
  else splice (length e) [0] (splice 0 e name).

Lemma put_name_spec e name :
  is_path e -> length name = DIRSIZ -> bytes name ->
  name_of (put_name e name) = take DIRSIZ e /\ length (put_name e name) = DIRSIZ /\ bytes (put_name e name).
Proof.
  intros He Hn Hb. assert (Hbe : bytes e) by (eapply Forall_impl; [exact He|]; intros c Hc; cbv beta in Hc; unfold is_byte; lia).
  assert (Hnz : Forall (fun c => c <> 0) e) by (eapply Forall_impl; [exact He|]; intros c Hc; cbv beta in *; lia).
  unfold put_name, name_of. destruct (Nat.leb_spec DIRSIZ (length e)) as [Hl|Hl]; unfold splice; rewrite !take_0; cbn [app].
  - rewrite drop_ge, app_nil_r by (rewrite length_take; lia). split_and!.
    + pose proof (cstrn_view_app (take DIRSIZ e) [] DIRSIZ (Forall_take _ _ _ Hnz)) as H.
      rewrite length_take, Nat.min_l, Nat.sub_diag, app_nil_r in H by lia. rewrite H by lia. by rewrite app_nil_r.
    + rewrite length_take. lia.
    + by apply Forall_take.
  - rewrite take_app_length, (take_ge e) by lia. split_and!.
    + rewrite cstrn_view_app by (done || lia). destruct (DIRSIZ - length e)%nat eqn:E; [lia|]. cbn [cstrn app]. change (view (0 :: _) 0) with 0.
      by rewrite app_nil_r.
    + rewrite length_app. cbn [length]. rewrite length_drop, length_app, length_drop. lia.
    + apply Forall_app. split; [done|]. apply Forall_cons. split; [unfold is_byte; lia|].
      apply Forall_drop, Forall_app. split; [done|]. by apply Forall_drop.
Qed.

(** [skipelem] cuts off the first element. *)
Lemma skipelem_spec path name :
  is_path path -> length name = DIRSIZ -> bytes name ->
  match skipelem path name with
  | None => elems path = []
  | Some (rest, name') =>
      elems path = name_of name' :: elems rest /\ is_path rest /\ (length rest < length path)%nat /\
      length name' = DIRSIZ /\ bytes name' /\ (default 0 (head rest) = 0 <-> elems rest = [])
  end.
Proof.
  intros Hp Hn Hb. unfold skipelem. rewrite <- elems_skip. destruct (skip_slashes_suffix path) as [p0 Hp0].
  destruct (skip_slashes_head path) as [->|(c & r & Hs & Hc)]; [done|]. rewrite Hs in *.
  assert (Hpr : is_path (c :: r)) by (rewrite Hp0 in Hp; by apply Forall_app in Hp as [_ ?]).
  destruct (split_elem (c :: r)) as [e rest] eqn:E. destruct (split_elem_app _ _ _ E) as [Happ Hrest].
  assert (Hne : e <> []).
  { cbn [split_elem] in E. replace (c =? SLASH) with false in E by lia. destruct (split_elem r). by injection E as <- _. }
  change (if (DIRSIZ <=? length e)%nat then _ else _) with (put_name e name).
  rewrite Happ in Hpr. apply Forall_app in Hpr as [He Hpr]. destruct (skip_slashes_suffix rest) as [p1 Hp1].
  destruct (put_name_spec e name He Hn Hb) as (P1 & P2 & P3). rewrite P1, elems_skip, (elems_split _ _ _ E Hne).
  split_and!; try done.
  - rewrite Hp1 in Hpr. by apply Forall_app in Hpr as [_ ?].
  - apply (f_equal length) in Hp0, Hp1, Happ. rewrite length_app in *. destruct e; [done|]. cbn [length] in *. lia.
  - rewrite elems_nil. split; [|by intros ->]. destruct (skip_slashes_head rest) as [->|(c' & r' & Hs' & Hc')]; [done|].
    rewrite Hs'. cbn [head default from_option id]. intros ->. exfalso. rewrite Hp1, Hs' in Hpr.
    apply Forall_app in Hpr as [_ [H0 _]%Forall_cons]. lia.
Qed.

(** ** Directories *)

(** The entries in a directory's bytes: inode number and name. *)
Definition dirents (bs : list Z) : list (Z * list Z) :=
  (fun k => (de_inum bs k, name_of (de_name bs k))) <$> seq 0 (length bs / DIRENT).

(** The first entry in use with the name [e]: its index and inode number. *)
Fixpoint dir_find (e : list Z) (ents : list (Z * list Z)) : option (nat * Z) :=
  match ents with
  | [] => None
  | (inum, name) :: ents =>
      if negb (inum =? 0) && bool_decide (name = e) then Some (0%nat, inum)
      else (fun r => (S r.1, r.2)) <$> dir_find e ents
  end.

Lemma dir_find_app e l1 l2 :
  dir_find e (l1 ++ l2) = match dir_find e l1 with
                          | Some r => Some r
                          | None => (fun r => (length l1 + r.1, r.2)%nat) <$> dir_find e l2
                          end.
Proof.
  induction l1 as [|[inum name] l1 IH]; cbn [app dir_find length].
  - by destruct (dir_find e l2) as [[]|].
  - destruct (negb _ && _); [done|]. rewrite IH. destruct (dir_find e l1); [done|]. by destruct (dir_find e l2).
Qed.

Lemma length_dirents bs : length (dirents bs) = (length bs / DIRENT)%nat.
Proof. unfold dirents. by rewrite length_fmap, length_seq. Qed.

Lemma dirents_app bs1 bs2 m :
  length bs1 = (DIRENT * m)%nat -> dirents (bs1 ++ bs2) = dirents bs1 ++ dirents bs2.
Proof.
  intros Hl. unfold dirents. rewrite length_app, Hl. rewrite (Nat.mul_comm DIRENT m), Nat.div_add_l, Nat.div_mul by done.
  rewrite seq_app, fmap_app. f_equal.
  - apply list_fmap_ext. intros i k [-> Hk]%lookup_seq. cbn [Nat.add]. unfold de_inum, de_name, ldw.
    rewrite !slice_app_l by (rewrite Hl; unfold DIRENT, DIRSIZ in *; lia). done.
  - apply list_eq. intros i. rewrite !list_lookup_fmap. destruct (decide (i < length bs2 / DIRENT)%nat) as [Hi|Hi].
    + rewrite !lookup_seq_lt by done. cbn [fmap option_fmap option_map]. unfold de_inum, de_name, ldw.
      rewrite !slice_app_r by (rewrite Hl; lia). rewrite Hl.
      by replace (DIRENT * (0 + m + i) - DIRENT * m)%nat with (DIRENT * (0 + i))%nat by lia;
        replace (DIRENT * (0 + m + i) + 2 - DIRENT * m)%nat with (DIRENT * (0 + i) + 2)%nat by lia.
    + by rewrite !lookup_seq_ge by lia.
Qed.

Lemma view_char l : bytes l -> is_char_view (view l).
Proof.
  intros Hl i. unfold view. destruct (l !! Z.to_nat i) as [v|] eqn:E; [|unfold is_byte; simpl; lia].
  by apply (Forall_lookup_1 _ _ _ _ Hl E).
Qed.

Lemma namecmp_eq s t : bytes s -> bytes t -> (namecmp s t =? 0) = bool_decide (name_of t = name_of s).
Proof.
  intros Hs Ht. unfold namecmp. pose proof (strncmp_diff (view s) (view t) DIRSIZ (view_char s Hs) (view_char t Ht)) as H.
  unfold name_of. case_bool_decide as Hb; [apply Z.eqb_eq, H; congruence|apply Z.eqb_neq; intros E%H; congruence].
Qed.

(** The scan of a block is a search of its entries. *)
Lemma scan_dirents_find name data n k :
  bytes data -> bytes name ->
  scan_dirents n k name data =
  (fun r => k + r.1)%nat <$> dir_find (name_of name) ((fun k => (de_inum data k, name_of (de_name data k))) <$> seq k n).
Proof.
  intros Hd Hn. revert k. induction n as [|n IH]; intros k; [done|]. cbn [scan_dirents seq fmap list_fmap dir_find].
  rewrite namecmp_eq by (done || by apply bytes_slice). rewrite !IH.
  destruct (de_inum data k =? 0); cbn [negb andb].
  - destruct (dir_find _ _); cbn; [f_equal; lia|done].
  - destruct (bool_decide _); [cbn; f_equal; lia|]. destruct (dir_find _ _); cbn; [f_equal; lia|done].
Qed.

(** ** The inode cache *)

Implicit Types (d : sectors) (ic : list inode) (L : list nat).

(** The references to slot [j] in [L]. *)
Definition nheld (j : nat) L : Z := Z.of_nat (length (filter (fun i => i = j) L)).

(** From [ic] to [ic'] the references [L] were added, and none dropped. *)
Definition refd L ic ic' : Prop :=
  length ic' = length ic /\
  forall j jp jp', ic !! j = Some jp -> ic' !! j = Some jp' ->
    i_ref jp' = i_ref jp + nheld j L /\ (0 < i_ref jp -> ikey jp' = ikey jp).

(** The cache agrees with the disk: slots in use that were read hold what the
    disk has, an inode has one slot, and only the slot [busy] is locked. *)
Record cache_ok d (busy : option nat) ic : Prop := CacheOk {
  c_refs : forall j jp, ic !! j = Some jp -> 0 <= i_ref jp;
  c_busy : forall j jp, ic !! j = Some jp -> 0 < i_ref jp -> tst (i_flags jp) I_BUSY = bool_decide (busy = Some j);
  c_valid : forall j jp, ic !! j = Some jp -> 0 < i_ref jp -> tst (i_flags jp) I_VALID = true ->
            dfields jp = dfields (dinode d (i_dev jp) (i_inum jp));
  c_uniq : forall j k jp kp, ic !! j = Some jp -> ic !! k = Some kp -> 0 < i_ref jp -> 0 < i_ref kp ->
           ikey jp = ikey kp -> j = k;
  c_held : forall j, busy = Some j -> exists jp, ic !! j = Some jp /\ 0 < i_ref jp
}.

Lemma nheld_cons j i L : nheld j (i :: L) = nheld j L + (if decide (i = j) then 1 else 0).
Proof. unfold nheld. rewrite filter_cons. destruct (decide (i = j)); cbn [length]; lia. Qed.

Lemma nheld_app j L1 L2 : nheld j (L1 ++ L2) = nheld j L1 + nheld j L2.
Proof. unfold nheld. rewrite filter_app, length_app. lia. Qed.

Lemma nheld_nonneg j L : 0 <= nheld j L.
Proof. unfold nheld. lia. Qed.

Lemma refd_nil ic : refd [] ic ic.
Proof. split; [done|]. intros j jp jp' H1 H2. assert (jp' = jp) as -> by congruence. split; [unfold nheld; simpl; lia|done]. Qed.

Lemma refd_trans L1 L2 ic ic1 ic2 : refd L1 ic ic1 -> refd L2 ic1 ic2 -> refd (L2 ++ L1) ic ic2.
Proof.
  intros [N1 R1] [N2 R2]. split; [congruence|]. intros j jp jp2 Hj Hj2.
  destruct (lookup_lt_is_Some_2 ic1 j) as [jp1 Hj1]; [rewrite N1; by eapply lookup_lt_Some|].
  destruct (R1 _ _ _ Hj Hj1) as [E1 K1], (R2 _ _ _ Hj1 Hj2) as [E2 K2]. rewrite nheld_app. split; [lia|].
  intros Hp. rewrite K2, K1; [done|done|]. pose proof (nheld_nonneg j L1). lia.
Qed.

(** A slot that is changed by [n] references. *)
Lemma refd_insert L L' ic ic1 i ip ip' n :
  refd L ic ic1 -> ic1 !! i = Some ip -> i_ref ip' = i_ref ip + n ->
  (0 < i_ref ip -> ikey ip' = ikey ip) -> (forall j, nheld j L' = nheld j L + if decide (i = j) then n else 0) ->
  refd L' ic (<[i := ip']> ic1).
Proof.
  intros [N R] Hi Hr Hk HL. split; [by rewrite length_insert|]. intros j jp jp' Hj.
  destruct (decide (i = j)) as [->|Hne].
  - rewrite list_lookup_insert_eq by (by eapply lookup_lt_Some). intros [= <-]. destruct (R _ _ _ Hj Hi) as [E K].
    rewrite HL, decide_True by done. split; [lia|]. intros Hp. rewrite Hk, K; [done|done|].
    pose proof (nheld_nonneg j L). lia.
  - rewrite list_lookup_insert_ne by done. intros Hj'. rewrite HL, decide_False, Z.add_0_r by done. by apply R.
Qed.

Lemma refd_slot L ic ic' j jp : refd L ic ic' -> ic !! j = Some jp -> 0 < i_ref jp ->
  exists jp', ic' !! j = Some jp' /\ 0 < i_ref jp' /\ ikey jp' = ikey jp.
Proof.
  intros [N R] Hj Hp. destruct (lookup_lt_is_Some_2 ic' j) as [jp' Hj']; [rewrite N; by eapply lookup_lt_Some|].
  destruct (R _ _ _ Hj Hj') as [E K]. pose proof (nheld_nonneg j L). exists jp'. split_and!; [done|lia|auto].
Qed.

(** A slot is changed; it keeps its inode, or takes one that is not cached. *)
Lemma cache_ok_insert d b b' ic i ip ip' :
  cache_ok d b ic -> ic !! i = Some ip -> 0 <= i_ref ip' ->
  (forall j, j <> i -> b' = Some j <-> b = Some j) -> (b' = Some i -> 0 < i_ref ip') ->
  (0 < i_ref ip' ->
     tst (i_flags ip') I_BUSY = bool_decide (b' = Some i) /\
     (tst (i_flags ip') I_VALID = true -> dfields ip' = dfields (dinode d (i_dev ip') (i_inum ip'))) /\
     (forall j jp, j <> i -> ic !! j = Some jp -> 0 < i_ref jp -> ikey jp <> ikey ip')) ->
  cache_ok d b' (<[i := ip']> ic).
Proof.
  intros [C1 C2 C3 C4 C5] Hi H0 Hb Hbi Hok. assert (Hlt : (i < length ic)%nat) by by eapply lookup_lt_Some.
  assert (Hlk : forall j jp, <[i := ip']> ic !! j = Some jp -> (j = i /\ jp = ip') \/ (j <> i /\ ic !! j = Some jp)).
  { intros j jp. destruct (decide (i = j)) as [<-|Hne]; [rewrite list_lookup_insert_eq by done; intros [= ->]; by left|].
    rewrite list_lookup_insert_ne by done. by right. }
  constructor.
  - intros j jp [[-> ->]|[Hne Hj]]%Hlk; eauto.
  - intros j jp [[-> ->]|[Hne Hj]]%Hlk Hp; [by apply Hok|]. rewrite (C2 _ _ Hj Hp). by apply bool_decide_ext, symmetry, Hb.
  - intros j jp [[-> ->]|[Hne Hj]]%Hlk Hp; [by apply Hok|eauto].
  - intros j k jp kp [[-> ->]|[Hne Hj]]%Hlk [[-> ->]|[Hne' Hk]]%Hlk Hp Hp' E; try done.
    + destruct (Hok Hp) as (_ & _ & Hu). by destruct (Hu _ _ Hne' Hk Hp').
    + destruct (Hok Hp') as (_ & _ & Hu). by destruct (Hu _ _ Hne Hj Hp).
    + eauto.
  - intros j Hj. destruct (decide (j = i)) as [->|Hne]; [exists ip'; rewrite list_lookup_insert_eq by done; by eauto|].
    destruct (C5 j) as (jp & Hjp & Hp); [by apply Hb|]. exists jp. by rewrite list_lookup_insert_ne.
Qed.

(** The same, for a slot in use that keeps its inode. *)
Lemma cache_ok_keep d b b' ic i ip ip' :
  cache_ok d b ic -> ic !! i = Some ip -> 0 < i_ref ip -> 0 <= i_ref ip' -> ikey ip' = ikey ip ->
  (forall j, j <> i -> b' = Some j <-> b = Some j) -> (b' = Some i -> 0 < i_ref ip') ->
  tst (i_flags ip') I_BUSY = bool_decide (b' = Some i) ->
  (tst (i_flags ip') I_VALID = true -> dfields ip' = dfields (dinode d (i_dev ip) (i_inum ip))) ->
  cache_ok d b' (<[i := ip']> ic).
Proof.
  intros Hc Hi Hp H0 Hk Hb Hbi Hf Hv. eapply cache_ok_insert; [done..|]. intros _. split_and!; [done| |].
  - injection Hk as -> ->. exact Hv.
  - intros j jp Hne Hj Hjp E. apply Hne. eapply (c_uniq _ _ _ Hc); [done..|congruence].
Qed.

Lemma keys_insert ic i ip ip' : ic !! i = Some ip -> ikey ip' = ikey ip -> ikey <$> <[i := ip']> ic = ikey <$> ic.
Proof. intros Hi Hk. rewrite list_fmap_insert, Hk. apply list_insert_id. by rewrite list_lookup_fmap, Hi. Qed.

Lemma keys_slot ic ic' j jp : ikey <$> ic' = ikey <$> ic -> ic !! j = Some jp -> exists jp', ic' !! j = Some jp' /\ ikey jp' = ikey jp.
Proof.
  intros Hk Hj. apply (f_equal (.!! j)) in Hk. rewrite !list_lookup_fmap, Hj in Hk. cbn in Hk.
  apply fmap_Some in Hk as (jp' & Hj' & E). eauto.
Qed.

Lemma refd_perm L L' ic ic' : L ≡ₚ L' -> refd L ic ic' -> refd L' ic ic'.
Proof.
  intros HP [N R]. split; [done|]. intros j jp jp' Hj Hj'. destruct (R _ _ _ Hj Hj') as [E K]. split; [|done].
  rewrite E. unfold nheld. by rewrite HP.
Qed.

(** A slot one holds a reference to is in use; of two free slots one is left. *)
Lemma refd_held d b L ic ic' i ip : cache_ok d b ic -> refd L ic ic' -> i ∈ L -> ic' !! i = Some ip -> 0 < i_ref ip.
Proof.
  intros Hc [N R] HL Hi. destruct (lookup_lt_is_Some_2 ic i) as [jp Hj]; [rewrite <- N; by eapply lookup_lt_Some|].
  destruct (R _ _ _ Hj Hi) as [E _]. pose proof (c_refs _ _ _ Hc _ _ Hj). apply list_elem_of_split in HL as (L1 & L2 & ->).
  rewrite nheld_app, nheld_cons, decide_True in E by done. pose proof (nheld_nonneg i L1). pose proof (nheld_nonneg i L2). lia.
Qed.

Definition two_free ic : Prop :=
  exists a b ap bp, a <> b /\ ic !! a = Some ap /\ ic !! b = Some bp /\ i_ref ap = 0 /\ i_ref bp = 0.

Lemma refd_free i ic ic' : two_free ic -> refd [i] ic ic' -> exists k kp, ic' !! k = Some kp /\ i_ref kp = 0.
Proof.
  intros (a & b & ap & bp & Hab & Ha & Hb & Ra & Rb) [N R].
  assert (Hk : exists k kp, k <> i /\ ic !! k = Some kp /\ i_ref kp = 0) by (destruct (decide (a = i)); [exists b, bp|exists a, ap]; split_and!; congruence).
  destruct Hk as (k & kp & Hne & Hk & Hr). destruct (lookup_lt_is_Some_2 ic' k) as [kp' Hk']; [rewrite N; by eapply lookup_lt_Some|].
  destruct (R _ _ _ Hk Hk') as [E _]. exists k, kp'. split; [done|]. rewrite E, nheld_cons, decide_False by done. unfold nheld. simpl. lia.
Qed.

Section CacheOps.
Context {S : Type} `{HB : !BlockOps S} `{HS : !BlockSpec S}.
Implicit Types (x : fs S) (H : holds).

(** A slot for inode [inum]: its own, or a free one. *)
Lemma iget_ok x d H ic b dev inum (Q : nat -> fs S -> Prop) :
  at_fs x d H ic -> cache_ok d b ic -> (exists k kp, ic !! k = Some kp /\ i_ref kp = 0) ->
  (forall i x' ic' ip', at_fs x' d H ic' -> cache_ok d b ic' -> refd [i] ic ic' -> ic' !! i = Some ip' ->
     ikey ip' = (dev, inum) -> Q i x') ->
  wp (iget dev inum) Q x.
Proof.
  intros Hx Hc Hfree HQ. pose proof Hx as [_ Hic]. unfold iget. apply wp_bind, wp_gets. rewrite Hic.
  assert (Hadd : forall i j, nheld j [i] = nheld j [] + if decide (i = j) then 1 else 0) by (intros; apply nheld_cons).
  destruct (list_find _ ic) as [[i ip]|] eqn:E1.
  - apply list_find_Some in E1 as (Hi & Hp & _). apply Is_true_true in Hp.
    apply andb_true_iff in Hp as [[H1 H2]%andb_true_iff H3]. wp_step. eapply updi_wp; [done|]. intros x1 Hx1. wp_step.
    rewrite (alter_insert_some _ _ _ _ Hi) in Hx1. set (ip' := set_iref _ ip) in *.
    eapply HQ; [exact Hx1| | |apply list_lookup_insert_eq; by eapply lookup_lt_Some|unfold ikey, ip'; simpl; f_equal; lia].
    + eapply cache_ok_keep; [done|done|lia|simpl; lia|done|done|simpl; lia| |].
      * apply (c_busy _ _ _ Hc _ _ Hi). lia.
      * apply (c_valid _ _ _ Hc _ _ Hi). lia.
    + by eapply refd_insert; [apply refd_nil|done| | |].
  - apply list_find_None in E1. rewrite Forall_lookup in E1.
    destruct (list_find (fun ip => i_ref ip =? 0) ic) as [[i ip]|] eqn:E2.
    2:{ apply list_find_None in E2. rewrite Forall_lookup in E2. destruct Hfree as (k & kp & Hk & H0).
        destruct (E2 _ _ Hk). apply Is_true_true. lia. }
    apply list_find_Some in E2 as (Hi & Hp & _). apply Is_true_true in Hp. assert (Hr : i_ref ip = 0) by lia.
    wp_step. eapply updi_wp; [done|]. intros x1 Hx1. wp_step. rewrite (alter_insert_some _ _ _ _ Hi) in Hx1.
    eapply HQ; [exact Hx1| | |apply list_lookup_insert_eq; by eapply lookup_lt_Some|done].
    + eapply cache_ok_insert; [done|done|simpl; lia|done|simpl; lia|]. intros _. simpl. split_and!; [|done|].
      * symmetry. apply bool_decide_false. intros (jp & Hj & Hpos)%(c_held _ _ _ Hc). simplify_eq. lia.
      * intros j jp _ Hj Hpos [= Hd Hn]. apply (E1 _ _ Hj), Is_true_true. rewrite Hd, Hn, !Z.eqb_refl, !andb_true_r. lia.
    + eapply (refd_insert _ _ _ _ _ _ _ 1); [apply refd_nil|done|simpl; lia|lia|apply Hadd].
Qed.

Lemma idup_ok x d H ic b i ip (Q : nat -> fs S -> Prop) :
  at_fs x d H ic -> cache_ok d b ic -> ic !! i = Some ip -> 0 < i_ref ip ->
  (forall x' ic' ip', at_fs x' d H ic' -> cache_ok d b ic' -> refd [i] ic ic' -> ic' !! i = Some ip' ->
     ikey ip' = ikey ip -> Q i x') ->
  wp (idup i) Q x.
Proof.
  intros Hx Hc Hi Hp HQ. unfold idup. wp_step. eapply updi_wp; [done|]. intros x1 Hx1. wp_step.
  rewrite (alter_insert_some _ _ _ _ Hi) in Hx1.
  eapply HQ; [exact Hx1| | |apply list_lookup_insert_eq; by eapply lookup_lt_Some|done].
  - eapply cache_ok_keep; [done|done|lia|simpl; lia|done|done|simpl; lia| |].
    + by apply (c_busy _ _ _ Hc _ _ Hi).
    + by apply (c_valid _ _ _ Hc _ _ Hi).
  - eapply refd_insert; [apply refd_nil|done|done|done|]. intros j. apply nheld_cons.
Qed.

(** The slot is locked and holds what the disk has. *)
Lemma ilock_ok x d H ic i ip (Q : unit -> fs S -> Prop) :
  at_fs x d H ic -> cache_ok d None ic -> ic !! i = Some ip -> 0 < i_ref ip ->
  addressable (i_dev ip, IBLOCK (i_inum ip)) -> not_held H (i_dev ip, IBLOCK (i_inum ip)) -> (size H < bcap)%nat ->
  i_type (dinode d (i_dev ip) (i_inum ip)) <> 0 ->
  (forall x' ic' ip', at_fs x' d H ic' -> cache_ok d (Some i) ic' -> refd [] ic ic' -> ic' !! i = Some ip' ->
     ikey ip' = ikey ip -> dfields ip' = dfields (dinode d (i_dev ip) (i_inum ip)) -> Q tt x') ->
  wp (ilock i) Q x.
Proof.
  intros Hx Hc Hi Hp Ha Hn Hs Hty HQ.
  assert (Hb : tst (i_flags ip) I_BUSY = false) by by rewrite (c_busy _ _ _ Hc _ _ Hi Hp).
  eapply ilock_wp; [exact Hx|exact Hi|lia|exact Hb|done|done|done| |].
  { intros Hv. unfold locked. rewrite Hv. exact Hty. }
  intros x' Hx'. set (ip' := locked d ip) in *.
  assert (Hk : ikey ip' = ikey ip /\ i_ref ip' = i_ref ip) by (unfold ip', locked; destruct (tst (i_flags ip) I_VALID); by split).
  assert (Hf : dfields ip' = dfields (dinode d (i_dev ip) (i_inum ip))).
  { unfold ip', locked. destruct (tst (i_flags ip) I_VALID) eqn:Hv; [exact (c_valid _ _ _ Hc _ _ Hi Hp Hv)|done]. }
  destruct Hk as [Hk Hr]. eapply HQ; [exact Hx'| | |apply list_lookup_insert_eq; by eapply lookup_lt_Some|done|done].
  - eapply cache_ok_keep; [done|done|lia|lia|done| |lia| |done].
    + intros j Hne. by split; [intros [= ->]|].
    + rewrite bool_decide_true by done. unfold ip', locked. destruct (tst (i_flags ip) I_VALID); simpl; by autorewrite with flags.
  - eapply refd_insert; [apply refd_nil|done|rewrite Hr; symmetry; apply Z.add_0_r|done|]. intros j. by destruct (decide _).
Qed.

Lemma iunlock_ok x d H ic i (Q : unit -> fs S -> Prop) :
  at_fs x d H ic -> cache_ok d (Some i) ic ->
  (forall x' ic', at_fs x' d H ic' -> cache_ok d None ic' -> refd [] ic ic' -> ikey <$> ic' = ikey <$> ic -> Q tt x') ->
  wp (iunlock i) Q x.
Proof.
  intros Hx Hc HQ. destruct (c_held _ _ _ Hc i eq_refl) as (ip & Hi & Hp).
  pose proof (c_busy _ _ _ Hc _ _ Hi Hp) as Hb. rewrite bool_decide_true in Hb by done.
  unfold iunlock. wp_step. eapply geti_wp; [done|done|]. rewrite Hb. cbn [negb orb]. replace (i_ref ip <? 1) with false by lia.
  eapply updi_wp; [done|]. intros x1 Hx1. rewrite (alter_insert_some _ _ _ _ Hi) in Hx1. eapply HQ; [exact Hx1| | |by apply keys_insert with ip].
  - eapply cache_ok_keep; [done|done|lia|simpl; lia|done| |simpl; lia| |].
    + intros j Hne. by split; [|intros [= ->]].
    + simpl. by autorewrite with flags.
    + simpl. autorewrite with flags. apply (c_valid _ _ _ Hc _ _ Hi Hp).
  - eapply refd_insert; [apply refd_nil|done|simpl; symmetry; apply Z.add_0_r|done|]. intros j. by destruct (decide _).
Qed.

(** A reference to an inode that has links is given back. *)
Lemma iput_ok x d H ic0 ic i ip L (Q : unit -> fs S -> Prop) :
  at_fs x d H ic -> cache_ok d None ic -> refd (i :: L) ic0 ic -> ic !! i = Some ip -> 0 < i_ref ip ->
  i_nlink (dinode d (i_dev ip) (i_inum ip)) <> 0 ->
  (forall x' ic', at_fs x' d H ic' -> cache_ok d None ic' -> refd L ic0 ic' -> ikey <$> ic' = ikey <$> ic -> Q tt x') ->
  wp (iput i) Q x.
Proof.
  intros Hx Hc Hr Hi Hp Hl HQ. unfold iput. wp_step. eapply geti_wp; [done|done|].
  assert (Hv : tst (i_flags ip) I_VALID = true -> i_nlink ip <> 0).
  { intros Hv. pose proof (c_valid _ _ _ Hc _ _ Hi Hp Hv) as E. unfold dfields in E. congruence. }
  replace ((i_ref ip =? 1) && tst (i_flags ip) I_VALID && (i_nlink ip =? 0)) with false.
  2:{ destruct (tst (i_flags ip) I_VALID); [specialize (Hv eq_refl)|]; lia. }
  wp_step. apply wp_ret. eapply updi_wp; [done|]. intros x1 Hx1. rewrite (alter_insert_some _ _ _ _ Hi) in Hx1.
  eapply HQ; [exact Hx1| | |by apply keys_insert with ip].
  - eapply cache_ok_keep; [done|done|lia|simpl; lia|done|done|done| |].
    + by apply (c_busy _ _ _ Hc _ _ Hi).
    + by apply (c_valid _ _ _ Hc _ _ Hi).
  - eapply (refd_insert _ _ _ _ _ _ _ (-1)); [exact Hr|done|simpl; lia|done|]. intros j. rewrite nheld_cons. destruct (decide _); lia.
Qed.
End CacheOps.

(** ** Walking the tree on the disk *)

Lemma dir_find_Some e ents k inum : dir_find e ents = Some (k, inum) -> ents !! k = Some (inum, e) /\ inum <> 0.
Proof.
  revert k. induction ents as [|[n name] ents IH]; intros k; cbn [dir_find]; [done|].
  destruct (negb (n =? 0) && bool_decide (name = e)) eqn:E.
  - intros [= <- <-]. apply andb_true_iff in E as [E1 E2%bool_decide_eq_true]. subst. split; [done|lia].
  - destruct (dir_find e ents) as [[k' i']|]; [|done]. cbn. intros [= <- <-]. by apply IH.
Qed.

Lemma dir_find_first e ents k inum :
  ents !! k = Some (inum, e) -> inum <> 0 -> (forall j n, (j < k)%nat -> ents !! j <> Some (n, e)) ->
  dir_find e ents = Some (k, inum).
Proof.
  revert k. induction ents as [|[n name] ents IH]; intros k Hk Hi Hno; [done|]. cbn [dir_find]. destruct k as [|k].
  - injection Hk as -> ->. rewrite bool_decide_true by done. by replace (inum =? 0) with false by lia.
  - rewrite bool_decide_false, andb_false_r by (intros ->; by apply (Hno 0%nat n); [lia|]).
    rewrite (IH k); [done|done|done|]. intros j m Hj. apply (Hno (S j)). lia.
Qed.

(** The inode [inum] of the root device, as a slot of the cache would hold it. *)
Definition on_disk d (inum : Z) : inode :=
  load_dinode (blk d (ROOTDEV, IBLOCK inum)) (dinode_off inum) (Inode ROOTDEV inum 0 0 0 0 0 0 0 []).

(** [dirlookup] searches whole blocks, the last one past the size as well. *)
Definition nblocks (ip : inode) : Z := (i_size ip + BSIZE - 1) / BSIZE.
Definition dir_bytes d (ip : inode) : list Z := fbyte ROOTDEV d ip <$> seqZ 0 (BSIZE * nblocks ip).

(** The inode at the end of a path that starts at [inum], and with [parent]
    the directory the last element is looked up in. *)
Fixpoint walk d (parent : bool) (inum : Z) (es : list (list Z)) : option Z :=
  match es with
  | [] => if parent then None else Some inum
  | e :: es =>
      if negb (i_type (on_disk d inum) =? T_DIR) then None
      else if parent && bool_decide (es = []) then Some inum
      else match dir_find e (dirents (dir_bytes d (on_disk d inum))) with
           | Some (_, next) => walk d parent next es
           | None => None
           end
  end.

(** The inodes that paths lead to. *)
Inductive reachable d : Z -> Prop :=
| reach_root : reachable d ROOTINO
| reach_entry inum k j name :
    reachable d inum -> i_type (on_disk d inum) = T_DIR ->
    dirents (dir_bytes d (on_disk d inum)) !! k = Some (j, name) -> j <> 0 -> reachable d j.

(** The inode [namex] starts from: the root, or the current directory. *)
Definition starts d ic (cwd : nat) (path : list Z) (inum : Z) : Prop :=
  if default 0 (head path) =? SLASH then inum = ROOTINO
  else exists cp, ic !! cwd = Some cp /\ 0 < i_ref cp /\ ikey cp = (ROOTDEV, inum) /\ reachable d inum.

Section Walk.
Context (sz ni : Z).

(** An inode that can be reached is in use and has links, and a directory is
    a file. *)
Definition node_ok d (inum : Z) : Prop :=
  reachable d inum /\ 0 < inum < ni /\ i_type (on_disk d inum) <> 0 /\ i_nlink (on_disk d inum) <> 0.

Record tree_ok d : Prop := TreeOk {
  t_disk : disk_ok ROOTDEV sz ni d;
  t_node : forall inum, reachable d inum -> node_ok d inum;
  t_dir : forall inum, reachable d inum -> i_type (on_disk d inum) = T_DIR ->
    file_ok ROOTDEV sz ni d (on_disk d inum) /\ bytes (dir_bytes d (on_disk d inum))
}.

Section Lookup.
Context {S : Type} `{HB : !BlockOps S} `{HS : !BlockSpec S} (Hcap : (2 <= bcap)%nat).
Implicit Types (x : fs S).

(** The first [t] blocks of a directory, and one more. *)
Definition upto d (ip : inode) (t : Z) : list Z := fbyte ROOTDEV d ip <$> seqZ 0 (BSIZE * t).

Lemma length_upto d ip t : 0 <= t -> length (upto d ip t) = (DIRENT * Z.to_nat (32 * t))%nat.
Proof. intros Ht. unfold upto. rewrite length_fmap, length_seqZ. change BSIZE with 512. unfold DIRENT. lia. Qed.

Lemma upto_next d ip t :
  0 <= t -> length (blk d (ROOTDEV, baddr ROOTDEV d ip t)) = BLEN ->
  upto d ip (t + 1) = upto d ip t ++ blk d (ROOTDEV, baddr ROOTDEV d ip t).
Proof.
  intros Ht Hl. unfold upto. replace (BSIZE * (t + 1)) with (BSIZE * t + BSIZE) by lia.
  assert (E : (BSIZE * t) / BSIZE = t /\ (BSIZE * t) mod BSIZE = 0) by fs_lia. destruct E as [E1 E2].
  rewrite seqZ_app, fmap_app by fs_lia. f_equal. rewrite Z.add_0_l.
  rewrite <- chunk_bytes by (rewrite ?E1, ?E2; (done || fs_lia)). rewrite E1, E2. unfold slice.
  rewrite drop_0, take_ge; [done|]. by rewrite Hl.
Qed.

Lemma upto_prefix d ip t u : 0 <= t <= u -> exists r, upto d ip u = upto d ip t ++ r.
Proof.
  intros Htu. unfold upto. replace (BSIZE * u) with (BSIZE * t + BSIZE * (u - t)) by lia.
  rewrite seqZ_app, fmap_app by fs_lia. eauto.
Qed.

Lemma dir_find_upto d ip e t u :
  0 <= t <= u -> dir_find e (dirents (upto d ip t)) <> None ->
  dir_find e (dirents (upto d ip u)) = dir_find e (dirents (upto d ip t)).
Proof.
  intros Htu Hf. destruct (upto_prefix d ip t u Htu) as [r ->].
  rewrite (dirents_app _ _ _ (length_upto d ip t ltac:(lia))), dir_find_app. by destruct (dir_find e _).
Qed.

Lemma bytes_block d ip t u :
  0 <= t < u -> length (blk d (ROOTDEV, baddr ROOTDEV d ip t)) = BLEN -> bytes (upto d ip u) ->
  bytes (blk d (ROOTDEV, baddr ROOTDEV d ip t)).
Proof.
  intros Htu Hl Hb. destruct (upto_prefix d ip (t + 1) u ltac:(lia)) as [r E].
  rewrite E, upto_next in Hb by (done || lia). by apply Forall_app in Hb as [[_ ?]%Forall_app _].
Qed.

(** Search one more block. *)
Lemma dir_find_next d ip e t :
  0 <= t -> length (blk d (ROOTDEV, baddr ROOTDEV d ip t)) = BLEN -> dir_find e (dirents (upto d ip t)) = None ->
  dir_find e (dirents (upto d ip (t + 1))) =
  (fun r => (Z.to_nat (32 * t) + r.1, r.2)%nat) <$> dir_find e (dirents (blk d (ROOTDEV, baddr ROOTDEV d ip t))).
Proof.
  intros Ht Hl Hn. rewrite upto_next, (dirents_app _ _ _ (length_upto d ip t Ht)), dir_find_app, Hn by done.
  rewrite length_dirents, (length_upto d ip t Ht), (Nat.mul_comm DIRENT), Nat.div_mul by done. done.
Qed.

Lemma scan_block name data :
  bytes data -> bytes name -> length data = BLEN ->
  scan_dirents (Z.to_nat (BSIZE / 16)) 0 name data = fst <$> dir_find (name_of name) (dirents data).
Proof.
  intros Hd Hn Hl. rewrite scan_dirents_find by done. unfold dirents. rewrite Hl. done.
Qed.

Lemma dirlookup_ok x d ic b dp ip name (Q : option (nat * Z) -> fs S -> Prop) :
  at_fs x d ∅ ic -> cache_ok d b ic -> ic !! dp = Some ip -> i_type ip = T_DIR ->
  file_ok ROOTDEV sz ni d ip -> bytes (dir_bytes d ip) -> bytes name ->
  (exists k kp, ic !! k = Some kp /\ i_ref kp = 0) ->
  match dir_find (name_of name) (dirents (dir_bytes d ip)) with
  | None => forall x', at_fs x' d ∅ ic -> Q None x'
  | Some (k, inum) => forall i x' ic' ip', at_fs x' d ∅ ic' -> cache_ok d b ic' -> refd [i] ic ic' ->
      ic' !! i = Some ip' -> ikey ip' = (ROOTDEV, inum) -> Q (Some (i, 16 * Z.of_nat k)) x'
  end ->
  wp (dirlookup dp name) Q x.
Proof using Hcap.
  intros Hx Hc Hip Hty (Hd & Hok & Hsz & Hmap) Hb Hn Hfree HQ. change (dir_bytes d ip) with (upto d ip (nblocks ip)) in *.
  unfold dirlookup. wp_step. eapply geti_wp; [done|done|]. rewrite Hty. cbn [negb Z.eqb T_DIR].
  change (MAXFILE * BSIZE) with 71680 in Hsz. set (e := name_of name) in *. set (n := nblocks ip) in *.
  assert (Hnb : 0 <= n <= MAXFILE /\ (n - 1) * BSIZE < i_size ip <= n * BSIZE) by (unfold n, nblocks; fs_lia).
  pose proof (disk_ok_bounds _ _ _ d Hd) as (Hbm & Hszb & _ & Hdev).
  apply (wp_loop_ghost (fun r off x1 => exists t, 0 <= t <= n /\ off = BSIZE * t /\ r = Z.to_nat (n - t) /\
           at_fs x1 d ∅ ic /\ dir_find e (dirents (upto d ip t)) = None) _ _ _ (Z.to_nat n)).
  - intros r off x1 (t & Ht & -> & -> & Hx1 & Hnone). wp_step; rename H into Hoff.
    + assert (Htn : t < n) by fs_lia. replace ((BSIZE * t) / BSIZE) with t by fs_lia.
      assert (Hne : baddr ROOTDEV d ip t <> 0) by (apply Hmap; fs_lia).
      destruct (ok_own _ _ _ _ _ Hok _ (in_file_baddr _ d ip t ltac:(lia) Hne)) as [Hr _].
      wp_step. eapply (bmap_wp ROOTDEV sz ni Hcap x1 d ic dp ip); try done; [lia|unfold cost; replace (baddr _ d ip t =? 0) with false by lia; lia|].
      intros x2 d2 ip2 bno Hmp Hx2. destruct (m_kept _ _ _ _ _ _ _ _ _ Hmp Hne) as [-> ->].
      rewrite list_insert_id in Hx2 by done. pose proof (m_addr _ _ _ _ _ _ _ _ _ Hmp) as <-. rewrite (ok_dev _ _ _ _ _ Hok).
      wp_step. eapply bread__wp; [done|split; simpl; lia|apply not_held_empty|rewrite map_size_empty; lia|].
      intros bp x3 Hbp Hx3. wp_step. eapply data_of_wp; [done|apply lookup_insert_eq|].
      set (dat := blk d (ROOTDEV, baddr ROOTDEV d ip t)) in *. assert (Hl : length dat = BLEN) by apply Hd.
      assert (Hbd : bytes dat) by (eapply (bytes_block d ip t n); [lia|done|done]).
      pose proof (dir_find_next d ip e t ltac:(lia) Hl Hnone) as Hnext. fold dat in Hnext.
      rewrite scan_block by done. fold e. destruct (dir_find e (dirents dat)) as [[k inum]|] eqn:Ek.
      * destruct (dir_find_Some _ _ _ _ Ek) as [Hk Hi0]. cbn [fmap option_fmap option_map fst]. wp_step.
        eapply brelse__wp; [done|apply lookup_insert_eq|done|]. intros x4 Hx4. rewrite release_fresh in Hx4 by done.
        assert (Hke : de_inum dat k = inum /\ (k < 32)%nat).
        { unfold dirents in Hk. rewrite list_lookup_fmap, Hl in Hk. apply fmap_Some in Hk as (k' & [-> Hk']%lookup_seq & Hk).
          injection Hk as -> _. cbn [Nat.add] in *. by split. }
        destruct Hke as [-> Hk32]. cbn [fmap option_fmap option_map fst snd] in Hnext.
        rewrite (dir_find_upto d ip e (t + 1) n), Hnext in HQ by (lia || by rewrite Hnext).
        wp_step. eapply iget_ok; [exact Hx4|done|done|]. intros i x5 ic' ip' Hx5 Hc5 Hr5 Hi5 Hk5. wp_step.
        replace (u32 (BSIZE * t + 16 * Z.of_nat k)) with (16 * Z.of_nat (Z.to_nat (32 * t) + k)) by (rewrite u32_small; fs_lia).
        by eapply HQ.
      * cbn [fmap option_fmap option_map]. wp_step. eapply brelse__wp; [done|apply lookup_insert_eq|done|]. intros x4 Hx4.
        rewrite release_fresh in Hx4 by done. wp_step. exists (Z.to_nat (n - (t + 1))). split; [lia|].
        exists (t + 1). rewrite u32_small by fs_lia. split_and!; [lia|lia|fs_lia|done|done|]. by rewrite Hnext.
    + wp_step. assert (Htn : t = n) by fs_lia. subst t. rewrite Hnone in HQ. by apply HQ.
  - exists 0. split_and!; [lia|lia|done|lia|done|done].
  - unfold io_fuel. fs_lia.
Qed.

(** A slot with an inode's fields holds the same file as the disk. *)
Lemma same_file d ip jp :
  i_dev ip = i_dev jp -> dfields ip = dfields jp -> file_ok ROOTDEV sz ni d jp ->
  file_ok ROOTDEV sz ni d ip /\ dir_bytes d ip = dir_bytes d jp /\ i_type ip = i_type jp /\
  content ROOTDEV d ip = content ROOTDEV d jp /\ i_size ip = i_size jp.
Proof.
  destruct ip as [a1 a2 a3 a4 a5 a6 a7 a8 a9 a10], jp as [b1 b2 b3 b4 b5 b6 b7 b8 b9 b10]. unfold dfields. simpl. intros -> [= -> -> -> -> -> ->].
  intros (Hd & [H1 H2 H3 H4 H5] & Hs & Hm). split; [|done]. split; [done|]. split; [by constructor|]. by split.
Qed.

Lemma node_addressable d inum : disk_ok ROOTDEV sz ni d -> node_ok d inum -> addressable (ROOTDEV, IBLOCK inum).
Proof.
  intros ([_ _ ? ? ? Hfit] & _) (_ & Hi & _). pose proof (iblock_range ni inum ltac:(lia)). unfold datastart in Hfit.
  split; cbn [fst snd]; [lia|]. assert (0 <= sz / BPB) by (apply Z.div_pos; fs_lia). lia.
Qed.

Lemma iunlockput_ok x d ic0 ic i ip inum L (Q : unit -> fs S -> Prop) :
  at_fs x d ∅ ic -> cache_ok d (Some i) ic -> refd (i :: L) ic0 ic -> ic !! i = Some ip ->
  ikey ip = (ROOTDEV, inum) -> node_ok d inum ->
  (forall x' ic', at_fs x' d ∅ ic' -> cache_ok d None ic' -> refd L ic0 ic' -> ikey <$> ic' = ikey <$> ic -> Q tt x') ->
  wp (iunlockput i) Q x.
Proof.
  intros Hx Hc Hr Hi Hk Hn HQ. unfold iunlockput. wp_step. eapply iunlock_ok; [exact Hx|done|].
  intros x1 ic1 Hx1 Hc1 Hr1 Hk1. destruct (c_held _ _ _ Hc i eq_refl) as (ip' & Hi' & Hp). simplify_eq.
  destruct (refd_slot _ _ _ _ _ Hr1 Hi Hp) as (ip1 & Hi1 & Hp1 & E1). rewrite Hk in E1. injection E1 as Ed En.
  eapply iput_ok; [exact Hx1|done|exact (refd_trans _ _ _ _ _ Hr Hr1)|exact Hi1|done| |].
  - rewrite Ed, En. apply Hn.
  - intros x2 ic2 Hx2 Hc2 Hr2 Hk2. apply (HQ x2 ic2); [done..|]. congruence.
Qed.

(** One reference more than in [ic0], to slot [i] with inode [inum]. *)
Definition at_node d ic0 x (i : nat) (inum : Z) : Prop :=
  exists ic ip, at_fs x d ∅ ic /\ cache_ok d None ic /\ refd [i] ic0 ic /\ ic !! i = Some ip /\
    ikey ip = (ROOTDEV, inum) /\ node_ok d inum.

(** No more references than in [ic0]. *)
Definition at_none d ic0 x : Prop := exists ic, at_fs x d ∅ ic /\ cache_ok d None ic /\ refd [] ic0 ic.

(** What a search has led to: the inode of [r], or nothing. *)
Definition arrived d ic0 (r : option Z) (i : option nat) x : Prop :=
  match r with
  | Some inum => exists j, i = Some j /\ at_node d ic0 x j inum
  | None => i = None /\ at_none d ic0 x
  end.

(** The inode's slot, locked, and its fields as on the disk. *)
Lemma enter_node x d ic0 i inum (Q : unit -> fs S -> Prop) :
  tree_ok d -> cache_ok d None ic0 -> at_node d ic0 x i inum ->
  (forall x' ic ip, at_fs x' d ∅ ic -> cache_ok d (Some i) ic -> refd [i] ic0 ic -> ic !! i = Some ip ->
     ikey ip = (ROOTDEV, inum) -> dfields ip = dfields (on_disk d inum) -> Q tt x') ->
  wp (ilock i) Q x.
Proof using Hcap.
  intros Ht Hc0 (ic & ip & Hx & Hc & Hr & Hi & Hk & Hn) HQ.
  assert (Hp : 0 < i_ref ip) by (apply (refd_held d None [i] ic0 ic i ip); (done || set_solver)).
  pose proof Hk as [= Ed En]. pose proof (node_addressable d inum (t_disk _ Ht) Hn).
  eapply ilock_ok; [exact Hx|done|exact Hi|done|by rewrite Ed, En|apply not_held_empty|rewrite map_size_empty; lia| |].
  - rewrite Ed, En. apply Hn.
  - intros x' ic' ip' Hx' Hc' Hr' Hi' Hk' Hf. eapply HQ; [done|done|exact (refd_trans _ _ _ _ _ Hr Hr')|done|congruence|].
    rewrite Hf, Ed, En. done.
Qed.

(** Where [namex] is after its loop, and one round of the loop. *)
Definition looped d ic parent path W (r : option nat * list Z * bool) x : Prop :=
  let '(i, nm, stop) := r in
  if stop then arrived d ic W i x /\ (parent = true -> i <> None -> last (elems path) = Some (name_of nm))
  else exists j inum, i = Some j /\ at_node d ic x j inum /\ W = (if parent then None else Some inum).

Definition looping d ic parent path W (n : nat) (st : nat * list Z * list Z) x : Prop :=
  let '(i, p, nm) := st in
  exists inum, at_node d ic x i inum /\ n = length p /\ is_path p /\ length nm = DIRSIZ /\ bytes nm /\
    walk d parent inum (elems p) = W /\ (elems p <> [] -> last (elems p) = last (elems path)).

Lemma leave_node x d ic0 ic i ip inum (Q : unit -> fs S -> Prop) :
  at_fs x d ∅ ic -> cache_ok d (Some i) ic -> refd [i] ic0 ic -> ic !! i = Some ip -> ikey ip = (ROOTDEV, inum) ->
  node_ok d inum -> (forall x', at_none d ic0 x' -> Q tt x') -> wp (iunlockput i) Q x.
Proof. intros Hx Hc Hr Hi Hk Hn HQ. eapply iunlockput_ok; [done..|]. intros x' ic' Hx' Hc' Hr' _. apply HQ. by exists ic'. Qed.

(** The entry found, and the directory given back. *)
Lemma step_node x d ic0 ic i ip inum j jp jnum (Q : unit -> fs S -> Prop) :
  at_fs x d ∅ ic -> cache_ok d (Some i) ic -> refd [j; i] ic0 ic -> ic !! i = Some ip -> ikey ip = (ROOTDEV, inum) ->
  node_ok d inum -> ic !! j = Some jp -> ikey jp = (ROOTDEV, jnum) -> node_ok d jnum ->
  (forall x', at_node d ic0 x' j jnum -> Q tt x') -> wp (iunlockput i) Q x.
Proof.
  intros Hx Hc Hr Hi Hk Hn Hj Hkj Hnj HQ. eapply (iunlockput_ok x d ic0 ic i ip inum [j]); [done|done| |done..|].
  - eapply refd_perm; [|exact Hr]. apply Permutation_swap.
  - intros x' ic' Hx' Hc' Hr' HK. destruct (keys_slot _ _ _ _ HK Hj) as (jp' & Hj' & Ej). apply HQ.
    exists ic', jp'. split_and!; try done; [congruence|apply Hnj..].
Qed.

Lemma namex_round_wp x2 d ic parent path W n st :
  tree_ok d -> cache_ok d None ic -> two_free ic -> looping d ic parent path W n st x2 ->
  wp (namex_round parent st) (fun r x' => match r with
                                          | inl st' => exists n', (n' < n)%nat /\ looping d ic parent path W n' st' x'
                                          | inr r => looped d ic parent path W r x'
                                          end) x2.
Proof using Hcap.
  intros Ht Hc Hfree. destruct st as [[i p] nm]. intros (inum & Hnode & -> & Hp & Hl & Hbn & HW & Hlast). unfold namex_round.
  pose proof (skipelem_spec p nm Hp Hl Hbn) as Hsk. destruct (skipelem p nm) as [[p' nm']|].
  2:{ wp_step. exists i, inum. rewrite Hsk in HW. by split_and!. }
  destruct Hsk as (He & Hp' & Hlt & Hl' & Hbn' & Hend). rewrite He in *. cbn [walk] in HW.
  pose proof Hnode as (_ & _ & _ & _ & _ & _ & _ & Hn). pose proof Hn as [Hreach _].
  wp_step. eapply enter_node; [done|done|exact Hnode|]. intros x3 ic3 ip3 Hx3 Hc3 Hr3 Hi3 Hk3 Hf3. wp_step. eapply geti_wp; [done|done|].
  assert (Hty : i_type ip3 = i_type (on_disk d inum)) by (unfold dfields in Hf3; congruence). rewrite Hty.
  destruct (Z.eqb_spec (i_type (on_disk d inum)) T_DIR) as [Hdir|_]; cbn [negb] in *.
  2:{ wp_step. eapply leave_node; [done..|]. intros x4 Hx4. wp_step. split; [|done]. rewrite <- HW. by split. }
  assert (Hlast' : elems p' <> [] -> last (elems p') = last (elems path)).
  { intros Hne. rewrite <- Hlast by done. by destruct (elems p'). }
  replace (default 0 (head p') =? 0) with (bool_decide (elems p' = [])) by (symmetry; case_bool_decide as E0; [by apply Z.eqb_eq, Hend|apply Z.eqb_neq; by intros E1%Hend]).
  destruct (parent && bool_decide (elems p' = [])) eqn:Epar.
  { wp_step. eapply iunlock_ok; [done|done|]. intros x4 ic4 Hx4 Hc4 Hr4 Hk4. wp_step. split.
    - rewrite <- HW. exists i. split; [done|]. destruct (keys_slot _ _ _ _ Hk4 Hi3) as (ip4 & Hi4 & E4).
      exists ic4, ip4. split_and!; try done; [exact (refd_trans _ _ _ _ _ Hr3 Hr4)|congruence|apply Hn..].
    - intros _ _. rewrite <- Hlast by done. apply andb_true_iff in Epar as [_ ->%bool_decide_eq_true]. done. }
  destruct (t_dir _ Ht inum Hreach Hdir) as [Hfile Hdb].
  destruct (same_file d ip3 (on_disk d inum)) as (Hfile3 & Hdb3 & _); [by injection Hk3 as -> _|done|done|].
  wp_step. eapply dirlookup_ok; [exact Hx3|exact Hc3|exact Hi3|congruence|done|congruence|done|by eapply refd_free|].
  rewrite Hdb3. destruct (dir_find (name_of nm') (dirents (dir_bytes d (on_disk d inum)))) as [[k jnum]|] eqn:Ef.
  * intros j x4 ic4 jp Hx4 Hc4 Hr4 Hj4 Hkj. destruct (dir_find_Some _ _ _ _ Ef) as [Hk Hj0].
    assert (Hp3 : 0 < i_ref ip3) by (apply (refd_held d None [i] ic ic3 i ip3); (done || set_solver)).
    destruct (refd_slot _ _ _ _ _ Hr4 Hi3 Hp3) as (ip4 & Hi4 & Hp4 & E4).
    wp_step. eapply (step_node x4 d ic ic4 i ip4 inum j jp jnum); [done|done|exact (refd_trans _ _ _ _ _ Hr3 Hr4)|done|congruence|done|done|done|by eapply (t_node _ Ht), reach_entry|].
    intros x5 Hx5. wp_step. exists (length p'). split; [lia|]. exists jnum. by split_and!.
  * intros x4 Hx4. wp_step. eapply leave_node; [done..|]. intros x5 Hx5. wp_step. split; [|done]. rewrite <- HW. by split.
Qed.

(** [namex] follows the path on the disk. *)
Lemma namex_wp x d ic cwd inum path parent name (Q : option nat * list Z -> fs S -> Prop) :
  at_fs x d ∅ ic -> tree_ok d -> cache_ok d None ic -> two_free ic -> starts d ic cwd path inum ->
  is_path path -> length name = DIRSIZ -> bytes name ->
  (forall i name' x', arrived d ic (walk d parent inum (elems path)) i x' -> (parent = true -> i <> None -> last (elems path) = Some (name_of name')) -> Q (i, name') x') ->
  wp (namex cwd path parent name) Q x.
Proof using Hcap.
  intros Hx Ht Hc Hfree Hst Hpath Hlen Hb HQ.
  set (W := walk d parent inum (elems path)) in *. unfold namex. wp_step.
  apply (wp_mono _ (fun i x1 => at_node d ic x1 i inum)).
  { unfold starts in Hst. destruct (_ =? SLASH).
    - eapply iget_ok; [done|done| |].
      + destruct Hfree as (a & _ & ap & _ & _ & Ha & _ & Hra & _). eauto.
      + intros i x1 ic1 ip1 Hx1 Hc1 Hr1 Hi1 Hk1. subst inum. exists ic1, ip1. split_and!; try done; apply (t_node _ Ht), reach_root.
    - destruct Hst as (cp & Hcwd & Hcp & Hck & Hcn).
      eapply idup_ok; [done..|]. intros x1 ic1 ip1 Hx1 Hc1 Hr1 Hi1 Hk1. exists ic1, ip1. split_and!; try done; [congruence|by apply (t_node _ Ht)..]. }
  intros i1 x1 Hat. wp_step. apply (wp_mono _ (looped d ic parent path W)).
  - apply (wp_loop_ghost (looping d ic parent path W) _ _ _ (length path)).
    + intros n st x2 Hround. by apply namex_round_wp.
    + exists inum. done.
    + lia.
  - intros [[r nm] stop] x2. unfold looped. destruct stop; cbn [negb]; rewrite ?andb_false_r, ?andb_true_r.
    + intros [Ha Hl]. destruct r; wp_step; by apply HQ.
    + intros (j & jnum & -> & Hn & HWj). destruct parent; wp_step.
      * pose proof Hn as (ic2 & ip2 & Hx2 & Hc2 & Hr2 & Hi2 & Hk2 & Hn2). injection Hk2 as Ed En.
        eapply iput_ok; [exact Hx2|done|exact Hr2|exact Hi2| |rewrite Ed, En; apply Hn2|].
        { apply (refd_held d None [j] ic ic2 j ip2); (done || set_solver). }
        intros x3 ic3 Hx3 Hc3 Hr3 _. wp_step. apply HQ; [|done]. rewrite HWj. split; [done|]. by exists ic3.
      * apply HQ; [|done]. rewrite HWj. by exists j.
Qed.
End Lookup.
End Walk.

(** C4: path lookup.  On a tree of directories that are well formed, with no
    inode locked and two slots of the inode cache free, [namex] returns the
    inode that following the path's elements from directory to directory
    leads to, from the root or from the current directory, however the path is
    spelled (repeated slashes, elements longer than [DIRSIZ]), and no inode
    when an element is missing or is not a directory.  The slot returned holds
    one more reference, every other reference and the disk are as before, and
    no inode is left locked.  With [parent] it is the directory of the last
    element, whose name is left in [name]. *)
Theorem namex_finds {S} `{HB : !BlockOps S} `{HS : !BlockSpec S} sz ni
    (x : fs S) d ic cwd inum path parent name :
  (2 <= bcap)%nat -> at_fs x d ∅ ic -> tree_ok sz ni d -> cache_ok d None ic -> two_free ic ->
  starts d ic cwd path inum -> is_path path -> length name = DIRSIZ -> bytes name ->
  exists i name' x', namex cwd path parent name x = Ok (i, name') x' /\
    arrived ni d ic (walk d parent inum (elems path)) i x' /\
    (parent = true -> i <> None -> last (elems path) = Some (name_of name')).
Proof.
  intros Hcap Hx Ht Hc Hfree Hst Hpath Hlen Hb.
  assert (Hwp : wp (namex cwd path parent name) (fun r x' => arrived ni d ic (walk d parent inum (elems path)) r.1 x' /\
    (parent = true -> r.1 <> None -> last (elems path) = Some (name_of r.2))) x).
  { eapply (namex_wp sz ni Hcap); [done..|]. intros i name' x' Ha Hl. by split. }
  destruct (wp_elim _ _ _ Hwp) as ([i name'] & x' & Hrun & Ha & Hl). by exists i, name', x'.
Qed.

(** ** The demo disk *)

Definition root_slot : inode := Inode ROOTDEV ROOTINO 1 0 0 0 0 0 0 [].
Definition root_icache : list inode := <[0%nat := root_slot]> demo_icache.
Definition root_fs : fs ide := MkFs (io demo_fs) root_icache.

Definition demo_root_inode : inode := Inode 1 1 0 0 T_DIR 0 0 1 512 (5 :: replicate 12 0).
Definition demo_entries : list (Z * list Z) := [(1, s_dot); (1, s_dotdot); (2, s_hello)] ++ replicate 29 (0, []).

Lemma demo_root_on_disk : on_disk demo_disk 1 = demo_root_inode.
Proof. by vm_compute. Qed.

Lemma demo_root_entries : dirents (dir_bytes demo_disk demo_root_inode) = demo_entries.
Proof. by vm_compute. Qed.

Lemma demo_root_baddr bn : 0 <= bn < MAXFILE -> baddr 1 demo_disk demo_root_inode bn = if bn =? 0 then 5 else 0.
Proof.
  intros Hbn. unfold baddr. change (ind demo_root_inode =? 0) with true. cbn iota.
  destruct (Z.ltb_spec bn NDIRECT).
  - assert (Hin : bn ∈ seqZ 0 12) by (apply elem_of_seqZ; fs_lia). clear Hbn H. revert bn Hin.
    apply Forall_forall. repeat constructor.
  - replace (bn =? 0) with false by fs_lia. done.
Qed.

Lemma demo_root_file_ok : file_ok 1 16 8 demo_disk demo_root_inode.
Proof.
  split; [apply demo_disk_ok|]. split; [|split; [simpl; fs_lia|]].
  - constructor; [done|done| | |].
    + intros b [Hne [->|(bn & Hbn & ->)]]; [done|]. rewrite demo_root_baddr in * by done.
      destruct (bn =? 0); [|done]. rewrite demo_bit by lia. change (datastart 16 8) with 5. lia.
    + intros b1 b2 H1 H2. rewrite !demo_root_baddr by done. destruct (Z.eqb_spec b1 0), (Z.eqb_spec b2 0); lia.
    + intros bn _ Hi. by destruct Hi.
  - intros bn H0 Hlt. simpl in Hlt. rewrite demo_root_baddr by fs_lia. replace (bn =? 0) with true by fs_lia. lia.
Qed.

Lemma demo_reachable inum : reachable demo_disk inum -> inum = 1 \/ inum = 2.
Proof.
  induction 1 as [|inum k j name _ [-> | ->] Hty Hk Hj]; [by left| |by vm_compute in Hty].
  rewrite demo_root_on_disk, demo_root_entries in Hk. apply list_elem_of_lookup_2 in Hk. unfold demo_entries in Hk.
  apply elem_of_app in Hk as [Hk|[[= -> ->] _]%elem_of_replicate]; [|done]. set_solver.
Qed.

Lemma demo_tree_ok : tree_ok 16 8 demo_disk.
Proof.
  constructor.
  - apply demo_disk_ok.
  - intros inum Hr. split; [done|]. destruct (demo_reachable _ Hr) as [-> | ->]; (split_and!; [lia|lia|by vm_compute|by vm_compute]).
  - intros inum Hr Hty. destruct (demo_reachable _ Hr) as [-> | ->]; [|by vm_compute in Hty].
    rewrite demo_root_on_disk. split; [apply demo_root_file_ok|]. unfold bytes, is_byte. apply (bool_decide_unpack _). by vm_compute.
Qed.

Lemma root_cache_ok : cache_ok demo_disk None root_icache.
Proof.
  assert (Hlk : forall j jp, root_icache !! j = Some jp -> (j = 0%nat /\ jp = root_slot) \/ i_ref jp = 0).
  { intros j jp Hj. destruct j as [|j]; [left; by injection Hj as <-|right]. unfold root_icache in Hj.
    rewrite list_lookup_insert_ne in Hj by done. by apply lookup_replicate in Hj as [-> _]. }
  constructor; try done.
  - intros j jp [[-> ->]|E]%Hlk; simpl; lia.
  - intros j jp [[-> ->]|E]%Hlk; simpl; [done|lia].
  - intros j jp [[-> ->]|E]%Hlk; simpl; [done|lia].
  - intros j k jp kp [[-> ->]|E]%Hlk [[-> ->]|E']%Hlk; simpl; (done || lia).
Qed.

(** "//hello" from the root, and "hello" in the current directory. *)
Lemma namex_finds_witness :
  (exists i name' x', namex 0 ([47; 47] ++ s_hello) false (replicate DIRSIZ 0) root_fs = Ok (Some i, name') x' /\
     at_node 8 demo_disk root_icache x' i 2) /\
  (exists i name' x', namex 0 s_hello true (replicate DIRSIZ 0) root_fs = Ok (Some i, name') x' /\
     at_node 8 demo_disk root_icache x' i 1 /\ name_of name' = s_hello).
Proof.
  assert (Hcap : (2 <= bcap)%nat) by (vm_compute; lia).
  assert (Hx : at_fs root_fs demo_disk ∅ root_icache) by (split; [apply demo_at_fs|reflexivity]).
  assert (Hfree : two_free root_icache) by (exists 1%nat, 2%nat, null_inode, null_inode; repeat split; discriminate).
  assert (Hname : bytes (replicate DIRSIZ 0)) by (repeat constructor; discriminate). split.
  - destruct (namex_finds 16 8 root_fs demo_disk root_icache 0 1 ([47; 47] ++ s_hello) false (replicate DIRSIZ 0)
                Hcap Hx demo_tree_ok root_cache_ok Hfree) as (i & name' & x' & Hrun & (j & -> & Hj) & _).
    + reflexivity.
    + repeat constructor.
    + reflexivity.
    + exact Hname.
    + exists j, name', x'. split; [exact Hrun|exact Hj].
  - destruct (namex_finds 16 8 root_fs demo_disk root_icache 0 1 s_hello true (replicate DIRSIZ 0)
                Hcap Hx demo_tree_ok root_cache_ok Hfree) as (i & name' & x' & Hrun & (j & -> & Hj) & Hl).
    + exists root_slot. split; [reflexivity|]. split; [simpl; lia|]. split; [reflexivity|apply reach_root].
    + repeat constructor.
    + reflexivity.
    + exact Hname.
    + exists j, name', x'. split; [exact Hrun|]. split; [exact Hj|]. injection (Hl eq_refl ltac:(discriminate)) as E. symmetry. exact E.
Defined.
