(* ===== verification/Vm.v ===== *)
(** * Page tables and user memory: [src/vm.c]

    Page directories and page tables are pages of [Kalloc]'s physical memory,
    whose addresses the kernel uses unchanged ([PADDR] is the identity).  An
    entry is the word at an address, so a [pte_t*] is that address and 0 is the
    null pointer.  [kend] and [kdata] are the symbols [end] and [data] of the
    kernel image.  The segment registers, [%cr3] and [%cr0] are not modelled. *)

From stdpp Require Import base numbers list gmap strings list_numbers.
From Stdlib Require Import Lia ZArith ZifyBool.
From S2P Require Import Prelude Kalloc.
Open Scope Z_scope.

Definition USERTOP : Z := 0xA0000.
Definition PTE_P : Z := 1.
Definition PTE_W : Z := 2.
Definition PTE_U : Z := 4.
Definition NPDENTRIES : Z := 1024.

Definition PDX (la : Z) : Z := Z.land (Z.shiftr la 22) 0x3FF.
Definition PTX (la : Z) : Z := Z.land (Z.shiftr la 12) 0x3FF.
Definition PTE_ADDR (pte : Z) : Z := clr pte 0xFFF.

(** The word at a physical address. *)
Definition word (k : kmem) (p : Z) : Z := ldw 4 (page k (PGROUNDDOWN p)) (Z.to_nat (p mod PGSIZE)).
Definition set_word (p v : Z) (k : kmem) : kmem :=
  set_page (PGROUNDDOWN p) (stw 4 (Z.to_nat (p mod PGSIZE)) v (page k (PGROUNDDOWN p))) k.

(** [memmove] inside one page, and of a whole page. *)
Definition copy_to_page (pa off : Z) (bs : list Z) (k : kmem) : kmem :=
  set_page pa (splice (Z.to_nat off) bs (page k pa)) k.

Section Vm.
Context (kend kdata : Z).
Abbreviation kfree := (kfree kend).

Definition walkpgdir (pgdir va : Z) (create : bool) : M kmem Z :=
  let pde := pgdir + 4 * PDX va in
  v ← gets (fun k => word k pde);
  if tst v PTE_P then mret (PTE_ADDR v + 4 * PTX va) else
  if negb create then mret 0 else
  pgtab ← kalloc;
  if pgtab =? 0 then mret 0 else
  _ ← memset_page pgtab 0;
  _ ← modify (set_word pde (Z.lor (Z.lor (Z.lor pgtab PTE_P) PTE_W) PTE_U));
  mret (pgtab + 4 * PTX va).

(** The loop ends when [a] reaches [last], which it does after the pages
    between them; the fuel counts these. *)
Definition mappages (pgdir la size pa perm : Z) : M kmem Z :=
  let a := PGROUNDDOWN la in
  let last := PGROUNDDOWN (u32 (la + size - 1)) in
  loop (Z.to_nat (u32 (last - a) / PGSIZE) + 1) (fun st : Z * Z =>
    let '(a, pa) := st in
    pte ← walkpgdir pgdir a true;
    if pte =? 0 then mret (inr (-1)) else
    v ← gets (fun k => word k pte);
    if tst v PTE_P then panic "remap" else
    _ ← modify (set_word pte (Z.lor (Z.lor pa perm) PTE_P));
    if a =? last then mret (inr 0)
    else mret (inl (u32 (a + PGSIZE), u32 (pa + PGSIZE)))) (a, pa).

Definition kmap : list (Z * Z * Z) :=
  [(USERTOP, 0x100000, PTE_W);        (* I/O space *)
   (0x100000, kdata, 0);              (* kernel text, rodata *)
   (kdata, PHYSTOP, PTE_W);           (* kernel data, memory *)
   (0xFE000000, 0, PTE_W)].           (* device mappings *)

Fixpoint map_all (pgdir : Z) (ks : list (Z * Z * Z)) : M kmem Z :=
  match ks with
  | [] => mret pgdir
  | (p, e, perm) :: ks =>
      r ← mappages pgdir p (u32 (e - p)) p perm;
      if r <? 0 then mret 0 else map_all pgdir ks
  end.

Definition setupkvm : M kmem Z :=
  pgdir ← kalloc;
  if pgdir =? 0 then mret 0 else
  _ ← memset_page pgdir 0;
  map_all pgdir kmap.

Definition inituvm (pgdir : Z) (init : list Z) (sz : Z) : M kmem unit :=
  if PGSIZE <=? sz then panic "inituvm: more than a page" else
  mem ← kalloc;
  _ ← memset_page mem 0;
  _ ← mappages pgdir 0 PGSIZE mem (Z.lor PTE_W PTE_U);
  modify (copy_to_page mem 0 (take (Z.to_nat sz) init)).

(** One round of [deallocuvm]'s loop. *)
Definition dealloc_page (pgdir a : Z) : M kmem unit :=
  pte ← walkpgdir pgdir a false;
  v ← gets (fun k => word k pte);
  when (negb (pte =? 0) && tst v PTE_P)
    (let pa := PTE_ADDR v in
     if pa =? 0 then panic "kfree" else
     _ ← kfree pa;
     modify (set_word pte 0)).

Definition deallocuvm (pgdir oldsz newsz : Z) : M kmem Z :=
  if oldsz <=? newsz then mret oldsz else
  _ ← loop (Z.to_nat (oldsz / PGSIZE) + 2) (fun a : Z =>
    if a <? oldsz then
      _ ← dealloc_page pgdir a;
      mret (inl (u32 (a + PGSIZE)))
    else mret (inr tt)) (PGROUNDUP newsz);
  mret newsz.

Definition allocuvm (pgdir oldsz newsz : Z) : M kmem Z :=
  if USERTOP <? newsz then mret 0 else
  if newsz <? oldsz then mret oldsz else
  loop (Z.to_nat (newsz / PGSIZE) + 2) (fun a : Z =>
    if a <? newsz then
      mem ← kalloc;
      if mem =? 0 then _ ← deallocuvm pgdir newsz oldsz; mret (inr 0) else
      _ ← memset_page mem 0;
      _ ← mappages pgdir a PGSIZE mem (Z.lor PTE_W PTE_U);
      mret (inl (u32 (a + PGSIZE)))
    else mret (inr newsz)) (PGROUNDUP oldsz).

Definition freevm (pgdir : Z) : M kmem unit :=
  if pgdir =? 0 then panic "freevm: no pgdir" else
  _ ← deallocuvm pgdir USERTOP 0;
  _ ← loop (Z.to_nat NPDENTRIES + 1) (fun i : Z =>
    if i <? NPDENTRIES then
      v ← gets (fun k => word k (pgdir + 4 * i));
      _ ← when (tst v PTE_P) (kfree (PTE_ADDR v));
      mret (inl (i + 1))
    else mret (inr tt)) 0;
  kfree pgdir.

Definition copyuvm (pgdir sz : Z) : M kmem Z :=
  d ← setupkvm;
  if d =? 0 then mret 0 else
  loop (Z.to_nat (sz / PGSIZE) + 2) (fun i : Z =>
    if i <? sz then
      pte ← walkpgdir pgdir i false;
      if pte =? 0 then panic "copyuvm: pte should exist" else
      v ← gets (fun k => word k pte);
      if negb (tst v PTE_P) then panic "copyuvm: page not present" else
      let pa := PTE_ADDR v in
      mem ← kalloc;
      if mem =? 0 then _ ← freevm d; mret (inr 0) else
      _ ← modify (fun k => set_page mem (page k pa) k);
      r ← mappages d i PGSIZE mem (Z.lor PTE_W PTE_U);
      if r <? 0 then _ ← freevm d; mret (inr 0) else
      mret (inl (u32 (i + PGSIZE)))
    else mret (inr d)) 0.

(** The code reads [*pte] without a test for the null pointer; that read is a
    fault here. *)
Definition uva2ka (pgdir uva : Z) : M kmem Z :=
  pte ← walkpgdir pgdir uva false;
  if pte =? 0 then panic "trap" else
  v ← gets (fun k => word k pte);
  if negb (tst v PTE_P) then mret 0 else
  if negb (tst v PTE_U) then mret 0 else
  mret (PTE_ADDR v).

Definition copyout (pgdir va : Z) (p : list Z) (len : Z) : M kmem Z :=
  loop (Z.to_nat (len / PGSIZE) + 3) (fun st : Z * list Z * Z =>
    let '(va, buf, len) := st in
    if 0 <? len then
      let va0 := PGROUNDDOWN va in
      pa0 ← uva2ka pgdir va0;
      if pa0 =? 0 then mret (inr (-1)) else
      let n := Z.min (u32 (PGSIZE - (va - va0))) len in
      _ ← modify (copy_to_page pa0 (va - va0) (take (Z.to_nat n) buf));
      mret (inl (u32 (va0 + PGSIZE), drop (Z.to_nat n) buf, len - n))
    else mret (inr 0)) (va, p, len).
End Vm.
