(* ===== verification/VmMap.v ===== *)
(** * Page tables as finite maps

    [pt] says what a page directory in memory represents: [T] gives the page
    table of each directory index that has one, and [m] the entry of each
    virtual page that is present.  [vmst] adds ownership: the directory, its
    tables, the pages [o] that belong to others and the free list are all
    different pages.  Against it [walkpgdir] finds or adds a table, and
    [mappages] adds a range of entries to [m]. *)

From stdpp Require Import base numbers list gmap strings list_numbers.
From Stdlib Require Import Lia ZArith ZifyBool.
From S2P Require Import Prelude Kalloc Vm.
Open Scope Z_scope.

Ltac pg_lia := unfold PGSIZE, PHYSTOP, USERTOP, NPDENTRIES in *; Z.div_mod_to_equations; lia.

(** ** Entries *)

Lemma land_aligned a m : a mod PGSIZE = 0 -> 0 <= m < PGSIZE -> Z.land a m = 0.
Proof.
  intros Ha Hm. apply Z.bits_inj'. intros n Hn. rewrite Z.land_spec, Z.bits_0.
  destruct (Z.ltb_spec n 12).
  - replace a with (a / PGSIZE * 2 ^ 12) by (change (2 ^ 12) with PGSIZE; pg_lia).
    by rewrite Z.mul_pow2_bits_low.
  - rewrite (Z.bits_above_log2 m n), andb_false_r; [done|lia|].
    destruct (decide (m = 0)) as [->|]; [simpl; lia|].
    apply Z.log2_lt_pow2; [lia|]. apply Z.lt_le_trans with (2 ^ 12); [done || (unfold PGSIZE in *; lia)|].
    apply Z.pow_le_mono_r; lia.
Qed.

Lemma lor_aligned a x : a mod PGSIZE = 0 -> 0 <= x < PGSIZE -> Z.lor a x = a + x.
Proof. intros Ha Hx. by rewrite <- Z.lxor_lor, Z.add_nocarry_lxor by by apply land_aligned. Qed.

Lemma PTE_ADDR_spec e : PTE_ADDR e = e - e mod PGSIZE.
Proof.
  unfold PTE_ADDR, clr. change 0xFFF with (Z.ones 12).
  rewrite Z.ldiff_ones_r, Z.shiftl_mul_pow2, Z.shiftr_div_pow2 by lia.
  change (2 ^ 12) with PGSIZE. pg_lia.
Qed.

Lemma PDX_spec va : 0 <= va < 2 ^ 32 -> PDX va = va / PGSIZE / 1024.
Proof.
  intros H. unfold PDX. change 0x3FF with (Z.ones 10). rewrite Z.land_ones, Z.shiftr_div_pow2 by lia.
  rewrite Z.div_div by (unfold PGSIZE; lia). change (PGSIZE * 1024) with (2 ^ 22).
  apply Z.mod_small. Z.div_mod_to_equations. lia.
Qed.

Lemma PTX_spec va : PTX va = va / PGSIZE mod 1024.
Proof. unfold PTX. change 0x3FF with (Z.ones 10). by rewrite Z.land_ones, Z.shiftr_div_pow2 by lia. Qed.

(** An entry that [mappages] or [walkpgdir] writes. *)
Definition mk_pte (pa perm : Z) : Z := Z.lor (Z.lor pa perm) PTE_P.

Lemma mk_pte_spec pa perm :
  pa mod PGSIZE = 0 -> 0 <= perm < PGSIZE ->
  PTE_ADDR (mk_pte pa perm) = pa /\ tst (mk_pte pa perm) PTE_P = true /\
  pa <= mk_pte pa perm < pa + PGSIZE.
Proof.
  intros Hpa Hp. assert (Hlt : 0 <= Z.lor perm PTE_P < PGSIZE).
  { split; [apply Z.lor_nonneg; unfold PTE_P; lia|]. unfold PGSIZE in *. change 4096 with (2 ^ 12).
    destruct (decide (Z.lor perm PTE_P = 0)) as [->|]; [lia|].
    apply Z.log2_lt_pow2; [pose proof (proj2 (Z.lor_nonneg perm PTE_P) ltac:(unfold PTE_P; lia)); lia|].
    rewrite Z.log2_lor by (unfold PTE_P; lia). apply Z.max_lub_lt; [|simpl; lia].
    destruct (decide (perm = 0)) as [->|]; [simpl; lia|]. apply Z.log2_lt_pow2; lia. }
  assert (E : mk_pte pa perm = pa + Z.lor perm PTE_P).
  { unfold mk_pte. rewrite <- Z.lor_assoc. by apply lor_aligned. }
  split_and!; [|by apply tst_lor_same|lia|lia].
  rewrite E, PTE_ADDR_spec. pg_lia.
Qed.

Lemma tst_mk_pte pa perm b :
  pa mod PGSIZE = 0 -> 0 <= b < PGSIZE -> Z.land PTE_P b = 0 -> tst (mk_pte pa perm) b = tst perm b.
Proof.
  intros Hpa Hb HP. unfold mk_pte. rewrite tst_lor_other by done. unfold tst.
  rewrite Z.land_lor_distr_l, land_aligned by done. by rewrite Z.lor_0_l.
Qed.

(** Entry [i] of the directory or table at [t]. *)
Definition ent (k : kmem) (t i : Z) : Z := word k (t + 4 * i).

Lemma ent_unfold k t i : 0 <= t -> t mod PGSIZE = 0 -> 0 <= i < 1024 -> ent k t i = ldw 4 (page k t) (Z.to_nat (4 * i)).
Proof.
  intros Ht Ha Hi. unfold ent, word. rewrite PGROUNDDOWN_spec by lia.
  replace ((t + 4 * i) mod PGSIZE) with (4 * i) by pg_lia. do 2 f_equal. lia.
Qed.

Lemma set_word_unfold k t i v :
  0 <= t -> t mod PGSIZE = 0 -> 0 <= i < 1024 ->
  set_word (t + 4 * i) v k = set_page t (stw 4 (Z.to_nat (4 * i)) v (page k t)) k.
Proof.
  intros Ht Ha Hi. unfold set_word. rewrite PGROUNDDOWN_spec by lia.
  replace ((t + 4 * i) mod PGSIZE) with (4 * i) by pg_lia.
  by replace (t + 4 * i - 4 * i) with t by lia.
Qed.

Lemma ent_set k t i v t' i' :
  0 <= t -> 0 <= t' -> t mod PGSIZE = 0 -> t' mod PGSIZE = 0 -> 0 <= i < 1024 -> 0 <= i' < 1024 ->
  length (page k t) = PGLEN -> 0 <= v < 2 ^ 32 ->
  ent (set_word (t + 4 * i) v k) t' i' = if decide (t = t' /\ i = i') then v else ent k t' i'.
Proof.
  intros H1 H1' H2 H2' H3 H3' Hl Hv. rewrite set_word_unfold by done. rewrite ent_unfold by done.
  assert (Hb : forall j, 0 <= j < 1024 -> (Z.to_nat (4 * j) + 4 <= length (page k t))%nat)
    by (intros; rewrite Hl; unfold PGLEN, PGSIZE; lia).
  destruct (decide (t = t')) as [<-|Hne].
  - rewrite page_set_eq. destruct (decide (t = t /\ i = i')) as [[_ <-]|Hii].
    + rewrite ldw_stw_same by auto. apply Z.mod_small. done.
    + rewrite ldw_stw_other by (auto || lia). by rewrite ent_unfold.
  - rewrite page_set_ne by done. destruct (decide (t = t' /\ i = i')) as [[? _]|_]; [done|].
    by rewrite ent_unfold.
Qed.

Lemma page_set_word k t i v a :
  0 <= t -> t mod PGSIZE = 0 -> 0 <= i < 1024 -> a <> t -> page (set_word (t + 4 * i) v k) a = page k a.
Proof. intros. rewrite set_word_unfold by done. by apply page_set_ne. Qed.

Lemma length_page_set_word k t i v a :
  0 <= t -> t mod PGSIZE = 0 -> 0 <= i < 1024 -> length (page k t) = PGLEN ->
  length (page k a) = PGLEN -> length (page (set_word (t + 4 * i) v k) a) = PGLEN.
Proof.
  intros H1 H2 H3 Ht Ha. rewrite set_word_unfold by done. destruct (decide (a = t)) as [->|].
  - rewrite page_set_eq, length_stw; [done|]. rewrite Ht. unfold PGLEN, PGSIZE. lia.
  - by rewrite page_set_ne.
Qed.

(** ** Representation *)

Definition pde_of (t : Z) : Z := Z.lor (Z.lor (Z.lor t PTE_P) PTE_W) PTE_U.

Lemma pde_of_spec t :
  t mod PGSIZE = 0 -> PTE_ADDR (pde_of t) = t /\ tst (pde_of t) PTE_P = true /\ pde_of t = t + 7.
Proof.
  intros Ht. unfold pde_of. rewrite <- !Z.lor_assoc. change (Z.lor PTE_P (Z.lor PTE_W PTE_U)) with 7.
  assert (E : Z.lor t 7 = t + 7) by (apply lor_aligned; [done|unfold PGSIZE; lia]).
  split_and!; [|..|done].
  - rewrite E, PTE_ADDR_spec. pg_lia.
  - unfold tst. rewrite Z.land_lor_distr_l, land_aligned by (done || unfold PGSIZE, PTE_P; lia). done.
Qed.

Lemma ldw_zeros n j i : ldw n (replicate j (u8 0)) i = 0.
Proof.
  unfold ldw, slice. rewrite drop_replicate, take_replicate.
  generalize (n `min` (j - i))%nat. intros q. induction q as [|q IH]; [done|]. simpl. by rewrite IH.
Qed.

Section Rep.
Context (kend : Z) (Hkend : 0 < kend).
Abbreviation allocatable := (allocatable kend).
Abbreviation kinv := (kinv kend).
Implicit Types (k : kmem) (T m : gmap Z Z) (l o : list Z).

Lemma allocatable_page a : allocatable a -> 0 < a /\ a mod PGSIZE = 0 /\ a < PHYSTOP.
Proof using Hkend. intros [Ha Hr]. lia. Qed.

(** The entry word of virtual page [v] in a table, given what [m] says. *)
Definition entry_ok (w : Z) (e : option Z) : Prop :=
  match e with Some e => w = e /\ tst e PTE_P = true | None => tst w PTE_P = false end.

Record pt k pgdir T m : Prop := Pt {
  pt_dir : allocatable pgdir /\ length (page k pgdir) = PGLEN;
  pt_pde : forall i, 0 <= i < 1024 ->
    match T !! i with Some t => ent k pgdir i = pde_of t | None => tst (ent k pgdir i) PTE_P = false end;
  pt_tab : forall i t, T !! i = Some t ->
    0 <= i < 1024 /\ allocatable t /\ length (page k t) = PGLEN /\ t <> pgdir;
  pt_inj : forall i j t, T !! i = Some t -> T !! j = Some t -> i = j;
  pt_pte : forall v, 0 <= v < 2 ^ 20 ->
    match T !! (v / 1024) with
    | Some t => entry_ok (ent k t (v mod 1024)) (m !! v)
    | None => m !! v = None
    end;
  pt_dom : forall v e, m !! v = Some e -> 0 <= v < 2 ^ 20
}.

Definition tabs T : list Z := (map_to_list T).*2.

Lemma elem_of_tabs T t : t ∈ tabs T <-> exists i, T !! i = Some t.
Proof.
  unfold tabs. rewrite list_elem_of_fmap. split.
  - intros ([i t'] & -> & Hin). apply elem_of_map_to_list in Hin. eauto.
  - intros [i Hi]. exists (i, t). split; [done|]. by apply elem_of_map_to_list.
Qed.

Lemma tabs_insert T i t : T !! i = None -> tabs (<[i := t]> T) ≡ₚ t :: tabs T.
Proof. intros Hi. unfold tabs. by rewrite map_to_list_insert. Qed.

(** Directory, tables, pages of others and free list. *)
Record vmst k l pgdir T m o : Prop := Vmst {
  vs_pt : pt k pgdir T m;
  vs_free : kinv k l;
  vs_own : NoDup (pgdir :: tabs T ++ o ++ l)
}.

Lemma vmst_perm k l pgdir T m o o' : o ≡ₚ o' -> vmst k l pgdir T m o -> vmst k l pgdir T m o'.
Proof. intros E [H1 H2 H3]. split; [done|done|]. by rewrite <- E. Qed.

Lemma pt_frame k k' pgdir T m :
  (forall a, a = pgdir \/ a ∈ tabs T -> page k' a = page k a) -> pt k pgdir T m -> pt k' pgdir T m.
Proof.
  intros Hf [H1 H2 H3 H4 H5 H6].
  assert (He : forall t i, t = pgdir \/ t ∈ tabs T -> 0 <= t -> t mod PGSIZE = 0 -> 0 <= i < 1024 -> ent k' t i = ent k t i).
  { intros t i Ht H0 Hm Hi. rewrite !ent_unfold by done. by rewrite Hf. }
  constructor; try done.
  - rewrite Hf by auto. done.
  - intros i Hi. specialize (H2 i Hi). destruct H1 as [[Hal Hr] _]. rewrite He by (auto; lia). done.
  - intros i t Hi. rewrite Hf; [by apply (H3 i)|]. right. apply elem_of_tabs. eauto.
  - intros v Hv. specialize (H5 v Hv). destruct (T !! (v / 1024)) as [t|] eqn:E; [|done].
    destruct (H3 _ _ E) as (_ & [Hal Hr] & _). rewrite He; [done| |lia|done|pg_lia].
    right. apply elem_of_tabs. eauto.
Qed.

Lemma kinv_frame k k' l : (forall a, a ∈ l -> page k' a = page k a) -> freelist k' = freelist k -> kinv k l -> kinv k' l.
Proof. intros Hf E (H1 & H2 & H3). split; [|done]. rewrite E. by eapply chain_frame. Qed.

(** Changing a page of others. *)
Lemma vmst_other k l pgdir T m o a p :
  a ∈ o -> vmst k l pgdir T m o -> vmst (set_page a p k) l pgdir T m o.
Proof.
  intros Ha [H1 H2 H3]. apply NoDup_cons in H3 as [Hp H3]. pose proof H3 as (N1 & D1 & N2)%NoDup_app.
  pose proof N2 as (N3 & D2 & N4)%NoDup_app. split; [| |by constructor].
  - eapply pt_frame; [|done]. intros b Hb. apply page_set_ne. intros ->. destruct Hb as [->|Hb]; [set_solver|].
    apply (D1 b Hb). set_solver.
  - apply (kinv_frame k); [|done|done]. intros b Hb. apply page_set_ne. intros ->. by apply (D2 b).
Qed.

(** ** walkpgdir *)

Definition slot T (va : Z) : Z :=
  match T !! PDX va with Some t => t + 4 * PTX va | None => 0 end.

Lemma walk_find_wp k pgdir T m va (Q : Z -> kmem -> Prop) :
  pt k pgdir T m -> 0 <= va < 2 ^ 32 -> Q (slot T va) k -> wp (walkpgdir pgdir va false) Q k.
Proof using Hkend.
  intros Hpt Hva HQ. unfold walkpgdir. wp_step. wp_step. fold (ent k pgdir (PDX va)).
  unfold slot in HQ. rewrite PDX_spec in * by done.
  pose proof (pt_pde _ _ _ _ Hpt (va / PGSIZE / 1024) ltac:(pg_lia)) as Hp.
  destruct (T !! (va / PGSIZE / 1024)) as [t|] eqn:E.
  - destruct (pt_tab _ _ _ _ Hpt _ _ E) as (_ & [Hal _] & _).
    destruct (pde_of_spec t Hal) as (HA & HP & _). rewrite Hp, HP, HA. by wp_step.
  - rewrite Hp. by wp_step.
Qed.

(** A zeroed page [t] becomes the table of directory index [i]. *)
Lemma new_table k l pgdir T m o i t :
  vmst k l pgdir T m o -> allocatable t -> t ∉ pgdir :: tabs T ++ o ++ l ->
  0 <= i < 1024 -> T !! i = None ->
  vmst (set_word (pgdir + 4 * i) (pde_of t) (set_page t (replicate PGLEN (u8 0)) k)) l pgdir (<[i := t]> T) m o.
Proof using Hkend.
  intros [Hpt Hk Hnd] Ht Hfresh Hi HT. set (k1 := set_page t (replicate PGLEN (u8 0)) k).
  destruct (allocatable_page _ Ht) as (Ht0 & Hta & HtP). destruct (pt_dir _ _ _ _ Hpt) as [Hpd Hlen].
  destruct (allocatable_page _ Hpd) as (Hp0 & Hpa & HpP). destruct (pde_of_spec t Hta) as (_ & HP & Hv).
  assert (Hpt1 : pt k1 pgdir T m).
  { eapply pt_frame; [|done]. intros a Ha. apply page_set_ne. set_solver. }
  assert (Hw : 0 <= pde_of t < 2 ^ 32) by (unfold PHYSTOP in *; lia).
  assert (Hl1 : length (page k1 pgdir) = PGLEN) by apply (pt_dir _ _ _ _ Hpt1).
  assert (Hpg : forall a, a <> pgdir -> page (set_word (pgdir + 4 * i) (pde_of t) k1) a = page k1 a)
    by (intros a Ha; apply page_set_word; lia || done).
  split.
  - constructor.
    + split; [done|]. apply length_page_set_word; lia || done.
    + intros j Hj. rewrite ent_set by (lia || done). rewrite lookup_insert.
      destruct (decide (i = j)) as [<-|Hne]; [by rewrite decide_True by done|].
      rewrite decide_False by naive_solver. by apply (pt_pde _ _ _ _ Hpt1).
    + intros j t'. rewrite lookup_insert. destruct (decide (i = j)) as [<-|Hne].
      * intros [= <-]. assert (t <> pgdir) by set_solver. rewrite Hpg by done. unfold k1.
        rewrite page_set_eq, length_replicate. done.
      * intros Hj. destruct (pt_tab _ _ _ _ Hpt1 _ _ Hj) as (? & ? & ? & ?). by rewrite Hpg.
    + intros j j' t'. rewrite !lookup_insert. pose proof (pt_inj _ _ _ _ Hpt j j' t') as Hinj.
      destruct (decide (i = j)), (decide (i = j')); intros E E'; simplify_eq; try done; auto;
        destruct Hfresh; apply list_elem_of_further, elem_of_app; left; apply elem_of_tabs; eauto.
    + intros v Hv'. pose proof (pt_pte _ _ _ _ Hpt1 v Hv') as Hpte. rewrite lookup_insert.
      destruct (decide (i = v / 1024)) as [Ei|Hne].
      * rewrite <- Ei, HT in Hpte. rewrite Hpte. simpl. rewrite ent_unfold by (lia || pg_lia).
        assert (t <> pgdir) by set_solver. rewrite Hpg by done. unfold k1. rewrite page_set_eq.
        by rewrite ldw_zeros.
      * destruct (T !! (v / 1024)) as [t'|] eqn:E; [|done].
        destruct (pt_tab _ _ _ _ Hpt1 _ _ E) as (? & Ht' & ? & ?).
        destruct (allocatable_page _ Ht') as (? & ? & ?).
        rewrite ent_set by (done || lia || pg_lia). rewrite decide_False by (intros [? _]; done). done.
    + apply (pt_dom _ _ _ _ Hpt).
  - apply (kinv_frame k1); [|done|].
    + intros a Ha. apply Hpg. intros ->. apply NoDup_cons in Hnd as [Hn _]. set_solver.
    + apply (kinv_frame k); [|done|done]. intros a Ha. apply page_set_ne. set_solver.
  - rewrite tabs_insert by done. simpl. rewrite (Permutation_swap t pgdir). by constructor.
Qed.

(** What changes while tables are added: tables come from the free list and
    pages of others are left alone. *)
Record grown k l T o k' l' T' : Prop := Grown {
  gr_sub : T ⊆ T';
  gr_pages : tabs T' ++ l' ≡ₚ tabs T ++ l;
  gr_frame : forall a, a ∈ o -> page k' a = page k a
}.

Lemma grown_refl k l T o : grown k l T o k l T.
Proof. by constructor. Qed.

Lemma grown_trans k l T o k1 l1 T1 k2 l2 T2 :
  grown k l T o k1 l1 T1 -> grown k1 l1 T1 o k2 l2 T2 -> grown k l T o k2 l2 T2.
Proof.
  intros [S1 P1 F1] [S2 P2 F2]. constructor; [by transitivity T1|by rewrite P2|].
  intros a Ha. rewrite F2, F1; done.
Qed.

Lemma grown_frame k l T o k' l' T' k'' :
  grown k l T o k' l' T' -> (forall a, a ∈ o -> page k'' a = page k' a) -> grown k l T o k'' l' T'.
Proof. intros [S1 P1 F1] F. constructor; [done|done|]. intros a Ha. rewrite F, F1; done. Qed.

Lemma walk_create_wp k l pgdir T m o va (Q : Z -> kmem -> Prop) :
  vmst k l pgdir T m o -> 0 <= va < 2 ^ 32 ->
  (forall k' l' T' t, vmst k' l' pgdir T' m o -> grown k l T o k' l' T' ->
     T' !! PDX va = Some t -> (forall i t', T' !! i = Some t' -> T !! i = Some t' \/ i = PDX va) ->
     Q (t + 4 * PTX va) k') ->
  (forall k', T !! PDX va = None -> l = [] -> vmst k' [] pgdir T m o ->
     (forall a, page k' a = page k a) -> Q 0 k') ->
  wp (walkpgdir pgdir va true) Q k.
Proof using Hkend.
  intros Hs Hva HQ HQ0. pose proof Hs as [Hpt Hk Hnd]. unfold walkpgdir. wp_step. wp_step.
  fold (ent k pgdir (PDX va)).
  assert (Hi : 0 <= PDX va < 1024) by (rewrite PDX_spec by done; pg_lia).
  pose proof (pt_pde _ _ _ _ Hpt (PDX va) Hi) as Hp. destruct (T !! PDX va) as [t|] eqn:E.
  - destruct (pt_tab _ _ _ _ Hpt _ _ E) as (_ & [Hal _] & _).
    destruct (pde_of_spec t Hal) as (HA & HP & _). rewrite Hp, HP, HA. wp_step.
    eapply HQ; [done|apply grown_refl|done|]. auto.
  - rewrite Hp. cbv [negb]. wp_step. eapply wp_mono; [by eapply kalloc_wp|].
    intros r k1 [Hpg Hr]. assert (Hsame : forall a, page k1 a = page k a) by (intros a; unfold page; by rewrite Hpg).
    destruct l as [|t l].
    + destruct Hr as [-> Hk1]. rewrite Z.eqb_refl. wp_step. apply HQ0; try done.
      split; [by apply (pt_frame k); auto|done|done].
    + destruct Hr as (-> & Ht0 & Hk1). rewrite (proj2 (Z.eqb_neq t 0)) by done.
      unfold memset_page. do 4 wp_step.
      assert (Hp2 : pgdir :: tabs T ++ o ++ t :: l ≡ₚ t :: pgdir :: tabs T ++ o ++ l) by solve_Permutation.
      rewrite Hp2 in Hnd. apply NoDup_cons in Hnd as [Hfresh Hnd].
      pose proof Hk as (_ & _ & Hall). inversion_clear Hall as [|? ? Hat _].
      assert (Hs1 : vmst k1 l pgdir T m o) by (split; [by apply (pt_frame k); auto|done|done]).
      pose proof (new_table k1 l pgdir T m o _ t Hs1 Hat Hfresh Hi E) as Hs2.
      apply (HQ _ _ _ t Hs2); [|apply lookup_insert_eq|].
      * constructor; [by apply insert_subseteq|rewrite tabs_insert by done; by rewrite <- Permutation_middle|].
        intros a Ha. destruct (allocatable_page _ (proj1 (pt_dir _ _ _ _ Hpt))) as (? & ? & ?).
        apply NoDup_cons in Hnd as [Hn _].
        assert (a <> pgdir) by (intros ->; apply Hn; rewrite !elem_of_app; auto).
        assert (a <> t) by (intros ->; apply Hfresh; rewrite elem_of_cons, !elem_of_app; auto).
        rewrite page_set_word, page_set_ne by (lia || done). apply Hsame.
      * intros j t' Hj. apply lookup_insert_Some in Hj as [[<- _]|[_ ?]]; auto.
Qed.

(** Writing the entry of virtual page [v]. *)
Lemma set_entry k l pgdir T m o v t w e :
  vmst k l pgdir T m o -> 0 <= v < 2 ^ 20 -> T !! (v / 1024) = Some t ->
  0 <= w < 2 ^ 32 -> entry_ok w e ->
  vmst (set_word (t + 4 * (v mod 1024)) w k) l pgdir T (partial_alter (fun _ => e) v m) o /\
  (forall a, a <> t -> page (set_word (t + 4 * (v mod 1024)) w k) a = page k a) /\ t ∈ tabs T.
Proof using Hkend.
  intros [Hpt Hk Hnd] Hv Ht Hw He.
  destruct (pt_tab _ _ _ _ Hpt _ _ Ht) as (_ & Hta & Hlen & Hne).
  destruct (allocatable_page _ Hta) as (Ht0 & Htm & _). destruct (pt_dir _ _ _ _ Hpt) as [Hpd Hplen].
  destruct (allocatable_page _ Hpd) as (Hp0 & Hpm & _).
  assert (Hmod : 0 <= v mod 1024 < 1024) by pg_lia.
  assert (Hin : t ∈ tabs T) by (apply elem_of_tabs; eauto).
  assert (Hpg : forall a, a <> t -> page (set_word (t + 4 * (v mod 1024)) w k) a = page k a)
    by (intros a Ha; apply page_set_word; lia || done).
  split; [|done]. split; [| |done].
  - constructor.
    + split; [done|]. rewrite Hpg; done.
    + intros i Hi. rewrite ent_set by (lia || done). rewrite decide_False by naive_solver.
      by apply (pt_pde _ _ _ _ Hpt).
    + intros i t' Hi. destruct (pt_tab _ _ _ _ Hpt _ _ Hi) as (? & ? & ? & ?).
      split_and!; try done; try lia. apply length_page_set_word; lia || done.
    + apply (pt_inj _ _ _ _ Hpt).
    + intros u Hu. pose proof (pt_pte _ _ _ _ Hpt u Hu) as Hpte.
      destruct (T !! (u / 1024)) as [t'|] eqn:Et.
      * destruct (pt_tab _ _ _ _ Hpt _ _ Et) as (Hi & Ht' & _).
        destruct (allocatable_page _ Ht') as (? & ? & ?).
        rewrite ent_set by (done || lia || pg_lia). rewrite lookup_partial_alter.
        destruct (decide (v = u)) as [<-|Hvu]; [rewrite decide_True by naive_solver; done|].
        rewrite decide_False; [done|]. intros [<- Em].
        pose proof (pt_inj _ _ _ _ Hpt _ _ _ Ht Et). pg_lia.
      * rewrite lookup_partial_alter_ne; [done|]. intros <-. congruence.
    + intros u e'. rewrite lookup_partial_alter. destruct (decide (v = u)) as [<-|]; [done|].
      apply (pt_dom _ _ _ _ Hpt).
  - apply (kinv_frame k); [|done|done]. intros a Ha. apply Hpg. intros ->.
    apply NoDup_cons in Hnd as [_ Hnd]. apply NoDup_app in Hnd as (_ & D & _). apply (D t Hin). set_solver.
Qed.

(** ** mappages *)

(** Pages [v0 .. v0 + n) of [m'] map to consecutive frames from [pa]. *)
Definition ranged (m : gmap Z Z) (v0 n pa perm : Z) (m' : gmap Z Z) : Prop :=
  forall v, m' !! v = if (v0 <=? v) && (v <? v0 + n) then Some (mk_pte (pa + PGSIZE * (v - v0)) perm) else m !! v.

Lemma ranged_step m v0 n pa perm m' :
  0 <= n -> ranged m v0 n pa perm m' ->
  ranged m v0 (n + 1) pa perm (<[v0 + n := mk_pte (pa + PGSIZE * n) perm]> m').
Proof.
  intros Hn Hr v. rewrite lookup_insert. destruct (decide (v0 + n = v)) as [<-|Hne].
  - replace ((v0 <=? v0 + n) && (v0 + n <? v0 + (n + 1))) with true by lia. do 2 f_equal. lia.
  - rewrite Hr. replace (v <? v0 + (n + 1)) with (v <? v0 + n) by lia. done.
Qed.

Lemma mappages_wp k l pgdir T m o v0 n pa perm (Q : Z -> kmem -> Prop) :
  vmst k l pgdir T m o -> 0 <= v0 -> 0 < n -> v0 + n <= 2 ^ 20 ->
  pa mod PGSIZE = 0 -> 0 <= pa -> pa + PGSIZE * n <= 2 ^ 32 -> 0 <= perm < PGSIZE ->
  (forall v, v0 <= v < v0 + n -> m !! v = None) ->
  let new := fun i => v0 / 1024 <= i <= (v0 + n - 1) / 1024 in
  (forall k' l' T' m', vmst k' l' pgdir T' m' o -> grown k l T o k' l' T' -> ranged m v0 n pa perm m' ->
     (forall i t', T' !! i = Some t' -> T !! i = Some t' \/ new i) ->
     (forall i, new i -> is_Some (T' !! i)) -> Q 0 k') ->
  (forall k' T' m' i, vmst k' [] pgdir T' m' o -> grown k l T o k' [] T' ->
     (forall i t', T' !! i = Some t' -> T !! i = Some t' \/ new i) -> new i -> T' !! i = None -> Q (-1) k') ->
  wp (mappages pgdir (PGSIZE * v0) (PGSIZE * n) pa perm) Q k.
Proof using Hkend.
  intros Hs Hv0 Hn Hmax Hpa Hpa0 Hpam Hperm Hnone new HQ HQ1. unfold mappages. cbv zeta.
  rewrite (u32_small (PGSIZE * v0 + PGSIZE * n - 1)) by pg_lia. rewrite !PGROUNDDOWN_spec by pg_lia.
  replace (PGSIZE * v0 - (PGSIZE * v0) mod PGSIZE) with (PGSIZE * v0) by pg_lia.
  set (last := PGSIZE * v0 + PGSIZE * n - 1 - (PGSIZE * v0 + PGSIZE * n - 1) mod PGSIZE).
  assert (Hlast : last = PGSIZE * (v0 + n - 1)) by (unfold last; pg_lia).
  rewrite u32_small by pg_lia. rewrite Hlast.
  apply (wp_loop (fun st k1 => exists j l1 T1 m1, st = (PGSIZE * (v0 + j), pa + PGSIZE * j) /\ 0 <= j < n /\
     vmst k1 l1 pgdir T1 m1 o /\ grown k l T o k1 l1 T1 /\ ranged m v0 j pa perm m1 /\
     (forall i t', T1 !! i = Some t' -> T !! i = Some t' \/ new i) /\
     (forall u, v0 <= u < v0 + j -> is_Some (T1 !! (u / 1024))))
    (fun st _ => Z.to_nat (v0 + n - 1 - st.1 / PGSIZE))).
  - intros st k1 (j & l1 & T1 & m1 & -> & Hj & Hs1 & Hg & Hr & Hnew & Hall).
    assert (Hva : 0 <= PGSIZE * (v0 + j) < 2 ^ 32) by pg_lia.
    assert (Hx : PDX (PGSIZE * (v0 + j)) = (v0 + j) / 1024) by (rewrite PDX_spec by done; f_equal; pg_lia).
    assert (Hy : PTX (PGSIZE * (v0 + j)) = (v0 + j) mod 1024) by (rewrite PTX_spec; f_equal; pg_lia).
    assert (Hnewj : new ((v0 + j) / 1024)) by (unfold new; pg_lia).
    wp_step. eapply walk_create_wp; [done|done| |]; rewrite Hx, ?Hy.
    + intros k2 l2 T2 t Hs2 Hg2 Ht Hnew2.
      destruct (pt_tab _ _ _ _ (vs_pt _ _ _ _ _ _ Hs2) _ _ Ht) as (_ & Hta & _ & _).
      destruct (allocatable_page _ Hta) as (Ht0 & _ & _).
      replace (t + 4 * ((v0 + j) mod 1024) =? 0) with false by pg_lia.
      wp_step. wp_step.
      pose proof (pt_pte _ _ _ _ (vs_pt _ _ _ _ _ _ Hs2) (v0 + j) ltac:(pg_lia)) as Hp.
      rewrite Ht, (Hr (v0 + j)) in Hp. replace ((v0 <=? v0 + j) && (v0 + j <? v0 + j)) with false in Hp by lia.
      rewrite (Hnone (v0 + j)) in Hp by lia. simpl in Hp. fold (ent k2 t ((v0 + j) mod 1024)). rewrite Hp.
      destruct (mk_pte_spec (pa + PGSIZE * j) perm) as (_ & HP & Hval); [pg_lia|done|].
      wp_step. wp_step. fold (mk_pte (pa + PGSIZE * j) perm).
      destruct (set_entry k2 l2 pgdir T2 m1 o (v0 + j) t (mk_pte (pa + PGSIZE * j) perm)
        (Some (mk_pte (pa + PGSIZE * j) perm))) as (Hs3 & Hfr & Htin); try done; [pg_lia|pg_lia|].
      apply (ranged_step _ _ _ _ _ _ (proj1 Hj)) in Hr. pose proof (vs_own _ _ _ _ _ _ Hs2) as Hown.
      apply NoDup_cons in Hown as [_ Hown]. apply NoDup_app in Hown as (_ & Hdis & _).
      assert (Hg3 : grown k l T o (set_word (t + 4 * ((v0 + j) mod 1024)) (mk_pte (pa + PGSIZE * j) perm) k2) l2 T2).
      { eapply grown_frame; [by eapply grown_trans|]. intros a Ha. apply Hfr. intros ->.
        apply (Hdis t Htin), elem_of_app. by left. }
      assert (Hnew3 : forall i t', T2 !! i = Some t' -> T !! i = Some t' \/ new i).
      { intros i t' Hi. destruct (Hnew2 _ _ Hi) as [?|E]; [|rewrite E]; auto. }
      assert (Hall3 : forall u, v0 <= u < v0 + (j + 1) -> is_Some (T2 !! (u / 1024))).
      { intros u Hu. destruct (decide (u = v0 + j)) as [->|]; [eauto|].
        destruct (Hall u ltac:(lia)) as [t' Ht']. exists t'. eapply lookup_weaken; [done|apply Hg2]. }
      wp_step; wp_step.
      * replace (j + 1) with n in * by pg_lia. eapply HQ; try done.
        intros i [Hi1 Hi2]. replace i with (Z.max v0 (i * 1024) / 1024) by pg_lia. apply Hall3. pg_lia.
      * rewrite !u32_small by pg_lia. split; [|simpl; pg_lia].
        exists (j + 1), l2, T2, (<[v0 + j := mk_pte (pa + PGSIZE * j) perm]> m1).
        split; [f_equal; lia|]. split; [pg_lia|]. done.
    + intros k2 Hnone2 -> Hs2 Hsame. rewrite Z.eqb_refl. wp_step. eapply HQ1; try done.
      eapply grown_frame; [done|auto].
  - exists 0, l, T, m. split; [f_equal; lia|]. split; [lia|]. split; [done|]. split; [apply grown_refl|].
    split; [|split; [auto|intros u ?; lia]].
    intros v. by replace ((v0 <=? v) && (v <? v0 + 0)) with false by lia.
  - simpl. pg_lia.
Qed.
End Rep.
