(* ===== verification/VmUser.v ===== *)
(** * User memory: allocuvm, deallocuvm, copyuvm, freevm, copyout in [src/vm.c]

    [uvm] describes the address space of a process: the frames [fr] of its
    pages in order, mapped user-writable from address 0 on, the kernel's part
    without user access, and all of it owned by nobody else.  The bytes of the
    process are those of its frames ([umem]). *)

From stdpp Require Import base numbers list gmap strings list_numbers.
From Stdlib Require Import Lia ZArith ZifyBool.
From S2P Require Import Prelude Kalloc Vm VmMap.
Open Scope Z_scope.

(** Number of pages of [sz] bytes. *)
Definition npages (sz : Z) : Z := (sz + PGSIZE - 1) / PGSIZE.

Lemma PGROUNDUP_npages sz : 0 <= sz <= 2 ^ 32 - PGSIZE -> PGROUNDUP sz = PGSIZE * npages sz.
Proof. intros H. destruct (PGROUNDUP_spec sz) as [H1 H2]; [unfold PGSIZE in *; lia|]. unfold npages. pg_lia. Qed.

(** ** The kernel's part of an address space *)

Definition UPAGES : Z := USERTOP / PGSIZE.

(** The lines of a [kmap] by virtual page: first page, number of pages, permissions. *)
Abbreviation line := (Z * Z * Z)%type.
Definition covers (x : line) (v : Z) : bool := let '(v0, n, _) := x in (v0 <=? v) && (v <? v0 + n).

Fixpoint line_perm (ks : list line) (v : Z) : option Z :=
  match ks with
  | [] => None
  | x :: ks => if covers x v then Some x.2 else line_perm ks v
  end.

Definition kernel_lines (kdata : Z) : list line :=
  [(160, 96, PTE_W); (256, kdata / PGSIZE - 256, 0);
   (kdata / PGSIZE, 4096 - kdata / PGSIZE, PTE_W); (0xFE000, 0x2000, PTE_W)].

(** The kernel's part of an address space: every page maps to itself. *)
Definition kernel_mapped (kdata : Z) (m : gmap Z Z) : Prop :=
  forall v, UPAGES <= v -> m !! v = mk_pte (PGSIZE * v) <$> line_perm (kernel_lines kdata) v.

Lemma kernel_no_user kdata m v e : kernel_mapped kdata m -> UPAGES <= v -> m !! v = Some e -> tst e PTE_U = false.
Proof.
  intros Hk Hv. rewrite (Hk v Hv). intros (perm & Hperm & ->)%fmap_Some.
  rewrite tst_mk_pte by (pg_lia || done). unfold kernel_lines in Hperm. simpl in Hperm.
  repeat case_match; simplify_eq; done.
Qed.

Section User.
Context (kend : Z) (Hkend : 0 < kend) (kdata : Z).
Abbreviation allocatable := (allocatable kend).
Abbreviation kinv := (kinv kend).
Abbreviation vmst := (vmst kend).
Abbreviation kfree := (kfree kend).
Implicit Types (k : kmem) (T m : gmap Z Z) (l o fr : list Z).

Lemma vmst_disjoint k l pgdir T m o a :
  vmst k l pgdir T m o -> a ∈ o -> a <> pgdir /\ a ∉ tabs T /\ a ∉ l.
Proof.
  intros [_ _ Hnd] Ha. apply NoDup_cons in Hnd as [Hp Hnd]. apply NoDup_app in Hnd as (_ & D1 & Hnd).
  apply NoDup_app in Hnd as (_ & D2 & _). split_and!.
  - intros ->. apply Hp. rewrite !elem_of_app. auto.
  - intros Ht. apply (D1 a Ht), elem_of_app. by left.
  - intros Hl. by apply (D2 a).
Qed.

(** A page goes back to the free list, or comes from it. *)
Lemma vmst_free k l pgdir T m o f (Q : unit -> kmem -> Prop) :
  vmst k l pgdir T m (f :: o) -> allocatable f ->
  (forall k', vmst k' (f :: l) pgdir T m o -> (forall a, a <> f -> page k' a = page k a) -> Q tt k') ->
  wp (kfree f) Q k.
Proof using Hkend.
  intros Hs Hf HQ. destruct (vmst_disjoint _ _ _ _ _ _ f Hs) as (D1 & D2 & D3); [set_solver|].
  destruct Hs as [Hpt Hk Hnd]. eapply wp_mono; [by eapply kfree_wp|]. intros [] k' [Hk' Hfr].
  apply HQ; [|done]. split; [|done|].
  - apply (pt_frame kend Hkend k); [|done]. intros a Ha. apply Hfr. intros ->. destruct Ha as [->|?]; done.
  - by rewrite <- Permutation_middle.
Qed.

Lemma vmst_alloc k l pgdir T m o (Q : Z -> kmem -> Prop) :
  vmst k l pgdir T m o ->
  (forall k' f l', l = f :: l' -> vmst k' l' pgdir T m (f :: o) -> allocatable f -> f <> 0 ->
     (forall a, page k' a = page k a) -> Q f k') ->
  (forall k', l = [] -> vmst k' [] pgdir T m o -> (forall a, page k' a = page k a) -> Q 0 k') ->
  wp kalloc Q k.
Proof using Hkend.
  intros [Hpt Hk Hnd] HQ HQ0. pose proof Hk as (_ & _ & Hall).
  eapply wp_mono; [by eapply kalloc_wp|]. intros r k' [Hpg Hr].
  assert (Hsame : forall a, page k' a = page k a) by (intros a; unfold page; by rewrite Hpg).
  assert (Hpt' : pt kend k' pgdir T m) by (apply (pt_frame kend Hkend k); auto).
  destruct l as [|f l].
  - destruct Hr as [-> Hk']. by apply HQ0.
  - destruct Hr as (-> & H0 & Hk'). inversion_clear Hall as [|? ? Hf _]. apply (HQ k' f l); try done.
    split; [done|done|]. by rewrite <- Permutation_middle in Hnd.
Qed.

(** The slot of a user page and its entry. *)
Lemma slot_entry k l pgdir T m o v e :
  vmst k l pgdir T m o -> 0 <= v < 2 ^ 20 -> m !! v = Some e ->
  exists t, T !! (v / 1024) = Some t /\ slot T (PGSIZE * v) = t + 4 * (v mod 1024) /\
    t + 4 * (v mod 1024) <> 0 /\ word k (t + 4 * (v mod 1024)) = e /\ tst e PTE_P = true.
Proof using Hkend.
  intros [Hpt _ _] Hv Hm. pose proof (pt_pte _ _ _ _ _ Hpt v Hv) as Hp.
  destruct (T !! (v / 1024)) as [t|] eqn:Et; [|congruence]. rewrite Hm in Hp. exists t.
  destruct (pt_tab _ _ _ _ _ Hpt _ _ Et) as (_ & Ht & _). destruct (allocatable_page _ Hkend _ Ht) as (? & _).
  unfold slot. rewrite PDX_spec, PTX_spec by pg_lia.
  replace (PGSIZE * v / PGSIZE) with v by pg_lia. rewrite Et.
  split_and!; try done; [pg_lia|apply Hp..].
Qed.

Lemma slot_none k l pgdir T m o v :
  vmst k l pgdir T m o -> 0 <= v < 2 ^ 20 -> m !! v = None ->
  slot T (PGSIZE * v) = 0 \/ tst (word k (slot T (PGSIZE * v))) PTE_P = false.
Proof.
  intros [Hpt _ _] Hv Hm. pose proof (pt_pte _ _ _ _ _ Hpt v Hv) as Hp.
  unfold slot. rewrite PDX_spec, PTX_spec by pg_lia.
  replace (PGSIZE * v / PGSIZE) with v by pg_lia.
  destruct (T !! (v / 1024)) as [t|] eqn:Et; [|by left]. right. rewrite Hm in Hp. apply Hp.
Qed.

Definition PTE_UW : Z := Z.lor PTE_W PTE_U.

Lemma PTE_UW_range : 0 <= PTE_UW < PGSIZE.
Proof. by split. Qed.

Record uvm k l pgdir T m fr o : Prop := Uvm {
  u_vm : vmst k l pgdir T m (fr ++ o);
  u_tab0 : is_Some (T !! 0);
  u_len : Z.of_nat (length fr) <= UPAGES;
  u_map : forall i f, fr !! i = Some f -> m !! (Z.of_nat i) = Some (mk_pte f PTE_UW);
  u_none : forall v, Z.of_nat (length fr) <= v < UPAGES -> m !! v = None;
  u_kern : kernel_mapped kdata m;
  u_frames : forall f, f ∈ fr -> allocatable f /\ length (page k f) = PGLEN
}.

(** The process's memory. *)
Definition umem k fr : list Z := mjoin (page k <$> fr).

Lemma umem_ext k k' fr : (forall f, f ∈ fr -> page k' f = page k f) -> umem k' fr = umem k fr.
Proof.
  intros H. unfold umem. f_equal. apply list_fmap_ext. intros i f Hf. apply H. by eapply list_elem_of_lookup_2.
Qed.

Lemma umem_app k fr fr' : umem k (fr ++ fr') = umem k fr ++ umem k fr'.
Proof. unfold umem. by rewrite fmap_app, join_app. Qed.

(** New pages are zero. *)
Lemma umem_zero k fr : (forall f, f ∈ fr -> page k f = zero_page) -> umem k fr = replicate (length fr * PGLEN) 0.
Proof.
  intros Hz. induction fr as [|f fr IH]; [done|]. change (umem k (f :: fr)) with (page k f ++ umem k fr).
  rewrite IH, Hz by set_solver.
  change (length (f :: fr) * PGLEN)%nat with (PGLEN + length fr * PGLEN)%nat. by rewrite replicate_add.
Qed.

Lemma umem_grow k k' fr nf :
  (forall f, f ∈ fr -> page k' f = page k f) -> (forall f, f ∈ nf -> page k' f = zero_page) ->
  umem k' (fr ++ nf) = umem k fr ++ replicate (length nf * PGLEN) 0.
Proof. intros Hfr Hnf. rewrite umem_app. f_equal; [by apply umem_ext|by apply umem_zero]. Qed.

(** ** deallocuvm *)

(** What the loop has done when it is about to look at page [v]: the frames
    [gone] of the pages from [n] up to [v] are free. *)
Definition dealloc_inv k l pgdir T m keep gone o (n v : Z) k1 : Prop :=
  exists m1, let j := Z.to_nat (v - n) in
    vmst k1 (reverse (take j gone) ++ l) pgdir T m1 (drop j gone ++ keep ++ o) /\
    (forall u, m1 !! u = if (n <=? u) && (u <? v) then None else m !! u) /\
    (forall a, a ∈ drop j gone ++ keep ++ o -> page k1 a = page k a).

(** One round of the loop. *)
Lemma dealloc_page_wp k l pgdir T m keep gone o n v k1 (Q : unit -> kmem -> Prop) :
  0 <= n <= v -> v < UPAGES ->
  (forall u, n <= u < UPAGES -> m !! u = (fun f => mk_pte f PTE_UW) <$> gone !! Z.to_nat (u - n)) ->
  Forall allocatable gone ->
  dealloc_inv k l pgdir T m keep gone o n v k1 ->
  (forall k2, dealloc_inv k l pgdir T m keep gone o n (v + 1) k2 -> Q tt k2) ->
  wp (dealloc_page kend pgdir (PGSIZE * v)) Q k1.
Proof using Hkend.
  intros Hn Hv Hm Hall (m1 & Hs & Hm1 & Hfr) HQ. set (j := Z.to_nat (v - n)) in *.
  assert (Hj : Z.to_nat (v + 1 - n) = S j) by lia. assert (Hv20 : 0 <= v < 2 ^ 20) by (unfold UPAGES in *; pg_lia).
  assert (Hmv : m1 !! v = (fun f => mk_pte f PTE_UW) <$> gone !! j).
  { rewrite Hm1. replace ((n <=? v) && (v <? v)) with false by lia. apply Hm. lia. }
  unfold dealloc_page. wp_step. eapply walk_find_wp; [done|apply Hs|pg_lia|]. wp_step. wp_step.
  destruct (gone !! j) as [f|] eqn:Eg; simpl in Hmv.
  - rewrite Forall_lookup in Hall. pose proof (Hall _ _ Eg) as Hf.
    destruct (allocatable_page _ Hkend _ Hf) as (Hf0 & Hfm & _).
    destruct (slot_entry _ _ _ _ _ _ v _ Hs Hv20 Hmv) as (t & Ht & -> & Hnz & -> & HP).
    rewrite (proj2 (Z.eqb_neq _ 0) Hnz), HP. cbv [negb andb when].
    destruct (mk_pte_spec f PTE_UW) as (-> & _); [done|apply PTE_UW_range|]. cbv zeta.
    rewrite (proj2 (Z.eqb_neq f 0)) by lia. wp_step.
    rewrite (drop_S _ _ _ Eg) in Hs, Hfr. simpl in Hs.
    eapply vmst_free; [done|done|]. intros k2 Hs2 Hfr2. wp_step.
    destruct (set_entry kend Hkend k2 _ pgdir T m1 _ v t 0 None Hs2 Hv20 Ht) as (Hs3 & Hfr3 & Hin); [lia|done|].
    apply HQ. exists (delete v m1). cbv zeta. rewrite Hj, (take_S_r _ _ _ Eg), reverse_app. simpl.
    split; [done|]. split.
    + intros u. rewrite lookup_delete. destruct (decide (v = u)) as [<-|].
      * by replace ((n <=? v) && (v <? v + 1)) with true by lia.
      * rewrite Hm1. by replace (u <? v + 1) with (u <? v) by lia.
    + intros a Ha. destruct (vmst_disjoint _ _ _ _ _ _ _ Hs2 Ha) as (_ & D2 & D3).
      rewrite Hfr3 by (intros ->; done). rewrite Hfr2 by (intros ->; set_solver). apply Hfr. set_solver.
  - assert (E : negb (slot T (PGSIZE * v) =? 0) && tst (word k1 (slot T (PGSIZE * v))) PTE_P = false).
    { destruct (slot_none _ _ _ _ _ _ v Hs Hv20 Hmv) as [-> | ->]; [done|by rewrite andb_false_r]. }
    rewrite E. cbv [when]. wp_step. apply HQ. exists m1. cbv zeta. rewrite Hj.
    apply lookup_ge_None in Eg. rewrite take_ge, drop_ge in * by lia.
    split; [done|]. split; [|done]. intros u. rewrite Hm1.
    destruct (decide (u = v)) as [->|].
    + replace ((n <=? v) && (v <? v)) with false by lia. replace ((n <=? v) && (v <? v + 1)) with true by lia.
      rewrite Hm1 in Hmv. by replace ((n <=? v) && (v <? v)) with false in Hmv by lia.
    + by replace (u <? v + 1) with (u <? v) by lia.
Qed.

Lemma deallocuvm_wp k l pgdir T m fr o oldsz newsz (Q : Z -> kmem -> Prop) :
  uvm k l pgdir T m fr o -> 0 <= newsz < oldsz -> oldsz <= USERTOP ->
  Z.of_nat (length fr) <= npages oldsz ->
  (forall k' m', let n := Z.to_nat (npages newsz) in
     uvm k' (reverse (drop n fr) ++ l) pgdir T m' (take n fr) o ->
     (forall a, a ∈ take n fr ++ o -> page k' a = page k a) -> Q newsz k') ->
  wp (deallocuvm kend pgdir oldsz newsz) Q k.
Proof using Hkend.
  intros Hu Hsz Htop Hlen HQ. pose proof Hu as [Hs H0 Hl Hmap Hnone Hkern Hframes].
  set (n := npages newsz) in *. assert (Hn : 0 <= n <= UPAGES) by (unfold n, npages, UPAGES; pg_lia).
  set (keep := take (Z.to_nat n) fr) in *. set (gone := drop (Z.to_nat n) fr) in *.
  assert (Hfr : fr = keep ++ gone) by (symmetry; apply take_drop).
  assert (Hgone : forall u, n <= u < UPAGES -> m !! u = (fun f => mk_pte f PTE_UW) <$> gone !! Z.to_nat (u - n)).
  { intros u Hu'. unfold gone. rewrite lookup_drop. replace (Z.to_nat n + Z.to_nat (u - n))%nat with (Z.to_nat u) by lia.
    destruct (fr !! Z.to_nat u) as [f|] eqn:E; simpl.
    - apply Hmap in E. by rewrite Z2Nat.id in E by lia.
    - apply lookup_ge_None in E. apply Hnone. lia. }
  assert (Hall : Forall allocatable gone).
  { apply Forall_forall. intros f Hf. apply Hframes. rewrite Hfr. set_solver. }
  unfold deallocuvm. replace (oldsz <=? newsz) with false by lia. wp_step.
  rewrite PGROUNDUP_npages by pg_lia. fold n.
  apply (wp_loop (fun a k1 => exists v, a = PGSIZE * v /\ n <= v <= Z.max n (npages oldsz) /\
      dealloc_inv k l pgdir T m keep gone o n v k1)
    (fun a _ => Z.to_nat (npages oldsz - a / PGSIZE))).
  - intros a k1 (v & -> & Hv & Hi). wp_step; rename H into Hlt; wp_step.
    + assert (Hvn : v < npages oldsz) by (unfold npages in *; pg_lia).
      eapply dealloc_page_wp; [|  |exact Hgone|done|done|].
      * lia.
      * unfold npages, UPAGES in *; pg_lia.
      * intros k2 Hi2. wp_step. rewrite u32_small by (unfold npages in *; pg_lia).
        split; [|pg_lia]. exists (v + 1). split; [lia|]. split; [lia|done].
    + wp_step. destruct Hi as (m1 & Hs1 & Hm1 & Hpg).
      assert (Hv' : npages oldsz <= v) by (unfold npages in *; pg_lia).
      assert (Hlg : (length gone <= Z.to_nat (v - n))%nat) by (unfold gone; rewrite length_drop; lia).
      rewrite take_ge, drop_ge in Hs1 by done. rewrite drop_ge in Hpg by done.
      apply (HQ k1 m1); [|done]. constructor; try done.
      * unfold keep. rewrite length_take. lia.
      * intros i f Hi. rewrite Hm1. pose proof (lookup_lt_Some _ _ _ Hi) as Hi'.
        unfold keep in Hi, Hi'. rewrite length_take in Hi'. rewrite lookup_take_lt in Hi by lia.
        replace ((n <=? Z.of_nat i) && (Z.of_nat i <? v)) with false by lia. by apply Hmap.
      * intros u Hu'. rewrite Hm1. destruct ((n <=? u) && (u <? v)) eqn:E; [done|].
        apply Hnone. unfold keep in Hu'. rewrite length_take in Hu'. lia.
      * intros u Hu'. rewrite Hm1. replace ((n <=? u) && (u <? v)) with false; [by apply Hkern|].
        unfold npages, UPAGES in *. pg_lia.
      * intros f Hf. rewrite Hpg by set_solver. apply Hframes. rewrite Hfr. set_solver.
  - exists n. split; [done|]. split; [lia|]. exists m. cbv zeta. rewrite Z.sub_diag. simpl.
    split; [|split; [|done]].
    + apply (vmst_perm _ _ _ _ _ _ (fr ++ o)); [|done]. rewrite Hfr. solve_Permutation.
    + intros u. by replace ((n <=? u) && (u <? n)) with false by lia.
  - unfold npages in *. pg_lia.
Qed.

(** ** Adding a page *)

Lemma tables_same T T' :
  T ⊆ T' -> is_Some (T !! 0) -> (forall i t, T' !! i = Some t -> T !! i = Some t \/ i = 0) -> T' = T.
Proof.
  intros Hsub [t0 H0] Hnew. apply map_eq. intros i. destruct (T' !! i) as [t|] eqn:E.
  - destruct (Hnew i t E) as [H|Hi]; [done|]. subst i. rewrite H0. f_equal.
    pose proof (lookup_weaken _ _ _ _ H0 Hsub). congruence.
  - destruct (T !! i) as [t|] eqn:E'; [|done]. pose proof (lookup_weaken _ _ _ _ E' Hsub). congruence.
Qed.

(** Frame [f], owned, becomes the next page of the process.  The table of the
    first 4 MB is there, so nothing is allocated. *)
Lemma map_user_wp k l pgdir T m fr o f (Q : Z -> kmem -> Prop) :
  uvm k l pgdir T m fr (f :: o) -> allocatable f -> length (page k f) = PGLEN ->
  Z.of_nat (length fr) < UPAGES ->
  (forall k' l' m', l' ≡ₚ l -> uvm k' l' pgdir T m' (fr ++ [f]) o ->
     (forall a, a ∈ fr ++ f :: o -> page k' a = page k a) -> Q 0 k') ->
  wp (mappages pgdir (PGSIZE * Z.of_nat (length fr)) PGSIZE f (Z.lor PTE_W PTE_U)) Q k.
Proof using Hkend.
  intros [Hs H0 Hl Hmap Hnone Hkern Hframes] Hf Hlf Hlt HQ. set (n := Z.of_nat (length fr)) in *.
  destruct (allocatable_page _ Hkend _ Hf) as (Hf0 & Hfm & HfP).
  rewrite <- (Z.mul_1_r PGSIZE) at 2. fold PTE_UW.
  assert (Hnew : forall i, n / 1024 <= i <= (n + 1 - 1) / 1024 -> i = 0) by (unfold UPAGES in *; pg_lia).
  eapply (mappages_wp kend Hkend); [exact Hs|lia|lia|unfold UPAGES in *; pg_lia|done|lia|pg_lia|apply PTE_UW_range|..].
  - intros v Hv. apply Hnone. lia.
  - intros k' l' T' m' Hs' [Hsub Hpg Hfr] Hr HT _.
    assert (T' = T) as -> by (apply tables_same; [done|done|]; intros i t Hi; destruct (HT i t Hi); auto).
    apply Permutation_app_inv_l in Hpg. apply (HQ k' l' m'); [done| |done].
    assert (Hr' : forall v, m' !! v = if v =? n then Some (mk_pte f PTE_UW) else m !! v).
    { intros v. rewrite Hr. destruct (Z.eqb_spec v n) as [->|].
      - replace ((n <=? n) && (n <? n + 1)) with true by lia. do 2 f_equal. lia.
      - by replace ((n <=? v) && (v <? n + 1)) with false by lia. }
    constructor; try done.
    + by rewrite <- app_assoc.
    + rewrite length_app. simpl. lia.
    + intros i g Hi. rewrite Hr'. apply lookup_app_Some in Hi as [Hi|[Hi1 Hi2]].
      * pose proof (lookup_lt_Some _ _ _ Hi). replace (Z.of_nat i =? n) with false by lia. by apply Hmap.
      * apply list_lookup_singleton_Some in Hi2 as [Hi2 <-]. by replace (Z.of_nat i =? n) with true by lia.
    + intros v Hv. rewrite length_app in Hv. simpl in Hv. rewrite Hr'.
      replace (v =? n) with false by lia. apply Hnone. lia.
    + intros v Hv. rewrite Hr'. replace (v =? n) with false by lia. by apply Hkern.
    + intros g Hg. rewrite Hfr by set_solver. apply elem_of_app in Hg as [Hg|Hg]; [by apply Hframes|].
      by apply list_elem_of_singleton in Hg as ->.
  - intros k' T' m' i _ [Hsub _ _] _ Hi HT. exfalso. destruct H0 as [t0 Ht0].
    rewrite (Hnew i Hi) in HT. pose proof (lookup_weaken _ _ _ _ Ht0 Hsub). congruence.
Qed.

(** ** allocuvm *)

Lemma uvm_perm k l pgdir T m fr o o' : o ≡ₚ o' -> uvm k l pgdir T m fr o -> uvm k l pgdir T m fr o'.
Proof.
  intros E [Hs H0 Hl Hmap Hnone Hkern Hframes]. constructor; try done.
  eapply vmst_perm; [|done]. by rewrite E.
Qed.

(** Filling a page that is not the process's yet. *)
Lemma uvm_fill k l pgdir T m fr o f p :
  uvm k l pgdir T m fr (f :: o) -> uvm (set_page f p k) l pgdir T m fr (f :: o).
Proof using Hkend.
  intros [Hs H0 Hl Hmap Hnone Hkern Hframes]. constructor; try done.
  - apply (vmst_other kend Hkend); [set_solver|done].
  - intros g Hg. rewrite page_set_ne; [by apply Hframes|]. intros <-.
    destruct Hs as [_ _ Hnd]. apply NoDup_cons in Hnd as [_ Hnd]. apply NoDup_app in Hnd as (_ & _ & Hnd).
    apply NoDup_app in Hnd as (Hnd & _ & _). apply NoDup_app in Hnd as (_ & D & _). apply (D f Hg). set_solver.
Qed.

Lemma uvm_alloc k l pgdir T m fr o (Q : Z -> kmem -> Prop) :
  uvm k l pgdir T m fr o ->
  (forall k' f l', l = f :: l' -> uvm k' l' pgdir T m fr (f :: o) -> allocatable f -> f <> 0 ->
     (forall a, page k' a = page k a) -> Q f k') ->
  (forall k', l = [] -> uvm k' [] pgdir T m fr o -> (forall a, page k' a = page k a) -> Q 0 k') ->
  wp kalloc Q k.
Proof using Hkend.
  intros [Hs H0 Hl Hmap Hnone Hkern Hframes] HQ HQ0. eapply vmst_alloc; [done|..].
  - intros k' f l' E Hs' Hf Hf0 Hpg. apply (HQ k' f l'); try done. constructor; try done.
    + eapply vmst_perm; [|done]. by rewrite <- Permutation_middle.
    + intros g Hg. rewrite Hpg. by apply Hframes.
  - intros k' E Hs' Hpg. apply HQ0; try done. constructor; try done.
    intros g Hg. rewrite Hpg. by apply Hframes.
Qed.

Lemma allocuvm_wp k l pgdir T m fr o oldsz newsz (Q : Z -> kmem -> Prop) :
  uvm k l pgdir T m fr o -> 0 <= oldsz <= newsz -> newsz <= USERTOP ->
  Z.of_nat (length fr) = npages oldsz ->
  (forall k' l' m' nf, uvm k' l' pgdir T m' (fr ++ nf) o ->
     Z.of_nat (length (fr ++ nf)) = npages newsz -> nf ++ l' ≡ₚ l ->
     (forall a, a ∈ fr ++ o -> page k' a = page k a) -> (forall f, f ∈ nf -> page k' f = zero_page) ->
     Q newsz k') ->
  (forall k' l' m', Z.of_nat (length fr + length l) < npages newsz -> uvm k' l' pgdir T m' fr o -> l' ≡ₚ l ->
     (forall a, a ∈ fr ++ o -> page k' a = page k a) -> Q 0 k') ->
  wp (allocuvm kend pgdir oldsz newsz) Q k.
Proof using Hkend.
  intros Hu Hsz Htop Hlen HQ HQ0. unfold allocuvm.
  replace (USERTOP <? newsz) with false by lia. replace (newsz <? oldsz) with false by lia.
  rewrite PGROUNDUP_npages by pg_lia. rewrite <- Hlen.
  assert (Hmono : npages oldsz <= npages newsz <= UPAGES) by (unfold npages, UPAGES; pg_lia).
  apply (wp_loop (fun a k1 => exists nf l1 m1, a = PGSIZE * Z.of_nat (length (fr ++ nf)) /\
      Z.of_nat (length (fr ++ nf)) <= npages newsz /\ uvm k1 l1 pgdir T m1 (fr ++ nf) o /\ nf ++ l1 ≡ₚ l /\
      (forall a, a ∈ fr ++ o -> page k1 a = page k a) /\ (forall f, f ∈ nf -> page k1 f = zero_page))
    (fun a _ => Z.to_nat (npages newsz - a / PGSIZE))).
  - intros a k1 (nf & l1 & m1 & -> & Hle & Hu1 & Hp & Hfr & Hz). wp_step; rename H into Hlt.
    + assert (Hlt' : Z.of_nat (length (fr ++ nf)) < npages newsz) by (unfold npages in *; pg_lia).
      wp_step. eapply uvm_alloc; [done|..].
      * intros k2 f l2 -> Hu2 Hf Hf0 Hpg. rewrite (proj2 (Z.eqb_neq f 0)) by done.
        apply (uvm_fill _ _ _ _ _ _ _ _ zero_page) in Hu2. unfold memset_page. do 2 wp_step. wp_step.
        change (replicate PGLEN (u8 0)) with zero_page.
        eapply map_user_wp; [done|done|rewrite page_set_eq; apply length_replicate|lia|].
        intros k3 l3 m3 Hp3 Hu3 Hfr3. rewrite <- app_assoc in Hu3. wp_step.
        assert (Hnf : forall a, a ∈ fr ++ nf ++ o -> a <> f).
        { intros a Ha ->. pose proof (u_vm _ _ _ _ _ _ _ Hu2) as [_ _ Hnd].
          apply NoDup_cons in Hnd as [_ Hnd]. apply NoDup_app in Hnd as (_ & _ & Hnd).
          apply NoDup_app in Hnd as (Hnd & _ & _). rewrite <- Permutation_middle in Hnd.
          apply NoDup_cons in Hnd as [Hnd _]. apply Hnd. by rewrite <- app_assoc. }
        rewrite u32_small by (unfold npages, UPAGES in *; pg_lia).
        split; [|rewrite !length_app in *; simpl; pg_lia]. exists (nf ++ [f]), l3, m3.
        split; [rewrite !length_app in *; simpl; lia|]. split; [rewrite !length_app in *; simpl; lia|].
        split; [done|]. split; [rewrite Hp3, <- Hp; solve_Permutation|]. split.
        -- intros a Ha. rewrite Hfr3 by set_solver. rewrite page_set_ne by (apply not_eq_sym, Hnf; set_solver).
           rewrite Hpg. by apply Hfr.
        -- intros g Hg. apply elem_of_app in Hg as [Hg|Hg].
           ++ rewrite Hfr3 by set_solver. rewrite page_set_ne by (apply not_eq_sym, Hnf; set_solver).
              rewrite Hpg. by apply Hz.
           ++ apply list_elem_of_singleton in Hg as ->. rewrite Hfr3 by set_solver. apply page_set_eq.
      * intros k2 -> Hu2 Hpg. rewrite Z.eqb_refl. wp_step.
        assert (Hltsz : oldsz < newsz).
        { destruct (Z.eqb_spec oldsz newsz) as [->|]; [|lia]. rewrite length_app in Hlt'. lia. }
        eapply deallocuvm_wp; [done|lia|done|lia|]. cbv zeta. rewrite <- Hlen, Nat2Z.id.
        rewrite take_app_length, drop_app_length. intros k3 m3 Hu3 Hfr3. wp_step.
        rewrite app_nil_r in *. eapply HQ0; [|done| |].
        -- rewrite <- Hp. rewrite length_app in Hlt'. lia.
        -- by rewrite reverse_Permutation.
        -- intros a Ha. rewrite Hfr3 by done. rewrite Hpg. by apply Hfr.
    + wp_step. eapply HQ; try done. unfold npages in *. pg_lia.
  - exists [], l, m. rewrite app_nil_r. split_and!; try done; [lia|]. intros f Hf. set_solver.
  - unfold npages in *. pg_lia.
Qed.
End User.

Arguments u_vm {kend kdata k l pgdir T m fr o}.
Arguments u_len {kend kdata k l pgdir T m fr o}.
Arguments u_map {kend kdata k l pgdir T m fr o}.
Arguments u_kern {kend kdata k l pgdir T m fr o}.
Arguments u_frames {kend kdata k l pgdir T m fr o}.
