(* ===== verification/VmSpace.v ===== *)
(** * Whole address spaces: setupkvm, freevm, copyuvm, copyout in [src/vm.c]

    Address spaces are created, copied and destroyed.  The theorems of this
    file account for every page: what a new address space takes from the free
    list, what a copy shares with its original (nothing), and that destroying
    one gives everything back. *)

From stdpp Require Import base numbers list gmap strings list_numbers.
From Stdlib Require Import Lia ZArith ZifyBool.
From S2P Require Import Prelude Kalloc Vm VmMap VmUser.
Open Scope Z_scope.

(** The directory indices of the kernel's mappings. *)
Definition kernel_tables : list Z := seqZ 0 4 ++ seqZ 1016 8.

Lemma elem_of_kernel_tables i : i ∈ kernel_tables <-> 0 <= i < 4 \/ 1016 <= i < 1024.
Proof. unfold kernel_tables. rewrite elem_of_app, !elem_of_seqZ. lia. Qed.

Lemma length_tabs_le (T : gmap Z Z) (K : list Z) :
  (forall i t, T !! i = Some t -> i ∈ K) -> (length (tabs T) <= length K)%nat.
Proof.
  intros H. unfold tabs. rewrite length_fmap, <- (length_fmap fst (map_to_list T)).
  apply submseteq_length, NoDup_submseteq; [apply NoDup_fst_map_to_list|].
  intros i Hi. apply list_elem_of_fmap in Hi as ([j t] & -> & Hj). apply elem_of_map_to_list in Hj. eauto.
Qed.

Lemma length_tabs_ge (T : gmap Z Z) (K : list Z) :
  NoDup K -> (forall i, i ∈ K -> is_Some (T !! i)) -> (length K <= length (tabs T))%nat.
Proof.
  intros Hnd H. unfold tabs. rewrite length_fmap, <- (length_fmap fst (map_to_list T)).
  apply submseteq_length, NoDup_submseteq; [done|].
  intros i Hi. destruct (H i Hi) as [t Ht]. apply list_elem_of_fmap. exists (i, t).
  split; [done|]. by apply elem_of_map_to_list.
Qed.

Lemma kernel_tables_missing (T : gmap Z Z) i :
  i ∈ kernel_tables -> T !! i = None -> (forall j t, T !! j = Some t -> j ∈ kernel_tables) ->
  (length (tabs T) < 12)%nat.
Proof.
  intros Hi Hn HT. assert (Hle : (length (tabs (<[i := 0%Z]> T)) <= 12)%nat).
  { apply (length_tabs_le _ kernel_tables). intros j t Hj.
    apply lookup_insert_Some in Hj as [[<- _]|[_ Hj]]; [done|eauto]. }
  rewrite tabs_insert in Hle by done. simpl in Hle. lia.
Qed.

Lemma table_page v0 n i :
  0 < n -> v0 / 1024 <= i <= (v0 + n - 1) / 1024 -> exists v, v0 <= v < v0 + n /\ v / 1024 = i.
Proof. intros Hn Hi. exists (Z.max v0 (i * 1024)). Z.div_mod_to_equations. lia. Qed.

Lemma length_umem (k : kmem) (fr : list Z) : (forall f, f ∈ fr -> length (page k f) = PGLEN) -> length (umem k fr) = (length fr * PGLEN)%nat.
Proof.
  induction fr as [|f fr IH]; intros H; [done|]. change (umem k (f :: fr)) with (page k f ++ umem k fr).
  rewrite length_app, IH, H by set_solver. done.
Qed.

Ltac in_app := rewrite ?elem_of_app, ?elem_of_cons, ?elem_of_app in *; tauto.

Section Space.
Context (kend : Z) (Hkend : 0 < kend) (kdata : Z).
Abbreviation allocatable := (allocatable kend).
Abbreviation kinv := (kinv kend).
Abbreviation vmst := (vmst kend).
Abbreviation kfree := (kfree kend).
Abbreviation uvm := (uvm kend kdata).
Implicit Types (k : kmem) (T m : gmap Z Z) (l o fr : list Z).

(** ** setupkvm *)

Lemma fresh_dir k l o pgdir :
  kinv k l -> allocatable pgdir -> NoDup (pgdir :: o ++ l) ->
  vmst (set_page pgdir zero_page k) l pgdir ∅ ∅ o.
Proof using Hkend.
  intros Hk Hp Hnd. destruct (allocatable_page _ Hkend _ Hp) as (Hp0 & Hpm & _). split.
  - constructor; try (intros; by rewrite ?lookup_empty in *).
    + split; [done|]. rewrite page_set_eq. apply length_replicate.
    + intros i Hi. rewrite lookup_empty, ent_unfold, page_set_eq by (done || lia).
      change zero_page with (replicate PGLEN (u8 0)). by rewrite ldw_zeros.
  - apply (kinv_frame kend Hkend k); [|done|done]. intros a Ha. apply page_set_ne. intros <-.
    apply NoDup_cons in Hnd as [Hnd _]. set_solver.
  - done.
Qed.

(** One line of [kmap]. *)
Lemma map_line_wp k l l0 pgdir T m o v0 n perm (Q : Z -> kmem -> Prop) :
  vmst k l pgdir T m o -> 0 <= v0 -> 0 < n -> v0 + n <= 2 ^ 20 -> 0 <= perm < PGSIZE ->
  (forall v, v0 <= v < v0 + n -> m !! v = None) ->
  (forall i, v0 / 1024 <= i <= (v0 + n - 1) / 1024 -> i ∈ kernel_tables) ->
  (forall i t, T !! i = Some t -> i ∈ kernel_tables) -> pgdir :: tabs T ++ l ≡ₚ l0 ->
  (forall k' l' T' m', vmst k' l' pgdir T' m' o -> T ⊆ T' -> pgdir :: tabs T' ++ l' ≡ₚ l0 ->
     (forall a, a ∈ o -> page k' a = page k a) -> ranged m v0 n (PGSIZE * v0) perm m' ->
     (forall i t, T' !! i = Some t -> i ∈ kernel_tables) ->
     (forall i, v0 / 1024 <= i <= (v0 + n - 1) / 1024 -> is_Some (T' !! i)) -> Q 0 k') ->
  (forall k', (length l0 < 13)%nat -> kinv k' [] -> (forall a, a ∈ o -> page k' a = page k a) -> Q (-1) k') ->
  wp (mappages pgdir (PGSIZE * v0) (PGSIZE * n) (PGSIZE * v0) perm) Q k.
Proof using Hkend.
  intros Hs Hv0 Hn Hmax Hperm Hnone HK HT Hp HQ HQ1.
  eapply (mappages_wp kend Hkend); [exact Hs|lia|lia|lia|pg_lia|pg_lia|pg_lia|done|done|..].
  - intros k' l' T' m' Hs' [Hsub Hpg Hfr] Hr Hnew Hall. eapply HQ; try done.
    + by rewrite Hpg.
    + intros i t Hi. destruct (Hnew i t Hi); eauto.
  - intros k' T' m' i Hs' [Hsub Hpg Hfr] Hnew Hi Hni. apply HQ1; [|apply Hs'|done].
    rewrite <- Hp, <- Hpg, app_nil_r. simpl.
    enough (length (tabs T') < 12)%nat by lia. apply (kernel_tables_missing T' i); auto.
    intros j t Hj. destruct (Hnew j t Hj); eauto.
Qed.

Abbreviation line := (Z * Z * Z)%type.
Definition bytes_of (x : line) : Z * Z * Z :=
  let '(v0, n, perm) := x in (PGSIZE * v0, u32 (PGSIZE * (v0 + n)), perm).

Definition line_ok (x : line) : Prop :=
  let '(v0, n, perm) := x in
  0 <= v0 /\ 0 < n < 2 ^ 20 /\ v0 + n <= 2 ^ 20 /\ (perm = 0 \/ perm = PTE_W) /\
  forall v, v0 <= v < v0 + n -> v / 1024 ∈ kernel_tables.

(** No two lines overlap. *)
Fixpoint lines_ok (ks : list line) : Prop :=
  match ks with
  | [] => True
  | x :: ks => line_ok x /\ (forall v, covers x v = true -> line_perm ks v = None) /\ lines_ok ks
  end.

Lemma map_all_wp ks : forall k l l0 pgdir T m o (Q : Z -> kmem -> Prop),
  vmst k l pgdir T m o -> lines_ok ks ->
  (forall v, is_Some (line_perm ks v) -> m !! v = None) ->
  (forall i t, T !! i = Some t -> i ∈ kernel_tables) -> pgdir :: tabs T ++ l ≡ₚ l0 ->
  (forall k' l' T' m', vmst k' l' pgdir T' m' o -> T ⊆ T' -> pgdir :: tabs T' ++ l' ≡ₚ l0 ->
     (forall a, a ∈ o -> page k' a = page k a) ->
     (forall v, m' !! v = match line_perm ks v with Some p => Some (mk_pte (PGSIZE * v) p) | None => m !! v end) ->
     (forall i t, T' !! i = Some t -> i ∈ kernel_tables) ->
     (forall v, is_Some (line_perm ks v) -> is_Some (T' !! (v / 1024))) -> Q pgdir k') ->
  (forall k', (length l0 < 13)%nat -> kinv k' [] -> (forall a, a ∈ o -> page k' a = page k a) -> Q 0 k') ->
  wp (map_all pgdir (bytes_of <$> ks)) Q k.
Proof using Hkend.
  induction ks as [|[[v0 n] perm] ks IH]; intros k l l0 pgdir T m o Q Hs Hok Hnone HT Hp HQ HQ0.
  { simpl. wp_step. eapply HQ; try done. intros v Hv. by destruct Hv. }
  destruct Hok as ((Hv0 & Hn & Hmax & Hperm & HK) & Hdis & Hok).
  assert (Hu : u32 (u32 (PGSIZE * (v0 + n)) - PGSIZE * v0) = PGSIZE * n).
  { unfold u32. rewrite Zminus_mod_idemp_l. rewrite Z.mod_small; pg_lia. }
  simpl. rewrite Hu. wp_step.
  eapply map_line_wp with (l0 := l0); [exact Hs|lia|lia|lia|destruct Hperm as [-> | ->]; done| | |done|done|..].
  { intros v Hv. apply Hnone. simpl. replace ((v0 <=? v) && (v <? v0 + n)) with true by lia. eauto. }
  { intros i Hi. destruct (table_page v0 n i (proj1 Hn) Hi) as (v & Hv & <-). by apply HK. }
  2:{ intros k1 Hl Hk1 Hfr. change (-1 <? 0) with true. cbv iota. wp_step. by apply HQ0. }
  intros k1 l1 T1 m1 Hs1 Hsub Hp1 Hfr Hr HT1 Hall. change (0 <? 0) with false. cbv iota.
  apply (IH k1 l1 l0 pgdir T1 m1 o); [done|done| |done|done|..].
  - intros v Hv. rewrite Hr. destruct ((v0 <=? v) && (v <? v0 + n)) eqn:E.
    + rewrite (Hdis v E) in Hv. by destruct Hv.
    + apply Hnone. simpl. by rewrite E.
  - intros k2 l2 T2 m2 Hs2 Hsub2 Hp2 Hfr2 Hm2 HT2 Hall2.
    apply (HQ k2 l2 T2 m2); try done; [by transitivity T1| | |].
    + intros a Ha. rewrite Hfr2, Hfr; auto.
    + intros v. rewrite Hm2, Hr. simpl. destruct ((v0 <=? v) && (v <? v0 + n)) eqn:E; [|done].
      rewrite (Hdis v E). do 2 f_equal. lia.
    + intros v. simpl. destruct ((v0 <=? v) && (v <? v0 + n)) eqn:E; [|by apply Hall2]. intros _.
      destruct (Hall (v / 1024)) as [t Ht]; [pg_lia|]. exists t. by eapply lookup_weaken.
  - intros k2 Hl Hk2 Hfr2. apply HQ0; [done|done|]. intros a Ha. rewrite Hfr2, Hfr; auto.
Qed.

Section Kernel.
Context (Hkdata : kdata mod PGSIZE = 0 /\ 0x100000 < kdata < PHYSTOP).

Lemma kmap_lines : kmap kdata = bytes_of <$> kernel_lines kdata.
Proof using Hkdata.
  unfold kmap, kernel_lines. simpl. unfold PTE_W.
  replace (256 + (kdata / PGSIZE - 256)) with (kdata / PGSIZE) by lia.
  replace (kdata / PGSIZE + (4096 - kdata / PGSIZE)) with 4096 by lia.
  replace (PGSIZE * (kdata / PGSIZE)) with kdata by pg_lia. by rewrite (u32_small kdata) by pg_lia.
Qed.

Lemma kernel_lines_ok : lines_ok (kernel_lines kdata).
Proof using Hkdata.
  assert (256 < kdata / PGSIZE < 4096) by pg_lia.
  simpl. unfold kernel_lines, line_ok, covers.
  split_and!; try done; try lia; try (by left); try (by right);
    intros v Hv; rewrite ?elem_of_kernel_tables; split_if; try done; try lia; pg_lia.
Qed.

Lemma kernel_lines_user v : v < UPAGES -> line_perm (kernel_lines kdata) v = None.
Proof using Hkdata.
  intros Hv. change UPAGES with 160 in Hv. assert (256 < kdata / PGSIZE < 4096) by pg_lia.
  simpl. split_if; lia || done.
Qed.

Lemma kernel_tables_lines i : i ∈ kernel_tables -> exists v, is_Some (line_perm (kernel_lines kdata) v) /\ v / 1024 = i.
Proof using Hkdata.
  intros Hi%elem_of_kernel_tables. exists (Z.max 160 (i * 1024)). split; [|pg_lia].
  assert (256 < kdata / PGSIZE < 4096) by pg_lia. simpl. split_if; try (by eexists). lia.
Qed.

Lemma setupkvm_wp k l o (Q : Z -> kmem -> Prop) :
  kinv k l -> NoDup (o ++ l) ->
  (forall k' l' pgdir T m, uvm k' l' pgdir T m [] o ->
     pgdir :: tabs T ++ l' ≡ₚ l -> length (tabs T) = 12%nat -> pgdir <> 0 ->
     (forall a, a ∈ o -> page k' a = page k a) -> Q pgdir k') ->
  (forall k', (length l < 13)%nat -> kinv k' [] -> (forall a, a ∈ o -> page k' a = page k a) -> Q 0 k') ->
  wp (setupkvm kdata) Q k.
Proof using Hkend Hkdata.
  intros Hk Hnd HQ HQ0. unfold setupkvm. wp_step. eapply wp_mono; [by eapply kalloc_wp|].
  intros r k1 [Hpg Hr]. assert (Hsame : forall a, page k1 a = page k a) by (intros a; unfold page; by rewrite Hpg).
  destruct l as [|pgdir l].
  { destruct Hr as [-> Hk1]. rewrite Z.eqb_refl. wp_step. apply HQ0; [simpl; lia|done|auto]. }
  destruct Hr as (-> & Hne & Hk1). rewrite (proj2 (Z.eqb_neq pgdir 0)) by done.
  unfold memset_page. do 2 wp_step. change (replicate PGLEN (u8 0)) with zero_page.
  assert (Hp : allocatable pgdir) by (destruct Hk as (_ & _ & Hall); by inversion_clear Hall).
  rewrite <- Permutation_middle in Hnd. pose proof (fresh_dir k1 l o pgdir Hk1 Hp Hnd) as Hs.
  assert (Hfr0 : forall a, a ∈ o -> page (set_page pgdir zero_page k1) a = page k a).
  { intros a Ha. rewrite page_set_ne; [apply Hsame|]. intros <-. apply NoDup_cons in Hnd as [Hn _]. set_solver. }
  rewrite kmap_lines. eapply map_all_wp with (l0 := pgdir :: l); [exact Hs|apply kernel_lines_ok|..].
  - intros v _. apply lookup_empty.
  - intros i t. by rewrite lookup_empty.
  - done.
  - intros k2 l2 T m Hs2 _ Hp2 Hfr2 Hm HT Hall.
    assert (Hsome : forall i, i ∈ kernel_tables -> is_Some (T !! i)).
    { intros i (v & Hv & <-)%kernel_tables_lines. auto. }
    assert (Hkm : kernel_mapped kdata m).
    { intros v _. rewrite Hm, lookup_empty. by destruct (line_perm _ _). }
    apply (HQ k2 l2 pgdir T m); try done.
    + constructor; try done.
      * apply Hsome, elem_of_kernel_tables. lia.
      * simpl. intros v Hv. rewrite Hm, lookup_empty, kernel_lines_user by lia. done.
      * intros f Hf. set_solver.
    + apply Nat.le_antisymm; [apply (length_tabs_le T kernel_tables); eauto|].
      apply (length_tabs_ge T kernel_tables); [|done]. unfold kernel_tables. apply NoDup_app.
      split; [apply NoDup_seqZ|]. split; [|apply NoDup_seqZ]. intros i. rewrite !elem_of_seqZ. lia.
    + intros a Ha. rewrite Hfr2; auto.
  - intros k2 Hl Hk2 Hfr. apply HQ0; [done|done|]. intros a Ha. rewrite Hfr; auto.
Qed.
End Kernel.

(** ** freevm *)

(** The loop over the directory: tables below index [i] have been freed. *)
Lemma free_tables_wp k l pgdir T m o (Q : unit -> kmem -> Prop) :
  vmst k l pgdir T m o ->
  (forall k' l', kinv k' l' -> l' ≡ₚ tabs T ++ l ->
     (forall a, a ∈ pgdir :: o -> page k' a = page k a) -> Q tt k') ->
  wp (loop (Z.to_nat NPDENTRIES + 1) (fun i : Z =>
    if i <? NPDENTRIES then
      v ← gets (fun k => word k (pgdir + 4 * i));
      _ ← when (tst v PTE_P) (kfree (PTE_ADDR v));
      mret (inl (i + 1))
    else mret (inr tt)) 0) Q k.
Proof using Hkend.
  intros [Hpt Hk Hnd] HQ.
  destruct (allocatable_page _ Hkend _ (proj1 (pt_dir _ _ _ _ _ Hpt))) as (Hp0 & Hpm & _).
  apply (wp_loop (fun i k1 => 0 <= i <= 1024 /\ exists l1 T1,
      (forall j, T1 !! j = if j <? i then None else T !! j) /\ kinv k1 l1 /\
      NoDup (l1 ++ tabs T1 ++ pgdir :: o) /\ l1 ++ tabs T1 ≡ₚ tabs T ++ l /\
      (forall a, a ∈ pgdir :: o -> page k1 a = page k a))
    (fun i _ => Z.to_nat (1024 - i))).
  - intros i k1 (Hi & l1 & T1 & HT1 & Hk1 & Hnd1 & Hp & Hfr). wp_step; rename H into Hlt.
    + change NPDENTRIES with 1024 in Hlt. wp_step. wp_step. wp_step. fold (ent k1 pgdir i).
      rewrite ent_unfold, Hfr, <- ent_unfold by (lia || done || set_solver).
      pose proof (pt_pde _ _ _ _ _ Hpt i ltac:(lia)) as Hpde.
      assert (Hi1 : T1 !! i = T !! i) by (rewrite HT1; by replace (i <? i) with false by lia).
      destruct (T !! i) as [t|] eqn:Et.
      * destruct (pt_tab _ _ _ _ _ Hpt _ _ Et) as (_ & Ht & _).
        destruct (pde_of_spec t) as (HA & HP & _); [apply Ht|]. rewrite Hpde, HP, HA. cbv [when].
        assert (HT : tabs T1 ≡ₚ t :: tabs (delete i T1)).
        { rewrite <- (insert_delete_id T1 i t) at 1 by done. apply tabs_insert, lookup_delete_eq. }
        rewrite HT in Hnd1, Hp. apply NoDup_app in Hnd1 as Hn.
        assert (Htl : t ∉ l1) by (intros H; apply (proj1 (proj2 Hn) t H); set_solver).
        eapply wp_mono; [by eapply kfree_wp|]. intros [] k2 [Hk2 Hfr2]. wp_step. split; [|lia].
        split; [lia|]. exists (t :: l1), (delete i T1). split_and!; [|done| | |].
        -- intros j. rewrite lookup_delete, HT1. destruct (decide (i = j)); split_if; lia || done.
        -- revert Hnd1. apply NoDup_Permutation_proper. simpl. solve_Permutation.
        -- rewrite <- Hp. solve_Permutation.
        -- intros a Ha. rewrite Hfr2; [by apply Hfr|]. intros ->.
           rewrite (Permutation_app_comm l1) in Hnd1. simpl in Hnd1. apply NoDup_cons in Hnd1 as [Hnt _]. set_solver.
      * rewrite Hpde. cbv [when]. wp_step. wp_step. split; [|lia]. split; [lia|]. exists l1, T1. split; [|done].
        intros j. rewrite HT1. destruct (decide (j = i)) as [->|]; [|split_if; lia || done].
        rewrite Et. by destruct (i <? i), (i <? i + 1).
    + wp_step. change NPDENTRIES with 1024 in Hlt. assert (i = 1024) as -> by lia.
      assert (T1 = ∅) as ->.
      { apply map_eq. intros j. rewrite HT1, lookup_empty. destruct (j <? 1024) eqn:E; [done|].
        destruct (T !! j) as [t|] eqn:Et; [|done]. destruct (pt_tab _ _ _ _ _ Hpt _ _ Et). lia. }
      eapply HQ; [done| |done]. rewrite <- Hp. unfold tabs. rewrite map_to_list_empty. simpl.
      by rewrite app_nil_r.
  - split; [lia|]. exists l, T. split_and!; try done.
    + intros j. destruct (j <? 0) eqn:E; [|done]. destruct (T !! j) as [t|] eqn:Et; [|done].
      destruct (pt_tab _ _ _ _ _ Hpt _ _ Et). lia.
    + revert Hnd. apply NoDup_Permutation_proper. simpl. solve_Permutation.
    + apply Permutation_app_comm.
  - simpl. lia.
Qed.

Lemma freevm_wp k l pgdir T m fr o (Q : unit -> kmem -> Prop) :
  uvm k l pgdir T m fr o ->
  (forall k' l', kinv k' l' -> l' ≡ₚ pgdir :: tabs T ++ fr ++ l ->
     (forall a, a ∈ o -> page k' a = page k a) -> Q tt k') ->
  wp (freevm kend pgdir) Q k.
Proof using Hkend.
  intros Hu HQ. pose proof (proj1 (pt_dir _ _ _ _ _ (vs_pt _ _ _ _ _ _ _ (u_vm Hu)))) as Hpd.
  destruct (allocatable_page _ Hkend _ Hpd) as (Hp0 & _).
  unfold freevm. replace (pgdir =? 0) with false by lia. wp_step.
  eapply (deallocuvm_wp kend Hkend kdata); [done|by split|done| |].
  { pose proof (u_len Hu). change (npages USERTOP) with UPAGES. lia. }
  cbv zeta. change (Z.to_nat (npages 0)) with 0%nat. rewrite take_0, drop_0. simpl app.
  intros k1 m1 Hu1 Hfr1. wp_step. eapply free_tables_wp; [apply Hu1|].
  intros k2 l2 Hk2 Hp2 Hfr2. pose proof (vs_own _ _ _ _ _ _ _ (u_vm Hu1)) as Hnd.
  apply NoDup_cons in Hnd as [Hnp Hnd]. simpl in Hnp.
  eapply wp_mono; [eapply kfree_wp; [done|done|done|]|].
  { rewrite Hp2. rewrite !elem_of_app in *. tauto. }
  intros [] k3 [Hk3 Hfr3]. apply (HQ k3 (pgdir :: l2)); [done| |].
  - rewrite Hp2, reverse_Permutation. done.
  - intros a Ha. rewrite Hfr3, Hfr2, Hfr1; [done|..]; [done|set_solver|].
    intros ->. apply Hnp. rewrite !elem_of_app. auto.
Qed.

(** ** copyuvm *)

(** The same state seen from the other of two address spaces. *)
Lemma uvm_switch k l pgdir T m fr o k' l' d Td md nf :
  uvm k l pgdir T m fr o -> uvm k' l' d Td md nf (pgdir :: tabs T ++ fr ++ o) ->
  (forall a, a ∈ pgdir :: tabs T ++ fr ++ o -> page k' a = page k a) ->
  uvm k' l' pgdir T m fr (d :: tabs Td ++ nf ++ o).
Proof using Hkend.
  intros Hu [[_ Hk' Hnd] _ _ _ _ _ _] Hfr.
  pose proof Hu as [[Hpt _ _] H0 Hl Hmap Hnone Hkern Hframes]. constructor; try done.
  - split; [|done|].
    + apply (pt_frame kend Hkend k); [|done]. intros a Ha. apply Hfr. set_solver.
    + revert Hnd. apply NoDup_Permutation_proper. solve_Permutation.
  - intros f Hf. rewrite Hfr by set_solver. by apply Hframes.
Qed.

Section Copy.
Context (Hkdata : kdata mod PGSIZE = 0 /\ 0x100000 < kdata < PHYSTOP).

Lemma copyuvm_wp k l pgdir T m fr o sz (Q : Z -> kmem -> Prop) :
  uvm k l pgdir T m fr o -> 0 <= sz <= USERTOP -> Z.of_nat (length fr) = npages sz ->
  (forall k' l' d Td md nf, uvm k' l' pgdir T m fr (d :: tabs Td ++ nf ++ o) ->
     uvm k' l' d Td md nf (pgdir :: tabs T ++ fr ++ o) ->
     d :: tabs Td ++ nf ++ l' ≡ₚ l -> length (tabs Td) = 12%nat -> d <> 0 ->
     page k' <$> nf = page k <$> fr -> (forall a, a ∈ fr ++ o -> page k' a = page k a) -> Q d k') ->
  (forall k' l', (length l < 13 + length fr)%nat -> uvm k' l' pgdir T m fr o ->
     ((13 <= length l)%nat -> l' ≡ₚ l) -> ((length l < 13)%nat -> l' = []) ->
     (forall a, a ∈ fr ++ o -> page k' a = page k a) -> Q 0 k') ->
  wp (copyuvm kend kdata pgdir sz) Q k.
Proof using Hkend Hkdata.
  intros Hu Hsz Hlen HQ HQ0. set (oc := pgdir :: tabs T ++ fr ++ o).
  pose proof Hu as [[Hpt Hk Hnd] H0 Hl Hmap Hnone Hkern Hframes].
  assert (Hback : forall k' l', kinv k' l' -> NoDup (oc ++ l') ->
            (forall a, a ∈ oc -> page k' a = page k a) -> uvm k' l' pgdir T m fr o).
  { intros k' l' Hk' Hnd' Hfr. constructor; try done.
    - split; [|done|].
      + apply (pt_frame kend Hkend k); [|done]. intros a Ha. apply Hfr. unfold oc. set_solver.
      + unfold oc in Hnd'. simpl in Hnd'. by rewrite <- !app_assoc in *.
    - intros f Hf. rewrite Hfr by (unfold oc; set_solver). by apply Hframes. }
  unfold copyuvm. wp_step. eapply (setupkvm_wp Hkdata k l oc); [done| |..].
  { unfold oc. simpl. by rewrite <- !app_assoc in *. }
  2:{ intros k1 Hl1 Hk1 Hfr. rewrite Z.eqb_refl. wp_step. apply (HQ0 k1 []); [lia| |lia|done|].
      - apply Hback; [done| |done]. rewrite app_nil_r. unfold oc. apply NoDup_cons in Hnd as [Hn Hnd].
        apply NoDup_cons. rewrite !app_assoc in *. apply NoDup_app in Hnd as (Hnd & _ & _). split; [|done]. set_solver.
      - intros a Ha. apply Hfr. unfold oc. set_solver. }
  intros k1 l1 d Td md Hud Hp1 H12 Hd0 Hfr1. rewrite (proj2 (Z.eqb_neq d 0)) by done.
  apply (wp_loop (fun i k2 => exists nf l2 md2, i = PGSIZE * Z.of_nat (length nf) /\ (length nf <= length fr)%nat /\
      uvm k2 l2 d Td md2 nf oc /\ nf ++ l2 ≡ₚ l1 /\
      page k2 <$> nf = page k <$> take (length nf) fr /\ (forall a, a ∈ oc -> page k2 a = page k a))
    (fun i _ => Z.to_nat (Z.of_nat (length fr) - i / PGSIZE))).
  - intros i k2 (nf & l2 & md2 & -> & Hnf & Hu2 & Hp2 & Hc2 & Hfr2). wp_step; rename H into Hlt.
    + assert (Hlt' : (length nf < length fr)%nat) by (unfold npages in *; pg_lia).
      destruct (lookup_lt_is_Some_2 _ _ Hlt') as [f Hf]. pose proof (Hmap _ _ Hf) as Hmf.
      assert (Hv20 : 0 <= Z.of_nat (length nf) < 2 ^ 20) by (change UPAGES with 160 in Hl; lia).
      assert (Hup : uvm k2 l2 pgdir T m fr (d :: tabs Td ++ nf ++ o)) by by eapply uvm_switch.
      wp_step. eapply (walk_find_wp kend Hkend); [apply Hup|pg_lia|].
      destruct (slot_entry _ Hkend _ _ _ _ _ _ _ _ (u_vm Hup) Hv20 Hmf) as (t & _ & -> & Hnz & Hw & HP).
      rewrite (proj2 (Z.eqb_neq _ 0) Hnz). wp_step. wp_step. rewrite Hw, HP. cbv [negb].
      destruct (Hframes f) as [Hfa Hfl]; [by eapply list_elem_of_lookup_2|].
      destruct (mk_pte_spec f PTE_UW) as (-> & _ & _); [apply Hfa|apply PTE_UW_range|].
      assert (Hfo : f ∈ oc) by (unfold oc; apply list_elem_of_lookup_2 in Hf; set_solver).
      wp_step. eapply (uvm_alloc kend Hkend kdata); [exact Hu2|..].
      * intros k3 g l3 -> Hu3 Hg Hg0 Hpg. rewrite (proj2 (Z.eqb_neq g 0)) by done.
        apply (uvm_fill kend Hkend kdata _ _ _ _ _ _ _ _ (page k3 f)) in Hu3. do 2 wp_step. wp_step.
        assert (Hng : forall a, a ∈ nf ++ oc -> a <> g).
        { intros a Ha ->. pose proof (vs_own _ _ _ _ _ _ _ (u_vm Hu3)) as Hnd3.
          apply NoDup_cons in Hnd3 as [_ Hnd3]. apply NoDup_app in Hnd3 as (_ & _ & Hnd3).
          apply NoDup_app in Hnd3 as (Hnd3 & _ & _). rewrite <- Permutation_middle in Hnd3.
          by apply NoDup_cons in Hnd3 as [? _]. }
        eapply (map_user_wp kend Hkend kdata); [done|done|rewrite page_set_eq, Hpg, Hfr2 by done; done| |].
        { change UPAGES with 160 in *. lia. }
        intros k4 l4 m4 Hp4 Hu4 Hfr4. change (0 <? 0) with false. cbv iota. wp_step.
        assert (Hsame : forall a, a ∈ nf ++ oc -> page k4 a = page k2 a).
        { intros a Ha. rewrite Hfr4 by in_app. rewrite page_set_ne by (apply not_eq_sym, Hng; done). done. }
        rewrite u32_small by (change UPAGES with 160 in *; pg_lia).
        split; [|rewrite ?length_app; simpl; pg_lia]. exists (nf ++ [g]), l4, m4.
        rewrite length_app. simpl. split; [lia|]. split; [lia|]. split; [done|].
        split; [rewrite Hp4, <- Hp2; solve_Permutation|]. split.
        -- rewrite Nat.add_1_r, (take_S_r _ _ _ Hf), !fmap_app, <- Hc2. simpl. f_equal.
           ++ apply list_fmap_ext. intros j a Ha. apply Hsame. apply list_elem_of_lookup_2 in Ha. set_solver.
           ++ f_equal. rewrite Hfr4 by set_solver. rewrite page_set_eq, Hpg. by apply Hfr2.
        -- intros a Ha. rewrite Hsame by in_app. by apply Hfr2.
      * intros k3 -> Hu3 Hpg. rewrite Z.eqb_refl. wp_step. eapply freevm_wp; [exact Hu3|].
        intros k4 l4 Hk4 Hp4 Hfr4. wp_step.
        assert (Hp5 : l4 ≡ₚ l) by (rewrite Hp4, <- Hp1, <- Hp2; done).
        assert (Hfr5 : forall a, a ∈ oc -> page k4 a = page k a).
        { intros a Ha. rewrite Hfr4, Hpg by done. by apply Hfr2. }
        apply (HQ0 k4 l4).
        -- rewrite <- Hp1, <- Hp2. simpl. rewrite !length_app, H12. simpl. lia.
        -- apply Hback; [done| |done]. rewrite Hp5. unfold oc. simpl. by rewrite <- !app_assoc in *.
        -- done.
        -- rewrite <- Hp1. simpl. rewrite length_app, H12. lia.
        -- intros a Ha. apply Hfr5. unfold oc. set_solver.
    + wp_step. assert (Heq : length nf = length fr) by (unfold npages in *; pg_lia).
      rewrite Heq, take_ge in Hc2 by lia. apply (HQ k2 l2 d Td md2 nf); try done.
      * by eapply uvm_switch.
      * rewrite <- Hp1, <- Hp2. solve_Permutation.
      * intros a Ha. apply Hfr2. unfold oc. set_solver.
  - exists [], l1, md. rewrite Z.mul_0_r. split_and!; try done; simpl; lia.
  - unfold npages in *. pg_lia.
Qed.
End Copy.

(** ** copyout *)

(** Writing into a page of the process. *)
Lemma uvm_write k l pgdir T m fr o f p :
  uvm k l pgdir T m fr o -> f ∈ fr -> length p = PGLEN -> uvm (set_page f p k) l pgdir T m fr o.
Proof using Hkend.
  intros [Hs H0 Hl Hmap Hnone Hkern Hframes] Hf Hp. constructor; try done.
  - apply (vmst_other kend Hkend); [set_solver|done].
  - intros g Hg. destruct (Hframes g Hg) as [Hga Hgl]. split; [done|].
    destruct (decide (g = f)) as [->|]; [by rewrite page_set_eq|by rewrite page_set_ne].
Qed.

Lemma uvm_NoDup k l pgdir T m fr o : uvm k l pgdir T m fr o -> NoDup fr.
Proof.
  intros [[_ _ Hnd] _ _ _ _ _ _]. apply NoDup_cons in Hnd as [_ Hnd]. apply NoDup_app in Hnd as (_ & _ & Hnd).
  apply NoDup_app in Hnd as (Hnd & _ & _). by apply NoDup_app in Hnd as (Hnd & _ & _).
Qed.

Lemma uvm_disjoint k l pgdir T m fr o f : uvm k l pgdir T m fr o -> f ∈ fr -> f ∈ o -> False.
Proof.
  intros [[_ _ Hnd] _ _ _ _ _ _]. apply NoDup_cons in Hnd as [_ Hnd]. apply NoDup_app in Hnd as (_ & _ & Hnd).
  apply NoDup_app in Hnd as (Hnd & _ & _). apply NoDup_app in Hnd as (_ & D & _). exact (D f).
Qed.

Lemma umem_write k fr i f off bs :
  NoDup fr -> (forall f, f ∈ fr -> length (page k f) = PGLEN) -> fr !! i = Some f ->
  (off + length bs <= PGLEN)%nat ->
  umem (set_page f (splice off bs (page k f)) k) fr = splice (i * PGLEN + off) bs (umem k fr).
Proof.
  intros Hnd Hlen Hi Hoff. apply list_elem_of_split_length in Hi as (fr1 & fr2 & -> & ->).
  apply NoDup_app in Hnd as (_ & D1 & Hnd). apply NoDup_cons in Hnd as [D2 _].
  assert (Hext : forall fr', f ∉ fr' -> umem (set_page f (splice off bs (page k f)) k) fr' = umem k fr').
  { intros fr' Hf. apply umem_ext. intros g Hg. apply page_set_ne. by intros ->. }
  change (f :: fr2) with ([f] ++ fr2). rewrite !umem_app, !Hext by set_solver.
  rewrite <- (length_umem k fr1) by set_solver. rewrite splice_app_r, splice_app_l.
  - f_equal. f_equal; [|by apply Hext]. unfold umem. simpl. by rewrite page_set_eq, !app_nil_r.
  - unfold umem. simpl. rewrite app_nil_r, Hlen by set_solver. done.
Qed.

Lemma copyout_wp k l pgdir T m fr o va p len (Q : Z -> kmem -> Prop) :
  uvm k l pgdir T m fr o -> 0 <= va -> 0 <= len <= Z.of_nat (length p) ->
  va + len <= PGSIZE * Z.of_nat (length fr) ->
  (forall k', uvm k' l pgdir T m fr o ->
     umem k' fr = splice (Z.to_nat va) (take (Z.to_nat len) p) (umem k fr) ->
     (forall a, a ∈ o -> page k' a = page k a) -> Q 0 k') ->
  wp (copyout pgdir va p len) Q k.
Proof using Hkend.
  intros Hu Hva Hlen Hfit HQ. pose proof (u_len Hu) as Hmax. change UPAGES with 160 in Hmax. unfold copyout.
  apply (wp_loop (fun st k1 => let '(va1, buf, len1) := st in exists n, n + len1 = len /\ 0 <= n /\ 0 <= len1 /\
      (0 < len1 -> va1 = va + n) /\ buf = drop (Z.to_nat n) p /\ uvm k1 l pgdir T m fr o /\
      umem k1 fr = splice (Z.to_nat va) (take (Z.to_nat n) p) (umem k fr) /\
      (forall a, a ∈ o -> page k1 a = page k a))
    (fun st _ => let '(va1, _, len1) := st in Z.to_nat (if 0 <? len1 then 1 + (va + len - 1) / PGSIZE - va1 / PGSIZE else 0))).
  - intros [[va1 buf] len1] k1 (n & Hn & Hn0 & Hl0 & Hva1 & -> & Hu1 & Hm1 & Hfr1). wp_step; rename H into Hlt.
    + rewrite Hva1 by lia. rewrite PGROUNDDOWN_spec by lia. set (v := (va + n) / PGSIZE).
      assert (Hv : va + n - (va + n) mod PGSIZE = PGSIZE * v) by (unfold v; pg_lia).
      rewrite Hv. assert (Hvr : 0 <= v < Z.of_nat (length fr)) by (unfold v; pg_lia).
      assert (Hv20 : 0 <= v < 2 ^ 20) by lia.
      destruct (lookup_lt_is_Some_2 fr (Z.to_nat v)) as [f Hf]; [lia|].
      pose proof (u_map Hu1 _ _ Hf) as Hmf. rewrite Z2Nat.id in Hmf by lia.
      destruct (u_frames Hu1 f) as [Hfa Hfl]; [by eapply list_elem_of_lookup_2|].
      destruct (allocatable_page _ Hkend _ Hfa) as (Hf0 & Hfm & _).
      unfold uva2ka. do 2 wp_step. eapply (walk_find_wp kend Hkend); [apply Hu1|pg_lia|].
      destruct (slot_entry _ Hkend _ _ _ _ _ _ _ _ (u_vm Hu1) Hv20 Hmf) as (t & _ & -> & Hnz & Hw & HP).
      rewrite (proj2 (Z.eqb_neq _ 0) Hnz). wp_step. wp_step. rewrite Hw, HP.
      rewrite tst_mk_pte by (done || by split). change (tst PTE_UW PTE_U) with true. cbv [negb]. wp_step.
      destruct (mk_pte_spec f PTE_UW) as (-> & _ & _); [done|apply PTE_UW_range|].
      rewrite (proj2 (Z.eqb_neq f 0)) by lia. set (off := va + n - PGSIZE * v).
      assert (Hoff : 0 <= off < PGSIZE) by (unfold off, v; pg_lia).
      rewrite u32_small by (unfold PGSIZE in *; lia). set (c := Z.min (PGSIZE - off) len1). do 2 wp_step. wp_step.
      assert (Hc : 0 < c <= len1) by (unfold c; lia).
      assert (Hlc : length (take (Z.to_nat c) (drop (Z.to_nat n) p)) = Z.to_nat c) by (rewrite length_take, length_drop; lia).
      rewrite u32_small by pg_lia. split.
      * exists (n + c). split_and!; [lia|lia|lia| | | | |].
        -- intros Hpos. unfold c, off in *. lia.
        -- rewrite drop_drop. f_equal. lia.
        -- apply uvm_write; [done|by eapply list_elem_of_lookup_2|]. rewrite length_splice; [done|].
           fold c. rewrite Hlc, Hfl. unfold PGLEN. lia.
        -- fold c. unfold copy_to_page. rewrite (umem_write _ _ _ _ _ _ (uvm_NoDup _ _ _ _ _ _ _ Hu1) (fun f H => proj2 (u_frames Hu1 f H)) Hf)
             by (rewrite Hlc; unfold PGLEN; lia).
           rewrite Hm1. replace (Z.to_nat v * PGLEN + Z.to_nat off)%nat with (Z.to_nat va + length (take (Z.to_nat n) p))%nat
             by (rewrite length_take; unfold off, PGLEN, PGSIZE in *; lia).
           rewrite splice_splice_adj.
           2:{ rewrite length_umem by (intros; by apply (u_frames Hu)). unfold PGLEN, PGSIZE in *. lia. }
           f_equal. replace (Z.to_nat (n + c)) with (Z.to_nat n + Z.to_nat c)%nat by lia.
           by rewrite take_take_drop.
        -- intros a Ha. unfold copy_to_page. rewrite page_set_ne; [by apply Hfr1|]. intros ->.
           by eapply (uvm_disjoint _ _ _ _ _ _ _ a Hu1); [eapply list_elem_of_lookup_2|].
      * assert (v <= (va + len - 1) / PGSIZE) by (unfold v; apply Z.div_le_mono; unfold PGSIZE; lia).
        fold c. replace (0 <? len1) with true by lia. destruct (0 <? len1 - c) eqn:Ec; [|lia].
        replace (PGSIZE * v + PGSIZE) with ((v + 1) * PGSIZE) by lia. rewrite Z.div_mul by done. lia.
    + wp_step. apply HQ; [done| |done]. rewrite Hm1. do 2 f_equal. lia.
  - exists 0. split_and!; try done; try lia.
    change (Z.to_nat 0) with 0%nat. by rewrite take_0, splice_nil.
  - destruct (0 <? len) eqn:E; pg_lia.
Qed.
End Space.

(** ** What the processor sees *)

(** The two-level translation of a linear address: the physical address, and
    whether user code may use it. *)
Definition translate (k : kmem) (pgdir va : Z) : option (Z * bool) :=
  let pde := word k (pgdir + 4 * PDX va) in
  if negb (tst pde PTE_P) then None else
  let pte := word k (PTE_ADDR pde + 4 * PTX va) in
  if negb (tst pte PTE_P) then None else
  Some (PTE_ADDR pte + va mod PGSIZE, tst pde PTE_U && tst pte PTE_U).

Lemma translate_pt kend k pgdir T m va :
  0 < kend -> pt kend k pgdir T m -> 0 <= va < 2 ^ 32 ->
  translate k pgdir va = (fun e => (PTE_ADDR e + va mod PGSIZE, tst e PTE_U)) <$> m !! (va / PGSIZE).
Proof.
  intros Hkend Hpt Hva. unfold translate. cbv zeta. fold (ent k pgdir (PDX va)).
  rewrite PDX_spec, PTX_spec by done. set (v := va / PGSIZE). assert (Hv : 0 <= v < 2 ^ 20) by (unfold v; pg_lia).
  pose proof (pt_pde _ _ _ _ _ Hpt (v / 1024) ltac:(pg_lia)) as Hp.
  pose proof (pt_pte _ _ _ _ _ Hpt v Hv) as Hq. destruct (T !! (v / 1024)) as [t|] eqn:Et.
  - destruct (pt_tab _ _ _ _ _ Hpt _ _ Et) as (_ & [Ht _] & _). destruct (pde_of_spec t Ht) as (HA & HP & _).
    assert (HU : tst (pde_of t) PTE_U = true) by by apply tst_lor_same.
    rewrite Hp, HP, HA, HU. cbv [negb andb]. fold (ent k t (v mod 1024)).
    destruct (m !! v) as [e|]; simpl in Hq; [destruct Hq as [-> ->]|rewrite Hq]; done.
  - by rewrite Hp, Hq.
Qed.


(** C10: [copyuvm], the memory of fork.  With 13 free pages for the page table
    and one for each page of the parent, the child gets its own directory,
    tables and frames, none shared with the parent or anyone else, with the
    parent's bytes; with fewer the result is 0.  The parent's memory and page
    table are unchanged either way, and a failure gives every page back unless
    it was already [setupkvm] that ran out. *)
Theorem copyuvm_correct kend kdata k l pgdir T m fr o sz :
  0 < kend -> (kdata mod PGSIZE = 0 /\ 0x100000 < kdata < PHYSTOP) ->
  uvm kend kdata k l pgdir T m fr o -> 0 <= sz <= USERTOP -> Z.of_nat (length fr) = npages sz ->
  exists r k' l', copyuvm kend kdata pgdir sz k = Ok r k' /\
    umem k' fr = umem k fr /\ (forall a, a ∈ o -> page k' a = page k a) /\
    ((13 + length fr <= length l)%nat ->
       exists Td md nf, uvm kend kdata k' l' r Td md nf (pgdir :: tabs T ++ fr ++ o) /\
         uvm kend kdata k' l' pgdir T m fr (r :: tabs Td ++ nf ++ o) /\
         umem k' nf = umem k fr /\ r :: tabs Td ++ nf ++ l' ≡ₚ l) /\
    ((length l < 13 + length fr)%nat ->
       r = 0 /\ uvm kend kdata k' l' pgdir T m fr o /\ ((13 <= length l)%nat -> l' ≡ₚ l)).
Proof.
  intros Hkend Hkd Hu Hsz Hlen.
  cut (wp (copyuvm kend kdata pgdir sz) (fun r k' => exists l',
    umem k' fr = umem k fr /\ (forall a, a ∈ o -> page k' a = page k a) /\
    ((13 + length fr <= length l)%nat ->
       exists Td md nf, uvm kend kdata k' l' r Td md nf (pgdir :: tabs T ++ fr ++ o) /\
         uvm kend kdata k' l' pgdir T m fr (r :: tabs Td ++ nf ++ o) /\
         umem k' nf = umem k fr /\ r :: tabs Td ++ nf ++ l' ≡ₚ l) /\
    ((length l < 13 + length fr)%nat ->
       r = 0 /\ uvm kend kdata k' l' pgdir T m fr o /\ ((13 <= length l)%nat -> l' ≡ₚ l))) k).
  { intros (r & k' & E & l' & H)%wp_elim. eauto. }
  eapply copyuvm_wp; [done|done|exact Hu|done|done|..].
  - intros k' l' d Td md nf Hup Hud Hp H12 Hd0 Hc Hfr. exists l'. split.
    { apply umem_ext. intros f Hf. apply Hfr. set_solver. }
    split; [intros a Ha; apply Hfr; set_solver|]. split.
    + intros _. exists Td, md, nf. split_and!; try done. unfold umem. by rewrite Hc.
    + intros Hlt. exfalso. rewrite <- Hp in Hlt. simpl in Hlt. rewrite !length_app, H12 in Hlt.
      apply (f_equal length) in Hc. rewrite !length_fmap in Hc. lia.
  - intros k' l' Hlt Hup Hback _ Hfr. exists l'. split.
    { apply umem_ext. intros f Hf. apply Hfr. set_solver. }
    split; [intros a Ha; apply Hfr; set_solver|]. split; [lia|]. done.
Qed.

(** C12: [allocuvm] and [deallocuvm], the memory of sbrk.  Growing a process from
    [oldsz] to [newsz] appends zeroed pages taken from the free list, or, when
    there are not enough of them, changes nothing and returns 0; beyond
    USERTOP it returns 0 at once.  Shrinking drops the last pages and returns
    them to the free list.  No other page of memory changes. *)
Theorem resize_correct kend kdata k l pgdir T m fr o oldsz newsz :
  0 < kend -> uvm kend kdata k l pgdir T m fr o -> 0 <= oldsz <= USERTOP ->
  Z.of_nat (length fr) = npages oldsz -> 0 <= newsz ->
  (USERTOP < newsz -> allocuvm kend pgdir oldsz newsz k = Ok 0 k) /\
  (oldsz <= newsz <= USERTOP -> exists r k' l' m' nf, allocuvm kend pgdir oldsz newsz k = Ok r k' /\
     uvm kend kdata k' l' pgdir T m' (fr ++ nf) o /\ nf ++ l' ≡ₚ l /\
     umem k' (fr ++ nf) = umem k fr ++ replicate (length nf * PGLEN) 0 /\
     (forall a, a ∈ o -> page k' a = page k a) /\
     (Z.of_nat (length fr + length l) < npages newsz -> r = 0 /\ nf = []) /\
     (npages newsz <= Z.of_nat (length fr + length l) ->
        r = newsz /\ Z.of_nat (length (fr ++ nf)) = npages newsz)) /\
  (newsz < oldsz -> exists k' m', deallocuvm kend pgdir oldsz newsz k = Ok newsz k' /\
     let n := Z.to_nat (npages newsz) in
     uvm kend kdata k' (reverse (drop n fr) ++ l) pgdir T m' (take n fr) o /\
     umem k' (take n fr) = take (n * PGLEN) (umem k fr) /\
     (forall a, a ∈ o -> page k' a = page k a)).
Proof.
  intros Hkend Hu Hold Hlen Hnew. split_and!.
  - intros Hgt. unfold allocuvm. by replace (USERTOP <? newsz) with true by lia.
  - intros Hr. cut (wp (allocuvm kend pgdir oldsz newsz) (fun r k' => exists l' m' nf,
      uvm kend kdata k' l' pgdir T m' (fr ++ nf) o /\ nf ++ l' ≡ₚ l /\
      umem k' (fr ++ nf) = umem k fr ++ replicate (length nf * PGLEN) 0 /\
      (forall a, a ∈ o -> page k' a = page k a) /\
      (Z.of_nat (length fr + length l) < npages newsz -> r = 0 /\ nf = []) /\
      (npages newsz <= Z.of_nat (length fr + length l) ->
         r = newsz /\ Z.of_nat (length (fr ++ nf)) = npages newsz)) k).
    { intros (r & k' & E & l' & m' & nf & H)%wp_elim. exists r, k', l', m', nf. done. }
    eapply allocuvm_wp; [done|exact Hu|lia|lia|done|..].
    + intros k' l' m' nf Hu' Hl' Hp Hfr Hz. exists l', m', nf. split_and!; try done.
      * apply (umem_grow kend Hkend); [intros f Hf; apply Hfr; set_solver|done].
      * intros a Ha. apply Hfr. set_solver.
      * intros H. exfalso. rewrite <- Hp, length_app in H. rewrite length_app in Hl'. lia.
    + intros k' l' m' Hlt Hu' Hp Hfr. exists l', m', []. rewrite app_nil_r. split_and!; try done; [|set_solver|lia].
      simpl. rewrite app_nil_r. apply umem_ext. intros f Hf. apply Hfr. set_solver.
  - intros Hlt. cut (wp (deallocuvm kend pgdir oldsz newsz) (fun r k' => r = newsz /\ exists m',
      let n := Z.to_nat (npages newsz) in
      uvm kend kdata k' (reverse (drop n fr) ++ l) pgdir T m' (take n fr) o /\
      umem k' (take n fr) = take (n * PGLEN) (umem k fr) /\ (forall a, a ∈ o -> page k' a = page k a)) k).
    { intros (r & k' & E & -> & m' & H)%wp_elim. eauto. }
    eapply deallocuvm_wp; [done|exact Hu|lia|lia|lia|]. cbv zeta. intros k' m' Hu' Hfr. split; [done|].
    exists m'. split; [done|]. split; [|intros a Ha; apply Hfr; set_solver].
    set (n := Z.to_nat (npages newsz)) in *.
    rewrite (umem_ext k k') by (intros f Hf; apply Hfr; set_solver).
    rewrite <- (take_drop n fr) at 2. rewrite umem_app, take_app_length'; [done|].
    rewrite length_umem by (intros f Hf; apply (u_frames Hu); rewrite <- (take_drop n fr); set_solver).
    rewrite length_take. f_equal. unfold n, npages in *. pg_lia.
Qed.

(** [freevm] puts every page of the address space back on the free list: the
    directory, its tables and all user pages, each once, and touches no page
    of anyone else. *)
Theorem freevm_correct kend kdata k l pgdir T m fr o :
  0 < kend -> uvm kend kdata k l pgdir T m fr o ->
  exists k' l', freevm kend pgdir k = Ok tt k' /\ kinv kend k' l' /\
    l' ≡ₚ pgdir :: tabs T ++ fr ++ l /\ (forall a, a ∈ o -> page k' a = page k a).
Proof.
  intros Hkend Hu. cut (wp (freevm kend pgdir) (fun _ k' => exists l', kinv kend k' l' /\
    l' ≡ₚ pgdir :: tabs T ++ fr ++ l /\ (forall a, a ∈ o -> page k' a = page k a)) k).
  { intros ([] & k' & E & l' & H)%wp_elim. eauto. }
  eapply freevm_wp; [done|exact Hu|]. intros k' l' H1 H2 H3. eauto.
Qed.

(** [copyout] to memory of the process overwrites exactly the [len] bytes at
    [va], across page boundaries, in the process's memory and nowhere else; to
    a page below USERTOP that the process does not have it returns -1 and
    writes nothing. *)
Theorem copyout_correct kend kdata k l pgdir T m fr o va p len :
  0 < kend -> uvm kend kdata k l pgdir T m fr o -> 0 <= va -> 0 <= len <= Z.of_nat (length p) ->
  (va + len <= PGSIZE * Z.of_nat (length fr) ->
     exists k', copyout pgdir va p len k = Ok 0 k' /\ uvm kend kdata k' l pgdir T m fr o /\
       umem k' fr = splice (Z.to_nat va) (take (Z.to_nat len) p) (umem k fr) /\
       (forall a, a ∈ o -> page k' a = page k a)) /\
  (PGSIZE * Z.of_nat (length fr) <= va < USERTOP -> 0 < len -> copyout pgdir va p len k = Ok (-1) k).
Proof.
  intros Hkend Hu Hva Hlen. split.
  - intros Hfit. cut (wp (copyout pgdir va p len) (fun r k' => r = 0 /\ uvm kend kdata k' l pgdir T m fr o /\
      umem k' fr = splice (Z.to_nat va) (take (Z.to_nat len) p) (umem k fr) /\
      (forall a, a ∈ o -> page k' a = page k a)) k).
    { intros (r & k' & E & -> & H)%wp_elim. eauto. }
    eapply copyout_wp; [done|exact Hu|done|done|done|]. auto.
  - intros Hr Hpos. pose proof Hu as [[Hpt _ _] [t0 Ht0] Hl _ Hnone _ _].
    set (v := va / PGSIZE). change UPAGES with 160 in *.
    assert (Hv : Z.of_nat (length fr) <= v < 160) by (unfold v, USERTOP in *; pg_lia).
    cut (wp (copyout pgdir va p len) (fun r k' => r = -1 /\ k' = k) k).
    { intros (r & k' & E & -> & ->)%wp_elim. done. }
    unfold copyout. rewrite Nat.add_comm. simpl. wp_step. replace (0 <? len) with true by lia.
    rewrite PGROUNDDOWN_spec by lia. replace (va - va mod PGSIZE) with (PGSIZE * v) by (unfold v; pg_lia).
    assert (Hnz : slot T (PGSIZE * v) <> 0).
    { unfold slot. rewrite PDX_spec, PTX_spec by (unfold USERTOP in *; pg_lia).
      replace (PGSIZE * v / PGSIZE / 1024) with 0 by pg_lia. rewrite Ht0.
      destruct (pt_tab _ _ _ _ _ Hpt _ _ Ht0) as (_ & Ht & _). destruct (allocatable_page _ Hkend _ Ht) as (? & _).
      pg_lia. }
    unfold uva2ka. do 2 wp_step. eapply (walk_find_wp kend Hkend); [exact Hpt|unfold USERTOP in *; pg_lia|].
    rewrite (proj2 (Z.eqb_neq _ 0) Hnz). wp_step. wp_step.
    destruct (slot_none kend k l pgdir T m (fr ++ o) v (u_vm Hu) ltac:(lia) ltac:(apply Hnone; lia)) as [E|E]; [done|].
    rewrite E. cbv [negb]. wp_step. change (0 =? 0) with true. cbv iota. wp_step. by wp_step.
Qed.

(** A machine with 40 free pages, and a first process on it. *)
Definition demo_kend : Z := PHYSTOP - 40 * PGSIZE.
Definition demo_kdata : Z := 0x110000.

Lemma demo_space : exists k l pgdir T m fr,
  uvm demo_kend demo_kdata k l pgdir T m fr [] /\ length l = 25%nat /\ length fr = 2%nat.
Proof.
  assert (Hke : 0 < demo_kend) by done.
  destruct (wp_elim _ _ _ (kinit_wp demo_kend Hke (Kmem ∅ 0) ltac:(done) eq_refl)) as ([] & k0 & _ & l0 & Hk0 & _ & Hp0).
  simpl in Hp0. assert (Hl0 : length l0 = 40%nat) by (rewrite Hp0; by vm_compute).
  assert (Hw : wp (setupkvm demo_kdata) (fun pgdir k => exists l T m, uvm demo_kend demo_kdata k l pgdir T m [] [] /\
    length l = 27%nat) k0).
  { eapply (setupkvm_wp demo_kend Hke demo_kdata ltac:(by split) k0 l0 []); [done|apply Hk0| |].
    - intros k l pgdir T m Hu Hp H12 _ _. exists l, T, m. split; [done|]. apply Permutation_length in Hp.
      simpl in Hp. rewrite length_app in Hp. lia.
    - intros k Hlt. lia. }
  destruct (wp_elim _ _ _ Hw) as (pgdir & k1 & _ & l1 & T & m & Hu1 & Hl1).
  assert (Hw2 : wp (allocuvm demo_kend pgdir 0 8192) (fun _ k => exists l m fr, uvm demo_kend demo_kdata k l pgdir T m fr [] /\
    length l = 25%nat /\ length fr = 2%nat) k1).
  { eapply (allocuvm_wp demo_kend Hke); [exact Hu1|done|done|done| |].
    - intros k l m' nf Hu Hl Hp _ _. exists l, m', nf. split; [done|]. apply Permutation_length in Hp.
      rewrite length_app in Hp. change (npages 8192) with 2 in Hl. simpl in Hl. lia.
    - intros k l m' Hlt. simpl in Hlt. change (npages 8192) with 2 in Hlt. lia. }
  destruct (wp_elim _ _ _ Hw2) as (r & k2 & _ & l2 & m2 & fr & H). exists k2, l2, pgdir, T, m2, fr. done.
Qed.


Lemma copyuvm_correct_witness : exists k l pgdir T m fr r k' l',
  uvm demo_kend demo_kdata k l pgdir T m fr [] /\
  copyuvm demo_kend demo_kdata pgdir 8000 k = Ok r k' /\
  exists Td md nf, uvm demo_kend demo_kdata k' l' r Td md nf (pgdir :: tabs T ++ fr ++ []) /\
    umem k' nf = umem k fr.
Proof.
  destruct demo_space as (k & l & pgdir & T & m & fr & Hu & Hl & Hfr).
  destruct (copyuvm_correct demo_kend demo_kdata k l pgdir T m fr [] 8000) as (r & k' & l' & E & _ & _ & Hs & _).
  - done.
  - by split.
  - exact Hu.
  - done.
  - rewrite Hfr. reflexivity.
  - destruct Hs as (Td & md & nf & H1 & _ & H2 & _); [lia|].
    exists k, l, pgdir, T, m, fr, r, k', l'. split; [exact Hu|]. split; [exact E|]. by exists Td, md, nf.
Defined.

Lemma resize_correct_witness : exists k l pgdir T m fr k' m',
  uvm demo_kend demo_kdata k l pgdir T m fr [] /\
  deallocuvm demo_kend pgdir 8000 100 k = Ok 100 k' /\
  uvm demo_kend demo_kdata k' (reverse (drop 1 fr) ++ l) pgdir T m' (take 1 fr) [].
Proof.
  destruct demo_space as (k & l & pgdir & T & m & fr & Hu & Hl & Hfr).
  destruct (resize_correct demo_kend demo_kdata k l pgdir T m fr [] 8000 100) as (_ & _ & Hd).
  - done.
  - exact Hu.
  - done.
  - rewrite Hfr. reflexivity.
  - done.
  - destruct Hd as (k' & m' & E & Hu' & _); [done|]. by exists k, l, pgdir, T, m, fr, k', m'.
Defined.

Lemma freevm_correct_witness : exists k l pgdir T m fr k' l',
  uvm demo_kend demo_kdata k l pgdir T m fr [] /\ freevm demo_kend pgdir k = Ok tt k' /\
  l' ≡ₚ pgdir :: tabs T ++ fr ++ l.
Proof.
  destruct demo_space as (k & l & pgdir & T & m & fr & Hu & Hl & Hfr).
  destruct (freevm_correct demo_kend demo_kdata k l pgdir T m fr []) as (k' & l' & E & _ & Hp & _).
  - done.
  - exact Hu.
  - by exists k, l, pgdir, T, m, fr, k', l'.
Defined.

(** Six bytes across the boundary of the two pages. *)
Lemma copyout_correct_witness : exists k l pgdir T m fr k',
  uvm demo_kend demo_kdata k l pgdir T m fr [] /\
  copyout pgdir 4093 [1; 2; 3; 4; 5; 6] 6 k = Ok 0 k' /\
  umem k' fr = splice (Z.to_nat 4093) [1; 2; 3; 4; 5; 6] (umem k fr).
Proof.
  destruct demo_space as (k & l & pgdir & T & m & fr & Hu & Hl & Hfr).
  destruct (copyout_correct demo_kend demo_kdata k l pgdir T m fr [] 4093 [1; 2; 3; 4; 5; 6] 6) as [Hin _].
  - done.
  - exact Hu.
  - done.
  - done.
  - destruct Hin as (k' & E & _ & Hm & _); [by rewrite Hfr|]. by exists k, l, pgdir, T, m, fr, k'.
Defined.
