(* ===== verification/Exec.v ===== *)
(** * Running a program: [src/exec.c] and [loaduvm] of [src/vm.c]

    [exec] builds a new address space from an ELF file, puts the arguments on
    its stack, and gives it to the process; whatever goes wrong before that, it
    gives back what it had taken.  The file is reached through the class
    [ExecFs]; memory is that of [Vm]. *)

From stdpp Require Import base numbers list gmap strings.
From Stdlib Require Import Lia ZArith ZifyBool.
From S2P Require Import Prelude Kalloc Vm.
Open Scope Z_scope.

Definition MAXARG : Z := 32.
Definition ELF_MAGIC : Z := 0x464C457F.
Definition ELF_PROG_LOAD : Z := 1.

(** ** elf.h *)

(** The fields [exec] uses, with their place in the file. *)
Record elfhdr := Elfhdr { e_magic : Z; e_entry : Z; e_phoff : Z; e_phnum : Z }.
Record proghdr := Proghdr { ph_type : Z; ph_offset : Z; ph_va : Z; ph_filesz : Z; ph_memsz : Z }.

Definition sizeof_elfhdr : Z := 52.
Definition sizeof_proghdr : Z := 32.

Definition read_elfhdr (b : list Z) : elfhdr := Elfhdr (ldw 4 b 0) (ldw 4 b 24) (ldw 4 b 28) (ldw 2 b 44).
Definition read_proghdr (b : list Z) : proghdr :=
  Proghdr (ldw 4 b 0) (ldw 4 b 4) (ldw 4 b 8) (ldw 4 b 16) (ldw 4 b 20).

(** ** State *)

(** What [exec] uses of the file system: [namei], [ilock], [readi] (its result
    and the bytes it stored) and [iunlockput]. *)
Class ExecFs (F : Type) := {
  xf_namei : list Z -> M F (option nat);
  xf_ilock : nat -> M F unit;
  xf_readi : nat -> Z -> Z -> M F (Z * list Z);
  xf_iunlockput : nat -> M F unit
}.

(** The fields of the process that [exec] sets. *)
Record xproc := XProc { x_pgdir : Z; x_sz : Z; x_eip : Z; x_esp : Z; x_name : list Z }.

Record xstate (F : Type) := XState { xs_f : F; xs_k : kmem; xs_p : xproc }.
Arguments XState {F} xs_f xs_k xs_p.
Arguments xs_f {F} _.
Arguments xs_k {F} _.
Arguments xs_p {F} _.

Section Exec.
Context {F : Type} `{!ExecFs F} (kend kdata : Z).

Notation X := (xstate F).

Definition on_f {A} (m : M F A) : M X A := zoom xs_f (fun f s => XState f (xs_k s) (xs_p s)) m.
Definition on_mem {A} (m : M kmem A) : M X A := zoom xs_k (fun k s => XState (xs_f s) k (xs_p s)) m.

(** ** loaduvm *)

Definition loaduvm (pgdir addr : Z) (ip : nat) (offset sz : Z) : M X Z :=
  if negb (addr mod PGSIZE =? 0) then panic "loaduvm: addr must be page aligned" else
  loop (Z.to_nat (sz / PGSIZE) + 2) (fun i : Z =>
    if i <? sz then
      pte ← on_mem (walkpgdir pgdir (u32 (addr + i)) false);
      if pte =? 0 then panic "loaduvm: address should exist" else
      v ← on_mem (gets (fun k => word k pte));
      if negb (tst v PTE_P) then panic "loaduvm: page not present" else
      let pa := PTE_ADDR v in
      let n := if sz - i <? PGSIZE then sz - i else PGSIZE in
      rb ← on_f (xf_readi ip (u32 (offset + i)) n);
      on_mem (modify (copy_to_page pa 0 (snd rb)));;
      if negb (fst rb =? n) then mret (inr (-1))
      else mret (inl (u32 (i + PGSIZE)))
    else mret (inr 0)) 0.

(** ** exec *)

(** [bad:] with the page directory (0 is null) and the inode still held. *)
Definition bad (pgdir : Z) (ip : option nat) : M X Z :=
  when (negb (pgdir =? 0)) (on_mem (freevm kend pgdir));;
  match ip with Some i => on_f (xf_iunlockput i) | None => mret tt end;;
  mret (-1).

(** The loop over the program headers: the size of the program, or [None] for
    [goto bad].  [num] headers are left, the next one at [off]. *)
Fixpoint load_segments (num : nat) (pgdir : Z) (ip : nat) (off sz : Z) : M X (option Z) :=
  match num with
  | O => mret (Some sz)
  | S num =>
      rb ← on_f (xf_readi ip off sizeof_proghdr);
      if negb (fst rb =? sizeof_proghdr) then mret None else
      let ph := read_proghdr (snd rb) in
      if negb (ph_type ph =? ELF_PROG_LOAD) then load_segments num pgdir ip (u32 (off + sizeof_proghdr)) sz else
      if ph_memsz ph <? ph_filesz ph then mret None else
      sz ← on_mem (allocuvm kend pgdir sz (u32 (ph_va ph + ph_memsz ph)));
      if sz =? 0 then mret None else
      r ← loaduvm pgdir (ph_va ph) ip (ph_offset ph) (ph_filesz ph);
      if r <? 0 then mret None else load_segments num pgdir ip (u32 (off + sizeof_proghdr)) sz
  end.

(** The loop over argv: the stack pointer and ustack[3 ..], or [None].  [argc]
    strings have been pushed, the rest is [argv]. *)
Fixpoint push_args (pgdir : Z) (argv : list (list Z)) (argc sp : Z) (ptrs : list Z) : M X (option (Z * list Z)) :=
  match argv with
  | [] => mret (Some (sp, ptrs))
  | s :: argv =>
      if MAXARG <=? argc then mret None else
      let n := Z.of_nat (length s) + 1 in
      let sp := clr (u32 (sp - n)) 3 in
      r ← on_mem (copyout pgdir sp (s ++ [0]) n);
      if r <? 0 then mret None else push_args pgdir argv (argc + 1) sp (ptrs ++ [sp])
  end.

(** The characters after the last slash. *)
Definition last_elem (path : list Z) : list Z :=
  foldl (fun last c => if c =? 47 then [] else last ++ [c]) [] path.

(** [ustack]: a fake return address, argc, argv, and the pointers. *)
Definition ustack (sp : Z) (ptrs : list Z) : list Z :=
  let argc := Z.of_nat (length ptrs) in
  [0xffffffff; argc; u32 (sp - (argc + 1) * 4)] ++ ptrs ++ [0].

(** From [Push argument strings] on: the program and its stack, [sz] bytes, are
    in [pgdir]. *)
Definition exec_args (path : list Z) (argv : list (list Z)) (elf : elfhdr) (pgdir sz : Z) : M X Z :=
  r ← push_args pgdir argv 0 sz [];
  match r with
  | None => bad pgdir None
  | Some (sp, ptrs) =>
      let len := (3 + Z.of_nat (length ptrs) + 1) * 4 in
      let us := ustack sp ptrs in
      let sp := u32 (sp - len) in
      r ← on_mem (copyout pgdir sp (us ≫= le_enc 4) len);
      if r <? 0 then bad pgdir None else
      p ← gets xs_p;
      modify (fun s => XState (xs_f s) (xs_k s) (XProc pgdir sz (e_entry elf) sp (take 15 (last_elem path))));;
      on_mem (freevm kend (x_pgdir p));;
      mret 0
  end.

(** From [Allocate a one-page stack] on: the program, [sz] bytes, is in
    [pgdir], and the inode has been put. *)
Definition exec_image (path : list Z) (argv : list (list Z)) (elf : elfhdr) (pgdir sz : Z) : M X Z :=
  let sz := PGROUNDUP sz in
  sz ← on_mem (allocuvm kend pgdir sz (u32 (sz + PGSIZE)));
  if sz =? 0 then bad pgdir None else exec_args path argv elf pgdir sz.

Definition exec (path : list Z) (argv : list (list Z)) : M X Z :=
  ipo ← on_f (xf_namei path);
  match ipo with
  | None => mret (-1)
  | Some ip =>
      on_f (xf_ilock ip);;
      rb ← on_f (xf_readi ip 0 sizeof_elfhdr);
      if fst rb <? sizeof_elfhdr then bad 0 (Some ip) else
      let elf := read_elfhdr (snd rb) in
      if negb (e_magic elf =? ELF_MAGIC) then bad 0 (Some ip) else
      pgdir ← on_mem (setupkvm kdata);
      if pgdir =? 0 then bad 0 (Some ip) else
      r ← load_segments (Z.to_nat (e_phnum elf)) pgdir ip (e_phoff elf) 0;
      match r with
      | None => bad pgdir (Some ip)
      | Some sz => on_f (xf_iunlockput ip);; exec_image path argv elf pgdir sz
      end
  end.

End Exec.
