(* ===== verification/ExecCorrect.v ===== *)
(** * [exec] replaces the address space of the process, or changes nothing

    [load_spec] says what memory an ELF file describes; [exec] of a file whose
    segments do not wrap around the address space gives the process exactly
    that memory with its arguments on the stack, and frees the old one; if it
    fails it frees every page it had taken. *)

From stdpp Require Import base numbers list gmap strings.
From Stdlib Require Import Lia ZArith ZifyBool.
From S2P Require Import Prelude Kalloc Vm VmMap VmUser VmSpace Exec.
Open Scope Z_scope.

(** ** What a file promises *)

Definition is_u32 (x : Z) : Prop := 0 <= x < 2 ^ 32.

(** [readi] of the bytes [c]: the result, and what it stores. *)
Definition file_read (c : list Z) (off n : Z) : Z * list Z :=
  let size := Z.of_nat (length c) in
  if (size <? off) || (2 ^ 32 <=? off + n) then (-1, [])
  else let m := Z.min n (size - off) in (m, slice (Z.to_nat off) (Z.to_nat m) c).

(** [xf_open f i c]: inode [i] is locked and holds the bytes [c]. *)
Class ExecFsLaws (F : Type) `{!ExecFs F} := {
  xf_open : F -> nat -> list Z -> Prop;
  xf_bytes f i c : xf_open f i c -> Prelude.bytes c /\ Z.of_nat (length c) < 2 ^ 31;
  xf_readi_law f i c off n : xf_open f i c -> is_u32 off -> is_u32 n ->
    exists f', xf_readi i off n f = Ok (file_read c off n) f' /\ xf_open f' i c
}.

(** The [sz] bytes at [offset] are in the file. *)
Definition fits (c : list Z) (offset sz : Z) : bool := (sz =? 0) || (offset + sz <=? Z.of_nat (length c)).

Section Loaduvm.
Context {F : Type} `{!ExecFs F} `{!ExecFsLaws F} (kend : Z) (Hkend : 0 < kend) (kdata : Z).
Implicit Types (f : F) (c : list Z) (k : kmem).

Abbreviation uvm := (uvm kend kdata).

Lemma wp_on_f {A} (m : M F A) (Q : A -> xstate F -> Prop) f k p a f' :
  m f = Ok a f' -> Q a (XState f' k p) -> wp (on_f m) Q (XState f k p).
Proof. intros Hm HQ. unfold on_f. wp_step. unfold wp. cbn [xs_f]. by rewrite Hm. Qed.

Lemma wp_on_mem {A} (m : M kmem A) (Q : A -> xstate F -> Prop) f k p :
  wp m (fun a k' => Q a (XState f k' p)) k -> wp (on_mem m) Q (XState f k p).
Proof. intros Hm. unfold on_mem. wp_step. exact Hm. Qed.

Lemma slice_app_adj {A} i n m (b : list A) : slice i n b ++ slice (i + n) m b = slice i (n + m) b.
Proof. unfold slice. by rewrite <- drop_drop, take_take_drop. Qed.

Lemma file_read_full c off n :
  is_u32 off -> 0 < n -> Z.of_nat (length c) < 2 ^ 31 ->
  fst (file_read c off n) = n <-> off + n <= Z.of_nat (length c).
Proof. intros Ho Hn Hc. unfold file_read, is_u32 in *. case_match; simpl; lia. Qed.

Lemma file_read_bytes c off n :
  off + n <= Z.of_nat (length c) -> is_u32 off -> 0 <= n -> Z.of_nat (length c) < 2 ^ 31 ->
  file_read c off n = (n, slice (Z.to_nat off) (Z.to_nat n) c).
Proof.
  intros Hle Ho Hn Hc. unfold file_read, is_u32 in *.
  replace ((_ <? off) || _) with false by lia. by rewrite Z.min_l by lia.
Qed.

Lemma file_read_length c off n : is_u32 off -> 0 <= n -> (length (snd (file_read c off n)) <= Z.to_nat n)%nat.
Proof. intros Ho Hn. unfold file_read. case_match; simpl; [lia|]. rewrite length_slice. lia. Qed.

(** Storing [bs] at the start of page [i] of the process. *)
Lemma uvm_store k l pgdir T m fr o i g bs :
  uvm k l pgdir T m fr o -> fr !! i = Some g -> (length bs <= PGLEN)%nat ->
  uvm (copy_to_page g 0 bs k) l pgdir T m fr o /\
  umem (copy_to_page g 0 bs k) fr = splice (i * PGLEN) bs (umem k fr) /\
  (forall a, a ∈ o -> page (copy_to_page g 0 bs k) a = page k a).
Proof.
  intros Hu Hg Hbs. destruct (u_frames Hu g) as [Hga Hgl]; [by eapply list_elem_of_lookup_2|].
  unfold copy_to_page. change (Z.to_nat 0) with 0%nat. split_and!.
  - apply (uvm_write kend Hkend); [done|by eapply list_elem_of_lookup_2|]. rewrite length_splice; [done|]. lia.
  - rewrite (umem_write kend Hkend _ _ i); [by rewrite Nat.add_0_r|by eapply uvm_NoDup| |done|lia].
    intros h Hh. by apply (u_frames Hu).
  - intros a Ha. rewrite page_set_ne; [done|]. intros ->.
    eapply (uvm_disjoint kend kdata); [exact Hu| |exact Ha]. by eapply list_elem_of_lookup_2.
Qed.

(** [walkpgdir] at page [v] of the process. *)
Lemma walk_user_wp k l pgdir T m fr o v g (Q : Z -> kmem -> Prop) :
  uvm k l pgdir T m fr o -> 0 <= v -> fr !! Z.to_nat v = Some g ->
  (forall pte, pte <> 0 -> tst (word k pte) PTE_P = true -> PTE_ADDR (word k pte) = g -> Q pte k) ->
  wp (walkpgdir pgdir (PGSIZE * v) false) Q k.
Proof.
  intros Hu Hv Hg HQ. pose proof (u_len Hu) as Hl. change UPAGES with 160 in Hl.
  pose proof (lookup_lt_Some _ _ _ Hg). assert (Hv20 : 0 <= v < 2 ^ 20) by lia.
  pose proof (u_map Hu _ _ Hg) as Hm. rewrite Z2Nat.id in Hm by lia.
  destruct (u_frames Hu g) as [Hga _]; [by eapply list_elem_of_lookup_2|].
  eapply (walk_find_wp kend Hkend); [apply Hu|pg_lia|].
  destruct (slot_entry _ Hkend _ _ _ _ _ _ _ _ (u_vm Hu) Hv20 Hm) as (t & _ & -> & Hnz & Hw & HP).
  apply HQ; [done|by rewrite Hw|]. rewrite Hw. by destruct (mk_pte_spec g PTE_UW) as (-> & _ & _); [apply Hga|apply PTE_UW_range|].
Qed.

Lemma loaduvm_wp f k p l pgdir T m fr o va ip c offset sz (Q : Z -> xstate F -> Prop) :
  uvm k l pgdir T m fr o -> xf_open f ip c ->
  va mod PGSIZE = 0 -> 0 <= va -> 0 <= sz -> va + sz <= PGSIZE * Z.of_nat (length fr) -> is_u32 offset ->
  (forall f' k', xf_open f' ip c -> uvm k' l pgdir T m fr o -> (forall a, a ∈ o -> page k' a = page k a) ->
     (fits c offset sz = true ->
        umem k' fr = splice (Z.to_nat va) (slice (Z.to_nat offset) (Z.to_nat sz) c) (umem k fr)) ->
     Q (if fits c offset sz then 0 else -1) (XState f' k' p)) ->
  wp (loaduvm pgdir va ip offset sz) Q (XState f k p).
Proof.
  intros Hu Hopen Hva Hva0 Hsz Hfit Hoff HQ. destruct (xf_bytes _ _ _ Hopen) as [_ Hc].
  pose proof (u_len Hu) as Hl. change UPAGES with 160 in Hl. unfold is_u32 in Hoff.
  unfold loaduvm. rewrite Hva. change (negb (0 =? 0)) with false. cbv iota.
  apply (wp_loop (fun i s => exists j f1 k1, s = XState f1 k1 p /\ i = PGSIZE * j /\ 0 <= j /\ (j = 0 \/ PGSIZE * (j - 1) < sz) /\
      xf_open f1 ip c /\ uvm k1 l pgdir T m fr o /\ (forall a, a ∈ o -> page k1 a = page k a) /\
      fits c offset (Z.min i sz) = true /\
      umem k1 fr = splice (Z.to_nat va) (slice (Z.to_nat offset) (Z.to_nat (Z.min i sz)) c) (umem k fr))
    (fun i _ => Z.to_nat (sz / PGSIZE + 1 - i / PGSIZE))).
  - intros i s (j & f1 & k1 & -> & -> & Hj & Hjs & Ho1 & Hu1 & Hfr1 & Hfit1 & Hm1). wp_step; rename H into Hlt.
    + rewrite Z.min_l in Hfit1, Hm1 by lia. set (n := if _ <? PGSIZE then _ else _).
      assert (Hn : 0 < n <= PGSIZE /\ n = Z.min (sz - PGSIZE * j) PGSIZE) by (unfold n; destruct (sz - PGSIZE * j <? PGSIZE) eqn:En; unfold PGSIZE in *; lia).
      clearbody n. destruct Hn as [Hn Hneq].
      rewrite (u32_small (va + _)) by pg_lia. set (v := va / PGSIZE + j).
      replace (va + PGSIZE * j) with (PGSIZE * v) by (unfold v; pg_lia).
      assert (Hv : 0 <= v < Z.of_nat (length fr)) by (unfold v; pg_lia).
      destruct (lookup_lt_is_Some_2 fr (Z.to_nat v)) as [g Hg]; [lia|].
      wp_step. apply wp_on_mem. eapply walk_user_wp; [done|lia|done|]. intros pte Hnz HP Hpa.
      rewrite (proj2 (Z.eqb_neq pte 0)) by done. wp_step. apply wp_on_mem. wp_step. rewrite HP. cbv [negb]. rewrite Hpa.
      assert (Ho : is_u32 (offset + PGSIZE * j) /\ offset + PGSIZE * j <= Z.of_nat (length c) \/ j = 0)
        by (unfold fits, is_u32 in *; pg_lia).
      rewrite (u32_small (offset + _)) by (unfold is_u32 in *; pg_lia).
      assert (Ho' : is_u32 (offset + PGSIZE * j)) by (unfold is_u32 in *; pg_lia).
      destruct (xf_readi_law f1 ip c (offset + PGSIZE * j) n Ho1 Ho') as (f2 & Hr & Ho2); [unfold is_u32; pg_lia|].
      wp_step. eapply wp_on_f; [exact Hr|]. wp_step. apply wp_on_mem. wp_step.
      set (rb := file_read c (offset + PGSIZE * j) n) in *.
      destruct (uvm_store _ _ _ _ _ _ _ _ _ (snd rb) Hu1 Hg) as (Hu2 & Hm2 & Hfr2).
      { pose proof (file_read_length c (offset + PGSIZE * j) n Ho'). unfold PGLEN. fold rb in H. lia. }
      pose proof (file_read_full c (offset + PGSIZE * j) n Ho' ltac:(lia) Hc) as Hfull. fold rb in Hfull.
      destruct (Z.eqb_spec (fst rb) n) as [E|E]; cbv [negb]; wp_step; revgoals.
      * assert (Hnf : ~ offset + PGSIZE * j + n <= Z.of_nat (length c)) by (by rewrite <- Hfull).
        assert (Hno : fits c offset sz = false) by (unfold fits, PGSIZE in *; lia). rewrite Hno in HQ. apply HQ; try done.
        intros a Ha. rewrite Hfr2 by done. by apply Hfr1.
      * rewrite u32_small by pg_lia. assert (Hle : offset + PGSIZE * j + n <= Z.of_nat (length c)) by (by apply Hfull).
        split; [|rewrite <- (Z.mul_1_r PGSIZE) at 3; rewrite <- Z.mul_add_distr_l, !(Z.mul_comm PGSIZE), !Z.div_mul by done; pg_lia].
        exists (j + 1), f2, (copy_to_page g 0 (snd rb) k1). split_and!; try done; try lia.
        -- intros a Ha. rewrite Hfr2 by done. by apply Hfr1.
        -- unfold fits. lia.
        -- rewrite Hm2, Hm1. unfold rb. rewrite file_read_bytes by (done || lia). cbn [snd].
           assert (Hls : length (slice (Z.to_nat offset) (Z.to_nat (PGSIZE * j)) c) = Z.to_nat (PGSIZE * j))
             by (rewrite length_slice; lia).
           replace (Z.to_nat v * PGLEN)%nat
             with (Z.to_nat va + length (slice (Z.to_nat offset) (Z.to_nat (PGSIZE * j)) c))%nat
             by (rewrite Hls; unfold v, PGLEN; pg_lia).
           rewrite splice_splice_adj by (rewrite length_umem by (intros; by apply (u_frames Hu)); unfold PGLEN; pg_lia).
           rewrite Z2Nat.inj_add, slice_app_adj by pg_lia. do 2 f_equal. pg_lia.
    + wp_step. rewrite Z.min_r in Hfit1, Hm1 by lia. specialize (HQ f1 k1 Ho1 Hu1 Hfr1 (fun _ => Hm1)).
      by rewrite Hfit1 in HQ.
  - exists 0, f, k. rewrite Z.mul_0_r, Z.min_l by lia. split_and!; try done; try lia.
    change (Z.to_nat 0) with 0%nat. unfold slice. by rewrite take_0, splice_nil.
  - change (0 / PGSIZE) with 0. rewrite Z.sub_0_r. pg_lia.
Qed.
End Loaduvm.

(** ** The memory an ELF file describes *)

(** [mem] extended with zeroes to the pages of a program of [sz] bytes. *)
Definition grow (mem : list Z) (sz : Z) : list Z :=
  mem ++ replicate (Z.to_nat (PGSIZE * npages sz) - length mem) 0.

Definition seg_spec (c : list Z) (ph : proghdr) (st : list Z * Z) : option (list Z * Z) :=
  let '(mem, sz) := st in
  let top := ph_va ph + ph_memsz ph in
  if (ph_memsz ph <? ph_filesz ph) || (USERTOP <? top) || (Z.max sz top =? 0) || negb (fits c (ph_offset ph) (ph_filesz ph))
  then None
  else Some (splice (Z.to_nat (ph_va ph)) (slice (Z.to_nat (ph_offset ph)) (Z.to_nat (ph_filesz ph)) c)
               (grow mem (Z.max sz top)), Z.max sz top).

(** The program header at [off]. *)
Definition header_at (c : list Z) (off : Z) : option proghdr :=
  if off + sizeof_proghdr <=? Z.of_nat (length c) then Some (read_proghdr (slice (Z.to_nat off) 32 c)) else None.

Fixpoint load_spec (c : list Z) (num : nat) (off : Z) (st : list Z * Z) : option (list Z * Z) :=
  match num with
  | O => Some st
  | S num =>
      ph ← header_at c off;
      if ph_type ph =? ELF_PROG_LOAD
      then st' ← seg_spec c ph st; load_spec c num (u32 (off + sizeof_proghdr)) st'
      else load_spec c num (u32 (off + sizeof_proghdr)) st
  end.

(** Every segment starts at a page and ends below 4 GB. *)
Definition seg_sane (ph : proghdr) : bool :=
  (ph_va ph mod PGSIZE =? 0) && (ph_va ph + ph_memsz ph <? 2 ^ 32).

Fixpoint sane (c : list Z) (num : nat) (off : Z) : bool :=
  match num with
  | O => true
  | S num =>
      match header_at c off with
      | None => true
      | Some ph => (negb (ph_type ph =? ELF_PROG_LOAD) || seg_sane ph) && sane c num (u32 (off + sizeof_proghdr))
      end
  end.

Lemma read_proghdr_range b :
  Prelude.bytes b -> length b = 32%nat ->
  let ph := read_proghdr b in
  0 <= ph_offset ph < 2 ^ 32 /\ 0 <= ph_va ph < 2 ^ 32 /\ 0 <= ph_filesz ph < 2 ^ 32 /\ 0 <= ph_memsz ph < 2 ^ 32.
Proof.
  intros Hb Hl. cbn. pose proof (fun i H => ldw_range 4 b i Hb H) as Hr.
  split_and!; apply Hr; lia.
Qed.

Lemma load_spec_at c num off ph st :
  header_at c off = Some ph ->
  load_spec c (S num) off st =
    if ph_type ph =? ELF_PROG_LOAD
    then seg_spec c ph st ≫= load_spec c num (u32 (off + sizeof_proghdr))
    else load_spec c num (u32 (off + sizeof_proghdr)) st.
Proof. intros H. cbn [load_spec]. by rewrite H. Qed.

Lemma load_spec_end c num off st : header_at c off = None -> load_spec c (S num) off st = None.
Proof. intros H. cbn [load_spec]. by rewrite H. Qed.

Lemma load_spec_grows c num off st mem sz :
  load_spec c num off st = Some (mem, sz) -> snd st <= sz.
Proof.
  revert off st. induction num as [|num IH]; intros off st H; simpl in H; [by simplify_eq|].
  destruct (header_at c off) as [ph|]; [|done]. simpl in H.
  destruct (ph_type ph =? ELF_PROG_LOAD); [|by eapply IH].
  destruct (seg_spec c ph st) as [st'|] eqn:E; [|done]. apply IH in H.
  destruct st as [m0 s0]. unfold seg_spec in E. case_match; simplify_eq. simpl in *. lia.
Qed.

Section Segments.
Context {F : Type} `{!ExecFs F} `{!ExecFsLaws F} (kend : Z) (Hkend : 0 < kend) (kdata : Z).
Implicit Types (f : F) (c : list Z) (k : kmem).

Abbreviation uvm := (uvm kend kdata).

Lemma length_umem_uvm k l pgdir T m fr o : uvm k l pgdir T m fr o -> length (umem k fr) = (length fr * PGLEN)%nat.
Proof. intros Hu. apply length_umem. intros g Hg. by apply (u_frames Hu). Qed.

Lemma grow_pages mem n sz :
  length mem = (n * PGLEN)%nat -> Z.of_nat n <= npages sz -> 0 <= sz ->
  grow mem sz = mem ++ replicate ((Z.to_nat (npages sz) - n) * PGLEN) 0.
Proof. intros Hm Hn Hsz. unfold grow. do 2 f_equal. rewrite Hm. unfold PGLEN, npages, PGSIZE in *. lia. Qed.

(** [allocuvm] as [exec] uses it: it never shrinks the program. *)
Lemma allocuvm_max_wp k l pgdir T m fr o sz newsz (Q : Z -> kmem -> Prop) :
  uvm k l pgdir T m fr o -> 0 <= sz <= USERTOP -> Z.of_nat (length fr) = npages sz -> 0 <= newsz ->
  (newsz <= USERTOP -> forall k' l' m' nf, uvm k' l' pgdir T m' (fr ++ nf) o -> nf ++ l' ≡ₚ l ->
     Z.of_nat (length (fr ++ nf)) = npages (Z.max sz newsz) ->
     umem k' (fr ++ nf) = grow (umem k fr) (Z.max sz newsz) ->
     (forall a, a ∈ o -> page k' a = page k a) -> Q (Z.max sz newsz) k') ->
  (forall k' l' m', USERTOP < newsz \/ Z.of_nat (length fr + length l) < npages (Z.max sz newsz) ->
     uvm k' l' pgdir T m' fr o -> l' ≡ₚ l ->
     (forall a, a ∈ o -> page k' a = page k a) -> Q 0 k') ->
  wp (allocuvm kend pgdir sz newsz) Q k.
Proof.
  intros Hu Hsz Hlen Hnew HQ HQ0. pose proof (length_umem_uvm _ _ _ _ _ _ _ Hu) as Hum.
  destruct (Z.ltb_spec USERTOP newsz) as [Htop|Htop].
  { unfold allocuvm. replace (USERTOP <? newsz) with true by lia. wp_step. by apply (HQ0 k l m); [left| | |]. }
  destruct (Z.ltb_spec newsz sz) as [Hlt|Hlt].
  { unfold allocuvm. replace (USERTOP <? newsz) with false by lia. replace (newsz <? sz) with true by lia. wp_step.
    rewrite Z.max_l in HQ by lia. apply (HQ Htop k l m []); rewrite ?app_nil_r; try done.
    rewrite (grow_pages _ (length fr)) by (done || lia). replace (Z.to_nat (npages sz) - length fr)%nat with 0%nat by lia.
    simpl. by rewrite app_nil_r. }
  rewrite Z.max_r in HQ, HQ0 by lia.
  assert (Hmono : npages sz <= npages newsz) by (unfold npages; pg_lia).
  eapply (allocuvm_wp kend Hkend kdata); [exact Hu|lia|lia|done|..].
  - intros k' l' m' nf Hu' Hl' Hp Hfr Hz. apply (HQ Htop k' l' m' nf); try done; [|intros a Ha; apply Hfr; set_solver].
    rewrite (umem_grow kend Hkend k) by (try done; intros g Hg; apply Hfr; set_solver).
    rewrite (grow_pages _ (length fr)) by (done || lia). do 3 f_equal. rewrite length_app in Hl'. lia.
  - intros k' l' m' Hlt' Hu' Hp Hfr. apply (HQ0 k' l' m'); try done; [by right|]. intros a Ha. apply Hfr. set_solver.
Qed.

Lemma load_segments_wp ip c num : forall f k p l pgdir T m fr o off sz (Q : option Z -> xstate F -> Prop),
  uvm k l pgdir T m fr o -> xf_open f ip c -> 0 <= sz <= USERTOP -> Z.of_nat (length fr) = npages sz ->
  is_u32 off -> sane c num off = true ->
  (forall f' k' l' m' nf sz', xf_open f' ip c -> uvm k' l' pgdir T m' (fr ++ nf) o -> nf ++ l' ≡ₚ l ->
     0 <= sz' <= USERTOP -> Z.of_nat (length (fr ++ nf)) = npages sz' -> (forall a, a ∈ o -> page k' a = page k a) ->
     load_spec c num off (umem k fr, sz) = Some (umem k' (fr ++ nf), sz') -> Q (Some sz') (XState f' k' p)) ->
  (forall f' k' l' m' nf, xf_open f' ip c -> uvm k' l' pgdir T m' (fr ++ nf) o -> nf ++ l' ≡ₚ l ->
     (forall a, a ∈ o -> page k' a = page k a) ->
     (forall mem sz', load_spec c num off (umem k fr, sz) = Some (mem, sz') ->
        Z.of_nat (length fr + length l) < npages sz') -> Q None (XState f' k' p)) ->
  wp (load_segments kend num pgdir ip off sz) Q (XState f k p).
Proof.
  induction num as [|num IH]; intros f k p l pgdir T m fr o off sz Q Hu Hopen Hsz Hlen Hoff Hsane HQ HQ0; cbn [load_segments].
  { wp_step. apply (HQ f k l m []); rewrite ?app_nil_r; done. }
  destruct (xf_bytes _ _ _ Hopen) as [Hb Hc].
  assert (H32 : is_u32 sizeof_proghdr) by (unfold is_u32, sizeof_proghdr; lia).
  destruct (xf_readi_law f ip c off sizeof_proghdr Hopen Hoff H32) as (f1 & Hr & Ho1).
  wp_step. eapply wp_on_f; [exact Hr|]. cbn [sane] in Hsane.
  pose proof (file_read_full c off sizeof_proghdr Hoff ltac:(unfold sizeof_proghdr; lia) Hc) as Hfull.
  destruct (Z.eqb_spec (fst (file_read c off sizeof_proghdr)) sizeof_proghdr) as [E|E]; cbv [negb].
  2:{ wp_step. assert (Hno : header_at c off = None).
      { unfold header_at. rewrite Hfull in E. by rewrite (proj2 (Z.leb_gt _ _)) by lia. }
      apply (HQ0 f1 k l m []); rewrite ?app_nil_r; try done. by rewrite load_spec_end. }
  apply Hfull in E. rewrite (file_read_bytes c off sizeof_proghdr) by (done || unfold sizeof_proghdr in *; lia). cbn [snd].
  change (Z.to_nat sizeof_proghdr) with 32%nat.
  destruct (read_proghdr_range (slice (Z.to_nat off) 32 c)) as (R1 & R2 & R3 & R4);
    [by apply bytes_slice|rewrite length_slice; unfold sizeof_proghdr, is_u32 in *; lia|].
  set (ph := read_proghdr _) in *.
  assert (Hph : header_at c off = Some ph) by (unfold header_at; by rewrite (proj2 (Z.leb_le _ _) E)).
  clearbody ph. rewrite (load_spec_at _ _ _ _ _ Hph) in HQ, HQ0. rewrite Hph in Hsane.
  assert (Hoff' : is_u32 (u32 (off + sizeof_proghdr))) by apply u32_range.
  apply andb_true_iff in Hsane as [Hseg Hsane]. revert Hseg HQ HQ0.
  destruct (ph_type ph =? ELF_PROG_LOAD); cbv [negb orb]; intros Hseg HQ HQ0; cycle 1.
  { eapply IH; [exact Hu|exact Ho1|done|done|done|done|exact HQ|exact HQ0]. }
  apply andb_true_iff in Hseg as [Hal Hwrap]. apply Z.eqb_eq in Hal. apply Z.ltb_lt in Hwrap.
  rewrite (u32_small (_ + ph_memsz ph)) by lia. set (top := ph_va ph + ph_memsz ph) in *.
  destruct (ph_memsz ph <? ph_filesz ph) eqn:Em.
  { wp_step. apply (HQ0 f1 k l m []); rewrite ?app_nil_r; try done. unfold seg_spec. by rewrite Em. }
  wp_step. apply wp_on_mem. eapply allocuvm_max_wp; [exact Hu|done|done|lia|..]; cycle 1.
  { intros k1 l1 m1 Hwhy Hu1 Hp1 Hfr1. rewrite Z.eqb_refl. wp_step.
    apply (HQ0 f1 k1 l1 m1 []); rewrite ?app_nil_r; try done. intros mem sz' Hs.
    destruct (seg_spec c ph (umem k fr, sz)) as [st|] eqn:Es; [|done]. apply load_spec_grows in Hs.
    unfold seg_spec in Es. fold top in Es. case_match; simplify_eq. simpl in Hs.
    assert (npages (Z.max sz top) <= npages sz') by (unfold npages; pg_lia). lia. }
  intros Htop k1 l1 m1 nf Hu1 Hp1 Hl1 Hm1 Hfr1. destruct (Z.max sz top =? 0) eqn:E0.
  { wp_step. apply (HQ0 f1 k1 l1 m1 nf); try done. unfold seg_spec. fold top. rewrite E0, orb_true_r. done. }
  wp_step. eapply (loaduvm_wp kend Hkend kdata); [exact Hu1|exact Ho1|done|lia|lia| |done|].
  { rewrite Hl1. unfold npages. pg_lia. }
  intros f2 k2 Ho2 Hu2 Hfr2 Hm2. destruct (fits c (ph_offset ph) (ph_filesz ph)) eqn:Ef; cycle 1.
  { change (-1 <? 0) with true. cbv iota. wp_step. apply (HQ0 f2 k2 l1 m1 nf); try done; [intros a Ha; rewrite Hfr2 by done; by apply Hfr1|].
    unfold seg_spec. fold top. rewrite Ef, !orb_true_r. done. }
  assert (Hspec : seg_spec c ph (umem k fr, sz) = Some (umem k2 (fr ++ nf), Z.max sz top)).
  { unfold seg_spec. fold top. rewrite Em, E0, Ef. replace (USERTOP <? top) with false by lia.
    simpl. by rewrite Hm2, Hm1. }
  rewrite Hspec in HQ, HQ0. simpl in HQ, HQ0. change (0 <? 0) with false. cbv iota.
  eapply (IH f2 k2 p l1 pgdir T m1 (fr ++ nf)); [exact Hu2|done|lia|done|done|done|..].
  - intros f3 k3 l3 m3 nf3 sz3 Ho3 Hu3 Hp3 Hsz3 Hl3 Hfr3 Hs3. rewrite <- app_assoc in Hu3, Hl3, Hs3.
    apply (HQ f3 k3 l3 m3 (nf ++ nf3)); try done.
    + by rewrite <- app_assoc, Hp3, Hp1.
    + intros a Ha. rewrite Hfr3, Hfr2 by done. by apply Hfr1.
  - intros f3 k3 l3 m3 nf3 Ho3 Hu3 Hp3 Hfr3 Hs3. rewrite <- app_assoc in Hu3.
    apply (HQ0 f3 k3 l3 m3 (nf ++ nf3)); try done.
    + by rewrite <- app_assoc, Hp3, Hp1.
    + intros a Ha. rewrite Hfr3, Hfr2 by done. by apply Hfr1.
    + intros mem sz' Hs. apply Hs3 in Hs. rewrite <- Hp1, length_app. rewrite length_app in Hs. lia.
Qed.
End Segments.

(** ** The arguments *)

Definition string_at (mem : list Z) (a : Z) (s : list Z) : Prop :=
  slice (Z.to_nat a) (length s + 1) mem = s ++ [0].
Definition word_at (mem : list Z) (a : Z) : Z := ldw 4 mem (Z.to_nat a).

(** What main(argc, argv) finds at its stack pointer. *)
Definition args_at (mem : list Z) (esp : Z) (argv : list (list Z)) : Prop :=
  word_at mem (esp + 4) = Z.of_nat (length argv) /\
  (forall i s, argv !! i = Some s -> string_at mem (word_at mem (word_at mem (esp + 8) + 4 * Z.of_nat i)) s) /\
  word_at mem (word_at mem (esp + 8) + 4 * Z.of_nat (length argv)) = 0.

(** The most stack the strings can take. *)
Definition cost (argv : list (list Z)) : Z := foldr (fun s n => Z.of_nat (length s) + 4 + n) 0 argv.

(** From [mem0], the strings [done] have been pushed down to [sp]. *)
Definition pushed (mem0 mem : list Z) (sp : Z) (ptrs : list Z) (done : list (list Z)) : Prop :=
  length mem = length mem0 /\ take (Z.to_nat sp) mem = take (Z.to_nat sp) mem0 /\
  Forall2 (fun a s => sp <= a < 2 ^ 32 /\ a + Z.of_nat (length s) < Z.of_nat (length mem0) /\ string_at mem a s) ptrs done.

(** Storing below what has been pushed. *)
Lemma pushed_splice mem0 mem sp ptrs done a bs :
  pushed mem0 mem sp ptrs done -> 0 <= a -> a + Z.of_nat (length bs) <= sp <= Z.of_nat (length mem0) ->
  pushed mem0 (splice (Z.to_nat a) bs mem) a ptrs done.
Proof.
  intros (Hl & Ht & Hs) Ha Hsp. split_and!.
  - rewrite length_splice; lia.
  - unfold splice. rewrite take_app_le, take_take by (rewrite length_take; lia).
    rewrite Nat.min_id, <- (Nat.min_l (Z.to_nat a) (Z.to_nat sp)), <- !take_take, Ht by lia. done.
  - eapply Forall2_impl; [exact Hs|]. intros b s (H1 & H2 & H3). split_and!; [lia|lia|lia|].
    unfold string_at in *. rewrite slice_splice_other by lia. done.
Qed.

Section Args.
Context {F : Type} `{!ExecFs F} (kend : Z) (Hkend : 0 < kend) (kdata : Z).
Implicit Types (f : F) (k : kmem).

Abbreviation uvm := (uvm kend kdata).

Lemma clr_3 x : 0 <= x -> clr x 3 = x - x mod 4.
Proof.
  intros Hx. unfold clr. change 3 with (Z.ones 2). rewrite Z.ldiff_ones_r by lia.
  rewrite Z.shiftl_mul_pow2, Z.shiftr_div_pow2 by lia. change (2 ^ 2) with 4. Z.div_mod_to_equations. lia.
Qed.

Lemma push_args_wp argv : forall f k p l pgdir T m fr o mem0 sp ptrs done (Q : option (Z * list Z) -> xstate F -> Prop),
  uvm k l pgdir T m fr o -> pushed mem0 (umem k fr) sp ptrs done -> cost argv <= sp <= Z.of_nat (length mem0) ->
  (forall k' sp' ptrs', uvm k' l pgdir T m fr o -> (forall a, a ∈ o -> page k' a = page k a) ->
     pushed mem0 (umem k' fr) sp' ptrs' (done ++ argv) -> sp - cost argv <= sp' <= sp ->
     Z.of_nat (length (done ++ argv)) <= MAXARG -> Q (Some (sp', ptrs')) (XState f k' p)) ->
  (forall k', uvm k' l pgdir T m fr o -> (forall a, a ∈ o -> page k' a = page k a) ->
     MAXARG < Z.of_nat (length (done ++ argv)) -> Q None (XState f k' p)) ->
  Z.of_nat (length done) <= MAXARG ->
  wp (push_args pgdir argv (Z.of_nat (length done)) sp ptrs) Q (XState f k p).
Proof.
  induction argv as [|s argv IH]; intros f k p l pgdir T m fr o mem0 sp ptrs done Q Hu Hp Hcost HQ HQ0 Hdone; cbn [push_args].
  { wp_step. apply HQ; rewrite ?app_nil_r; try done. simpl in *. lia. }
  cbn [cost foldr] in Hcost, HQ. fold (cost argv) in Hcost, HQ.
  assert (Hc0 : 0 <= cost argv) by (clear; induction argv; simpl in *; lia).
  pose proof (u_len Hu) as Hl. change UPAGES with 160 in Hl. destruct (Hp) as (Hlm & _ & _).
  rewrite (length_umem_uvm kend kdata _ _ _ _ _ _ _ Hu) in Hlm.
  wp_step; rename H into Hmax.
  { wp_step. apply HQ0; try done. rewrite length_app. simpl. lia. }
  set (n := Z.of_nat (length s) + 1) in *. rewrite u32_small by (unfold PGLEN, PGSIZE in *; lia). rewrite clr_3 by lia.
  set (a := sp - n - _). assert (Ha : sp - n - 3 <= a <= sp - n) by (unfold a; Z.div_mod_to_equations; lia).
  wp_step. apply wp_on_mem. eapply (copyout_wp kend Hkend kdata); [exact Hu|lia|rewrite length_app; simpl; lia| |].
  { unfold PGLEN, PGSIZE in *. lia. }
  intros k1 Hu1 Hm1 Hfr1. change (0 <? 0) with false. cbv iota.
  rewrite take_ge in Hm1 by (rewrite length_app; simpl; lia).
  replace (Z.of_nat (length done) + 1) with (Z.of_nat (length (done ++ [s]))) by (rewrite length_app; simpl; lia).
  pose proof (pushed_splice _ _ _ _ _ a (s ++ [0]) Hp ltac:(lia) ltac:(rewrite length_app; simpl; lia)) as Hp1.
  eapply (IH f k1 p l pgdir T m fr o mem0 a (ptrs ++ [a]) (done ++ [s])); [exact Hu1| |lia| | |].
  - destruct Hp1 as (P1 & P2 & P3). rewrite Hm1. split_and!; [done|done|]. apply Forall2_app; [done|].
    constructor; [|done]. unfold PGLEN, PGSIZE in *. split_and!; [lia|lia|lia|].
    unfold string_at. replace (length s + 1)%nat with (length (s ++ [0])) by (rewrite length_app; done).
    apply slice_splice_same. rewrite length_app, (length_umem_uvm kend kdata _ _ _ _ _ _ _ Hu). simpl. unfold PGLEN, PGSIZE. lia.
  - intros k2 sp2 ptrs2 Hu2 Hfr2 Hp2 Hs2 Hn2. rewrite <- app_assoc in Hp2, Hn2. apply HQ; try done; [|lia].
    intros b Hb. rewrite Hfr2 by done. by apply Hfr1.
  - intros k2 Hu2 Hfr2 Hn2. rewrite <- app_assoc in Hn2. apply HQ0; try done. intros b Hb. rewrite Hfr2 by done. by apply Hfr1.
  - rewrite length_app. simpl. lia.
Qed.

(** The words [exec] stores below the strings. *)
Lemma word_at_splice mem b ws i z :
  0 <= b -> b + 4 * Z.of_nat (length ws) <= Z.of_nat (length mem) -> ws !! i = Some z -> is_u32 z ->
  word_at (splice (Z.to_nat b) (ws ≫= le_enc 4) mem) (b + 4 * Z.of_nat i) = z.
Proof.
  intros Hb Hl Hi Hz. unfold word_at, ldw. pose proof (lookup_lt_Some _ _ _ Hi).
  replace (Z.to_nat (b + 4 * Z.of_nat i)) with (Z.to_nat b + 4 * i)%nat by lia.
  rewrite slice_splice_inner by (rewrite length_words_enc; lia).
  change (le_dec (slice (4 * i) 4 (ws ≫= le_enc 4))) with (ldw 4 (ws ≫= le_enc 4) (4 * i)).
  rewrite (ldw_words_enc 4 ws i z Hi). by apply Z.mod_small.
Qed.

Lemma ustack_args mem0 mem sp ptrs argv :
  pushed mem0 mem sp ptrs argv -> Z.of_nat (length mem0) < 2 ^ 32 ->
  let len := (3 + Z.of_nat (length ptrs) + 1) * 4 in
  len <= sp <= Z.of_nat (length mem0) ->
  args_at (splice (Z.to_nat (sp - len)) (ustack sp ptrs ≫= le_enc 4) mem) (sp - len) argv.
Proof.
  intros Hp H32 len Hsp. set (b := sp - len). set (ws := ustack sp ptrs).
  assert (Hws : Z.of_nat (length ws) * 4 = len) by (unfold ws, ustack; rewrite !length_app; simpl; lia).
  pose proof (pushed_splice _ _ _ _ _ b (ws ≫= le_enc 4) Hp ltac:(lia)
    ltac:(rewrite length_words_enc; lia)) as (_ & _ & Hs).
  pose proof Hp as (Hl & _ & Hs0). pose proof (Forall2_length _ _ _ Hs) as Hn.
  set (mem' := splice (Z.to_nat b) _ mem) in *.
  assert (Hw : forall i z, ws !! i = Some z -> is_u32 z -> word_at mem' (b + 4 * Z.of_nat i) = z).
  { intros i z. apply word_at_splice; lia. }
  assert (H2 : word_at mem' (b + 8) = b + 12).
  { change (b + 8) with (b + 4 * Z.of_nat 2). apply Hw; [|unfold is_u32; lia].
    unfold ws, ustack. simpl. f_equal. rewrite u32_small by lia. unfold b, len. lia. }
  unfold args_at. rewrite H2. split_and!.
  - change (b + 4) with (b + 4 * Z.of_nat 1). rewrite <- Hn. apply Hw; [done|unfold is_u32; lia].
  - intros i s Hi. destruct (Forall2_lookup_r _ _ _ _ _ Hs Hi) as (a & Ha & H1 & _ & Hstr).
    replace (b + 12 + 4 * Z.of_nat i) with (b + 4 * Z.of_nat (3 + i)) by lia.
    rewrite (Hw (3 + i)%nat a); [done| |unfold is_u32; lia].
    unfold ws, ustack. simpl. by apply lookup_app_l_Some.
  - rewrite <- Hn. replace (b + 12 + 4 * Z.of_nat (length ptrs)) with (b + 4 * Z.of_nat (3 + length ptrs)) by lia.
    apply Hw; [|unfold is_u32; lia]. unfold ws, ustack. simpl. by rewrite list_lookup_middle.
Qed.
End Args.

(** ** exec *)

Section Image.
Context {F : Type} `{!ExecFs F} (kend : Z) (Hkend : 0 < kend) (kdata : Z).
Implicit Types (f : F) (k : kmem).

Abbreviation uvm := (uvm kend kdata).

(** Everything that ends up on the stack page. *)
Definition stack_need (argv : list (list Z)) : Z := cost argv + 4 * (4 + Z.of_nat (length argv)).

(** [exec_image] can give the program its stack. *)
Definition has_stack (argv : list (list Z)) (sz : Z) (pages : nat) : bool :=
  (PGSIZE * npages sz + PGSIZE <=? USERTOP) && (Z.of_nat (length argv) <=? MAXARG) && (0 <? pages)%nat.

Lemma bad_dir_wp f k p l pgdir T m fr o (Q : Z -> xstate F -> Prop) :
  uvm k l pgdir T m fr o ->
  (forall k' l', kinv kend k' l' -> l' ≡ₚ pgdir :: tabs T ++ fr ++ l -> (forall a, a ∈ o -> page k' a = page k a) ->
     Q (-1) (XState f k' p)) ->
  wp (bad kend pgdir None) Q (XState f k p).
Proof.
  intros Hu HQ. pose proof (proj1 (pt_dir _ _ _ _ _ (vs_pt _ _ _ _ _ _ _ (u_vm Hu)))) as Hpd.
  destruct (allocatable_page _ Hkend _ Hpd) as (Hp0 & _).
  unfold bad. rewrite (proj2 (Z.eqb_neq pgdir 0)) by lia. cbv [negb]. unfold when. wp_step. apply wp_on_mem.
  eapply (freevm_wp kend Hkend kdata); [exact Hu|]. intros k' l' H1 H2 H3. wp_step. wp_step. wp_step. by eapply HQ.
Qed.

(** Pages of others move between [o] and the free list. *)
Lemma uvm_move k l pgdir T m fr o k' l' o' :
  uvm k l pgdir T m fr o -> kinv kend k' l' -> o' ++ l' ≡ₚ o ++ l ->
  (forall a, a ∈ pgdir :: tabs T ++ fr -> page k' a = page k a) -> uvm k' l' pgdir T m fr o'.
Proof.
  intros [[Hpt Hk Hnd] H0 Hl Hmap Hnone Hkern Hframes] Hk' Hp Hfr. constructor; try done.
  - split; [|done|].
    + apply (pt_frame kend Hkend k); [|done]. intros a Ha. apply Hfr. set_solver.
    + rewrite <- (app_assoc fr o' l'), Hp. by rewrite <- (app_assoc fr o l) in Hnd.
  - intros g Hg. rewrite Hfr by set_solver. by apply Hframes.
Qed.

Lemma npages_round sz : 0 <= sz -> npages (PGSIZE * npages sz) = npages sz.
Proof. intros. unfold npages. pg_lia. Qed.

Lemma exec_args_wp f k p l pgdir T m fr o k0 l0 T0 m0 fr0 path argv elf sz (Q : Z -> xstate F -> Prop) :
  let oc := x_pgdir p :: tabs T0 ++ fr0 ++ o in
  uvm k0 l0 (x_pgdir p) T0 m0 fr0 o -> uvm k l pgdir T m fr oc -> (forall a, a ∈ oc -> page k a = page k0 a) ->
  sz = PGSIZE * Z.of_nat (length fr) -> stack_need argv <= PGSIZE <= sz ->
  (forall k', MAXARG < Z.of_nat (length argv) -> uvm k' l pgdir T m fr oc -> (forall a, a ∈ oc -> page k' a = page k a) ->
     wp (bad kend pgdir None) Q (XState f k' p)) ->
  (forall k' l' esp, Z.of_nat (length argv) <= MAXARG -> uvm k' l' pgdir T m fr o ->
     l' ≡ₚ x_pgdir p :: tabs T0 ++ fr0 ++ l -> (forall a, a ∈ o -> page k' a = page k0 a) ->
     (forall n, Z.of_nat n <= sz - PGSIZE -> take n (umem k' fr) = take n (umem k fr)) ->
     args_at (umem k' fr) esp argv ->
     Q 0 (XState f k' (XProc pgdir sz (e_entry elf) esp (take 15 (last_elem path))))) ->
  wp (exec_args kend path argv elf pgdir sz) Q (XState f k p).
Proof.
  intros oc Hu0 Hu Hs Hsz Hneed HQ0 HQ. unfold exec_args, stack_need in *.
  pose proof (length_umem_uvm kend kdata _ _ _ _ _ _ _ Hu) as Hlm.
  pose proof (u_len Hu) as Hl. change UPAGES with 160 in Hl.
  assert (Hmem : Z.of_nat (length (umem k fr)) = sz) by (rewrite Hlm; unfold PGLEN, PGSIZE in *; lia).
  wp_step. eapply (push_args_wp kend Hkend kdata argv f k p l pgdir T m fr oc (umem k fr) sz [] []); [exact Hu| |lia| | |simpl; unfold MAXARG; lia].
  { split_and!; [done|done|constructor]. }
  2:{ intros k1 Hu1 Hs1 Hmax. simpl in Hmax. by apply HQ0. }
  intros k1 sp ptrs Hu1 Hs1 Hp1 Hsp Hmax. simpl in Hp1, Hmax.
  pose proof (Forall2_length _ _ _ (proj2 (proj2 Hp1))) as Hn. set (len := (3 + Z.of_nat (length ptrs) + 1) * 4) in *.
  assert (Hlen : len = 4 * (4 + Z.of_nat (length argv))) by (unfold len; lia).
  rewrite u32_small by (unfold PGSIZE in *; lia).
  assert (Hlu : length (ustack sp ptrs ≫= le_enc 4) = Z.to_nat len)
    by (rewrite length_words_enc; unfold ustack; rewrite !length_app; simpl; lia).
  wp_step. apply wp_on_mem. eapply (copyout_wp kend Hkend kdata); [exact Hu1|lia|lia|lia|].
  intros k2 Hu2 Hm2 Hs2. change (0 <? 0) with false. cbv iota. rewrite take_ge in Hm2 by lia.
  do 2 wp_step. do 2 wp_step. wp_step. apply wp_on_mem.
  assert (Hsame : forall a, a ∈ oc -> page k2 a = page k0 a) by (intros a Ha; rewrite Hs2, Hs1 by done; by apply Hs).
  assert (Hold : uvm k2 l (x_pgdir p) T0 m0 fr0 (pgdir :: tabs T ++ fr ++ o))
    by (eapply (uvm_switch kend Hkend); [exact Hu0|exact Hu2|exact Hsame]).
  eapply (freevm_wp kend Hkend kdata); [exact Hold|]. intros k3 l3 Hk3 Hp3 Hs3. wp_step.
  assert (Hm3 : umem k3 fr = umem k2 fr) by (apply umem_ext; intros g Hg; apply Hs3; set_solver).
  eapply (HQ k3 l3 (sp - len)); [done| |done| | |].
  - eapply (uvm_move k2 l); [exact Hu2|done| |intros a Ha; apply Hs3; set_solver].
    rewrite Hp3. unfold oc. solve_Permutation.
  - intros a Ha. rewrite Hs3 by set_solver. apply Hsame. unfold oc. set_solver.
  - intros n Hnn. rewrite Hm3, Hm2.
    destruct (pushed_splice _ _ _ _ _ (sp - len) (ustack sp ptrs ≫= le_enc 4) Hp1) as (_ & Ht & _); [lia|lia|].
    rewrite <- (Nat.min_l n (Z.to_nat (sp - len))), <- !take_take, Ht by lia. done.
  - rewrite Hm3, Hm2. apply (ustack_args (umem k fr)); [done|unfold PGSIZE in *; lia|fold len; lia].
Qed.

Lemma exec_image_wp f k p l pgdir T m fr o k0 l0 T0 m0 fr0 path argv elf sz (Q : Z -> xstate F -> Prop) :
  let oc := x_pgdir p :: tabs T0 ++ fr0 ++ o in
  uvm k0 l0 (x_pgdir p) T0 m0 fr0 o -> uvm k l pgdir T m fr oc -> (forall a, a ∈ oc -> page k a = page k0 a) ->
  pgdir :: tabs T ++ fr ++ l ≡ₚ l0 -> 0 <= sz <= USERTOP -> Z.of_nat (length fr) = npages sz ->
  stack_need argv <= PGSIZE ->
  (forall k' l', has_stack argv sz (length l) = false -> kinv kend k' l' -> l' ≡ₚ l0 ->
     (forall a, a ∈ oc -> page k' a = page k0 a) -> Q (-1) (XState f k' p)) ->
  (forall k' l' m' fr' esp, has_stack argv sz (length l) = true -> uvm k' l' pgdir T m' fr' o ->
     pgdir :: tabs T ++ fr' ++ l' ≡ₚ x_pgdir p :: tabs T0 ++ fr0 ++ l0 -> (forall a, a ∈ o -> page k' a = page k0 a) ->
     Z.of_nat (length fr') = npages sz + 1 -> take (length (umem k fr)) (umem k' fr') = umem k fr ->
     args_at (umem k' fr') esp argv ->
     Q 0 (XState f k' (XProc pgdir (PGSIZE * npages sz + PGSIZE) (e_entry elf) esp (take 15 (last_elem path))))) ->
  wp (exec_image kend path argv elf pgdir sz) Q (XState f k p).
Proof.
  intros oc Hu0 Hu Hfr0 Hp0 Hsz Hlen Hneed HQ0 HQ. unfold exec_image.
  assert (Hn : 0 <= npages sz <= 160) by (unfold npages; pg_lia).
  rewrite PGROUNDUP_npages by (unfold USERTOP, PGSIZE in *; lia). rewrite u32_small by (unfold PGSIZE; lia).
  assert (Hmax : Z.max (PGSIZE * npages sz) (PGSIZE * npages sz + PGSIZE) = PGSIZE * npages sz + PGSIZE) by (unfold PGSIZE; lia).
  assert (Hnp : npages (PGSIZE * npages sz + PGSIZE) = npages sz + 1) by (clear -Hsz; unfold npages; pg_lia).
  assert (Hbad : forall k1 l1 m1 fr1, uvm k1 l1 pgdir T m1 fr1 oc -> fr1 ++ l1 ≡ₚ fr ++ l ->
     (forall a, a ∈ oc -> page k1 a = page k a) -> has_stack argv sz (length l) = false ->
     wp (bad kend pgdir None) Q (XState f k1 p)).
  { intros k1 l1 m1 fr1 Hu1 Hp1 Hs1 Hno. eapply bad_dir_wp; [exact Hu1|]. intros k2 l2 Hk2 Hp2 Hs2.
    apply (HQ0 k2 l2); try done; [by rewrite Hp2, Hp1|]. intros a Ha. rewrite Hs2, Hs1 by done. by apply Hfr0. }
  wp_step. apply wp_on_mem. eapply (allocuvm_max_wp kend Hkend kdata); [exact Hu|unfold USERTOP, PGSIZE in *; lia|..].
  { by rewrite npages_round by lia. }
  { unfold PGSIZE; lia. }
  all: rewrite ?Hmax, ?Hnp.
  2:{ intros k1 l1 m1 Hwhy Hu1 Hp1 Hs1. rewrite Z.eqb_refl. eapply (Hbad k1 l1 m1 fr); [done|by rewrite Hp1|done|].
      unfold has_stack. lia. }
  intros Htop k1 l1 m1 nf Hu1 Hp1 Hl1 Hm1 Hs1. replace (_ =? 0) with false by (unfold PGSIZE; lia).
  assert (Hpg : (0 <? length l)%nat = true).
  { rewrite <- Hp1, length_app. rewrite length_app in Hl1. lia. }
  pose proof (length_umem_uvm kend kdata _ _ _ _ _ _ _ Hu) as Hlm.
  eapply (exec_args_wp f k1 p l1 pgdir T m1 (fr ++ nf) o k0 l0 T0 m0 fr0); [exact Hu0|exact Hu1| |rewrite Hl1; lia|unfold PGSIZE in *; lia|..].
  - intros a Ha. rewrite Hs1 by done. by apply Hfr0.
  - intros k2 Hmore Hu2 Hs2. eapply (Hbad k2 l1 m1 (fr ++ nf)); [exact Hu2|by rewrite <- app_assoc, Hp1| |].
    + intros a Ha. rewrite Hs2 by done. by apply Hs1.
    + unfold has_stack. lia.
  - intros k2 l2 esp Hargs Hu2 Hp2 Hs2 Hkeep Hat. apply (HQ k2 l2 m1 (fr ++ nf) esp); try done.
    + unfold has_stack. lia.
    + rewrite Hp2, <- Hp0, <- Hp1. solve_Permutation.
    + rewrite Hkeep by (rewrite Hlm; unfold PGLEN, PGSIZE in *; lia). rewrite Hm1.
      unfold grow. by rewrite take_app_length.
Qed.
End Image.

Section Exec.
Context {F : Type} `{!ExecFs F} `{!ExecFsLaws F} (kend : Z) (Hkend : 0 < kend) (kdata : Z).
Context (Hkdata : kdata mod PGSIZE = 0 /\ 0x100000 < kdata < PHYSTOP).
Implicit Types (f : F) (k : kmem).

Abbreviation uvm := (uvm kend kdata).

(** The header of the file [c], and whether it can be run with [pages] free
    pages: an ELF file whose segments lie in user memory and in the file, with
    arguments and pages enough. *)
Definition header (c : list Z) : elfhdr := read_elfhdr (slice 0 52 c).

Definition program (c : list Z) : option (list Z * Z) :=
  if (52 <=? Z.of_nat (length c)) && (e_magic (header c) =? ELF_MAGIC)
  then load_spec c (Z.to_nat (e_phnum (header c))) (e_phoff (header c)) ([], 0) else None.

Definition loadable (c : list Z) (argv : list (list Z)) (pages : nat) : bool :=
  match program c with
  | Some (mem, sz) => (PGSIZE * npages sz + PGSIZE <=? USERTOP) && (Z.of_nat (length argv) <=? MAXARG) &&
                      (13 + npages sz + 1 <=? Z.of_nat pages)
  | None => false
  end.

Definition wellformed (c : list Z) : bool := sane c (Z.to_nat (e_phnum (header c))) (e_phoff (header c)).

Lemma file_read_hdr c :
  file_read c 0 sizeof_elfhdr = (Z.min 52 (Z.of_nat (length c)), slice 0 (Nat.min 52 (length c)) c).
Proof.
  unfold file_read, sizeof_elfhdr. replace (_ || _) with false by lia. rewrite Z.sub_0_r. f_equal. f_equal. lia.
Qed.

Lemma bad_put_wp f k p ip c pgdir (Q : Z -> xstate F -> Prop) :
  (forall f1, xf_open f1 ip c -> exists f2, xf_iunlockput ip f1 = Ok tt f2) -> xf_open f ip c ->
  wp (bad kend pgdir None) (fun r s => forall f', r = -1 -> Q (-1) (XState f' (xs_k s) (xs_p s))) (XState f k p) ->
  wp (bad kend pgdir (Some ip)) Q (XState f k p).
Proof.
  intros Hput Ho H. destruct (Hput f Ho) as [f2 Hf2]. unfold bad, when in *. wp_step.
  destruct (negb (pgdir =? 0)).
  - apply wp_on_mem. unfold wp, mbind, M_bind, on_mem, zoom, mret, M_ret in H |- *. cbn [xs_k xs_f xs_p] in H.
    destruct (freevm kend pgdir k); try done. unfold on_f, zoom. cbn [xs_f]. rewrite Hf2. by apply H.
  - wp_step. wp_step. eapply wp_on_f; [exact Hf2|]. wp_step. by apply H.
Qed.

(** The process [p'] runs the program in a new address space, and the pages of
    the old one are free. *)
Definition exec_done k l T fr o p c path argv k' p' : Prop :=
  exists l' T' m' fr' mem sz, program c = Some (mem, sz) /\ uvm k' l' (x_pgdir p') T' m' fr' o /\
    x_pgdir p' :: tabs T' ++ fr' ++ l' ≡ₚ x_pgdir p :: tabs T ++ fr ++ l /\
    (forall a, a ∈ o -> page k' a = page k a) /\
    Z.of_nat (length fr') = npages sz + 1 /\ x_sz p' = PGSIZE * Z.of_nat (length fr') /\ take (length mem) (umem k' fr') = mem /\
    args_at (umem k' fr') (x_esp p') argv /\ x_eip p' = e_entry (header c) /\
    x_name p' = take 15 (last_elem path).

(** Nothing has changed, and every page taken is back. *)
Definition exec_undone k l T m fr o p k' p' : Prop :=
  p' = p /\ exists l', uvm k' l' (x_pgdir p) T m fr o /\ l' ≡ₚ l /\ forall a, a ∈ fr ++ o -> page k' a = page k a.

Lemma undone_back k l T m fr o p k' l' :
  uvm k l (x_pgdir p) T m fr o -> kinv kend k' l' -> l' ≡ₚ l ->
  (forall a, a ∈ x_pgdir p :: tabs T ++ fr ++ o -> page k' a = page k a) -> exec_undone k l T m fr o p k' p.
Proof.
  intros Hu Hk Hp Hs. split; [done|]. exists l'. split_and!; [|done|intros a Ha; apply Hs; set_solver].
  eapply (uvm_move kend Hkend); [exact Hu|done|by rewrite Hp|intros a Ha; apply Hs; set_solver].
Qed.

Lemma exec_wp f k p l T m fr o f1 f2 path argv ip c :
  uvm k l (x_pgdir p) T m fr o -> xf_namei path f = Ok (Some ip) f1 -> xf_ilock ip f1 = Ok tt f2 -> xf_open f2 ip c ->
  (forall f1, xf_open f1 ip c -> exists f2, xf_iunlockput ip f1 = Ok tt f2) ->
  wellformed c = true -> stack_need argv <= PGSIZE -> (13 <= length l)%nat ->
  wp (exec kend kdata path argv) (fun r s =>
    if loadable c argv (length l) then r = 0 /\ exec_done k l T fr o p c path argv (xs_k s) (xs_p s)
    else r = -1 /\ exec_undone k l T m fr o p (xs_k s) (xs_p s)) (XState f k p).
Proof.
  intros Hu Hnamei Hilock Ho2 Hput Hwf Hneed H13. unfold exec. destruct (xf_bytes _ _ _ Ho2) as [Hb Hc].
  pose proof Hu as [[Hpt Hk Hnd] _ _ _ _ _ _].
  wp_step. eapply wp_on_f; [exact Hnamei|]. cbv beta iota. wp_step. eapply wp_on_f; [exact Hilock|].
  destruct (xf_readi_law f2 ip c 0 sizeof_elfhdr Ho2) as (f3 & Hr & Ho3); [unfold is_u32; lia|unfold is_u32, sizeof_elfhdr; lia|].
  wp_step. eapply wp_on_f; [exact Hr|].
  set (Q := fun r s => _).
  assert (Hno : program c = None -> wp (bad kend 0 (Some ip)) Q (XState f3 k p)).
  { intros Hp. eapply bad_put_wp; [exact Hput|exact Ho3|]. unfold bad, when. change (negb (0 =? 0)) with false. cbv iota.
    do 3 wp_step. intros f'' _. unfold Q, loadable. rewrite Hp. split; [done|]. by eapply undone_back. }
  rewrite (file_read_hdr c). cbn [fst snd]. unfold program in Hno. wp_step; rename H into Hsz; unfold sizeof_elfhdr in Hsz.
  { apply Hno. by replace (52 <=? Z.of_nat (length c)) with false by lia. }
  rewrite Nat.min_l by lia. fold (header c).
  assert (H52 : (52 <=? Z.of_nat (length c)) = true) by lia. rewrite H52 in Hno.
  destruct (e_magic (header c) =? ELF_MAGIC) eqn:Emag; cbv [negb]; [|by apply Hno].
  assert (Hprog : program c = load_spec c (Z.to_nat (e_phnum (header c))) (e_phoff (header c)) ([], 0))
    by (unfold program; by rewrite H52, Emag).
  clear Hno. set (num := Z.to_nat (e_phnum (header c))) in *. set (oc := x_pgdir p :: tabs T ++ fr ++ o).
  wp_step. apply wp_on_mem. eapply (setupkvm_wp kend Hkend kdata Hkdata k l oc); [done| | |intros; lia].
  { unfold oc. simpl. by rewrite <- !app_assoc in *. }
  intros k1 l1 pgdir T1 m1 Hu1 Hp1 H12 Hpd0 Hs1. rewrite (proj2 (Z.eqb_neq pgdir 0)) by done.
  assert (Hll : length l = (13 + length l1)%nat) by (rewrite <- Hp1; simpl; rewrite length_app; lia).
  assert (Hoff : is_u32 (e_phoff (header c))).
  { unfold header, read_elfhdr. cbn [e_phoff]. apply (ldw_range 4); [by apply bytes_slice|rewrite length_slice; lia]. }
  wp_step. eapply (load_segments_wp kend Hkend kdata ip c num f3 k1 p l1 pgdir T1 m1 [] oc);
    [exact Hu1|exact Ho3|unfold USERTOP; lia|done|done|exact Hwf|..].
  2:{ intros f4 k2 l2 m2 nf Ho4 Hu2 Hp2 Hs2 Hwhy. eapply bad_put_wp; [exact Hput|exact Ho4|].
      eapply (bad_dir_wp kend Hkend); [exact Hu2|]. intros k3 l3 Hk3 Hp3 Hs3 f5 _. unfold Q, loadable. cbn [xs_k xs_p].
      rewrite Hprog. change (umem k1 []) with (@nil Z) in Hwhy.
      assert (Hundone : exec_undone k l T m fr o p k3 p).
      { eapply undone_back; [exact Hu|exact Hk3|by rewrite Hp3, <- Hp1, <- Hp2|].
        intros a Ha. rewrite Hs3, Hs2 by done. by apply Hs1. }
      destruct (load_spec _ _ _ _) as [[mem sz]|]; [|done]. specialize (Hwhy mem sz eq_refl). simpl in Hwhy.
      by replace (_ && _ && _) with false by lia. }
  intros f4 k2 l2 m2 nf sz Ho4 Hu2 Hp2 Hsz2 Hlen2 Hs2 Hspec. destruct (Hput f4 Ho4) as [f5 Hf5].
  wp_step. eapply wp_on_f; [exact Hf5|]. change (umem k1 []) with (@nil Z) in Hspec. simpl app in *. rewrite Hspec in Hprog.
  assert (Hpages : Z.of_nat (length l) = 13 + npages sz + Z.of_nat (length l2))
    by (rewrite Hll, <- Hp2, length_app; lia).
  assert (Hload : loadable c argv (length l) = has_stack argv sz (length l2))
    by (unfold loadable, has_stack; rewrite Hprog; lia).
  unfold Q. rewrite Hload. eapply (exec_image_wp kend Hkend kdata f5 k2 p l2 pgdir T1 m2 nf o k l T m fr);
    [exact Hu|exact Hu2| |by rewrite Hp2, Hp1|done|done|done|..].
  - intros a Ha. rewrite Hs2 by done. by apply Hs1.
  - intros k3 l3 -> Hk3 Hp3 Hs3. split; [done|]. by eapply undone_back.
  - intros k3 l3 m3 fr3 esp -> Hu3 Hp3 Hs3 Hl3 Hmem Hat. split; [done|].
    exists l3, T1, m3, fr3, (umem k2 nf), sz. cbn [xs_k xs_p x_pgdir x_sz x_esp x_eip x_name].
    split_and!; try done. lia.
Qed.
End Exec.


(** ** A segment that wraps around *)

(** [loaduvm] writes wherever the address is mapped, the kernel's data included. *)
Lemma loaduvm_kernel_wp {F} `{!ExecFs F} `{!ExecFsLaws F} kend kdata (f : F) k p l pgdir T m fr o ip c offset n v (Q : Z -> xstate F -> Prop) :
  0 < kend -> kdata mod PGSIZE = 0 /\ 0x100000 < kdata < PHYSTOP ->
  uvm kend kdata k l pgdir T m fr o -> xf_open f ip c ->
  kdata / PGSIZE <= v < 4096 -> 0 < n <= PGSIZE -> is_u32 offset -> fits c offset n = true ->
  (forall f', xf_open f' ip c -> Q 0 (XState f' (copy_to_page (PGSIZE * v) 0 (slice (Z.to_nat offset) (Z.to_nat n) c) k) p)) ->
  wp (loaduvm pgdir (PGSIZE * v) ip offset n) Q (XState f k p).
Proof.
  intros Hkend Hkdata Hu Ho Hv Hn Hoff Hfit HQ. destruct (xf_bytes _ _ _ Ho) as [Hb Hc].
  unfold loaduvm. replace (PGSIZE * v mod PGSIZE) with 0 by pg_lia. change (negb (0 =? 0)) with false. cbv iota.
  assert (Hm : m !! v = Some (mk_pte (PGSIZE * v) PTE_W)).
  { rewrite (u_kern Hu v) by (change UPAGES with 160; pg_lia). unfold kernel_lines, line_perm, covers.
    replace ((160 <=? v) && _) with false by pg_lia. replace ((256 <=? v) && _) with false by pg_lia.
    by replace ((kdata / PGSIZE <=? v) && _) with true by lia. }
  assert (Hv20 : 0 <= v < 2 ^ 20) by pg_lia.
  destruct (slot_entry _ Hkend _ _ _ _ _ _ _ _ (u_vm Hu) Hv20 Hm) as (t & _ & Hslot & Hnz & Hw & HP).
  rewrite (Nat.add_comm _ 2). cbn [loop Nat.add]. wp_step. replace (0 <? n) with true by lia.
  rewrite !Z.add_0_r, Z.sub_0_r, (u32_small (PGSIZE * v)) by pg_lia. wp_step. apply wp_on_mem.
  eapply (walk_find_wp kend Hkend); [apply Hu|pg_lia|]. rewrite Hslot, (proj2 (Z.eqb_neq _ 0) Hnz).
  wp_step. apply wp_on_mem. wp_step. rewrite Hw, HP. cbv [negb].
  destruct (mk_pte_spec (PGSIZE * v) PTE_W) as (-> & _ & _); [pg_lia|done|].
  replace (if n <? PGSIZE then n else PGSIZE) with n by (case_match; lia). rewrite (u32_small offset) by done.
  destruct (xf_readi_law f ip c offset n Ho Hoff) as (f1 & Hr & Ho1); [unfold is_u32; pg_lia|].
  rewrite file_read_bytes in Hr by (unfold fits in *; try done; lia).
  wp_step. eapply wp_on_f; [exact Hr|]. wp_step. apply wp_on_mem. wp_step. cbn [fst snd]. rewrite Z.eqb_refl. cbv [negb]. wp_step.
  change (u32 (0 + PGSIZE)) with PGSIZE. wp_step. replace (PGSIZE <? n) with false by lia. do 2 wp_step. by apply HQ.
Qed.

(** C24: a file can overwrite the kernel.  [exec] does not check that ph.va +
    ph.memsz stays below 4 GB: a segment at a page of the kernel's data whose
    end wraps around to PGSIZE passes [allocuvm], and [loaduvm] copies the
    file's bytes over that page, which is mapped in every address space. *)
Theorem exec_wraparound_overwrites_kernel {F} `{!ExecFs F} `{!ExecFsLaws F} kend kdata (f : F) k p l pgdir T m o ip c off ph v :
  0 < kend -> kdata mod PGSIZE = 0 /\ 0x100000 < kdata < PHYSTOP ->
  uvm kend kdata k l pgdir T m [] o -> l <> [] -> xf_open f ip c ->
  is_u32 off -> header_at c off = Some ph -> ph_type ph = ELF_PROG_LOAD ->
  kdata / PGSIZE <= v < 4096 -> PGSIZE * v ∈ o -> ph_va ph = PGSIZE * v ->
  0 < ph_filesz ph <= PGSIZE -> ph_filesz ph <= ph_memsz ph -> ph_va ph + ph_memsz ph = 2 ^ 32 + PGSIZE ->
  is_u32 (ph_offset ph) -> fits c (ph_offset ph) (ph_filesz ph) = true ->
  exists f' k', load_segments kend 1 pgdir ip off 0 (XState f k p) = Ok (Some PGSIZE) (XState f' k' p) /\
    page k' (PGSIZE * v) =
      splice 0 (slice (Z.to_nat (ph_offset ph)) (Z.to_nat (ph_filesz ph)) c) (page k (PGSIZE * v)).
Proof.
  intros Hkend Hkdata Hu Hl Ho Hoff Hh Hty Hv Hin Hva Hfs Hms Hwrap Hpo Hfit. destruct (xf_bytes _ _ _ Ho) as [Hb Hc].
  cut (wp (load_segments kend 1 pgdir ip off 0) (fun r s => r = Some PGSIZE /\ xs_p s = p /\ page (xs_k s) (PGSIZE * v) =
      splice 0 (slice (Z.to_nat (ph_offset ph)) (Z.to_nat (ph_filesz ph)) c) (page k (PGSIZE * v))) (XState f k p)).
  { intros (r & [f' k' p'] & E & -> & <- & H)%wp_elim. by exists f', k'. }
  unfold header_at in Hh. case_match eqn:Elen; simplify_eq. set (ph := read_proghdr _) in *. apply Z.leb_le in Elen.
  destruct (xf_readi_law f ip c off sizeof_proghdr Ho Hoff) as (f1 & Hr & Ho1); [by unfold is_u32, sizeof_proghdr|].
  rewrite file_read_bytes in Hr by (done || unfold sizeof_proghdr; lia).
  cbn [load_segments]. wp_step. eapply wp_on_f; [exact Hr|]. cbn [fst snd]. rewrite Z.eqb_refl. cbv [negb].
  change (Z.to_nat sizeof_proghdr) with 32%nat. fold ph. rewrite Hty, Z.eqb_refl. replace (_ <? ph_filesz ph) with false by lia.
  replace (u32 (ph_va ph + ph_memsz ph)) with PGSIZE by (rewrite Hwrap; reflexivity).
  wp_step. apply wp_on_mem. eapply (allocuvm_max_wp kend Hkend kdata); [exact Hu|done|done|done|..].
  2:{ intros k1 l1 m1 [Hbad|Hbad]; [done|]. destruct l; [done|]. simpl in Hbad. change (npages _) with 1 in Hbad. lia. }
  change (Z.max 0 PGSIZE) with PGSIZE. intros _ k1 l1 m1 nf Hu1 _ _ _ Hs1. simpl app in Hu1. change (PGSIZE =? 0) with false. cbv iota.
  wp_step. rewrite Hva. eapply (loaduvm_kernel_wp kend kdata); [done|done|exact Hu1|exact Ho1|done|done|done|done|].
  intros f2 Ho2. change (0 <? 0) with false. cbv iota. wp_step. split; [done|]. split; [done|].
  cbn [xs_k]. unfold copy_to_page. by rewrite page_set_eq, Hs1.
Qed.

(** ** An example *)

(** One file, which every path names. *)
#[local] Instance one_file : ExecFs (list Z) := {|
  xf_namei := fun _ => mret (Some 0%nat);
  xf_ilock := fun _ => mret tt;
  xf_readi := fun _ off n c => Ok (file_read c off n) c;
  xf_iunlockput := fun _ => mret tt
|}.

#[local] Instance one_file_laws : ExecFsLaws (list Z).
Proof.
  refine {| xf_open := fun f _ c => f = c /\ Prelude.bytes c /\ Z.of_nat (length c) < 2 ^ 31 |}.
  - by intros f i c (_ & ? & ?).
  - intros f i c off n (-> & ? & ?) _ _. by exists c.
Defined.

(** An ELF file with one segment: 4 bytes in the file, 6000 in memory. *)
Definition demo_elf : list Z :=
  le_enc 4 ELF_MAGIC ++ replicate 20 0 ++ le_enc 4 0x10 ++ le_enc 4 52 ++ replicate 12 0 ++ le_enc 2 1 ++ replicate 6 0 ++
  le_enc 4 1 ++ le_enc 4 84 ++ le_enc 4 0 ++ le_enc 4 0 ++ le_enc 4 4 ++ le_enc 4 6000 ++ le_enc 4 0 ++ le_enc 4 0 ++
  [0xB8; 1; 2; 3].


(** A new address space beside a page of the kernel's data. *)
Lemma demo_kernel_page : exists k l pgdir T m,
  uvm demo_kend demo_kdata k l pgdir T m [] [demo_kdata] /\ l <> [].
Proof.
  assert (Hke : 0 < demo_kend) by done.
  destruct (wp_elim _ _ _ (kinit_wp demo_kend Hke (Kmem ∅ 0) ltac:(done) eq_refl)) as ([] & k0 & _ & l0 & Hk0 & _ & Hp0).
  simpl in Hp0. assert (Hl0 : length l0 = 40%nat) by (rewrite Hp0; by vm_compute).
  assert (Hw : wp (setupkvm demo_kdata) (fun pgdir k => exists l T m, uvm demo_kend demo_kdata k l pgdir T m [] [demo_kdata] /\
    l <> []) k0).
  { eapply (setupkvm_wp demo_kend Hke demo_kdata ltac:(by split) k0 l0 [demo_kdata]); [done| | |intros; lia].
    - destruct Hk0 as (_ & Hnd & Hall). apply NoDup_cons. split; [|done]. intros Hin. rewrite Forall_forall in Hall.
      destruct (Hall _ Hin) as (_ & Hlo & _). done.
    - intros k l pgdir T m Hu Hp H12 _ _. exists l, T, m. split; [done|]. intros ->. apply Permutation_length in Hp.
      simpl in Hp. rewrite length_app in Hp. simpl in Hp. lia. }
  destruct (wp_elim _ _ _ Hw) as (pgdir & k1 & _ & l1 & T & m & Hu1 & Hl1). by exists k1, l1, pgdir, T, m.
Qed.

(** One header: four bytes of the file go to the kernel's page at 0x110000. *)
Definition evil_elf : list Z :=
  le_enc 4 1 ++ le_enc 4 32 ++ le_enc 4 demo_kdata ++ le_enc 4 0 ++ le_enc 4 4 ++
  le_enc 4 (2 ^ 32 + PGSIZE - demo_kdata) ++ le_enc 4 0 ++ le_enc 4 0 ++ [1; 2; 3; 4].

Lemma exec_wraparound_overwrites_kernel_witness : exists k l pgdir T m f' k',
  uvm demo_kend demo_kdata k l pgdir T m [] [demo_kdata] /\
  load_segments demo_kend 1 pgdir 0 0 0 (XState evil_elf k (XProc 0 0 0 0 [])) = Ok (Some PGSIZE) (XState f' k' (XProc 0 0 0 0 [])) /\
  page k' demo_kdata = splice 0 [1; 2; 3; 4] (page k demo_kdata).
Proof.
  destruct demo_kernel_page as (k & l & pgdir & T & m & Hu & Hl).
  assert (Hb : Prelude.bytes evil_elf) by (apply (bool_decide_unpack _); vm_compute; exact I).
  assert (Hopen : xf_open evil_elf 0 evil_elf) by (split_and!; [reflexivity|exact Hb|vm_compute; reflexivity]).
  destruct (exec_wraparound_overwrites_kernel demo_kend demo_kdata evil_elf k (XProc 0 0 0 0 []) l pgdir T m [demo_kdata] 0
    evil_elf 0 (Proghdr 1 32 demo_kdata 4 (2 ^ 32 + PGSIZE - demo_kdata)) (demo_kdata / PGSIZE)) as (f' & k' & E & Hp);
    [reflexivity|by split|exact Hu|exact Hl|exact Hopen|by split|vm_compute; reflexivity|reflexivity|by split|
     by constructor|reflexivity|by split|by vm_compute|reflexivity|by split|vm_compute; reflexivity|].
  exists k, l, pgdir, T, m, f', k'. split; [exact Hu|]. split; [exact E|exact Hp].
Defined.
