(* ===== verification/ExecFile.v ===== *)
(** * The files [exec] reads are those of the file system

    The operations of fs.c implement the interface [ExecFs], and a locked, linked
    file with its blocks in order keeps the promises [exec] relies on. *)

From stdpp Require Import base numbers strings list gmap list_numbers.
From Stdlib Require Import Lia ZArith ZifyBool.
From S2P Require Import Prelude Ide BlockDev Fs FsAlloc FsFile Kalloc Vm VmMap VmUser VmSpace Exec ExecCorrect.
Open Scope Z_scope.

Section Files.
Context {S : Type} `{HB : !BlockOps S} `{HS : !BlockSpec S} (Hcap : (2 <= bcap)%nat).
Context (dev sz ni : Z) (cwd : nat) (dev_read : Z -> option (nat -> Z -> M (fs S) (Z * list Z))).

#[local] Instance fs_files : ExecFs (fs S) := {|
  xf_namei := namei cwd;
  xf_ilock := ilock;
  xf_readi := readi dev_read;
  xf_iunlockput := iunlockput
|}.

(** Inode [i] is locked, in use and linked, and its file is [c]. *)
Definition fs_open (x : fs S) (i : nat) (c : list Z) : Prop :=
  exists d ic ip, at_fs x d ∅ ic /\ ic !! i = Some ip /\ file_ok dev sz ni d ip /\ i_type ip <> T_DEV /\
    c = content dev d ip /\ Prelude.bytes c /\ tst (i_flags ip) I_BUSY = true /\ 1 <= i_ref ip /\ 0 < i_nlink ip.

Lemma length_fs_content d ip : 0 <= i_size ip -> Z.of_nat (length (content dev d ip)) = i_size ip.
Proof. intros. unfold content. rewrite length_fmap, length_seqZ. lia. Qed.

#[local] Instance fs_files_laws : ExecFsLaws (fs S).
Proof.
  refine {| xf_open := fs_open |}.
  - intros x i c (d & ic & ip & _ & _ & (_ & _ & Hs & _) & _ & -> & Hb & _). split; [done|].
    rewrite length_fs_content by lia. change (MAXFILE * BSIZE) with 71680 in Hs. lia.
  - intros x i c off n (d & ic & ip & Hx & Hip & Hf & Hty & -> & Hrest) Ho Hn.
    destruct (readi_correct dev sz ni dev_read x d ic i ip off n Hcap Hx Hip Hf Hty Ho Hn) as (x' & Hr & Hx').
    pose proof Hf as (_ & _ & Hs & _). exists x'. split; [|by exists d, ic, ip].
    cbn [xf_readi fs_files]. rewrite Hr. f_equal. unfold file_read. rewrite length_fs_content by lia.
    replace (bad_range (i_size ip) off n) with ((i_size ip <? off) || (2 ^ 32 <=? off + n)); [done|].
    pose proof (bad_range_false Hcap (i_size ip) off n Ho Hn) as Hbad. destruct (bad_range (i_size ip) off n); lia.
Defined.

Lemma fs_put x i c : fs_open x i c -> exists x', iunlockput i x = Ok tt x'.
Proof.
  intros (d & ic & ip & Hx & Hip & _ & _ & _ & _ & Hbusy & Href & Hlink).
  assert (Hw : wp (iunlockput i) (fun _ _ => True) x).
  { unfold iunlockput, iunlock. wp_step. wp_step. eapply geti_wp; [exact Hx|exact Hip|]. rewrite Hbusy.
    replace (i_ref ip <? 1) with false by lia. simpl negb. simpl orb. eapply updi_wp; [exact Hx|]. intros x1 Hx1.
    unfold iput. wp_step. eapply geti_wp; [exact Hx1| |].
    - rewrite list_lookup_alter_eq, Hip. done.
    - cbn [i_nlink set_iflags]. replace (i_nlink ip =? 0) with false by lia. rewrite andb_false_r. unfold when.
      do 2 wp_step. eapply updi_wp; [exact Hx1|]. done. }
  destruct (wp_elim _ _ _ Hw) as ([] & x' & H & _). by exists x'.
Qed.

End Files.
