(* ===== verification/Ne.v ===== *)
(** * The NE2000 driver: [src/eth/ne.c], [src/eth/ne.h], [src/eth/eth.c]

    The card is reached through ports.  [Ports] are the port instructions of
    [x86.h]; [NicSpec] states what a DP8390 card at port [nbase] does, as its
    data sheet says: registers in two pages, remote DMA through the data port,
    the interrupt status register, transmission.

    A store through a pointer ([rep insb], [rep insw]) is the list of the bytes
    stored; [ne_pio_read] gives back every store it does, with its offset in the
    buffer, so that what lands outside of the buffer is seen too.  Messages go
    to [printed], as format and numbers. *)

From stdpp Require Import base numbers list gmap strings.
From Stdlib Require Import Lia ZArith ZifyBool.
From S2P Require Import Prelude.
Open Scope Z_scope.

(** ** Constants of ne.h *)

Definition DP_PAGESIZE : Z := 256.
Definition SENDQ_PAGES : Z := 6.
Definition SENDQ_LEN : Z := 2.

Definition DP_CR : Z := 0x00.
Definition DP_PSTART : Z := 0x01.
Definition DP_PSTOP : Z := 0x02.
Definition DP_BNRY : Z := 0x03.
Definition DP_TPSR : Z := 0x04.
Definition DP_TBCR0 : Z := 0x05.
Definition DP_TBCR1 : Z := 0x06.
Definition DP_ISR : Z := 0x07.
Definition DP_CRDA0 : Z := 0x08.
Definition DP_RSAR0 : Z := 0x08.
Definition DP_CRDA1 : Z := 0x09.
Definition DP_RSAR1 : Z := 0x09.
Definition DP_RBCR0 : Z := 0x0A.
Definition DP_RBCR1 : Z := 0x0B.
Definition DP_RCR : Z := 0x0C.
Definition DP_CNTR0 : Z := 0x0D.
Definition DP_TCR : Z := 0x0D.
Definition DP_DCR : Z := 0x0E.
Definition DP_IMR : Z := 0x0F.

Definition DP_PAR0 : Z := 0x01.
Definition DP_PAR1 : Z := 0x02.
Definition DP_PAR2 : Z := 0x03.
Definition DP_PAR3 : Z := 0x04.
Definition DP_PAR4 : Z := 0x05.
Definition DP_PAR5 : Z := 0x06.
Definition DP_CURR : Z := 0x07.
Definition DP_MAR0 : Z := 0x08.
Definition DP_MAR1 : Z := 0x09.
Definition DP_MAR2 : Z := 0x0A.
Definition DP_MAR3 : Z := 0x0B.
Definition DP_MAR4 : Z := 0x0C.
Definition DP_MAR5 : Z := 0x0D.
Definition DP_MAR6 : Z := 0x0E.
Definition DP_MAR7 : Z := 0x0F.

Definition CR_STP : Z := 0x01.
Definition CR_STA : Z := 0x02.
Definition CR_TXP : Z := 0x04.
Definition CR_DM_RR : Z := 0x08.
Definition CR_DM_RW : Z := 0x10.
Definition CR_NO_DMA : Z := 0x20.
Definition CR_PS_P0 : Z := 0x00.
Definition CR_PS_P1 : Z := 0x40.

Definition ISR_PRX : Z := 0x01.
Definition ISR_PTX : Z := 0x02.
Definition ISR_RDC : Z := 0x40.

Definition IMR_PRXE : Z := 0x01.
Definition IMR_PTXE : Z := 0x02.
Definition IMR_RXEE : Z := 0x04.
Definition IMR_TXEE : Z := 0x08.
Definition IMR_OVWE : Z := 0x10.
Definition IMR_CNTE : Z := 0x20.

Definition DCR_BYTEWIDE : Z := 0x00.
Definition DCR_WORDWIDE : Z := 0x01.
Definition DCR_LTLENDIAN : Z := 0x00.
Definition DCR_BMS : Z := 0x08.
Definition DCR_8BYTES : Z := 0x40.

Definition TCR_NORMAL : Z := 0x00.
Definition TCR_INTERNAL : Z := 0x02.
Definition RCR_PRO : Z := 0x10.
Definition RCR_MON : Z := 0x20.
Definition RSR_PRX : Z := 0x01.

Definition NE_DATA : Z := 0x10.
Definition NE_RESET : Z := 0x1F.

Definition NE1000_START : Z := 0x2000.
Definition NE1000_SIZE : Z := 0x2000.
Definition NE2000_START : Z := 0x4000.
Definition NE2000_SIZE : Z := 0x4000.

Definition ETH_MIN_SIZE : Z := 60.
Definition ETH_MAX_SIZE : Z := 1514.

Definition PROM_SIGNATURE : Z := 0x57.
Definition RESET_TIMEOUT_POLL_LIMIT : Z := 10000.

(** ** State *)

Record sendbuf := SendBuf { filled : bool; sendpage : Z }.

(** [ne_t] *)
Record ne_t := Ne {
  name : list Z;
  irq : Z;
  base : Z;
  address : list Z;
  is16bit : bool;
  ramsize : Z;
  pages : Z;
  startaddr : Z;
  send_startpage : Z;
  send_stoppage : Z;
  recv_startpage : Z;
  recv_stoppage : Z;
  sendq : list sendbuf;
  sendq_head : Z;
  sendq_tail : Z
}.

Definition set_probed (is16 : bool) (n : ne_t) : ne_t :=
  Ne (name n) (irq n) (base n) (address n) is16 (ramsize n) (pages n) (startaddr n) (send_startpage n)
     (send_stoppage n) (recv_startpage n) (recv_stoppage n) (sendq n) (sendq_head n) (sendq_tail n).
Definition set_address (a : list Z) (n : ne_t) : ne_t :=
  Ne (name n) (irq n) (base n) a (is16bit n) (ramsize n) (pages n) (startaddr n) (send_startpage n)
     (send_stoppage n) (recv_startpage n) (recv_stoppage n) (sendq n) (sendq_head n) (sendq_tail n).
Definition set_sendq (q : list sendbuf) (head tail : Z) (n : ne_t) : ne_t :=
  Ne (name n) (irq n) (base n) (address n) (is16bit n) (ramsize n) (pages n) (startaddr n) (send_startpage n)
     (send_stoppage n) (recv_startpage n) (recv_stoppage n) q head tail.

(** The port instructions. *)
Class Ports := {
  hw : Type;
  inb : Z -> hw -> Z * hw;
  outb : Z -> Z -> hw -> hw;
  inw : Z -> hw -> (Z * Z) * hw;         (* the two bytes of the word, the low one first *)
  outw : Z -> Z * Z -> hw -> hw
}.

Record drv `{Ports} := Drv { nic : hw; ne : ne_t; printed : list (string * list Z) }.

Section Driver.
Context `{HP : Ports}.

Definition set_nic (h : hw) (s : drv) : drv := Drv _ h (ne s) (printed s).
Definition set_ne (n : ne_t) (s : drv) : drv := Drv _ (nic s) n (printed s).
Definition upd_ne (f : ne_t -> ne_t) (s : drv) : drv := set_ne (f (ne s)) s.

Definition cprintf (fmt : string) (args : list Z) : M drv unit :=
  modify (fun s => Drv _ (nic s) (ne s) (printed s ++ [(fmt, args)])).

(** [inb(ne->base + p)], [outb(ne->base + p, v)] *)
Definition in_b (p : Z) : M drv Z :=
  fun s => let '(r, h) := inb (base (ne s) + p) (nic s) in Ok r (set_nic h s).
Definition out_b (p v : Z) : M drv unit :=
  modify (fun s => set_nic (outb (base (ne s) + p) (u8 v) (nic s)) s).

(** [rep insb], [rep insw], [rep outsb] and [rep outsw] on the data port: the
    bytes stored, and what is left of the bytes at [addr] *)
Fixpoint insb (cnt : nat) : M drv (list Z) :=
  match cnt with
  | O => mret []
  | S cnt => b ← in_b NE_DATA; bs ← insb cnt; mret (b :: bs)
  end.

Fixpoint insw (cnt : nat) : M drv (list Z) :=
  match cnt with
  | O => mret []
  | S cnt =>
      w ← (fun s => let '(r, h) := inw (base (ne s) + NE_DATA) (nic s) in Ok r (set_nic h s));
      bs ← insw cnt; mret (w.1 :: w.2 :: bs)
  end.

Fixpoint outsb (cnt : nat) (bs : list Z) : M drv unit :=
  match cnt, bs with
  | S cnt, b :: bs => _ ← out_b NE_DATA b; outsb cnt bs
  | _, _ => mret tt
  end.

(** The bytes after the end of [bs] are whatever the memory holds there. *)
Fixpoint outsw (cnt : nat) (bs : list Z) : M drv unit :=
  match cnt, bs with
  | S cnt, b0 :: b1 :: bs =>
      _ ← modify (fun s => set_nic (outw (base (ne s) + NE_DATA) (b0, b1) (nic s)) s); outsw cnt bs
  | _, _ => mret tt
  end.

(** ** ne.c *)

Fixpoint write_sequence (seq : list (Z * Z)) : M drv unit :=
  match seq with
  | [] => mret tt
  | (offset, value) :: seq => _ ← out_b offset value; write_sequence seq
  end.

(** [outb(ne->base + NE_RESET, inb(ne->base + NE_RESET))] and the loop on ISR:
    [j++ > RESET_TIMEOUT_POLL_LIMIT] *)
Definition reset_board : M drv bool :=
  r ← in_b NE_RESET;
  _ ← out_b NE_RESET r;
  loop (Z.to_nat RESET_TIMEOUT_POLL_LIMIT + 3) (fun j : Z =>
    r ← in_b DP_ISR;
    if r =? 0 then
      if RESET_TIMEOUT_POLL_LIMIT <? j then _ ← cprintf "%s: NIC reset failure" []; mret (inr false : Z + bool)
      else mret (inl (j + 1))
    else mret (inr true)) 0.

(** The loop that reads the PROM: [eprom], and whether every byte came twice. *)
Fixpoint read_prom (n : nat) : M drv (list Z * bool) :=
  match n with
  | O => mret ([], true)
  | S n =>
      a ← in_b NE_DATA;
      b ← in_b NE_DATA;
      r ← read_prom n;
      mret (a :: b :: r.1, (a =? b) && r.2)
  end.

Definition probe_seq : list (Z * Z) :=
  [(DP_CR, Z.lor (Z.lor CR_NO_DMA CR_PS_P0) CR_STP); (DP_DCR, Z.lor DCR_BMS DCR_8BYTES);
   (DP_RBCR0, 0x00); (DP_RBCR1, 0x00); (DP_RCR, RCR_MON); (DP_TCR, TCR_INTERNAL); (DP_ISR, 0xFF); (DP_IMR, 0x00);
   (DP_RBCR0, 32); (DP_RBCR1, 0); (DP_RSAR0, 0x00); (DP_RSAR1, 0x00);
   (DP_CR, Z.lor (Z.lor CR_PS_P0 CR_DM_RR) CR_STA)].

(** [for (i = 0; i < 16; ++i) eprom[i] = eprom[i*2]], in place *)
Definition halve (eprom : list Z) : list Z :=
  fold_left (fun e i => <[i := default 0 (e !! (i * 2)%nat)]> e) (seq 0 16) eprom.

Definition ne_probe : M drv bool :=
  reg0 ← in_b 0;
  if reg0 =? 0xFF then mret false else
  _ ← out_b DP_CR (Z.lor (Z.lor CR_STP CR_NO_DMA) CR_PS_P1);
  regd ← in_b DP_MAR5;
  _ ← out_b DP_MAR5 0xFF;
  _ ← out_b DP_CR (Z.lor CR_NO_DMA CR_PS_P0);
  _ ← in_b DP_CNTR0;
  c ← in_b DP_CNTR0;
  if negb (c =? 0) then
    _ ← out_b 0 reg0;
    _ ← out_b DP_TCR regd;
    _ ← cprintf "%s: This is not NEx000." [];
    mret false
  else
  ok ← reset_board;
  if negb ok then mret false else
  _ ← out_b DP_ISR 0xFF;
  _ ← write_sequence probe_seq;
  r ← read_prom 16;
  let '(eprom, is16) := (r : list Z * bool) in
  _ ← modify (upd_ne (set_probed is16));
  let eprom := if is16 then halve eprom else eprom in
  if negb (default 0 (eprom !! 14%nat) =? PROM_SIGNATURE) || negb (default 0 (eprom !! 15%nat) =? PROM_SIGNATURE)
  then mret false
  else
    _ ← modify (upd_ne (set_address (take 6 eprom)));
    mret true.

(** The buffer layout [ne_init] computes. *)
Definition layout (n : ne_t) : ne_t :=
  let start := if is16bit n then NE2000_START else NE1000_START in
  let size := if is16bit n then NE2000_SIZE else NE1000_SIZE in
  let sstart := start / DP_PAGESIZE in
  let npages := size / DP_PAGESIZE in
  let sstop := sstart + SENDQ_PAGES * SENDQ_LEN - 1 in
  Ne (name n) (irq n) (base n) (address n) (is16bit n) size npages start sstart sstop (sstop + 1) (sstart + npages)
     ((fun i => SendBuf false (sstart + i * SENDQ_PAGES)) <$> [0; 1]) 0 (SENDQ_LEN - 1).

Definition init_seq (n : ne_t) : list (Z * Z) :=
  let addr i := default 0 (address n !! i) in
  [(DP_CR, Z.lor (Z.lor CR_PS_P0 CR_STP) CR_NO_DMA);
   (DP_DCR, Z.lor (Z.lor (Z.lor (if is16bit n then DCR_WORDWIDE else DCR_BYTEWIDE) DCR_LTLENDIAN) DCR_8BYTES) DCR_BMS);
   (DP_RCR, RCR_MON); (DP_RBCR0, 0); (DP_RBCR1, 0); (DP_TCR, TCR_INTERNAL);
   (DP_PSTART, recv_startpage n); (DP_PSTOP, recv_stoppage n); (DP_BNRY, recv_startpage n);
   (DP_ISR, 0xFF);
   (DP_IMR, Z.lor (Z.lor (Z.lor (Z.lor (Z.lor IMR_PRXE IMR_PTXE) IMR_RXEE) IMR_TXEE) IMR_OVWE) IMR_CNTE);
   (DP_CR, Z.lor CR_PS_P1 CR_NO_DMA);
   (DP_PAR0, addr 0%nat); (DP_PAR1, addr 1%nat); (DP_PAR2, addr 2%nat); (DP_PAR3, addr 3%nat);
   (DP_PAR4, addr 4%nat); (DP_PAR5, addr 5%nat);
   (DP_MAR0, 0xFF); (DP_MAR1, 0xFF); (DP_MAR2, 0xFF); (DP_MAR3, 0xFF);
   (DP_MAR4, 0xFF); (DP_MAR5, 0xFF); (DP_MAR6, 0xFF); (DP_MAR7, 0xFF);
   (DP_CURR, recv_startpage n + 1);
   (DP_CR, Z.lor CR_STA CR_NO_DMA); (DP_TCR, TCR_NORMAL); (DP_RCR, RCR_PRO)].

Definition ne_init : M drv unit :=
  _ ← modify (upd_ne layout);
  n ← gets ne;
  _ ← cprintf "%s: NE%d000 (%dkB RAM) at 0x%x:%d - " [if is16bit n then 2 else 1; ramsize n / 1024; base n; irq n];
  _ ← fold_right (fun i (k : M drv unit) => _ ← cprintf "%x%s" [default 0 (address n !! i)]; k) (mret tt) (seq 0 6);
  write_sequence (init_seq n).

(** [ne_rdma_setup] for a read, and the end of it for a write *)
Definition rdma_start (mode addr size : Z) : M drv unit :=
  _ ← out_b DP_RSAR0 (Z.land addr 0xFF);
  _ ← out_b DP_RSAR1 (Z.land (Z.shiftr addr 8) 0xFF);
  _ ← out_b DP_RBCR0 (Z.land size 0xFF);
  _ ← out_b DP_RBCR1 (Z.land (Z.shiftr size 8) 0xFF);
  out_b DP_CR (Z.lor (Z.lor mode CR_PS_P0) CR_STA).

(** The bytes [ne_getblock] stores from [dst] on: in a 16-bit slot, [size]
    words. *)
Definition ne_getblock (addr size : Z) : M drv (list Z) :=
  _ ← rdma_start CR_DM_RR (u16 addr) size;
  n ← gets ne;
  if is16bit n then insw (Z.to_nat size) else insb (Z.to_nat size).

Definition read_crda : M drv Z :=
  a ← in_b DP_CRDA0;
  b ← in_b DP_CRDA1;
  mret (Z.lor a (Z.land (Z.shiftl b 8) 0xFF00)).

Definition ne_rdma_setup (fuel : nat) (mode addr size : Z) : M drv unit :=
  _ ← when (mode =? CR_DM_RW) (
    n ← gets ne;
    let safeloc := u16 (startaddr n - 4) in
    oldcrda ← read_crda;
    _ ← ne_getblock safeloc 4;
    loop fuel (fun _ : unit => newcrda ← read_crda; mret (if oldcrda =? newcrda then inl tt else inr tt)) tt);
  rdma_start mode (u16 addr) size.

Definition ne_start_xmit (page size : Z) : M drv unit :=
  _ ← out_b DP_TPSR page;
  _ ← out_b DP_TBCR0 (Z.land size 0xFF);
  _ ← out_b DP_TBCR1 (Z.land (Z.shiftr size 8) 0xFF);
  out_b DP_CR (Z.lor (Z.lor (Z.lor CR_PS_P0 CR_NO_DMA) CR_STA) CR_TXP).

Definition getq (q : Z) (n : ne_t) : sendbuf := default (SendBuf false 0) (sendq n !! Z.to_nat q).
Definition set_filled (q : Z) (b : bool) (n : ne_t) : list sendbuf :=
  alter (fun x => SendBuf b (sendpage x)) (Z.to_nat q) (sendq n).

(** [packet] is the memory from the argument on: [outsw] takes [2 * size]
    bytes of it. *)
Definition ne_pio_write (fuel : nat) (packet : list Z) (size : Z) : M drv Z :=
  n ← gets ne;
  let q := Z.rem (sendq_head n) SENDQ_LEN in
  if filled (getq q n) || (sendq_tail n <? sendq_head n) then
    _ ← cprintf "%s: all transmitting buffers in NIC are busy." []; mret 0
  else
    _ ← ne_rdma_setup fuel CR_DM_RW (sendpage (getq q n) * DP_PAGESIZE) size;
    _ ← (if is16bit n then outsw (Z.to_nat size) packet else outsb (Z.to_nat size) packet);
    _ ← loop fuel (fun _ : unit => r ← in_b DP_ISR; mret (if Z.land r ISR_RDC =? 0 then inl tt else inr tt)) tt;
    _ ← modify (upd_ne (fun n => set_sendq (set_filled q true n) (sendq_head n) (sendq_tail n) n));
    _ ← ne_start_xmit (sendpage (getq q n)) size;
    _ ← modify (upd_ne (fun n => set_sendq (sendq n) (sendq_head n + 1) (sendq_tail n) n));
    mret size.

(** The end of [ne_pio_read]: the frame, in one or two blocks, and the new
    boundary.  The stores into the buffer: offset and bytes. *)
Definition read_frame (n : ne_t) (page pktsize next : Z) : M drv (list (Z * list Z)) :=
  let remain := u32 ((u32 (recv_stoppage n) - page) * DP_PAGESIZE) in
  stores ← (if remain <? pktsize then
              b1 ← ne_getblock (page * DP_PAGESIZE + 4) remain;
              b2 ← ne_getblock (u32 (recv_startpage n) * DP_PAGESIZE) (pktsize - remain);
              mret [(0, b1); (remain, b2)]
            else
              b ← ne_getblock (page * DP_PAGESIZE + 4) pktsize;
              mret [(0, b)]);
  let bnry := u32 (next - 1) in
  _ ← out_b DP_BNRY (if bnry <? u32 (recv_startpage n) then u32 (recv_stoppage n) - 1 else bnry);
  mret stores.

(** The result, and the stores into the buffer.  [buf] is whether the pointer
    is not null. *)
Definition ne_pio_read (buf : bool) (bufsize : Z) : M drv (Z * list (Z * list Z)) :=
  n ← gets ne;
  _ ← out_b DP_CR CR_PS_P1;
  curr ← in_b DP_CURR;
  _ ← out_b DP_CR (Z.lor (Z.lor CR_PS_P0 CR_NO_DMA) CR_STA);
  bnry ← in_b DP_BNRY;
  let page := bnry + 1 in
  let page := if page =? u32 (recv_stoppage n) then u32 (recv_startpage n) else page in
  if page =? curr then _ ← cprintf "%s: no packet to read" []; mret (0, []) else
  header ← ne_getblock (page * DP_PAGESIZE) 4;
  let status := default 0 (header !! 0%nat) in
  let next := default 0 (header !! 1%nat) in
  let pktsize := u32 (Z.lor (default 0 (header !! 2%nat)) (Z.shiftl (default 0 (header !! 3%nat)) 8) - 4) in
  if (pktsize <? ETH_MIN_SIZE) || (ETH_MAX_SIZE <? pktsize) || (Z.land status RSR_PRX =? 0) then
    _ ← cprintf "%s: Bad packet (size: %d, status: 0x%x)" [pktsize; status]; mret (-1, [])
  else if negb buf || (u32 bufsize <? pktsize) then mret (pktsize, [])
  else
    stores ← read_frame n page pktsize next;
    mret (pktsize, stores).

(** One round of the loop of [ne_interrupt], for the status [isr]. *)
Definition ne_service (isr : Z) : M drv unit :=
  _ ← out_b DP_ISR isr;
  _ ← when (negb (Z.land isr ISR_PTX =? 0)) (
    _ ← modify (upd_ne (fun n =>
      let tail := sendq_tail n + 1 in
      set_sendq (set_filled (Z.rem tail SENDQ_LEN) false n) (sendq_head n) tail n));
    cprintf "%s: packet transmitted with no error." []);
  when (negb (Z.land isr ISR_PRX =? 0)) (cprintf "%s: packet received with no error." []).

Definition ne_interrupt (fuel : nat) : M drv unit :=
  loop fuel (fun _ : unit =>
    isr ← in_b DP_ISR;
    if isr =? 0 then mret (inr tt) else _ ← ne_service isr; mret (inl tt)) tt.

(** ** eth.c *)

Definition ETH_IPC_SETUP : Z := 1.
Definition IRQ_ETH : Z := 11.

Definition ethintr (fuel : nat) : M drv unit := ne_interrupt fuel.

Definition ethioctl (request : Z) : M drv Z :=
  n ← gets ne;
  if request =? ETH_IPC_SETUP then
    if base n =? 0 then _ ← cprintf "eth: Network interface not initialized" []; mret (-1)
    else if (pages n =? 0) || (recv_startpage n =? 0) then
      _ ← cprintf "eth: Network interface configuration invalid" []; mret (-1)
    else _ ← cprintf "eth: Network interface ready (base=0x%x, irq=%d)" [base n; irq n]; mret 0
  else _ ← cprintf "%s: Received unrecognized ioctl request %d." [request]; mret (-1).

Definition ethread (n : Z) : M drv (Z * list (Z * list Z)) := ne_pio_read true n.
Definition ethwrite (fuel : nat) (p : list Z) (n : Z) : M drv Z := ne_pio_write fuel p n.

(** memset(&ne, 0, sizeof(ne)), the name and the port *)
Definition blank_ne (i : nat) (port : Z) : ne_t :=
  Ne ([101; 116; 104; 48 + Z.of_nat i] ++ [0; 0; 0; 0]) IRQ_ETH port (replicate 6 0) false 0 0 0 0 0 0 0
     (replicate 2 (SendBuf false 0)) 0 0.

Definition ports : list Z := [0x300; 0xC100; 0x240; 0x280; 0x320; 0x340; 0x360].

(** The loop of [ethinit]: whether a card was found, for which [picenable] and
    [ioapicenable] are then called. *)
Fixpoint probe_ports (i : nat) (ps : list Z) : M drv bool :=
  match ps with
  | [] => mret false
  | p :: ps =>
      _ ← cprintf "Ethernet: Probing port 0x%x." [p];
      _ ← modify (set_ne (blank_ne i p));
      ok ← ne_probe;
      if (ok : bool) then
        _ ← cprintf "Ethernet: Found card at port 0x%x, initializing..." [p];
        _ ← ne_init;
        mret true
      else probe_ports (S i) ps
  end.

Definition ethinit : M drv bool := probe_ports 0 ports.
End Driver.
