(* ===== verification/NeCorrect.v ===== *)
(** * The NE2000 driver is correct

    What a DP8390 card does, from its data sheet, as laws on the port
    instructions; then block transfers, reception, transmission and the queue
    of transmit buffers. *)

From stdpp Require Import base numbers list gmap strings sets.
From Stdlib Require Import Lia ZArith ZifyBool.
From S2P Require Import Prelude Ne.
Open Scope Z_scope.

(** ** The card *)

(** The buffer memory, one byte per address. *)
Abbreviation ram := (gmap Z Z).
Definition at_ (m : ram) (a : Z) : Z := default 0 (m !! a).
(** The [n] bytes from [a] on. *)
Definition rd (m : ram) (a : Z) (n : nat) : list Z := (fun i => at_ m (a + Z.of_nat i)) <$> seq 0 n.
Fixpoint wr (m : ram) (a : Z) (bs : list Z) : ram :=
  match bs with [] => m | b :: bs => wr (<[a := b]> m) (a + 1) bs end.

(** What a driver can rely on of the state of the card. *)
Record view := View {
  v_ram : ram;
  v_reg : gmap Z Z;              (* the registers of page 0, as written *)
  v_reg1 : gmap Z Z;             (* the registers of page 1 *)
  v_page : Z;                    (* the page selected *)
  v_dma : option (bool * Z);     (* remote DMA in progress: a write?, bytes left *)
  v_crda : Z;                    (* its current address *)
  v_events : list Z;             (* the interrupts to be signalled, in their order *)
  v_rdc : option nat;            (* DMA complete is signalled after that many reads of ISR *)
  v_sent : list (list Z)         (* the frames whose transmission was started *)
}.

Definition reg (w : view) (p : Z) : Z := default 0 (v_reg w !! p).
Definition reg1 (w : view) (p : Z) : Z := default 0 (v_reg1 w !! p).

Definition set_reg (p v : Z) (w : view) : view :=
  View (v_ram w) (<[p := v]> (v_reg w)) (v_reg1 w) (v_page w) (v_dma w) (v_crda w) (v_events w) (v_rdc w) (v_sent w).
Definition set_reg1 (p v : Z) (w : view) : view :=
  View (v_ram w) (v_reg w) (<[p := v]> (v_reg1 w)) (v_page w) (v_dma w) (v_crda w) (v_events w) (v_rdc w) (v_sent w).
Definition set_ram (m : ram) (w : view) : view :=
  View m (v_reg w) (v_reg1 w) (v_page w) (v_dma w) (v_crda w) (v_events w) (v_rdc w) (v_sent w).
Definition set_dma (d : option (bool * Z)) (a : Z) (r : option nat) (w : view) : view :=
  View (v_ram w) (v_reg w) (v_reg1 w) (v_page w) d a (v_events w) r (v_sent w).

Definition rsar (w : view) : Z := reg w DP_RSAR0 + 256 * reg w DP_RSAR1.
Definition rbcr (w : view) : Z := reg w DP_RBCR0 + 256 * reg w DP_RBCR1.

(** The command register: bits 6 and 7 select the page; bits 3 to 5 start a
    remote read or write, or stop it; bit 2 starts a transmission. *)
Definition command (v : Z) (w : view) : view :=
  let d := (v / 8) mod 8 in
  let start wr := if rbcr w =? 0 then None else Some (wr, rbcr w) in
  View (v_ram w) (v_reg w) (v_reg1 w) (v / 64)
    (if d =? 1 then start false else if d =? 2 then start true else if 4 <=? d then None else v_dma w)
    (if (d =? 1) || (d =? 2) then rsar w else v_crda w)
    (v_events w) (v_rdc w)
    (if (v / 4) mod 2 =? 1
     then v_sent w ++ [rd (v_ram w) (256 * reg w DP_TPSR) (Z.to_nat (reg w DP_TBCR0 + 256 * reg w DP_TBCR1))]
     else v_sent w).

(** The interrupt status register. *)
Definition isr_value (w : view) : Z :=
  Z.lor (match v_events w with e :: _ => e | [] => 0 end) (match v_rdc w with Some O => ISR_RDC | _ => 0 end).
Definition isr_read (w : view) : view :=
  set_dma (v_dma w) (v_crda w) (match v_rdc w with Some (S k) => Some k | r => r end) w.
Definition isr_ack (v : Z) (w : view) : view :=
  View (v_ram w) (v_reg w) (v_reg1 w) (v_page w) (v_dma w) (v_crda w)
    (match v_events w with e :: es => if Z.land v e =? e then es else e :: es | [] => [] end)
    (if tst v ISR_RDC then None else v_rdc w) (v_sent w).

(** [c] bytes went through the data port.  The address advances; where it goes
    from the end of the receive ring is not relied on. *)
Definition transferred (bound : nat) (c : Z) (w w' : view) : Prop :=
  match v_dma w with
  | None => w' = w
  | Some (d, n) =>
      exists a' k, (k < bound)%nat /\
        (v_crda w + Z.min c n <= 256 * reg w DP_PSTOP \/ 256 * reg w DP_PSTOP <= v_crda w -> a' = v_crda w + Z.min c n) /\
        w' = if n <=? c then set_dma None a' (Some k) w else set_dma (Some (d, n - c)) a' (v_rdc w) w
  end.

Definition page0_writable (p : Z) : bool := (1 <=? p) && (p <=? 15) && negb (p =? DP_ISR).

Class NicSpec `{Ports} := {
  nbase : Z;
  nview : hw -> view;
  NPOLLS : nat;
  out_cr : forall v h, is_byte v -> nview (outb (nbase + DP_CR) v h) = command v (nview h);
  out_reg0 : forall p v h, is_byte v -> page0_writable p = true -> v_page (nview h) = 0 ->
    nview (outb (nbase + p) v h) = set_reg p v (nview h);
  out_isr : forall v h, is_byte v -> v_page (nview h) = 0 -> nview (outb (nbase + DP_ISR) v h) = isr_ack v (nview h);
  out_reg1 : forall p v h, is_byte v -> 1 <= p <= 15 -> v_page (nview h) = 1 ->
    nview (outb (nbase + p) v h) = set_reg1 p v (nview h);
  in_bnry : forall h, v_page (nview h) = 0 ->
    let '(r, h') := inb (nbase + DP_BNRY) h in r = reg (nview h) DP_BNRY /\ nview h' = nview h;
  in_curr : forall h, v_page (nview h) = 1 ->
    let '(r, h') := inb (nbase + DP_CURR) h in r = reg1 (nview h) DP_CURR /\ nview h' = nview h;
  in_crda0 : forall h, v_page (nview h) = 0 ->
    let '(r, h') := inb (nbase + DP_CRDA0) h in r = v_crda (nview h) mod 256 /\ nview h' = nview h;
  in_crda1 : forall h, v_page (nview h) = 0 ->
    let '(r, h') := inb (nbase + DP_CRDA1) h in r = v_crda (nview h) / 256 mod 256 /\ nview h' = nview h;
  in_isr : forall h, v_page (nview h) = 0 ->
    let '(r, h') := inb (nbase + DP_ISR) h in r = isr_value (nview h) /\ nview h' = isr_read (nview h);
  in_data : forall h,
    let '(r, h') := inb (nbase + NE_DATA) h in
    transferred NPOLLS 1 (nview h) (nview h') /\
    (match v_dma (nview h) with Some (false, n) => r = at_ (v_ram (nview h)) (v_crda (nview h)) | _ => True end);
  inw_data : forall h,
    let '(r, h') := inw (nbase + NE_DATA) h in
    transferred NPOLLS 2 (nview h) (nview h') /\
    (match v_dma (nview h) with
     | Some (false, n) => r.1 = at_ (v_ram (nview h)) (v_crda (nview h)) /\
         (2 <= n -> v_crda (nview h) + 1 <> 256 * reg (nview h) DP_PSTOP -> r.2 = at_ (v_ram (nview h)) (v_crda (nview h) + 1))
     | _ => True end);
  out_data : forall v h, is_byte v ->
    let w := nview h in
    transferred NPOLLS 1 (match v_dma w with Some (true, _) => set_ram (<[v_crda w := v]> (v_ram w)) w | _ => w end)
      (nview (outb (nbase + NE_DATA) v h));
  outw_data : forall v h, is_byte v.1 -> is_byte v.2 ->
    let w := nview h in
    (forall n, v_dma w = Some (true, n) -> 2 <= n -> v_crda w + 1 <> 256 * reg w DP_PSTOP) ->
    transferred NPOLLS 2
      (match v_dma w with
       | Some (true, n) => set_ram (if n =? 1 then <[v_crda w := v.1]> (v_ram w)
                                    else <[v_crda w + 1 := v.2]> (<[v_crda w := v.1]> (v_ram w))) w
       | _ => w end)
      (nview (outw (nbase + NE_DATA) v h))
}.

(** ** Register accesses *)

Section Access.
Context `{HS : NicSpec}.

Definition at_base (s : drv) : Prop := base (ne s) = nbase.

Lemma out_cr_wp v (Q : unit -> drv -> Prop) s :
  at_base s -> is_byte v -> (forall h, nview h = command v (nview (nic s)) -> Q tt (set_nic h s)) -> wp (out_b DP_CR v) Q s.
Proof. intros Hb Hv HQ. unfold out_b. wp_step. apply HQ. rewrite Hb, u8_small by done. by apply out_cr. Qed.

Lemma out_reg0_wp p v (Q : unit -> drv -> Prop) s :
  at_base s -> v_page (nview (nic s)) = 0 -> page0_writable p = true ->
  (forall h, nview h = set_reg p (u8 v) (nview (nic s)) -> Q tt (set_nic h s)) -> wp (out_b p v) Q s.
Proof. intros Hb Hp Hw HQ. unfold out_b. wp_step. apply HQ. rewrite Hb. by apply out_reg0; [apply u8_range|..]. Qed.

Lemma out_reg1_wp p v (Q : unit -> drv -> Prop) s :
  at_base s -> v_page (nview (nic s)) = 1 -> 1 <= p <= 15 ->
  (forall h, nview h = set_reg1 p (u8 v) (nview (nic s)) -> Q tt (set_nic h s)) -> wp (out_b p v) Q s.
Proof. intros Hb Hp Hw HQ. unfold out_b. wp_step. apply HQ. rewrite Hb. by apply out_reg1; [apply u8_range|..]. Qed.

Lemma out_isr_wp v (Q : unit -> drv -> Prop) s :
  at_base s -> v_page (nview (nic s)) = 0 -> is_byte v ->
  (forall h, nview h = isr_ack v (nview (nic s)) -> Q tt (set_nic h s)) -> wp (out_b DP_ISR v) Q s.
Proof. intros Hb Hp Hv HQ. unfold out_b. wp_step. apply HQ. rewrite Hb, u8_small by done. by apply out_isr. Qed.

Lemma in_isr_wp (Q : Z -> drv -> Prop) s :
  at_base s -> v_page (nview (nic s)) = 0 ->
  (forall h, nview h = isr_read (nview (nic s)) -> Q (isr_value (nview (nic s))) (set_nic h s)) -> wp (in_b DP_ISR) Q s.
Proof.
  intros Hb Hp HQ. unfold in_b, wp. rewrite Hb. pose proof (in_isr (nic s) Hp) as Hi.
  destruct (inb _ _) as [r h]. destruct Hi as [-> Hv]. by apply HQ.
Qed.

Lemma in_bnry_wp (Q : Z -> drv -> Prop) s :
  at_base s -> v_page (nview (nic s)) = 0 ->
  (forall h, nview h = nview (nic s) -> Q (reg (nview (nic s)) DP_BNRY) (set_nic h s)) -> wp (in_b DP_BNRY) Q s.
Proof.
  intros Hb Hp HQ. unfold in_b, wp. rewrite Hb. pose proof (in_bnry (nic s) Hp) as Hi.
  destruct (inb _ _) as [r h]. destruct Hi as [-> Hv]. by apply HQ.
Qed.

Lemma in_curr_wp (Q : Z -> drv -> Prop) s :
  at_base s -> v_page (nview (nic s)) = 1 ->
  (forall h, nview h = nview (nic s) -> Q (reg1 (nview (nic s)) DP_CURR) (set_nic h s)) -> wp (in_b DP_CURR) Q s.
Proof.
  intros Hb Hp HQ. unfold in_b, wp. rewrite Hb. pose proof (in_curr (nic s) Hp) as Hi.
  destruct (inb _ _) as [r h]. destruct Hi as [-> Hv]. by apply HQ.
Qed.

Lemma crda_word a : 0 <= a < 65536 -> Z.lor (a mod 256) (Z.land (Z.shiftl (a / 256 mod 256) 8) 0xFF00) = a.
Proof.
  intros Ha. rewrite (Z.mod_small (a / 256)) by (split; [apply Z.div_pos; lia|apply Z.div_lt_upper_bound; lia]).
  apply Z.bits_inj'. intros n Hn. change 0xFF00 with (Z.shiftl (Z.ones 8) 8).
  rewrite Z.lor_spec, Z.land_spec, !Z.shiftl_spec by done. change 256 with (2 ^ 8).
  destruct (Z.ltb_spec n 8).
  - rewrite Z.mod_pow2_bits_low by lia. rewrite (Z.testbit_neg_r _ (n - 8)) by lia. by rewrite orb_false_r.
  - rewrite Z.mod_pow2_bits_high by lia. rewrite Z.div_pow2_bits by lia. rewrite Z.testbit_ones_nonneg by lia.
    replace (n - 8 + 8) with n by lia. simpl. destruct (Z.ltb_spec (n - 8) 8); [by rewrite andb_true_r|]. rewrite andb_false_r.
    symmetry. apply Z.bits_above_log2; [lia|]. destruct (decide (a = 0)) as [->|]; [simpl; lia|].
    apply Z.log2_lt_pow2; [lia|]. apply Z.lt_le_trans with (2 ^ 16); [lia|]. apply Z.pow_le_mono_r; lia.
Qed.

Lemma read_crda_wp (Q : Z -> drv -> Prop) s :
  at_base s -> v_page (nview (nic s)) = 0 -> 0 <= v_crda (nview (nic s)) < 65536 ->
  (forall h, nview h = nview (nic s) -> Q (v_crda (nview (nic s))) (set_nic h s)) -> wp read_crda Q s.
Proof.
  intros Hb Hp Ha HQ. unfold read_crda. wp_step. unfold in_b at 1, wp at 1. rewrite Hb.
  pose proof (in_crda0 (nic s) Hp) as Hi. destruct (inb _ _) as [r h]. destruct Hi as [-> Hv].
  wp_step. unfold in_b at 1, wp at 1. cbn [nic set_nic ne]. rewrite Hb, <- Hv in *.
  pose proof (in_crda1 h Hp) as Hi. destruct (inb _ _) as [r h']. destruct Hi as [-> Hv'].
  wp_step. rewrite crda_word by done. apply HQ. congruence.
Qed.

(** ** Starting a transfer *)

Definition started (wr : bool) (addr size : Z) (w : view) : view :=
  View (v_ram w)
    (<[DP_RBCR1 := size / 256]> (<[DP_RBCR0 := size mod 256]> (<[DP_RSAR1 := addr / 256]> (<[DP_RSAR0 := addr mod 256]> (v_reg w)))))
    (v_reg1 w) 0 (Some (wr, size)) addr (v_events w) (v_rdc w) (v_sent w).

Lemma low_byte x : Z.land x 0xFF = x mod 256.
Proof. apply (Z.land_ones x 8). lia. Qed.

Lemma high_byte x : 0 <= x < 65536 -> Z.land (Z.shiftr x 8) 0xFF = x / 256.
Proof.
  intros Hx. rewrite low_byte, Z.shiftr_div_pow2 by lia. apply Z.mod_small.
  split; [apply Z.div_pos; lia|apply Z.div_lt_upper_bound; lia].
Qed.

Lemma byte_div x : 0 <= x < 65536 -> is_byte (x / 256).
Proof. split; [apply Z.div_pos; lia|apply Z.div_lt_upper_bound; lia]. Qed.

Lemma byte_mod x : is_byte (x mod 256).
Proof. apply Z.mod_pos_bound. lia. Qed.

Lemma rdma_start_wp wr addr size (Q : unit -> drv -> Prop) s :
  at_base s -> v_page (nview (nic s)) = 0 -> 0 <= addr < 65536 -> 0 < size < 65536 ->
  (forall h, nview h = started wr addr size (nview (nic s)) -> Q tt (set_nic h s)) ->
  wp (rdma_start (if wr then CR_DM_RW else CR_DM_RR) addr size) Q s.
Proof.
  intros Hb Hp Ha Hs HQ. unfold rdma_start. rewrite !low_byte, <- !low_byte, !high_byte, !low_byte by lia.
  wp_step. apply out_reg0_wp; [done..|]. intros h1 H1.
  wp_step. apply out_reg0_wp; [done|by cbn [nic set_nic]; rewrite H1|done|]. intros h2 H2.
  wp_step. apply out_reg0_wp; [done|by cbn [nic set_nic] in *; rewrite H2, H1|done|]. intros h3 H3.
  wp_step. apply out_reg0_wp; [done|by cbn [nic set_nic] in *; rewrite H3, H2, H1|done|]. intros h4 H4.
  apply out_cr_wp; [done|by destruct wr|]. intros h5 H5. cbn [nic set_nic] in *. apply HQ.
  rewrite H5, H4, H3, H2, H1. rewrite !u8_small by (apply byte_mod || apply byte_div; lia).
  assert (Hrb : rbcr (set_reg DP_RBCR1 (size / 256) (set_reg DP_RBCR0 (size mod 256)
      (set_reg DP_RSAR1 (addr / 256) (set_reg DP_RSAR0 (addr mod 256) (nview (nic s)))))) = size).
  { unfold rbcr, reg. cbn [set_reg v_reg]. rewrite lookup_insert_ne, !lookup_insert_eq by done. simpl.
    pose proof (Z.div_mod size 256). lia. }
  assert (Hrs : rsar (set_reg DP_RBCR1 (size / 256) (set_reg DP_RBCR0 (size mod 256)
      (set_reg DP_RSAR1 (addr / 256) (set_reg DP_RSAR0 (addr mod 256) (nview (nic s)))))) = addr).
  { unfold rsar, reg. cbn [set_reg v_reg]. do 3 rewrite lookup_insert_ne by done. rewrite lookup_insert_eq.
    do 2 rewrite lookup_insert_ne by done. rewrite lookup_insert_eq. simpl. pose proof (Z.div_mod addr 256). lia. }
  unfold command, started. rewrite Hrb, Hrs. replace (size =? 0) with false by lia. by destruct wr.
Qed.

(** ** Blocks *)

(** The [n] bytes from the current address on do not reach past the end of the
    receive ring. *)
Definition fits (w : view) (n : nat) : Prop :=
  v_crda w + Z.of_nat n <= 256 * reg w DP_PSTOP \/ 256 * reg w DP_PSTOP <= v_crda w.

Lemma length_rd m a n : length (rd m a n) = n.
Proof. unfold rd. by rewrite length_fmap, length_seq. Qed.

Lemma rd_S m a n : rd m a (S n) = at_ m a :: rd m (a + 1) n.
Proof.
  unfold rd. cbn [seq fmap list_fmap]. rewrite <- fmap_S_seq, <- list_fmap_compose. f_equal; [f_equal; lia|].
  apply list_fmap_ext. intros i x _. simpl. f_equal. lia.
Qed.

Lemma rd_app m a n k : rd m a (n + k) = rd m a n ++ rd m (a + Z.of_nat n) k.
Proof.
  revert a. induction n as [|n IH]; intros a; [simpl; by rewrite Z.add_0_r|].
  cbn [Nat.add]. rewrite !rd_S, IH. simpl. do 3 f_equal. lia.
Qed.

(** All the bytes of a transfer went through. *)
Definition drained (a : Z) (k : nat) (w : view) : view := set_dma None a (Some k) w.

Lemma in_data_wp (Q : Z -> drv -> Prop) s :
  at_base s ->
  (forall r h, transferred NPOLLS 1 (nview (nic s)) (nview h) ->
     (forall n, v_dma (nview (nic s)) = Some (false, n) -> r = at_ (v_ram (nview (nic s))) (v_crda (nview (nic s)))) ->
     Q r (set_nic h s)) ->
  wp (in_b NE_DATA) Q s.
Proof.
  intros Hb HQ. unfold in_b, wp. rewrite Hb. pose proof (in_data (nic s)) as Hi.
  destruct (inb _ _) as [r h]. destruct Hi as [Ht Hr]. apply HQ; [done|]. intros n Hn. by rewrite Hn in Hr.
Qed.

Lemma insb_wp n : forall (Q : list Z -> drv -> Prop) s w,
  at_base s -> nview (nic s) = w -> v_dma w = Some (false, Z.of_nat n) -> (0 < n)%nat ->
  (forall h bs a k, (k < NPOLLS)%nat -> length bs = n -> nview h = drained a k w ->
     (fits w n -> a = v_crda w + Z.of_nat n /\ bs = rd (v_ram w) (v_crda w) n) -> Q bs (set_nic h s)) ->
  wp (insb n) Q s.
Proof.
  induction n as [|n IH]; intros Q s w Hb Hw Hd Hn HQ; [lia|]. cbn [insb]. wp_step. apply in_data_wp; [done|].
  intros r h Ht Hr. rewrite Hw in *. specialize (Hr _ Hd). unfold transferred in Ht. rewrite Hd in Ht.
  destruct Ht as (a' & k & Hk & Ha & Hv). rewrite Z.min_l in Ha by lia. wp_step. destruct n as [|n].
  - cbn [insb]. do 2 wp_step. change (Z.of_nat 1 <=? 1) with true in Hv. cbv iota in Hv. apply (HQ h [r] a' k); [done..|].
    intros Hf. split; [by apply Ha|]. rewrite Hr. unfold rd. simpl. by rewrite Z.add_0_r.
  - replace (Z.of_nat (S (S n)) <=? 1) with false in Hv by lia.
    eapply (IH _ _ (nview h)); [done|done|rewrite Hv; simpl; do 2 f_equal; lia|lia|].
    intros h2 bs a k2 Hk2 Hl Hv2 Hf2. wp_step. apply (HQ h2 (r :: bs) a k2); [done|simpl; lia|by rewrite Hv2, Hv|].
    intros Hf. unfold fits in *. rewrite Hv in Hf2. cbn [set_dma v_crda v_ram] in Hf2.
    assert (Hlt : a' = v_crda w + 1) by (apply Ha; lia). subst a'.
    destruct Hf2 as [-> ->]; [unfold reg in *; simpl in *; lia|]. split; [lia|]. by rewrite (rd_S _ _ (S n)), Hr.
Qed.

Definition in_w : M drv (Z * Z) := fun s => let '(r, h) := inw (base (ne s) + NE_DATA) (nic s) in Ok r (set_nic h s).

Lemma in_w_wp (Q : Z * Z -> drv -> Prop) s :
  at_base s ->
  (forall r h, transferred NPOLLS 2 (nview (nic s)) (nview h) ->
     (forall n, v_dma (nview (nic s)) = Some (false, n) ->
        r.1 = at_ (v_ram (nview (nic s))) (v_crda (nview (nic s))) /\
        (2 <= n -> v_crda (nview (nic s)) + 1 <> 256 * reg (nview (nic s)) DP_PSTOP ->
         r.2 = at_ (v_ram (nview (nic s))) (v_crda (nview (nic s)) + 1))) ->
     Q r (set_nic h s)) ->
  wp in_w Q s.
Proof.
  intros Hb HQ. unfold in_w, wp. rewrite Hb. pose proof (inw_data (nic s)) as Hi.
  destruct (inw _ _) as [r h]. destruct Hi as [Ht Hr]. apply HQ; [done|]. intros n Hn. by rewrite Hn in Hr.
Qed.

(** Words read when the transfer is over. *)
Lemma insw_idle_wp cnt : forall (Q : list Z -> drv -> Prop) s,
  at_base s -> v_dma (nview (nic s)) = None ->
  (forall h bs, length bs = (2 * cnt)%nat -> nview h = nview (nic s) -> Q bs (set_nic h s)) -> wp (insw cnt) Q s.
Proof.
  induction cnt as [|cnt IH]; intros Q s Hb Hd HQ; cbn [insw].
  - wp_step. specialize (HQ (nic s) [] eq_refl eq_refl). by destruct s.
  - wp_step. apply (in_w_wp _ s Hb). intros r h Ht _. unfold transferred in Ht. rewrite Hd in Ht. wp_step.
    apply IH; [done|by cbn [nic set_nic]; rewrite Ht|]. intros h2 bs Hl Hv. wp_step.
    apply (HQ h2 (r.1 :: r.2 :: bs)); [simpl; lia|]. rewrite Hv. exact Ht.
Qed.

Lemma insw_wp cnt : forall n (Q : list Z -> drv -> Prop) s w,
  at_base s -> nview (nic s) = w -> v_dma w = Some (false, Z.of_nat n) -> (0 < n <= 2 * cnt)%nat ->
  (forall h bs a k, (k < NPOLLS)%nat -> length bs = (2 * cnt)%nat -> nview h = drained a k w ->
     (fits w n -> a = v_crda w + Z.of_nat n /\ take n bs = rd (v_ram w) (v_crda w) n) -> Q bs (set_nic h s)) ->
  wp (insw cnt) Q s.
Proof.
  induction cnt as [|cnt IH]; intros n Q s w Hb Hw Hd Hn HQ; [lia|]. cbn [insw]. wp_step. apply (in_w_wp _ s Hb).
  intros r h Ht Hr. rewrite Hw in *. destruct (Hr _ Hd) as [Hr1 Hr2]. clear Hr. unfold transferred in Ht. rewrite Hd in Ht.
  destruct Ht as (a' & k & Hk & Ha & Hv). wp_step. destruct (Z.leb_spec (Z.of_nat n) 2) as [Hle|Hlt].
  - apply insw_idle_wp; [done|by cbn [nic set_nic]; rewrite Hv|]. intros h2 bs Hl Hv2. wp_step.
    apply (HQ h2 (r.1 :: r.2 :: bs) a' k); [done|simpl; lia|by rewrite Hv2; cbn [nic set_nic]; rewrite Hv|].
    intros Hf. unfold fits in Hf. rewrite Z.min_r in Ha by lia. split; [apply Ha; lia|].
    destruct n as [|[|[|n]]]; [lia| |unfold reg in *|lia].
    + unfold rd. simpl. by rewrite Hr1, Z.add_0_r.
    + rewrite !rd_S, Hr1, Hr2 by lia. done.
  - rewrite Z.min_l in Ha by lia.
    eapply (IH (n - 2)%nat _ _ (nview h)); [done|done|rewrite Hv; simpl; do 2 f_equal; lia|lia|].
    intros h2 bs a k2 Hk2 Hl Hv2 Hf2. wp_step. apply (HQ h2 (r.1 :: r.2 :: bs) a k2); [done|simpl; lia|by rewrite Hv2, Hv|].
    intros Hf. unfold fits in *. rewrite Hv in Hf2. cbn [set_dma v_crda v_ram] in Hf2.
    assert (Hlt2 : a' = v_crda w + 2) by (apply Ha; lia). subst a'.
    destruct Hf2 as [-> Hf2]; [unfold reg in *; simpl in *; lia|]. split; [lia|].
    replace n with (S (S (n - 2))) at 1 2 by lia. cbn [take]. rewrite !rd_S, Hf2, Hr1, Hr2 by lia. do 3 f_equal. lia.
Qed.

(** [ne_getblock]: the bytes from [addr] on; through the 16-bit port it stores
    twice as many. *)
Definition stored (s : drv) (size : nat) : nat := if is16bit (ne s) then (2 * size)%nat else size.

Lemma ne_getblock_wp addr size (Q : list Z -> drv -> Prop) s :
  at_base s -> v_page (nview (nic s)) = 0 -> 0 <= addr < 65536 -> 0 < size < 65536 ->
  (forall h bs a k, (k < NPOLLS)%nat -> length bs = stored s (Z.to_nat size) ->
     nview h = drained a k (started false addr size (nview (nic s))) ->
     (fits (started false addr size (nview (nic s))) (Z.to_nat size) ->
        a = addr + size /\ take (Z.to_nat size) bs = rd (v_ram (nview (nic s))) addr (Z.to_nat size)) ->
     Q bs (set_nic h s)) ->
  wp (ne_getblock addr size) Q s.
Proof.
  intros Hb Hp Ha Hs HQ. unfold ne_getblock. wp_step. rewrite u16_small by done.
  apply (rdma_start_wp false); [done..|]. intros h Hv. do 2 wp_step. cbn [ne set_nic]. unfold stored in HQ.
  destruct (is16bit (ne s)) eqn:E16.
  - apply (insw_wp _ (Z.to_nat size) _ (set_nic h s) (nview h)); [done|done|rewrite Hv; simpl; do 2 f_equal; lia|lia|].
    intros h2 bs a k Hk Hl Hv2 Hf. rewrite Hv in *. apply (HQ h2 bs a k); [done..|]. intros Hfit.
    destruct (Hf Hfit) as [-> ->]. cbn [started v_crda v_ram]. split; [lia|done].
  - apply (insb_wp _ _ (set_nic h s) (nview h)); [done|done|rewrite Hv; simpl; do 2 f_equal; lia|lia|].
    intros h2 bs a k Hk Hl Hv2 Hf. rewrite Hv in *. apply (HQ h2 bs a k); [done..|]. intros Hfit.
    destruct (Hf Hfit) as [-> ->]. cbn [started v_crda v_ram]. split; [lia|]. by rewrite take_ge by (rewrite length_rd; lia).
Qed.

(** ** Reception *)

(** Only the registers of the remote DMA changed. *)
Definition dma_reg (p : Z) : bool := (DP_RSAR0 <=? p) && (p <=? DP_RBCR1).
Definition quiet (w w' : view) : Prop :=
  v_ram w' = v_ram w /\ v_page w' = 0 /\ v_events w' = v_events w /\ v_sent w' = v_sent w /\ v_reg1 w' = v_reg1 w /\
  (forall p, dma_reg p = false -> reg w' p = reg w p).

Lemma quiet_trans w1 w2 w3 : quiet w1 w2 -> quiet w2 w3 -> quiet w1 w3.
Proof.
  intros (H1 & _ & H3 & H4 & H5 & H6) (G1 & G2 & G3 & G4 & G5 & G6). unfold quiet.
  split_and!; [congruence..|]. intros p Hp. by rewrite G6, H6.
Qed.

Lemma quiet_refl w : v_page w = 0 -> quiet w w.
Proof. done. Qed.

Lemma reg_insert_ne w p q v : p <> q -> default 0 (<[p := v]> (v_reg w) !! q) = reg w q.
Proof. intros. by rewrite lookup_insert_ne. Qed.

Lemma quiet_block wr addr size a k w : quiet w (drained a k (started wr addr size w)).
Proof.
  split_and!; try done. intros p Hp. unfold reg, drained, started. cbn [set_dma v_reg].
  unfold dma_reg, DP_RSAR0, DP_RBCR1, DP_RSAR1, DP_RBCR0 in *. by rewrite !lookup_insert_ne by lia.
Qed.

(** The page after [bnry] in the receive ring. *)
Definition after (n : ne_t) (bnry : Z) : Z := if bnry + 1 =? recv_stoppage n then recv_startpage n else bnry + 1.

(** The driver and the card agree on the ring. *)
Record ring_ok (s : drv) : Prop := RingOk {
  ring_base : at_base s;
  ring_page : v_page (nview (nic s)) = 0;
  ring_pages : 0 < recv_startpage (ne s) /\ recv_startpage (ne s) + 6 <= recv_stoppage (ne s) < 256;   (* a frame has 6 pages at most *)
  ring_stop : reg (nview (nic s)) DP_PSTOP = recv_stoppage (ne s);
  ring_bnry : recv_startpage (ne s) <= reg (nview (nic s)) DP_BNRY < recv_stoppage (ne s)
}.

Lemma after_range n b : recv_startpage n <= b < recv_stoppage n -> recv_startpage n <= after n b < recv_stoppage n.
Proof. unfold after. destruct (Z.eqb_spec (b + 1) (recv_stoppage n)); lia. Qed.

(** The boundary that makes [p] the next page to read. *)
Definition before (n : ne_t) (p : Z) : Z := if u32 (p - 1) <? recv_startpage n then recv_stoppage n - 1 else u32 (p - 1).

Lemma after_before n p :
  0 < recv_startpage n /\ recv_startpage n + 6 <= recv_stoppage n < 256 -> recv_startpage n <= p < recv_stoppage n -> after n (before n p) = p.
Proof.
  intros Hn Hp. unfold after, before. rewrite u32_small by lia.
  destruct (Z.ltb_spec (p - 1) (recv_startpage n)); case_match; lia.
Qed.

(** What [ne_pio_read] gives for a header at [page], and how the card is left.
    [size] is the size of the frame; [room] the bytes from the page to the end
    of the ring. *)
Definition read_outcome (s : drv) (buf : bool) (bufsize : Z) (hdr : Z * Z * Z * Z) (r : Z) (stores : list (Z * list Z)) (w' : view) : Prop :=
  let n := ne s in
  let w := nview (nic s) in
  let page := after n (reg w DP_BNRY) in
  let '(status, next, lo, hi) := hdr in
  let size := lo + 256 * hi - 4 in
  let room := (recv_stoppage n - page) * 256 in
  if page =? reg1 w DP_CURR then r = 0 /\ stores = [] /\ quiet w w'
  else if (size <? ETH_MIN_SIZE) || (ETH_MAX_SIZE <? size) || (Z.land status RSR_PRX =? 0) then r = -1 /\ stores = [] /\ quiet w w'
  else if negb buf || (bufsize <? size) then r = size /\ stores = [] /\ quiet w w'
  else r = size /\ quiet (set_reg DP_BNRY (u8 (before n next)) w) w' /\
    if room <? size then
      exists b1 b2, stores = [(0, b1); (room, b2)] /\ length b1 = stored s (Z.to_nat room) /\
        length b2 = stored s (Z.to_nat (size - room)) /\
        take (Z.to_nat (size - room)) b2 = rd (v_ram w) (256 * recv_startpage n) (Z.to_nat (size - room))
    else
      exists bs, stores = [(0, bs)] /\ length bs = stored s (Z.to_nat size) /\
        (4 + size <= room -> take (Z.to_nat size) bs = rd (v_ram w) (256 * page + 4) (Z.to_nat size)).

Lemma ne_getblock_quiet_wp addr size (Q : list Z -> drv -> Prop) s w :
  at_base s -> quiet w (nview (nic s)) -> 0 <= addr < 65536 -> 0 < size < 65536 ->
  (forall h bs, length bs = stored s (Z.to_nat size) -> quiet w (nview h) ->
     (addr + size <= 256 * reg w DP_PSTOP \/ 256 * reg w DP_PSTOP <= addr ->
        take (Z.to_nat size) bs = rd (v_ram w) addr (Z.to_nat size)) ->
     Q bs (set_nic h s)) ->
  wp (ne_getblock addr size) Q s.
Proof.
  intros Hb Hq Ha Hs HQ. pose proof Hq as (Hr & Hp & _ & _ & _ & Hreg). apply ne_getblock_wp; [done..|].
  intros h bs a k _ Hl Hv Hf. pose proof (quiet_block false addr size a k (nview (nic s))) as Hq2. rewrite <- Hv in Hq2.
  apply HQ; [done|by eapply quiet_trans|]. intros Hfit. rewrite <- Hr. apply Hf. unfold fits.
  destruct (quiet_block false addr size a k (nview (nic s))) as (_ & _ & _ & _ & _ & Hst).
  specialize (Hst DP_PSTOP eq_refl). unfold reg, drained in Hst. cbn [set_dma v_reg] in Hst. unfold reg at 1 2.
  rewrite Hst. cbn [started v_crda]. change (default 0 (v_reg (nview (nic s)) !! DP_PSTOP)) with (reg (nview (nic s)) DP_PSTOP).
  rewrite (Hreg DP_PSTOP eq_refl). lia.
Qed.

Lemma quiet_set_reg p v w w' : quiet w w' -> quiet (set_reg p v w) (set_reg p v w').
Proof.
  intros (H1 & H2 & H3 & H4 & H5 & H6). unfold quiet. split_and!; [done..|]. intros q Hq. unfold reg. cbn [set_reg v_reg].
  destruct (decide (p = q)) as [->|]; [by rewrite !lookup_insert_eq|]. rewrite !lookup_insert_ne by done. by apply H6.
Qed.

Lemma read_frame_wp (Q : list (Z * list Z) -> drv -> Prop) s w page size next :
  at_base s -> quiet w (nview (nic s)) -> 0 < recv_startpage (ne s) /\ recv_startpage (ne s) + 6 <= recv_stoppage (ne s) < 256 ->
  reg w DP_PSTOP = recv_stoppage (ne s) -> recv_startpage (ne s) <= page < recv_stoppage (ne s) -> is_byte next ->
  ETH_MIN_SIZE <= size <= ETH_MAX_SIZE ->
  (forall h stores, quiet (set_reg DP_BNRY (u8 (before (ne s) next)) w) (nview h) ->
     (let room := (recv_stoppage (ne s) - page) * 256 in
      if room <? size then
        exists b1 b2, stores = [(0, b1); (room, b2)] /\ length b1 = stored s (Z.to_nat room) /\
          length b2 = stored s (Z.to_nat (size - room)) /\
          take (Z.to_nat (size - room)) b2 = rd (v_ram w) (256 * recv_startpage (ne s)) (Z.to_nat (size - room))
      else
        exists bs, stores = [(0, bs)] /\ length bs = stored s (Z.to_nat size) /\
          (4 + size <= room -> take (Z.to_nat size) bs = rd (v_ram w) (256 * page + 4) (Z.to_nat size))) ->
     Q stores (set_nic h s)) ->
  wp (read_frame (ne s) page size next) Q s.
Proof.
  intros Hb Hq Hn Hst Hpg Hnx Hsz HQ. unfold read_frame, DP_PAGESIZE, ETH_MIN_SIZE, ETH_MAX_SIZE, is_byte in *.
  rewrite !(u32_small (recv_stoppage _)), !(u32_small (recv_startpage _)), (u32_small ((_ - page) * 256)) by lia.
  fold (before (ne s) next). set (room := (recv_stoppage (ne s) - page) * 256) in *.
  assert (Hout : forall h stores, quiet w (nview h) ->
    (forall h, quiet (set_reg DP_BNRY (u8 (before (ne s) next)) w) (nview h) -> Q stores (set_nic h s)) ->
    wp (_ ← out_b DP_BNRY (before (ne s) next); mret stores) Q (set_nic h s)).
  { intros h stores Hqh HQ'. wp_step. apply out_reg0_wp; [done|apply Hqh|done|]. intros h2 Hv2. wp_step. apply HQ'. rewrite Hv2.
    by apply quiet_set_reg. }
  wp_step. destruct (Z.ltb_spec room size) as [Hr|Hr].
  - wp_step. apply (ne_getblock_quiet_wp _ _ _ s w); [done..|lia|lia|]. intros h1 b1 Hl1 Hq1 _.
    wp_step. apply (ne_getblock_quiet_wp _ _ _ _ w); [done..|lia|lia|]. intros h2 b2 Hl2 Hq2 Hf2. wp_step.
    apply Hout; [done|]. intros h3 Hq3. apply HQ; [done|]. cbv zeta.
    exists b1, b2. split_and!; [done..|]. rewrite Hf2 by lia. f_equal. lia.
  - wp_step. apply (ne_getblock_quiet_wp _ _ _ s w); [done..|lia|lia|]. intros h1 bs Hl1 Hq1 Hf1. wp_step.
    apply Hout; [done|]. intros h3 Hq3. apply HQ; [done|]. cbv zeta.
    exists bs. split_and!; [done..|]. intros Hroom. subst room. rewrite Hf1 by lia. f_equal. lia.
Qed.

Lemma word_or lo hi : is_byte lo -> 0 <= hi -> Z.lor lo (Z.shiftl hi 8) = lo + 256 * hi.
Proof.
  intros Hlo Hhi. rewrite Z.shiftl_mul_pow2 by lia. change (2 ^ 8) with 256. rewrite Z.lor_comm, Z.add_comm, (Z.mul_comm 256).
  symmetry. rewrite <- Z.lxor_lor, Z.add_nocarry_lxor; [done|..]; apply Z.bits_inj'; intros n Hn;
    rewrite Z.land_spec, Z.bits_0; change 256 with (2 ^ 8); rewrite <- Z.shiftl_mul_pow2, Z.shiftl_spec by lia;
    (destruct (Z.ltb_spec n 8); [by rewrite Z.testbit_neg_r by lia|]);
    rewrite (Z.bits_above_log2 lo), andb_false_r; try done; try (unfold is_byte in *; lia);
    (destruct (decide (lo = 0)) as [->|]; [simpl; lia|]; apply Z.log2_lt_pow2; [unfold is_byte in *; lia|];
     apply Z.lt_le_trans with (2 ^ 8); [unfold is_byte in *; lia|apply Z.pow_le_mono_r; lia]).
Qed.

Lemma cprintf_wp fmt args (Q : unit -> drv -> Prop) s :
  Q tt (Drv _ (nic s) (ne s) (printed s ++ [(fmt, args)])) -> wp (cprintf fmt args) Q s.
Proof. done. Qed.

Lemma ne_pio_read_wp buf bufsize status next lo hi (Q : Z * list (Z * list Z) -> drv -> Prop) s :
  ring_ok s -> 0 <= bufsize < 2 ^ 31 ->
  rd (v_ram (nview (nic s))) (256 * after (ne s) (reg (nview (nic s)) DP_BNRY)) 4 = [status; next; lo; hi] ->
  bytes [status; next; lo; hi] ->
  (forall s' r stores, ne s' = ne s -> read_outcome s buf bufsize (status, next, lo, hi) r stores (nview (nic s')) -> Q (r, stores) s') ->
  wp (ne_pio_read buf bufsize) Q s.
Proof.
  intros [Hb Hp Hpg Hst Hbn] Hbuf Hhdr Hbytes HQ. set (w := nview (nic s)) in *.
  apply Forall_cons in Hbytes as [Hb0 Hbytes]. apply Forall_cons in Hbytes as [Hb1 Hbytes].
  apply Forall_cons in Hbytes as [Hb2 Hbytes]. apply Forall_cons in Hbytes as [Hb3 _].
  pose proof (after_range (ne s) _ Hbn) as Hpage.
  unfold ne_pio_read. do 2 wp_step. apply wp_bind, out_cr_wp; [done|done|]. intros h1 Hv1. fold w in Hv1.
  assert (Hc : reg1 (nview h1) DP_CURR = reg1 w DP_CURR) by (by rewrite Hv1).
  wp_step. apply in_curr_wp; [done|by cbn [nic set_nic]; rewrite Hv1|]. intros h2 Hv2. cbn [nic set_nic] in *. rewrite Hc. clear Hc.
  wp_step. apply out_cr_wp; [done|done|]. intros h3 Hv3. cbn [nic set_nic] in *. rewrite Hv2, Hv1 in Hv3. clear Hv1 Hv2.
  assert (Hq3 : quiet w (nview h3)) by (rewrite Hv3; by split_and!). clear Hv3.
  assert (Hbr : reg (nview h3) DP_BNRY = reg w DP_BNRY) by (by apply Hq3).
  wp_step. apply in_bnry_wp; [done|apply Hq3|]. intros h4 Hv4. cbn [nic set_nic] in *. rewrite Hbr. clear Hbr.
  assert (Hq4 : quiet w (nview h4)) by (by rewrite Hv4). clear Hv4 Hq3.
  rewrite !(u32_small (recv_stoppage _)), !(u32_small (recv_startpage _)) by lia. cbv zeta.
  fold (after (ne s) (reg w DP_BNRY)). unfold read_outcome in HQ. fold w in HQ. cbv zeta in HQ. set (page := after (ne s) (reg w DP_BNRY)) in *.
  destruct (page =? reg1 w DP_CURR) eqn:Ecurr.
  { wp_step. apply cprintf_wp. wp_step. by apply HQ. }
  wp_step. apply (ne_getblock_quiet_wp _ _ _ _ w); [done|done|unfold DP_PAGESIZE; lia|lia|].
  intros h5 bs Hl5 Hq5 Hf5. unfold DP_PAGESIZE in Hf5. specialize (Hf5 ltac:(lia)).
  rewrite (Z.mul_comm page) in Hf5. change (Z.to_nat 4) with 4%nat in Hf5. rewrite Hhdr in Hf5. change (Z.to_nat 4) with 4%nat in Hf5.
  assert (Hhd : bs !! 0%nat = Some status /\ bs !! 1%nat = Some next /\ bs !! 2%nat = Some lo /\ bs !! 3%nat = Some hi).
  { destruct bs as [|x0 [|x1 [|x2 [|x3 bs]]]]; try done. simpl in Hf5. by injection Hf5 as -> -> -> ->. }
  destruct Hhd as (-> & -> & -> & ->). cbn [from_option id]. rewrite word_or by (done || (unfold is_byte in *; lia)). unfold is_byte in *.
  assert (Hsz : (u32 (lo + 256 * hi - 4) <? ETH_MIN_SIZE) || (ETH_MAX_SIZE <? u32 (lo + 256 * hi - 4)) || (Z.land status RSR_PRX =? 0)
              = (lo + 256 * hi - 4 <? ETH_MIN_SIZE) || (ETH_MAX_SIZE <? lo + 256 * hi - 4) || (Z.land status RSR_PRX =? 0)).
  { f_equal. unfold ETH_MIN_SIZE, ETH_MAX_SIZE. destruct (decide (4 <= lo + 256 * hi)); [by rewrite u32_small by lia|].
    unfold u32. rewrite <- (Z_mod_plus_full _ 1), Z.mod_small by lia. lia. }
  rewrite Hsz. destruct ((_ <? ETH_MIN_SIZE) || _ || _) eqn:Ebad.
  { wp_step. apply cprintf_wp. wp_step. by apply HQ. }
  unfold ETH_MIN_SIZE, ETH_MAX_SIZE in Ebad. rewrite (u32_small (lo + _ - 4)), (u32_small bufsize) by lia.
  destruct (negb buf || _); [wp_step; by apply HQ|].
  wp_step. apply (read_frame_wp _ (set_nic h5 (set_nic h4 (set_nic h3 (set_nic h2 (set_nic h1 s))))) w); try done;
    [unfold ETH_MIN_SIZE, ETH_MAX_SIZE; lia|]. intros h6 stores Hq6 Hstores. wp_step. by apply HQ.
Qed.

(** ** Transmission *)

Lemma at_wr_out m a bs b : (b < a \/ a + Z.of_nat (length bs) <= b) -> at_ (wr m a bs) b = at_ m b.
Proof.
  revert m a. induction bs as [|c bs IH]; intros m a Hb; [done|]. cbn [wr length] in *. rewrite IH by lia.
  unfold at_. by rewrite lookup_insert_ne by lia.
Qed.

Lemma rd_wr m a bs : rd (wr m a bs) a (length bs) = bs.
Proof.
  revert m a. induction bs as [|c bs IH]; intros m a; [done|]. cbn [wr length]. rewrite rd_S, IH. f_equal.
  rewrite at_wr_out by lia. unfold at_. by rewrite lookup_insert_eq.
Qed.

Lemma rd_wr_other m a bs b n :
  b + Z.of_nat n <= a \/ a + Z.of_nat (length bs) <= b -> rd (wr m a bs) b n = rd m b n.
Proof. intros Hd. apply list_fmap_ext. intros i x Hx. apply lookup_seq in Hx as [-> Hi]. apply at_wr_out. lia. Qed.

Lemma outsb_wp n : forall bs (Q : unit -> drv -> Prop) s w,
  at_base s -> nview (nic s) = w -> v_dma w = Some (true, Z.of_nat n) -> (0 < n <= length bs)%nat -> bytes bs ->
  v_crda w + Z.of_nat n <= 256 * reg w DP_PSTOP ->
  (forall h k, (k < NPOLLS)%nat ->
     nview h = drained (v_crda w + Z.of_nat n) k (set_ram (wr (v_ram w) (v_crda w) (take n bs)) w) -> Q tt (set_nic h s)) ->
  wp (outsb n bs) Q s.
Proof.
  induction n as [|n IH]; intros bs Q s w Hb Hw Hd Hn Hby Hfit HQ; [lia|]. destruct bs as [|b bs]; [simpl in Hn; lia|].
  apply Forall_cons in Hby as [Hbb Hby]. cbn [outsb]. wp_step. unfold out_b at 1. wp_step. rewrite Hb, u8_small by done.
  pose proof (out_data b (nic s) Hbb) as Ht. cbv zeta in Ht. rewrite Hw, Hd in Ht. unfold transferred in Ht.
  cbn [set_ram v_dma v_crda] in Ht. rewrite Hd in Ht. destruct Ht as (a' & k & Hk & Ha & Hv).
  set (h := outb (nbase + NE_DATA) b (nic s)) in *. rewrite Z.min_l in Ha by lia.
  assert (Ea : a' = v_crda w + 1) by (apply Ha; left; unfold reg in *; simpl in *; lia). subst a'. destruct n as [|n].
  - change (Z.of_nat 1 <=? 1) with true in Hv. cbv iota in Hv.
    specialize (HQ h k Hk Hv). destruct bs; cbn [outsb]; wp_step; exact HQ.
  - replace (Z.of_nat (S (S n)) <=? 1) with false in Hv by lia.
    apply (IH bs _ (set_nic h s) (nview h)); [done|done|rewrite Hv; simpl; do 2 f_equal; lia|simpl in Hn; lia|done| |].
    + rewrite Hv. unfold reg in *. cbn [set_dma set_ram v_crda v_reg]. lia.
    + intros h2 k2 Hk2 Hv2. apply (HQ h2 k2 Hk2). rewrite Hv2, Hv. unfold drained, set_dma, set_ram.
      cbn [v_ram v_reg v_reg1 v_page v_dma v_crda v_events v_rdc v_sent take wr]. f_equal. lia.
Qed.

(** Words written when the transfer is over. *)
Lemma outsw_idle_wp cnt : forall bs (Q : unit -> drv -> Prop) s,
  at_base s -> v_dma (nview (nic s)) = None -> bytes bs ->
  (forall h, nview h = nview (nic s) -> Q tt (set_nic h s)) -> wp (outsw cnt bs) Q s.
Proof.
  assert (Hret : forall (Q : unit -> drv -> Prop) s, (forall h, nview h = nview (nic s) -> Q tt (set_nic h s)) -> wp (mret tt) Q s).
  { intros Q s HQ. wp_step. specialize (HQ (nic s) eq_refl). by destruct s. }
  induction cnt as [|cnt IH]; intros bs Q s Hb Hd Hby HQ; [by apply Hret|]. destruct bs as [|b0 [|b1 bs]]; [by apply Hret..|].
  apply Forall_cons in Hby as [Hb0 Hby]. apply Forall_cons in Hby as [Hb1 Hby]. cbn [outsw]. do 2 wp_step. rewrite Hb.
  pose proof (outw_data (b0, b1) (nic s) Hb0 Hb1) as Ht. cbv zeta in Ht. rewrite Hd in Ht. specialize (Ht ltac:(done)).
  unfold transferred in Ht. rewrite Hd in Ht. apply IH; [done|by cbn [nic set_nic]; rewrite Ht|done|].
  intros h Hv. apply HQ. rewrite Hv. exact Ht.
Qed.

Lemma outsw_wp cnt : forall n bs (Q : unit -> drv -> Prop) s w,
  at_base s -> nview (nic s) = w -> v_dma w = Some (true, Z.of_nat n) -> (0 < n <= 2 * cnt)%nat -> (2 * cnt <= length bs)%nat -> bytes bs ->
  v_crda w + Z.of_nat n <= 256 * reg w DP_PSTOP ->
  (forall h k, (k < NPOLLS)%nat ->
     nview h = drained (v_crda w + Z.of_nat n) k (set_ram (wr (v_ram w) (v_crda w) (take n bs)) w) -> Q tt (set_nic h s)) ->
  wp (outsw cnt bs) Q s.
Proof.
  induction cnt as [|cnt IH]; intros n bs Q s w Hb Hw Hd Hn Hl Hby Hfit HQ; [lia|]. destruct bs as [|b0 [|b1 bs]]; [simpl in Hl; lia..|].
  apply Forall_cons in Hby as [Hb0 Hby]. apply Forall_cons in Hby as [Hb1 Hby]. cbn [outsw length] in *. do 2 wp_step. rewrite Hb.
  pose proof (outw_data (b0, b1) (nic s) Hb0 Hb1) as Ht. cbv zeta in Ht. rewrite Hw, Hd in Ht.
  specialize (Ht ltac:(intros n' [= <-] Hn'; lia)). unfold transferred in Ht. cbn [set_ram v_dma v_crda] in Ht. rewrite Hd in Ht.
  destruct Ht as (a' & k & Hk & Ha & Hv). set (h := outw (nbase + NE_DATA) (b0, b1) (nic s)) in *.
  assert (Ea : a' = v_crda w + Z.min 2 (Z.of_nat n)) by (apply Ha; left; unfold reg in *; simpl in *; lia). subst a'. clear Ha.
  destruct (Z.leb_spec (Z.of_nat n) 2) as [Hle|Hlt].
  - apply outsw_idle_wp; [done|by cbn [nic set_nic]; rewrite Hv|done|]. intros h2 Hv2. apply (HQ h2 k Hk).
    rewrite Hv2. cbn [nic set_nic]. rewrite Hv, Z.min_r by lia. by destruct n as [|[|[|n]]]; [lia|..|lia].
  - rewrite Z.min_l in Hv by lia. replace (Z.of_nat n =? 1) with false in Hv by lia.
    apply (IH (n - 2)%nat bs _ (set_nic h s) (nview h)); [done|done|rewrite Hv; simpl; do 2 f_equal; lia|lia|lia|done| |].
    + rewrite Hv. unfold reg in *. cbn [set_dma set_ram v_crda v_reg]. lia.
    + intros h2 k2 Hk2 Hv2. apply (HQ h2 k2 Hk2). rewrite Hv2, Hv. unfold drained, set_dma, set_ram.
      cbn [v_ram v_reg v_reg1 v_page v_dma v_crda v_events v_rdc v_sent]. assert (Et : take n (b0 :: b1 :: bs) = b0 :: b1 :: take (n - 2) bs) by (by destruct n as [|[|n]]; [lia..|simpl; rewrite Nat.sub_0_r]).
      rewrite Et. cbn [wr fst snd]. f_equal; [f_equal; lia|lia].
Qed.
End Access.
