(* ===== verification/NeSend.v ===== *)
(** * The transmit queue of the NE2000 driver

    [ne_pio_write] copies a frame into one of two buffers of the card and starts
    its transmission; [ne_interrupt] releases the buffers, in their order, as
    the card reports that they were transmitted. *)

From stdpp Require Import base numbers list gmap strings sets.
From Stdlib Require Import Lia ZArith ZifyBool.
From S2P Require Import Prelude Ne NeCorrect.
Open Scope Z_scope.

Section Send.
Context `{HS : NicSpec}.

Lemma ne_rdma_setup_wp fuel addr size (Q : unit -> drv -> Prop) s w :
  at_base s -> nview (nic s) = w -> v_page w = 0 -> 0 <= addr < 65536 -> 0 < size < 65536 ->
  0 <= v_crda w < 65536 -> v_crda w <> startaddr (ne s) -> 4 <= startaddr (ne s) < 65536 ->
  startaddr (ne s) <= 256 * reg w DP_PSTOP -> (0 < fuel)%nat ->
  (forall h, quiet w (nview h) -> v_dma (nview h) = Some (true, size) -> v_crda (nview h) = addr -> Q tt (set_nic h s)) ->
  wp (ne_rdma_setup fuel CR_DM_RW addr size) Q s.
Proof.
  intros Hb Hw Hp Ha Hs Hcr Hne Hst Hps Hf HQ. unfold ne_rdma_setup. rewrite (u16_small addr) by done. subst w. wp_step.
  wp_step; [|done]. do 2 wp_step. rewrite u16_small by lia.
  wp_step. apply read_crda_wp; [done..|]. intros h1 Hv1. wp_step.
  apply ne_getblock_wp; [done|by cbn [nic set_nic]; rewrite Hv1|lia|lia|]. intros h2 bs a k Hk _ Hv2 Hfit.
  cbn [nic set_nic] in *. rewrite Hv1 in *. change (Z.to_nat 4) with 4%nat in *.
  destruct Hfit as [-> _]; [left; cbn [started v_crda]; unfold reg in *; cbn [started v_reg]; rewrite !lookup_insert_ne by done; lia|].
  destruct fuel as [|fuel]; [lia|]. cbn [loop]. do 2 wp_step. apply read_crda_wp; [done|by cbn [nic set_nic]; rewrite Hv2|by cbn [nic set_nic]; rewrite Hv2; cbn [drained set_dma v_crda]; lia|].
  intros h3 Hv3. cbn [nic set_nic] in *. wp_step. rewrite Hv2. cbn [drained set_dma v_crda].
  replace (v_crda (nview (nic s)) =? startaddr (ne s) - 4 + 4) with false by lia. wp_step.
  apply (rdma_start_wp true); [done|by cbn [nic set_nic]; rewrite Hv3, Hv2|done..|]. intros h4 Hv4. cbn [nic set_nic] in *.
  apply HQ; [|by rewrite Hv4..]. rewrite Hv4, Hv3, Hv2. eapply quiet_trans; [apply quiet_block|].
  destruct (quiet_block true addr size 0 0 (drained (startaddr (ne s) - 4 + 4) k (started false (startaddr (ne s) - 4) 4 (nview (nic s)))))
    as (G1 & G2 & G3 & G4 & G5 & G6). by split_and!.
Qed.

(** ** One frame *)

Definition tx_reg (p : Z) : bool := dma_reg p || ((DP_TPSR <=? p) && (p <=? DP_TBCR1)).

(** [pkt] was copied to [page], and its transmission started. *)
Definition transmits (page : Z) (pkt : list Z) (w w' : view) : Prop :=
  v_ram w' = wr (v_ram w) (256 * page) pkt /\ v_page w' = 0 /\ v_events w' = v_events w /\
  v_sent w' = v_sent w ++ [pkt] /\ v_reg1 w' = v_reg1 w /\ v_crda w' = 256 * page + Z.of_nat (length pkt) /\
  (forall p, tx_reg p = false -> reg w' p = reg w p).

Lemma ne_start_xmit_wp page size (Q : unit -> drv -> Prop) s :
  at_base s -> v_page (nview (nic s)) = 0 -> is_byte page -> 0 <= size < 65536 ->
  (forall h, let w := nview (nic s) in
     v_ram (nview h) = v_ram w -> v_page (nview h) = 0 -> v_events (nview h) = v_events w -> v_reg1 (nview h) = v_reg1 w ->
     v_crda (nview h) = v_crda w -> v_sent (nview h) = v_sent w ++ [rd (v_ram w) (256 * page) (Z.to_nat size)] ->
     (forall p, tx_reg p = false -> reg (nview h) p = reg w p) -> Q tt (set_nic h s)) ->
  wp (ne_start_xmit page size) Q s.
Proof.
  intros Hb Hp Hpg Hs HQ. unfold ne_start_xmit. rewrite high_byte, low_byte by done.
  wp_step. apply out_reg0_wp; [done..|]. intros h1 H1.
  wp_step. apply out_reg0_wp; [done|by cbn [nic set_nic]; rewrite H1|done|]. intros h2 H2.
  wp_step. apply out_reg0_wp; [done|by cbn [nic set_nic] in *; rewrite H2, H1|done|]. intros h3 H3.
  apply out_cr_wp; [done|done|]. intros h4 H4. cbn [nic set_nic] in *. apply HQ.
  all: rewrite H4, H3, H2, H1, ?(u8_small page), ?(u8_small (size mod 256)), ?(u8_small (size / 256))
    by (done || apply byte_mod || by apply byte_div); try done.
  - unfold command. cbn [v_sent v_ram set_reg]. change ((_ / 4) mod 2 =? 1) with true. cbv iota. do 3 f_equal.
    + unfold reg. cbn [set_reg v_reg]. rewrite !lookup_insert_ne, lookup_insert_eq by done. done.
    + unfold reg. cbn [set_reg v_reg]. rewrite (lookup_insert_ne _ DP_TBCR1 DP_TBCR0), !lookup_insert_eq by done. simpl.
      pose proof (Z.div_mod size 256). lia.
  - intros p Hpr. unfold reg. cbn [command set_reg v_reg]. unfold tx_reg, DP_TPSR, DP_TBCR1, DP_TBCR0 in *.
    by rewrite !lookup_insert_ne by lia.
Qed.

(** The wait for the end of the transfer. *)
Lemma wait_rdc_wp fuel k (Q : unit -> drv -> Prop) s :
  at_base s -> v_page (nview (nic s)) = 0 -> v_rdc (nview (nic s)) = Some k -> (k < fuel)%nat ->
  (forall h k', nview h = set_dma (v_dma (nview (nic s))) (v_crda (nview (nic s))) (Some k') (nview (nic s)) -> Q tt (set_nic h s)) ->
  wp (loop fuel (fun _ : unit => r ← in_b DP_ISR; mret (if Z.land r ISR_RDC =? 0 then inl tt else inr tt)) tt) Q s.
Proof.
  intros Hb Hp Hk Hf HQ. revert k s Hb Hp Hk Hf HQ. induction fuel as [|fuel IH]; intros k s Hb Hp Hk Hf HQ; [lia|]. cbn [loop].
  do 2 wp_step. apply in_isr_wp; [done..|]. intros h Hv. wp_step.
  assert (Hv' : nview h = set_dma (v_dma (nview (nic s))) (v_crda (nview (nic s))) (Some (Nat.pred k)) (nview (nic s))).
  { rewrite Hv. unfold isr_read. rewrite Hk. by destruct k. }
  destruct (Z.land (isr_value (nview (nic s))) ISR_RDC =? 0) eqn:E; [|wp_step; by eapply HQ].
  assert (Hk0 : k <> O).
  { intros ->. unfold isr_value in E. rewrite Hk, Z.land_lor_distr_l in E. change (Z.land ISR_RDC ISR_RDC) with ISR_RDC in E.
    apply Z.eqb_eq, Z.lor_eq_0_iff in E as [_ E]. done. }
  apply (IH (Nat.pred k)); [done|by cbn [nic set_nic]; rewrite Hv'|by cbn [nic set_nic]; rewrite Hv'|lia|].
  intros h2 k' Hv2. cbn [nic set_nic] in *. apply (HQ h2 k'). by rewrite Hv2, Hv'.
Qed.

(** The memory [ne_pio_write] reads from: as [outsw] counts words, twice the
    size in a 16-bit slot. *)
Definition readable (s : drv) (packet : list Z) (size : Z) : Prop :=
  bytes packet /\ (stored s (Z.to_nat size) <= length packet)%nat.

Lemma outs_wp packet size (Q : unit -> drv -> Prop) s w :
  at_base s -> nview (nic s) = w -> v_dma w = Some (true, size) -> 0 < size -> readable s packet size ->
  v_crda w + size <= 256 * reg w DP_PSTOP ->
  (forall h k, (k < NPOLLS)%nat ->
     nview h = drained (v_crda w + size) k (set_ram (wr (v_ram w) (v_crda w) (take (Z.to_nat size) packet)) w) -> Q tt (set_nic h s)) ->
  wp (if is16bit (ne s) then outsw (Z.to_nat size) packet else outsb (Z.to_nat size) packet) Q s.
Proof.
  intros Hb Hw Hd Hs [Hby Hl] Hfit HQ. unfold stored in Hl. destruct (is16bit (ne s)).
  - apply (outsw_wp _ (Z.to_nat size) _ _ s w); [done|done|by rewrite Z2Nat.id by lia|lia|done|done|by rewrite Z2Nat.id by lia|].
    intros h k Hk Hv. rewrite Z2Nat.id in Hv by lia. by eapply HQ.
  - apply (outsb_wp _ _ _ s w); [done|done|by rewrite Z2Nat.id by lia|lia|done|by rewrite Z2Nat.id by lia|].
    intros h k Hk Hv. rewrite Z2Nat.id in Hv by lia. by eapply HQ.
Qed.

(** The card is ready for a transfer to its memory. *)
Record dma_ready (s : drv) : Prop := DmaReady {
  dr_base : at_base s;
  dr_page : v_page (nview (nic s)) = 0;
  dr_start : 4 <= startaddr (ne s) < 65536 /\ startaddr (ne s) <= 256 * reg (nview (nic s)) DP_PSTOP;
  dr_crda : 0 <= v_crda (nview (nic s)) < 65536 /\ v_crda (nview (nic s)) <> startaddr (ne s)
}.

Lemma ne_pio_write_ok_wp fuel packet size (Q : Z -> drv -> Prop) s :
  let q := Z.rem (sendq_head (ne s)) SENDQ_LEN in
  let page := sendpage (getq q (ne s)) in
  dma_ready s -> filled (getq q (ne s)) = false -> sendq_head (ne s) <= sendq_tail (ne s) ->
  0 < size < 65536 -> is_byte page -> 256 * page + size <= 256 * reg (nview (nic s)) DP_PSTOP ->
  reg (nview (nic s)) DP_PSTOP < 256 -> readable s packet size -> (NPOLLS < fuel)%nat ->
  (forall h, transmits page (take (Z.to_nat size) packet) (nview (nic s)) (nview h) ->
     Q size (Drv _ h (set_sendq (set_filled q true (ne s)) (sendq_head (ne s) + 1) (sendq_tail (ne s)) (ne s)) (printed s))) ->
  wp (ne_pio_write fuel packet size) Q s.
Proof.
  intros q page [Hb Hp [Hst Hst2] [Hcr Hcr2]] Hfill Hht Hs Hpg Hfit Hps Hrd Hf HQ.
  unfold ne_pio_write. do 2 wp_step. fold q. rewrite Hfill, orb_false_l. replace (sendq_tail _ <? sendq_head _) with false by lia.
  cbv zeta. fold page. set (pkt := take (Z.to_nat size) packet) in *. unfold is_byte in Hpg.
  assert (Hlen : Z.of_nat (length pkt) = size).
  { unfold pkt. destruct Hrd as [_ Hl]. unfold stored in Hl. rewrite length_take. destruct (is16bit (ne s)); lia. }
  wp_step. apply (ne_rdma_setup_wp _ _ _ _ s (nview (nic s))); unfold DP_PAGESIZE; [done|done|done|lia|done|done|done|done|done|lia|].
  intros h1 Hq1 Hd1 Hc1. pose proof Hq1 as (R1 & P1 & E1 & S1 & G1 & Hr1).
  wp_step. apply (outs_wp _ _ _ (set_nic h1 s) (nview h1)); [done|done|done|lia|done|rewrite Hc1, Hr1 by done; lia|].
  intros h2 k Hk Hv2. wp_step. apply (wait_rdc_wp _ k); [done|by cbn [nic set_nic]; rewrite Hv2|by cbn [nic set_nic]; rewrite Hv2|lia|].
  intros h3 k' Hv3. cbn [nic set_nic] in Hv3. rewrite Hv2 in Hv3. do 2 wp_step. wp_step.
  apply ne_start_xmit_wp; [done|cbn [nic set_nic set_ne upd_ne]; by rewrite Hv3|done|lia|]. cbn [nic set_nic set_ne upd_ne].
  intros h4. cbv zeta. rewrite Hv3. cbn [drained set_dma set_ram v_ram v_page v_events v_reg1 v_crda v_sent].
  intros R4 P4 E4 G4 C4 S4 Hr4. do 3 wp_step. apply HQ. cbn [nic set_nic]. rewrite Hc1, R1 in *. fold pkt in R4, S4.
  unfold transmits. split_and!; [by rewrite R4, Z.mul_comm|done|congruence| |congruence|by rewrite C4, Hlen, Z.mul_comm|].
  - rewrite S4, S1. do 2 f_equal. replace (Z.to_nat size) with (length pkt) by lia. rewrite Z.mul_comm. apply rd_wr.
  - intros p Hp'. rewrite Hr4 by done. unfold reg. cbn [drained set_dma set_ram v_reg]. apply Hr1. unfold tx_reg in Hp'. by apply orb_false_iff in Hp' as [? _].
Qed.

Lemma ne_pio_write_busy_wp fuel packet size (Q : Z -> drv -> Prop) s :
  let q := Z.rem (sendq_head (ne s)) SENDQ_LEN in
  filled (getq q (ne s)) = true ->
  (forall l, Q 0 (Drv _ (nic s) (ne s) l)) -> wp (ne_pio_write fuel packet size) Q s.
Proof.
  intros q Hfill HQ. unfold ne_pio_write. do 2 wp_step. fold q. rewrite Hfill, orb_true_l. wp_step. apply cprintf_wp. wp_step. apply HQ.
Qed.

(** ** Interrupts *)

Definition is_ptx (e : Z) : bool := negb (Z.land e ISR_PTX =? 0).
Definition ptx_count (es : list Z) : nat := length (filter (fun e => is_ptx e = true) es).

(** One transmission is over. *)
Definition released (n : ne_t) : ne_t :=
  set_sendq (set_filled (Z.rem (sendq_tail n + 1) SENDQ_LEN) false n) (sendq_head n) (sendq_tail n + 1) n.

(** The card with its interrupts served. *)
Definition served (w w' : view) : Prop :=
  v_ram w' = v_ram w /\ v_reg w' = v_reg w /\ v_reg1 w' = v_reg1 w /\ v_page w' = v_page w /\ v_dma w' = v_dma w /\
  v_crda w' = v_crda w /\ v_sent w' = v_sent w.

Lemma isr_bits e r : 0 < e < 0x40 -> (r = 0 \/ r = ISR_RDC) ->
  Z.lor e r <> 0 /\ is_byte (Z.lor e r) /\ Z.land (Z.lor e r) e = e /\ Z.land (Z.lor e r) ISR_PTX = Z.land e ISR_PTX.
Proof.
  intros He Hr. assert (Hin : e ∈ seqZ 1 63) by (apply elem_of_seqZ; lia).
  assert (Hall : Forall (fun e => forall r, r = 0 \/ r = ISR_RDC ->
    Z.lor e r <> 0 /\ is_byte (Z.lor e r) /\ Z.land (Z.lor e r) e = e /\ Z.land (Z.lor e r) ISR_PTX = Z.land e ISR_PTX) (seqZ 1 63)).
  { repeat (constructor; [intros r' [-> | ->]; by split_and!|]). constructor. }
  rewrite Forall_forall in Hall. by apply Hall.
Qed.

Lemma ne_service_wp isr (Q : unit -> drv -> Prop) s :
  at_base s -> v_page (nview (nic s)) = 0 -> is_byte isr ->
  (forall h l, nview h = isr_ack isr (nview (nic s)) ->
     Q tt (Drv _ h (if is_ptx isr then released (ne s) else ne s) l)) ->
  wp (ne_service isr) Q s.
Proof.
  intros Hb Hp Hi HQ. unfold ne_service. wp_step. apply out_isr_wp; [done..|]. intros h Hv.
  wp_step. unfold is_ptx in HQ. apply wp_when; intros Hx; rewrite Hx in HQ.
  - do 2 wp_step. apply cprintf_wp. cbv beta. apply wp_when; intros _; [apply cprintf_wp|]; by apply HQ.
  - apply wp_when; intros _; [apply cprintf_wp|]; [by apply HQ|]. specialize (HQ h (printed s) Hv). by destruct s.
Qed.

Definition rdc_left (w : view) : nat := match v_rdc w with Some _ => 1%nat | None => 0%nat end.

Lemma ne_interrupt_wp fuel : forall es (Q : unit -> drv -> Prop) s,
  at_base s -> v_page (nview (nic s)) = 0 -> v_events (nview (nic s)) = es -> Forall (fun e => 0 < e < 0x40) es ->
  (2 * length es + rdc_left (nview (nic s)) < fuel)%nat ->
  (forall h l, served (nview (nic s)) (nview h) -> v_events (nview h) = [] ->
     Q tt (Drv _ h (Nat.iter (ptx_count es) released (ne s)) l)) ->
  wp (ne_interrupt fuel) Q s.
Proof.
  unfold ne_interrupt. induction fuel as [|fuel IH]; intros es Q s Hb Hp He Hes Hf HQ; [lia|]. cbn [loop]. do 2 wp_step.
  apply in_isr_wp; [done..|]. intros h Hv. cbv beta. destruct es as [|e es].
  - assert (Hi : isr_value (nview (nic s)) = match v_rdc (nview (nic s)) with Some O => ISR_RDC | _ => 0 end)
      by (unfold isr_value; by rewrite He). rewrite Hi.
    destruct (v_rdc (nview (nic s))) as [[|k]|] eqn:Er.
    2,3: change (0 =? 0) with true; cbv iota; wp_step; wp_step; apply (HQ h (printed s)); rewrite Hv; [by split_and!|done].
    change (ISR_RDC =? 0) with false. cbv iota. wp_step. apply ne_service_wp; [done|cbn [nic set_nic]; by rewrite Hv|done|].
    intros h2 l Hv2. cbn [nic set_nic] in Hv2. rewrite Hv in Hv2. wp_step. change (is_ptx ISR_RDC) with false. cbv iota.
    apply (IH []); [done|cbn [nic]; by rewrite Hv2|cbn [nic]; rewrite Hv2; unfold isr_ack, isr_read; cbn [v_events set_dma]; by rewrite He|done| |].
    + cbn [nic]. rewrite Hv2. unfold rdc_left in *. rewrite Er in Hf. simpl in *. lia.
    + intros h3 l3 Hs3 He3. cbn [nic ne] in *. rewrite Hv2 in Hs3. apply HQ; [|done]. exact Hs3.
  - apply Forall_cons in Hes as [Hee Hes].
    set (r := match v_rdc (nview (nic s)) with Some O => ISR_RDC | _ => 0 end).
    assert (Hi : isr_value (nview (nic s)) = Z.lor e r) by (unfold isr_value; by rewrite He). rewrite Hi.
    destruct (isr_bits e r Hee) as (Hnz & Hby & H3f & Hpt); [unfold r; repeat case_match; auto|].
    rewrite (proj2 (Z.eqb_neq _ 0) Hnz). wp_step. apply ne_service_wp; [done|cbn [nic set_nic]; by rewrite Hv|done|].
    intros h2 l Hv2. cbn [nic set_nic] in Hv2. rewrite Hv in Hv2. wp_step.
    assert (Hptx : is_ptx (Z.lor e r) = is_ptx e) by (unfold is_ptx; by rewrite Hpt). rewrite Hptx.
    assert (Hev : v_events (nview h2) = es).
    { rewrite Hv2. unfold isr_ack, isr_read. cbn [v_events set_dma]. by rewrite He, H3f, Z.eqb_refl. }
    apply (IH es); [by destruct (is_ptx e)|cbn [nic]; by rewrite Hv2|done|done| |].
    + cbn [nic]. cbn [length] in Hf. assert (rdc_left (nview h2) <= 1)%nat by (unfold rdc_left; case_match; lia). lia.
    + intros h3 l3 Hs3 He3. cbn [nic ne] in *. rewrite Hv2 in Hs3. specialize (HQ h3 l3 Hs3 He3). unfold ptx_count in *.
      rewrite filter_cons in HQ. destruct (is_ptx e); [|exact HQ]. rewrite decide_True in HQ by done. cbn [length] in HQ.
      by rewrite Nat.iter_succ_r in HQ.
Qed.

(** ** The queue *)

Definition buffer_bytes : nat := 1536.    (* SENDQ_PAGES * DP_PAGESIZE *)

(** The frames of [pend] are being transmitted, the oldest first: each is in
    the buffer of its number, and these are the buffers that are filled. *)
Record sendq_inv (s : drv) (pend : list (list Z)) : Prop := SendqInv {
  sq_ready : dma_ready s;
  sq_pages : exists f0 f1 p0 p1, sendq (ne s) = [SendBuf f0 p0; SendBuf f1 p1] /\ startaddr (ne s) = 256 * p0 /\
    p0 + 6 <= p1 /\ p1 + 6 <= reg (nview (nic s)) DP_PSTOP < 256;
  sq_count : (length pend <= 2)%nat /\ Z.of_nat (length pend) <= sendq_head (ne s) /\
    sendq_tail (ne s) = sendq_head (ne s) + 1 - Z.of_nat (length pend);
  sq_filled : forall k pkt, pend !! k = Some pkt ->
    let b := getq (Z.rem (sendq_head (ne s) - Z.of_nat (length pend) + Z.of_nat k) SENDQ_LEN) (ne s) in
    filled b = true /\ (length pkt <= buffer_bytes)%nat /\
    rd (v_ram (nview (nic s))) (256 * sendpage b) (length pkt) = pkt;
  sq_free : forall j, sendq_head (ne s) <= j < sendq_head (ne s) + 2 - Z.of_nat (length pend) ->
    filled (getq (Z.rem j SENDQ_LEN) (ne s)) = false;
  sq_events : Forall (fun e => 0 < e < 0x40) (v_events (nview (nic s))) /\
    (ptx_count (v_events (nview (nic s))) <= length pend)%nat
}.

Lemma rem2 j : 0 <= j -> Z.rem j SENDQ_LEN = 0 /\ j mod 2 = 0 \/ Z.rem j SENDQ_LEN = 1 /\ j mod 2 = 1.
Proof. intros Hj. unfold SENDQ_LEN. rewrite Z.rem_mod_nonneg by lia. pose proof (Z.mod_pos_bound j 2). lia. Qed.

Lemma rem2_eq i j : 0 <= i -> 0 <= j -> (Z.rem i SENDQ_LEN = Z.rem j SENDQ_LEN <-> (i - j) mod 2 = 0).
Proof. intros Hi Hj. destruct (rem2 i Hi) as [[-> ?]|[-> ?]], (rem2 j Hj) as [[-> ?]|[-> ?]]; Z.div_mod_to_equations; lia. Qed.

Lemma getq_set_filled i j b n head tail f0 f1 p0 p1 :
  sendq n = [SendBuf f0 p0; SendBuf f1 p1] -> 0 <= i -> 0 <= j ->
  getq (Z.rem j SENDQ_LEN) (set_sendq (set_filled (Z.rem i SENDQ_LEN) b n) head tail n) =
    if (i - j) mod 2 =? 0 then SendBuf b (sendpage (getq (Z.rem j SENDQ_LEN) n)) else getq (Z.rem j SENDQ_LEN) n.
Proof.
  intros Hq Hi Hj. unfold getq, set_filled. cbn [sendq set_sendq]. rewrite Hq.
  destruct (rem2 i Hi) as [[-> Ei]|[-> Ei]], (rem2 j Hj) as [[-> Ej]|[-> Ej]]; simpl;
    (replace ((i - j) mod 2 =? 0) with true by (Z.div_mod_to_equations; lia)) ||
    (replace ((i - j) mod 2 =? 0) with false by (Z.div_mod_to_equations; lia)); done.
Qed.

Lemma set_filled_shape q b n f0 f1 p0 p1 :
  sendq n = [SendBuf f0 p0; SendBuf f1 p1] -> exists f0' f1', set_filled q b n = [SendBuf f0' p0; SendBuf f1' p1].
Proof. intros Hq. unfold set_filled. rewrite Hq. destruct (Z.to_nat q) as [|[|k]]; simpl; eauto. Qed.

(** The pages of two buffers in use are apart. *)
Lemma getq_page j n f0 f1 p0 p1 :
  sendq n = [SendBuf f0 p0; SendBuf f1 p1] -> 0 <= j -> sendpage (getq (Z.rem j SENDQ_LEN) n) = if j mod 2 =? 0 then p0 else p1.
Proof. intros Hq Hj. unfold getq. rewrite Hq. destruct (rem2 j Hj) as [[-> ->]|[-> ->]]; done. Qed.

Lemma transmitted_inv s pend packet size h l :
  sendq_inv s pend -> (length pend < 2)%nat -> 0 < size <= Z.of_nat buffer_bytes -> length (take (Z.to_nat size) packet) = Z.to_nat size ->
  let q := Z.rem (sendq_head (ne s)) SENDQ_LEN in
  transmits (sendpage (getq q (ne s))) (take (Z.to_nat size) packet) (nview (nic s)) (nview h) ->
  sendq_inv (Drv _ h (set_sendq (set_filled q true (ne s)) (sendq_head (ne s) + 1) (sendq_tail (ne s)) (ne s)) l)
            (pend ++ [take (Z.to_nat size) packet]).
Proof.
  intros [[Hb Hp Hst Hcr] (f0 & f1 & p0 & p1 & Hq & Hsa & Hp01 & Hp1) (Hlen & Hhead & Htail) Hfill Hfree Hev] Hlt Hsz Hl q
    (R & P & E & S' & G & C & Hr). set (pkt := take (Z.to_nat size) packet) in *. unfold buffer_bytes in *.
  pose proof (getq_page (sendq_head (ne s)) _ _ _ _ _ Hq ltac:(lia)) as Hpage. fold q in Hpage.
  assert (Hps : reg (nview h) DP_PSTOP = reg (nview (nic s)) DP_PSTOP) by (by apply Hr).
  assert (Hget : forall j, 0 <= j -> getq (Z.rem j SENDQ_LEN)
      (set_sendq (set_filled q true (ne s)) (sendq_head (ne s) + 1) (sendq_tail (ne s)) (ne s)) =
      if (sendq_head (ne s) - j) mod 2 =? 0 then SendBuf true (sendpage (getq (Z.rem j SENDQ_LEN) (ne s))) else getq (Z.rem j SENDQ_LEN) (ne s)).
  { intros j Hj. eapply getq_set_filled; [done|lia|done]. }
  split; cbn [nic ne sendq_head sendq_tail set_sendq startaddr].
  - split; cbn [nic ne sendq_head sendq_tail set_sendq startaddr]; [done|done|by rewrite Hps|]. rewrite C, Hl, Z2Nat.id, Hpage, Hsa by lia.
    destruct (_ =? 0); lia.
  - destruct (set_filled_shape q true _ _ _ _ _ Hq) as (f0' & f1' & Hq'). exists f0', f1', p0, p1. cbn [sendq]. rewrite Hps. done.
  - rewrite length_app. simpl. lia.
  - intros k pkt' Hk. rewrite length_app in *. cbn [length] in *.
    replace (sendq_head (ne s) + 1 - Z.of_nat (length pend + 1) + Z.of_nat k)
      with (sendq_head (ne s) - Z.of_nat (length pend) + Z.of_nat k) by lia.
    rewrite Hget by lia. cbv zeta. apply lookup_app_Some in Hk as [Hk|[Hk1 Hk2]].
    + pose proof (lookup_lt_Some _ _ _ Hk) as Hkl. destruct (Hfill k pkt' Hk) as (F1 & F2 & F3). unfold buffer_bytes in F2.
      replace (_ mod 2 =? 0) with false by (assert (k = 0%nat) as -> by lia; assert (length pend = 1%nat) as -> by lia; Z.div_mod_to_equations; lia).
      split_and!; [done|done|]. rewrite R, rd_wr_other; [done|]. rewrite Hpage.
      rewrite (getq_page (sendq_head (ne s) - Z.of_nat (length pend) + Z.of_nat k) _ _ _ _ _ Hq) by lia. rewrite Hl.
      assert (k = 0%nat) as -> by lia. assert (length pend = 1%nat) as Hl1 by lia. rewrite Hl1 in *.
      destruct (Z.eqb_spec ((sendq_head (ne s) - Z.of_nat 1 + Z.of_nat 0) mod 2) 0), (Z.eqb_spec (sendq_head (ne s) mod 2) 0); Z.div_mod_to_equations; lia.
    + destruct (k - length pend)%nat as [|k'] eqn:Ek; [|done]. injection Hk2 as <-. assert (k = length pend) as -> by lia.
      replace (sendq_head (ne s) - Z.of_nat (length pend) + Z.of_nat (length pend)) with (sendq_head (ne s)) by lia.
      rewrite Z.sub_diag. change (0 mod 2 =? 0) with true. cbv iota. cbn [filled sendpage]. split_and!; [done|unfold buffer_bytes; lia|].
      fold q. rewrite R. apply rd_wr.
  - intros j Hj. rewrite length_app in Hj. cbn [length] in Hj. assert (length pend = 0%nat) as Hl0 by lia. rewrite Hl0 in *.
    rewrite Hget by lia. assert (j = sendq_head (ne s) + 1) as -> by lia.
    replace (_ mod 2 =? 0) with false by (Z.div_mod_to_equations; lia). apply Hfree. lia.
  - rewrite E. destruct Hev as [He1 He2]. split; [done|]. rewrite length_app. simpl. lia.
Qed.

(** The parts of the invariant that do not depend on the interrupts to come. *)
Lemma released_inv s pkt pend h l :
  sendq_inv s (pkt :: pend) -> served (nview (nic s)) (nview h) -> v_events (nview h) = [] ->
  sendq_inv (Drv _ h (released (ne s)) l) pend.
Proof.
  intros [[Hb Hp Hst Hcr] (f0 & f1 & p0 & p1 & Hq & Hsa & Hp01 & Hp1) (Hlen & Hhead & Htail) Hfill Hfree _]
    (R & Rg & R1 & P & D & C & S') He. cbn [length] in *.
  assert (Hget : forall j, 0 <= j -> getq (Z.rem j SENDQ_LEN) (released (ne s)) =
      if (sendq_tail (ne s) + 1 - j) mod 2 =? 0 then SendBuf false (sendpage (getq (Z.rem j SENDQ_LEN) (ne s))) else getq (Z.rem j SENDQ_LEN) (ne s)).
  { intros j Hj. eapply getq_set_filled; [done|lia|done]. }
  assert (Hps : reg (nview h) DP_PSTOP = reg (nview (nic s)) DP_PSTOP) by (unfold reg; by rewrite Rg).
  split; cbn [nic ne sendq_head sendq_tail set_sendq released startaddr].
  - split; cbn [nic ne startaddr set_sendq released]; [done|congruence|by rewrite Hps|by rewrite C].
  - destruct (set_filled_shape (Z.rem (sendq_tail (ne s) + 1) SENDQ_LEN) false _ _ _ _ _ Hq) as (f0' & f1' & Hq').
    exists f0', f1', p0, p1. cbn [sendq]. by rewrite Hps.
  - lia.
  - intros k pkt' Hk. pose proof (lookup_lt_Some _ _ _ Hk) as Hkl. specialize (Hfill (S k) pkt' Hk). cbv zeta in *.
    replace (sendq_head (ne s) - Z.of_nat (S (length pend)) + Z.of_nat (S k))
      with (sendq_head (ne s) - Z.of_nat (length pend) + Z.of_nat k) in Hfill by lia.
    rewrite Hget, R by lia.
    replace (_ mod 2 =? 0) with false; [done|]. assert (k = 0%nat) as -> by lia. assert (length pend = 1%nat) as Hl1 by lia. rewrite Hl1 in *.
    symmetry. apply Z.eqb_neq. Z.div_mod_to_equations; lia.
  - intros j Hj. rewrite Hget by lia. destruct (_ mod 2 =? 0) eqn:E2; [done|]. apply Hfree.
    apply Z.eqb_neq in E2. destruct (decide (j < sendq_head (ne s) + 1 - Z.of_nat (length pend))); [lia|].
    exfalso. apply E2. replace j with (sendq_head (ne s) + 1 - Z.of_nat (length pend)) by lia. rewrite Htail.
    replace (_ - _) with 0 by lia. done.
  - rewrite He. split; [constructor|]. unfold ptx_count. simpl. lia.
Qed.

Lemma served_inv s pend h l n :
  sendq_inv s pend -> (n <= length pend)%nat -> served (nview (nic s)) (nview h) -> v_events (nview h) = [] ->
  sendq_inv (Drv _ h (Nat.iter n released (ne s)) l) (drop n pend).
Proof.
  intros Hinv Hn Hsv He.
  assert (H0 : sendq_inv (Drv _ h (ne s) l) pend).
  { destruct Hinv as [[Hb Hp Hst Hcr] Hpg Hcnt Hfill Hfree _]. destruct Hsv as (R & Rg & R1 & P & D & C & S').
    assert (Hps : reg (nview h) DP_PSTOP = reg (nview (nic s)) DP_PSTOP) by (unfold reg; by rewrite Rg).
    split; cbn [nic ne]; [split; cbn [nic ne]; [done|congruence|by rewrite Hps|by rewrite C]|by rewrite Hps|done|by rewrite R|done|].
    rewrite He. split; [constructor|]. unfold ptx_count. simpl. lia. }
  clear Hinv Hsv. induction n as [|n IH]; [by rewrite drop_0|]. cbn [Nat.iter].
  assert (Hn' : (n <= length pend)%nat) by lia. specialize (IH Hn'). destruct (drop n pend) as [|pkt rest] eqn:Ed.
  { apply (f_equal length) in Ed. rewrite length_drop in Ed. simpl in Ed. lia. }
  replace (drop (S n) pend) with rest by (symmetry; replace (S n) with (n + 1)%nat by lia; rewrite <- drop_drop, Ed; done).
  apply (released_inv (Drv _ h (Nat.iter n released (ne s)) l) pkt rest); [exact IH|done|done].
Qed.

(** What happens to the queue: writes, the card raising an interrupt, and the
    handler.  [pend] are the frames in transmission, [acc] all that were
    accepted.  The card reports a transmission at most once. *)
Inductive tx_reach (s0 : drv) : drv -> list (list Z) -> list (list Z) -> Prop :=
| tx_start : tx_reach s0 s0 [] []
| tx_write s pend acc fuel packet size r s' :
    tx_reach s0 s pend acc -> 0 < size <= 1514 -> readable s packet size -> (NPOLLS < fuel)%nat ->
    ne_pio_write fuel packet size s = Ok r s' ->
    let new := if r =? 0 then [] else [take (Z.to_nat size) packet] in
    tx_reach s0 s' (pend ++ new) (acc ++ new)
| tx_event s pend acc e h :
    tx_reach s0 s pend acc -> 0 < e < 0x40 ->
    nview h = View (v_ram (nview (nic s))) (v_reg (nview (nic s))) (v_reg1 (nview (nic s))) (v_page (nview (nic s)))
                (v_dma (nview (nic s))) (v_crda (nview (nic s))) (v_events (nview (nic s)) ++ [e]) (v_rdc (nview (nic s)))
                (v_sent (nview (nic s))) ->
    (ptx_count (v_events (nview h)) <= length pend)%nat ->
    tx_reach s0 (set_nic h s) pend acc
| tx_intr s pend acc fuel s' :
    tx_reach s0 s pend acc -> (2 * length (v_events (nview (nic s))) + 1 < fuel)%nat ->
    ne_interrupt fuel s = Ok tt s' ->
    tx_reach s0 s' (drop (ptx_count (v_events (nview (nic s)))) pend) acc.

Lemma write_inv s pend fuel packet size :
  sendq_inv s pend -> 0 < size <= 1514 -> readable s packet size -> (NPOLLS < fuel)%nat ->
  exists s', ne_pio_write fuel packet size s = Ok (if (length pend <? 2)%nat then size else 0) s' /\
    sendq_inv s' (pend ++ if (length pend <? 2)%nat then [take (Z.to_nat size) packet] else []) /\
    v_sent (nview (nic s')) = v_sent (nview (nic s)) ++ if (length pend <? 2)%nat then [take (Z.to_nat size) packet] else [].
Proof.
  intros Hinv Hsz Hrd Hf. pose proof Hinv as [Hrdy (f0 & f1 & p0 & p1 & Hq & Hsa & Hp01 & Hp1) (Hlen & Hhead & Htail) Hfill Hfree _].
  set (q := Z.rem (sendq_head (ne s)) SENDQ_LEN).
  assert (Hl : length (take (Z.to_nat size) packet) = Z.to_nat size).
  { destruct Hrd as [_ Hl]. unfold stored in Hl. rewrite length_take. destruct (is16bit (ne s)); lia. }
  assert (Hw : wp (ne_pio_write fuel packet size) (fun r s' => r = (if (length pend <? 2)%nat then size else 0) /\
    sendq_inv s' (pend ++ if (length pend <? 2)%nat then [take (Z.to_nat size) packet] else []) /\
    v_sent (nview (nic s')) = v_sent (nview (nic s)) ++ if (length pend <? 2)%nat then [take (Z.to_nat size) packet] else []) s).
  { destruct (Nat.ltb_spec (length pend) 2) as [Hlt|Hge].
    - pose proof (getq_page (sendq_head (ne s)) _ _ _ _ _ Hq ltac:(lia)) as Hpage. pose proof Hrdy as [_ _ [Hst _] _].
      apply ne_pio_write_ok_wp; try done; fold q in Hpage |- *;
        [by apply Hfree; lia|lia|lia|unfold is_byte; rewrite Hpage; destruct (_ =? 0); lia|rewrite Hpage; destruct (_ =? 0); lia|lia|].
      intros h Ht. split; [done|]. split; [apply transmitted_inv; unfold buffer_bytes; try done; lia|]. cbn [nic]. by destruct Ht as (_ & _ & _ & -> & _).
    - assert (Hl2 : length pend = 2%nat) by lia. destruct (lookup_lt_is_Some_2 pend 0) as [pkt Hpkt]; [lia|].
      destruct (Hfill _ _ Hpkt) as [Hf0 _]. rewrite Hl2 in *.
      apply ne_pio_write_busy_wp.
      + rewrite <- Hf0. f_equal. f_equal. apply rem2_eq; [lia..|]. Z.div_mod_to_equations; lia.
      + intros l. rewrite !app_nil_r. split; [done|]. split; [|done]. by destruct Hinv as [[]]. }
  destruct (wp_elim _ _ _ Hw) as (r & s' & Hrun & -> & H1 & H2). by exists s'.
Qed.

Lemma intr_inv s pend fuel :
  sendq_inv s pend -> (2 * length (v_events (nview (nic s))) + 1 < fuel)%nat ->
  exists s', ne_interrupt fuel s = Ok tt s' /\ sendq_inv s' (drop (ptx_count (v_events (nview (nic s)))) pend) /\
    v_sent (nview (nic s')) = v_sent (nview (nic s)).
Proof.
  intros Hinv Hf. pose proof Hinv as [[Hb Hp _ _] _ _ _ _ [He1 He2]].
  assert (Hw : wp (ne_interrupt fuel) (fun _ s' => sendq_inv s' (drop (ptx_count (v_events (nview (nic s)))) pend) /\
    v_sent (nview (nic s')) = v_sent (nview (nic s))) s).
  { apply (ne_interrupt_wp fuel (v_events (nview (nic s)))); try done.
    - assert (rdc_left (nview (nic s)) <= 1)%nat by (unfold rdc_left; case_match; lia). lia.
    - intros h l Hs He. split; [by apply served_inv|apply Hs]. }
  destruct (wp_elim _ _ _ Hw) as ([] & s' & Hrun & H1 & H2). by exists s'.
Qed.

Lemma tx_reach_inv s0 s pend acc :
  sendq_inv s0 [] -> tx_reach s0 s pend acc ->
  sendq_inv s pend /\ v_sent (nview (nic s)) = v_sent (nview (nic s0)) ++ acc /\ pend `suffix_of` acc.
Proof.
  intros H0. induction 1 as [|s pend acc fuel packet size r s' _ IH Hsz Hrd Hf Hrun new|s pend acc e h _ IH He Hv Hc|s pend acc fuel s' _ IH Hf Hrun].
  - by rewrite app_nil_r.
  - destruct IH as (Hinv & Hsent & Hsuf). destruct (write_inv s pend fuel packet size) as (s2 & Hrun2 & Hinv2 & Hsent2); [done..|].
    rewrite Hrun in Hrun2. injection Hrun2 as -> ->. subst new.
    destruct (length pend <? 2)%nat; [rewrite (proj2 (Z.eqb_neq size 0)) by lia|].
    + split_and!; [done|by rewrite Hsent2, Hsent, app_assoc|]. by apply suffix_app.
    + change (0 =? 0) with true. cbv iota. rewrite !app_nil_r in *. split_and!; [done|congruence|done].
  - destruct IH as (Hinv & Hsent & Hsuf). split_and!; [|by cbn [nic set_nic]; rewrite Hv|done].
    destruct Hinv as [[Hb Hp Hst Hcr] Hpg Hcnt Hfill Hfree [Hev _]].
    split; cbn [nic ne set_nic]; [split; cbn [nic ne set_nic]; [done|by rewrite Hv|unfold reg in *; by rewrite Hv|by rewrite Hv]|unfold reg in *; by rewrite Hv|done|by rewrite Hv|done|].
    split; [|done]. rewrite Hv. cbn [v_events]. apply Forall_app. split; [done|by constructor].
  - destruct IH as (Hinv & Hsent & Hsuf). destruct (intr_inv s pend fuel) as (s2 & Hrun2 & Hinv2 & Hsent2); [done..|].
    rewrite Hrun in Hrun2. injection Hrun2 as ->. split_and!; [done|congruence|]. etrans; [apply suffix_drop|done].
Qed.

(** ** Initialization *)

(** A write to a register. *)
Definition poke (w : view) (x : Z * Z) : view :=
  if x.1 =? DP_CR then command (u8 x.2) w
  else if v_page w =? 0 then (if x.1 =? DP_ISR then isr_ack (u8 x.2) w else set_reg x.1 (u8 x.2) w)
  else set_reg1 x.1 (u8 x.2) w.

Fixpoint pokable (w : view) (seq : list (Z * Z)) : bool :=
  match seq with
  | [] => true
  | x :: seq => ((x.1 =? DP_CR) || (1 <=? x.1) && (x.1 <=? 15) && ((v_page w =? 0) || (v_page w =? 1))) && pokable (poke w x) seq
  end.

Lemma write_sequence_wp seq : forall (Q : unit -> drv -> Prop) s,
  at_base s -> pokable (nview (nic s)) seq = true ->
  (forall h, nview h = foldl poke (nview (nic s)) seq -> Q tt (set_nic h s)) -> wp (write_sequence seq) Q s.
Proof.
  induction seq as [|[p v] seq IH]; intros Q s Hb Hok HQ; cbn [write_sequence].
  - wp_step. specialize (HQ (nic s) eq_refl). by destruct s.
  - cbn [pokable fst snd] in Hok. apply andb_true_iff in Hok as [Hok1 Hok2]. wp_step.
    assert (Hnext : forall h, nview h = poke (nview (nic s)) (p, v) -> wp (write_sequence seq) Q (set_nic h s)).
    { intros h Hv. apply IH; [done|by cbn [nic set_nic]; rewrite Hv|]. intros h2 Hv2. cbn [nic set_nic] in Hv2.
      apply HQ. by rewrite Hv2, Hv. }
    unfold poke in Hnext. cbn [fst snd] in Hnext. unfold out_b. wp_step. apply Hnext. rewrite Hb.
    destruct (Z.eqb_spec p DP_CR) as [->|]; [by apply out_cr, u8_range|]. rewrite orb_false_l in Hok1.
    destruct (Z.eqb_spec (v_page (nview (nic s))) 0) as [E0|E0].
    + destruct (Z.eqb_spec p DP_ISR) as [->|]; [by apply out_isr; [apply u8_range|]|].
      apply out_reg0; [apply u8_range|unfold page0_writable, DP_CR, DP_ISR in *; lia|done].
    + apply out_reg1; [apply u8_range|unfold DP_CR in *; lia|lia].
Qed.

(** The card after [ne_init]. *)
Record inited (n : ne_t) (w w' : view) : Prop := Inited {
  in_page : v_page w' = 0;
  in_stop : reg w' DP_PSTOP = recv_stoppage n;
  in_start : reg w' DP_PSTART = recv_startpage n;
  in_bnry_ : reg w' DP_BNRY = recv_startpage n;
  in_curr_ : reg1 w' DP_CURR = recv_startpage n + 1;
  in_crda : v_crda w' = v_crda w;
  in_events : v_events w' = v_events (isr_ack 0xFF w);
  in_sent : v_sent w' = v_sent w
}.

Lemma init_seq_pokable n w : pokable w (init_seq (layout n)) = true.
Proof. reflexivity. Qed.

Lemma poke0 w p v : v_page w = 0 -> p <> DP_CR -> p <> DP_ISR -> poke w (p, v) = set_reg p (u8 v) w.
Proof. intros Hp H1 H2. unfold poke. cbn [fst snd]. by rewrite (proj2 (Z.eqb_neq p _) H1), (proj2 (Z.eqb_neq p _) H2), Hp. Qed.

Lemma poke1 w p v : v_page w = 1 -> p <> DP_CR -> poke w (p, v) = set_reg1 p (u8 v) w.
Proof. intros Hp H1. unfold poke. cbn [fst snd]. by rewrite (proj2 (Z.eqb_neq p _) H1), Hp. Qed.

Lemma poke_cr w v : poke w (DP_CR, v) = command (u8 v) w.
Proof. done. Qed.

Lemma poke_isr w v : v_page w = 0 -> poke w (DP_ISR, v) = isr_ack (u8 v) w.
Proof. intros Hp. unfold poke. cbn [fst snd]. change (DP_ISR =? DP_CR) with false. by rewrite Hp. Qed.

Ltac step_poke :=
  match goal with
  | |- context [poke ?w (?p, ?v)] =>
      lazymatch w with
      | context [poke _ _] => fail
      | _ => first [rewrite (poke_cr w v) | rewrite (poke_isr w v) by reflexivity | rewrite (poke0 w p v) by done | rewrite (poke1 w p v) by done]
      end
  end.

Lemma init_seq_inited n w : inited (layout n) w (foldl poke w (init_seq (layout n))).
Proof.
  set (m := layout n). assert (Hm : recv_startpage m = (if is16bit n then 0x4C else 0x2C) /\ recv_stoppage m = (if is16bit n then 0x80 else 0x40))
    by (unfold m; cbn [layout recv_startpage recv_stoppage]; by destruct (is16bit n)).
  destruct Hm as [Hs Ht]. clearbody m. unfold init_seq. cbn [foldl]. repeat step_poke.
  split; try reflexivity; unfold reg, reg1; cbn [v_reg v_reg1 set_reg set_reg1 command isr_ack]; rewrite ?Hs, ?Ht;
    repeat first [rewrite lookup_insert_eq | rewrite lookup_insert_ne by done]; by destruct (is16bit n).
Qed.

Lemma ne_init_wp (Q : unit -> drv -> Prop) s :
  at_base s -> (forall h l, inited (layout (ne s)) (nview (nic s)) (nview h) -> Q tt (Drv _ h (layout (ne s)) l)) ->
  wp ne_init Q s.
Proof.
  intros Hb HQ. unfold ne_init. do 4 wp_step. wp_step. apply cprintf_wp. cbn [nic ne printed set_ne upd_ne seq fold_right].
  wp_step. do 6 (wp_step; apply cprintf_wp; cbn [nic ne printed]). wp_step. cbn [nic ne printed].
  apply write_sequence_wp; [done|apply init_seq_pokable|]. intros h Hv. cbn [nic ne printed] in *.
  apply HQ. rewrite Hv. apply init_seq_inited.
Qed.

Ltac consts :=
  cbn [layout startaddr recv_startpage recv_stoppage]; unfold NE2000_START, NE2000_SIZE, NE1000_START, NE1000_SIZE, DP_PAGESIZE, SENDQ_PAGES, SENDQ_LEN in *;
  match goal with |- context [is16bit ?n] => destruct (is16bit n) end; Z.div_mod_to_equations; lia.

Lemma layout_ready s h l :
  at_base s -> inited (layout (ne s)) (nview (nic s)) (nview h) -> v_events (nview (nic s)) = [] ->
  0 <= v_crda (nview (nic s)) < NE1000_START ->
  sendq_inv (Drv _ h (layout (ne s)) l) [] /\ ring_ok (Drv _ h (layout (ne s)) l).
Proof.
  intros Hb [P St Sp Bn Cu Cr Ev Se] He Hc. unfold NE1000_START in Hc.
  assert (Hev : v_events (nview h) = []) by (rewrite Ev; unfold isr_ack; cbn [v_events]; by rewrite He).
  split.
  - split; cbn [nic ne]; rewrite ?Hev.
    + split; cbn [nic ne]; [done|done|rewrite St|rewrite Cr]; consts.
    + rewrite St. eexists _, _, _, _. split; [done|]. consts.
    + cbn [layout sendq_head sendq_tail length]. unfold SENDQ_LEN. lia.
    + done.
    + intros j Hj. cbn [layout sendq_head length] in Hj. assert (j = 0 \/ j = 1) as [-> | ->] by lia; done.
    + split; [constructor|done].
  - split; cbn [nic ne]; [done|done| |done|rewrite Bn]; consts.
Qed.
End Send.
