(* ===== verification/NeCard.v ===== *)
(** * The NE2000 driver with a card

    What the driver guarantees: the transmit queue over every history of
    writes and interrupts, reception of a frame; and two defects of the
    reception.  [sim_card] is a card that satisfies the laws of [NicSpec], for
    the examples. *)

From stdpp Require Import base numbers list gmap strings sets.
From Stdlib Require Import Lia ZArith ZifyBool.
From S2P Require Import Prelude Ne NeCorrect NeSend.
Open Scope Z_scope.

(** ** Transmission *)


(** ** Reception *)

(** A frame in the ring, at the page after the boundary: header and data, up to
    the end of the ring and then from its start. *)
Record frame_at `{HS : NicSpec} (s : drv) (next : Z) (d1 d2 : list Z) : Prop := FrameAt {
  fr_ring : ring_ok s;
  fr_size : ETH_MIN_SIZE <= Z.of_nat (length (d1 ++ d2)) <= ETH_MAX_SIZE;
  fr_there : after (ne s) (reg (nview (nic s)) DP_BNRY) <> reg1 (nview (nic s)) DP_CURR;
  fr_next : recv_startpage (ne s) <= next < recv_stoppage (ne s);
  fr_header : exists status, is_byte status /\ Z.land status RSR_PRX <> 0 /\
    rd (v_ram (nview (nic s))) (256 * after (ne s) (reg (nview (nic s)) DP_BNRY)) 4 =
      [status; next; Z.of_nat (length (d1 ++ d2) + 4) mod 256; Z.of_nat (length (d1 ++ d2) + 4) / 256];
  fr_data1 : rd (v_ram (nview (nic s))) (256 * after (ne s) (reg (nview (nic s)) DP_BNRY) + 4) (length d1) = d1;
  fr_data2 : rd (v_ram (nview (nic s))) (256 * recv_startpage (ne s)) (length d2) = d2;
  fr_end : let room := (recv_stoppage (ne s) - after (ne s) (reg (nview (nic s)) DP_BNRY)) * 256 in
    if decide (d2 = []) then 4 + Z.of_nat (length d1) <= room else 4 + Z.of_nat (length d1) = room
}.

Section Receive.
Context `{HS : NicSpec}.

Lemma read_frame_outcome s next d1 d2 bufsize :
  frame_at s next d1 d2 -> Z.of_nat (length (d1 ++ d2)) <= bufsize < 2 ^ 31 ->
  let size := Z.of_nat (length (d1 ++ d2)) in
  let page := after (ne s) (reg (nview (nic s)) DP_BNRY) in
  let room := (recv_stoppage (ne s) - page) * 256 in
  exists s' stores, ne_pio_read true bufsize s = Ok (size, stores) s' /\ ne s' = ne s /\
    quiet (set_reg DP_BNRY (u8 (before (ne s) next)) (nview (nic s))) (nview (nic s')) /\
    if room <? size then
      exists b1 b2, stores = [(0, b1); (room, b2)] /\ length b1 = stored s (Z.to_nat room) /\
        length b2 = stored s (Z.to_nat (size - room)) /\
        take (Z.to_nat (size - room)) b2 = rd (v_ram (nview (nic s))) (256 * recv_startpage (ne s)) (Z.to_nat (size - room))
    else
      exists bs, stores = [(0, bs)] /\ length bs = stored s (Z.to_nat size) /\
        (4 + size <= room -> take (Z.to_nat size) bs = rd (v_ram (nview (nic s))) (256 * page + 4) (Z.to_nat size)).
Proof.
  intros [Hring Hsize Hth Hnx (status & Hst & Hprx & Hhdr) _ _ _] Hbuf size page room. pose proof Hring as [_ _ Hpg _ _].
  unfold ETH_MIN_SIZE, ETH_MAX_SIZE in *.
  assert (Hsz : Z.of_nat (length (d1 ++ d2) + 4) mod 256 + 256 * (Z.of_nat (length (d1 ++ d2) + 4) / 256) - 4 = size).
  { pose proof (Z.div_mod (Z.of_nat (length (d1 ++ d2) + 4)) 256). unfold size. lia. }
  assert (Hw : wp (ne_pio_read true bufsize) (fun r s' => ne s' = ne s /\
    read_outcome s true bufsize (status, next, Z.of_nat (length (d1 ++ d2) + 4) mod 256, Z.of_nat (length (d1 ++ d2) + 4) / 256) r.1 r.2 (nview (nic s'))) s).
  { eapply ne_pio_read_wp; [done|lia|done| |by intros s' r stores; split].
    repeat constructor; unfold is_byte in *; try lia; try (apply Z.mod_pos_bound; lia); [apply Z.div_pos; lia|apply Z.div_lt_upper_bound; lia]. }
  destruct (wp_elim _ _ _ Hw) as ([r stores] & s' & Hrun & Hne & Hout). exists s', stores. unfold read_outcome in Hout. cbn [fst snd] in Hout.
  rewrite Hsz in Hout. fold page in Hout, Hth. fold room in Hout. rewrite (proj2 (Z.eqb_neq page _) Hth) in Hout.
  unfold ETH_MIN_SIZE, ETH_MAX_SIZE in Hout. rewrite (proj2 (Z.eqb_neq _ 0) Hprx) in Hout.
  replace ((size <? 60) || (1514 <? size) || false) with false in Hout by lia.
  replace (negb true || (bufsize <? size)) with false in Hout by lia. destruct Hout as (-> & Hq & Hres). done.
Qed.
End Receive.

Lemma take_rd m a k n : (k <= n)%nat -> take k (rd m a n) = rd m a k.
Proof.
  intros Hk. replace n with (k + (n - k))%nat by lia. rewrite rd_app. rewrite take_app_le by (rewrite length_rd; lia).
  apply take_ge. rewrite length_rd. lia.
Qed.

Lemma before_range n p : 0 < recv_startpage n /\ recv_startpage n + 6 <= recv_stoppage n < 256 ->
  recv_startpage n <= p < recv_stoppage n -> recv_startpage n <= before n p < recv_stoppage n.
Proof. intros Hn Hp. unfold before. rewrite u32_small by lia. destruct (Z.ltb_spec (p - 1) (recv_startpage n)); lia. Qed.


(** A frame that goes around the end of the receive ring is corrupted.  The
    driver counts the bytes left in the ring from the page of the frame and not
    from its data, four bytes further: the bytes it stores from the number
    [room] of bytes left on are not the ones of the frame from there on, but the
    ones four bytes earlier. *)
Theorem ne_pio_read_wrap_shifts `{HS : NicSpec} s next d1 d2 bufsize :
  let size := length (d1 ++ d2) in
  let room := (recv_stoppage (ne s) - after (ne s) (reg (nview (nic s)) DP_BNRY)) * 256 in
  frame_at s next d1 d2 -> Z.of_nat size <= bufsize < 2 ^ 31 -> room < Z.of_nat size ->
  exists s' b1 b2, ne_pio_read true bufsize s = Ok (Z.of_nat size, [(0, b1); (room, b2)]) s' /\
    take (size - Z.to_nat room) b2 = slice (Z.to_nat room - 4) (size - Z.to_nat room) (d1 ++ d2).
Proof.
  intros size room Hfr Hbuf Hroom. destruct (read_frame_outcome s next d1 d2 bufsize Hfr Hbuf) as (s' & stores & Hrun & _ & _ & Hres).
  cbv zeta in Hres. fold room in Hres. fold size in Hres. rewrite (proj2 (Z.ltb_lt _ _) Hroom) in Hres.
  destruct Hres as (b1 & b2 & -> & _ & _ & Hb2). exists s', b1, b2. split; [done|].
  pose proof Hfr as [[_ _ Hpg _ Hbn] _ _ _ _ _ Hd2 Hend]. cbv zeta in Hend. fold room in Hend.
  pose proof (after_range (ne s) _ Hbn) as Hpage.
  assert (Hlen : (length d1 + length d2 = size)%nat) by (unfold size; by rewrite length_app).
  assert (Hl1 : 4 + Z.of_nat (length d1) = room).
  { destruct (decide (d2 = [])) as [->|]; [simpl in *; lia|done]. }
  replace (Z.to_nat (Z.of_nat size - room)) with (size - Z.to_nat room)%nat in Hb2 by lia.
  rewrite Hb2, <- (take_rd _ _ _ (length d2)), Hd2 by lia. unfold slice. rewrite drop_app_ge by lia.
  replace (Z.to_nat room - 4 - length d1)%nat with 0%nat by lia. by rewrite drop_0.
Qed.

(** In a 16-bit slot, which a NE2000 has, [ne_getblock] reads as many words as
    it was asked for bytes: [ne_pio_read] stores twice the size of the frame, and
    past the end of a buffer of less than that. *)
Theorem ne_pio_read_overruns `{HS : NicSpec} s next data bufsize :
  frame_at s next data [] -> is16bit (ne s) = true -> Z.of_nat (length data) <= bufsize < 2 * Z.of_nat (length data) ->
  exists s' bs, ne_pio_read true bufsize s = Ok (Z.of_nat (length data), [(0, bs)]) s' /\
    length bs = (2 * length data)%nat /\ bufsize < Z.of_nat (length bs).
Proof.
  intros Hfr H16 Hbuf. pose proof (fr_size _ _ _ _ Hfr) as Hsz. rewrite app_nil_r in Hsz. unfold ETH_MAX_SIZE in Hsz.
  destruct (read_frame_outcome s next data [] bufsize Hfr) as (s' & stores & Hrun & Hne & Hq & Hres); [rewrite app_nil_r; lia|].
  pose proof (fr_end _ _ _ _ Hfr) as Hend. cbv zeta in Hend. rewrite decide_True in Hend by done. rewrite app_nil_r in *.
  rewrite (proj2 (Z.ltb_ge _ _)) in Hres by lia. destruct Hres as (bs & -> & Hl & _). exists s', bs.
  unfold stored in Hl. rewrite H16 in Hl. split_and!; [done|lia|lia].
Qed.

(** ** A card *)

Module SimNic.

Definition port : Z := 0x300.

(** [c] bytes through the data port. *)
Definition step (c : Z) (w : view) : view :=
  match v_dma w with
  | None => w
  | Some (d, n) => if n <=? c then set_dma None (v_crda w + Z.min c n) (Some 0%nat) w
                   else set_dma (Some (d, n - c)) (v_crda w + Z.min c n) (v_rdc w) w
  end.

Definition sim_inb (p : Z) (w : view) : Z * view :=
  let p := p - port in
  if p =? NE_DATA then (at_ (v_ram w) (v_crda w), step 1 w)
  else if v_page w =? 0 then
    if p =? DP_ISR then (isr_value w, isr_read w)
    else if p =? DP_CRDA0 then (v_crda w mod 256, w)
    else if p =? DP_CRDA1 then (v_crda w / 256 mod 256, w)
    else (reg w p, w)
  else (reg1 w p, w).

Definition sim_outb (p v : Z) (w : view) : view :=
  let p := p - port in
  if p =? NE_DATA then
    step 1 (match v_dma w with Some (true, _) => set_ram (<[v_crda w := v]> (v_ram w)) w | _ => w end)
  else if p =? DP_CR then command v w
  else if v_page w =? 0 then (if p =? DP_ISR then isr_ack v w else set_reg p v w)
  else set_reg1 p v w.

Definition sim_inw (p : Z) (w : view) : Z * Z * view :=
  (at_ (v_ram w) (v_crda w), at_ (v_ram w) (v_crda w + 1), step 2 w).

Definition sim_outw (p : Z) (v : Z * Z) (w : view) : view :=
  step 2 (match v_dma w with
          | Some (true, n) => set_ram (if n =? 1 then <[v_crda w := v.1]> (v_ram w)
                                       else <[v_crda w + 1 := v.2]> (<[v_crda w := v.1]> (v_ram w))) w
          | _ => w end).

Global Instance sim_ports : Ports := {| hw := view; inb := sim_inb; outb := sim_outb; inw := sim_inw; outw := sim_outw |}.

Lemma step_transferred c w : transferred 1 c w (step c w).
Proof.
  unfold transferred, step. destruct (v_dma w) as [[d n]|]; [|done]. exists (v_crda w + Z.min c n), 0%nat. split_and!; [lia|done|done].
Qed.

Lemma off p : port + p - port = p.
Proof. unfold port. lia. Qed.

Global Program Instance sim_card : NicSpec := {| nbase := port; nview := id; NPOLLS := 1 |}.
Next Obligation. intros v h _. unfold outb, sim_ports, sim_outb. by rewrite off. Qed.
Next Obligation.
  intros p v h _ Hw Hp. unfold outb, sim_ports, sim_outb, id in *. rewrite off. unfold page0_writable, NE_DATA, DP_CR, DP_ISR in *.
  replace (p =? 16) with false by lia. replace (p =? 0) with false by lia. replace (p =? 7) with false by lia. by rewrite Hp.
Qed.
Next Obligation. intros v h _ Hp. unfold outb, sim_ports, sim_outb, id in *. rewrite off. by rewrite Hp. Qed.
Next Obligation.
  intros p v h _ Hw Hp. unfold outb, sim_ports, sim_outb, id in *. rewrite off. unfold NE_DATA, DP_CR, DP_ISR in *.
  replace (p =? 16) with false by lia. replace (p =? 0) with false by lia. by rewrite Hp.
Qed.
Next Obligation. intros h Hp. unfold inb, sim_ports, sim_inb, id in *. rewrite off, Hp. done. Qed.
Next Obligation. intros h Hp. unfold inb, sim_ports, sim_inb, id in *. rewrite off, Hp. done. Qed.
Next Obligation. intros h Hp. unfold inb, sim_ports, sim_inb, id in *. rewrite off, Hp. done. Qed.
Next Obligation. intros h Hp. unfold inb, sim_ports, sim_inb, id in *. rewrite off, Hp. done. Qed.
Next Obligation. intros h Hp. unfold inb, sim_ports, sim_inb, id in *. rewrite off, Hp. done. Qed.
Next Obligation.
  intros h. unfold inb, sim_ports, sim_inb, id in *. rewrite off. split; [apply step_transferred|]. by destruct (v_dma h) as [[[] n]|].
Qed.
Next Obligation.
  intros h. unfold inw, sim_ports, sim_inw, id in *. split; [apply step_transferred|]. by destruct (v_dma h) as [[[] n]|].
Qed.
Next Obligation. intros v h _ w. unfold outb, sim_ports, sim_outb, id in *. rewrite off. apply step_transferred. Qed.
Next Obligation. intros v h _ _ w _. unfold outw, sim_ports, sim_outw, id in *. apply step_transferred. Qed.
End SimNic.

(** ** Examples *)

Definition final {A} (m : M drv A) (s : drv) : drv := match m s with Ok _ s' => s' | _ => s end.

Lemma final_Ok {A} (m : M drv A) s r : returned (m s) = Some r -> m s = Ok r (final m s).
Proof. unfold final, returned. destruct (m s); [|done..]. by intros [= ->]. Qed.

Definition demo_ne : ne_t := set_probed true (blank_ne 0 0x300).
Definition demo_si : drv := Drv SimNic.sim_ports (View ∅ ∅ ∅ 0 None 32 [] None []) demo_ne [].
Definition demo_s0 : drv := final ne_init demo_si.
Definition demo_packet : list Z := (fun i => i mod 256) <$> seqZ 1 120.
Definition demo_s1 : drv := final (ne_pio_write 5 demo_packet 60) demo_s0.

Lemma demo_init : ne_init demo_si = Ok tt demo_s0.
Proof. unfold demo_s0. apply (final_Ok ne_init demo_si tt). vm_compute. reflexivity. Qed.

Lemma demo_write : ne_pio_write 5 demo_packet 60 demo_s0 = Ok 60 demo_s1.
Proof. unfold demo_s1. apply (final_Ok (ne_pio_write 5 demo_packet 60) demo_s0 60). vm_compute. reflexivity. Qed.

Lemma demo_reach : tx_reach demo_s0 demo_s1 [take 60 demo_packet] [take 60 demo_packet].
Proof.
  apply (tx_write demo_s0 demo_s0 [] [] 5 demo_packet 60 60 demo_s1).
  - constructor.
  - lia.
  - split; [apply (bool_decide_unpack _); vm_compute; exact I|vm_compute; lia].
  - vm_compute. lia.
  - exact demo_write.
Qed.


(** A frame of which [d1] lies after the header at page [page] and [d2] at the
    start of the ring. *)
Definition demo_ring (is16 : bool) (page : Z) (d1 d2 : list Z) : drv :=
  let size := Z.of_nat (length (d1 ++ d2)) + 4 in
  let m := wr (wr ∅ (256 * page) ([1; 0x4E; size mod 256; size / 256] ++ d1)) (256 * 0x4C) d2 in
  Drv SimNic.sim_ports (View m {[DP_PSTOP := 0x80; DP_BNRY := page - 1]} {[DP_CURR := 0x4E]} 0 None 0 [] None [])
      (layout (set_probed is16 (blank_ne 0 0x300))) [].

Definition demo_data (n : Z) : list Z := (fun i => i mod 256) <$> seqZ 1 n.

Lemma demo_frame : frame_at (demo_ring true 0x60 (demo_data 60) []) 0x4E (demo_data 60) [].
Proof.
  split.
  - split; try (vm_compute; reflexivity); try (vm_compute; split; congruence). vm_compute. split_and!; congruence.
  - vm_compute. split; congruence.
  - vm_compute. congruence.
  - vm_compute. split; congruence.
  - exists 1. split_and!; [by split|done|vm_compute; reflexivity].
  - vm_compute. reflexivity.
  - vm_compute. reflexivity.
  - vm_compute. congruence.
Qed.

Lemma demo_wrapped : frame_at (demo_ring true 0x7F (demo_data 252) (demo_data 48)) 0x4E (demo_data 252) (demo_data 48).
Proof.
  split.
  - split; try (vm_compute; reflexivity); try (vm_compute; split; congruence). vm_compute. split_and!; congruence.
  - vm_compute. split; congruence.
  - vm_compute. congruence.
  - vm_compute. split; congruence.
  - exists 1. split_and!; [by split|done|vm_compute; reflexivity].
  - vm_compute. reflexivity.
  - vm_compute. reflexivity.
  - vm_compute. reflexivity.
Qed.


Lemma ne_pio_read_wrap_shifts_witness :
  exists s' b1 b2, ne_pio_read true 1514 (demo_ring true 0x7F (demo_data 252) (demo_data 48)) = Ok (300, [(0, b1); (256, b2)]) s' /\
    take 44 b2 = slice 252 44 (demo_data 252 ++ demo_data 48).
Proof.
  apply (ne_pio_read_wrap_shifts (demo_ring true 0x7F (demo_data 252) (demo_data 48)) 0x4E (demo_data 252) (demo_data 48) 1514 demo_wrapped);
    [vm_compute; split; congruence|vm_compute; congruence].
Defined.

Lemma ne_pio_read_overruns_witness :
  exists s' bs, ne_pio_read true 60 (demo_ring true 0x60 (demo_data 60) []) = Ok (60, [(0, bs)]) s' /\ length bs = 120%nat /\ 60 < Z.of_nat (length bs).
Proof.
  apply (ne_pio_read_overruns (demo_ring true 0x60 (demo_data 60) []) 0x4E (demo_data 60) 60 demo_frame);
    [reflexivity|vm_compute; split; congruence].
Defined.
