(* ===== verification/Spinlock.v ===== *)
(** * Spin locks: [src/spinlock.c]

    Several CPUs run [acquire] and [release] on a table of locks.  Each call is
    a sequence of the memory accesses the code makes, one step each, and the
    CPUs' steps interleave in any order, so the checks of [holding] read
    [lk->locked] and [lk->cpu] at different moments.  [held] is the list of
    locks a CPU has acquired and not yet released; no code reads it. *)

From stdpp Require Import base numbers sets list strings.
From Stdlib Require Import Lia ZArith ZifyBool.
From S2P Require Import Prelude.
Open Scope Z_scope.

(** ** The data *)

Record spinlock := Spinlock {
  locked : Z;               (* lk->locked *)
  lk_name : string;         (* lk->name *)
  lk_cpu : option nat;      (* lk->cpu; None is the null pointer *)
  lk_pcs : list Z           (* lk->pcs *)
}.

(** What [pushcli] and [popcli] use of a CPU: its IF flag, ncli and intena. *)
Record cpu := Cpu { eflags_IF : bool; ncli : Z; intena : bool }.

Definition initlock (name : string) (lk : spinlock) : spinlock := Spinlock 0 name None (lk_pcs lk).

Definition pushcli (c : cpu) : cpu :=
  let n := s32 (ncli c + 1) in
  if ncli c =? 0 then Cpu false n (eflags_IF c) else Cpu false n (intena c).

Definition popcli : M cpu unit :=
  c ← gets id;
  if eflags_IF c then panic "popcli - interruptible" else
  let n := s32 (ncli c - 1) in
  if n <? 0 then panic "popcli" else
  modify (fun c => Cpu ((n =? 0) && intena c) n (intena c)).

(** The %ebp chain: [mem] is the stack's words.  Ten program counters. *)
Definition getcallerpcs_stop (ebp : Z) : bool := (ebp =? 0) || (ebp <? 0x100000) || (ebp =? 0xffffffff).

Fixpoint getcallerpcs_from (n : nat) (mem : Z -> Z) (ebp : Z) : list Z :=
  match n with
  | O => []
  | S n => if getcallerpcs_stop ebp then replicate (S n) 0
           else mem (u32 (ebp + 4)) :: getcallerpcs_from n mem (mem ebp)
  end.

Definition getcallerpcs (mem : Z -> Z) (v : Z) : list Z := getcallerpcs_from 10 mem (u32 (v - 8)).

Definition holding (c : nat) (lk : spinlock) : bool :=
  negb (locked lk =? 0) && bool_decide (lk_cpu lk = Some c).

(** ** The machine *)

Inductive pc :=
| Running                    (* outside the lock code *)
| AcqLocked (lk : nat)       (* acquire, interrupts off: holding reads lk->locked *)
| AcqCpu (lk : nat)          (* holding reads lk->cpu *)
| AcqXchg (lk : nat)         (* while(xchg(&lk->locked, 1) != 0) *)
| AcqRecord (lk : nat)       (* lk->cpu = cpu; getcallerpcs *)
| RelLocked (lk : nat)       (* release: holding reads lk->locked *)
| RelCpu (lk : nat)          (* holding reads lk->cpu *)
| RelClear (lk : nat)        (* lk->pcs[0] = 0; lk->cpu = 0 *)
| RelXchg (lk : nat)         (* xchg(&lk->locked, 0) *)
| RelPop                     (* popcli *)
| Panicked (msg : string).

#[global] Instance pc_eq_dec : EqDecision pc.
Proof. solve_decision. Defined.

Record thread := Thread {
  t_cpu : cpu;
  t_pc : pc;
  held : list nat;           (* locks acquired, latest first *)
  pushes : nat               (* pushcli calls of other code not yet popped *)
}.

Record mach := Mach { locks : list spinlock; threads : list thread }.

(** What a CPU outside the lock code may do next; [Go] lets one inside go on. *)
Inductive action := Acquire (lk : nat) | Release (lk : nat) | Pushcli | Popcli | Sti | Go.

(** [lk->locked] after [xchg(&lk->locked, v)]. *)
Definition set_locked (v : Z) (lk : spinlock) : spinlock := Spinlock v (lk_name lk) (lk_cpu lk) (lk_pcs lk).
Definition set_lk_cpu (c : option nat) (pcs : list Z) (lk : spinlock) : spinlock :=
  Spinlock (locked lk) (lk_name lk) c pcs.

Definition remove_one (lk : nat) (l : list nat) : list nat := filter (fun x => x <> lk) l.

Section Machine.
Context (pcs_of : nat -> list Z).     (* what getcallerpcs finds on the CPU's stack *)

Definition goto (p : pc) (th : thread) : thread := Thread (t_cpu th) p (held th) (pushes th).

(** [acquire] and [release], one memory access at a time. *)
Definition acquire_step (c lk : nat) (p : pc) (l : spinlock) (th : thread) : spinlock * thread :=
  match p with
  | AcqLocked _ => (l, goto (if locked l =? 0 then AcqXchg lk else AcqCpu lk) th)
  | AcqCpu _ => (l, goto (if bool_decide (lk_cpu l = Some c) then Panicked "acquire" else AcqXchg lk) th)
  | AcqXchg _ => (set_locked 1 l, goto (if locked l =? 0 then AcqRecord lk else AcqXchg lk) th)
  | _ => (set_lk_cpu (Some c) (pcs_of c) l, Thread (t_cpu th) Running (lk :: held th) (pushes th))
  end.

Definition release_step (c lk : nat) (p : pc) (l : spinlock) (th : thread) : spinlock * thread :=
  match p with
  | RelLocked _ => (l, goto (if locked l =? 0 then Panicked "release" else RelCpu lk) th)
  | RelCpu _ => (l, goto (if bool_decide (lk_cpu l = Some c) then RelClear lk else Panicked "release") th)
  | RelClear _ => (set_lk_cpu None (<[0%nat := 0]> (lk_pcs l)) l, goto (RelXchg lk) th)
  | _ => (set_locked 0 l, Thread (t_cpu th) RelPop (remove_one lk (held th)) (pushes th))
  end.

Definition pop_step (n : nat) (th : thread) : thread :=
  match popcli (t_cpu th) with
  | Ok _ c => Thread c Running (held th) n
  | Panic msg c => Thread c (Panicked msg) (held th) n
  | _ => th
  end.

Definition lock_of (p : pc) : option nat :=
  match p with
  | AcqLocked lk | AcqCpu lk | AcqXchg lk | AcqRecord lk
  | RelLocked lk | RelCpu lk | RelClear lk | RelXchg lk => Some lk
  | _ => None
  end.

(** One step of CPU [c]. *)
Definition step (c : nat) (a : action) (s : mach) : option mach :=
  th ← threads s !! c;
  let put th' := Mach (locks s) (<[c := th']> (threads s)) in
  match a, t_pc th with
  | Acquire lk, Running =>
      _ ← locks s !! lk;
      Some (put (Thread (pushcli (t_cpu th)) (AcqLocked lk) (held th) (pushes th)))
  | Release lk, Running => _ ← locks s !! lk; Some (put (goto (RelLocked lk) th))
  | Pushcli, Running => Some (put (Thread (pushcli (t_cpu th)) Running (held th) (S (pushes th))))
  | Popcli, Running => match pushes th with O => None | S n => Some (put (pop_step n th)) end
  | Sti, Running =>
      if bool_decide (held th = [] /\ pushes th = 0%nat)
      then Some (put (Thread (Cpu true (ncli (t_cpu th)) (intena (t_cpu th))) Running [] 0)) else None
  | Go, RelPop => Some (put (pop_step (pushes th) th))
  | Go, p =>
      lk ← lock_of p;
      l ← locks s !! lk;
      let '(l', th') := match p with
                        | RelLocked _ | RelCpu _ | RelClear _ | RelXchg _ => release_step c lk p l th
                        | _ => acquire_step c lk p l th
                        end in
      Some (Mach (<[lk := l']> (locks s)) (<[c := th']> (threads s)))
  | _, _ => None
  end.

(** The start: locks initialised, CPUs running with no lock, interrupts on or off. *)
Definition started (s : mach) : Prop :=
  (forall i l, locks s !! i = Some l -> locked l = 0 /\ lk_cpu l = None) /\
  (forall c th, threads s !! c = Some th ->
     t_pc th = Running /\ held th = [] /\ pushes th = 0%nat /\ ncli (t_cpu th) = 0).

Inductive reachable : mach -> Prop :=
| reach_start s : started s -> reachable s
| reach_step s c a s' : reachable s -> step c a s = Some s' ->
    (* ncli stays an int *)
    (forall c th, threads s' !! c = Some th -> Z.of_nat (length (held th) + pushes th) < 2 ^ 31 - 2) ->
    reachable s'.
End Machine.

(** ** The invariant *)

(** CPU code that has got the lock and not given it back. *)
Definition owns (th : thread) (lk : nat) : Prop := lk ∈ held th \/ t_pc th = AcqRecord lk.

(** [pushcli] calls made by the lock code itself and not yet popped, besides
    one for each lock held. *)
Definition depth (p : pc) : nat :=
  match p with AcqLocked _ | AcqCpu _ | AcqXchg _ | AcqRecord _ | RelPop => 1 | _ => 0 end.

Definition panicked (p : pc) : bool := match p with Panicked _ => true | _ => false end.

Record thread_ok (th : thread) : Prop := ThreadOk {
  to_nodup : NoDup (held th);
  to_record : forall lk, t_pc th = AcqRecord lk -> lk ∉ held th;
  to_release : forall lk, t_pc th = RelClear lk \/ t_pc th = RelXchg lk -> lk ∈ held th;
  to_ncli : panicked (t_pc th) = false ->
            ncli (t_cpu th) = Z.of_nat (length (held th) + pushes th + depth (t_pc th));
  to_cli : 0 < ncli (t_cpu th) -> eflags_IF (t_cpu th) = false
}.

Record lock_ok (s : mach) (i : nat) (l : spinlock) : Prop := LockOk {
  lo_free : locked l = 0 <-> forall c th, threads s !! c = Some th -> ~ owns th i;
  lo_one : forall c c' th th', threads s !! c = Some th -> threads s !! c' = Some th' ->
           owns th i -> owns th' i -> c = c';
  lo_cpu : forall c, lk_cpu l = Some c ->
           exists th, threads s !! c = Some th /\ i ∈ held th /\ t_pc th <> RelXchg i;
  lo_held : forall c th, threads s !! c = Some th -> i ∈ held th -> lk_cpu l = Some c \/ t_pc th = RelXchg i
}.

Definition Inv (s : mach) : Prop :=
  (forall i l, locks s !! i = Some l -> lock_ok s i l) /\
  (forall c th, threads s !! c = Some th -> thread_ok th).

(** A step after which the CPU owns the same locks, and which leaves the locks
    as they are, up to which non-zero value [locked] has. *)
Definition quiet (p : pc) : Prop := forall lk, p <> AcqRecord lk /\ p <> RelXchg lk.

Definition same_locks (ls ls' : list spinlock) : Prop :=
  forall i l', ls' !! i = Some l' -> exists l, ls !! i = Some l /\
    (locked l' = 0 <-> locked l = 0) /\ lk_cpu l' = lk_cpu l.

Lemma same_locks_refl ls : same_locks ls ls.
Proof. intros i l H. by exists l. Qed.

Lemma same_locks_insert ls lk l l' :
  ls !! lk = Some l -> (locked l' = 0 <-> locked l = 0) -> lk_cpu l' = lk_cpu l -> same_locks ls (<[lk := l']> ls).
Proof.
  intros Hl H1 H2 i x Hx. apply list_lookup_insert_Some in Hx as [(<- & <- & _)|[_ Hx]]; [by exists l|by exists x].
Qed.

Lemma inv_quiet s c th th' ls' :
  Inv s -> threads s !! c = Some th -> held th' = held th -> quiet (t_pc th) -> quiet (t_pc th') ->
  thread_ok th' -> same_locks (locks s) ls' -> Inv (Mach ls' (<[c := th']> (threads s))).
Proof.
  intros [HL HT] Hc Hh Hq Hq' Hok Hs.
  assert (Hown : forall i, owns th' i <-> owns th i).
  { intros i. unfold owns. rewrite Hh. destruct (Hq i), (Hq' i). naive_solver. }
  assert (Hlk : forall d y, <[c := th']> (threads s) !! d = Some y -> exists x, threads s !! d = Some x /\
            (forall i, owns y i <-> owns x i) /\ held y = held x /\ (forall i, t_pc y = RelXchg i <-> t_pc x = RelXchg i)).
  { intros d y Hy. apply list_lookup_insert_Some in Hy as [(<- & <- & _)|[_ Hy]].
    - exists th. split_and!; try done. intros i. destruct (Hq i), (Hq' i). naive_solver.
    - by exists y. }
  assert (Hback : forall d x, threads s !! d = Some x -> exists y, <[c := th']> (threads s) !! d = Some y /\
            (forall i, owns y i <-> owns x i) /\ held y = held x /\ (forall i, t_pc y = RelXchg i <-> t_pc x = RelXchg i)).
  { intros d x Hx. destruct (decide (c = d)) as [<-|Hne].
    - exists th'. rewrite list_lookup_insert_eq by (by eapply lookup_lt_Some). simplify_eq.
      split_and!; try done. intros i. destruct (Hq i), (Hq' i). naive_solver.
    - exists x. by rewrite list_lookup_insert_ne. }
  split; simpl.
  - intros i l' Hl'. destruct (Hs i l' Hl') as (l & Hl & Hz & Hcpu).
    destruct (HL i l Hl) as [H1 H2 H3 H4]. constructor; simpl.
    + rewrite Hz, H1. split.
      * intros H d y Hy. destruct (Hlk d y Hy) as (x & Hx & Ho & _). rewrite Ho. by eapply H.
      * intros H d x Hx. destruct (Hback d x Hx) as (y & Hy & Ho & _). rewrite <- Ho. by eapply H.
    + intros d d' y y' Hy Hy'. destruct (Hlk d y Hy) as (x & Hx & Ho & _), (Hlk d' y' Hy') as (x' & Hx' & Ho' & _).
      rewrite Ho, Ho'. by apply H2.
    + intros d. rewrite Hcpu. intros (x & Hx & Hin & Hne)%H3. destruct (Hback d x Hx) as (y & Hy & _ & Hhe & Hxc).
      exists y. rewrite Hhe, Hxc. done.
    + intros d y Hy. destruct (Hlk d y Hy) as (x & Hx & _ & Hhe & Hxc). rewrite Hhe, Hcpu, Hxc. by apply H4.
  - intros d y Hy. apply list_lookup_insert_Some in Hy as [(<- & <- & _)|[_ Hy]]; [done|by eapply HT].
Qed.

(** A step that changes what CPU [c] has of lock [lk] only. *)
Lemma inv_lock s c th th' lk l' :
  Inv s -> threads s !! c = Some th -> thread_ok th' ->
  (forall i, i <> lk -> (i ∈ held th' <-> i ∈ held th) /\ (t_pc th' = AcqRecord i <-> t_pc th = AcqRecord i) /\
     (t_pc th' = RelXchg i <-> t_pc th = RelXchg i)) ->
  lock_ok (Mach (<[lk := l']> (locks s)) (<[c := th']> (threads s))) lk l' ->
  Inv (Mach (<[lk := l']> (locks s)) (<[c := th']> (threads s))).
Proof.
  intros [HL HT] Hc Hok Hsame Hlk. split; simpl.
  2:{ intros d y Hy. apply list_lookup_insert_Some in Hy as [(<- & <- & _)|[_ Hy]]; [done|by eapply HT]. }
  intros i x Hx. apply list_lookup_insert_Some in Hx as [(<- & <- & _)|[Hne Hx]]; [done|].
  destruct (Hsame i (not_eq_sym Hne)) as (Hh & Hr & Hxc).
  assert (Hown : owns th' i <-> owns th i) by (unfold owns; rewrite Hh, Hr; done).
  assert (Hfw : forall d y, <[c := th']> (threads s) !! d = Some y -> exists z, threads s !! d = Some z /\
            (owns y i <-> owns z i) /\ (i ∈ held y <-> i ∈ held z) /\ (t_pc y = RelXchg i <-> t_pc z = RelXchg i)).
  { intros d y Hy. apply list_lookup_insert_Some in Hy as [(<- & <- & _)|[_ Hy]]; [by exists th|by exists y]. }
  assert (Hbw : forall d z, threads s !! d = Some z -> exists y, <[c := th']> (threads s) !! d = Some y /\
            (owns y i <-> owns z i) /\ (i ∈ held y <-> i ∈ held z) /\ (t_pc y = RelXchg i <-> t_pc z = RelXchg i)).
  { intros d z Hz. destruct (decide (c = d)) as [<-|].
    - exists th'. rewrite list_lookup_insert_eq by (by eapply lookup_lt_Some). by simplify_eq.
    - exists z. by rewrite list_lookup_insert_ne. }
  destruct (HL i x Hx) as [H1 H2 H3 H4]. constructor; simpl.
  - rewrite H1. split.
    + intros H d y Hy. destruct (Hfw d y Hy) as (z & Hz & Ho & _). rewrite Ho. by eapply H.
    + intros H d z Hz. destruct (Hbw d z Hz) as (y & Hy & Ho & _). rewrite <- Ho. by eapply H.
  - intros d d' y y' Hy Hy'. destruct (Hfw d y Hy) as (z & Hz & Ho & _), (Hfw d' y' Hy') as (z' & Hz' & Ho' & _).
    rewrite Ho, Ho'. by apply H2.
  - intros d (z & Hz & Hin & Hn)%H3. destruct (Hbw d z Hz) as (y & Hy & _ & Hhe & Hxe). exists y. by rewrite Hhe, Hxe.
  - intros d y Hy. destruct (Hfw d y Hy) as (z & Hz & _ & Hhe & Hxe). rewrite Hhe, Hxe. by apply H4.
Qed.

(** [lock_ok] of the lock a step acts on, from what the other CPUs have of it. *)
Lemma lock_ok_own s c th' lk l' :
  (c < length (threads s))%nat ->
  (forall d th, d <> c -> threads s !! d = Some th -> ~ owns th lk) ->
  (locked l' = 0 <-> ~ owns th' lk) ->
  (forall d, lk_cpu l' = Some d -> d = c /\ lk ∈ held th' /\ t_pc th' <> RelXchg lk) ->
  (lk ∈ held th' -> lk_cpu l' = Some c \/ t_pc th' = RelXchg lk) ->
  forall ls, lock_ok (Mach ls (<[c := th']> (threads s))) lk l'.
Proof.
  intros Hc Hno Hz Hcpu Hheld ls.
  assert (Hcase : forall d y, <[c := th']> (threads s) !! d = Some y -> owns y lk -> d = c /\ y = th').
  { intros d y Hy Ho. apply list_lookup_insert_Some in Hy as [(<- & <- & _)|[Hne Hy]]; [done|]. by destruct (Hno d y). }
  assert (Hself : <[c := th']> (threads s) !! c = Some th') by by apply list_lookup_insert_eq.
  constructor; simpl.
  - rewrite Hz. split; [|by intros H; eapply H].
    intros Hn d y Hy Ho. destruct (Hcase d y Hy Ho) as [-> ->]. done.
  - intros d d' y y' Hy Hy' Ho Ho'. destruct (Hcase d y Hy Ho), (Hcase d' y' Hy' Ho'). congruence.
  - intros d (-> & Hin & Hn)%Hcpu. by exists th'.
  - intros d y Hy Hin. destruct (Hcase d y Hy) as [-> ->]; [by left|]. auto.
Qed.

Lemma others_own s c th lk l :
  Inv s -> locks s !! lk = Some l -> threads s !! c = Some th -> owns th lk ->
  forall d th', d <> c -> threads s !! d = Some th' -> ~ owns th' lk.
Proof. intros [HL _] Hl Hc Ho d th' Hne Hd Ho'. destruct (HL lk l Hl) as [_ H2 _ _]. apply Hne. by eapply H2. Qed.

(** ** The steps preserve it *)

Lemma depth_quiet_pcs lk :
  quiet (AcqLocked lk) /\ quiet (AcqCpu lk) /\ quiet (AcqXchg lk) /\ quiet (RelLocked lk) /\
  quiet (RelCpu lk) /\ quiet (RelClear lk) /\ quiet RelPop /\ quiet Running /\ forall msg, quiet (Panicked msg).
Proof. by split_and!. Qed.

Lemma acquire_inv pcs_of s c th lk l :
  Inv s -> threads s !! c = Some th -> locks s !! lk = Some l ->
  t_pc th = AcqLocked lk \/ t_pc th = AcqCpu lk \/ t_pc th = AcqXchg lk \/ t_pc th = AcqRecord lk ->
  let '(l', th') := acquire_step pcs_of c lk (t_pc th) l th in
  Inv (Mach (<[lk := l']> (locks s)) (<[c := th']> (threads s))).
Proof.
  intros HI Hc Hl Hpc. pose proof HI as [HL HT]. pose proof (HT c th Hc) as [T1 T2 T3 T4 T5].
  pose proof (depth_quiet_pcs lk) as (Q1 & Q2 & Q3 & _ & _ & _ & _ & _ & Q4).
  assert (Hlen : (c < length (threads s))%nat) by by eapply lookup_lt_Some.
  destruct Hpc as [E|[E|[E|E]]]; rewrite E in *; simpl acquire_step; simpl in T4.
  - eapply inv_quiet; [done|done|done|by rewrite E|by destruct (_ =? _)| |by rewrite list_insert_id; [apply same_locks_refl|]].
    constructor; simpl; try done; destruct (_ =? _); simpl; try done; intros ? []; done.
  - eapply inv_quiet; [done|done|done|by rewrite E|by destruct (bool_decide _)| |by rewrite list_insert_id; [apply same_locks_refl|]].
    constructor; simpl; try done; destruct (bool_decide _); simpl; try done; intros ? []; done.
  - destruct (Z.eqb_spec (locked l) 0) as [H0|H0].
    + assert (Hno : forall d y, threads s !! d = Some y -> ~ owns y lk) by (by apply (lo_free _ _ _ (HL lk l Hl))).
      eapply inv_lock; [done|done| | |].
      * constructor; simpl; try done; [|intros ? []; done]. intros x [= <-] Hin. apply (Hno c th Hc). by left.
      * simpl. rewrite E. naive_solver.
      * eapply lock_ok_own; try done; [by eauto| | |].
        -- simpl. split; [done|]. intros []. by right.
        -- simpl. intros d Hd. destruct (lo_cpu _ _ _ (HL lk l Hl) d Hd) as (y & Hy & Hin & _).
           destruct (Hno d y Hy). by left.
        -- simpl. intros Hin. destruct (Hno c th Hc). by left.
    + eapply inv_quiet; [done|done|done|by rewrite E|done| |].
      * by constructor; simpl; try done; intros ? [].
      * eapply same_locks_insert; [done|simpl; lia|done].
  - assert (Hown : owns th lk) by by right.
    eapply inv_lock; [done|done| | |].
    + constructor; simpl; try done.
      * constructor; [by apply T2|done].
      * intros ? []; done.
      * intros _. rewrite T4 by done. lia.
    + simpl. rewrite E. intros i Hi. rewrite elem_of_cons. naive_solver.
    + eapply lock_ok_own; [done|by eapply others_own| | |]; simpl.
      * assert (locked l <> 0).
        { intros H0. by apply (proj1 (lo_free _ _ _ (HL lk l Hl)) H0 c th Hc). }
        split; [done|]. intros []. left. simpl. set_solver.
      * intros d [= <-]. split; [done|]. split; [set_solver|done].
      * auto.
Qed.

Lemma remove_one_spec lk l i : i ∈ remove_one lk l <-> i ∈ l /\ i <> lk.
Proof. unfold remove_one. rewrite list_elem_of_filter. tauto. Qed.

Lemma length_remove_one lk l : NoDup l -> lk ∈ l -> length l = S (length (remove_one lk l)).
Proof.
  intros Hnd Hin. unfold remove_one. 
  transitivity (length (filter (fun _ => True) l)).
  - clear. induction l as [|x l IH]; [done|]. rewrite filter_cons_True by done. simpl. by rewrite IH.
  - apply (length_filter_flip _ _ _ lk); done || naive_solver.
Qed.

Lemma release_inv s c th lk l :
  Inv s -> threads s !! c = Some th -> locks s !! lk = Some l ->
  t_pc th = RelLocked lk \/ t_pc th = RelCpu lk \/ t_pc th = RelClear lk \/ t_pc th = RelXchg lk ->
  let '(l', th') := release_step c lk (t_pc th) l th in
  Inv (Mach (<[lk := l']> (locks s)) (<[c := th']> (threads s))).
Proof.
  intros HI Hc Hl Hpc. pose proof HI as [HL HT]. pose proof (HT c th Hc) as [T1 T2 T3 T4 T5].
  pose proof (depth_quiet_pcs lk) as (_ & _ & _ & Q1 & Q2 & Q3 & _ & _ & Q4).
  assert (Hlen : (c < length (threads s))%nat) by by eapply lookup_lt_Some.
  destruct Hpc as [E|[E|[E|E]]]; rewrite E in *; simpl release_step; simpl in T4.
  - eapply inv_quiet; [done|done|done|by rewrite E|by destruct (_ =? _)| |by rewrite list_insert_id; [apply same_locks_refl|]].
    constructor; simpl; try done; destruct (_ =? _); simpl; try done; intros ? []; done.
  - eapply inv_quiet; [done|done|done|by rewrite E|by destruct (bool_decide _)| |by rewrite list_insert_id; [apply same_locks_refl|]].
    constructor; simpl; try done; case_bool_decide as Hcpu; simpl; try done.
    + intros x [[= <-]|?]; [|done]. destruct (lo_cpu _ _ _ (HL lk l Hl) c Hcpu) as (y & Hy & Hin & _). by simplify_eq.
    + by intros x [].
  - assert (Hin : lk ∈ held th) by (apply T3; by left).
    eapply inv_lock; [done|done| | |].
    + constructor; simpl; try done. intros x [?|[= <-]]; done.
    + simpl. rewrite E. naive_solver.
    + eapply lock_ok_own; [done|eapply others_own; [done|done|done|by left]| | |]; simpl; try done; [|auto].
      assert (locked l <> 0).
      { intros H0. apply (proj1 (lo_free _ _ _ (HL lk l Hl)) H0 c th Hc). by left. }
      split; [done|]. intros []. by left.
  - assert (Hin : lk ∈ held th) by (apply T3; by right).
    assert (Hnin : lk ∉ remove_one lk (held th)) by (rewrite remove_one_spec; tauto).
    assert (Hoth : forall d th', d <> c -> threads s !! d = Some th' -> ~ owns th' lk)
      by (eapply others_own; [done|done|done|by left]).
    eapply inv_lock; [done|done| | |].
    + constructor; simpl; try done.
      * by apply NoDup_filter.
      * intros x []; done.
      * intros _. rewrite T4, (length_remove_one lk) by done. lia.
    + simpl. rewrite E. intros i Hi. rewrite remove_one_spec. naive_solver.
    + eapply lock_ok_own; [done|done| | |done]; simpl.
      * split; [|done]. by intros _ [|].
      * intros d Hd. destruct (lo_cpu _ _ _ (HL lk l Hl) d Hd) as (y & Hy & Hyin & Hn).
        destruct (decide (d = c)) as [->|Hne]; [simplify_eq|]. destruct (Hoth d y Hne Hy). by left.
Qed.

(** [pushcli] and [popcli] on the interrupt state. *)
Lemma pushcli_ok c : 0 <= ncli c < 2 ^ 31 - 1 -> ncli (pushcli c) = ncli c + 1 /\ eflags_IF (pushcli c) = false.
Proof. intros H. unfold pushcli. rewrite s32_small by lia. by destruct (_ =? _). Qed.

Lemma popcli_ok c :
  0 < ncli c < 2 ^ 31 -> eflags_IF c = false ->
  popcli c = Ok tt (Cpu ((ncli c =? 1) && intena c) (ncli c - 1) (intena c)).
Proof.
  intros Hn Hi. unfold popcli, gets, modify, mbind, M_bind. simpl. rewrite Hi.
  rewrite s32_small by lia. replace (ncli c - 1 <? 0) with false by lia. unfold id.
  by replace (ncli c - 1 =? 0) with (ncli c =? 1) by lia.
Qed.

Definition bounded (s : mach) : Prop :=
  forall c th, threads s !! c = Some th -> Z.of_nat (length (held th) + pushes th) < 2 ^ 31 - 2.

Lemma pop_inv s c th n :
  Inv s -> threads s !! c = Some th -> (t_pc th = RelPop /\ n = pushes th) \/ (t_pc th = Running /\ pushes th = S n) ->
  Z.of_nat (length (held th) + pushes th) < 2 ^ 31 - 2 ->
  t_pc (pop_step n th) = Running /\ Inv (Mach (locks s) (<[c := pop_step n th]> (threads s))).
Proof.
  intros HI Hc Hn Hb. pose proof (proj2 HI c th Hc) as [T1 T2 T3 T4 T5].
  assert (Hncli : ncli (t_cpu th) = Z.of_nat (length (held th) + n) + 1).
  { destruct Hn as [[E ->]|[E En]]; rewrite E in T4; simpl in T4; rewrite T4 by done; lia. }
  assert (Hr : 0 < ncli (t_cpu th) < 2 ^ 31) by (destruct Hn as [[_ ->]|[_ En]]; lia).
  unfold pop_step. rewrite popcli_ok by (done || by apply T5; lia).
  split; [done|]. eapply inv_quiet; [done|done|done| |done| |apply same_locks_refl].
  - destruct Hn as [[-> _]|[-> _]]; done.
  - constructor; simpl; try done.
    + by intros x [].
    + intros _. lia.
    + intros Hpos. by replace (ncli (t_cpu th) =? 1) with false by lia.
Qed.

Lemma step_inv pcs_of c a s s' : Inv s -> bounded s -> step pcs_of c a s = Some s' -> Inv s'.
Proof.
  intros HI Hbd Hst. unfold step in Hst. apply bind_Some in Hst as (th & Hc & Hst).
  pose proof (proj2 HI c th Hc) as [T1 T2 T3 T4 T5]. pose proof (Hbd c th Hc) as Hb.
  assert (Hrun : forall th', t_pc th = Running -> held th' = held th -> quiet (t_pc th') -> thread_ok th' ->
            Inv (Mach (locks s) (<[c := th']> (threads s)))).
  { intros th' E Hh Hq Hok. eapply inv_quiet; try done; [by rewrite E|apply same_locks_refl]. }
  destruct a as [lk|lk| | | |], (t_pc th) as [|i|i|i|i|i|i|i|i| |msg] eqn:E; simpl in Hst; try discriminate;
    try (apply bind_Some in Hst as (l & Hl & [= <-])).
  - apply Hrun; try done. destruct (pushcli_ok (t_cpu th)) as [P1 P2]; [simpl in T4; rewrite T4 by done; lia|].
    constructor; simpl; try done; try (by intros x []). intros _. rewrite P1, T4 by done. simpl. lia.
  - apply Hrun; try done. by constructor; simpl; try done; intros x [].
  - injection Hst as <-. apply Hrun; try done.
    destruct (pushcli_ok (t_cpu th)) as [P1 P2]; [simpl in T4; rewrite T4 by done; lia|].
    constructor; simpl; try done; try (by intros x []). intros _. rewrite P1, T4 by done. simpl. lia.
  - destruct (pushes th) as [|n] eqn:En; [done|]. injection Hst as <-. eapply pop_inv; try done; [by right|lia].
  - case_bool_decide as Hz; [|done]. destruct Hz as [Hz1 Hz2]. injection Hst as <-.
    simpl in T4. rewrite Hz1, Hz2 in T4. specialize (T4 eq_refl). simpl in T4.
    apply Hrun; try done. constructor; simpl; try done; try (by intros x []); [apply NoDup_nil_2|lia].
  - pose proof (acquire_inv pcs_of s c th i l HI Hc Hl) as H. rewrite E in H. apply H. auto.
  - pose proof (acquire_inv pcs_of s c th i l HI Hc Hl) as H. rewrite E in H. apply H. auto.
  - pose proof (acquire_inv pcs_of s c th i l HI Hc Hl) as H. rewrite E in H. apply H. auto.
  - pose proof (acquire_inv pcs_of s c th i l HI Hc Hl) as H. rewrite E in H. apply H. auto.
  - pose proof (release_inv s c th i l HI Hc Hl) as H. rewrite E in H. apply H. auto.
  - pose proof (release_inv s c th i l HI Hc Hl) as H. rewrite E in H. apply H. auto.
  - pose proof (release_inv s c th i l HI Hc Hl) as H. rewrite E in H. apply H. auto.
  - pose proof (release_inv s c th i l HI Hc Hl) as H. rewrite E in H. apply H. auto.
  - injection Hst as <-. eapply pop_inv; try done. by left.
Qed.

Lemma started_inv s : started s -> Inv s.
Proof.
  intros [HL HT]. assert (Hno : forall c th i, threads s !! c = Some th -> ~ owns th i).
  { intros c th i Hc. destruct (HT c th Hc) as (E1 & E2 & _). unfold owns. rewrite E1, E2. set_solver. }
  split.
  - intros i l Hl. destruct (HL i l Hl) as [H0 Hn]. constructor.
    + split; [|done]. intros _ c th Hc. by eapply Hno.
    + intros c c' th th' Hc _ Ho. by destruct (Hno c th i Hc).
    + by rewrite Hn.
    + intros c th Hc Hin. destruct (Hno c th i Hc). by left.
  - intros c th Hc. destruct (HT c th Hc) as (E1 & E2 & E3 & E4). constructor; rewrite ?E1, ?E2, ?E3, ?E4; simpl; try done.
    + constructor.
    + by intros x [].
Qed.

Lemma spin_reachable_inv pcs_of s : reachable pcs_of s -> Inv s /\ bounded s.
Proof.
  induction 1 as [s H|s c a s' _ [IH1 IH2] Hst Hb].
  - split; [by apply started_inv|]. intros c th Hc. destruct (proj2 H c th Hc) as (_ & -> & -> & _). simpl. lia.
  - split; [|done]. by eapply step_inv.
Qed.

(** C13: mutual exclusion.  However the memory accesses of [acquire] and
    [release] on any number of CPUs interleave, no two CPUs hold a lock at the
    same time, a lock is free exactly when no CPU has it, and a CPU holding a
    lock runs with interrupts off. *)
Theorem spinlock_mutual_exclusion pcs_of s :
  reachable pcs_of s ->
  (forall lk c c' th th', threads s !! c = Some th -> threads s !! c' = Some th' -> (lk < length (locks s))%nat ->
     lk ∈ held th -> lk ∈ held th' -> c = c') /\
  (forall lk l, locks s !! lk = Some l -> locked l = 0 <-> forall c th, threads s !! c = Some th -> ~ owns th lk) /\
  (forall c th, threads s !! c = Some th -> panicked (t_pc th) = false -> held th <> [] ->
     eflags_IF (t_cpu th) = false).
Proof.
  intros [[HL HT] _]%spin_reachable_inv. split_and!.
  - intros lk c c' th th' Hc Hc' Hlt H1 H2. destruct (lookup_lt_is_Some_2 _ _ Hlt) as [l Hl].
    apply (lo_one _ _ _ (HL lk l Hl) c c' th th'); try done; by left.
  - intros lk l Hl. apply (HL lk l Hl).
  - intros c th Hc Hp Hne. destruct (HT c th Hc) as [_ _ _ T4 T5]. apply T5. rewrite T4 by done.
    destruct (held th); simpl; [done|lia].
Qed.

(** The checks in [acquire] and [release] are exact although they read
    [lk->locked] and [lk->cpu] without atomicity: [acquire] panics only on a
    CPU that already holds the lock and [release] only on one that does not,
    and [popcli] at the end of [release] never panics. *)
Theorem spinlock_no_false_panic pcs_of s c th s' :
  reachable pcs_of s -> threads s !! c = Some th -> panicked (t_pc th) = false ->
  step pcs_of c Go s = Some s' ->
  (exists th', threads s' !! c = Some th' /\ panicked (t_pc th') = true) ->
  (exists lk, t_pc th = AcqCpu lk /\ lk ∈ held th) \/
  (exists lk, (t_pc th = RelLocked lk \/ t_pc th = RelCpu lk) /\ lk ∉ held th).
Proof.
  intros [HI Hbd]%spin_reachable_inv Hc Hp Hst (th' & Hc' & Hp'). pose proof HI as [HL HT].
  unfold step in Hst. rewrite Hc in Hst. simpl in Hst.
  assert (Hlen : (c < length (threads s))%nat) by by eapply lookup_lt_Some.
  destruct (t_pc th) as [|i|i|i|i|i|i|i|i| |msg] eqn:E; simpl in Hst; try discriminate;
    try (apply bind_Some in Hst as (l & Hl & Hst)); injection Hst as <-; simpl in Hc';
    rewrite list_lookup_insert_eq in Hc' by done; injection Hc' as <-; simpl in Hp'; try discriminate.
  - by destruct (locked l =? 0).
  - case_bool_decide as Hcpu; [|done]. left. exists i. split; [done|].
    destruct (lo_cpu _ _ _ (HL i l Hl) c Hcpu) as (y & Hy & Hin & _). by simplify_eq.
  - by destruct (locked l =? 0).
  - right. exists i. split; [by left|]. destruct (Z.eqb_spec (locked l) 0) as [H0|]; [|done].
    intros Hin. apply (proj1 (lo_free _ _ _ (HL i l Hl)) H0 c th Hc). by left.
  - right. exists i. split; [by right|]. case_bool_decide as Hcpu; [done|]. intros Hin.
    destruct (lo_held _ _ _ (HL i l Hl) c th Hc Hin); congruence.
  - destruct (pop_inv s c th (pushes th) HI Hc) as [Hr _]; [by left|by eapply Hbd|]. by rewrite Hr in Hp'.
Qed.

Fixpoint popclis (k : nat) (c : cpu) : outcome cpu unit :=
  match k with
  | O => Ok tt c
  | S k => match popclis k c with Ok _ c' => popcli c' | r => r end
  end.

(** [n] calls of [pushcli] and then [n] of [popcli] leave the interrupt flag as
    it was. *)
Lemma pushcli_popcli_matched (n : nat) (c : cpu) :
  ncli c = 0 -> Z.of_nat n < 2 ^ 31 ->
  forall k, (k <= n)%nat ->
  popclis k (Nat.iter n pushcli c) =
  Ok tt (if decide (k = 0%nat) then Nat.iter n pushcli c
         else Cpu (bool_decide (k = n) && eflags_IF c) (Z.of_nat (n - k)) (eflags_IF c)).
Proof.
  intros H0 Hn. assert (Hit : forall j, (0 < j <= n)%nat ->
    Nat.iter j pushcli c = Cpu false (Z.of_nat j) (eflags_IF c)).
  { intros j. induction j as [|j IH]; [lia|]. intros Hj. simpl. destruct (decide (j = 0%nat)) as [->|].
    - simpl. unfold pushcli. by rewrite H0, s32_small by lia.
    - rewrite IH by lia. unfold pushcli. simpl. rewrite s32_small by lia.
      replace (Z.of_nat j =? 0) with false by lia. f_equal. lia. }
  intros k. induction k as [|k IH]; intros Hk; [done|]. simpl. rewrite IH by lia.
  destruct (decide (k = 0%nat)) as [->|Hne].
  - rewrite Hit by lia. rewrite popcli_ok by (simpl; lia || done). simpl. repeat f_equal; [|lia].
    f_equal. rewrite bool_decide_decide. destruct (decide _); lia.
  - rewrite (bool_decide_eq_false_2 (k = n)) by lia. rewrite popcli_ok by (simpl; lia || done). simpl.
    repeat f_equal; [|lia]. rewrite bool_decide_decide. destruct (decide _); lia.
Qed.

(** Two CPUs contend for lock 0; CPU 1 spins until CPU 0 has released it. *)
Fixpoint run (pcs_of : nat -> list Z) (acts : list (nat * action)) (s : mach) : option mach :=
  match acts with
  | [] => Some s
  | (c, a) :: acts => s' ← step pcs_of c a s; run pcs_of acts s'
  end.

Definition no_pcs (c : nat) : list Z := replicate 10 0.
Definition two_cpus : mach :=
  Mach [initlock "a" (Spinlock 7 "" None []); initlock "b" (Spinlock 7 "" None [])]
       (replicate 2 (Thread (Cpu true 0 false) Running [] 0)).

Definition small (s : mach) : bool :=
  forallb (fun th => (Z.of_nat (length (held th) + pushes th) <? 2 ^ 31 - 2)%Z) (threads s).

Fixpoint small_run (pcs_of : nat -> list Z) (acts : list (nat * action)) (s : mach) : bool :=
  match acts with
  | [] => true
  | (c, a) :: acts => match step pcs_of c a s with
                      | Some s' => small s' && small_run pcs_of acts s'
                      | None => true
                      end
  end.

Lemma run_reachable pcs_of acts s s' :
  reachable pcs_of s -> small_run pcs_of acts s = true -> run pcs_of acts s = Some s' -> reachable pcs_of s'.
Proof.
  revert s. induction acts as [|[c a] acts IH]; intros s Hr Hb Hrun; simpl in *; [by injection Hrun as <-|].
  destruct (step pcs_of c a s) as [s1|] eqn:E; [|done]. simpl in Hrun.
  apply andb_true_iff in Hb as [Hb1 Hb2]. apply (IH s1); [|done|done].
  eapply reach_step; [done|done|]. intros d th Hd. unfold small in Hb1.
  rewrite forallb_forall in Hb1. apply Z.ltb_lt, Hb1, list_elem_of_In. by eapply list_elem_of_lookup_2.
Qed.

Lemma two_cpus_started : reachable no_pcs two_cpus.
Proof.
  apply reach_start. split; intros i x Hx.
  - destruct i as [|[|i]]; by simplify_eq/=.
  - apply lookup_replicate in Hx as [-> _]. done.
Qed.

Definition contended : list (nat * action) :=
  [(0%nat, Acquire 0); (0%nat, Go); (1%nat, Acquire 0); (0%nat, Go); (1%nat, Go); (0%nat, Go); (1%nat, Go); (1%nat, Go);
   (1%nat, Go); (0%nat, Release 0); (0%nat, Go); (0%nat, Go); (0%nat, Go); (1%nat, Go); (0%nat, Go); (0%nat, Go);
   (1%nat, Go); (1%nat, Go)].

Lemma spinlock_mutual_exclusion_witness : exists s, run no_pcs contended two_cpus = Some s /\
  (held <$> threads s) = [[]; [0%nat]] /\
  forall lk c c' th th', threads s !! c = Some th -> threads s !! c' = Some th' -> (lk < length (locks s))%nat ->
     lk ∈ held th -> lk ∈ held th' -> c = c'.
Proof.
  eexists. split; [vm_compute; reflexivity|]. split; [reflexivity|].
  eapply (spinlock_mutual_exclusion no_pcs).
  eapply (run_reachable no_pcs contended two_cpus); [exact two_cpus_started|vm_compute; reflexivity..].
Defined.

(** CPU 0 releases a lock it does not hold. *)
Lemma spinlock_no_false_panic_witness : exists s th s',
  run no_pcs [(0%nat, Release 1)] two_cpus = Some s /\ threads s !! 0%nat = Some th /\
  step no_pcs 0 Go s = Some s' /\
  ((exists lk, t_pc th = AcqCpu lk /\ lk ∈ held th) \/
   (exists lk, (t_pc th = RelLocked lk \/ t_pc th = RelCpu lk) /\ lk ∉ held th)).
Proof.
  eexists _, _, _. split; [reflexivity|]. split; [reflexivity|]. split; [reflexivity|].
  eapply (spinlock_no_false_panic no_pcs _ 0).
  - eapply (run_reachable no_pcs [(0%nat, Release 1)] two_cpus); [exact two_cpus_started|vm_compute; reflexivity..].
  - reflexivity.
  - reflexivity.
  - reflexivity.
  - eexists. split; reflexivity.
Defined.
