(* ===== verification/Syscall.v ===== *)
(** * System call arguments: [src/syscall.c]

    The kernel reads the arguments of a system call from the caller's stack,
    through the caller's own page table: [u_mem] is the memory the process
    sees, [u_sz] its size (p->sz) and [u_esp] the saved user stack pointer.
    A string argument is the address of its first byte and its length. *)

From stdpp Require Import base numbers list strings.
From Stdlib Require Import Lia ZArith ZifyBool.
From S2P Require Import Prelude CString.
Open Scope Z_scope.

Record uproc := UProc {
  u_sz : Z;            (* proc->sz *)
  u_esp : Z;           (* proc->tf->esp *)
  u_killed : bool;     (* proc->killed *)
  u_mem : mem          (* what a user address holds *)
}.

(** The [n] bytes at address [a]. *)
Definition ubytes (m : mem) (a : Z) (n : nat) : list Z := (fun i => m (a + Z.of_nat i)) <$> seq 0 n.

(** [memmove] of [bs] to address [a]. *)
Fixpoint put_bytes (m : mem) (a : Z) (bs : list Z) : mem :=
  match bs with
  | [] => m
  | b :: bs => put_bytes (upd m a b) (a + 1) bs
  end.

Definition fetchint (p : uproc) (addr : Z) : option Z :=
  if (u_sz p <=? addr) || (u_sz p <? u32 (addr + 4)) then None
  else Some (s32 (le_dec (ubytes (u_mem p) addr 4))).

(** [for(s = *pp; s < ep; s++) if( *s == 0) return s - *pp;] with [n] bytes
    left before [ep]. *)
Fixpoint find_nul (m : mem) (s : Z) (n : nat) : option Z :=
  match n with
  | O => None
  | S n => if m s =? 0 then Some 0 else Z.succ <$> find_nul m (s + 1) n
  end.

Definition fetchstr (p : uproc) (addr : Z) : option (Z * Z) :=
  if u_sz p <=? addr then None
  else (fun len => (addr, len)) <$> find_nul (u_mem p) addr (Z.to_nat (u_sz p - addr)).

Definition argint (p : uproc) (n : Z) : option Z := fetchint p (u32 (u_esp p + 4 + 4 * n)).

Definition argptr (p : uproc) (n size : Z) : option Z :=
  match argint p n with
  | None => None
  | Some i => if (u_sz p <=? u32 i) || (u_sz p <? u32 (u32 i + size)) then None else Some (u32 i)
  end.

Definition argstr (p : uproc) (n : Z) : option (Z * Z) :=
  match argint p n with
  | None => None
  | Some addr => fetchstr p (u32 addr)
  end.

(** The characters of a string argument. *)
Definition ustr (p : uproc) (s : Z * Z) : list Z := ubytes (u_mem p) (fst s) (Z.to_nat (snd s)).

(** ** Dispatch *)

Inductive sysno :=
| SYS_fork | SYS_exit | SYS_wait | SYS_pipe | SYS_write | SYS_read | SYS_close | SYS_kill
| SYS_exec | SYS_open | SYS_mknod | SYS_unlink | SYS_fstat | SYS_link | SYS_mkdir | SYS_chdir
| SYS_dup | SYS_getpid | SYS_sbrk | SYS_sleep | SYS_uptime | SYS_ioctl.

(** The table [syscalls]: entry 0 is null and there are 23 entries. *)
Definition syscalls : list (option sysno) :=
  [ None; Some SYS_fork; Some SYS_exit; Some SYS_wait; Some SYS_pipe; Some SYS_write; Some SYS_read;
    Some SYS_close; Some SYS_kill; Some SYS_exec; Some SYS_open; Some SYS_mknod; Some SYS_unlink;
    Some SYS_fstat; Some SYS_link; Some SYS_mkdir; Some SYS_chdir; Some SYS_dup; Some SYS_getpid;
    Some SYS_sbrk; Some SYS_sleep; Some SYS_uptime; Some SYS_ioctl ].

(** [if(num >= 0 && (uint)num < NELEM(syscalls) && syscalls[num])] *)
Definition sys_lookup (num : Z) : option sysno :=
  if (0 <=? num) && (u32 num <? Z.of_nat (length syscalls)) then default None (syscalls !! Z.to_nat num) else None.

(** ** What the checks guarantee *)

Lemma ubytes_ext m m' a n :
  (forall i, a <= i < a + Z.of_nat n -> m i = m' i) -> ubytes m a n = ubytes m' a n.
Proof.
  intros H. apply list_fmap_ext. intros i x Hi. apply lookup_seq in Hi as [-> Hlt]. apply H. lia.
Qed.

Lemma find_nul_ext m m' s n :
  (forall i, s <= i < s + Z.of_nat n -> m i = m' i) -> find_nul m s n = find_nul m' s n.
Proof.
  revert s. induction n as [|n IH]; intros s H; [done|]. simpl.
  rewrite (H s) by lia. case_match; [done|]. f_equal. apply IH. intros i Hi. apply H. lia.
Qed.

Lemma find_nul_Some m s n len :
  find_nul m s n = Some len ->
  0 <= len < Z.of_nat n /\ m (s + len) = 0 /\ forall i, 0 <= i < len -> m (s + i) <> 0.
Proof.
  revert s len. induction n as [|n IH]; intros s len; [done|]. simpl. case_match eqn:E.
  - intros [= <-]. rewrite Z.add_0_r. split_and!; lia.
  - intros (l & Hl & ->)%fmap_Some. apply IH in Hl as (Hr & Hz & Hn). split_and!; [lia|lia| |].
    + rewrite <- Hz. f_equal. lia.
    + intros i Hi. destruct (decide (i = 0)) as [->|]; [rewrite Z.add_0_r; lia|].
      replace (s + i) with (s + 1 + (i - 1)) by lia. apply Hn. lia.
Qed.

Lemma find_nul_complete m s n len :
  0 <= len < Z.of_nat n -> m (s + len) = 0 -> (forall i, 0 <= i < len -> m (s + i) <> 0) ->
  find_nul m s n = Some len.
Proof.
  revert s len. induction n as [|n IH]; intros s len Hl Hz Hn; [lia|]. simpl.
  destruct (decide (len = 0)) as [->|Hne].
  - rewrite Z.add_0_r in Hz. by rewrite Hz.
  - pose proof (Hn 0 ltac:(lia)) as H0. rewrite Z.add_0_r in H0. case_match; [lia|].
    rewrite (IH (s + 1) (len - 1)); [simpl; f_equal; lia|lia| |].
    + rewrite <- Hz. f_equal. lia.
    + intros i Hi. replace (s + 1 + i) with (s + (i + 1)) by lia. apply Hn. lia.
Qed.

(** The same memory below the size of the process. *)
Definition same_below (p q : uproc) : Prop :=
  u_sz q = u_sz p /\ u_esp q = u_esp p /\ forall a, 0 <= a < u_sz p -> u_mem q a = u_mem p a.

Lemma fetchint_below p q addr :
  0 <= u_sz p < 2 ^ 31 -> 0 <= addr < 2 ^ 32 -> same_below p q -> fetchint q addr = fetchint p addr.
Proof.
  intros Hsz Ha (Es & _ & Hm). unfold fetchint. rewrite Es. case_match eqn:E; [done|].
  apply orb_false_iff in E as [E1 E2]. rewrite u32_small in E2 by lia.
  do 3 f_equal. apply ubytes_ext. intros i Hi. apply Hm. lia.
Qed.

Lemma argint_below p q n :
  0 <= u_sz p < 2 ^ 31 -> same_below p q -> argint q n = argint p n.
Proof.
  intros Hsz Hs. unfold argint. pose proof Hs as (_ & -> & _). apply fetchint_below; [done|apply u32_range|done].
Qed.

Lemma argint_range p n i : argint p n = Some i -> - 2 ^ 31 <= i < 2 ^ 31.
Proof. unfold argint, fetchint. case_match; [done|]. intros [= <-]. apply s32_range. Qed.

(** C20: the argument checks confine the kernel to the caller's memory.  Reading
    an int or a string argument looks at no byte at or above the size of the
    process; a string argument lies below it with its terminating null, and
    every such string is accepted; a pointer argument with a size that is not negative is a block inside it.
    But a negative size is accepted for any pointer it does not take below 0,
    though the check is said to keep the block in the address space. *)
Theorem syscall_arguments_confined p n size :
  0 <= u_sz p < 2 ^ 31 ->
  (forall q, same_below p q -> argint q n = argint p n /\ argstr q n = argstr p n) /\
  (forall a len, argstr p n = Some (a, len) -> 0 <= a /\ 0 <= len /\ a + len < u_sz p /\
     u_mem p (a + len) = 0 /\ forall i, 0 <= i < len -> u_mem p (a + i) <> 0) /\
  (forall i len, argint p n = Some i -> 0 <= len -> u32 i + len < u_sz p -> u_mem p (u32 i + len) = 0 ->
     (forall j, 0 <= j < len -> u_mem p (u32 i + j) <> 0) -> argstr p n = Some (u32 i, len)) /\
  (forall a, 0 <= size < 2 ^ 31 -> argptr p n size = Some a -> 0 <= a /\ a + size <= u_sz p) /\
  (forall a, argint p n = Some a -> - a <= size < 0 -> a < u_sz p -> argptr p n size = Some a).
Proof.
  intros Hsz. split_and!.
  - intros q Hs. pose proof (argint_below p q n Hsz Hs) as Ea. split; [done|]. unfold argstr. rewrite Ea.
    destruct (argint p n) as [i|] eqn:Ei; [|done]. unfold fetchstr. pose proof Hs as (-> & _ & Hm).
    pose proof (u32_range i). case_match; [done|]. f_equal. apply find_nul_ext. intros j Hj. apply Hm. lia.
  - intros a len. unfold argstr. destruct (argint p n) as [i|] eqn:Ei; [|done]. pose proof (u32_range i).
    unfold fetchstr. case_match; [done|]. intros (l & Hl & [= -> ->])%fmap_Some.
    apply find_nul_Some in Hl as (Hr & Hz & Hn). split_and!; try done; lia.
  - intros i len Hi Hl Hb Hz Hn. unfold argstr, fetchstr. rewrite Hi. pose proof (u32_range i).
    replace (u_sz p <=? u32 i) with false by lia. by rewrite (find_nul_complete _ _ _ len) by (done || lia).
  - intros a Hs. unfold argptr. destruct (argint p n) as [i|] eqn:Ei; [|done]. pose proof (u32_range i).
    case_match eqn:E; [done|]. intros [= <-]. apply orb_false_iff in E as [E1 E2].
    rewrite u32_small in E2 by lia. lia.
  - intros a Ha Hs Hlt. pose proof (argint_range _ _ _ Ha). unfold argptr. rewrite Ha, (u32_small a) by lia.
    rewrite (u32_small (a + size)) by lia.
    replace (u_sz p <=? a) with false by lia. by replace (u_sz p <? a + size) with false by lia.
Qed.

(** A process of 8192 bytes calls read(0, 100, -5). *)
Lemma syscall_arguments_confined_witness :
  let m := put_bytes (fun _ => 0) 4096 (le_enc 4 0 ++ le_enc 4 0 ++ le_enc 4 100 ++ le_enc 4 (-5)) in
  argptr (UProc 8192 4096 false m) 1 (-5) = Some 100.
Proof.
  intros m. apply (syscall_arguments_confined (UProc 8192 4096 false m) 1 (-5)).
  - cbn [u_sz]. lia.
  - vm_compute. reflexivity.
  - lia.
  - cbn [u_sz]. lia.
Defined.
