(* ===== verification/File.v ===== *)
(** * Open files: [src/file.c] and [pipealloc] of [src/pipe.c]

    The file table is a list of NFILE slots and a [struct file*] an index into
    it.  A pipe lives in a page of its own; [pipes] maps the address of the
    page to the pipe in it.  [wakelog] collects the channels that [wakeup] was
    called on, the last one first. *)

From stdpp Require Import base numbers list gmap strings list_numbers.
From Stdlib Require Import Lia ZArith ZifyBool.
From S2P Require Import Prelude Kalloc Pipe BlockDev Fs.
Open Scope Z_scope.

Definition NFILE : nat := 100.

Inductive ftype := FD_NONE | FD_PIPE | FD_INODE.

#[global] Instance ftype_eq_dec : EqDecision ftype.
Proof. solve_decision. Defined.

Record file := File {
  f_type : ftype;
  f_ref : Z;
  f_readable : bool;
  f_writable : bool;
  f_pipe : Z;            (* a struct pipe*, the address of its page *)
  f_ip : nat;            (* a struct inode*, a slot of the inode cache *)
  f_off : Z
}.

Definition file_zero : file := File FD_NONE 0 false false 0 0 0.

Definition set_ftype (t : ftype) (f : file) : file :=
  File t (f_ref f) (f_readable f) (f_writable f) (f_pipe f) (f_ip f) (f_off f).
Definition set_fref (r : Z) (f : file) : file :=
  File (f_type f) r (f_readable f) (f_writable f) (f_pipe f) (f_ip f) (f_off f).
Definition set_foff (o : Z) (f : file) : file :=
  File (f_type f) (f_ref f) (f_readable f) (f_writable f) (f_pipe f) (f_ip f) o.

Record files (S : Type) := Files {
  ftable : list file;
  pipes : gmap Z pipe;
  kpages : kmem;
  wakelog : list chan;
  ifs : fs S
}.
Arguments Files {S} ftable pipes kpages wakelog ifs.
Arguments ftable {S} _.
Arguments pipes {S} _.
Arguments kpages {S} _.
Arguments wakelog {S} _.
Arguments ifs {S} _.

Section Ops.
Context {S : Type} `{HB : !BlockOps S}.
Context (kend : Z).
Context (dev_read : Z -> option (nat -> Z -> M (fs S) (Z * list Z))).
Context (dev_write : Z -> option (nat -> list Z -> Z -> M (fs S) Z)).
(** devsw[major].ioctl *)
Context (dev_ioctl : Z -> option (nat -> Z -> Z -> M (fs S) Z)).

Abbreviation F := (M (files S)).

Definition on_fs {A} (m : M (fs S) A) : F A :=
  zoom ifs (fun x s => Files (ftable s) (pipes s) (kpages s) (wakelog s) x) m.
Definition on_mem {A} (m : M kmem A) : F A :=
  zoom kpages (fun k s => Files (ftable s) (pipes s) k (wakelog s) (ifs s)) m.
Definition getf (f : nat) : F file := gets (fun s => default file_zero (ftable s !! f)).
Definition updf (f : nat) (g : file -> file) : F unit :=
  modify (fun s => Files (alter g f (ftable s)) (pipes s) (kpages s) (wakelog s) (ifs s)).
Definition getpipe (p : Z) : F pipe := gets (fun s => default (pipe_init []) (pipes s !! p)).
Definition setpipe (p : Z) (x : pipe) : F unit :=
  modify (fun s => Files (ftable s) (<[p := x]> (pipes s)) (kpages s) (wakelog s) (ifs s)).
Definition delpipe (p : Z) : F unit :=
  modify (fun s => Files (ftable s) (delete p (pipes s)) (kpages s) (wakelog s) (ifs s)).

(** The calls of [wakeup] that a run of a pipe routine makes. *)
Definition pipe_chan (p : Z) (c : pchan) : chan :=
  match c with CNread => ChanPipeRead p | CNwrite => ChanPipeWrite p end.
Definition wakeups (p : Z) (cs : list pchan) : F unit :=
  modify (fun s => Files (ftable s) (pipes s) (kpages s) (rev (pipe_chan p <$> cs) ++ wakelog s) (ifs s)).

Definition filealloc : F (option nat) :=
  t ← gets ftable;
  match list_find (fun f => f_ref f =? 0) t with
  | Some (i, _) => updf i (set_fref 1);; mret (Some i)
  | None => mret None
  end.

Definition filedup (f : nat) : F nat :=
  x ← getf f;
  if f_ref x <? 1 then panic "filedup" else
  updf f (set_fref (s32 (f_ref x + 1)));;
  mret f.

(** [pipeclose], with the page given back when both ends are closed. *)
Definition close_pipe (p : Z) (writable : bool) : F unit :=
  x ← getpipe p;
  let '(x', ws, last) := pipeclose writable x in
  setpipe p x';;
  wakeups p ws;;
  when last (delpipe p;; on_mem (kfree kend p)).

Definition fileclose (f : nat) : F unit :=
  x ← getf f;
  if f_ref x <? 1 then panic "fileclose" else
  let r := f_ref x - 1 in
  if 0 <? r then updf f (set_fref r)
  else
    updf f (set_ftype FD_NONE ∘ set_fref 0);;
    match f_type x with
    | FD_PIPE => close_pipe (f_pipe x) (f_writable x)
    | FD_INODE => on_fs (iput (f_ip x))
    | FD_NONE => mret tt
    end.

Definition filestat (f : nat) : F (option stat) :=
  x ← getf f;
  match f_type x with
  | FD_INODE =>
      on_fs (ilock (f_ip x));;
      st ← on_fs (stati (f_ip x));
      on_fs (iunlock (f_ip x));;
      mret (Some st)
  | _ => mret None
  end.

(** The result and the bytes read.  A reader that finds an empty pipe sleeps
    before it takes any byte and, woken, starts again. *)
Definition fileread (killed : bool) (f : nat) (n : Z) : F (Z * list Z) :=
  x ← getf f;
  if negb (f_readable x) then mret (-1, []) else
  match f_type x with
  | FD_PIPE =>
      p ← getpipe (f_pipe x);
      let '(p', ws, r) := piperead killed n p in
      setpipe (f_pipe x) p';;
      wakeups (f_pipe x) ws;;
      match r with
      | RRet r bs => mret (r, bs)
      | RSleep => sleep_on (ChanPipeRead (f_pipe x))
      end
  | FD_INODE =>
      on_fs (ilock (f_ip x));;
      '(r, bs) ← on_fs (readi dev_read (f_ip x) (f_off x) (u32 n));
      let r := s32 r in
      when (0 <? r) (updf f (set_foff (u32 (f_off x + r))));;
      on_fs (iunlock (f_ip x));;
      mret (r, bs)
  | FD_NONE => panic "fileread"
  end.

(** [inr rest]: asleep on a full pipe with [rest] still to write. *)
Definition filewrite (killed : bool) (f : nat) (src : list Z) (n : Z) : F (Z + list Z) :=
  x ← getf f;
  if negb (f_writable x) then mret (inl (-1)) else
  match f_type x with
  | FD_PIPE =>
      p ← getpipe (f_pipe x);
      let '(p', ws, r) := pipewrite killed src n p in
      setpipe (f_pipe x) p';;
      wakeups (f_pipe x) ws;;
      match r with
      | WRet r => mret (inl r)
      | WSleep rest => mret (inr rest)
      end
  | FD_INODE =>
      on_fs (ilock (f_ip x));;
      r ← on_fs (writei dev_write (f_ip x) src (f_off x) (u32 n));
      let r := s32 r in
      when (0 <? r) (updf f (set_foff (u32 (f_off x + r))));;
      on_fs (iunlock (f_ip x));;
      mret (inl r)
  | FD_NONE => panic "filewrite"
  end.

Definition fileioctl (f : nat) (request argp : Z) : F Z :=
  x ← getf f;
  ip ← on_fs (geti (f_ip x));
  if bool_decide (f_type x = FD_PIPE) || negb (i_type ip =? T_DEV) then mret (-1) else
  if (i_major ip <? 0) || (NDEV <=? i_major ip) then mret (-1) else
  match dev_ioctl (i_major ip) with
  | None => mret (-1)
  | Some ioctl =>
      on_fs (ilock (f_ip x));;
      r ← on_fs (ioctl (f_ip x) request argp);
      on_fs (iunlock (f_ip x));;
      mret r
  end.

(** The offset of [data] in struct pipe, after its spin lock. *)
Definition PIPE_DATA : nat := 52.

(** The two ends, the one for reading first. *)
Definition pipealloc : F (option (nat * nat)) :=
  f0 ← filealloc;
  match f0 with
  | None => mret None
  | Some f0 =>
      f1 ← filealloc;
      match f1 with
      | None => fileclose f0;; mret None
      | Some f1 =>
          p ← on_mem kalloc;
          if p =? 0 then fileclose f0;; fileclose f1;; mret None
          else
            junk ← gets (fun s => slice PIPE_DATA (Z.to_nat PIPESIZE) (page (kpages s) p));
            setpipe p (pipe_init junk);;
            updf f0 (fun x => File FD_PIPE (f_ref x) true false p (f_ip x) (f_off x));;
            updf f1 (fun x => File FD_PIPE (f_ref x) false true p (f_ip x) (f_off x));;
            mret (Some (f0, f1))
      end
  end.

End Ops.
