(* ===== verification/FileInv.v ===== *)
(** * Open files, pipes, pages and inodes stay consistent

    [files_ok s D L]: [D] is the list of all descriptors, of every process, that
    refer to open files, and [L] the inode references held outside the file
    table.  Each file's count is the number of descriptors to it; a file that
    no descriptor refers to is FD_NONE; each pipe exists as long as one of its
    ends is open, in a page that the allocator has not got back; and each open
    inode file holds one reference to its inode.  Every operation of file.c and
    [pipealloc] keep this. *)

From stdpp Require Import base numbers list gmap strings list_numbers.
From Stdlib Require Import Lia ZArith ZifyBool.
From S2P Require Import Prelude Kalloc Pipe BlockDev Fs FsInode FsRefs File.
Open Scope Z_scope.

Definition cnt (f : nat) (D : list nat) : Z := Z.of_nat (length (filter (fun g => g = f) D)).

Lemma cnt_cons f g D : cnt f (g :: D) = cnt f D + (if decide (g = f) then 1 else 0).
Proof. unfold cnt. rewrite filter_cons. destruct (decide (g = f)); simpl length; lia. Qed.

#[global] Instance cnt_perm f : Proper ((≡ₚ) ==> (=)) (cnt f).
Proof. intros D D' HD. unfold cnt. by rewrite HD. Qed.

Lemma cnt_pos f D : 0 < cnt f D <-> f ∈ D.
Proof.
  induction D as [|g D IH]; [unfold cnt; simpl; split; [lia|set_solver]|].
  rewrite cnt_cons, elem_of_cons, <- IH. assert (0 <= cnt f D) by (unfold cnt; lia).
  destruct (decide (g = f)); split; intros; naive_solver lia.
Qed.

Lemma cnt_nonneg f D : 0 <= cnt f D.
Proof. unfold cnt. lia. Qed.

(** The inode an open file refers to. *)
Definition finode (x : file) : list nat := if bool_decide (f_type x = FD_INODE) then [f_ip x] else [].
Definition file_inodes (t : list file) : list nat := t ≫= finode.

Lemma file_inodes_insert t f x x' :
  t !! f = Some x ->
  exists R, file_inodes t ≡ₚ finode x ++ R /\ file_inodes (<[f := x']> t) ≡ₚ finode x' ++ R.
Proof.
  intros Hf. apply list_elem_of_split_length in Hf as (l1 & l2 & -> & ->).
  exists (file_inodes l1 ++ file_inodes l2). rewrite insert_app_r_alt by lia. rewrite Nat.sub_diag. simpl.
  unfold file_inodes. rewrite !bind_app. simpl. split; by rewrite Permutation_app_swap_app.
Qed.

(** A pipe's end that [writable] names. *)
Definition end_open (w : bool) (p : pipe) : bool := if w then writeopen p else readopen p.
Definition is_end (a : Z) (w : bool) (x : file) : Prop :=
  f_type x = FD_PIPE /\ f_pipe x = a /\ f_writable x = w.

Record pipes_ok (t : list file) (P : gmap Z pipe) : Prop := {
  po_file : forall f x, t !! f = Some x -> f_type x = FD_PIPE ->
            exists p, P !! f_pipe x = Some p /\ end_open (f_writable x) p = true;
  po_one : forall f g x y a w, t !! f = Some x -> t !! g = Some y ->
           is_end a w x -> is_end a w y -> f = g;
  po_open : forall a p w, P !! a = Some p -> end_open w p = true ->
            exists f x, t !! f = Some x /\ is_end a w x;
  po_used : forall a p, P !! a = Some p -> readopen p = true \/ writeopen p = true
}.

(** Changing a slot that is no pipe's end, before and after. *)
Lemma pipes_ok_insert t P f x x' :
  pipes_ok t P -> t !! f = Some x -> f_type x <> FD_PIPE -> f_type x' <> FD_PIPE ->
  pipes_ok (<[f := x']> t) P.
Proof.
  intros [H1 H2 H3 H4] Hf Hx Hx'.
  assert (Hl : forall g y, f_type y = FD_PIPE -> <[f := x']> t !! g = Some y <-> t !! g = Some y).
  { intros g y Hy. destruct (decide (f = g)) as [<-|Hne]; [|by rewrite list_lookup_insert_ne].
    rewrite list_lookup_insert_eq by (by eapply lookup_lt_Some). split; intros; congruence. }
  split.
  - intros g y Hg Hy. rewrite Hl in Hg by done. by apply (H1 g).
  - intros g h y z a w Hg Hh Ey Ez. rewrite Hl in Hg by apply Ey. rewrite Hl in Hh by apply Ez. by eapply H2.
  - intros a p w Hp He. destruct (H3 a p w Hp He) as (g & y & Hg & Ey). exists g, y. rewrite Hl by apply Ey. done.
  - done.
Qed.

(** Changing in a slot only what pipes do not look at. *)
Lemma pipes_ok_same t P f x x' :
  pipes_ok t P -> t !! f = Some x ->
  f_type x' = f_type x -> f_pipe x' = f_pipe x -> f_writable x' = f_writable x ->
  pipes_ok (<[f := x']> t) P.
Proof.
  intros [H1 H2 H3 H4] Hf Et Ep Ew.
  assert (Hl : forall g y, <[f := x']> t !! g = Some y -> exists y0, t !! g = Some y0 /\
            f_type y = f_type y0 /\ f_pipe y = f_pipe y0 /\ f_writable y = f_writable y0).
  { intros g y. destruct (decide (f = g)) as [<-|]; [|rewrite list_lookup_insert_ne by done; eauto].
    rewrite list_lookup_insert_eq by (by eapply lookup_lt_Some). intros [= <-]. eauto. }
  split; [| | |done].
  - intros g y (y0 & Hg & -> & -> & ->)%Hl Hy. by apply (H1 g).
  - unfold is_end. intros g h y z a w (y0 & Hg & -> & -> & ->)%Hl (z0 & Hh & -> & -> & ->)%Hl. by apply H2.
  - intros a p w Hp He. destruct (H3 a p w Hp He) as (g & y & Hg & Ey). destruct (decide (f = g)) as [<-|].
    + exists f, x'. rewrite list_lookup_insert_eq by (by eapply lookup_lt_Some). split; [done|].
      simplify_eq. unfold is_end in *. by rewrite Et, Ep, Ew.
    + exists g, y. by rewrite list_lookup_insert_ne.
Qed.

(** Changing a pipe but not which of its ends are open. *)
Lemma pipes_ok_data t P a p p' :
  pipes_ok t P -> P !! a = Some p -> readopen p' = readopen p -> writeopen p' = writeopen p ->
  pipes_ok t (<[a := p']> P).
Proof.
  intros [H1 H2 H3 H4] Ha Er Ew.
  assert (He : forall w, end_open w p' = end_open w p) by (by intros []).
  split.
  - intros f x Hf Hx. destruct (H1 f x Hf Hx) as (q & Hq & Hw). destruct (decide (a = f_pipe x)) as [->|].
    + rewrite lookup_insert_eq. exists p'. rewrite He. split; [done|]. by simplify_eq.
    + rewrite lookup_insert_ne by done. eauto.
  - done.
  - intros b q w. destruct (decide (a = b)) as [<-|].
    + rewrite lookup_insert_eq. intros [= <-]. rewrite He. by apply H3.
    + rewrite lookup_insert_ne by done. apply H3.
  - intros b q. destruct (decide (a = b)) as [<-|].
    + rewrite lookup_insert_eq. intros [= <-]. rewrite Er, Ew. by eapply H4.
    + rewrite lookup_insert_ne by done. apply H4.
Qed.

(** The last descriptor of one end of a pipe is closed. *)
Lemma pipes_ok_close t P f x x' p p' :
  pipes_ok t P -> t !! f = Some x -> f_type x = FD_PIPE -> f_type x' <> FD_PIPE ->
  P !! f_pipe x = Some p ->
  end_open (f_writable x) p' = false -> end_open (negb (f_writable x)) p' = end_open (negb (f_writable x)) p ->
  pipes_ok (<[f := x']> t) (if end_open (negb (f_writable x)) p then <[f_pipe x := p']> P else delete (f_pipe x) P).
Proof.
  intros [H1 H2 H3 H4] Hf Hx Hx' Hp Hshut Hother.
  assert (Hl : forall g y, f_type y = FD_PIPE -> <[f := x']> t !! g = Some y <-> t !! g = Some y /\ g <> f).
  { intros g y Hy. destruct (decide (f = g)) as [<-|Hne].
    - rewrite list_lookup_insert_eq by (by eapply lookup_lt_Some). split; [congruence|tauto].
    - rewrite list_lookup_insert_ne by done. naive_solver. }
  (* another end of the same pipe is the other end *)
  assert (Hsame : forall g y, t !! g = Some y -> f_type y = FD_PIPE -> g <> f -> f_pipe y = f_pipe x ->
            f_writable y = negb (f_writable x) /\ end_open (negb (f_writable x)) p = true).
  { intros g y Hg Hy Hne Hpe.
    assert (Hw : f_writable y = negb (f_writable x)).
    { destruct (decide (f_writable y = f_writable x)) as [E|E]; [|by destruct (f_writable x), (f_writable y)].
      destruct Hne. apply (H2 g f y x (f_pipe x) (f_writable x)); [done|done|by unfold is_end; split_and!..]. }
    split; [done|]. destruct (H1 g y Hg Hy) as (q & Hq & He). rewrite Hpe in Hq. simplify_eq. by rewrite <- Hw. }
  destruct (end_open (negb (f_writable x)) p) eqn:E.
  - split.
    + intros g y Hg Hy. apply Hl in Hg as [Hg Hne]; [|done]. destruct (decide (f_pipe y = f_pipe x)) as [Ep|Ep].
      * rewrite Ep, lookup_insert_eq. exists p'. split; [done|].
        destruct (Hsame g y Hg Hy Hne Ep) as [-> _]. congruence.
      * rewrite lookup_insert_ne by congruence. by apply (H1 g).
    + intros g h y z a w Hg Hh Ey Ez. apply Hl in Hg as [Hg _]; [|apply Ey]. apply Hl in Hh as [Hh _]; [|apply Ez].
      by eapply H2.
    + intros a q w. destruct (decide (a = f_pipe x)) as [->|Hne].
      * rewrite lookup_insert_eq. intros [= <-] Hw.
        assert (w = negb (f_writable x)) as ->.
        { destruct (decide (w = f_writable x)) as [->|]; [congruence|by destruct w, (f_writable x)]. }
        destruct (H3 _ _ _ Hp E) as (g & y & Hg & Ey). exists g, y. split; [|done]. apply Hl; [apply Ey|].
        split; [done|]. intros ->. simplify_eq. destruct Ey as (_ & _ & Ew). by destruct (f_writable x).
      * rewrite lookup_insert_ne by done. intros Hq Hw. destruct (H3 _ _ _ Hq Hw) as (g & y & Hg & Ey).
        exists g, y. split; [|done]. apply Hl; [apply Ey|]. split; [done|]. intros ->. simplify_eq.
        by destruct Ey as (_ & ? & _).
    + intros a q. destruct (decide (a = f_pipe x)) as [->|Hne]; [|rewrite lookup_insert_ne by done; apply H4].
      rewrite lookup_insert_eq. intros [= <-]. destruct (f_writable x); simpl in *; [left|right]; congruence.
  - split.
    + intros g y Hg Hy. apply Hl in Hg as [Hg Hne]; [|done].
      rewrite lookup_delete_ne; [by apply (H1 g)|]. intros Ep. symmetry in Ep.
      destruct (Hsame g y Hg Hy Hne Ep). congruence.
    + intros g h y z a w Hg Hh Ey Ez. apply Hl in Hg as [Hg _]; [|apply Ey]. apply Hl in Hh as [Hh _]; [|apply Ez].
      by eapply H2.
    + intros a q w. rewrite lookup_delete_Some. intros [Hne Hq] Hw. destruct (H3 _ _ _ Hq Hw) as (g & y & Hg & Ey).
      exists g, y. split; [|done]. apply Hl; [apply Ey|]. split; [done|]. intros ->. simplify_eq.
      by destruct Ey as (_ & ? & _).
    + intros a q. rewrite lookup_delete_Some. intros [_ Hq]. by apply (H4 a).
Qed.

(** Two slots that were no pipe's ends become the ends of a new pipe. *)
Lemma pipes_ok_new t P f g x y x' y' a p :
  pipes_ok t P -> t !! f = Some x -> t !! g = Some y -> f <> g ->
  f_type x <> FD_PIPE -> f_type y <> FD_PIPE -> P !! a = None ->
  is_end a false x' -> is_end a true y' -> readopen p = true -> writeopen p = true ->
  pipes_ok (<[g := y']> (<[f := x']> t)) (<[a := p]> P).
Proof.
  intros [H1 H2 H3 H4] Hf Hg Hfg Hx Hy Ha Ex Ey Hr Hw.
  assert (Hlf : (f < length t)%nat) by (by eapply lookup_lt_Some).
  assert (Hlg : (g < length (<[f := x']> t))%nat) by (rewrite length_insert; by eapply lookup_lt_Some).
  assert (Hl : forall h z, f_type z = FD_PIPE -> <[g := y']> (<[f := x']> t) !! h = Some z ->
            (h = f /\ z = x') \/ (h = g /\ z = y') \/ (t !! h = Some z /\ f_pipe z <> a)).
  { intros h z Hz. destruct (decide (g = h)) as [<-|]; [rewrite list_lookup_insert_eq by done; naive_solver|].
    rewrite list_lookup_insert_ne by done.
    destruct (decide (f = h)) as [<-|]; [rewrite list_lookup_insert_eq by done; naive_solver|].
    rewrite list_lookup_insert_ne by done. intros Hh. right. right. split; [done|]. intros <-.
    destruct (H1 h z Hh Hz) as (q & Hq & _). congruence. }
  assert (Hf' : <[g := y']> (<[f := x']> t) !! f = Some x').
  { rewrite list_lookup_insert_ne by done. by apply list_lookup_insert_eq. }
  assert (Hg' : <[g := y']> (<[f := x']> t) !! g = Some y') by (by apply list_lookup_insert_eq).
  assert (Hold : forall h z, t !! h = Some z -> f_type z = FD_PIPE -> <[g := y']> (<[f := x']> t) !! h = Some z).
  { intros h z Hh Hz. rewrite !list_lookup_insert_ne; [done|..]; intros ->; simplify_eq; congruence. }
  destruct Ex as (Tx & Px & Wx), Ey as (Ty & Py & Wy). split.
  - intros h z Hh Hz. destruct (Hl h z Hz Hh) as [(-> & ->)|[(-> & ->)|(Ho & Hne)]].
    + rewrite Px, Wx, lookup_insert_eq. by exists p.
    + rewrite Py, Wy, lookup_insert_eq. by exists p.
    + rewrite lookup_insert_ne by congruence. by apply (H1 h).
  - intros h k z w b e Hh Hk (Tz & Pz & Wz) (Tw & Pw & Ww).
    destruct (Hl h z Tz Hh) as [(-> & ->)|[(-> & ->)|(Ho & Hne)]], (Hl k w Tw Hk) as [(-> & ->)|[(-> & ->)|(Ho' & Hne')]];
      try done; try congruence. apply (H2 h k z w b e); try done; by unfold is_end; split_and!.
  - intros b q e. destruct (decide (b = a)) as [->|].
    + intros _ _. destruct e; [exists g, y'|exists f, x']; by unfold is_end; split_and!.
    + rewrite lookup_insert_ne by done. intros Hq He. destruct (H3 _ _ _ Hq He) as (h & z & Hh & Ez).
      exists h, z. split; [|done]. apply Hold; [done|apply Ez].
  - intros b q. destruct (decide (b = a)) as [->|].
    + rewrite lookup_insert_eq. intros [= <-]. by left.
    + rewrite lookup_insert_ne by done. apply H4.
Qed.

(** ** The invariant *)

Record files_ok {S} (kend : Z) (s : files S) (D L : list nat) : Prop := {
  fo_refs : forall f x, ftable s !! f = Some x -> f_ref x = cnt f D;
  fo_desc : forall f, f ∈ D -> is_Some (ftable s !! f);
  fo_none : forall f x, ftable s !! f = Some x -> f ∉ D -> f_type x = FD_NONE;
  fo_pipe : pipes_ok (ftable s) (pipes s);
  fo_mem : exists l, kinv kend (kpages s) l /\
           forall a p, pipes s !! a = Some p -> allocatable kend a /\ a ∉ l;
  fo_inode : held (ifs s) (file_inodes (ftable s) ++ L)
}.

Section Ops.
Context {S : Type} `{HB : !BlockOps S}.
Context (kend : Z) (Hkend : 0 < kend).
Implicit Types (s : files S) (D L : list nat).
Abbreviation T := (fun (_ : chan) (_ : files S) => True).

Lemma files_ok_perm s D D' L L' : files_ok kend s D L -> D ≡ₚ D' -> L ≡ₚ L' -> files_ok kend s D' L'.
Proof.
  intros [H1 H2 H4 H5 H6 H7] HD HL. split; try done.
  - intros f x Hf. rewrite <- HD. by apply H1.
  - intros f. rewrite <- HD. apply H2.
  - intros f x. rewrite <- HD. apply H4.
  - by rewrite <- HL.
Qed.

Lemma wlp_getf f Q W s x :
  ftable s !! f = Some x -> Q x s -> wlp (getf f) Q W s.
Proof. intros Hf HQ. unfold getf. wlp_step. by rewrite Hf. Qed.

Lemma wlp_updf f g Q W t P k w y x :
  t !! f = Some x -> Q tt (Files (S := S) (<[f := g x]> t) P k w y) -> wlp (updf f g) Q W (Files t P k w y).
Proof. intros Hf HQ. unfold updf. wlp_step. simpl. by erewrite alter_insert_some. Qed.

(** An operation of the file system that keeps or changes the references held. *)
Lemma files_ok_fs {A} (m : M (fs S) A) (L' : A -> list nat) s D L :
  files_ok kend s D L ->
  wlp m (fun a x => held x (file_inodes (ftable s) ++ L' a)) (fun _ _ => True) (ifs s) ->
  wlp (on_fs m) (fun a s' => files_ok kend s' D (L' a) /\ ftable s' = ftable s) T s.
Proof.
  intros [H1 H2 H4 H5 H6 H7] Hm. unfold on_fs. wlp_step. eapply wlp_mono; [exact Hm| |done].
  intros a x Hx. simpl. by split.
Qed.

(** The count of one file changes with the descriptors to it. *)
Lemma files_ok_ref t P k w (y : fs S) D D' L f x :
  files_ok kend (Files t P k w y) D L -> t !! f = Some x ->
  (forall g, g <> f -> cnt g D' = cnt g D) -> (f ∉ D' -> f_type x = FD_NONE) ->
  files_ok kend (Files (<[f := set_fref (cnt f D') x]> t) P k w y) D' L.
Proof.
  intros [H1 H2 H4 H5 H6 H7] Hf Hcnt Hnone. simpl in *.
  assert (Hfl : (f < length t)%nat) by (by eapply lookup_lt_Some).
  assert (Hiff : forall g, g <> f -> g ∈ D' <-> g ∈ D) by (intros g Hg; by rewrite <- !cnt_pos, Hcnt).
  destruct (file_inodes_insert t f x (set_fref (cnt f D') x) Hf) as (R & HR1 & HR2).
  split; simpl; try done.
  - intros g z. destruct (decide (f = g)) as [<-|].
    + rewrite list_lookup_insert_eq by done. by intros [= <-].
    + rewrite list_lookup_insert_ne by done. intros Hg. rewrite Hcnt by done. by apply H1.
  - intros g Hg. apply lookup_lt_is_Some. rewrite length_insert. destruct (decide (g = f)) as [->|]; [done|].
    apply lookup_lt_is_Some, H2. by apply Hiff.
  - intros g z. destruct (decide (f = g)) as [<-|].
    + rewrite list_lookup_insert_eq by done. intros [= <-]. apply Hnone.
    + rewrite list_lookup_insert_ne by done. intros Hg Hn. eapply H4; [done|]. by rewrite <- Hiff.
  - by eapply pipes_ok_same.
  - rewrite HR2. by rewrite HR1 in H7.
Qed.

Lemma filealloc_wlp s D L :
  files_ok kend s D L ->
  wlp filealloc (fun r s' => match r with
     | None => files_ok kend s' D L
     | Some f => files_ok kend s' (f :: D) L /\ f ∉ D /\
         exists x, ftable s !! f = Some x /\ f_type x = FD_NONE /\ ftable s' = <[f := set_fref 1 x]> (ftable s)
     end) T s.
Proof.
  intros Hok. destruct s as [t P k w y]. unfold filealloc. do 2 wlp_step. simpl.
  destruct (list_find _ t) as [[f x]|] eqn:Hfind; [|by wlp_step].
  apply list_find_Some in Hfind as (Hf & Hz & _). apply Is_true_true in Hz.
  pose proof (fo_refs _ _ _ _ Hok _ _ Hf) as Hc.
  assert (Hn : f ∉ D) by (intros Hin%cnt_pos; lia).
  pose proof (fo_none _ _ _ _ Hok _ _ Hf Hn) as Hty.
  wlp_step. eapply wlp_updf; [done|]. wlp_step. split; [|split; [done|]].
  - replace 1 with (cnt f (f :: D)) by (rewrite cnt_cons, decide_True by done; lia).
    eapply files_ok_ref; try done. intros g Hg. rewrite cnt_cons, decide_False by done. lia.
  - by exists x.
Qed.

Lemma filedup_wlp s D L f :
  files_ok kend s D L -> f ∈ D -> Z.of_nat (length D) < 2 ^ 31 - 1 ->
  wlp (filedup f) (fun g s' => g = f /\ files_ok kend s' (f :: D) L) T s.
Proof.
  intros Hok Hin Hlen. destruct s as [t P k w y]. unfold filedup.
  destruct (fo_desc _ _ _ _ Hok f Hin) as [x Hf]. simpl in Hf. wlp_step. eapply wlp_getf; [done|].
  assert (Hc : 0 < cnt f D <= Z.of_nat (length D)).
  { split; [by apply cnt_pos|]. unfold cnt. pose proof (length_filter (fun g => g = f) D). lia. }
  rewrite (fo_refs _ _ _ _ Hok _ _ Hf). wlp_step; [lia|]. rewrite s32_small by lia.
  wlp_step. eapply wlp_updf; [done|]. wlp_step. split; [done|].
  replace (cnt f D + 1) with (cnt f (f :: D)) by (rewrite cnt_cons, decide_True by done; lia).
  eapply files_ok_ref; try done; [|set_solver]. intros g Hg. rewrite cnt_cons, decide_False by done. lia.
Qed.

Definition closed (x : file) : file := set_ftype FD_NONE (set_fref 0 x).

(** The last descriptor to file [f] goes: its slot is free. *)
Lemma slot_closed (t : list file) (D : list nat) f x :
  (forall g z, t !! g = Some z -> f_ref z = cnt g (f :: D)) ->
  (forall g, g ∈ f :: D -> is_Some (t !! g)) ->
  (forall g z, t !! g = Some z -> g ∉ f :: D -> f_type z = FD_NONE) ->
  t !! f = Some x -> cnt f D = 0 ->
  (forall g z, <[f := closed x]> t !! g = Some z -> f_ref z = cnt g D) /\
  (forall g, g ∈ D -> is_Some (<[f := closed x]> t !! g)) /\
  (forall g z, <[f := closed x]> t !! g = Some z -> g ∉ D -> f_type z = FD_NONE).
Proof.
  intros H1 H2 H3 Hf Hc. assert (Hfl : (f < length t)%nat) by (by eapply lookup_lt_Some).
  split_and!.
  - intros g z. destruct (decide (f = g)) as [<-|].
    + rewrite list_lookup_insert_eq by done. intros [= <-]. by rewrite Hc.
    + rewrite list_lookup_insert_ne by done. intros Hg. rewrite (H1 _ _ Hg), cnt_cons, decide_False by done. lia.
  - intros g Hg. apply lookup_lt_is_Some. rewrite length_insert. apply lookup_lt_is_Some, H2. set_solver.
  - intros g z. destruct (decide (f = g)) as [<-|].
    + rewrite list_lookup_insert_eq by done. by intros [= <-].
    + rewrite list_lookup_insert_ne by done. intros Hg Hn. eapply H3; [done|]. set_solver.
Qed.

Lemma close_pipe_wlp t P k w (y : fs S) D L f x :
  files_ok kend (Files t P k w y) (f :: D) L -> t !! f = Some x -> f_type x = FD_PIPE -> cnt f D = 0 ->
  wlp (close_pipe kend (f_pipe x) (f_writable x)) (fun _ s' => files_ok kend s' D L) T
      (Files (<[f := closed x]> t) P k w y).
Proof using Hkend.
  intros [H1 H2 H4 H5 H6 H7] Hf Hx Hc. simpl in *.
  destruct (slot_closed t D f x H1 H2 H4 Hf Hc) as (K1 & K2 & K3).
  destruct (po_file _ _ H5 f x Hf Hx) as (p & Hp & Hopen).
  destruct (file_inodes_insert t f x (closed x) Hf) as (R & HR1 & HR2).
  assert (Hin : held y (file_inodes (<[f := closed x]> t) ++ L)).
  { rewrite HR2. rewrite HR1 in H7. unfold finode in *. simpl. by rewrite Hx in H7. }
  destruct H6 as (l & Hk & Hal).
  destruct (pipeclose (f_writable x) p) as [[p' ws] last] eqn:Epc.
  assert (end_open (f_writable x) p' = false /\
          end_open (negb (f_writable x)) p' = end_open (negb (f_writable x)) p /\
          last = negb (end_open (negb (f_writable x)) p)) as (Hs & Ho & ->).
  { unfold pipeclose in Epc. destruct (f_writable x); simplify_eq/=; [by rewrite andb_true_r|done]. }
  pose proof (pipes_ok_close t P f x (closed x) p p' H5 Hf Hx ltac:(done) Hp Hs Ho) as Hpk.
  unfold close_pipe, getpipe. do 2 wlp_step. simpl. rewrite Hp. simpl. rewrite Epc.
  unfold setpipe. do 2 wlp_step. unfold wakeups. do 2 wlp_step. simpl.
  destruct (end_open (negb (f_writable x)) p); wlp_step; try done.
  - split; simpl; try done. exists l. split; [done|]. intros a q. destruct (decide (a = f_pipe x)) as [->|].
    + intros _. by eapply Hal.
    + rewrite lookup_insert_ne by done. apply Hal.
  - unfold delpipe. do 2 wlp_step. simpl. unfold on_mem. wlp_step. simpl. apply wlp_wp.
    destruct (Hal _ _ Hp) as [Hall Hnl].
    eapply wp_mono; [by apply (kfree_wp kend Hkend (f_pipe x) k l)|]. intros [] k' [Hk' _].
    rewrite delete_insert_eq. split; simpl; try done. exists (f_pipe x :: l). split; [done|].
    intros a q. rewrite lookup_delete_Some. intros [Hne Hq]. destruct (Hal _ _ Hq). split; [done|]. set_solver.
Qed.

Lemma fileclose_wlp s D L f :
  files_ok kend s (f :: D) L -> wlp (fileclose kend f) (fun _ s' => files_ok kend s' D L) T s.
Proof using Hkend.
  intros Hok. destruct s as [t P k w y]. pose proof Hok as [H1 H2 H4 H5 H6 H7]. simpl in *. unfold fileclose.
  destruct (H2 f ltac:(set_solver)) as [x Hf]. wlp_step. eapply wlp_getf; [done|].
  assert (Hr : f_ref x = cnt f D + 1) by (rewrite (H1 _ _ Hf), cnt_cons, decide_True by done; lia).
  pose proof (cnt_nonneg f D). wlp_step; [lia|]. replace (f_ref x - 1) with (cnt f D) by lia.
  wlp_step; [eapply wlp_updf; [done|]|].
  { eapply files_ok_ref; try done; [intros g Hg; rewrite cnt_cons, decide_False by done; lia|].
    intros Hn. destruct Hn. apply cnt_pos. lia. }
  assert (Hc : cnt f D = 0) by lia.
  wlp_step. eapply wlp_updf; [done|]. change ((set_ftype FD_NONE ∘ set_fref 0) x) with (closed x).
  destruct (slot_closed t D f x H1 H2 H4 Hf Hc) as (K1 & K2 & K3).
  destruct (file_inodes_insert t f x (closed x) Hf) as (R & HR1 & HR2).
  assert (Hdrop : f_type x <> FD_PIPE -> files_ok kend (Files (<[f := closed x]> t) P k w y) D (finode x ++ L)).
  { intros Hx. split; simpl; try done; [by eapply pipes_ok_insert|].
    rewrite HR2. rewrite HR1 in H7. simpl. by rewrite (Permutation_app_comm R), <- app_assoc, (Permutation_app_comm L), app_assoc. }
  destruct (f_type x) eqn:Hx.
  - wlp_step. replace L with (finode x ++ L) by (unfold finode; by rewrite Hx). by apply Hdrop.
  - by eapply close_pipe_wlp.
  - eapply wlp_mono; [eapply (files_ok_fs _ (fun _ => L)); [by apply Hdrop|]| |done]; [|by intros [] s' [? _]].
    apply held_iput. pose proof (fo_inode _ _ _ _ (Hdrop ltac:(done))) as Hi. simpl in Hi |- *.
    unfold finode in Hi. rewrite Hx in Hi. simpl in Hi. by rewrite Permutation_middle.
Qed.

(** Two new files become the ends of a pipe in a page just allocated. *)
Lemma files_ok_pipe t P k k' w (y : fs S) D L f0 f1 x0 x1 a l p :
  files_ok kend (Files t P k w y) (f1 :: f0 :: D) L ->
  (forall b q, P !! b = Some q -> allocatable kend b /\ b ∉ a :: l) ->
  kinv kend k (a :: l) -> kinv kend k' l ->
  t !! f0 = Some x0 -> t !! f1 = Some x1 -> f0 <> f1 -> f_type x0 = FD_NONE -> f_type x1 = FD_NONE ->
  readopen p = true -> writeopen p = true ->
  files_ok kend
    (Files (<[f1 := File FD_PIPE (f_ref x1) false true a (f_ip x1) (f_off x1)]>
             (<[f0 := File FD_PIPE (f_ref x0) true false a (f_ip x0) (f_off x0)]> t))
           (<[a := p]> P) k' w y) (f1 :: f0 :: D) L.
Proof.
  intros [H1 H2 H4 H5 _ H7] Hal (_ & Hnd & Hall) Hk' Hf0 Hf1 Hne Hty0 Hty1 Hr Hw. simpl in *.
  apply NoDup_cons in Hnd as [Hal' _]. apply Forall_cons in Hall as [Halloc _].
  set (x0' := File FD_PIPE _ true false a _ _). set (x1' := File FD_PIPE _ false true a _ _).
  destruct (file_inodes_insert t f0 _ x0' Hf0) as (R & HR1 & HR2).
  destruct (file_inodes_insert (<[f0 := x0']> t) f1 x1 x1') as (R' & HR1' & HR2').
  { by rewrite list_lookup_insert_ne. }
  assert (Hl : forall g z, <[f1 := x1']> (<[f0 := x0']> t) !! g = Some z ->
            g = f0 /\ z = x0' \/ g = f1 /\ z = x1' \/ g <> f0 /\ g <> f1 /\ t !! g = Some z).
  { intros g z. destruct (decide (f1 = g)) as [<-|].
    - rewrite list_lookup_insert_eq by (rewrite length_insert; by eapply lookup_lt_Some). intros [= <-]. auto.
    - rewrite list_lookup_insert_ne by done. destruct (decide (f0 = g)) as [<-|].
      + rewrite list_lookup_insert_eq by (by eapply lookup_lt_Some). intros [= <-]. auto.
      + rewrite list_lookup_insert_ne by done. auto. }
  assert (Hnone : P !! a = None).
  { destruct (P !! a) as [q|] eqn:Hq; [|done]. destruct (Hal _ _ Hq) as [_ Hn]. set_solver. }
  split; simpl.
  - intros g z [(-> & ->)|[(-> & ->)|(_ & _ & Hg)]]%Hl; [exact (H1 _ _ Hf0)|exact (H1 _ _ Hf1)|by apply H1].
  - intros g Hg. apply lookup_lt_is_Some. rewrite !length_insert. by apply lookup_lt_is_Some, H2.
  - intros g z [(-> & ->)|[(-> & ->)|(_ & _ & Hg)]]%Hl Hn; [set_solver|set_solver|by eapply H4].
  - eapply pipes_ok_new; try done; simpl; congruence.
  - exists l. split; [done|]. intros b q. destruct (decide (b = a)) as [->|]; [done|].
    rewrite lookup_insert_ne by done. intros Hq. destruct (Hal _ _ Hq). split; [done|]. set_solver.
  - rewrite HR2'. rewrite HR1 in H7. rewrite HR2 in HR1'. unfold finode in *. simpl in *.
    rewrite Hty0, Hty1 in *. simpl in *. by rewrite <- HR1'.
Qed.

(** [pipealloc] makes both descriptors or, on any failure, leaves no file and
    no page behind. *)
Lemma pipealloc_wlp s D L :
  files_ok kend s D L ->
  wlp (pipealloc kend) (fun r s' => match r with
     | None => files_ok kend s' D L
     | Some (f0, f1) => files_ok kend s' (f1 :: f0 :: D) L
     end) T s.
Proof using Hkend.
  intros Hok. unfold pipealloc. eapply wlp_seq; [by apply filealloc_wlp|]. intros [f0|] s1; [|intros ?; by wlp_step].
  intros (Hok1 & Hn0 & x0 & Hx0 & Hty0 & Ht1).
  eapply wlp_seq; [by apply filealloc_wlp|]. intros [f1|] s2.
  2: { intros Hok2. eapply wlp_seq; [by apply fileclose_wlp|]. intros [] s3 Hok3. by wlp_step. }
  intros (Hok2 & Hn1 & x1 & Hx1 & Hty1 & Ht2). destruct s2 as [t P k w y]. simpl in Ht2.
  assert (Hne : f0 <> f1) by (intros ->; set_solver).
  pose proof Hok2 as [H1 H2 H4 H5 (l & Hk & Hal) H7]. simpl in *.
  wlp_step. unfold on_mem. wlp_step. simpl. apply wlp_wp. eapply wp_mono; [by apply (kalloc_wp kend Hkend k l)|].
  intros r k' (Hpg & Hr). assert (Hok' : forall l', kinv kend k' l' -> (forall a, a ∈ l' -> a ∈ l) ->
      files_ok kend (Files t P k' w y) (f1 :: f0 :: D) L).
  { intros l' Hk' Hsub. split; simpl; try done. exists l'. split; [done|]. intros a p Hp.
    destruct (Hal _ _ Hp). split; [done|]. naive_solver. }
  wlp_step.
  - assert (Hokr : files_ok kend (Files t P k' w y) (f0 :: f1 :: D) L).
    { eapply files_ok_perm; [|apply Permutation_swap|done]. destruct l; [by apply (Hok' []); [tauto|]|].
      exfalso. destruct Hr as (-> & ? & _). lia. }
    eapply wlp_seq; [by apply fileclose_wlp|]. intros [] s3 Hok3.
    eapply wlp_seq; [by apply fileclose_wlp|]. intros [] s4 Hok4. by wlp_step.
  - destruct l as [|a l]; [destruct Hr; lia|]. destruct Hr as (-> & Ha0 & Hk').
    do 2 wlp_step. unfold setpipe. do 2 wlp_step. simpl.
    assert (Hf0 : t !! f0 = Some (set_fref 1 x0)).
    { rewrite Ht2, list_lookup_insert_ne, Ht1 by done. apply list_lookup_insert_eq. by eapply lookup_lt_Some. }
    assert (Hf1 : t !! f1 = Some (set_fref 1 x1)) by (rewrite Ht2; apply list_lookup_insert_eq; by eapply lookup_lt_Some).
    wlp_step. eapply wlp_updf; [done|]. wlp_step. eapply wlp_updf; [by rewrite list_lookup_insert_ne|]. wlp_step.
    by eapply (files_ok_pipe t P k k' w y D L f0 f1 (set_fref 1 x0) (set_fref 1 x1) a l).
Qed.

(** ** Reading and writing *)

Lemma pipe_copy_ends n p bs p' :
  pipe_copy n p = (bs, p') -> readopen p' = readopen p /\ writeopen p' = writeopen p.
Proof.
  revert p bs p'. induction n as [|n IH]; intros p bs p'; cbn [pipe_copy]; [by intros [= _ <-]|].
  case_match; [by intros [= _ <-]|]. destruct (pipe_get p) as [b q] eqn:Hg. destruct (pipe_copy n q) as [bs1 q1] eqn:Hq.
  intros E. apply IH in Hq as [H1 H2]. unfold pipe_get in Hg. by simplify_eq/=.
Qed.

Lemma piperead_ends killed n p p' ws r :
  piperead killed n p = (p', ws, r) -> readopen p' = readopen p /\ writeopen p' = writeopen p.
Proof.
  unfold piperead. repeat case_match; intros; simplify_eq; try done. by eapply pipe_copy_ends.
Qed.

Lemma pipewrite_ends killed n rest p p' ws r :
  pipewrite_run killed n rest p = (p', ws, r) -> readopen p' = readopen p /\ writeopen p' = writeopen p.
Proof.
  revert p. induction rest as [|b rest IH]; intros p; simpl; [by intros [= <- _ _]|].
  repeat case_match; try (by intros [= <- _ _]). by intros Hr%IH.
Qed.

Lemma pipe_io_ok s D L f x p p' ws :
  files_ok kend s D L -> ftable s !! f = Some x -> pipes s !! f_pipe x = Some p ->
  readopen p' = readopen p -> writeopen p' = writeopen p ->
  files_ok kend (Files (ftable s) (<[f_pipe x := p']> (pipes s)) (kpages s)
                       (rev (pipe_chan (f_pipe x) <$> ws) ++ wakelog s) (ifs s)) D L.
Proof.
  intros [H1 H2 H4 H5 (l & Hk & Hal) H7] Hf Hp Er Ew. split; simpl; try done; [by eapply pipes_ok_data|].
  exists l. split; [done|]. intros a q. destruct (decide (a = f_pipe x)) as [->|]; [intros _; by eapply Hal|].
  rewrite lookup_insert_ne by done. apply Hal.
Qed.

(** A file's offset is its own. *)
Lemma files_ok_off t P k w (y : fs S) D L f x o :
  files_ok kend (Files t P k w y) D L -> t !! f = Some x ->
  files_ok kend (Files (<[f := set_foff o x]> t) P k w y) D L.
Proof.
  intros [H1 H2 H4 H5 H6 H7] Hf. simpl in *.
  destruct (file_inodes_insert t f x (set_foff o x) Hf) as (R & HR1 & HR2).
  assert (Hl : forall g z, <[f := set_foff o x]> t !! g = Some z -> exists z0, t !! g = Some z0 /\
            f_ref z = f_ref z0 /\ f_type z = f_type z0).
  { intros g z. destruct (decide (f = g)) as [<-|]; [|rewrite list_lookup_insert_ne by done; eauto].
    rewrite list_lookup_insert_eq by (by eapply lookup_lt_Some). intros [= <-]. eauto. }
  split; simpl; try done.
  - intros g z (z0 & Hg & -> & _)%Hl. by apply H1.
  - intros g Hg. apply lookup_lt_is_Some. rewrite length_insert. by apply lookup_lt_is_Some, H2.
  - intros g z (z0 & Hg & _ & ->)%Hl. by apply H4.
  - by eapply pipes_ok_same.
  - rewrite HR2. by rewrite HR1 in H7.
Qed.

(** An open file takes over a reference to an inode. *)
Lemma files_ok_open t P k w (y : fs S) D L f x i r b :
  files_ok kend (Files t P k w y) D (i :: L) -> t !! f = Some x -> f_type x = FD_NONE -> f ∈ D ->
  files_ok kend (Files (<[f := File FD_INODE (f_ref x) r b (f_pipe x) i 0]> t) P k w y) D L.
Proof.
  intros [H1 H2 H4 H5 H6 H7] Hf Hx Hin. simpl in *. set (x' := File FD_INODE _ _ _ _ _ _).
  assert (Hfl : (f < length t)%nat) by (by eapply lookup_lt_Some).
  destruct (file_inodes_insert t f x x' Hf) as (R & HR1 & HR2).
  split; simpl; try done.
  - intros g z. destruct (decide (f = g)) as [<-|]; [|rewrite list_lookup_insert_ne by done; apply H1].
    rewrite list_lookup_insert_eq by done. intros [= <-]. exact (H1 _ _ Hf).
  - intros g Hg. apply lookup_lt_is_Some. rewrite length_insert. by apply lookup_lt_is_Some, H2.
  - intros g z. destruct (decide (f = g)) as [<-|]; [done|rewrite list_lookup_insert_ne by done; apply H4].
  - eapply pipes_ok_insert; try done; simpl; congruence.
  - rewrite HR2. rewrite HR1 in H7. unfold finode in *. simpl. rewrite Hx in H7. simpl in H7.
    by rewrite Permutation_middle.
Qed.

(** A use of an inode's slot. *)
Lemma files_ok_use {A} (m : M (fs S) A) i s D L :
  files_ok kend s D L -> keeps (touches i) m ->
  wlp (on_fs m) (fun _ s' => files_ok kend s' D L /\ ftable s' = ftable s) T s.
Proof.
  intros Hok Hm. apply (files_ok_fs m (fun _ => L) s D L Hok). eapply held_use; [|exact Hm]. apply Hok.
Qed.

Context (dev_read : Z -> option (nat -> Z -> M (fs S) (Z * list Z))).
Context (dev_write : Z -> option (nat -> list Z -> Z -> M (fs S) Z)).
Context (dev_ioctl : Z -> option (nat -> Z -> Z -> M (fs S) Z)).
Context (Hdev : dev_frames dev_read dev_write).
Context (Hioctl : forall major g i req a, dev_ioctl major = Some g -> keeps (touches i) (g i req a)).

Lemma fileread_wlp killed s D L f n :
  files_ok kend s D L -> f ∈ D ->
  wlp (fileread dev_read killed f n) (fun _ s' => files_ok kend s' D L) T s.
Proof using Hdev.
  intros Hok Hin. unfold fileread. destruct (fo_desc _ _ _ _ Hok f Hin) as [x Hf].
  wlp_step. eapply wlp_getf; [done|]. wlp_step; [by wlp_step|]. destruct (f_type x) eqn:Hx; [by wlp_step| |].
  - destruct (po_file _ _ (fo_pipe _ _ _ _ Hok) f x Hf Hx) as (p & Hp & _).
    unfold getpipe. do 2 wlp_step. rewrite Hp. simpl.
    destruct (piperead killed n p) as [[p' ws] r] eqn:Hr. apply piperead_ends in Hr as [Er Ew].
    unfold setpipe, wakeups. do 4 wlp_step. simpl.
    pose proof (pipe_io_ok s D L f x p p' ws Hok Hf Hp Er Ew). destruct r; by wlp_step.
  - eapply wlp_seq; [by apply (files_ok_use _ (f_ip x)); [|apply keeps_ilock]|]. intros [] s1 [Hok1 Ht1].
    eapply wlp_seq; [by apply (files_ok_use _ (f_ip x)); [|by eapply keeps_readi]|]. intros [r bs] s2 [Hok2 Ht2].
    eapply (wlp_seq _ _ (fun _ s' => files_ok kend s' D L)).
    { wlp_step; [|done]. destruct s2 as [t P k w y]. simpl in Ht2. eapply wlp_updf; [by rewrite Ht2, Ht1|].
      eapply files_ok_off; [done|]. by rewrite Ht2, Ht1. }
    intros [] s3 Hok3. eapply wlp_seq; [by apply (files_ok_use _ (f_ip x)); [|apply keeps_iunlock]|].
    intros [] s4 [Hok4 _]. by wlp_step.
Qed.

Lemma filewrite_wlp killed s D L f src n :
  files_ok kend s D L -> f ∈ D ->
  wlp (filewrite dev_write killed f src n) (fun _ s' => files_ok kend s' D L) T s.
Proof using Hdev.
  intros Hok Hin. unfold filewrite. destruct (fo_desc _ _ _ _ Hok f Hin) as [x Hf].
  wlp_step. eapply wlp_getf; [done|]. wlp_step; [by wlp_step|]. destruct (f_type x) eqn:Hx; [by wlp_step| |].
  - destruct (po_file _ _ (fo_pipe _ _ _ _ Hok) f x Hf Hx) as (p & Hp & _).
    unfold getpipe. do 2 wlp_step. rewrite Hp. simpl. unfold pipewrite.
    destruct (pipewrite_run killed n _ p) as [[p' ws] r] eqn:Hr. apply pipewrite_ends in Hr as [Er Ew].
    unfold setpipe, wakeups. do 4 wlp_step. simpl.
    pose proof (pipe_io_ok s D L f x p p' ws Hok Hf Hp Er Ew). destruct r; by wlp_step.
  - eapply wlp_seq; [by apply (files_ok_use _ (f_ip x)); [|apply keeps_ilock]|]. intros [] s1 [Hok1 Ht1].
    eapply wlp_seq; [by apply (files_ok_use _ (f_ip x)); [|by eapply keeps_writei]|]. intros r s2 [Hok2 Ht2].
    eapply (wlp_seq _ _ (fun _ s' => files_ok kend s' D L)).
    { wlp_step; [|done]. destruct s2 as [t P k w y]. simpl in Ht2. eapply wlp_updf; [by rewrite Ht2, Ht1|].
      eapply files_ok_off; [done|]. by rewrite Ht2, Ht1. }
    intros [] s3 Hok3. eapply wlp_seq; [by apply (files_ok_use _ (f_ip x)); [|apply keeps_iunlock]|].
    intros [] s4 [Hok4 _]. by wlp_step.
Qed.

Lemma filestat_wlp s D L f :
  files_ok kend s D L -> wlp (filestat f) (fun _ s' => files_ok kend s' D L) T s.
Proof.
  intros Hok. unfold filestat. unfold getf. do 2 wlp_step. destruct (f_type _); [by wlp_step..|].
  eapply wlp_seq; [by eapply files_ok_use; [|apply keeps_ilock]|]. intros [] s1 [Hok1 _].
  eapply wlp_seq; [by apply (files_ok_use _ 0%nat); [|unfold stati, geti; keeps_step idtac]|]. intros st s2 [Hok2 _].
  eapply wlp_seq; [by eapply files_ok_use; [|apply keeps_iunlock]|]. intros [] s3 [Hok3 _]. by wlp_step.
Qed.

Lemma fileioctl_wlp s D L f req a :
  files_ok kend s D L -> wlp (fileioctl dev_ioctl f req a) (fun _ s' => files_ok kend s' D L) T s.
Proof using Hioctl.
  intros Hok. unfold fileioctl. unfold getf. do 2 wlp_step.
  set (x := default file_zero _).
  eapply wlp_seq; [by apply (files_ok_use _ 0%nat); [|unfold geti; keeps_step idtac]|]. intros ip s1 [Hok1 _].
  wlp_step; [by wlp_step|]. wlp_step; [by wlp_step|]. destruct (dev_ioctl (i_major ip)) as [g|] eqn:Hg; [|by wlp_step].
  eapply wlp_seq; [by eapply files_ok_use; [|apply keeps_ilock]|]. intros [] s2 [Hok2 _].
  eapply wlp_seq; [by eapply files_ok_use; [|by eapply Hioctl]|]. intros r s3 [Hok3 _].
  eapply wlp_seq; [by eapply files_ok_use; [|apply keeps_iunlock]|]. intros [] s4 [Hok4 _]. by wlp_step.
Qed.

End Ops.
