(* ===== verification/SysFile.v ===== *)
(** * The file system calls: [src/sysfile.c]

    [ustate] is what these calls use of the calling process (its memory and
    registers, its descriptors, its directory) and the files below it. *)

From stdpp Require Import base numbers list gmap strings list_numbers.
From Stdlib Require Import Lia ZArith ZifyBool.
From S2P Require Import Prelude CString Kalloc Pipe BlockDev Fs Syscall File.
Open Scope Z_scope.

Definition NOFILE_ : Z := 16.
Definition MAXARG : nat := 32.
Definition O_RDONLY : Z := 0x000.
Definition O_WRONLY : Z := 0x001.
Definition O_RDWR : Z := 0x002.
Definition O_CREATE : Z := 0x200.

Record ustate (S : Type) := UState {
  up : uproc;
  ofile : list (option nat);     (* proc->ofile *)
  cwd : nat;                     (* proc->cwd *)
  kfs : files S
}.
Arguments UState {S} up ofile cwd kfs.
Arguments up {S} _.
Arguments ofile {S} _.
Arguments cwd {S} _.
Arguments kfs {S} _.

(** struct stat in memory: type, dev, ino, nlink, size, with the padding the
    compiler leaves after the two shorts. *)
Definition store_stat (m : mem) (a : Z) (st : stat) : mem :=
  put_bytes (put_bytes (put_bytes (put_bytes (put_bytes m a (le_enc 2 (st_type st)))
    (a + 4) (le_enc 4 (st_dev st))) (a + 8) (le_enc 4 (st_ino st)))
    (a + 12) (le_enc 2 (st_nlink st))) (a + 16) (le_enc 4 (st_size st)).

Definition set_inlink (n : Z) (ip : inode) : inode :=
  Inode (i_dev ip) (i_inum ip) (i_ref ip) (i_flags ip) (i_type ip) (i_major ip) (i_minor ip)
        n (i_size ip) (i_addrs ip).
Definition set_dev_nlink (major minor n : Z) (ip : inode) : inode :=
  Inode (i_dev ip) (i_inum ip) (i_ref ip) (i_flags ip) (i_type ip) major minor
        n (i_size ip) (i_addrs ip).

(** "." and ".." *)
Definition DOT : list Z := [46].
Definition DOTDOT : list Z := [46; 46].

Section Ops.
Context {S : Type} `{HB : !BlockOps S}.
Context (kend : Z).
Context (dev_read : Z -> option (nat -> Z -> M (fs S) (Z * list Z))).
Context (dev_write : Z -> option (nat -> list Z -> Z -> M (fs S) Z)).
Context (dev_ioctl : Z -> option (nat -> Z -> Z -> M (fs S) Z)).

Abbreviation U := (M (ustate S)).

Definition on_files {A} (m : M (files S) A) : U A :=
  zoom kfs (fun k s => UState (up s) (ofile s) (cwd s) k) m.
Definition on_fs_ {A} (m : M (fs S) A) : U A := on_files (on_fs m).
Definition set_fd (fd : Z) (f : option nat) : U unit :=
  modify (fun s => UState (up s) (<[Z.to_nat fd := f]> (ofile s)) (cwd s) (kfs s)).
(** A store of the kernel to the caller's memory. *)
Definition store (a : Z) (bs : list Z) : U unit :=
  modify (fun s => UState (UProc (u_sz (up s)) (u_esp (up s)) (u_killed (up s)) (put_bytes (u_mem (up s)) a bs))
                          (ofile s) (cwd s) (kfs s)).
Definition arg {A} (f : uproc -> A) : U A := gets (fun s => f (up s)).

(** ** Descriptors *)

Definition argfd (n : Z) : U (option (Z * nat)) :=
  fd ← arg (fun p => argint p n);
  match fd with
  | None => mret None
  | Some fd =>
      t ← gets ofile;
      if (fd <? 0) || (NOFILE_ <=? fd) then mret None else
      match t !! Z.to_nat fd with
      | Some (Some f) => mret (Some (fd, f))
      | _ => mret None
      end
  end.

Definition fdalloc (f : nat) : U Z :=
  t ← gets ofile;
  match list_find (fun o => o = None) t with
  | Some (fd, _) => set_fd (Z.of_nat fd) (Some f);; mret (Z.of_nat fd)
  | None => mret (-1)
  end.

Definition sys_dup : U Z :=
  r ← argfd 0;
  match r with
  | None => mret (-1)
  | Some (_, f) =>
      fd ← fdalloc f;
      if fd <? 0 then mret (-1) else
      on_files (filedup f);;
      mret fd
  end.

Definition sys_read : U Z :=
  r ← argfd 0;
  n ← arg (fun p => argint p 2);
  match r, n with
  | Some (_, f), Some n =>
      p ← arg (fun p => argptr p 1 n);
      match p with
      | None => mret (-1)
      | Some p =>
          killed ← arg u_killed;
          '(r, bs) ← on_files (fileread dev_read killed f n);
          store p bs;;
          mret r
      end
  | _, _ => mret (-1)
  end.

(** [inr rest]: the caller sleeps on a full pipe, [rest] still to write. *)
Definition sys_write : U (Z + list Z) :=
  r ← argfd 0;
  n ← arg (fun p => argint p 2);
  match r, n with
  | Some (_, f), Some n =>
      p ← arg (fun p => argptr p 1 n);
      match p with
      | None => mret (inl (-1))
      | Some p =>
          killed ← arg u_killed;
          src ← arg (fun u => ubytes (u_mem u) p (Z.to_nat n));
          on_files (filewrite dev_write killed f src n)
      end
  | _, _ => mret (inl (-1))
  end.

Definition sys_close : U Z :=
  r ← argfd 0;
  match r with
  | None => mret (-1)
  | Some (fd, f) =>
      set_fd fd None;;
      on_files (fileclose kend f);;
      mret 0
  end.

Definition sys_fstat : U Z :=
  r ← argfd 0;
  st ← arg (fun p => argptr p 1 20);
  match r, st with
  | Some (_, f), Some a =>
      r ← on_files (filestat f);
      match r with
      | Some st =>
          modify (fun s => UState (UProc (u_sz (up s)) (u_esp (up s)) (u_killed (up s)) (store_stat (u_mem (up s)) a st))
                                  (ofile s) (cwd s) (kfs s));;
          mret 0
      | None => mret (-1)
      end
  | _, _ => mret (-1)
  end.

Definition sys_ioctl : U Z :=
  r ← argfd 0;
  req ← arg (fun p => argint p 1);
  p ← arg (fun p => argint p 2);
  match r, req, p with
  | Some (_, f), Some req, Some p => on_files (fileioctl dev_ioctl f req (u32 p))
  | _, _, _ => mret (-1)
  end.

(** ** Paths *)

(** What [name] holds before [nameiparent] fills it: the stack. *)
Context (stack_name : list Z).

Definition namei_ (path : list Z) : U (option nat) :=
  c ← gets cwd; on_fs_ (namei c path).
Definition nameiparent_ (path : list Z) : U (option nat * list Z) :=
  c ← gets cwd; on_fs_ (nameiparent c path stack_name).

Definition link_undo (i : nat) : M (fs S) unit :=
  ilock i;;
  ip ← geti i;
  updi i (set_inlink (s16 (i_nlink ip - 1)));;
  iupdate i;;
  iunlockput i.

Definition sys_link : U Z :=
  old ← arg (fun p => argstr p 0);
  new ← arg (fun p => argstr p 1);
  match old, new with
  | Some old, Some new =>
      old ← arg (fun p => ustr p old);
      new ← arg (fun p => ustr p new);
      r ← namei_ old;
      match r with
      | None => mret (-1)
      | Some i =>
          on_fs_ (ilock i);;
          ip ← on_fs_ (geti i);
          if i_type ip =? T_DIR then on_fs_ (iunlockput i);; mret (-1) else
          on_fs_ (updi i (set_inlink (s16 (i_nlink ip + 1))));;
          on_fs_ (iupdate i);;
          on_fs_ (iunlock i);;
          '(dp, name) ← nameiparent_ new;
          match dp with
          | None => on_fs_ (link_undo i);; mret (-1)
          | Some d =>
              on_fs_ (ilock d);;
              dip ← on_fs_ (geti d);
              ip ← on_fs_ (geti i);
              r ← (if negb (i_dev dip =? i_dev ip) then mret (-1)
                   else on_fs_ (dirlink dev_read dev_write d name (i_inum ip)));
              if r <? 0 then on_fs_ (iunlockput d);; on_fs_ (link_undo i);; mret (-1) else
              on_fs_ (iunlockput d);;
              on_fs_ (iput i);;
              mret 0
          end
      end
  | _, _ => mret (-1)
  end.

Definition isdirempty (d : nat) : M (fs S) bool :=
  ip ← geti d;
  loop (Z.to_nat (i_size ip / 16) + 2) (fun off : Z =>
    if off <? i_size ip then
      '(r, de) ← readi dev_read d off 16;
      if negb (r =? 16) then panic "isdirempty: readi" else
      if negb (ldw 2 de 0 =? 0) then mret (inr false) else mret (inl (u32 (off + 16)))
    else mret (inr true)) 32.

Definition sys_unlink : U Z :=
  path ← arg (fun p => argstr p 0);
  match path with
  | None => mret (-1)
  | Some path =>
      path ← arg (fun p => ustr p path);
      '(dp, name) ← nameiparent_ path;
      match dp with
      | None => mret (-1)
      | Some d =>
          on_fs_ (ilock d);;
          if (namecmp name DOT =? 0) || (namecmp name DOTDOT =? 0) then
            on_fs_ (iunlockput d);; mret (-1)
          else
          r ← on_fs_ (dirlookup d name);
          match r with
          | None => on_fs_ (iunlockput d);; mret (-1)
          | Some (i, off) =>
              on_fs_ (ilock i);;
              ip ← on_fs_ (geti i);
              if i_nlink ip <? 1 then panic "unlink: nlink < 1" else
              full ← (if i_type ip =? T_DIR then e ← on_fs_ (isdirempty i); mret (negb e) else mret false);
              if (full : bool) then on_fs_ (iunlockput i);; on_fs_ (iunlockput d);; mret (-1) else
              w ← on_fs_ (writei dev_write d (replicate 16 0) off 16);
              if negb (w =? 16) then panic "unlink: writei" else
              when (i_type ip =? T_DIR)
                   (dip ← on_fs_ (geti d);
                    on_fs_ (updi d (set_inlink (s16 (i_nlink dip - 1))));;
                    on_fs_ (iupdate d));;
              on_fs_ (iunlockput d);;
              ip ← on_fs_ (geti i);
              on_fs_ (updi i (set_inlink (s16 (i_nlink ip - 1))));;
              on_fs_ (iupdate i);;
              on_fs_ (iunlockput i);;
              mret 0
          end
      end
  end.

(** A locked inode, or [None]. *)
Definition create (path : list Z) (type major minor : Z) : U (option nat) :=
  '(dp, name) ← nameiparent_ path;
  match dp with
  | None => mret None
  | Some d =>
      on_fs_ (ilock d);;
      r ← on_fs_ (dirlookup d name);
      match r with
      | Some (i, _) =>
          on_fs_ (iunlockput d);;
          on_fs_ (ilock i);;
          ip ← on_fs_ (geti i);
          if (type =? T_FILE) && (i_type ip =? T_FILE) then mret (Some i) else
          on_fs_ (iunlockput i);;
          mret None
      | None =>
          dip ← on_fs_ (geti d);
          i ← on_fs_ (ialloc (i_dev dip) type);
          on_fs_ (ilock i);;
          on_fs_ (updi i (set_dev_nlink (s16 major) (s16 minor) 1));;
          on_fs_ (iupdate i);;
          ip ← on_fs_ (geti i);
          when (type =? T_DIR)
               (dip ← on_fs_ (geti d);
                on_fs_ (updi d (set_inlink (s16 (i_nlink dip + 1))));;
                on_fs_ (iupdate d);;
                r1 ← on_fs_ (dirlink dev_read dev_write i DOT (i_inum ip));
                r2 ← (if r1 <? 0 then mret (-1)
                      else dip ← on_fs_ (geti d); on_fs_ (dirlink dev_read dev_write i DOTDOT (i_inum dip)));
                when ((r1 <? 0) || (r2 <? 0)) (panic "create dots"));;
          r ← on_fs_ (dirlink dev_read dev_write d name (i_inum ip));
          if r <? 0 then panic "create: dirlink" else
          on_fs_ (iunlockput d);;
          mret (Some i)
      end
  end.

Definition sys_open : U Z :=
  path ← arg (fun p => argstr p 0);
  omode ← arg (fun p => argint p 1);
  match path, omode with
  | Some path, Some omode =>
      path ← arg (fun p => ustr p path);
      r ← (if tst omode O_CREATE then create path T_FILE 0 0
           else
             r ← namei_ path;
             match r with
             | None => mret None
             | Some i =>
                 on_fs_ (ilock i);;
                 ip ← on_fs_ (geti i);
                 if (i_type ip =? T_DIR) && negb (omode =? O_RDONLY)
                 then on_fs_ (iunlockput i);; mret None
                 else mret (Some i)
             end);
      match r with
      | None => mret (-1)
      | Some i =>
          f ← on_files filealloc;
          match f with
          | None => on_fs_ (iunlockput i);; mret (-1)
          | Some f =>
              fd ← fdalloc f;
              if fd <? 0 then on_files (fileclose kend f);; on_fs_ (iunlockput i);; mret (-1) else
              on_fs_ (iunlock i);;
              on_files (updf f (fun x => File FD_INODE (f_ref x) (negb (tst omode O_WRONLY))
                                  (tst omode O_WRONLY || tst omode O_RDWR) (f_pipe x) i 0));;
              mret fd
          end
      end
  | _, _ => mret (-1)
  end.

Definition sys_mkdir : U Z :=
  path ← arg (fun p => argstr p 0);
  match path with
  | None => mret (-1)
  | Some path =>
      path ← arg (fun p => ustr p path);
      r ← create path T_DIR 0 0;
      match r with
      | None => mret (-1)
      | Some i => on_fs_ (iunlockput i);; mret 0
      end
  end.

Definition sys_mknod : U Z :=
  path ← arg (fun p => argstr p 0);
  major ← arg (fun p => argint p 1);
  minor ← arg (fun p => argint p 2);
  match path, major, minor with
  | Some path, Some major, Some minor =>
      path ← arg (fun p => ustr p path);
      r ← create path T_DEV major minor;
      match r with
      | None => mret (-1)
      | Some i => on_fs_ (iunlockput i);; mret 0
      end
  | _, _, _ => mret (-1)
  end.

Definition sys_chdir : U Z :=
  path ← arg (fun p => argstr p 0);
  match path with
  | None => mret (-1)
  | Some path =>
      path ← arg (fun p => ustr p path);
      r ← namei_ path;
      match r with
      | None => mret (-1)
      | Some i =>
          on_fs_ (ilock i);;
          ip ← on_fs_ (geti i);
          if negb (i_type ip =? T_DIR) then on_fs_ (iunlockput i);; mret (-1) else
          on_fs_ (iunlock i);;
          c ← gets cwd;
          on_fs_ (iput c);;
          modify (fun s => UState (up s) (ofile s) i (kfs s));;
          mret 0
      end
  end.

Definition sys_pipe : U Z :=
  fd ← arg (fun p => argptr p 0 8);
  match fd with
  | None => mret (-1)
  | Some a =>
      r ← on_files (pipealloc kend);
      match r with
      | None => mret (-1)
      | Some (rf, wf) =>
          fd0 ← fdalloc rf;
          fd1 ← (if fd0 <? 0 then mret (-1) else fdalloc wf);
          if (fd0 <? 0) || (fd1 <? 0) then
            when (0 <=? fd0) (set_fd fd0 None);;
            on_files (fileclose kend rf);;
            on_files (fileclose kend wf);;
            mret (-1)
          else
            store a (le_enc 4 fd0);;
            store (a + 4) (le_enc 4 fd1);;
            mret 0
      end
  end.

(** exec, given the path and the arguments. *)
Context (exec : list Z -> list (list Z) -> U Z).

(** The loop over uargv from entry [i]: the arguments, or [None] for -1. *)
Fixpoint exec_args (p : uproc) (uargv : Z) (i fuel : nat) : option (list (list Z)) :=
  match fuel with
  | O => None
  | Datatypes.S fuel =>
      match fetchint p (u32 (uargv + 4 * Z.of_nat i)) with
      | None => None
      | Some uarg =>
          if uarg =? 0 then Some []
          else match fetchstr p (u32 uarg) with
               | None => None
               | Some s => (fun r => ustr p s :: r) <$> exec_args p uargv (Datatypes.S i) fuel
               end
      end
  end.

Definition sys_exec : U Z :=
  path ← arg (fun p => argstr p 0);
  uargv ← arg (fun p => argint p 1);
  match path, uargv with
  | Some path, Some uargv =>
      path ← arg (fun p => ustr p path);
      args ← arg (fun p => exec_args p (u32 uargv) 0 MAXARG);
      match args with
      | None => mret (-1)
      | Some argv => exec path argv
      end
  | _, _ => mret (-1)
  end.

End Ops.
