(* ===== verification/SysInv.v ===== *)
(** * The file system calls leak nothing

    Every call of sysfile.c, on every path through it, keeps the descriptors of
    the process, the counts of the file table, the pipes and their pages, and
    the references of the inode cache consistent: what a failing call took it
    has given back, and what a successful one keeps is accounted for by a
    descriptor or by the process's directory. *)

From stdpp Require Import base numbers list gmap strings list_numbers.
From Stdlib Require Import Lia ZArith ZifyBool.
From S2P Require Import Prelude CString Kalloc Pipe Ide BlockDev Fs DemoDisk FsInode FsRefs Syscall File FileInv SysFile.
Open Scope Z_scope.

(** [uok c s D L]: the process's directory is [c]; [D] are the descriptors of
    other processes, and [L] the inode references nothing else accounts for. *)
Record uok {S} (kend : Z) (c : nat) (s : ustate S) (D L : list nat) : Prop := {
  uo_cwd : cwd s = c;
  uo_nofile : length (ofile s) = 16%nat;
  uo_files : files_ok kend (kfs s) (omap id (ofile s) ++ D) (c :: L)
}.

Section Calls.
Context {S : Type} `{HB : !BlockOps S}.
Context (kend : Z) (Hkend : 0 < kend).
Implicit Types (s : ustate S) (D L : list nat).
Abbreviation T := (fun (_ : chan) (_ : ustate S) => True).
Abbreviation TF := (fun (_ : chan) (_ : fs S) => True).

(** A routine of fs.c that turns the references [L] of the caller into [L']. *)
Definition moves {A} (c : nat) (m : M (fs S) A) (L : list nat) (L' : A -> list nat) : Prop :=
  forall x F, held x (c :: L ++ F) -> wlp m (fun a x' => held x' (c :: L' a ++ F)) TF x.

Lemma moves_use {A} c (m : M (fs S) A) i L : keeps (touches i) m -> moves c m L (fun _ => L).
Proof. intros Hm x F Hx. by eapply held_use. Qed.

Lemma moves_geti c i L : moves c (geti i) L (fun _ => L).
Proof. intros x F Hx. by apply held_geti. Qed.

Lemma moves_iput c i L : moves c (iput i) (i :: L) (fun _ => L).
Proof. intros x F Hx. apply held_iput. simpl in Hx. by rewrite Permutation_swap in Hx. Qed.

Lemma moves_iunlockput c i L : moves c (iunlockput i) (i :: L) (fun _ => L).
Proof. intros x F Hx. apply held_iunlockput. simpl in Hx. by rewrite Permutation_swap in Hx. Qed.

Lemma moves_namei c path L :
  moves c (namei c path) L (fun r => match r with Some i => i :: L | None => L end).
Proof.
  intros x F Hx. eapply wlp_mono; [by apply held_namei; [exact Hx|set_solver]| |done].
  intros [i|] x' Hx'; [|done]. simpl. by rewrite Permutation_swap.
Qed.

Lemma moves_nameiparent c path nm L :
  moves c (nameiparent c path nm) L (fun r => match r.1 with Some i => i :: L | None => L end).
Proof.
  intros x F Hx. eapply wlp_mono; [by apply held_namex; [exact Hx|set_solver]| |done].
  intros [[i|] n] x' Hx'; [|done]. simpl in *. by rewrite Permutation_swap.
Qed.

Lemma moves_dirlookup c d name L :
  moves c (dirlookup d name) L (fun r => match r with Some (i, _) => i :: L | None => L end).
Proof.
  intros x F Hx. eapply wlp_mono; [by apply held_dirlookup| |done].
  intros [[i off]|] x' Hx'; [|done]. simpl. by rewrite Permutation_swap.
Qed.

Lemma moves_ialloc c dev type L : moves c (ialloc dev type) L (fun i => i :: L).
Proof.
  intros x F Hx. eapply wlp_mono; [by apply held_ialloc| |done]. intros i x' Hx'. simpl. by rewrite Permutation_swap.
Qed.

(** ** Lifting to the process *)

Lemma uok_perm c s D D' L L' : uok kend c s D L -> D ≡ₚ D' -> L ≡ₚ L' -> uok kend c s D' L'.
Proof.
  intros [H1 H2 H4] HD HL. split; [done|done|].
  eapply files_ok_perm; [done|by rewrite HD|by rewrite HL].
Qed.

Lemma uok_fs {A} (m : M (fs S) A) c s D L (L' : A -> list nat) :
  uok kend c s D L -> moves c m L L' -> wlp (on_fs_ m) (fun a s' => uok kend c s' D (L' a)) T s.
Proof.
  intros [H1 H2 H4] Hm. unfold on_fs_, on_files. wlp_step.
  eapply wlp_mono; [eapply (files_ok_fs kend m (fun a => c :: L' a)); [exact H4|]| |done].
  - eapply wlp_mono; [apply (Hm _ (file_inodes (ftable (kfs s))))| |done].
    + pose proof (fo_inode _ _ _ _ H4) as Hi. by rewrite Permutation_app_comm in Hi.
    + intros a x Hx. by rewrite Permutation_app_comm.
  - intros a k [Hk _]. by split.
Qed.

Lemma uok_files {A} (m : M (files S) A) c s D L (D' : A -> list nat) :
  uok kend c s D L ->
  wlp m (fun a k => files_ok kend k (omap id (ofile s) ++ D' a) (c :: L)) (fun _ _ => True) (kfs s) ->
  wlp (on_files m) (fun a s' => uok kend c s' (D' a) L /\ ofile s' = ofile s) T s.
Proof.
  intros [H1 H2 H4] Hm. unfold on_files. wlp_step. eapply wlp_mono; [exact Hm| |done].
  intros a k Hk. simpl. split; [|done]. by split.
Qed.

(** ** Descriptors *)

Lemma omap_insert (l : list (option nat)) i o o' :
  l !! i = Some o ->
  exists R, omap id l ≡ₚ option_list o ++ R /\ omap id (<[i := o']> l) ≡ₚ option_list o' ++ R.
Proof.
  intros Hi. apply list_elem_of_split_length in Hi as (l1 & l2 & -> & ->).
  exists (omap id l1 ++ omap id l2). rewrite insert_app_r_alt by lia. rewrite Nat.sub_diag. simpl.
  rewrite !omap_app. simpl. split; [destruct o|destruct o']; simpl; by rewrite ?Permutation_middle.
Qed.

Lemma length_descriptors (l : list (option nat)) : (length (omap id l) <= length l)%nat.
Proof. induction l as [|[f|] l IH]; [done|..]; unfold omap in *; simpl in *; lia. Qed.

Lemma fdalloc_raw s f :
  wlp (fdalloc f) (fun fd s' => (fd < 0 /\ s' = s) \/
      (0 <= fd /\ ofile s !! Z.to_nat fd = Some None /\
       s' = UState (up s) (<[Z.to_nat fd := Some f]> (ofile s)) (cwd s) (kfs s))) T s.
Proof.
  unfold fdalloc. do 2 wlp_step.
  destruct (list_find _ (ofile s)) as [[i o]|] eqn:Hf; [|wlp_step; left; split; [lia|done]].
  apply list_find_Some in Hf as (Hi & -> & _). unfold set_fd. do 3 wlp_step. right. rewrite Nat2Z.id.
  split_and!; [lia|done|done].
Qed.

(** The process takes over a descriptor. *)
Lemma uok_fd c s D L i f :
  uok kend c s (f :: D) L -> ofile s !! i = Some None ->
  uok kend c (UState (up s) (<[i := Some f]> (ofile s)) (cwd s) (kfs s)) D L.
Proof.
  intros [H1 H2 H4] Hi. destruct (omap_insert (ofile s) i None (Some f) Hi) as (R & HR1 & HR2). simpl in *.
  split; simpl; [done|by rewrite length_insert|].
  eapply files_ok_perm; [exact H4| |done]. rewrite HR2, HR1. simpl. by rewrite Permutation_middle.
Qed.

Lemma fdalloc_wlp c s D L f :
  uok kend c s (f :: D) L ->
  wlp (fdalloc f) (fun fd s' => (fd < 0 /\ s' = s) \/
      (0 <= fd /\ uok kend c s' D L /\ ofile s' !! Z.to_nat fd = Some (Some f) /\ kfs s' = kfs s)) T s.
Proof.
  intros Hok. eapply wlp_mono; [apply fdalloc_raw| |done]. intros fd s' [[Hfd ->]|(Hfd & Hi & ->)]; [by left|right].
  split_and!; [done|by apply uok_fd| |done]. simpl. apply list_lookup_insert_eq. by eapply lookup_lt_Some.
Qed.

Lemma set_fd_none c s D L fd f :
  uok kend c s D L -> ofile s !! Z.to_nat fd = Some (Some f) ->
  uok kend c (UState (up s) (<[Z.to_nat fd := None]> (ofile s)) (cwd s) (kfs s)) (f :: D) L.
Proof.
  intros [H1 H2 H4] Hi. destruct (omap_insert (ofile s) _ _ None Hi) as (R & HR1 & HR2). simpl in *.
  split; simpl; [done|by rewrite length_insert|].
  eapply files_ok_perm; [exact H4| |done]. rewrite HR2, HR1. simpl. by rewrite Permutation_middle.
Qed.

Lemma argfd_wlp n s :
  wlp (argfd n) (fun r s' => s' = s /\ match r with
     | Some (fd, f) => ofile s !! Z.to_nat fd = Some (Some f)
     | None => True end) T s.
Proof.
  unfold argfd, arg. do 2 wlp_step. destruct (argint (up s) n); [|by wlp_step].
  do 2 wlp_step. wlp_step; [by wlp_step|]. destruct (ofile s !! Z.to_nat z) as [[f|]|] eqn:E; by wlp_step.
Qed.

Lemma fd_in s fd f : ofile s !! fd = Some (Some f) -> f ∈ omap id (ofile s).
Proof. intros Hf. apply list_elem_of_omap. exists (Some f). split; [by eapply list_elem_of_lookup_2|done]. Qed.

Context (dev_read : Z -> option (nat -> Z -> M (fs S) (Z * list Z))).
Context (dev_write : Z -> option (nat -> list Z -> Z -> M (fs S) Z)).
Context (dev_ioctl : Z -> option (nat -> Z -> Z -> M (fs S) Z)).
Context (Hdev : dev_frames dev_read dev_write).
Context (Hioctl : forall major g i req a, dev_ioctl major = Some g -> keeps (touches i) (g i req a)).
Context (stack_name : list Z).

Lemma moves_dirlink c d name inum L : moves c (dirlink dev_read dev_write d name inum) L (fun _ => L).
Proof. intros x F Hx. by apply held_dirlink. Qed.

(** A step of a system call: an operation of fs.c with its [moves] lemma, or a
    use of slot [i]. *)
Tactic Notation "ufs" uconstr(lem) :=
  eapply wlp_seq; [eapply uok_fs; [eassumption|eapply lem; eassumption]|cbv beta].
Tactic Notation "uuse" uconstr(lem) :=
  eapply wlp_seq; [eapply uok_fs; [eassumption|eapply moves_use, lem; eassumption]|cbv beta].

Tactic Notation "uupd" constr(i) :=
  eapply wlp_seq; [eapply uok_fs; [eassumption|eapply moves_use, (keeps_updi i); done]|cbv beta].

Lemma sys_dup_wlp c s D L :
  uok kend c s D L -> Z.of_nat (length D) < 2 ^ 30 -> wlp sys_dup (fun _ s' => uok kend c s' D L) T s.
Proof.
  intros Hok Hmany. unfold sys_dup. eapply wlp_seq; [apply argfd_wlp|]. intros [[fd f]|] s0 [-> Hf]; [|by wlp_step].
  apply fd_in in Hf. eapply wlp_seq; [apply fdalloc_raw|].
  intros fd' s' [[Hfd ->]|(Hfd & Hi & ->)]; wlp_step; try lia; [by wlp_step|].
  pose proof Hok as [H1 H2 H4].
  eapply (wlp_seq _ _ (fun _ s' => uok kend c s' D L)); [|intros g s' Hs'; by wlp_step].
  unfold on_files. wlp_step. simpl. eapply wlp_mono; [eapply (filedup_wlp kend Hkend); [exact H4|set_solver|]| |done].
  { rewrite length_app. pose proof (length_descriptors (ofile s)). lia. }
  intros g k [-> Hk]. apply (uok_fd c (UState (up s) (ofile s) (cwd s) k) D L); [|done]. split; simpl; try done.
  eapply files_ok_perm; [exact Hk| |done]. by rewrite Permutation_middle.
Qed.

Lemma sys_close_wlp c s D L :
  uok kend c s D L -> wlp (sys_close kend) (fun _ s' => uok kend c s' D L) T s.
Proof.
  intros Hok. unfold sys_close. eapply wlp_seq; [apply argfd_wlp|]. intros [[fd f]|] s0 [-> Hf]; [|by wlp_step].
  unfold set_fd. do 2 wlp_step. pose proof (set_fd_none c s D L fd f Hok Hf) as Hok'.
  eapply wlp_seq; [apply (uok_files _ c _ (f :: D) L (fun _ => D) Hok')|].
  - apply fileclose_wlp; [done|]. eapply files_ok_perm; [apply Hok'| |done]. by rewrite Permutation_middle.
  - intros [] s' [Hs' _]. by wlp_step.
Qed.

Lemma sys_read_wlp c s D L :
  uok kend c s D L -> wlp (sys_read dev_read) (fun _ s' => uok kend c s' D L) T s.
Proof.
  intros Hok. unfold sys_read, arg. eapply wlp_seq; [apply argfd_wlp|]. intros r s0 [-> Hf]. do 2 wlp_step.
  destruct r as [[fd f]|], (argint (up s) 2) as [n|]; try by wlp_step. do 2 wlp_step.
  destruct (argptr (up s) 1 n) as [p|]; [|by wlp_step]. do 2 wlp_step.
  eapply wlp_seq; [apply (uok_files _ c s D L (fun _ => D) Hok)|].
  - eapply (fileread_wlp kend); try done; [apply Hok|]. apply elem_of_app. left. by eapply fd_in.
  - intros [r bs] s' [[H1 H2 H4] _]. unfold store. do 2 wlp_step. by wlp_step.
Qed.

Lemma sys_write_wlp c s D L :
  uok kend c s D L -> wlp (sys_write dev_write) (fun _ s' => uok kend c s' D L) T s.
Proof.
  intros Hok. unfold sys_write, arg. eapply wlp_seq; [apply argfd_wlp|]. intros r s0 [-> Hf]. do 2 wlp_step.
  destruct r as [[fd f]|], (argint (up s) 2) as [n|]; try by wlp_step. do 2 wlp_step.
  destruct (argptr (up s) 1 n) as [p|]; [|by wlp_step]. do 4 wlp_step.
  eapply wlp_mono; [apply (uok_files _ c s D L (fun _ => D) Hok)| |done].
  - eapply (filewrite_wlp kend); try done; [apply Hok|]. apply elem_of_app. left. by eapply fd_in.
  - by intros r s' [Hs' _].
Qed.

Lemma sys_fstat_wlp c s D L :
  uok kend c s D L -> wlp sys_fstat (fun _ s' => uok kend c s' D L) T s.
Proof.
  intros Hok. unfold sys_fstat, arg. eapply wlp_seq; [apply argfd_wlp|]. intros r s0 [-> Hf]. do 2 wlp_step.
  destruct r as [[fd f]|], (argptr (up s) 1 20) as [a|]; try by wlp_step.
  eapply wlp_seq; [apply (uok_files _ c s D L (fun _ => D) Hok), filestat_wlp, Hok|].
  intros [st|] s' [[H1 H2 H4] _]; [|by wlp_step]. do 2 wlp_step. by wlp_step.
Qed.

Lemma sys_ioctl_wlp c s D L :
  uok kend c s D L -> wlp (sys_ioctl dev_ioctl) (fun _ s' => uok kend c s' D L) T s.
Proof.
  intros Hok. unfold sys_ioctl, arg. eapply wlp_seq; [apply argfd_wlp|]. intros r s0 [-> Hf]. do 4 wlp_step.
  destruct r as [[fd f]|], (argint (up s) 1) as [req|], (argint (up s) 2) as [p|]; try by wlp_step.
  eapply wlp_mono; [apply (uok_files _ c s D L (fun _ => D) Hok); eapply fileioctl_wlp; [done|apply Hok]| |done].
  by intros r s' [Hs' _].
Qed.
(** ** Paths *)

Lemma namei_wlp c s D L path :
  uok kend c s D L ->
  wlp (namei_ path) (fun r s' => uok kend c s' D (match r with Some i => i :: L | None => L end)) T s.
Proof.
  intros Hok. unfold namei_. do 2 wlp_step. pose proof (uo_cwd _ _ _ _ _ Hok) as ->.
  by eapply uok_fs; [|apply moves_namei].
Qed.

Lemma nameiparent_wlp c s D L path :
  uok kend c s D L ->
  wlp (nameiparent_ stack_name path) (fun r s' => uok kend c s' D (match r.1 with Some i => i :: L | None => L end)) T s.
Proof.
  intros Hok. unfold nameiparent_. do 2 wlp_step. pose proof (uo_cwd _ _ _ _ _ Hok) as ->.
  by eapply uok_fs; [|apply moves_nameiparent].
Qed.

Lemma moves_link_undo c i L : moves c (link_undo i) (i :: L) (fun _ => L).
Proof.
  intros x F Hx. unfold link_undo. huse i (keeps_ilock i). intros [] x1 Hx1. hseq held_geti. intros ip x2 Hx2.
  eapply wlp_seq; [apply (held_use _ i); [exact Hx2|apply keeps_updi; done]|]. intros [] x3 Hx3.
  huse i (keeps_iupdate i i). intros [] x4 Hx4. by apply moves_iunlockput.
Qed.

Lemma sys_link_wlp c s D L :
  uok kend c s D L -> wlp (sys_link dev_read dev_write stack_name) (fun _ s' => uok kend c s' D L) T s.
Proof.
  intros Hok. unfold sys_link, arg. do 4 wlp_step.
  destruct (argstr (up s) 0) as [old|], (argstr (up s) 1) as [new|]; try by wlp_step. do 4 wlp_step.
  eapply wlp_seq; [by apply namei_wlp|]. intros [i|] s1 Hok1; [|by wlp_step].
  uuse (keeps_ilock i). intros [] s2 Hok2. ufs moves_geti. intros ip s3 Hok3. wlp_step.
  { ufs moves_iunlockput. intros [] s4 Hok4. by wlp_step. }
  uupd i. intros [] s4 Hok4.
  uuse (keeps_iupdate i i). intros [] s5 Hok5. uuse (keeps_iunlock i). intros [] s6 Hok6.
  eapply wlp_seq; [by apply nameiparent_wlp|]. intros [[d|] name] s7 Hok7; simpl in Hok7.
  2: { ufs moves_link_undo. intros [] s8 Hok8. by wlp_step. }
  uuse (keeps_ilock d). intros [] s8 Hok8. ufs moves_geti. intros dip s9 Hok9. ufs moves_geti. intros ip' s10 Hok10.
  eapply (wlp_seq _ _ (fun _ s' => uok kend c s' D (d :: i :: L))).
  { wlp_step; [by wlp_step|]. by eapply uok_fs; [|apply moves_dirlink]. }
  intros r s11 Hok11. wlp_step.
  - ufs moves_iunlockput. intros [] s12 Hok12. ufs moves_link_undo. intros [] s13 Hok13. by wlp_step.
  - ufs moves_iunlockput. intros [] s12 Hok12. ufs moves_iput. intros [] s13 Hok13. by wlp_step.
Qed.

Lemma keeps_isdirempty d : keeps (touches d) (isdirempty dev_read d).
Proof.
  unfold isdirempty, geti. keeps_step ltac:(by eapply keeps_readi).
Qed.

Lemma sys_unlink_wlp c s D L :
  uok kend c s D L -> wlp (sys_unlink dev_read dev_write stack_name) (fun _ s' => uok kend c s' D L) T s.
Proof.
  intros Hok. unfold sys_unlink, arg. do 2 wlp_step.
  destruct (argstr (up s) 0) as [path|]; [|by wlp_step]. do 2 wlp_step.
  eapply wlp_seq; [by apply nameiparent_wlp|]. intros [[d|] name] s1 Hok1; simpl in Hok1; [|by wlp_step].
  uuse (keeps_ilock d). intros [] s2 Hok2. wlp_step.
  { ufs moves_iunlockput. intros [] s3 Hok3. by wlp_step. }
  ufs moves_dirlookup. intros [[i off]|] s3 Hok3.
  2: { ufs moves_iunlockput. intros [] s4 Hok4. by wlp_step. }
  uuse (keeps_ilock i). intros [] s4 Hok4. ufs moves_geti. intros ip s5 Hok5. wlp_step; [by wlp_step|].
  eapply (wlp_seq _ _ (fun _ s' => uok kend c s' D (i :: d :: L))).
  { wlp_step; [|by wlp_step]. uuse (keeps_isdirempty i). intros e s6 Hok6. by wlp_step. }
  intros full s6 Hok6. wlp_step.
  { ufs moves_iunlockput. intros [] s7 Hok7. ufs moves_iunlockput. intros [] s8 Hok8. by wlp_step. }
  eapply wlp_seq; [eapply uok_fs; [exact Hok6|eapply moves_use; by eapply keeps_writei]|cbv beta]. intros w s7 Hok7.
  wlp_step; [by wlp_step|].
  eapply (wlp_seq _ _ (fun _ s' => uok kend c s' D (i :: d :: L))).
  { wlp_step; [|done]. ufs moves_geti. intros dip s8 Hok8.
    uupd d. intros [] s9 Hok9.
    by eapply uok_fs; [|eapply moves_use, (keeps_iupdate d d)]. }
  intros [] s8 Hok8. eapply uok_perm in Hok8; [|done|apply Permutation_swap].
  ufs moves_iunlockput. intros [] s9 Hok9. ufs moves_geti. intros ip' s10 Hok10.
  uupd i. intros [] s11 Hok11.
  uuse (keeps_iupdate i i). intros [] s12 Hok12. ufs moves_iunlockput. intros [] s13 Hok13. by wlp_step.
Qed.

Lemma create_wlp c s D L path type major minor :
  uok kend c s D L ->
  wlp (create dev_read dev_write stack_name path type major minor)
    (fun r s' => uok kend c s' D (match r with Some i => i :: L | None => L end)) T s.
Proof.
  intros Hok. unfold create.
  eapply wlp_seq; [by apply nameiparent_wlp|]. intros [[d|] name] s1 Hok1; simpl in Hok1; [|by wlp_step].
  uuse (keeps_ilock d). intros [] s2 Hok2. ufs moves_dirlookup. intros [[i off]|] s3 Hok3.
  { eapply uok_perm in Hok3; [|done|apply Permutation_swap].
    ufs moves_iunlockput. intros [] s4 Hok4. uuse (keeps_ilock i). intros [] s5 Hok5.
    ufs moves_geti. intros ip s6 Hok6. wlp_step; [by wlp_step|].
    ufs moves_iunlockput. intros [] s7 Hok7. by wlp_step. }
  ufs moves_geti. intros dip s4 Hok4. ufs moves_ialloc. intros i s5 Hok5.
  uuse (keeps_ilock i). intros [] s6 Hok6.
  uupd i. intros [] s7 Hok7.
  uuse (keeps_iupdate i i). intros [] s8 Hok8. ufs moves_geti. intros ip s9 Hok9.
  eapply (wlp_seq _ _ (fun _ s' => uok kend c s' D (i :: d :: L))).
  { wlp_step; [|done]. ufs moves_geti. intros dip' s10 Hok10.
    uupd d. intros [] s11 Hok11.
    uuse (keeps_iupdate d d). intros [] s12 Hok12. ufs moves_dirlink. intros r1 s13 Hok13.
    eapply (wlp_seq _ _ (fun _ s' => uok kend c s' D (i :: d :: L))).
    { wlp_step; [by wlp_step|]. ufs moves_geti. intros dip2 s14 Hok14. by eapply uok_fs; [|apply moves_dirlink]. }
    intros r2 s14 Hok14. wlp_step; [by wlp_step|done]. }
  intros [] s10 Hok10. ufs moves_dirlink. intros r s11 Hok11. wlp_step; [by wlp_step|].
  eapply uok_perm in Hok11; [|done|apply Permutation_swap].
  ufs moves_iunlockput. intros [] s12 Hok12. by wlp_step.
Qed.

Lemma sys_mkdir_wlp c s D L :
  uok kend c s D L -> wlp (sys_mkdir dev_read dev_write stack_name) (fun _ s' => uok kend c s' D L) T s.
Proof.
  intros Hok. unfold sys_mkdir, arg. do 2 wlp_step. destruct (argstr (up s) 0); [|by wlp_step]. do 2 wlp_step.
  eapply wlp_seq; [by apply create_wlp|]. intros [i|] s1 Hok1; [|by wlp_step].
  ufs moves_iunlockput. intros [] s2 Hok2. by wlp_step.
Qed.

Lemma sys_mknod_wlp c s D L :
  uok kend c s D L -> wlp (sys_mknod dev_read dev_write stack_name) (fun _ s' => uok kend c s' D L) T s.
Proof.
  intros Hok. unfold sys_mknod, arg. do 6 wlp_step.
  destruct (argstr (up s) 0), (argint (up s) 1), (argint (up s) 2); try by wlp_step. do 2 wlp_step.
  eapply wlp_seq; [by apply create_wlp|]. intros [i|] s1 Hok1; [|by wlp_step].
  ufs moves_iunlockput. intros [] s2 Hok2. by wlp_step.
Qed.

Lemma sys_chdir_wlp c s D L :
  uok kend c s D L -> wlp sys_chdir (fun _ s' => exists c', uok kend c' s' D L) T s.
Proof.
  intros Hok. unfold sys_chdir, arg. do 2 wlp_step.
  destruct (argstr (up s) 0); [|wlp_step; by exists c]. do 2 wlp_step.
  eapply wlp_seq; [by apply namei_wlp|]. intros [i|] s1 Hok1; [|wlp_step; by exists c].
  uuse (keeps_ilock i). intros [] s2 Hok2. ufs moves_geti. intros ip s3 Hok3. wlp_step.
  { ufs moves_iunlockput. intros [] s4 Hok4. wlp_step. by exists c. }
  uuse (keeps_iunlock i). intros [] s4 [H1 H2 H4]. do 2 wlp_step. rewrite H1.
  eapply (wlp_seq _ _ (fun _ s' => length (ofile s') = 16%nat /\
            files_ok kend (kfs s') (omap id (ofile s') ++ D) (i :: L))).
  { unfold on_fs_, on_files. wlp_step. eapply wlp_mono; [eapply (files_ok_fs kend _ (fun _ => i :: L)); [exact H4|]| |done].
    - apply held_iput. pose proof (fo_inode _ _ _ _ H4) as Hi. by rewrite <- Permutation_middle in Hi.
    - intros [] k [Hk _]. done. }
  intros [] s5 [H5 H6]. do 2 wlp_step. wlp_step. exists i. by split.
Qed.

(** A descriptor's file that [filealloc] has just made. *)
Lemma sys_open_finish c s D L f x i fd r b :
  uok kend c s D (i :: L) -> ftable (kfs s) !! f = Some x -> f_type x = FD_NONE -> f ∈ omap id (ofile s) ->
  wlp (on_fs_ (iunlock i);;
       on_files (updf f (fun x => File FD_INODE (f_ref x) r b (f_pipe x) i 0));; mret fd)
    (fun (_ : Z) s' => uok kend c s' D L) T s.
Proof.
  intros [H1 H2 H4] Hf Hx Hin.
  eapply (wlp_seq _ _ (fun _ s' => uok kend c s' D (i :: L) /\ ftable (kfs s') = ftable (kfs s) /\ ofile s' = ofile s)).
  { unfold on_fs_, on_files. wlp_step. eapply wlp_mono; [eapply (files_ok_use kend _ i); [exact H4|apply keeps_iunlock]| |done].
    intros [] k [Hk Ht]. simpl. by split. }
  intros [] s' ([H1' H2' H4'] & Ht & Ho). wlp_step. unfold on_files. wlp_step.
  destruct s' as [u o w [t P k l y]]. simpl in *. eapply wlp_updf; [by rewrite Ht|]. wlp_step. split; simpl; try done.
  eapply files_ok_open; [|by rewrite Ht|done|].
  - eapply files_ok_perm; [exact H4'|done|apply Permutation_swap].
  - apply elem_of_app. left. by rewrite Ho.
Qed.

Lemma sys_open_wlp c s D L :
  uok kend c s D L -> wlp (sys_open kend dev_read dev_write stack_name) (fun _ s' => uok kend c s' D L) T s.
Proof.
  intros Hok. unfold sys_open, arg. do 4 wlp_step.
  destruct (argstr (up s) 0) as [path|], (argint (up s) 1) as [omode|]; try by wlp_step. do 2 wlp_step.
  eapply (wlp_seq _ _ (fun r s' => uok kend c s' D (match r with Some i => i :: L | None => L end))).
  { wlp_step; [by apply create_wlp|]. eapply wlp_seq; [by apply namei_wlp|]. intros [i|] s1 Hok1; [|by wlp_step].
    uuse (keeps_ilock i). intros [] s2 Hok2. ufs moves_geti. intros ip s3 Hok3. wlp_step; [|by wlp_step].
    ufs moves_iunlockput. intros [] s4 Hok4. by wlp_step. }
  intros [i|] s1 Hok1; [|by wlp_step]. pose proof Hok1 as [H1 H2 H4].
  eapply (wlp_seq _ _ (fun r s' => match r with
            | None => uok kend c s' D (i :: L)
            | Some f => uok kend c s' (f :: D) (i :: L) /\ exists x, ftable (kfs s') !! f = Some x /\ f_type x = FD_NONE
            end)).
  { unfold on_files. wlp_step. eapply wlp_mono; [by eapply (filealloc_wlp kend)| |done].
    intros [f|] k; simpl; [|intros Hk; by split]. intros (Hk & _ & x & Hx & Hty & Ht). split.
    - split; [done|done|]. eapply files_ok_perm; [exact Hk|by rewrite Permutation_middle|done].
    - exists (set_fref 1 x). rewrite Ht. split; [|done]. apply list_lookup_insert_eq. by eapply lookup_lt_Some. }
  intros [f|] s2; [|intros Hok2; ufs moves_iunlockput; intros [] s3 Hok3; by wlp_step].
  intros (Hok2 & x & Hx & Hty). eapply wlp_seq; [by apply fdalloc_wlp|].
  intros fd s3 [[Hfd ->]|(Hfd & Hok3 & Hof & Hk)]; wlp_step; try lia.
  - eapply (wlp_seq _ _ (fun _ s' => uok kend c s' D (i :: L))).
    + eapply wlp_mono; [apply (uok_files _ c s2 (f :: D) (i :: L) (fun _ => D) Hok2)| |done]; [|by intros [] s4 [? _]].
      apply fileclose_wlp; [done|]. eapply files_ok_perm; [apply Hok2|by rewrite Permutation_middle|done].
    + intros [] s4 Hok4. ufs moves_iunlockput. intros [] s5 Hok5. by wlp_step.
  - eapply sys_open_finish; [done|by rewrite Hk|done|by eapply fd_in].
Qed.

Lemma sys_pipe_wlp c s D L :
  uok kend c s D L -> wlp (sys_pipe kend) (fun _ s' => uok kend c s' D L) T s.
Proof.
  intros Hok. unfold sys_pipe, arg. do 2 wlp_step. destruct (argptr (up s) 0 8) as [a|]; [|by wlp_step].
  pose proof Hok as [H1 H2 H4].
  eapply wlp_seq; [apply (uok_files _ c s D L (fun r => match r with Some (f0, f1) => f1 :: f0 :: D | None => D end) Hok)|].
  { eapply wlp_mono; [by eapply (pipealloc_wlp kend)| |done]. intros [[f0 f1]|] k Hk; [|done].
    eapply files_ok_perm; [exact Hk| |done]. by rewrite !Permutation_middle. }
  intros [[rf wf]|] s1 [Hok1 _]; [|by wlp_step]. eapply uok_perm in Hok1; [|apply Permutation_swap|done].
  assert (Hundo : forall s', uok kend c s' (rf :: wf :: D) L ->
            wlp (on_files (fileclose kend rf);; on_files (fileclose kend wf);; mret (-1)) (fun (_ : Z) s' => uok kend c s' D L) T s').
  { clear -Hkend. intros s Hok.
    eapply wlp_seq; [apply (uok_files _ c s _ L (fun _ => wf :: D) Hok)|].
    - apply fileclose_wlp; [done|]. eapply files_ok_perm; [apply Hok|by rewrite Permutation_middle|done].
    - intros [] s1 [Hok1 _]. eapply wlp_seq; [apply (uok_files _ c s1 _ L (fun _ => D) Hok1)|].
      + apply fileclose_wlp; [done|]. eapply files_ok_perm; [apply Hok1|by rewrite Permutation_middle|done].
      + intros [] s2 [Hok2 _]. by wlp_step. }
  eapply wlp_seq; [by apply fdalloc_wlp|]. intros fd0 s2 [[Hfd ->]|(Hfd & Hok2 & Hof & Hk)].
  - replace (fd0 <? 0) with true by lia. wlp_step. wlp_step. simpl. replace (0 <=? fd0) with false by lia.
    wlp_step. wlp_step; [done|]. by apply Hundo.
  - replace (fd0 <? 0) with false by lia. eapply wlp_seq; [by apply fdalloc_wlp|].
    intros fd1 s3 [[Hfd1 ->]|(Hfd1 & Hok3 & _ & _)].
    + replace (fd1 <? 0) with true by lia. replace (0 <=? fd0) with true by lia. simpl. unfold set_fd.
      do 2 wlp_step. apply Hundo. by apply set_fd_none.
    + replace (fd1 <? 0) with false by lia. unfold store. simpl. do 4 wlp_step. wlp_step. destruct Hok3. by split.
Qed.

(** ** All processes together *)

(** One system call of sysfile.c, run to its return (or, for [sys_write] on a
    full pipe, to where the writer sleeps).  [exec] is not among them: it is a
    call of its own. *)
Inductive filecall : ustate S -> ustate S -> Prop :=
| fc_dup s r s' : sys_dup s = Ok r s' -> filecall s s'
| fc_read s r s' : sys_read dev_read s = Ok r s' -> filecall s s'
| fc_write s r s' : sys_write dev_write s = Ok r s' -> filecall s s'
| fc_close s r s' : sys_close kend s = Ok r s' -> filecall s s'
| fc_fstat s r s' : sys_fstat s = Ok r s' -> filecall s s'
| fc_link s r s' : sys_link dev_read dev_write stack_name s = Ok r s' -> filecall s s'
| fc_unlink s r s' : sys_unlink dev_read dev_write stack_name s = Ok r s' -> filecall s s'
| fc_open s r s' : sys_open kend dev_read dev_write stack_name s = Ok r s' -> filecall s s'
| fc_mkdir s r s' : sys_mkdir dev_read dev_write stack_name s = Ok r s' -> filecall s s'
| fc_mknod s r s' : sys_mknod dev_read dev_write stack_name s = Ok r s' -> filecall s s'
| fc_chdir s r s' : sys_chdir s = Ok r s' -> filecall s s'
| fc_pipe s r s' : sys_pipe kend s = Ok r s' -> filecall s s'
| fc_ioctl s r s' : sys_ioctl dev_ioctl s = Ok r s' -> filecall s s'.

Lemma filecall_uok c s s' D L :
  filecall s s' -> uok kend c s D L -> Z.of_nat (length D) < 2 ^ 30 -> exists c', uok kend c' s' D L.
Proof.
  intros Hcall Hok Hmany.
  assert (Hc : forall m r, wlp m (fun (_ : Z) s' => uok kend c s' D L) T s -> m s = Ok r s' -> exists c', uok kend c' s' D L).
  { intros m r Hm Hr. exists c. exact (wlp_ok _ _ _ _ _ _ Hm Hr). }
  destruct Hcall.
  - by eapply Hc; [apply sys_dup_wlp|].
  - by eapply Hc; [apply sys_read_wlp|].
  - exists c. by eapply (wlp_ok _ (fun _ s' => uok kend c s' D L) T); [apply sys_write_wlp|].
  - by eapply Hc; [apply sys_close_wlp|].
  - by eapply Hc; [apply sys_fstat_wlp|].
  - by eapply Hc; [apply sys_link_wlp|].
  - by eapply Hc; [apply sys_unlink_wlp|].
  - by eapply Hc; [apply sys_open_wlp|].
  - by eapply Hc; [apply sys_mkdir_wlp|].
  - by eapply Hc; [apply sys_mknod_wlp|].
  - by eapply (wlp_ok _ (fun _ s' => exists c', uok kend c' s' D L) T); [apply (sys_chdir_wlp c)|].
  - by eapply Hc; [apply sys_pipe_wlp|].
  - by eapply Hc; [apply sys_ioctl_wlp|].
Qed.

(** What the calls use of each process. *)
Record fproc := FProc { fp_up : uproc; fp_ofile : list (option nat); fp_cwd : nat }.

(** Any process makes a call, or changes its own memory and registers. *)
Inductive fstep : list fproc * files S -> list fproc * files S -> Prop :=
| fs_call ps k i q s' :
    ps !! i = Some q -> filecall (UState (fp_up q) (fp_ofile q) (fp_cwd q) k) s' ->
    fstep (ps, k) (<[i := FProc (up s') (ofile s') (cwd s')]> ps, kfs s')
| fs_user ps k i q u :
    ps !! i = Some q -> fstep (ps, k) (<[i := FProc u (fp_ofile q) (fp_cwd q)]> ps, k).

Definition descriptors (ps : list fproc) : list nat := ps ≫= (fun q => omap id (fp_ofile q)).

(** No descriptor, file, pipe, page or inode reference is unaccounted for. *)
Definition all_ok (ps : list fproc) (k : files S) : Prop :=
  (length ps <= 64)%nat /\ Forall (fun q => length (fp_ofile q) = 16%nat) ps /\
  files_ok kend k (descriptors ps) (fp_cwd <$> ps).

Lemma length_all_descriptors ps :
  Forall (fun q => length (fp_ofile q) = 16%nat) ps -> (length (descriptors ps) <= 16 * length ps)%nat.
Proof.
  induction 1 as [|q ps Hq _ IH]; [done|].
  change (descriptors (q :: ps)) with (omap id (fp_ofile q) ++ descriptors ps). rewrite length_app. cbn [length].
  pose proof (length_descriptors (fp_ofile q)). lia.
Qed.

Lemma fstep_ok ps k ps' k' : fstep (ps, k) (ps', k') -> all_ok ps k -> all_ok ps' k'.
Proof.
  intros Hstep (Hlen & Hof & Hok).
  assert (Hq : exists i q, ps !! i = Some q /\ exists q', ps' = <[i := q']> ps /\
            (filecall (UState (fp_up q) (fp_ofile q) (fp_cwd q) k) (UState (fp_up q') (fp_ofile q') (fp_cwd q') k') \/
             k' = k /\ fp_ofile q' = fp_ofile q /\ fp_cwd q' = fp_cwd q)).
  { inversion Hstep as [? ? i q s' Hi Hc|? ? i q u Hi]; subst; exists i, q; (split; [done|]); eexists; (split; [done|]).
    - left. by destruct s'.
    - by right. }
  destruct Hq as (i & q & Hi & q' & -> & Hq). pose proof Hof as Hof'.
  pose proof Hi as Hsplit. apply list_elem_of_split_length in Hsplit as (l1 & l2 & -> & ->).
  rewrite insert_app_r_alt, Nat.sub_diag by lia. simpl.
  apply Forall_app in Hof as [Hof1 [Hofq Hof2]%Forall_cons].
  set (D := descriptors l1 ++ descriptors l2). set (L := (fp_cwd <$> l1) ++ (fp_cwd <$> l2)).
  assert (HD : forall q, descriptors (l1 ++ q :: l2) ≡ₚ omap id (fp_ofile q) ++ D).
  { intros r. unfold descriptors, D. rewrite bind_app. simpl. by rewrite Permutation_app_swap_app. }
  assert (HL : forall q, fp_cwd <$> (l1 ++ q :: l2) ≡ₚ fp_cwd q :: L).
  { intros r. unfold L. rewrite fmap_app. simpl. by rewrite Permutation_middle. }
  assert (HDlen : Z.of_nat (length D) < 2 ^ 30).
  { unfold D. rewrite length_app. pose proof (length_all_descriptors l1 Hof1). pose proof (length_all_descriptors l2 Hof2).
    rewrite length_app in Hlen. simpl in Hlen. lia. }
  destruct Hq as [Hcall|(-> & Eo & Ec)].
  - destruct (filecall_uok (fp_cwd q) _ _ D L Hcall) as (c' & [H1 H2 H4]); [|done|].
    { split; [done|done|]. simpl. by eapply files_ok_perm. }
    simpl in *. split; [|split].
    + rewrite length_app in *. by simpl in *.
    + by apply Forall_app; split; [|apply Forall_cons].
    + eapply files_ok_perm; [exact H4|by rewrite HD|by rewrite HL, H1].
  - split; [|split].
    + rewrite length_app in *. by simpl in *.
    + apply Forall_app. split; [done|]. apply Forall_cons. by rewrite Eo.
    + eapply files_ok_perm; [exact Hok|by rewrite !HD, Eo|by rewrite !HL, Ec].
Qed.

End Calls.

(** C19: however many processes make file system calls in whatever order, with
    whatever arguments, and whichever of the calls fail: the count of each open
    file is the number of descriptors to it and a file without descriptors is
    FD_NONE; the count of each cached inode is the number of open files on it
    plus the number of processes in it as their directory; a pipe has its read
    end open exactly when a file is its read end, the same for its write end,
    and has one of them; and its page is not on the free list. *)
Theorem file_calls_leak_nothing {S} `{HB : !BlockOps S} kend dev_read dev_write dev_ioctl stack_name
    ps (k : files S) ps' k' :
  0 < kend -> dev_frames dev_read dev_write ->
  (forall major g i req a, dev_ioctl major = Some g -> keeps (touches i) (g i req a)) ->
  all_ok kend ps k -> rtc (fstep kend dev_read dev_write dev_ioctl stack_name) (ps, k) (ps', k') ->
  (forall f x, ftable k' !! f = Some x ->
     f_ref x = cnt f (descriptors ps') /\ (f ∉ descriptors ps' -> f_type x = FD_NONE)) /\
  (forall i ip, icache (ifs k') !! i = Some ip ->
     i_ref ip = cnt i (file_inodes (ftable k')) + cnt i (fp_cwd <$> ps')) /\
  (forall a p, pipes k' !! a = Some p ->
     (forall w, end_open w p = true <-> exists f x, ftable k' !! f = Some x /\ is_end a w x) /\
     (readopen p = true \/ writeopen p = true) /\
     exists l, kinv kend (kpages k') l /\ a ∉ l).
Proof.
  intros Hkend Hdev Hioctl Hok Hrun.
  assert (Hok' : all_ok kend ps' k').
  { remember (ps, k) as s eqn:Es. remember (ps', k') as s' eqn:Es'. revert ps k Es Hok.
    induction Hrun as [s|s [ps1 k1] s' Hstep _ IH]; intros ps k -> Hok; [by simplify_eq|].
    apply (IH Es' ps1 k1 eq_refl). by eapply fstep_ok. }
  destruct Hok' as (_ & _ & [H1 H2 H4 H5 (l & Hl & Hal) H7]). split_and!.
  - intros f x Hf. split; [by apply H1|by apply H4].
  - intros i ip Hi. rewrite (held_count _ _ _ _ H7 Hi). unfold cnt. rewrite filter_app, length_app. lia.
  - intros a p Hp. split_and!.
    + intros w. split; [by apply (po_open _ _ H5)|]. intros (f & x & Hf & Ht & <- & <-).
      destruct (po_file _ _ H5 f x Hf Ht) as (q & Hq & He). by simplify_eq.
    + by eapply (po_used _ _ H5).
    + exists l. split; [done|]. by eapply Hal.
Qed.

(** ** A process opens /hello *)

Definition demo_files : files ide :=
  Files (replicate NFILE file_zero) ∅ (Kmem ∅ 0) []
        (match iget ROOTDEV ROOTINO demo_fs with Ok _ x => x | _ => demo_fs end).

(** "/hello" at address 100, and the call open("/hello", O_RDONLY). *)
Definition demo_caller : uproc :=
  UProc 4096 1000 false
    (put_bytes (put_bytes (fun _ => 0) 100 (47 :: s_hello)) 1004 (le_enc 4 100 ++ le_enc 4 O_RDONLY)).

(** The result of a run that returns. *)
Definition no_dev {A} : Z -> option A := fun _ => None.

Lemma demo_all_ok : all_ok 4096 [FProc demo_caller (replicate 16 None) 0] demo_files.
Proof.
  split; [simpl; lia|]. split; [by constructor|]. split; cbn [ftable pipes kpages ifs demo_files].
  - intros f x Hf. apply lookup_replicate in Hf as [-> _]. done.
  - intros f Hf. by apply elem_of_nil in Hf.
  - intros f x Hf _. by apply lookup_replicate in Hf as [-> _].
  - split; [|intros f g x y a w Hf _ (Hx & _) _|done|done].
    + intros f x Hf Hx. by apply lookup_replicate in Hf as [-> _].
    + by apply lookup_replicate in Hf as [-> _].
  - exists []. split; [|done]. split; [done|]. split; [constructor|constructor].
  - exists [(0%nat, (1, 1))]. split; [|reflexivity].
    assert (Hr : returned (iget ROOTDEV ROOTINO demo_fs) = Some 0%nat) by (vm_compute; reflexivity).
    apply returned_Ok in Hr as [x E]. rewrite E. apply (iget_refs demo_fs [] 1 1 0); [|exact E].
    split_and!; [|intros i j Hi; by apply elem_of_nil in Hi|].
    + intros i ip Hi. by apply lookup_replicate in Hi as [-> _].
    + intros i j ip jp Hi _ Hpos. apply lookup_replicate in Hi as [-> _]. done.
Qed.

Lemma file_calls_leak_nothing_witness :
  exists s', sys_open 4096 no_dev no_dev [] (UState demo_caller (replicate 16 None) 0 demo_files) = Ok 0 s' /\
    forall f x, ftable (kfs s') !! f = Some x -> f_ref x = cnt f (descriptors [FProc (up s') (ofile s') (cwd s')]).
Proof.
  pose (s := UState demo_caller (replicate 16 None) 0 demo_files).
  assert (Hr : returned (sys_open 4096 no_dev no_dev [] s) = Some 0) by (vm_compute; reflexivity).
  apply returned_Ok in Hr as [s' E].
  exists s'. split; [exact E|].
  destruct (file_calls_leak_nothing 4096 no_dev no_dev no_dev [] [FProc demo_caller (replicate 16 None) 0] demo_files
              [FProc (up s') (ofile s') (cwd s')] (kfs s')) as (H & _).
  - lia.
  - by split.
  - done.
  - exact demo_all_ok.
  - apply rtc_once.
    eapply (fs_call 4096 no_dev no_dev no_dev [] [FProc demo_caller (replicate 16 None) 0] demo_files 0); [reflexivity|].
    eapply fc_open. exact E.
  - intros f x Hf. by apply H.
Defined.
