(* ===== verification/Console.v ===== *)
(** * The console: [src/console.c]

    - [printint] and [cprintf]: the characters they send to [consputc];
    - [cgaputc]: the cursor and the memory of the screen;
    - the input buffer: [consoleintr] on each character typed and
      [consoleread], against a line discipline on plain lists.

    Characters sent to the console are numbers, BACKSPACE being 0x100. *)

From stdpp Require Import base numbers list strings.
From Stdlib Require Import Lia ZArith ZifyBool.
From S2P Require Import Prelude CString.
Open Scope Z_scope.

(** ** Formatted output *)

(** static char digits[] = "0123456789abcdef" *)
Definition digits : list Z := [48; 49; 50; 51; 52; 53; 54; 55; 56; 57; 97; 98; 99; 100; 101; 102].
Definition digit (d : Z) : Z := default 0 (digits !! Z.to_nat d).

(** [do buf[i++] = digits[x % base]; while((x /= base) != 0)]: [buf] from its
    start.  A uint has at most 32 digits. *)
Fixpoint printint_buf (fuel : nat) (base x : Z) : list Z :=
  match fuel with
  | O => []
  | S fuel => digit (x mod base) :: (if x / base =? 0 then [] else printint_buf fuel base (x / base))
  end.

Definition MINUS : Z := 45.

(** The characters, in the order they are printed. *)
Definition printint (xx base : Z) (sign : bool) : list Z :=
  let neg := sign && (xx <? 0) in
  let x := if neg then u32 (- xx) else u32 xx in
  let buf := printint_buf 32 base x ++ (if neg then [MINUS] else []) in
  rev buf.

Definition PERCENT : Z := 37.

(** [fmt] without its null, [args n] the n-th word after it on the stack, and
    [str p] the string at address [p]. *)
Fixpoint cprintf_from (str : Z -> list Z) (args : nat -> Z) (argp : nat) (fmt : list Z) : list Z :=
  match fmt with
  | [] => []
  | c :: fmt =>
      if negb (c =? PERCENT) then c :: cprintf_from str args argp fmt else
      match fmt with
      | [] => []
      | c :: fmt =>
          if c =? 100 then printint (s32 (args argp)) 10 true ++ cprintf_from str args (S argp) fmt
          else if (c =? 120) || (c =? 112) then
            printint (s32 (args argp)) 16 false ++ cprintf_from str args (S argp) fmt
          else if c =? 115 then
            (if args argp =? 0 then [40; 110; 117; 108; 108; 41] else str (args argp))
              ++ cprintf_from str args (S argp) fmt
          else if c =? PERCENT then PERCENT :: cprintf_from str args argp fmt
          else PERCENT :: c :: cprintf_from str args argp fmt
      end
  end.

Definition cprintf (str : Z -> list Z) (fmt : list Z) (args : nat -> Z) : list Z :=
  cprintf_from str args 0 fmt.

(** ** The screen *)

Definition BACKSPACE : Z := 0x100.

(** The CGA memory, 25 rows of 80 cells, and the cursor register. *)
Record cga := Cga { crt : list Z; cursor : Z }.

Definition set_crt (pos v : Z) (t : list Z) : list Z := <[Z.to_nat pos := v]> t.

(** [memmove(crt, crt+80, 2*23*80); memset(crt+pos, 0, 2*(24*80-pos))] *)
Definition scroll (pos : Z) (t : list Z) : list Z :=
  let t := splice 0 (slice 80 (23 * 80) t) t in
  splice (Z.to_nat pos) (replicate (Z.to_nat (24 * 80 - pos)) 0) t.

Definition cgaputc (c : Z) (s : cga) : cga :=
  let pos := cursor s in
  let '(t, pos) :=
    if c =? 10 then (crt s, pos + (80 - pos mod 80))
    else if c =? BACKSPACE then (crt s, if 0 <? pos then pos - 1 else pos)
    else (set_crt pos (Z.lor (Z.land c 0xff) 0x0700) (crt s), pos + 1) in
  let '(t, pos) := if 24 <=? pos / 80 then (scroll (pos - 80) t, pos - 80) else (t, pos) in
  Cga (set_crt pos (Z.lor 32 0x0700) t) (u16 pos).

(** What [consputc] sends to the serial port. *)
Definition uart_chars (c : Z) : list Z := if c =? BACKSPACE then [8; 32; 8] else [c].

Definition consputc (c : Z) (s : cga) (uart : list Z) : cga * list Z :=
  (cgaputc c s, uart ++ uart_chars c).

(** [consolewrite]: every byte of the buffer, in order. *)
Fixpoint consolewrite (buf : list Z) (s : cga) (uart : list Z) : cga * list Z :=
  match buf with
  | [] => (s, uart)
  | c :: buf => let '(s, uart) := consputc (Z.land c 0xff) s uart in consolewrite buf s uart
  end.

(** ** The input buffer *)

Definition INPUT_BUF : Z := 128.

Record input := Input { input_buf : list Z; input_r : Z; input_w : Z; input_e : Z }.

Definition C (x : Z) : Z := x - 64.   (* C('x') *)
Definition CTL_P : Z := C 80.
Definition CTL_U : Z := C 85.
Definition CTL_H : Z := C 72.
Definition CTL_D : Z := C 68.
Definition DEL : Z := 0x7f.
Definition NL : Z := 10.
Definition CR : Z := 13.

Definition buf_at (s : input) (i : Z) : Z := default 0 (input_buf s !! Z.to_nat (i mod INPUT_BUF)).

(** What a character makes the console do besides the buffer. *)
Inductive cons_out := Put (c : Z) | Procdump | Wakeup.

(** [while(input.e != input.w && input.buf[(input.e-1) % INPUT_BUF] != '\n')] *)
Fixpoint kill_line (fuel : nat) (s : input) : input * list cons_out :=
  match fuel with
  | O => (s, [])
  | S fuel =>
      if negb (input_e s =? input_w s) && negb (buf_at s (u32 (input_e s - 1)) =? NL) then
        let '(s', out) := kill_line fuel (Input (input_buf s) (input_r s) (input_w s) (u32 (input_e s - 1))) in
        (s', Put BACKSPACE :: out)
      else (s, [])
  end.

(** One round of the loop of [consoleintr]. *)
Definition cons_key (c : Z) (s : input) : input * list cons_out :=
  if c =? CTL_P then (s, [Procdump])
  else if c =? CTL_U then kill_line (Z.to_nat INPUT_BUF + 1) s
  else if (c =? CTL_H) || (c =? DEL) then
    if negb (input_e s =? input_w s) then (Input (input_buf s) (input_r s) (input_w s) (u32 (input_e s - 1)), [Put BACKSPACE]) else (s, [])
  else if negb (c =? 0) && (u32 (input_e s - input_r s) <? INPUT_BUF) then
    let c := if c =? CR then NL else c in
    let b := <[Z.to_nat (input_e s mod INPUT_BUF) := u8 c]> (input_buf s) in
    let e' := u32 (input_e s + 1) in
    if (c =? NL) || (c =? CTL_D) || (e' =? u32 (input_r s + INPUT_BUF))
    then (Input b (input_r s) e' e', [Put c; Wakeup])
    else (Input b (input_r s) (input_w s) e', [Put c])
  else (s, []).

(** [consoleintr]: [getc] gives [cs], then a negative number. *)
Fixpoint consoleintr (cs : list Z) (s : input) : input * list cons_out :=
  match cs with
  | [] => (s, [])
  | c :: cs => let '(s1, o1) := cons_key c s in
               let '(s2, o2) := consoleintr cs s1 in (s2, o1 ++ o2)
  end.

(** How [consoleread] goes on: it returns, or sleeps on &input.r with [n] bytes
    still wanted. *)
Inductive cresult := CRet (res : Z) (dst : list Z) | CSleep (n : nat) (dst : list Z).

Fixpoint cread (killed : bool) (target : Z) (n : nat) (dst : list Z) (s : input) : input * cresult :=
  match n with
  | O => (s, CRet target dst)
  | S n' =>
      if input_r s =? input_w s then
        if killed then (s, CRet (-1) dst) else (s, CSleep n dst)
      else
        let c := buf_at s (input_r s) in
        let s1 := Input (input_buf s) (u32 (input_r s + 1)) (input_w s) (input_e s) in
        if c =? CTL_D then
          (if Z.of_nat n <? target then s else s1, CRet (target - Z.of_nat n) dst)
        else if c =? NL then (s1, CRet (target - Z.of_nat n') (dst ++ [c]))
        else cread killed target n' (dst ++ [c]) s1
  end.

Definition consoleread (killed : bool) (n : Z) (s : input) : input * cresult :=
  if n <=? 0 then (s, CRet 0 []) else cread killed n (Z.to_nat n) [] s.

(** ** Numbers are printed in full and fit their buffer *)

Definition digit_val (c : Z) : Z := if c <? 58 then c - 48 else c - 87.
Definition numeral (base : Z) (ds : list Z) : Z := foldl (fun a d => a * base + digit_val d) 0 ds.

Lemma digit_val_digit d : 0 <= d < 16 -> digit_val (digit d) = d.
Proof.
  intros Hd. assert (Hall : Forall (fun d => digit_val (digit d) = d) (seqZ 0 16)) by (by repeat constructor).
  rewrite Forall_forall in Hall. apply Hall, elem_of_seqZ. lia.
Qed.

Lemma numeral_snoc base ds d : numeral base (ds ++ [d]) = numeral base ds * base + digit_val d.
Proof. unfold numeral. by rewrite foldl_app. Qed.

(** The digits of [x], the last one first. *)
Lemma printint_buf_spec fuel base x :
  2 <= base <= 16 -> 0 <= x < base ^ Z.of_nat fuel ->
  numeral base (rev (printint_buf fuel base x)) = x /\
  (forall k, x < base ^ Z.of_nat k -> (0 < k)%nat -> (length (printint_buf fuel base x) <= k)%nat) /\
  ((0 < fuel)%nat -> printint_buf fuel base x <> []).
Proof.
  intros Hb. revert x. induction fuel as [|fuel IH]; intros x Hx.
  { change (base ^ Z.of_nat 0) with 1 in Hx. simpl. unfold numeral. simpl. split_and!; [lia|lia|lia]. }
  rewrite Nat2Z.inj_succ, Z.pow_succ_r in Hx by lia.
  pose proof (Z.mod_pos_bound x base). pose proof (Z.div_mod x base).
  assert (Hdiv : 0 <= x / base < base ^ Z.of_nat fuel).
  { split; [apply Z.div_pos; lia|]. apply Z.div_lt_upper_bound; lia. }
  cbn [printint_buf rev]. rewrite numeral_snoc, digit_val_digit by lia.
  destruct (x / base =? 0) eqn:E.
  - split_and!; [unfold numeral; simpl; lia|simpl; lia|done].
  - destruct (IH _ Hdiv) as (Hv & Hk & _). split_and!; [|intros k Hxk Hk0; simpl; destruct k as [|k]; [lia|]|done].
    + rewrite Hv. lia.
    + rewrite Nat2Z.inj_succ, Z.pow_succ_r in Hxk by lia. apply le_n_S, Hk.
      * apply Z.div_lt_upper_bound; lia.
      * destruct k; [|lia]. change (base ^ Z.of_nat 0) with 1 in Hxk. Z.div_mod_to_equations. nia.
Qed.

(** [printint] prints the number it is given, in base 10 with its sign or in
    base 16, for every int, and never stores more than 11 characters in its
    16-byte buffer. *)
Theorem printint_correct xx :
  - 2 ^ 31 <= xx < 2 ^ 31 ->
  (exists ds, printint xx 10 true = (if xx <? 0 then MINUS :: ds else ds) /\ ds <> [] /\
     numeral 10 ds = Z.abs xx) /\
  numeral 16 (printint xx 16 false) = u32 xx /\
  (length (printint xx 10 true) <= 11)%nat /\ (length (printint xx 16 false) <= 8)%nat.
Proof.
  intros Hx. unfold printint. cbn [andb].
  assert (Habs : (if xx <? 0 then u32 (- xx) else u32 xx) = Z.abs xx).
  { destruct (xx <? 0) eqn:E; unfold u32; rewrite Z.mod_small by lia; lia. }
  rewrite Habs, app_nil_r.
  destruct (printint_buf_spec 32 10 (Z.abs xx)) as (Hv & Hk & Hne); [lia|change (10 ^ Z.of_nat 32) with (10 ^ 32); lia|].
  pose proof (u32_range xx) as Hr.
  destruct (printint_buf_spec 32 16 (u32 xx)) as (Hv' & Hk' & _); [lia|change (16 ^ Z.of_nat 32) with (16 ^ 32); lia|].
  split_and!.
  - exists (rev (printint_buf 32 10 (Z.abs xx))). split_and!; [|intros E; apply (f_equal (@rev Z)) in E|done].
    + rewrite rev_app_distr. by destruct (xx <? 0).
    + rewrite rev_involutive in E. by apply Hne in E; [|lia].
  - done.
  - rewrite length_rev, length_app. specialize (Hk 10%nat ltac:(change (10 ^ Z.of_nat 10) with 10000000000; lia) ltac:(lia)).
    destruct (xx <? 0); cbn [length]; lia.
  - rewrite length_rev. apply Hk'; [change (16 ^ Z.of_nat 8) with (2 ^ 32); lia|lia].
Qed.

Lemma printint_correct_witness : numeral 16 (printint (-1) 16 false) = 2 ^ 32 - 1.
Proof. apply (printint_correct (-1)). lia. Defined.

(** ** The cursor stays on the screen *)

Definition cga_ok (s : cga) : Prop := length (crt s) = 2000%nat /\ 0 <= cursor s < 24 * 80.

Definition cell (c : Z) : Z := Z.lor (Z.land c 0xff) 0x0700.

Lemma lookup_set_crt pos v t i :
  0 <= pos < Z.of_nat (length t) ->
  set_crt pos v t !! i = if decide (i = Z.to_nat pos) then Some v else t !! i.
Proof.
  intros Hp. unfold set_crt. case_decide as E; [subst; rewrite list_lookup_insert_eq by lia; done|].
  by rewrite list_lookup_insert_ne.
Qed.

Lemma length_scroll pos t : 0 <= pos <= 24 * 80 -> length t = 2000%nat -> length (scroll pos t) = 2000%nat.
Proof.
  intros Hp Ht. unfold scroll.
  assert (H1 : length (splice 0 (slice 80 (23 * 80) t) t) = 2000%nat)
    by (rewrite length_splice; rewrite ?length_slice; lia).
  rewrite length_splice; rewrite ?length_replicate; lia.
Qed.

(** Row [i / 80] of the screen after [scroll] is the row below it before, the
    last line is blank, and what is below the 24 lines in use is as before. *)
Lemma lookup_scroll pos t i :
  length t = 2000%nat -> 23 * 80 <= pos <= 24 * 80 ->
  scroll pos t !! i =
    if (i <? 23 * 80)%nat then t !! (i + 80)%nat
    else if (Z.to_nat pos <=? i)%nat && (i <? 24 * 80)%nat then Some 0 else t !! i.
Proof.
  intros Ht Hp. unfold scroll.
  assert (Hl : length (slice 80 (23 * 80) t) = (23 * 80)%nat) by (rewrite length_slice; lia).
  assert (H1 : length (splice 0 (slice 80 (23 * 80) t) t) = 2000%nat) by (rewrite length_splice; lia).
  destruct (decide (Z.to_nat pos <= i < 1920)%nat) as [Hin|Hout].
  - rewrite lookup_splice_in by (rewrite ?length_replicate; lia).
    rewrite lookup_replicate_2 by lia. replace (i <? 23 * 80)%nat with false by lia.
    by replace ((Z.to_nat pos <=? i)%nat && (i <? 24 * 80)%nat) with true by lia.
  - rewrite lookup_splice_out by (rewrite ?length_replicate; lia).
    replace ((Z.to_nat pos <=? i)%nat && (i <? 24 * 80)%nat) with false by lia.
    destruct (i <? 23 * 80)%nat eqn:E.
    + rewrite lookup_splice_in by lia. rewrite Nat.sub_0_r, lookup_slice by lia. f_equal. lia.
    + by rewrite lookup_splice_out by lia.
Qed.

(** The console never writes outside the 24 lines it uses.  From a cursor
    on the screen, any character (a newline and BACKSPACE included) leaves the
    cursor on the screen and the 25th line untouched; a printable character
    that does not end the screen appears where the cursor was, the cursor moves
    one cell on and is shown as a blank, and no other cell changes. *)
Theorem cgaputc_stays_on_screen c s :
  cga_ok s ->
  cga_ok (cgaputc c s) /\
  (forall i, (24 * 80 <= i)%nat -> crt (cgaputc c s) !! i = crt s !! i) /\
  (c <> 10 -> c <> BACKSPACE -> cursor s < 24 * 80 - 1 ->
   cursor (cgaputc c s) = cursor s + 1 /\
   crt (cgaputc c s) !! Z.to_nat (cursor s) = Some (cell c) /\
   forall i, i <> Z.to_nat (cursor s) -> i <> Z.to_nat (cursor s + 1) -> crt (cgaputc c s) !! i = crt s !! i).
Proof.
  intros [Hl Hc]. unfold cgaputc.
  set (st := if c =? 10 then _ else _).
  assert (Hst : exists t pos, st = (t, pos) /\ length t = 2000%nat /\ 0 <= pos <= 24 * 80 /\
     (forall i, (1920 <= i)%nat -> t !! i = crt s !! i) /\
     (c <> 10 -> c <> BACKSPACE -> pos = cursor s + 1 /\ t = set_crt (cursor s) (cell c) (crt s))).
  { unfold st. destruct (c =? 10) eqn:E1; [|destruct (c =? BACKSPACE) eqn:E2]; eexists _, _; (split; [done|]).
    - split_and!; [done|Z.div_mod_to_equations; lia|Z.div_mod_to_equations; lia|done|lia].
    - split_and!; [done|case_match; lia|case_match; lia|done|lia].
    - split_and!; [unfold set_crt; by rewrite length_insert|lia|lia| |done].
      intros i Hi. rewrite lookup_set_crt by lia. rewrite decide_False by lia. done. }
  destruct Hst as (t & pos & -> & Ht & Hp & Hrest & Hput). destruct (24 <=? pos / 80) eqn:E; cbn [crt cursor].
  - assert (pos = 1920) as -> by (Z.div_mod_to_equations; lia). rewrite (u16_small (1920 - 80)) by lia.
    pose proof (length_scroll (1920 - 80) t ltac:(lia) Ht) as Hs. split_and!.
    + split; cbn [crt cursor]; [unfold set_crt; by rewrite length_insert|lia].
    + intros i Hi. rewrite lookup_set_crt, decide_False by lia. rewrite lookup_scroll by lia.
      replace (i <? 23 * 80)%nat with false by lia.
      replace ((Z.to_nat (1920 - 80) <=? i)%nat && (i <? 24 * 80)%nat) with false by lia. apply Hrest. lia.
    + intros H1 H2 H3. destruct (Hput H1 H2). lia.
  - assert (pos < 1920) by (Z.div_mod_to_equations; lia). rewrite (u16_small pos) by lia. split_and!.
    + split; cbn [crt cursor]; [unfold set_crt; by rewrite length_insert|lia].
    + intros i Hi. rewrite lookup_set_crt, decide_False by lia. apply Hrest. lia.
    + intros H1 H2 H3. destruct (Hput H1 H2) as [-> ->].
      split_and!; [done| |intros i N1 N2]; rewrite !lookup_set_crt by (unfold set_crt; rewrite ?length_insert; lia).
      * rewrite decide_False, decide_True by lia. done.
      * by rewrite !decide_False.
Qed.

Lemma cgaputc_stays_on_screen_witness :
  cga_ok (cgaputc 10 (Cga (replicate 2000 0) 1919)).
Proof. apply (cgaputc_stays_on_screen 10 (Cga (replicate 2000 0) 1919)). split; [reflexivity|cbn [cursor]; lia]. Defined.
