(* ===== verification/Tty.v ===== *)
(** * The console's line discipline

    What console.c promises of the keyboard: a queue of committed lines, which
    [consoleread] takes from, and the line being edited, which erase and kill
    work on.  The input buffer with its three free-running 32-bit indices is a
    refinement of that. *)

From stdpp Require Import base list numbers.
From Stdlib Require Import ZifyBool.
From S2P Require Import Prelude Console.
Open Scope Z_scope.

(** ** The abstract terminal *)

Record tty := Tty { queue : list Z; line : list Z }.

Definition tty_key (c : Z) (t : tty) : tty * list cons_out :=
  let room := length (queue t ++ line t) in
  if c =? CTL_P then (t, [Procdump])
  else if c =? CTL_U then (Tty (queue t) [], replicate (length (line t)) (Put BACKSPACE))
  else if (c =? CTL_H) || (c =? DEL) then
    (Tty (queue t) (take (length (line t) - 1) (line t)), if bool_decide (line t = []) then [] else [Put BACKSPACE])
  else if (c =? 0) || (128 <=? room)%nat then (t, [])
  else
    let c := if c =? CR then NL else c in
    if (c =? NL) || (c =? CTL_D) || (room =? 127)%nat
    then (Tty (queue t ++ line t ++ [u8 c]) [], [Put c; Wakeup])
    else (Tty (queue t) (line t ++ [u8 c]), [Put c]).

Fixpoint tty_read (killed : bool) (target : Z) (n : nat) (dst : list Z) (q : list Z) : list Z * cresult :=
  match n, q with
  | O, _ => (q, CRet target dst)
  | S _, [] => (q, if killed then CRet (-1) dst else CSleep n dst)
  | S n', c :: q' =>
      if c =? CTL_D then (if Z.of_nat n <? target then q else q', CRet (target - Z.of_nat n) dst)
      else if c =? NL then (q', CRet (target - Z.of_nat n') (dst ++ [c]))
      else tty_read killed target n' (dst ++ [c]) q'
  end.

(** ** The buffer represents a terminal *)

Definition byte_at (b : list Z) (i : Z) : Z := default 0 (b !! Z.to_nat (i mod 128)).
Definition bytes (b : list Z) (i n : Z) : list Z := (fun k => byte_at b (i + k)) <$> seqZ 0 n.

(** The buffer whose read index is [r], unwrapped, with [q] bytes committed and
    [l] in the line after them. *)
Definition ring (b : list Z) (r q l : Z) : input := Input b (u32 r) (u32 (r + q)) (u32 (r + q + l)).

Inductive represents : input -> tty -> Prop :=
| Represents b r q l :
    length b = 128%nat -> 0 <= q -> 0 <= l -> q + l <= 128 ->
    Forall (fun c => c <> NL) (bytes b (r + q) l) ->
    represents (ring b r q l) (Tty (bytes b r q) (bytes b (r + q) l)).

Lemma u32_mod_128 i : u32 i mod 128 = i mod 128.
Proof. unfold u32. Z.div_mod_to_equations. lia. Qed.

Lemma buf_at_ring b r q l i : buf_at (ring b r q l) (u32 i) = byte_at b i.
Proof. unfold buf_at, byte_at, INPUT_BUF. cbn [input_buf ring]. by rewrite u32_mod_128. Qed.

Lemma u32_eqb x d : 0 <= d < 2 ^ 32 -> (u32 (x + d) =? u32 x) = (d =? 0).
Proof. intros Hd. unfold u32. destruct (d =? 0) eqn:E; Z.div_mod_to_equations; lia. Qed.

Lemma u32_dist x d : 0 <= d < 2 ^ 32 -> u32 (u32 (x + d) - u32 x) = d.
Proof. intros Hd. unfold u32. Z.div_mod_to_equations. lia. Qed.

Lemma u32_pred x : u32 (u32 x - 1) = u32 (x - 1).
Proof. apply (u32_add_l x (-1)). Qed.

Lemma length_bytes b i n : 0 <= n -> length (bytes b i n) = Z.to_nat n.
Proof. intros. unfold bytes. by rewrite length_fmap, length_seqZ. Qed.

Lemma bytes_app b i n m : 0 <= n -> 0 <= m -> bytes b i (n + m) = bytes b i n ++ bytes b (i + n) m.
Proof.
  intros. unfold bytes. rewrite seqZ_app, fmap_app by lia. f_equal.
  rewrite (Z.add_comm 0 n), <- fmap_add_seqZ, <- list_fmap_compose.
  apply list_fmap_ext. intros ? k _. unfold compose. f_equal. lia.
Qed.

Lemma bytes_1 b i : bytes b i 1 = [byte_at b i].
Proof. unfold bytes. change (seqZ 0 1) with [0]. rewrite list_fmap_singleton. by rewrite Z.add_0_r. Qed.

Lemma bytes_cons b i n : 0 < n -> bytes b i n = byte_at b i :: bytes b (i + 1) (n - 1).
Proof. intros. replace n with (1 + (n - 1)) at 1 by lia. by rewrite bytes_app, bytes_1 by lia. Qed.

Lemma bytes_snoc b i n : 0 < n -> bytes b i n = bytes b i (n - 1) ++ [byte_at b (i + n - 1)].
Proof.
  intros. replace n with ((n - 1) + 1) at 1 by lia. rewrite bytes_app, bytes_1 by lia. do 3 f_equal. lia.
Qed.

Lemma bytes_store b i n v :
  length b = 128%nat -> 0 <= n < 128 ->
  bytes (<[Z.to_nat ((i + n) mod 128) := v]> b) i (n + 1) = bytes b i n ++ [v].
Proof.
  intros Hb Hn. rewrite bytes_app, bytes_1 by lia. f_equal.
  - unfold bytes. apply list_fmap_ext. intros ? k Hk%list_elem_of_lookup_2%elem_of_seqZ. unfold byte_at.
    rewrite list_lookup_insert_ne; [done|]. Z.div_mod_to_equations. lia.
  - unfold byte_at. rewrite list_lookup_insert_eq; [done|]. Z.div_mod_to_equations. lia.
Qed.

(** ** Keys *)

Lemma kill_line_ring b r q l fuel :
  0 <= q -> 0 <= l -> q + l <= 128 -> Forall (fun c => c <> NL) (bytes b (r + q) l) -> (Z.to_nat l <= fuel)%nat ->
  kill_line fuel (ring b r q l) = (ring b r q 0, replicate (Z.to_nat l) (Put BACKSPACE)).
Proof.
  intros Hq. revert l. induction fuel as [|fuel IH]; intros l Hl Hql Hnl Hf.
  { assert (l = 0) as -> by lia. done. }
  cbn [kill_line]. change (input_e (ring b r q l)) with (u32 (r + q + l)).
  change (input_w (ring b r q l)) with (u32 (r + q)).
  rewrite u32_eqb by lia. destruct (l =? 0) eqn:E.
  { assert (l = 0) as -> by lia. done. }
  rewrite bytes_snoc, Forall_app, Forall_singleton in Hnl by lia. destruct Hnl as [Hnl Hlast].
  rewrite u32_pred. rewrite !buf_at_ring.
  replace (byte_at b (r + q + l - 1) =? NL) with false by lia.
  change (negb false && negb false) with true. cbv iota.
  replace (Input _ _ _ _) with (ring b r q (l - 1)) by (unfold ring; cbn; f_equal; f_equal; lia).
  rewrite IH by (done || lia). replace (Z.to_nat l) with (S (Z.to_nat (l - 1))) by lia. done.
Qed.

Lemma ring_store b r q l v :
  length b = 128%nat -> 0 <= q -> 0 <= l -> q + l < 128 ->
  let b' := <[Z.to_nat (u32 (r + q + l) mod INPUT_BUF) := v]> b in
  length b' = 128%nat /\ bytes b' r q = bytes b r q /\ bytes b' (r + q) (l + 1) = bytes b (r + q) l ++ [v] /\
  bytes b' r (q + (l + 1)) = bytes b r q ++ bytes b (r + q) l ++ [v].
Proof.
  intros Hb Hq Hl Hql b'. unfold b', INPUT_BUF. rewrite u32_mod_128.
  pose proof (bytes_store b r (q + l) v Hb ltac:(lia)) as Hall.
  rewrite (Z.add_assoc r q l), <- (Z.add_assoc q l 1), (bytes_app _ r q (l + 1)), (bytes_app b r q l), <- app_assoc in Hall by lia.
  apply app_inj_1 in Hall as [H1 H2]; [|by rewrite !length_bytes by lia].
  split_and!; [by rewrite length_insert|done|done|]. rewrite bytes_app, H1, H2 by lia. done.
Qed.

(** Storing a character in the line, and committing the line with it. *)
Lemma ring_edit b r q l v :
  length b = 128%nat -> 0 <= q -> 0 <= l -> q + l < 128 ->
  Forall (fun c => c <> NL) (bytes b (r + q) l) ->
  let b' := <[Z.to_nat (u32 (r + q + l) mod INPUT_BUF) := v]> b in
  let e' := u32 (u32 (r + q + l) + 1) in
  (v <> NL -> represents (Input b' (u32 r) (u32 (r + q)) e') (Tty (bytes b r q) (bytes b (r + q) l ++ [v]))) /\
  represents (Input b' (u32 r) e' e') (Tty (bytes b r q ++ bytes b (r + q) l ++ [v]) []).
Proof.
  intros Hb Hq Hl Hql Hnl b' e'. destruct (ring_store b r q l v Hb Hq Hl Hql) as (Hb' & H1 & H2 & H3).
  fold b' in Hb', H1, H2, H3. unfold e'. rewrite u32_add_l, <- (Z.add_assoc _ l 1). split.
  - intros Hv. rewrite <- H2, <- H1. apply (Represents b' r q (l + 1)); [done|lia..|].
    rewrite H2. apply Forall_app. by split; [|apply Forall_singleton].
  - rewrite <- H3, <- (Z.add_assoc r q). replace (Input _ _ _ _) with (ring b' r (q + (l + 1)) 0)
      by (unfold ring; f_equal; f_equal; lia).
    by apply (Represents b' r (q + (l + 1)) 0); [done|lia|lia|lia|constructor].
Qed.

Lemma ring_full r q l :
  0 <= q -> 0 <= l -> q + l < 128 ->
  (u32 (u32 (r + q + l) + 1) =? u32 (u32 r + INPUT_BUF)) = (Z.to_nat q + Z.to_nat l =? 127)%nat.
Proof. intros. unfold u32, INPUT_BUF. destruct (_ =? 127)%nat eqn:E; Z.div_mod_to_equations; lia. Qed.

Lemma cons_key_refines c s t :
  0 <= c < 256 -> represents s t ->
  represents (cons_key c s).1 (tty_key c t).1 /\ (cons_key c s).2 = (tty_key c t).2.
Proof.
  intros Hc [b r q l Hb Hq Hl Hql Hnl]. unfold cons_key, tty_key. cbn [queue line].
  rewrite length_app, !length_bytes by lia.
  destruct (c =? CTL_P); [by repeat constructor|].
  destruct (c =? CTL_U).
  { rewrite kill_line_ring by (done || unfold INPUT_BUF; lia). cbn [fst snd]. split; [|done].
    by apply (Represents b r q 0); [done|lia|lia|lia|constructor]. }
  destruct ((c =? CTL_H) || (c =? DEL)).
  { change (input_e (ring b r q l)) with (u32 (r + q + l)). change (input_w (ring b r q l)) with (u32 (r + q)).
    rewrite u32_eqb by lia. destruct (l =? 0) eqn:E; cbn [negb].
    - assert (l = 0) as -> by lia. by repeat constructor.
    - rewrite bool_decide_false by (rewrite bytes_cons by lia; done). split; [|done]. cbn [fst].
      rewrite (bytes_snoc b (r + q) l) in Hnl |- * by lia. apply Forall_app in Hnl as [Hnl _].
      rewrite take_app_le, take_ge by (rewrite length_bytes; lia).
      replace (Input _ _ _ _) with (ring b r q (l - 1))
        by (unfold ring; cbn; rewrite u32_pred; f_equal; f_equal; lia).
      by constructor; [|lia|lia|lia|]. }
  change (input_e (ring b r q l)) with (u32 (r + q + l)). change (input_r (ring b r q l)) with (u32 r).
  rewrite <- Z.add_assoc, u32_dist by lia. rewrite Z.add_assoc.
  destruct ((c =? 0) || (128 <=? Z.to_nat q + Z.to_nat l)%nat) eqn:E1.
  { replace (negb (c =? 0) && (q + l <? INPUT_BUF)) with false by (unfold INPUT_BUF; lia). by repeat constructor. }
  replace (negb (c =? 0) && (q + l <? INPUT_BUF)) with true by (unfold INPUT_BUF; lia).
  rewrite ring_full by lia. change (input_buf (ring b r q l)) with b. change (input_w (ring b r q l)) with (u32 (r + q)).
  set (c' := if c =? CR then NL else c). assert (Hc' : u8 c' = c').
  { unfold c'. case_match; [done|]. apply Z.mod_small. lia. }
  destruct (ring_edit b r q l (u8 c') Hb Hq Hl ltac:(lia) Hnl) as [He Hcommit].
  destruct ((c' =? NL) || (c' =? CTL_D) || (Z.to_nat q + Z.to_nat l =? 127)%nat) eqn:E2; split; try done.
  apply He. rewrite Hc'. lia.
Qed.

(** ** Reads *)

Lemma cread_refines killed target n dst s t :
  represents s t ->
  exists q', tty_read killed target n dst (queue t) = (q', (cread killed target n dst s).2) /\
             represents (cread killed target n dst s).1 (Tty q' (line t)).
Proof.
  revert dst s t. induction n as [|n IH]; intros dst s t [b r q l Hb Hq Hl Hql Hnl]; cbn [cread tty_read].
  { eexists. by repeat constructor. }
  cbn [queue line]. change (input_w (ring b r q l)) with (u32 (r + q)). change (input_r (ring b r q l)) with (u32 r).
  rewrite (Z.eqb_sym (u32 r)), u32_eqb by lia. destruct (q =? 0) eqn:E.
  { assert (q = 0) as -> by lia. destruct killed; eexists; by repeat constructor. }
  rewrite bytes_cons by lia. rewrite !buf_at_ring.
  assert (Hs1 : represents (Input b (u32 (u32 r + 1)) (u32 (r + q)) (u32 (r + q + l)))
                  (Tty (bytes b (r + 1) (q - 1)) (bytes b (r + q) l))).
  { rewrite u32_add_l. replace (r + q) with (r + 1 + (q - 1)) in Hnl |- * by lia.
    by apply (Represents b (r + 1) (q - 1) l); [|lia..|]. }
  assert (Hs : represents (ring b r q l) (Tty (byte_at b r :: bytes b (r + 1) (q - 1)) (bytes b (r + q) l))).
  { rewrite <- bytes_cons by lia. by constructor. }
  destruct (byte_at b r =? CTL_D) eqn:E1.
  { destruct (Z.of_nat (S n) <? target); eexists; (split; [reflexivity|]); [exact Hs|exact Hs1]. }
  destruct (byte_at b r =? NL) eqn:E2; [by eexists; split; [reflexivity|exact Hs1]|].
  exact (IH (dst ++ [byte_at b r]) _ _ Hs1).
Qed.


(** ** Whole runs *)

(** What happens at the console: an interrupt that delivers characters, or a
    call of [consoleread] (one that slept is called again with what it still
    wants). *)
Inductive event := Keys (cs : list Z) | Reads (killed : bool) (n : Z).
Inductive seen := Echo (out : list cons_out) | Got (res : cresult).

Definition input_event (ev : event) (s : input) : input * seen :=
  match ev with
  | Keys cs => let '(s', out) := consoleintr cs s in (s', Echo out)
  | Reads killed n => let '(s', res) := consoleread killed n s in (s', Got res)
  end.

Fixpoint tty_keys (cs : list Z) (t : tty) : tty * list cons_out :=
  match cs with
  | [] => (t, [])
  | c :: cs => let '(t1, o1) := tty_key c t in
               let '(t2, o2) := tty_keys cs t1 in (t2, o1 ++ o2)
  end.

Definition tty_event (ev : event) (t : tty) : tty * seen :=
  match ev with
  | Keys cs => let '(t', out) := tty_keys cs t in (t', Echo out)
  | Reads killed n =>
      if n <=? 0 then (t, Got (CRet 0 []))
      else let '(q', res) := tty_read killed n (Z.to_nat n) [] (queue t) in (Tty q' (line t), Got res)
  end.

Fixpoint run {T} (step : event -> T -> T * seen) (evs : list event) (t : T) : T * list seen :=
  match evs with
  | [] => (t, [])
  | ev :: evs => let '(t1, o) := step ev t in let '(t2, os) := run step evs t1 in (t2, o :: os)
  end.

(** The characters are bytes, as [kbdgetc] and [uartgetc] give them. *)
Definition event_ok (ev : event) : Prop :=
  match ev with Keys cs => Forall (fun c => 0 <= c < 256) cs | Reads _ _ => True end.

Lemma consoleintr_refines cs s t :
  Forall (fun c => 0 <= c < 256) cs -> represents s t ->
  represents (consoleintr cs s).1 (tty_keys cs t).1 /\ (consoleintr cs s).2 = (tty_keys cs t).2.
Proof.
  intros Hcs. revert s t. induction Hcs as [|c cs Hc _ IH]; intros s t Hr; [done|].
  cbn [consoleintr tty_keys]. pose proof (cons_key_refines c s t Hc Hr) as [H1 H2].
  destruct (cons_key c s) as [s1 o1], (tty_key c t) as [t1 o1']. cbn [fst snd] in H1, H2.
  pose proof (IH s1 t1 H1) as [H3 H4].
  destruct (consoleintr cs s1), (tty_keys cs t1). cbn [fst snd] in H3, H4 |- *. by subst.
Qed.

Lemma input_event_refines ev s t :
  event_ok ev -> represents s t ->
  represents (input_event ev s).1 (tty_event ev t).1 /\ (input_event ev s).2 = (tty_event ev t).2.
Proof.
  intros Hev Hr. destruct ev as [cs|killed n]; cbn [input_event tty_event].
  - pose proof (consoleintr_refines cs s t Hev Hr) as [H1 H2].
    destruct (consoleintr cs s), (tty_keys cs t). cbn [fst snd] in H1, H2 |- *. by subst.
  - unfold consoleread. destruct (n <=? 0); [done|].
    destruct (cread_refines killed n (Z.to_nat n) [] s t Hr) as (q' & H1 & H2).
    rewrite H1. by destruct (cread _ _ _ _ _).
Qed.


Lemma represents_empty r : represents (Input (replicate 128 0) (u32 r) (u32 r) (u32 r)) (Tty [] []).
Proof.
  replace (Input _ _ _ _) with (ring (replicate 128 0) r 0 0) by (unfold ring; by rewrite !Z.add_0_r).
  by apply (Represents (replicate 128 0) r 0 0); [done|lia|lia|lia|constructor].
Qed.

