(* ===== verification/Kbd.v ===== *)
(** * The keyboard and the serial port (kbd.c, kbd.h, uart.c)

    The drivers turn what they read from their ports into the characters that
    [consoleintr] is given. *)

From stdpp Require Import base list numbers sets.
From Stdlib Require Import ZifyBool.
From S2P Require Import Prelude Console.
Open Scope Z_scope.

(** ** Key codes (kbd.h) *)

Definition KBS_DIB : Z := 0x01.
Definition NO : Z := 0.
Definition SHIFT : Z := Z.shiftl 1 0.
Definition CTL : Z := Z.shiftl 1 1.
Definition ALT : Z := Z.shiftl 1 2.
Definition CAPSLOCK : Z := Z.shiftl 1 3.
Definition NUMLOCK : Z := Z.shiftl 1 4.
Definition SCROLLLOCK : Z := Z.shiftl 1 5.
Definition E0ESC : Z := Z.shiftl 1 6.

Definition KEY_HOME : Z := 0xE0.
Definition KEY_END : Z := 0xE1.
Definition KEY_UP : Z := 0xE2.
Definition KEY_DN : Z := 0xE3.
Definition KEY_LF : Z := 0xE4.
Definition KEY_RT : Z := 0xE5.
Definition KEY_PGUP : Z := 0xE6.
Definition KEY_PGDN : Z := 0xE7.
Definition KEY_INS : Z := 0xE8.
Definition KEY_DEL : Z := 0xE9.

(** A [uchar] array of 256 entries with designated initializers. *)
Definition table (first : list Z) (designated : list (Z * Z)) : list Z :=
  foldl (fun t '(i, v) => <[Z.to_nat i := u8 v]> t) (first ++ replicate (256 - length first) 0) designated.

Definition shiftcode : list Z :=
  table [] [(0x1D, CTL); (0x2A, SHIFT); (0x36, SHIFT); (0x38, ALT); (0x9D, CTL); (0xB8, ALT)].

Definition togglecode : list Z := table [] [(0x3A, CAPSLOCK); (0x45, NUMLOCK); (0x46, SCROLLLOCK)].

Definition arrows : list (Z * Z) :=
  [(0xC8, KEY_UP); (0xD0, KEY_DN); (0xC9, KEY_PGUP); (0xD1, KEY_PGDN); (0xCB, KEY_LF); (0xCD, KEY_RT);
   (0x97, KEY_HOME); (0xCF, KEY_END); (0xD2, KEY_INS); (0xD3, KEY_DEL)].

Definition normalmap : list Z :=
  table
    [NO; 0x1B; 49; 50; 51; 52; 53; 54;                (* ESC 1 2 3 4 5 6 *)
     55; 56; 57; 48; 45; 61; 8; 9;                    (* 7 8 9 0 - = BS TAB *)
     113; 119; 101; 114; 116; 121; 117; 105;          (* q w e r t y u i *)
     111; 112; 91; 93; 10; NO; 97; 115;               (* o p [ ] NL - a s *)
     100; 102; 103; 104; 106; 107; 108; 59;           (* d f g h j k l ; *)
     39; 96; NO; 92; 122; 120; 99; 118;               (* quote backquote - backslash z x c v *)
     98; 110; 109; 44; 46; 47; NO; 42;                (* b n m , . / - star *)
     NO; 32; NO; NO; NO; NO; NO; NO;
     NO; NO; NO; NO; NO; NO; NO; 55;                  (* 7 *)
     56; 57; 45; 52; 53; 54; 43; 49;                  (* 8 9 - 4 5 6 + 1 *)
     50; 51; 48; 46; NO; NO; NO; NO]                  (* 2 3 0 . *)
    ([(0x9C, 10); (0xB5, 47)] ++ arrows).

Definition shiftmap : list Z :=
  table
    [NO; 27; 33; 64; 35; 36; 37; 94;                  (* ESC ! @ # $ % ^ *)
     38; 42; 40; 41; 95; 43; 8; 9;                    (* & star ( ) _ + BS TAB *)
     81; 87; 69; 82; 84; 89; 85; 73;                  (* Q W E R T Y U I *)
     79; 80; 123; 125; 10; NO; 65; 83;                (* O P { } NL - A S *)
     68; 70; 71; 72; 74; 75; 76; 58;                  (* D F G H J K L : *)
     34; 126; NO; 124; 90; 88; 67; 86;                (* double-quote ~ - | Z X C V *)
     66; 78; 77; 60; 62; 63; NO; 42;                  (* B N M < > ? - star *)
     NO; 32; NO; NO; NO; NO; NO; NO;
     NO; NO; NO; NO; NO; NO; NO; 55;
     56; 57; 45; 52; 53; 54; 43; 49;
     50; 51; 48; 46; NO; NO; NO; NO]
    ([(0x9C, 10); (0xB5, 47)] ++ arrows).

Definition ctlmap : list Z :=
  table
    [NO; NO; NO; NO; NO; NO; NO; NO;
     NO; NO; NO; NO; NO; NO; NO; NO;
     C 81; C 87; C 69; C 82; C 84; C 89; C 85; C 73;  (* Q W E R T Y U I *)
     C 79; C 80; NO; NO; 13; NO; C 65; C 83;          (* O P - - CR - A S *)
     C 68; C 70; C 71; C 72; C 74; C 75; C 76; NO;    (* D F G H J K L *)
     NO; NO; NO; C 92; C 90; C 88; C 67; C 86;        (* backslash Z X C V *)
     C 66; C 78; C 77; NO; NO; u8 (C 47); NO; NO]     (* B N M / *)
    ([(0x9C, 13); (0xB5, C 47)] ++ arrows).

Definition charcode : list (list Z) := [normalmap; shiftmap; ctlmap; ctlmap].

(** ** kbdgetc *)

(** [a[i]]; an index outside the array has no value. *)
Definition at_ {A} (t : list A) (i : Z) : option A := if i <? 0 then None else t !! Z.to_nat i.

(** One call of [kbdgetc]: [st] and [data] are what the ports give, [shift] the
    static variable.  [None] is an access outside one of the tables. *)
Definition kbdgetc (st data shift : Z) : option (Z * Z) :=
  if Z.land st KBS_DIB =? 0 then Some (-1, shift)
  else if data =? 0xE0 then Some (0, Z.lor shift E0ESC)
  else if negb (Z.land data 0x80 =? 0) then
    let data := if negb (Z.land shift E0ESC =? 0) then data else Z.land data 0x7F in
    code ← at_ shiftcode data;
    Some (0, Z.land shift (Z.lxor (Z.lor code E0ESC) 0xFFFFFFFF))
  else
    let '(data, shift) :=
      if negb (Z.land shift E0ESC =? 0) then (Z.lor data 0x80, Z.land shift (Z.lxor E0ESC 0xFFFFFFFF))
      else (data, shift) in
    sc ← at_ shiftcode data;
    tc ← at_ togglecode data;
    let shift := Z.lxor (Z.lor shift sc) tc in
    map ← at_ charcode (Z.land shift (Z.lor CTL SHIFT));
    c ← at_ map data;
    let c :=
      if negb (Z.land shift CAPSLOCK =? 0) then
        if (97 <=? c) && (c <=? 122) then u32 (c + (65 - 97))
        else if (65 <=? c) && (c <=? 90) then u32 (c + (97 - 65)) else c
      else c in
    Some (c, shift).

(** The calls of [kbdgetc] in one [consoleintr]: [ports] is what each finds in
    the status and data ports.  The characters before the first negative
    result, and [shift] after it. *)
Fixpoint kbd_chars (ports : list (Z * Z)) (shift : Z) : option (list Z * Z) :=
  match ports with
  | [] => None
  | (st, data) :: ports =>
      '(c, shift') ← kbdgetc st data shift;
      if c <? 0 then Some ([], shift')
      else '(cs, shift'') ← kbd_chars ports shift'; Some (c :: cs, shift'')
  end.

Definition kbdintr (ports : list (Z * Z)) (shift : Z) (s : input) : option (Z * (input * list cons_out)) :=
  '(cs, shift') ← kbd_chars ports shift;
  Some (shift', consoleintr cs s).

(** ** uart.c *)

Definition COM1 : Z := 0x3f8.
Definition IRQ_COM1 : Z := 4.

(** What the driver does to the machine, in order. *)
Inductive uio := Out (port v : Z) | In (port : Z) | Microdelay (us : Z) | Picenable (irq : Z) | Ioapicenable (irq cpu : Z).

(** [for(i = 0; i < 128 && !(inb(COM1+5) & 0x20); i++) microdelay(10);]
    [lsr k] is what the [k]-th read of the status port gives. *)
Fixpoint uart_poll (tries : nat) (lsr : nat -> Z) (k : nat) : list uio :=
  match tries with
  | O => []
  | S tries => In (COM1 + 5) :: if Z.land (lsr k) 0x20 =? 0 then Microdelay 10 :: uart_poll tries lsr (S k) else []
  end.

Definition uartputc (uart : bool) (lsr : nat -> Z) (c : Z) : list uio :=
  if uart then uart_poll 128 lsr 0 ++ [Out COM1 (u8 c)] else [].

Definition uart_banner : list Z := [120; 118; 54; 46; 46; 46; 10].   (* xv6...\n *)

(** [status] is what the first read of the status port gives, [lsr p] what the
    reads of it give while character [p] is sent. *)
Definition uartinit (status : Z) (lsr : nat -> nat -> Z) : bool * list uio :=
  let setup := [Out (COM1 + 2) 0; Out (COM1 + 3) 0x80; Out COM1 (115200 / 9600); Out (COM1 + 1) 0;
                Out (COM1 + 3) 0x03; Out (COM1 + 4) 0; Out (COM1 + 1) 0x01; In (COM1 + 5)] in
  if status =? 0xFF then (false, setup)
  else (true, setup ++ [In (COM1 + 2); In COM1; Picenable IRQ_COM1; Ioapicenable IRQ_COM1 0] ++
              concat (imap (fun p c => uartputc true (lsr p) c) uart_banner)).

Definition uartgetc (uart : bool) (status data : Z) : Z :=
  if negb uart then -1 else if Z.land status 0x01 =? 0 then -1 else data.

Fixpoint uart_getcs (uart : bool) (ports : list (Z * Z)) : option (list Z) :=
  match ports with
  | [] => None
  | (st, data) :: ports =>
      let c := uartgetc uart st data in
      if c <? 0 then Some [] else cons c <$> uart_getcs uart ports
  end.

Definition uartintr (uart : bool) (ports : list (Z * Z)) (s : input) : option (input * list cons_out) :=
  cs ← uart_getcs uart ports;
  Some (consoleintr cs s).

(** The bytes that leave on the serial line. *)
Definition sent (l : list uio) : list Z :=
  omap (fun x => match x with Out p v => if p =? COM1 then Some v else None | _ => None end) l.

Lemma uart_poll_sends tries lsr k : sent (uart_poll tries lsr k) = [].
Proof. revert k. induction tries as [|n IH]; intros k; simpl; [done|]. case_match; simpl; [apply IH|done]. Qed.

Lemma uart_poll_bound tries lsr k : (length (uart_poll tries lsr k) <= 2 * tries)%nat.
Proof.
  revert k. induction tries as [|n IH]; intros k; simpl; [lia|].
  case_match; simpl; [specialize (IH (S k)); lia|lia].
Qed.

(** With a uart, [uartputc] sends its character, once, and gives up waiting for
    the line after 128 polls. *)
Lemma uartputc_sends lsr c :
  sent (uartputc true lsr c) = [u8 c] /\ (length (uartputc true lsr c) <= 257)%nat.
Proof.
  unfold uartputc. split.
  - unfold sent. rewrite omap_app. change (omap _ (uart_poll 128 lsr 0)) with (sent (uart_poll 128 lsr 0)).
    by rewrite uart_poll_sends.
  - rewrite length_app. pose proof (uart_poll_bound 128 lsr 0). simpl length at 2. lia.
Qed.

(** ** Typing *)

(** Scan codes of [c]: its key alone, or with the left shift key held; each key
    is released again. *)
Definition key_of (m : list Z) (c : Z) : option nat := fst <$> list_find (fun x => x = c) (take 0x58 m).

Definition scancodes (c : Z) : list Z :=
  match key_of normalmap c with
  | Some k => [Z.of_nat k; Z.of_nat k + 0x80]
  | None =>
      match key_of shiftmap c with
      | Some k => [0x2A; Z.of_nat k; Z.of_nat k + 0x80; 0xAA]
      | None => []
      end
  end.

Definition printable (c : Z) : Prop := 32 <= c <= 126 \/ c = 8 \/ c = 9 \/ c = 10.

Fixpoint decode (ds : list Z) (shift : Z) : option (list Z * Z) :=
  match ds with
  | [] => Some ([], shift)
  | d :: ds => '(c, shift') ← kbdgetc KBS_DIB d shift;
               '(cs, shift'') ← decode ds shift'; Some (c :: cs, shift'')
  end.

Definition shift_ok (shift : Z) : Prop := 0 <= shift < 128.
Definition byte_ok (c : Z) : Prop := -1 <= c < 256.

Lemma decode_app ds1 ds2 shift :
  decode (ds1 ++ ds2) shift =
    ('(cs1, s1) ← decode ds1 shift; '(cs2, s2) ← decode ds2 s1; Some (cs1 ++ cs2, s2)).
Proof.
  revert shift. induction ds1 as [|d ds1 IH]; intros shift; simpl.
  { by destruct (decode ds2 shift) as [[??]|]. }
  destruct (kbdgetc KBS_DIB d shift) as [[c s1]|]; simpl; [|done]. rewrite IH.
  destruct (decode ds1 s1) as [[cs1 s2]|]; simpl; [|done]. by destruct (decode ds2 s2) as [[??]|].
Qed.

(** The tables cover every scan code and every state of the modifiers. *)
Definition kbdgetc_check (data shift : Z) : bool :=
  match kbdgetc KBS_DIB data shift with
  | Some (c, shift') => (0 <=? c) && (c <? 256) && (0 <=? shift') && (shift' <? 128)
  | None => false
  end.

Lemma kbdgetc_checked data shift : 0 <= data < 256 -> shift_ok shift -> kbdgetc_check data shift = true.
Proof.
  intros Hd Hs. assert (Hall : forallb (fun d => forallb (kbdgetc_check d) (seqZ 0 128)) (seqZ 0 256) = true)
    by (vm_compute; reflexivity).
  rewrite forallb_forall in Hall. specialize (Hall data).
  rewrite <- list_elem_of_In, elem_of_seqZ in Hall. specialize (Hall ltac:(lia)).
  rewrite forallb_forall in Hall. apply Hall, list_elem_of_In, elem_of_seqZ. unfold shift_ok in Hs. lia.
Qed.

(** [kbdgetc] looks at the data port only if there is data. *)
Lemma kbdgetc_dib st data shift :
  kbdgetc st data shift = if Z.land st KBS_DIB =? 0 then Some (-1, shift) else kbdgetc KBS_DIB data shift.
Proof. unfold kbdgetc. destruct (Z.land st KBS_DIB =? 0); done. Qed.

Lemma kbdgetc_in_range st data shift :
  0 <= data < 256 -> shift_ok shift ->
  exists c shift', kbdgetc st data shift = Some (c, shift') /\ byte_ok c /\ shift_ok shift'.
Proof.
  intros Hd Hs. rewrite kbdgetc_dib. destruct (Z.land st KBS_DIB =? 0).
  { eexists _, _. split; [done|]. by unfold byte_ok. }
  pose proof (kbdgetc_checked data shift Hd Hs) as Hc. unfold kbdgetc_check in Hc.
  destruct (kbdgetc KBS_DIB data shift) as [[c s']|]; [|done].
  eexists _, _. split; [done|]. unfold byte_ok, shift_ok. lia.
Qed.

Lemma decode_scancodes c :
  printable c -> exists cs, decode (scancodes c) 0 = Some (cs, 0) /\ filter (fun c => c <> 0) cs = [c].
Proof.
  intros Hc. assert (Hall : Forall (fun c => prod_map (filter (fun c => c <> 0)) id <$> decode (scancodes c) 0 = Some ([c], 0))
      ([8; 9; 10] ++ seqZ 32 95)).
  { apply (bool_decide_unpack _). vm_compute. exact I. }
  assert (Hin : c ∈ [8; 9; 10] ++ seqZ 32 95).
  { apply elem_of_app. rewrite elem_of_seqZ. destruct Hc as [?|[?|[?|?]]]; [right; lia|left; set_solver..]. }
  rewrite Forall_forall in Hall. specialize (Hall c Hin).
  destruct (decode (scancodes c) 0) as [[cs sh]|]; simplify_eq/=. by eexists.
Qed.

(** ** What is typed arrives *)

Lemma cons_key_0 s : cons_key 0 s = (s, []).
Proof. done. Qed.

Lemma consoleintr_app cs1 cs2 s :
  consoleintr (cs1 ++ cs2) s =
    let '(s1, o1) := consoleintr cs1 s in let '(s2, o2) := consoleintr cs2 s1 in (s2, o1 ++ o2).
Proof.
  revert s. induction cs1 as [|c cs1 IH]; intros s; simpl.
  { by destruct (consoleintr cs2 s). }
  destruct (cons_key c s) as [s1 o1]. rewrite IH. destruct (consoleintr cs1 s1) as [s2 o2].
  destruct (consoleintr cs2 s2) as [s3 o3]. by rewrite app_assoc.
Qed.

Lemma consoleintr_filter cs s : consoleintr (filter (fun c => c <> 0) cs) s = consoleintr cs s.
Proof.
  revert s. induction cs as [|c cs IH]; intros s; [done|]. rewrite filter_cons.
  destruct (decide (c <> 0)) as [Hc|Hc]; cbn [consoleintr].
  - destruct (cons_key c s) as [s1 o1]. by rewrite IH.
  - assert (c = 0) as -> by lia. rewrite cons_key_0, IH. by destruct (consoleintr cs s).
Qed.

Lemma decode_text text :
  Forall printable text ->
  exists cs, decode (flat_map scancodes text) 0 = Some (cs, 0) /\ filter (fun c => c <> 0) cs = text.
Proof.
  induction 1 as [|c text Hc _ (cs2 & H2 & F2)]; [by eexists|].
  destruct (decode_scancodes c Hc) as (cs1 & H1 & F1). exists (cs1 ++ cs2). simpl.
  rewrite decode_app, H1. simpl. rewrite H2. simpl. split; [done|]. by rewrite filter_app, F1, F2.
Qed.

(** The data port gives [ds] one after the other, then there is no more. *)
Definition typed (ds : list Z) : list (Z * Z) := ((fun d => (KBS_DIB, d)) <$> ds) ++ [(0, 0)].

Lemma kbd_chars_typed ds shift cs shift' :
  decode ds shift = Some (cs, shift') -> Forall (fun c => 0 <= c) cs ->
  kbd_chars (typed ds) shift = Some (cs, shift').
Proof.
  revert shift cs. induction ds as [|d ds IH]; intros shift cs Hd Hc; simpl in Hd.
  { by simplify_eq. }
  cbn [typed fmap list_fmap app kbd_chars]. destruct (kbdgetc KBS_DIB d shift) as [[c s1]|]; [|done]. simpl in Hd |- *.
  destruct (decode ds s1) as [[cs2 s2]|] eqn:E; simplify_eq/=. apply Forall_cons in Hc as [Hc1 Hc2].
  replace (c <? 0) with false by lia. change (kbd_chars (_ ++ _) s1) with (kbd_chars (typed ds) s1).
  by rewrite (IH _ cs2).
Qed.

(** The keyboard driver, from the scan codes to the console.  Whatever
    bytes the controller sends, [kbdgetc] stays inside its tables, its shift
    state stays a set of the seven modifier bits and it returns a byte or -1;
    and when the keys of a text are pressed and released, with shift held for
    the capitals and symbols, the console gets exactly that text and no
    modifier is left set. *)
Theorem keyboard_correct :
  (forall st data shift, 0 <= data < 256 -> shift_ok shift ->
     exists c shift', kbdgetc st data shift = Some (c, shift') /\ byte_ok c /\ shift_ok shift') /\
  (forall text s, Forall printable text ->
     kbdintr (typed (flat_map scancodes text)) 0 s = Some (0, consoleintr text s)).
Proof.
  split; [exact kbdgetc_in_range|]. intros text s Ht.
  destruct (decode_text text Ht) as (cs & Hd & Hf). unfold kbdintr.
  rewrite (kbd_chars_typed _ _ cs 0); [|done|].
  - simpl. by rewrite <- Hf, consoleintr_filter.
  - apply Forall_forall. intros c Hc. destruct (decide (c = 0)); [lia|].
    assert (Hin : c ∈ text) by (rewrite <- Hf; apply list_elem_of_filter; done).
    rewrite Forall_forall in Ht. specialize (Ht c Hin). unfold printable in Ht. lia.
Qed.
