(* ===== verification/Proc.v ===== *)
(** * Processes: [src/proc.c], [src/proc.h] and the process part of [src/sysproc.c]

    The process table is the list [ptable] of NPROC slots; a [struct proc*] is
    an index into it and a null pointer is [None].  The memory allocator, the
    address spaces, the open files and the inodes are components of their own:
    [ProcEnv] is the interface through which this file calls them, on a state
    [S] of theirs that no code of this file reads.  The trap frame and the
    context of a process lie on its own kernel stack and are fields here.

    The code of [fork], [exit], [wait], [kill], [sleep] and [wakeup] holds
    ptable.lock while it looks at or changes a slot that another CPU can see, so
    each runs as one step of the system; [step] interleaves them in any order
    on any number of CPUs, with the scheduler of each CPU. *)

From stdpp Require Import base numbers sets list strings.
From Stdlib Require Import Lia ZArith ZifyBool.
From S2P Require Import Prelude Kalloc.
Open Scope Z_scope.

(** ** The data *)

Definition NPROC : nat := 64.
Definition NOFILE : nat := 16.
Definition KSTACKSIZE : Z := 4096.

Inductive procstate := UNUSED | EMBRYO | SLEEPING | RUNNABLE | RUNNING | ZOMBIE.

#[global] Instance procstate_eq_dec : EqDecision procstate.
Proof. solve_decision. Defined.

Record trapframe := TF {
  tf_edi : Z; tf_esi : Z; tf_ebp : Z; tf_oesp : Z;
  tf_ebx : Z; tf_edx : Z; tf_ecx : Z; tf_eax : Z;
  tf_gs : Z; tf_fs : Z; tf_es : Z; tf_ds : Z; tf_trapno : Z;
  tf_err : Z; tf_eip : Z; tf_cs : Z; tf_eflags : Z; tf_esp : Z; tf_ss : Z
}.

Definition tf_zero : trapframe := TF 0 0 0 0 0 0 0 0 0 0 0 0 0 0 0 0 0 0 0.

Definition set_eax (v : Z) (t : trapframe) : trapframe :=
  TF (tf_edi t) (tf_esi t) (tf_ebp t) (tf_oesp t) (tf_ebx t) (tf_edx t) (tf_ecx t) v
     (tf_gs t) (tf_fs t) (tf_es t) (tf_ds t) (tf_trapno t)
     (tf_err t) (tf_eip t) (tf_cs t) (tf_eflags t) (tf_esp t) (tf_ss t).

Record context := Context_ { c_edi : Z; c_esi : Z; c_ebx : Z; c_ebp : Z; c_eip : Z }.

Record proc := Proc {
  p_sz : Z;
  p_pgdir : Z;
  p_kstack : Z;
  p_state : procstate;
  p_pid : Z;
  p_parent : option nat;
  p_tf : trapframe;
  p_context : context;
  p_ret : Z;                      (* the word above the context: trapret *)
  p_chan : option chan;
  p_killed : bool;
  p_ofile : list (option nat);    (* NOFILE pointers into the file table *)
  p_cwd : option nat;             (* a pointer into the inode cache *)
  p_name : list Z                 (* the characters before the null *)
}.

(** A slot of the zeroed bss. *)
Definition proc_zero : proc :=
  Proc 0 0 0 UNUSED 0 None tf_zero (Context_ 0 0 0 0 0) 0 None false (replicate NOFILE None) None [].

Definition set_sz (v : Z) (p : proc) : proc :=
  Proc v (p_pgdir p) (p_kstack p) (p_state p) (p_pid p) (p_parent p) (p_tf p) (p_context p)
       (p_ret p) (p_chan p) (p_killed p) (p_ofile p) (p_cwd p) (p_name p).
Definition set_pgdir (v : Z) (p : proc) : proc :=
  Proc (p_sz p) v (p_kstack p) (p_state p) (p_pid p) (p_parent p) (p_tf p) (p_context p)
       (p_ret p) (p_chan p) (p_killed p) (p_ofile p) (p_cwd p) (p_name p).
Definition set_kstack (v : Z) (p : proc) : proc :=
  Proc (p_sz p) (p_pgdir p) v (p_state p) (p_pid p) (p_parent p) (p_tf p) (p_context p)
       (p_ret p) (p_chan p) (p_killed p) (p_ofile p) (p_cwd p) (p_name p).
Definition set_state (v : procstate) (p : proc) : proc :=
  Proc (p_sz p) (p_pgdir p) (p_kstack p) v (p_pid p) (p_parent p) (p_tf p) (p_context p)
       (p_ret p) (p_chan p) (p_killed p) (p_ofile p) (p_cwd p) (p_name p).
Definition set_pid (v : Z) (p : proc) : proc :=
  Proc (p_sz p) (p_pgdir p) (p_kstack p) (p_state p) v (p_parent p) (p_tf p) (p_context p)
       (p_ret p) (p_chan p) (p_killed p) (p_ofile p) (p_cwd p) (p_name p).
Definition set_parent (v : option nat) (p : proc) : proc :=
  Proc (p_sz p) (p_pgdir p) (p_kstack p) (p_state p) (p_pid p) v (p_tf p) (p_context p)
       (p_ret p) (p_chan p) (p_killed p) (p_ofile p) (p_cwd p) (p_name p).
Definition set_tf (v : trapframe) (p : proc) : proc :=
  Proc (p_sz p) (p_pgdir p) (p_kstack p) (p_state p) (p_pid p) (p_parent p) v (p_context p)
       (p_ret p) (p_chan p) (p_killed p) (p_ofile p) (p_cwd p) (p_name p).
Definition set_context (v : context) (r : Z) (p : proc) : proc :=
  Proc (p_sz p) (p_pgdir p) (p_kstack p) (p_state p) (p_pid p) (p_parent p) (p_tf p) v
       r (p_chan p) (p_killed p) (p_ofile p) (p_cwd p) (p_name p).
Definition set_chan (v : option chan) (p : proc) : proc :=
  Proc (p_sz p) (p_pgdir p) (p_kstack p) (p_state p) (p_pid p) (p_parent p) (p_tf p) (p_context p)
       (p_ret p) v (p_killed p) (p_ofile p) (p_cwd p) (p_name p).
Definition set_killed (v : bool) (p : proc) : proc :=
  Proc (p_sz p) (p_pgdir p) (p_kstack p) (p_state p) (p_pid p) (p_parent p) (p_tf p) (p_context p)
       (p_ret p) (p_chan p) v (p_ofile p) (p_cwd p) (p_name p).
Definition set_ofile (v : list (option nat)) (p : proc) : proc :=
  Proc (p_sz p) (p_pgdir p) (p_kstack p) (p_state p) (p_pid p) (p_parent p) (p_tf p) (p_context p)
       (p_ret p) (p_chan p) (p_killed p) v (p_cwd p) (p_name p).
Definition set_cwd (v : option nat) (p : proc) : proc :=
  Proc (p_sz p) (p_pgdir p) (p_kstack p) (p_state p) (p_pid p) (p_parent p) (p_tf p) (p_context p)
       (p_ret p) (p_chan p) (p_killed p) (p_ofile p) v (p_name p).
Definition set_name (v : list Z) (p : proc) : proc :=
  Proc (p_sz p) (p_pgdir p) (p_kstack p) (p_state p) (p_pid p) (p_parent p) (p_tf p) (p_context p)
       (p_ret p) (p_chan p) (p_killed p) (p_ofile p) (p_cwd p) v.

(** [ptable.proc], [nextpid], [initproc], and the other components. *)
Record kstate (S : Type) := KState {
  ptable : list proc;
  nextpid : Z;
  initproc : option nat;
  env : S
}.
Arguments KState {S} ptable nextpid initproc env.
Arguments ptable {S} _.
Arguments nextpid {S} _.
Arguments initproc {S} _.
Arguments env {S} _.

(** What proc.c calls of the other components. *)
Class ProcEnv (S : Type) := {
  pe_kalloc : M S Z;
  pe_kfree : Z -> M S unit;
  pe_setupkvm : M S Z;
  pe_inituvm : Z -> list Z -> M S unit;
  pe_allocuvm : Z -> Z -> Z -> M S Z;
  pe_deallocuvm : Z -> Z -> Z -> M S Z;
  pe_copyuvm : Z -> Z -> M S Z;
  pe_freevm : Z -> M S unit;
  pe_filedup : nat -> M S nat;
  pe_fileclose : nat -> M S unit;
  pe_idup : nat -> M S nat;
  pe_iput : nat -> M S unit;
  pe_namei : list Z -> M S (option nat)
}.

Section Ops.
Context {S : Type} `{!ProcEnv S}.

(** The addresses of [forkret] and [trapret] in the kernel's text. *)
Context (forkret_ trapret_ : Z).

Notation K := (kstate S).

Definition getp (i : nat) : M K proc := gets (fun s => default proc_zero (ptable s !! i)).
Definition updp (i : nat) (f : proc -> proc) : M K unit :=
  modify (fun s => KState (alter f i (ptable s)) (nextpid s) (initproc s) (env s)).
Definition on_env {A} (m : M S A) : M K A :=
  zoom env (fun e s => KState (ptable s) (nextpid s) (initproc s) e) m.

(** The first slot, from the start of the table, that satisfies [f]. *)
Definition find_proc (f : proc -> bool) (t : list proc) : option nat :=
  fst <$> list_find (fun p => f p = true) t.

(** ** Creating processes *)

Definition allocproc : M K (option nat) :=
  t ← gets ptable;
  match find_proc (fun p => bool_decide (p_state p = UNUSED)) t with
  | None => mret None
  | Some i =>
      pid ← gets nextpid;
      modify (fun s => KState (ptable s) (s32 (pid + 1)) (initproc s) (env s));;
      updp i (set_pid pid ∘ set_state EMBRYO);;
      ks ← on_env pe_kalloc;
      updp i (set_kstack ks);;
      if ks =? 0 then updp i (set_state UNUSED);; mret None
      else
        updp i (set_context (Context_ 0 0 0 0 forkret_) trapret_);;
        mret (Some i)
  end.

(** [safestrcpy] of a name into a 16-byte array: 15 characters and the null. *)
Definition name16 (l : list Z) : list Z := take 15 l.

Definition SEG_UCODE : Z := 4.
Definition SEG_UDATA : Z := 5.
Definition DPL_USER : Z := 3.
Definition FL_IF : Z := 512.

(** The trap frame userinit builds. *)
Definition init_tf : trapframe :=
  let ds := Z.lor (Z.shiftl SEG_UDATA 3) DPL_USER in
  TF 0 0 0 0 0 0 0 0 0 0 ds ds 0 0 0 (Z.lor (Z.shiftl SEG_UCODE 3) DPL_USER) FL_IF PGSIZE ds.

(** [initcode]: the image linked into the kernel.  [p] is not checked for
    null before it is used; a run that gets there has no defined result. *)
Definition userinit (initcode : list Z) : M K unit :=
  p ← allocproc;
  modify (fun s => KState (ptable s) (nextpid s) p (env s));;
  match p with
  | None => panic "null pointer"
  | Some i =>
      pd ← on_env pe_setupkvm;
      updp i (set_pgdir pd);;
      if pd =? 0 then panic "userinit: out of memory?" else
      on_env (pe_inituvm pd initcode);;
      updp i (set_sz PGSIZE);;
      updp i (set_tf init_tf);;
      updp i (set_name (name16 [105; 110; 105; 116; 99; 111; 100; 101]));;  (* "initcode" *)
      cwd ← on_env (pe_namei [47]);                                         (* "/" *)
      updp i (set_cwd cwd);;
      updp i (set_state RUNNABLE)
  end.

(** [me] is the process that makes the call: the per-CPU variable [proc]. *)
Definition growproc (me : nat) (n : Z) : M K Z :=
  p ← getp me;
  let sz := p_sz p in
  if 0 <? n then
    sz' ← on_env (pe_allocuvm (p_pgdir p) sz (u32 (sz + n)));
    if sz' =? 0 then mret (-1) else updp me (set_sz sz');; mret 0
  else if n <? 0 then
    sz' ← on_env (pe_deallocuvm (p_pgdir p) sz (u32 (sz + n)));
    if sz' =? 0 then mret (-1) else updp me (set_sz sz');; mret 0
  else updp me (set_sz sz);; mret 0.

(** The loop over the open files, from descriptor [i] on. *)
Definition fork_files (me np : nat) : M K unit :=
  loop (Datatypes.S NOFILE) (fun i : nat =>
    if (i <? NOFILE)%nat then
      p ← getp me;
      match p_ofile p !! i with
      | Some (Some f) =>
          f' ← on_env (pe_filedup f);
          updp np (fun q => set_ofile (<[i := Some f']> (p_ofile q)) q);;
          mret (inl (i + 1)%nat)
      | _ => mret (inl (i + 1)%nat)
      end
    else mret (inr tt)) 0%nat.

Definition fork (me : nat) : M K Z :=
  r ← allocproc;
  match r with
  | None => mret (-1)
  | Some np =>
      p ← getp me;
      pd ← on_env (pe_copyuvm (p_pgdir p) (p_sz p));
      updp np (set_pgdir pd);;
      if pd =? 0 then
        q ← getp np;
        on_env (pe_kfree (p_kstack q));;
        updp np (set_state UNUSED ∘ set_kstack 0);;
        mret (-1)
      else
        updp np (set_sz (p_sz p));;
        updp np (set_parent (Some me));;
        updp np (set_tf (p_tf p));;
        updp np (fun q => set_tf (set_eax 0 (p_tf q)) q);;
        fork_files me np;;
        p ← getp me;
        cwd ← match p_cwd p with
              | Some c => i ← on_env (pe_idup c); mret (Some i)
              | None => panic "null pointer"
              end;
        updp np (set_cwd cwd);;
        q ← getp np;
        updp np (set_state RUNNABLE);;
        p ← getp me;
        updp np (set_name (name16 (p_name p)));;
        mret (p_pid q)
  end.

(** ** Sleeping and waking *)

Definition wakes (c : option chan) (p : proc) : proc :=
  if bool_decide (p_state p = SLEEPING) && bool_decide (p_chan p = c)
  then set_state RUNNABLE p else p.

Definition wakeup1 (c : option chan) : M K unit :=
  modify (fun s => KState (wakes c <$> ptable s) (nextpid s) (initproc s) (env s)).

Definition wakeup (c : option chan) : M K unit := wakeup1 c.

(** The channel that is a process's address. *)
Definition proc_chan (p : option nat) : option chan := ChanProc <$> p.

(** [sleep] up to its call of [sched]; [sleep_return] is what it does when
    the process runs again. *)
Definition sleep (me : nat) (c : chan) : M K unit :=
  updp me (set_state SLEEPING ∘ set_chan (Some c)).
Definition sleep_return (me : nat) : M K unit := updp me (set_chan None).

Definition yield (me : nat) : M K unit := updp me (set_state RUNNABLE).

(** ** Ending processes *)

Definition exit_files (me : nat) : M K unit :=
  loop (Datatypes.S NOFILE) (fun fd : nat =>
    if (fd <? NOFILE)%nat then
      p ← getp me;
      match p_ofile p !! fd with
      | Some (Some f) =>
          on_env (pe_fileclose f);;
          updp me (fun q => set_ofile (<[fd := None]> (p_ofile q)) q);;
          mret (inl (fd + 1)%nat)
      | _ => mret (inl (fd + 1)%nat)
      end
    else mret (inr tt)) 0%nat.

(** The loop that passes the children to init. *)
Definition abandon (me : nat) : M K unit :=
  loop (Datatypes.S NPROC) (fun i : nat =>
    if (i <? NPROC)%nat then
      p ← getp i;
      init ← gets initproc;
      when (bool_decide (p_parent p = Some me))
           (updp i (set_parent init);;
            when (bool_decide (p_state p = ZOMBIE)) (wakeup1 (proc_chan init)));;
      mret (inl (i + 1)%nat)
    else mret (inr tt)) 0%nat.

(** What [exit] does with ptable.lock held, up to its call of [sched]. *)
Definition exit_locked (me : nat) : M K unit :=
  p ← getp me;
  wakeup1 (proc_chan (p_parent p));;
  abandon me;;
  updp me (set_state ZOMBIE).

Definition exit (me : nat) : M K unit :=
  init ← gets initproc;
  if bool_decide (init = Some me) then panic "init exiting" else
  exit_files me;;
  p ← getp me;
  match p_cwd p with
  | Some c => on_env (pe_iput c)
  | None => panic "null pointer"
  end;;
  updp me (set_cwd None);;
  exit_locked me.

(** One scan of [wait]: [inr (Some pid)] when a zombie child was reaped,
    otherwise whether the process has children. *)
Definition wait_scan (me : nat) : M K (bool + Z) :=
  loop (Datatypes.S NPROC) (fun '(i, havekids) =>
    if (i <? NPROC)%nat then
      p ← getp i;
      if negb (bool_decide (p_parent p = Some me)) then mret (inl ((i + 1)%nat, havekids))
      else if bool_decide (p_state p = ZOMBIE) then
        on_env (pe_kfree (p_kstack p));;
        updp i (set_kstack 0);;
        on_env (pe_freevm (p_pgdir p));;
        updp i (set_killed false ∘ set_name [] ∘ set_parent None ∘ set_pid 0 ∘ set_state UNUSED);;
        mret (inr (inr (p_pid p)))
      else mret (inl ((i + 1)%nat, true))
    else mret (inr (inl havekids))) (0%nat, false).

(** [wait] up to where it returns or sleeps; when it sleeps on its own [proc]
    the process runs this again once it has been woken. *)
Definition wait (me : nat) : M K Z :=
  r ← wait_scan me;
  match r with
  | inr pid => mret pid
  | inl havekids =>
      p ← getp me;
      if negb havekids || p_killed p then mret (-1)
      else sleep me (ChanProc me);; sleep_on (ChanProc me)
  end.

Definition kill (pid : Z) : M K Z :=
  t ← gets ptable;
  match find_proc (fun p => p_pid p =? pid) t with
  | None => mret (-1)
  | Some i =>
      updp i (set_killed true);;
      p ← getp i;
      when (bool_decide (p_state p = SLEEPING)) (updp i (set_state RUNNABLE));;
      mret 0
  end.

(** ** Scheduling *)

(** The loop of [scheduler] over the table, from slot [pos] to the end. *)
Definition scheduler_find (pos : nat) (t : list proc) : option nat :=
  (fun i => (pos + i)%nat) <$> find_proc (fun p => bool_decide (p_state p = RUNNABLE)) (drop pos t).

(** From [pos], what [scheduler] switches to next: the rest of this round, or
    else, the lock released and taken again, a new round. *)
Definition scheduler_next (pos : nat) (t : list proc) : option nat :=
  match scheduler_find pos t with
  | Some i => Some i
  | None => scheduler_find 0 t
  end.

(** ** System calls of sysproc.c *)

Definition sys_fork (me : nat) : M K Z := fork me.
Definition sys_wait (me : nat) : M K Z := wait me.
Definition sys_kill (pid : Z) : M K Z := kill pid.
Definition sys_getpid (me : nat) : M K Z := p ← getp me; mret (p_pid p).
Definition sys_sbrk (me : nat) (n : Z) : M K Z :=
  p ← getp me;
  let addr := s32 (p_sz p) in
  r ← growproc me n;
  if r <? 0 then mret (-1) else mret addr.

End Ops.

(** ** The system of all CPUs

    Each CPU is in its scheduler loop at slot [cpu_pos], or runs the process
    [cpu_cur] that loop switched to. *)

Record cpu_sched := CpuSched { cpu_cur : option nat; cpu_pos : nat }.

Record sys (S : Type) := Sys { kst : kstate S; cpus : list cpu_sched }.
Arguments Sys {S} kst cpus.
Arguments kst {S} _.
Arguments cpus {S} _.

(** Every other system call and trap of a running process: anything may happen
    to the other components and to the process's memory, registers, files,
    directory and name. *)
Definition own_work (q q' : proc) : Prop :=
  p_kstack q' = p_kstack q /\ p_state q' = p_state q /\ p_pid q' = p_pid q /\
  p_parent q' = p_parent q /\ p_chan q' = p_chan q /\ p_killed q' = p_killed q /\
  length (p_ofile q') = length (p_ofile q).

Section Sys.
Context {S : Type} `{!ProcEnv S}.
Context (forkret_ trapret_ : Z).

Definition runs (s : sys S) (c me : nat) : Prop := cpu_cur <$> cpus s !! c = Some (Some me).
Definition leave (c : nat) (s : sys S) (k : kstate S) : sys S :=
  Sys k (alter (fun x => CpuSched None (cpu_pos x)) c (cpus s)).

(** A fork may take the last pid before [nextpid] wraps only once in 2^31
    forks; runs that get there are not considered. *)
Inductive step : sys S -> sys S -> Prop :=
| st_schedule s c pos me :
    cpus s !! c = Some (CpuSched None pos) ->
    scheduler_next pos (ptable (kst s)) = Some me ->
    step s (Sys (KState (alter (set_chan None ∘ set_state RUNNING) me (ptable (kst s)))
                        (nextpid (kst s)) (initproc (kst s)) (env (kst s)))
                (<[c := CpuSched (Some me) (me + 1)]> (cpus s)))
| st_fork s c me r k :
    runs s c me -> nextpid (kst s) < 2 ^ 31 - 1 ->
    fork forkret_ trapret_ me (kst s) = Ok r k -> step s (Sys k (cpus s))
| st_exit s c me k :
    runs s c me -> exit me (kst s) = Ok tt k -> step s (leave c s k)
| st_wait s c me r k :
    runs s c me -> wait me (kst s) = Ok r k -> step s (Sys k (cpus s))
| st_wait_sleep s c me ch k :
    runs s c me -> wait me (kst s) = Sleep ch k -> step s (leave c s k)
| st_sleep s c me ch k :
    runs s c me -> (forall q, ch <> ChanProc q) ->
    sleep me ch (kst s) = Ok tt k -> step s (leave c s k)
| st_yield s c me k :
    runs s c me -> yield me (kst s) = Ok tt k -> step s (leave c s k)
| st_wakeup s ch k :
    wakeup ch (kst s) = Ok tt k -> step s (Sys k (cpus s))
| st_kill s c me pid r k :
    runs s c me -> kill pid (kst s) = Ok r k -> step s (Sys k (cpus s))
| st_work s c me q q' e :
    runs s c me -> ptable (kst s) !! me = Some q -> own_work q q' ->
    step s (Sys (KState (<[me := q']> (ptable (kst s))) (nextpid (kst s)) (initproc (kst s)) e)
                (cpus s)).

(** What [main] leaves: [userinit] has made the first process in a zeroed
    table, and every CPU enters its scheduler. *)
Definition booted (initcode : list Z) (s : sys S) : Prop :=
  (exists e, userinit forkret_ trapret_ initcode (KState (replicate NPROC proc_zero) 1 None e)
             = Ok tt (kst s)) /\
  Forall (fun x => x = CpuSched None 0) (cpus s).

Inductive reachable (initcode : list Z) : sys S -> Prop :=
| reach_boot s : booted initcode s -> reachable initcode s
| reach_step s s' : reachable initcode s -> step s s' -> reachable initcode s'.

End Sys.
