(* ===== verification/ProcInv.v ===== *)
(** * The process table stays well formed

    [table_ok] is the invariant of the process table that [fork], [exit],
    [wait], [kill], [sleep], [wakeup] and the scheduler of any number of CPUs
    keep in every interleaving: pids are unique, every process but init has a
    living parent, and a process asleep in [wait] has a child and no zombie
    child, so that no exit is missed. *)

From stdpp Require Import base numbers sets list strings.
From Stdlib Require Import Lia ZArith ZifyBool.
From S2P Require Import Prelude Kalloc Proc.
Open Scope Z_scope.

(** ** The invariant *)

Definition no_files : list (option nat) := replicate NOFILE None.

(** Free, living or zombie. *)
Inductive pkind := KFree | KLive | KZombie.
Definition kind (q : proc) : pkind :=
  match p_state q with UNUSED => KFree | ZOMBIE => KZombie | _ => KLive end.

Record slot_ok (np : Z) (i : nat) (q : proc) : Prop := {
  so_embryo : p_state q <> EMBRYO;
  so_pid : 0 <= p_pid q < np;
  so_used : p_state q <> UNUSED -> p_pid q <> 0;
  so_unused : p_state q = UNUSED -> p_parent q = None;
  so_self : p_parent q <> Some i;
  so_nofile : length (p_ofile q) = NOFILE;
  so_closed : kind q <> KLive -> p_ofile q = no_files;
  so_chan : p_state q = SLEEPING ->
            exists c, p_chan q = Some c /\ forall r, c = ChanProc r -> r = i
}.

(** What a process asleep in [wait] is waiting for. *)
Definition may_wait (t : list proc) (i : nat) : Prop :=
  (forall j r, t !! j = Some r -> p_parent r = Some i -> p_state r <> ZOMBIE) /\
  exists j r, t !! j = Some r /\ p_parent r = Some i.

Definition waiting (i : nat) (q : proc) : Prop :=
  p_state q = SLEEPING /\ p_chan q = Some (ChanProc i).

Record table_ok (init : nat) (np : Z) (t : list proc) : Prop := {
  to_len : length t = NPROC;
  to_slot : forall i q, t !! i = Some q -> slot_ok np i q;
  to_pid : forall i j q r, t !! i = Some q -> t !! j = Some r ->
           p_pid q = p_pid r -> p_pid q <> 0 -> i = j;
  to_init : exists q, t !! init = Some q /\ kind q = KLive /\ p_parent q = None;
  to_tree : forall i q, t !! i = Some q -> p_state q <> UNUSED -> i <> init ->
            exists j r, p_parent q = Some j /\ t !! j = Some r /\ kind r = KLive;
  to_wait : forall i q, t !! i = Some q -> waiting i q -> p_killed q = false /\ may_wait t i
}.

Lemma kind_zombie q : kind q = KZombie <-> p_state q = ZOMBIE.
Proof. unfold kind. destruct (p_state q); split; congruence. Qed.
Lemma kind_free q : kind q = KFree <-> p_state q = UNUSED.
Proof. unfold kind. destruct (p_state q); split; congruence. Qed.

(** A change of single slots that keeps pids, parents and the kind of each
    slot, and puts to sleep in [wait] only who may wait. *)
Lemma table_ok_pointwise init np t t' :
  table_ok init np t -> length t' = length t ->
  (forall i q, t !! i = Some q -> exists q', t' !! i = Some q' /\
     p_pid q' = p_pid q /\ p_parent q' = p_parent q /\ kind q' = kind q /\
     slot_ok np i q' /\
     (waiting i q' -> p_killed q' = false /\ may_wait t i)) ->
  table_ok init np t'.
Proof.
  intros Ht Hlen Hpt.
  assert (Hback : forall i q', t' !! i = Some q' -> exists q, t !! i = Some q /\
     p_pid q' = p_pid q /\ p_parent q' = p_parent q /\ kind q' = kind q /\
     slot_ok np i q' /\ (waiting i q' -> p_killed q' = false /\ may_wait t i)).
  { intros i q' Hi. destruct (lookup_lt_is_Some_2 t i) as [q Hq].
    { rewrite <- Hlen. by eapply lookup_lt_Some. }
    destruct (Hpt i q Hq) as (q'' & Hq'' & H). simplify_eq. eauto. }
  split.
  - rewrite Hlen. apply Ht.
  - intros i q' Hi. by destruct (Hback _ _ Hi) as (q & ? & ? & ? & ? & ? & ?).
  - intros i j q' r' Hi Hj He Hne.
    destruct (Hback _ _ Hi) as (q & Hq & Hp & _), (Hback _ _ Hj) as (r & Hr & Hp' & _).
    eapply (to_pid _ _ _ Ht); eauto; congruence.
  - destruct (to_init _ _ _ Ht) as (q & Hq & Hk & Hn), (Hpt _ _ Hq) as (q' & Hq' & _ & Hn' & Hk' & _).
    exists q'. split_and!; congruence.
  - intros i q' Hi Hs Hne. destruct (Hback _ _ Hi) as (q & Hq & _ & Hpar & Hk & _).
    destruct (to_tree _ _ _ Ht i q Hq) as (j & r & Hj & Hr & Hl); [|done|].
    { intros Hs'. apply kind_free in Hs'. apply Hs, kind_free. congruence. }
    destruct (Hpt _ _ Hr) as (r' & Hr' & _ & _ & Hk' & _). exists j, r'. split_and!; congruence.
  - intros i q' Hi Hw. destruct (Hback _ _ Hi) as (q & Hq & _ & _ & _ & _ & Hmay).
    destruct (Hmay Hw) as (Hkill & Hz & j & r & Hr & Hpar). split; [done|]. split.
    + intros j' r' Hr' Hp' Hzz. destruct (Hback _ _ Hr') as (r0 & Hr0 & _ & Hpe & Hke & _).
      apply (Hz j' r0 Hr0); [congruence|]. apply kind_zombie. rewrite <- Hke. by apply kind_zombie.
    + destruct (Hpt _ _ Hr) as (r' & Hr' & _ & Hpe & _). exists j, r'. split; congruence.
Qed.

(** A slot that is not changed keeps what it had. *)
Lemma slot_same init np t i q :
  table_ok init np t -> t !! i = Some q ->
  slot_ok np i q /\ (waiting i q -> p_killed q = false /\ may_wait t i).
Proof. intros Ht Hi. split; [by apply Ht|intros; by eapply to_wait]. Qed.

(** A living process stays well formed when its pid and parent do not change. *)
Lemma slot_ok_live np i p q :
  slot_ok np i p -> p_state p <> UNUSED ->
  p_pid q = p_pid p -> p_parent q = p_parent p -> length (p_ofile q) = length (p_ofile p) ->
  kind q = KLive -> p_state q <> EMBRYO ->
  (p_state q = SLEEPING -> exists c, p_chan q = Some c /\ forall r, c = ChanProc r -> r = i) ->
  slot_ok np i q.
Proof.
  intros [H1 H2 H3 H4 H5 H6 H7 H8] Hs Ep Epar Ef Hk He Hc.
  split; rewrite ?Ep, ?Epar, ?Ef; try done; [auto|].
  intros Hu. apply kind_free in Hu. congruence.
Qed.

Lemma table_ok_insert init np t i q q' :
  table_ok init np t -> t !! i = Some q ->
  p_pid q' = p_pid q -> p_parent q' = p_parent q -> kind q' = kind q -> slot_ok np i q' ->
  (waiting i q' -> p_killed q' = false /\ may_wait t i) ->
  table_ok init np (<[i := q']> t).
Proof.
  intros Ht Hi Hp Hpar Hk Hok Hw. eapply table_ok_pointwise; [done|by rewrite length_insert|].
  intros j r Hj. destruct (decide (i = j)) as [<-|Hne].
  - simplify_eq. exists q'. rewrite list_lookup_insert_eq by (by eapply lookup_lt_Some). done.
  - exists r. rewrite list_lookup_insert_ne by done. split_and!; try done; by eapply slot_same.
Qed.

Lemma wakes_fields c q :
  p_pid (wakes c q) = p_pid q /\ p_parent (wakes c q) = p_parent q /\ kind (wakes c q) = kind q /\
  p_chan (wakes c q) = p_chan q /\ p_killed (wakes c q) = p_killed q /\ p_ofile (wakes c q) = p_ofile q /\
  (p_state (wakes c q) = p_state q \/ p_state q = SLEEPING /\ p_state (wakes c q) = RUNNABLE).
Proof.
  unfold wakes. case_match eqn:E; [|by split_and!; auto].
  apply andb_true_iff in E as [E _]. apply bool_decide_eq_true in E.
  unfold kind. simpl. rewrite E. split_and!; auto.
Qed.

Lemma slot_ok_wakes np i c q : slot_ok np i q -> slot_ok np i (wakes c q).
Proof.
  intros [He Hp Hu Hun Hs Hn Hc Hch]. destruct (wakes_fields c q) as (E1 & E2 & E3 & E4 & _ & E6 & Es).
  split; rewrite ?E1, ?E2, ?E3, ?E4, ?E6; try done; destruct Es as [->|[Es ->]]; try done; try congruence.
  intros _. apply Hu. congruence.
Qed.

Lemma waiting_wakes i c q : waiting i (wakes c q) -> waiting i q /\ c <> Some (ChanProc i).
Proof.
  unfold waiting, wakes. case_match eqn:E; [simpl; intros [??]; congruence|].
  intros [Hs Hc]. split; [done|]. intros ->.
  by rewrite Hs, Hc, !bool_decide_true in E by done.
Qed.

Lemma table_ok_wakes init np t c : table_ok init np t -> table_ok init np (wakes c <$> t).
Proof.
  intros Ht. eapply table_ok_pointwise; [done|by rewrite length_fmap|].
  intros i q Hi. exists (wakes c q). rewrite list_lookup_fmap, Hi.
  destruct (wakes_fields c q) as (E1 & E2 & E3 & _ & E5 & _).
  split_and!; try done; [by eapply slot_ok_wakes, to_slot|].
  intros [Hw _]%waiting_wakes. rewrite E5. by eapply to_wait.
Qed.

(** ** Slots that change kind *)

(** One slot changes its kind, pid or parent. *)
Lemma table_ok_change init np np' t i q0 q :
  table_ok init np t -> np <= np' -> t !! i = Some q0 -> slot_ok np' i q ->
  (forall j r, j <> i -> t !! j = Some r -> p_pid q = p_pid r -> p_pid q = 0) ->
  (kind q0 = KLive -> i <> init /\ forall j r, t !! j = Some r -> p_parent r <> Some i) ->
  (p_state q <> UNUSED -> exists j r, p_parent q = Some j /\ t !! j = Some r /\ kind r = KLive) ->
  (forall w r, p_parent q = Some w -> t !! w = Some r -> p_state q = ZOMBIE -> ~ waiting w r) ->
  (forall w r, p_parent q0 = Some w -> p_parent q <> Some w -> t !! w = Some r -> ~ waiting w r) ->
  ~ waiting i q ->
  table_ok init np' (<[i := q]> t).
Proof.
  intros Ht Hnp Hi Hok Hpid Hkind Htree Hzombie Hgone Hnw.
  assert (Hl : forall j r, <[i:=q]> t !! j = Some r -> (j = i /\ r = q) \/ (j <> i /\ t !! j = Some r)).
  { intros j r. destruct (decide (j = i)) as [->|Hne].
    - rewrite list_lookup_insert_eq by (by eapply lookup_lt_Some). intros. left. by simplify_eq.
    - rewrite list_lookup_insert_ne by done. auto. }
  assert (Hin : forall j r, j <> i -> t !! j = Some r -> <[i:=q]> t !! j = Some r).
  { intros j r Hj Hr. by rewrite list_lookup_insert_ne. }
  assert (Hii : <[i:=q]> t !! i = Some q) by (apply list_lookup_insert_eq; by eapply lookup_lt_Some).
  split.
  - rewrite length_insert. apply Ht.
  - intros j r [[-> ->]|[_ Hr]]%Hl; [done|]. destruct (to_slot _ _ _ Ht _ _ Hr). split; try done. lia.
  - intros j k r r' [[-> ->]|[Hj Hr]]%Hl [[-> ->]|[Hk Hr']]%Hl He Hn; try done.
    + by destruct Hn; eapply (Hpid k).
    + destruct Hn. rewrite He. by eapply (Hpid j).
    + by eapply (to_pid _ _ _ Ht).
  - destruct (to_init _ _ _ Ht) as (r & Hr & Hk & Hn). exists r. split; [|done].
    apply Hin; [|done]. intros ->. simplify_eq. by destruct (Hkind Hk).
  - assert (Hlive : forall j r, t !! j = Some r -> kind r = KLive -> j <> i \/
              forall k r', t !! k = Some r' -> p_parent r' <> Some j).
    { intros j r Hr Hk. destruct (decide (j = i)) as [->|]; [right|by left].
      simplify_eq. by apply Hkind. }
    intros j r [[-> ->]|[Hj Hr]]%Hl Hs Hji.
    + destruct (Htree Hs) as (k & r' & Hk & Hr' & Hl'). exists k, r'. split_and!; try done.
      apply Hin; [|done]. intros ->. by apply (so_self _ _ _ Hok).
    + destruct (to_tree _ _ _ Ht _ _ Hr Hs Hji) as (k & r' & Hk & Hr' & Hl'). exists k, r'.
      split_and!; try done. apply Hin; [|done].
      destruct (Hlive _ _ Hr' Hl') as [?|Hno]; [done|]. by destruct (Hno _ _ Hr).
  - intros j r [[-> ->]|[Hj Hr]]%Hl Hw; [done|].
    destruct (to_wait _ _ _ Ht _ _ Hr Hw) as (Hkill & Hz & k & r' & Hr' & Hpk).
    split; [done|]. split.
    + intros k' r'' [[-> ->]|[_ Hr'']]%Hl Hp' Hzz; [by eapply Hzombie|by eapply Hz].
    + destruct (decide (k = i)) as [->|]; [|by eauto]. simplify_eq. exists i, q. split; [done|].
      destruct (decide (p_parent q = Some j)); [done|]. by destruct (Hgone _ _ Hpk n Hr).
Qed.

(** Nobody has a pid that was never given out. *)
Lemma pid_fresh init np t j r : table_ok init np t -> t !! j = Some r -> np <> p_pid r.
Proof. intros Ht Hj. destruct (so_pid _ _ _ (to_slot _ _ _ Ht _ _ Hj)). lia. Qed.

(** A free slot has no parent, and is nobody's parent. *)
Lemma free_slot init np t i q :
  table_ok init np t -> t !! i = Some q -> p_state q = UNUSED -> p_parent q = None /\ kind q <> KLive.
Proof.
  intros Ht Hi Hs. split; [by eapply so_unused; [eapply to_slot|]|]. unfold kind. by rewrite Hs.
Qed.

Lemma running_not_waiting w r : p_state r = RUNNING -> ~ waiting w r.
Proof. intros Hr [? _]. congruence. Qed.

(** A slot taken for a new process: its pid is new, its parent lives. *)
Lemma table_ok_new init np t i me q0 q p :
  table_ok init np t -> 0 < np -> t !! i = Some q0 -> p_state q0 = UNUSED ->
  t !! me = Some p -> p_state p = RUNNING ->
  p_pid q = np -> p_parent q = Some me -> p_state q = RUNNABLE -> length (p_ofile q) = NOFILE ->
  table_ok init (np + 1) (<[i := q]> t).
Proof.
  intros Ht Hnp Hi Hq0 Hme Hp Hpid Hpar Hst Hof.
  destruct (free_slot _ _ _ _ _ Ht Hi Hq0) as [Hnone Hnk].
  eapply table_ok_change; eauto; try lia; try congruence.
  - split; rewrite ?Hpid, ?Hst; try done; try lia; [congruence|]. unfold kind. by rewrite Hst.
  - intros j r _ Hr ?. destruct (pid_fresh _ _ _ _ _ Ht Hr). congruence.
  - intros _. exists me, p. split_and!; try done. unfold kind. by rewrite Hp.
  - intros [? _]. congruence.
Qed.

(** A slot taken and given back by a [fork] that failed keeps its new pid. *)
Lemma table_ok_failed init np t i q0 q :
  table_ok init np t -> 0 < np -> t !! i = Some q0 -> p_state q0 = UNUSED ->
  p_pid q = np -> p_parent q = p_parent q0 -> p_state q = UNUSED -> p_ofile q = p_ofile q0 ->
  table_ok init (np + 1) (<[i := q]> t).
Proof.
  intros Ht Hnp Hi Hq0 Hpid Hpar Hst Hof.
  destruct (free_slot _ _ _ _ _ Ht Hi Hq0) as [Hnone Hnk].
  assert (Hk0 : kind q = kind q0) by (unfold kind; by rewrite Hst, Hq0).
  eapply table_ok_change; eauto; try lia; try congruence.
  - destruct (to_slot _ _ _ Ht _ _ Hi). split; rewrite ?Hpid, ?Hst, ?Hpar, ?Hof, ?Hk0; try done; try lia.
  - intros j r _ Hr ?. destruct (pid_fresh _ _ _ _ _ Ht Hr). congruence.
  - intros [? _]. congruence.
Qed.

(** [wait] frees the slot of a zombie child of the running process. *)
Lemma table_ok_reap init np t i me q0 q p :
  table_ok init np t -> t !! i = Some q0 -> p_state q0 = ZOMBIE -> p_parent q0 = Some me ->
  t !! me = Some p -> p_state p = RUNNING ->
  p_pid q = 0 -> p_parent q = None -> p_state q = UNUSED -> p_ofile q = p_ofile q0 ->
  table_ok init np (<[i := q]> t).
Proof.
  intros Ht Hi Hq0 Hpar0 Hme Hp Hpid Hpar Hst Hof.
  assert (Hk0 : kind q0 = KZombie) by (by apply kind_zombie).
  assert (Hk : kind q = KFree) by (by apply kind_free).
  eapply table_ok_change; eauto; try lia; try congruence.
  - destruct (to_slot _ _ _ Ht _ _ Hi). split; rewrite ?Hpid, ?Hst, ?Hpar, ?Hof, ?Hk; try done; try lia.
    intros _. eapply so_closed; [by eapply to_slot|]. by rewrite Hk0.
  - intros w r Hw _ Hr. simplify_eq. by apply running_not_waiting.
  - intros [? _]. congruence.
Qed.

(** A process without children exits while its parent is not asleep in
    [wait]. *)
Lemma table_ok_exit init np t me p :
  table_ok init np t -> t !! me = Some p -> p_state p = RUNNING -> me <> init ->
  p_ofile p = no_files ->
  (forall j r, t !! j = Some r -> p_parent r <> Some me) ->
  (forall w r, p_parent p = Some w -> t !! w = Some r -> ~ waiting w r) ->
  table_ok init np (<[me := set_state ZOMBIE p]> t).
Proof.
  intros Ht Hme Hp Hinit Hof Hno Hnw.
  assert (Hs : p_state p <> UNUSED) by congruence.
  destruct (to_tree _ _ _ Ht _ _ Hme Hs Hinit) as (j & r & Hj & Hr & Hl).
  eapply table_ok_change; eauto; try lia.
  - destruct (to_slot _ _ _ Ht _ _ Hme). split; simpl; try done. auto.
  - intros k r' Hne Hr' He. simpl in *. destruct (decide (p_pid p = 0)); [done|].
    destruct Hne. symmetry. by eapply (to_pid _ _ _ Ht).
  - intros [? _]. simpl in *. congruence.
Qed.

(** ** What the operations do to the table *)

Lemma alter_insert_eq {A} (f : A -> A) (l : list A) i a : alter f i (<[i := a]> l) = <[i := f a]> l.
Proof.
  destruct (decide (i < length l)%nat) as [Hi|Hi].
  - rewrite (alter_insert_some f _ i a) by (by apply list_lookup_insert_eq). apply list_insert_insert_eq.
  - rewrite !list_insert_ge by lia. apply list_eq. intros j. destruct (decide (i = j)) as [<-|].
    + by rewrite list_lookup_alter_eq, lookup_ge_None_2 by lia.
    + by rewrite list_lookup_alter_ne.
Qed.

Lemma find_proc_Some f t i :
  find_proc f t = Some i ->
  exists q, t !! i = Some q /\ f q = true /\ forall j r, (j < i)%nat -> t !! j = Some r -> f r = false.
Proof.
  unfold find_proc. intros ([i' q] & Hf & ->)%fmap_Some. apply list_find_Some in Hf as (Hi & Hq & Hlt).
  exists q. split_and!; try done. intros j r Hj Hr. apply not_true_is_false. by eapply Hlt.
Qed.

Lemma find_proc_None f t i q : find_proc f t = None -> t !! i = Some q -> f q = false.
Proof.
  unfold find_proc. intros Hf%fmap_None Hi. apply not_true_is_false.
  apply list_find_None in Hf. rewrite Forall_lookup in Hf. by eapply Hf.
Qed.

Section Effects.
Context {S : Type} `{!ProcEnv S}.
Context (forkret_ trapret_ : Z).

Lemma wlp_env {A} (m : M S A) Q W t np ip (e : S) :
  (forall a e', m e = Ok a e' -> Q a (KState t np ip e')) ->
  (forall c e', m e = Sleep c e' -> W c (KState t np ip e')) ->
  wlp (on_env m) Q W (KState t np ip e).
Proof. intros HQ HW. unfold on_env. wlp_step. by apply wlp_intro. Qed.

Lemma wlp_updp i f Q W t np ip (e : S) q :
  t !! i = Some q -> Q tt (KState (<[i := f q]> t) np ip e) -> wlp (updp i f) Q W (KState t np ip e).
Proof. intros Hi HQ. unfold updp. wlp_step. simpl. by erewrite alter_insert_some. Qed.

Lemma wlp_upd2 i f Q W t np ip (e : S) q :
  Q tt (KState (<[i := f q]> t) np ip e) -> wlp (updp i f) Q W (KState (<[i := q]> t) np ip e).
Proof. intros HQ. unfold updp. wlp_step. simpl. by rewrite alter_insert_eq. Qed.

Lemma wlp_getp i Q W t np ip (e : S) q :
  t !! i = Some q -> Q q (KState t np ip e) -> wlp (getp i) Q W (KState t np ip e).
Proof. intros Hi HQ. unfold getp. wlp_step. simpl. by rewrite Hi. Qed.

Definition embryo (pid ks : Z) (q : proc) : proc := set_kstack ks (set_pid pid (set_state EMBRYO q)).

(** The slot [i] is free, and the first one that is. *)
Definition first_free (t : list proc) (i : nat) (q : proc) : Prop :=
  t !! i = Some q /\ p_state q = UNUSED /\
  forall j r, (j < i)%nat -> t !! j = Some r -> p_state r <> UNUSED.

Lemma find_unused t i :
  find_proc (fun p => bool_decide (p_state p = UNUSED)) t = Some i -> exists q, first_free t i q.
Proof.
  intros (q & Hi & Hq & Hlt)%find_proc_Some. apply bool_decide_eq_true in Hq. exists q.
  split_and!; try done. intros j r Hj Hr. by eapply bool_decide_eq_false, Hlt.
Qed.

Lemma allocproc_wlp t np ip (e : S) :
  wlp (allocproc forkret_ trapret_) (fun r k => exists e', match r with
     | None => k = KState t np ip e' \/
         exists i q, first_free t i q /\
           k = KState (<[i := set_state UNUSED (embryo np 0 q)]> t) (s32 (np + 1)) ip e'
     | Some i => exists q ks, first_free t i q /\ ks <> 0 /\
         k = KState (<[i := set_context (Context_ 0 0 0 0 forkret_) trapret_ (embryo np ks q)]> t)
                    (s32 (np + 1)) ip e'
     end) (fun _ _ => True) (KState t np ip e).
Proof.
  unfold allocproc. wlp_step. wlp_step. simpl.
  destruct (find_proc _ t) as [i|] eqn:Hf; [|by wlp_step; eauto].
  apply find_unused in Hf as [q Hq]. pose proof (proj1 Hq) as Hi.
  do 4 wlp_step. simpl. wlp_step. eapply wlp_updp; [done|].
  wlp_step. apply wlp_env; [|done]. intros ks e' _. simpl.
  wlp_step. apply wlp_upd2. wlp_step.
  - wlp_step. apply wlp_upd2. wlp_step. exists e'. right. exists i, q. bool_hyps. by subst ks.
  - wlp_step. apply wlp_upd2. wlp_step. exists e'. bool_hyps. eauto.
Qed.

Lemma set_ofile_id q : set_ofile (p_ofile q) q = q.
Proof. by destruct q. Qed.

Lemma fork_files_wlp me np_ t np ip (e : S) p q :
  t !! me = Some p -> me <> np_ ->
  wlp (fork_files me np_) (fun _ k => exists fs e',
       length fs = length (p_ofile q) /\
       k = KState (<[np_ := set_ofile fs q]> t) np ip e')
     (fun _ _ => True) (KState (<[np_ := q]> t) np ip e).
Proof.
  intros Hme Hne. unfold fork_files.
  apply (wlp_loop (fun _ k => exists fs e', length fs = length (p_ofile q) /\
           k = KState (<[np_ := set_ofile fs q]> t) np ip e')).
  { exists (p_ofile q), e. by rewrite set_ofile_id. }
  intros i k (fs & e' & Hlen & ->). wlp_step; [|wlp_step; eauto].
  wlp_step. eapply wlp_getp; [by rewrite list_lookup_insert_ne|]. simpl.
  destruct (p_ofile p !! i) as [[f|]|]; [|wlp_step; eauto..].
  wlp_step. apply wlp_env; [|done]. intros f' e2 _. wlp_step. apply wlp_upd2. wlp_step.
  exists (<[i := Some f']> fs), e2. rewrite length_insert. done.
Qed.

(** After [fork] the table is as before but for one slot that was free: the
    child, or a slot given back. *)
Lemma fork_wlp me t np ip (e : S) p :
  t !! me = Some p -> p_state p = RUNNING ->
  wlp (fork forkret_ trapret_ me) (fun r k => exists e',
      r = -1 /\ k = KState t np ip e' \/
      exists i q0 q, first_free t i q0 /\ k = KState (<[i := q]> t) (s32 (np + 1)) ip e' /\
        p_pid q = np /\ p_killed q = p_killed q0 /\
        (r = -1 /\ p_state q = UNUSED /\ p_parent q = p_parent q0 /\ p_ofile q = p_ofile q0 \/
         r = np /\ p_state q = RUNNABLE /\ p_parent q = Some me /\
           length (p_ofile q) = length (p_ofile q0)))
    (fun _ _ => True) (KState t np ip e).
Proof.
  intros Hme Hrun. unfold fork. wlp_step. eapply wlp_mono; [apply allocproc_wlp| |done].
  intros [i|] k (e' & H).
  2: { wlp_step. destruct H as [->|(i & q & Hff & ->)]; exists e'; [by left|right].
       exists i, q. eexists. split_and!; [done..|]. by left. }
  destruct H as (q0 & ks & Hff & Hks & ->). pose proof Hff as (Hi & Hun & _).
  assert (Hne : me <> i) by (intros ->; simplify_eq; congruence).
  wlp_step. eapply wlp_getp; [by rewrite list_lookup_insert_ne|].
  wlp_step. apply wlp_env; [|done]. intros pd e1 _. wlp_step. apply wlp_upd2. wlp_step.
  - wlp_step. eapply wlp_getp; [apply list_lookup_insert_eq; by eapply lookup_lt_Some|].
    wlp_step. apply wlp_env; [|done]. intros [] e2 _. wlp_step. apply wlp_upd2. wlp_step.
    exists e2. right. exists i, q0. eexists. split_and!; [done..|]. by left.
  - do 4 (wlp_step; apply wlp_upd2). wlp_step. eapply wlp_mono; [by eapply fork_files_wlp| |done].
    intros _ k (fs & e2 & Hlen & ->).
    wlp_step. eapply wlp_getp; [by rewrite list_lookup_insert_ne|].
    wlp_step. destruct (p_cwd p) as [c|]; [|by wlp_step].
    wlp_step. apply wlp_env; [|done]. intros c' e3 _. wlp_step.
    wlp_step. apply wlp_upd2.
    wlp_step. eapply wlp_getp; [apply list_lookup_insert_eq; by eapply lookup_lt_Some|].
    wlp_step. apply wlp_upd2.
    wlp_step. eapply wlp_getp; [by rewrite list_lookup_insert_ne|].
    wlp_step. apply wlp_upd2. wlp_step.
    exists e3. right. exists i, q0. eexists. split_and!; [done..|]. right. by split_and!.
Qed.

(** ** Exit *)

Definition adopt (me : nat) (ip : option nat) (q : proc) : proc :=
  if bool_decide (p_parent q = Some me) then set_parent ip q else q.

(** A zombie child of [me] is among the first [n] slots. *)
Definition orphan_zombie (me : nat) (t : list proc) (n : nat) : bool :=
  existsb (fun q => bool_decide (p_parent q = Some me) && bool_decide (p_state q = ZOMBIE)) (take n t).

(** The table once the loop of [exit] has passed the first [n] slots. *)
Definition adopted (me : nat) (ip : option nat) (n : nat) (t : list proc) : list proc :=
  imap (fun i q =>
    let q' := if (i <? n)%nat then adopt me ip q else q in
    if orphan_zombie me t n then wakes (proc_chan ip) q' else q') t.

Lemma wakes_wakes c q : wakes c (wakes c q) = wakes c q.
Proof.
  unfold wakes.
  destruct (bool_decide (p_state q = SLEEPING) && bool_decide (p_chan q = c)) eqn:E; [done|by rewrite E].
Qed.

Lemma wakes_adopt c me ip q : wakes c (adopt me ip q) = adopt me ip (wakes c q).
Proof.
  unfold adopt. destruct (wakes_fields c q) as (_ & -> & _). case_match; [|done].
  unfold wakes. simpl. by case_match.
Qed.

Lemma wakes_zombie c q : bool_decide (p_state (wakes c q) = ZOMBIE) = bool_decide (p_state q = ZOMBIE).
Proof.
  apply bool_decide_ext. rewrite <- !kind_zombie. by destruct (wakes_fields c q) as (_ & _ & -> & _).
Qed.

Lemma orphan_zombie_S me t n q :
  t !! n = Some q ->
  orphan_zombie me t (n + 1) = orphan_zombie me t n ||
    (bool_decide (p_parent q = Some me) && bool_decide (p_state q = ZOMBIE)).
Proof.
  intros Hn. unfold orphan_zombie. rewrite Nat.add_1_r, (take_S_r _ _ _ Hn), existsb_app. simpl.
  by rewrite orb_false_r.
Qed.

Lemma lookup_adopted me ip n t i :
  adopted me ip n t !! i =
  (fun q => let q' := if (i <? n)%nat then adopt me ip q else q in
            if orphan_zombie me t n then wakes (proc_chan ip) q' else q') <$> t !! i.
Proof. unfold adopted. apply list_lookup_imap. Qed.

Lemma adopted_step me ip n t q :
  t !! n = Some q ->
  let t' := if bool_decide (p_parent q = Some me) then alter (set_parent ip) n (adopted me ip n t)
            else adopted me ip n t in
  adopted me ip (n + 1) t =
    if bool_decide (p_parent q = Some me) && bool_decide (p_state q = ZOMBIE)
    then wakes (proc_chan ip) <$> t' else t'.
Proof.
  intros Hn t'.
  assert (Ht' : forall i, t' !! i =
    (fun r => let r' := if (i <? n + 1)%nat then adopt me ip r else r in
              if orphan_zombie me t n then wakes (proc_chan ip) r' else r') <$> t !! i).
  { intros i. subst t'. destruct (decide (i = n)) as [->|Hne].
    - rewrite Hn. simpl. replace (n <? n + 1)%nat with true by lia.
      case_bool_decide as E; [rewrite list_lookup_alter_eq|];
        rewrite lookup_adopted, Hn; simpl; replace (n <? n)%nat with false by lia; f_equal.
      + unfold adopt. rewrite bool_decide_true by done. case_match; [|done].
        unfold wakes. simpl. by case_match.
      + unfold adopt. by rewrite bool_decide_false.
    - transitivity (adopted me ip n t !! i).
      { case_bool_decide; [by rewrite list_lookup_alter_ne|done]. }
      rewrite lookup_adopted. destruct (t !! i); [simpl|done].
      by replace (i <? n + 1)%nat with (i <? n)%nat by lia. }
  apply list_eq. intros i. rewrite lookup_adopted, (orphan_zombie_S me t n q Hn).
  destruct (bool_decide (p_parent q = Some me) && bool_decide (p_state q = ZOMBIE)) eqn:E.
  - rewrite orb_true_r, list_lookup_fmap, Ht'. destruct (t !! i); [|done]. cbn [fmap option_fmap option_map].
    f_equal. case_match; [|done]. by rewrite wakes_wakes.
  - by rewrite orb_false_r, Ht'.
Qed.

Lemma adopted_0 me ip t : adopted me ip 0 t = t.
Proof.
  apply list_eq. intros i. rewrite lookup_adopted. by destruct (t !! i).
Qed.

Lemma abandon_wlp me t np ip (e : S) W :
  length t = NPROC ->
  wlp (abandon me) (fun _ k => k = KState (adopted me ip NPROC t) np ip e) W (KState t np ip e).
Proof.
  intros Hlen. unfold abandon.
  apply (wlp_loop (fun n k => (n <= NPROC)%nat /\ k = KState (adopted me ip n t) np ip e)).
  { split; [lia|]. by rewrite adopted_0. }
  intros n k [Hn ->]. wlp_step.
  2: { wlp_step. f_equal. bool_hyps. apply Nat.ltb_ge in H. by replace NPROC with n by lia. }
  apply Nat.ltb_lt in H. destruct (lookup_lt_is_Some_2 t n) as [q Hq]; [lia|].
  pose proof (adopted_step me ip n t q Hq) as Hstep. cbv zeta in Hstep.
  set (qn := if orphan_zombie me t n then wakes (proc_chan ip) q else q).
  assert (Hqn : adopted me ip n t !! n = Some qn).
  { rewrite lookup_adopted, Hq. simpl. by replace (n <? n)%nat with false by lia. }
  assert (bool_decide (p_parent qn = Some me) = bool_decide (p_parent q = Some me) /\
          bool_decide (p_state qn = ZOMBIE) = bool_decide (p_state q = ZOMBIE)) as [Hp Hz].
  { subst qn. case_match; [|done]. rewrite wakes_zombie. by destruct (wakes_fields (proc_chan ip) q) as (_ & -> & _). }
  wlp_step. eapply wlp_getp; [exact Hqn|]. rewrite Hp, Hz. do 4 wlp_step.
  - wlp_step. unfold updp. wlp_step. wlp_step; [unfold wakeup1; wlp_step|]; wlp_step; (split; [lia|]); f_equal; rewrite Hstep;
      match goal with H1 : bool_decide (p_parent q = _) = true, H2 : bool_decide (p_state q = _) = _ |- _ =>
        by rewrite H1, H2 end.
  - wlp_step. split; [lia|]. f_equal. rewrite Hstep.
    match goal with H1 : bool_decide (p_parent q = _) = false |- _ => by rewrite H1 end.
Qed.

(** The slots in state RUNNING. *)
Definition running (t : list proc) (i : nat) : bool :=
  match t !! i with Some q => bool_decide (p_state q = RUNNING) | None => false end.

Lemma running_true t i : running t i = true <-> exists q, t !! i = Some q /\ p_state q = RUNNING.
Proof.
  unfold running. destruct (t !! i); [rewrite bool_decide_eq_true|]; naive_solver.
Qed.

Lemma running_insert t i q j :
  (i < length t)%nat ->
  running (<[i := q]> t) j = if decide (i = j) then bool_decide (p_state q = RUNNING) else running t j.
Proof.
  intros Hi. unfold running. case_decide as E; [subst; by rewrite list_lookup_insert_eq|].
  by rewrite list_lookup_insert_ne.
Qed.

Lemma running_wakes t c i : running (wakes c <$> t) i = running t i.
Proof.
  unfold running. rewrite list_lookup_fmap. destruct (t !! i) as [q|]; [simpl|done].
  apply bool_decide_ext. destruct (wakes_fields c q) as (_ & _ & _ & _ & _ & _ & [->|[-> ->]]); [done|].
  split; congruence.
Qed.

Lemma running_adopted me ip n t i : running (adopted me ip n t) i = running t i.
Proof.
  unfold running. rewrite lookup_adopted. destruct (t !! i) as [q|]; [cbn [fmap option_fmap option_map]|done].
  set (q' := if (i <? n)%nat then adopt me ip q else q).
  assert (Hq' : p_state q' = p_state q).
  { subst q'. unfold adopt. by repeat case_match. }
  apply bool_decide_ext. case_match; [|by rewrite Hq'].
  destruct (wakes_fields (proc_chan ip) q') as (_ & _ & _ & _ & _ & _ & [->|[Hs ->]]); [by rewrite Hq'|].
  rewrite <- Hq', Hs. split; congruence.
Qed.

(** Passing the children of a running process to init keeps the table well
    formed, unless init sleeps and one of them is a zombie. *)
Lemma table_ok_adopt me init np t p :
  table_ok init np t -> t !! me = Some p -> p_state p = RUNNING ->
  (forall i q r, t !! i = Some q -> p_parent q = Some me -> p_state q = ZOMBIE ->
     t !! init = Some r -> ~ waiting init r) ->
  table_ok init np (adopt me (Some init) <$> t).
Proof.
  intros Ht Hme Hp Hz.
  assert (Hf : forall q, p_pid (adopt me (Some init) q) = p_pid q /\ p_state (adopt me (Some init) q) = p_state q /\
            p_chan (adopt me (Some init) q) = p_chan q /\ p_killed (adopt me (Some init) q) = p_killed q /\
            p_ofile (adopt me (Some init) q) = p_ofile q /\
            p_parent (adopt me (Some init) q) = if bool_decide (p_parent q = Some me) then Some init else p_parent q).
  { intros q. unfold adopt. by case_match. }
  assert (Hk : forall q, kind (adopt me (Some init) q) = kind q).
  { intros q. unfold kind. by destruct (Hf q) as (_ & -> & _). }
  destruct (to_init _ _ _ Ht) as (qi & Hqi & Hli & Hni).
  assert (Hl : forall i q, (adopt me (Some init) <$> t) !! i = Some q -> exists q0, t !! i = Some q0 /\ q = adopt me (Some init) q0).
  { intros i q. rewrite list_lookup_fmap. intros (q0 & ? & ?)%fmap_Some. eauto. }
  assert (Hl' : forall i q, t !! i = Some q -> (adopt me (Some init) <$> t) !! i = Some (adopt me (Some init) q)).
  { intros i q Hi. by rewrite list_lookup_fmap, Hi. }
  split.
  - rewrite length_fmap. apply Ht.
  - intros i ? (q & Hi & ->)%Hl. destruct (to_slot _ _ _ Ht _ _ Hi) as [H1 H2 H3 H4 H5 H6 H7 H8].
    destruct (Hf q) as (E1 & E2 & E3 & E4 & E5 & E6). split; rewrite ?Hk, ?E1, ?E2, ?E3, ?E4, ?E5, ?E6; try done.
    + intros Hs. rewrite bool_decide_false; [auto|]. rewrite (H4 Hs). done.
    + case_bool_decide; [|done]. intros [= ->]. simplify_eq.
  - intros i j ? ? (q & Hi & ->)%Hl (r & Hj & ->)%Hl. destruct (Hf q) as (-> & _), (Hf r) as (-> & _). by eapply to_pid.
  - exists (adopt me (Some init) qi). destruct (Hf qi) as (_ & _ & _ & _ & _ & ->). rewrite Hk, Hni. auto.
  - intros i ? (q & Hi & ->)%Hl. destruct (Hf q) as (_ & -> & _ & _ & _ & ->). intros Hs Hne.
    case_bool_decide.
    + exists init, (adopt me (Some init) qi). rewrite Hk. auto.
    + destruct (to_tree _ _ _ Ht _ _ Hi Hs Hne) as (j & r & Hj & Hr & Hlr). exists j, (adopt me (Some init) r). rewrite Hk. auto.
  - intros i ? (q & Hi & ->)%Hl. destruct (Hf q) as (_ & E2 & E3 & -> & _). unfold waiting. rewrite E2, E3. intros Hw.
    assert (i <> me) by (intros ->; simplify_eq; by eapply running_not_waiting).
    destruct (to_wait _ _ _ Ht _ _ Hi Hw) as (Hkill & Hnz & k & r & Hr & Hpk). split; [done|]. split.
    + intros j ? (r' & Hr' & ->)%Hl. destruct (Hf r') as (_ & -> & _ & _ & _ & ->).
      case_bool_decide; [|by apply (Hnz j)]. intros [= <-] Hzz. simplify_eq. by eapply Hz.
    + exists k, (adopt me (Some init) r). split; [auto|]. destruct (Hf r) as (_ & _ & _ & _ & _ & ->).
      rewrite bool_decide_false; congruence.
Qed.

Lemma adopted_full me ip t :
  length t = NPROC ->
  adopted me ip NPROC t =
  adopt me ip <$> (if orphan_zombie me t NPROC then wakes (proc_chan ip) <$> t else t).
Proof.
  intros Hlen. apply list_eq. intros i. rewrite lookup_adopted, list_lookup_fmap.
  destruct (decide (i < length t)%nat) as [Hi|Hi].
  - replace (i <? NPROC)%nat with true by lia. case_match; [|done]. rewrite list_lookup_fmap.
    destruct (t !! i); [simpl|done]. by rewrite wakes_adopt.
  - assert (Ht : t !! i = None) by (apply lookup_ge_None_2; lia).
    destruct (orphan_zombie me t NPROC); by rewrite ?list_lookup_fmap, Ht.
Qed.

Lemma orphan_zombie_false me t i q :
  length t = NPROC -> orphan_zombie me t NPROC = false -> t !! i = Some q ->
  p_parent q = Some me -> p_state q <> ZOMBIE.
Proof.
  unfold orphan_zombie. intros Hlen Hz Hi Hp Hs. rewrite take_ge in Hz by lia.
  apply not_true_iff_false in Hz. apply Hz, existsb_exists. exists q. split.
  - apply list_elem_of_In. by eapply list_elem_of_lookup_2.
  - by rewrite Hp, Hs, !bool_decide_true.
Qed.

Lemma table_ok_adopted me init np t p :
  table_ok init np t -> t !! me = Some p -> p_state p = RUNNING ->
  table_ok init np (adopted me (Some init) NPROC t).
Proof.
  intros Ht Hme Hp. pose proof (to_len _ _ _ Ht) as Hlen. rewrite adopted_full by done.
  destruct (orphan_zombie me t NPROC) eqn:Hz.
  - eapply table_ok_adopt; [by apply table_ok_wakes|by rewrite list_lookup_fmap, Hme| |].
    + unfold wakes. rewrite (bool_decide_false (p_state p = SLEEPING)) by congruence. done.
    + intros i q r _ _ _. rewrite list_lookup_fmap. intros (r0 & _ & ->)%fmap_Some.
      intros [_ Hne]%waiting_wakes. done.
  - eapply table_ok_adopt; try done. intros i q r Hi Hpar Hs. by destruct (orphan_zombie_false me t i q).
Qed.

Lemma exit_files_wlp me t np ip (e : S) p :
  (me < length t)%nat -> length (p_ofile p) = NOFILE ->
  wlp (exit_files me) (fun _ k => exists e',
       k = KState (<[me := set_ofile no_files p]> t) np ip e')
     (fun _ _ => True) (KState (<[me := p]> t) np ip e).
Proof.
  intros Hme Hlen. unfold exit_files.
  apply (wlp_loop (fun fd k => exists fs e', (fd <= NOFILE)%nat /\ length fs = NOFILE /\
           (forall j, (j < fd)%nat -> fs !! j = Some None) /\
           k = KState (<[me := set_ofile fs p]> t) np ip e')).
  { exists (p_ofile p), e. rewrite set_ofile_id. split_and!; try done; lia. }
  intros fd k (fs & e' & Hfd & Hfs & Hnone & ->). wlp_step.
  2: { wlp_step. exists e'. do 3 f_equal. apply list_eq_same_length with NOFILE; [done|done|].
       intros j x y Hj Hx Hy. apply lookup_replicate in Hy as [-> _].
       apply Nat.ltb_ge in H. rewrite Hnone in Hx by lia. congruence. }
  apply Nat.ltb_lt in H. wlp_step. eapply wlp_getp; [by apply list_lookup_insert_eq|]. simpl.
  destruct (lookup_lt_is_Some_2 fs fd) as [o Ho]; [lia|]. rewrite Ho. destruct o as [f|].
  - wlp_step. apply wlp_env; [|done]. intros [] e2 _. wlp_step. apply wlp_upd2. wlp_step.
    exists (<[fd := None]> fs), e2. rewrite length_insert. split_and!; try done; [lia|].
    intros j Hj. destruct (decide (j = fd)) as [->|]; [apply list_lookup_insert_eq; lia|].
    rewrite list_lookup_insert_ne by done. apply Hnone. lia.
  - wlp_step. exists fs, e'. split_and!; try done; [lia|].
    intros j Hj. destruct (decide (j = fd)) as [->|]; [done|]. apply Hnone. lia.
Qed.

(** [exit] with the lock held: the parent and init are woken when they have
    to be, and nobody is left without a parent. *)
Lemma exit_locked_wlp me init t np (e : S) p W :
  table_ok init np t -> t !! me = Some p -> p_state p = RUNNING -> me <> init -> p_ofile p = no_files ->
  wlp (exit_locked me) (fun _ k => exists t', k = KState t' np (Some init) e /\ table_ok init np t' /\
         forall i, running t' i = running t i && negb (i =? me)%nat)
    W (KState t np (Some init) e).
Proof.
  intros Ht Hme Hp Hinit Hof. unfold exit_locked. wlp_step. eapply wlp_getp; [done|].
  wlp_step. unfold wakeup1. wlp_step. simpl.
  set (c := proc_chan (p_parent p)). set (t1 := wakes c <$> t).
  assert (Ht1 : table_ok init np t1) by (by apply table_ok_wakes).
  assert (Hw : wakes c p = p) by (unfold wakes; by rewrite (bool_decide_false (p_state p = SLEEPING)) by congruence).
  assert (Hme1 : t1 !! me = Some p) by (subst t1; by rewrite list_lookup_fmap, Hme; simpl; rewrite Hw).
  pose proof (to_len _ _ _ Ht1) as Hlen1.
  wlp_step. eapply wlp_mono; [by apply (abandon_wlp me t1 np (Some init) e W)| |done].
  intros _ k ->. set (t2 := adopted me (Some init) NPROC t1).
  assert (Ht2 : table_ok init np t2) by (by eapply table_ok_adopted).
  assert (Hself : adopt me (Some init) p = p).
  { unfold adopt. rewrite bool_decide_false; [done|]. by apply (to_slot _ _ _ Ht). }
  assert (Hin : forall j r, t2 !! j = Some r -> exists r0, t1 !! j = Some r0 /\
            (r = adopt me (Some init) r0 \/ r = adopt me (Some init) (wakes (Some (ChanProc init)) r0))).
  { intros j r. unfold t2. rewrite adopted_full, list_lookup_fmap by done.
    intros (r0 & Hr0 & ->)%fmap_Some. destruct (orphan_zombie me t1 NPROC); [|by eauto].
    rewrite list_lookup_fmap in Hr0. apply fmap_Some in Hr0 as (r1 & Hr1 & ->). eauto. }
  assert (Hme2 : t2 !! me = Some p).
  { unfold t2. rewrite adopted_full, list_lookup_fmap by done.
    destruct (orphan_zombie me t1 NPROC); [|by rewrite Hme1; simpl; rewrite Hself].
    rewrite list_lookup_fmap, Hme1. simpl. unfold wakes.
    rewrite (bool_decide_false (p_state p = SLEEPING)) by congruence. simpl. by rewrite Hself. }
  eapply wlp_updp; [exact Hme2|]. eexists. split; [done|]. split.
  - apply table_ok_exit; try done.
    + intros j r (r0 & _ & [-> | ->])%Hin; unfold adopt; case_bool_decide; simpl; congruence.
    + intros w r Hpar (r0 & Hr0 & Hr)%Hin Hwait.
      assert (Hw0 : waiting w r0).
      { destruct Hr as [-> | ->]; unfold adopt, waiting in Hwait |- *; revert Hwait; [by case_match|].
        intros Hwait. apply (waiting_wakes w (Some (ChanProc init)) r0). by revert Hwait; case_match. }
      unfold t1 in Hr0. rewrite list_lookup_fmap in Hr0. apply fmap_Some in Hr0 as (r1 & _ & ->).
      apply waiting_wakes in Hw0 as [_ Hc]. subst c. by rewrite Hpar in Hc.
  - intros i. rewrite running_insert by (rewrite (to_len _ _ _ Ht2); rewrite <- (to_len _ _ _ Ht); by eapply lookup_lt_Some).
    unfold t2, t1. case_decide as E; [subst; by rewrite Nat.eqb_refl, andb_false_r|].
    rewrite running_adopted, running_wakes. replace (i =? me)%nat with false by lia. by rewrite andb_true_r.
Qed.

Lemma exit_wlp me init t np (e : S) p :
  table_ok init np t -> t !! me = Some p -> p_state p = RUNNING ->
  wlp (exit me) (fun _ k => exists t' e', k = KState t' np (Some init) e' /\ table_ok init np t' /\
         me <> init /\ forall i, running t' i = running t i && negb (i =? me)%nat)
    (fun _ _ => True) (KState t np (Some init) e).
Proof.
  intros Ht Hme Hp. unfold exit. wlp_step. wlp_step. simpl. wlp_step; [by wlp_step|].
  assert (Hinit : me <> init) by (intros ->; by rewrite bool_decide_true in H).
  assert (Hlt : (me < length t)%nat) by (by eapply lookup_lt_Some).
  wlp_step. rewrite <- (list_insert_id t me p) at 1 by done.
  eapply wlp_mono; [apply exit_files_wlp; [done|by eapply so_nofile, (to_slot _ _ _ Ht)]| |done].
  intros _ k (e1 & ->). wlp_step. eapply wlp_getp; [by apply list_lookup_insert_eq|]. simpl.
  wlp_step. destruct (p_cwd p) as [c|]; [|by wlp_step].
  apply wlp_env; [|done]. intros [] e2 _. wlp_step. apply wlp_upd2.
  set (p' := set_cwd None (set_ofile no_files p)).
  assert (Ht' : table_ok init np (<[me := p']> t)).
  { eapply table_ok_insert; try done.
    - destruct (to_slot _ _ _ Ht _ _ Hme). by split.
    - intros [Hs _]. simpl in Hs. congruence. }
  eapply (wlp_mono _ _ _ (fun _ _ => True)); [by eapply exit_locked_wlp; [exact Ht'|by apply list_lookup_insert_eq|..]| |done].
  intros _ k (t' & -> & Hok & Hrun). exists t', e2. split_and!; try done.
  intros i. rewrite Hrun, running_insert by done. destruct (decide (me = i)); [|done]. subst i.
  by rewrite Nat.eqb_refl, !andb_false_r.
Qed.

(** ** Wait *)

Definition child_of (me : nat) (q : proc) : bool := bool_decide (p_parent q = Some me).
Definition zombie_child (me : nat) (q : proc) : bool :=
  child_of me q && bool_decide (p_state q = ZOMBIE).

Definition reaped (q : proc) : proc :=
  set_killed false (set_name [] (set_parent None (set_pid 0 (set_state UNUSED (set_kstack 0 q))))).

Definition reap (i : nat) : M (kstate S) (bool + Z) :=
  p ← getp i;
  on_env (pe_kfree (p_kstack p));;
  updp i (set_kstack 0);;
  on_env (pe_freevm (p_pgdir p));;
  updp i (set_killed false ∘ set_name [] ∘ set_parent None ∘ set_pid 0 ∘ set_state UNUSED);;
  mret (inr (p_pid p)).

Lemma find_proc_cons f q t :
  find_proc f (q :: t) = if f q then Some 0%nat else Datatypes.S <$> find_proc f t.
Proof.
  unfold find_proc. simpl. destruct (decide (f q = true)) as [->|Hn]; [done|].
  apply not_true_is_false in Hn. rewrite Hn. by destruct (list_find _ t) as [[??]|].
Qed.

(** The loop of [wait] reaps the first zombie child, or finds out whether the
    process has children. *)
Lemma wait_scan_eq me t np ip (e : S) :
  length t = NPROC ->
  wait_scan me (KState t np ip e) =
  match find_proc (zombie_child me) t with
  | Some i => reap i (KState t np ip e)
  | None => Ok (inl (existsb (child_of me) t)) (KState t np ip e)
  end.
Proof.
  intros Hlen. unfold wait_scan.
  match goal with |- loop ?f ?b _ _ = _ => set (body := b); set (fuel := f) end.
  assert (Hgen : forall fuel n hk, (NPROC < fuel + n)%nat -> (n <= NPROC)%nat ->
    loop fuel body (n, hk) (KState t np ip e) =
    match find_proc (zombie_child me) (drop n t) with
    | Some i => reap (n + i) (KState t np ip e)
    | None => Ok (inl (hk || existsb (child_of me) (drop n t))) (KState t np ip e)
    end).
  { clear fuel. induction fuel as [|fuel IH]; intros n hk Hf Hn; [lia|].
    cbn [loop]. unfold mbind at 1, M_bind at 1. destruct (decide (n = NPROC)) as [->|Hne].
    { rewrite drop_ge by lia. simpl. by rewrite orb_false_r. }
    destruct (lookup_lt_is_Some_2 t n) as [q Hq]; [lia|].
    rewrite (drop_S t q n) by done. rewrite find_proc_cons. cbn [existsb].
    assert (Hb : body (n, hk) (KState t np ip e) =
      if negb (child_of me q) then Ok (inl ((n + 1)%nat, hk)) (KState t np ip e)
      else if bool_decide (p_state q = ZOMBIE) then
        (r ← reap n; mret (inr r)) (KState t np ip e)
      else Ok (inl ((n + 1)%nat, true)) (KState t np ip e)).
    { unfold body. replace (n <? NPROC)%nat with true by lia.
      unfold child_of, reap, getp, gets, mbind, M_bind. simpl. rewrite Hq. simpl.
      repeat (case_match; simpl; try done). }
    rewrite Hb. unfold zombie_child at 1. destruct (child_of me q); simpl;
      [destruct (bool_decide (p_state q = ZOMBIE)); simpl|].
    - rewrite Nat.add_0_r. unfold mbind, M_bind. by destruct (reap n _).
    - rewrite IH by lia. rewrite Nat.add_1_r. destruct (find_proc _ (drop (Datatypes.S n) t)); simpl.
      + by rewrite Nat.add_succ_r.
      + by rewrite orb_true_r.
    - rewrite IH by lia. rewrite Nat.add_1_r. destruct (find_proc _ (drop (Datatypes.S n) t)); simpl; [|done].
      by rewrite Nat.add_succ_r. }
  rewrite Hgen by (unfold fuel, NPROC; lia). rewrite drop_0. by case_match.
Qed.

End Effects.
