(* ===== verification/ProcSys.v ===== *)
(** * Processes on many CPUs: what every interleaving keeps

    [sys_ok] joins the invariant of the process table with what each CPU runs;
    [reachable_sys_ok] shows that every state reached from boot has it.  The
    functional behaviour of [fork], [wait], [kill] and [growproc] on each of
    their branches follows, then the round-robin order of the scheduler. *)

From stdpp Require Import base numbers sets list strings.
From Stdlib Require Import Lia ZArith ZifyBool.
From S2P Require Import Prelude Kalloc Proc ProcInv.
Open Scope Z_scope.

(** What the other components promise: freeing memory does not sleep, and
    [filedup] returns the reference it was given. *)
Class ProcEnvLaws (S : Type) `{!ProcEnv S} : Prop := {
  kfree_awake : forall a (e : S) c e', pe_kfree a e <> Sleep c e';
  freevm_awake : forall a (e : S) c e', pe_freevm a e <> Sleep c e';
  filedup_same : forall f (e : S) f' e', pe_filedup f e = Ok f' e' -> f' = f
}.

(** The CPUs and the states agree: a process is RUNNING exactly when one CPU,
    and no other, runs it. *)
Record cpus_ok (t : list proc) (cs : list cpu_sched) : Prop := {
  co_running : forall i, running t i = true <-> exists c, cpu_cur <$> cs !! c = Some (Some i);
  co_one : forall c c' i, cpu_cur <$> cs !! c = Some (Some i) -> cpu_cur <$> cs !! c' = Some (Some i) -> c = c'
}.

Record sys_ok {S} (s : sys S) : Prop := {
  so_nextpid : 0 < nextpid (kst s) < 2 ^ 31;
  so_table : exists init, initproc (kst s) = Some init /\ table_ok init (nextpid (kst s)) (ptable (kst s));
  so_cpus : cpus_ok (ptable (kst s)) (cpus s)
}.

Lemma cpus_ok_same t t' cs : cpus_ok t cs -> (forall i, running t' i = running t i) -> cpus_ok t' cs.
Proof. intros [H1 H2] He. split; [intros i; rewrite He; apply H1|done]. Qed.

(** The process of CPU [c] gives up the CPU. *)
Lemma cpus_ok_leave t t' cs c me :
  cpus_ok t cs -> cpu_cur <$> cs !! c = Some (Some me) ->
  (forall i, running t' i = running t i && negb (i =? me)%nat) ->
  cpus_ok t' (alter (fun x => CpuSched None (cpu_pos x)) c cs).
Proof.
  intros [H1 H2] Hc He.
  assert (Hl : forall d i, cpu_cur <$> alter (fun x => CpuSched None (cpu_pos x)) c cs !! d = Some (Some i) <->
                     d <> c /\ cpu_cur <$> cs !! d = Some (Some i)).
  { intros d i. destruct (decide (c = d)) as [<-|Hne].
    - rewrite list_lookup_alter_eq. split; [destruct (cs !! c); naive_solver|naive_solver].
    - rewrite list_lookup_alter_ne by done. naive_solver. }
  split.
  - intros i. rewrite He, andb_true_iff, negb_true_iff, Nat.eqb_neq, H1. split.
    + intros [[d Hd] Hne]. exists d. apply Hl. split; [|done]. intros ->. congruence.
    + intros [d [Hne Hd]%Hl]. split; [by exists d|]. intros ->. by destruct Hne; eapply H2.
  - intros d d' i [_ Hd]%Hl [_ Hd']%Hl. by eapply H2.
Qed.

(** CPU [c], which was in its scheduler, runs [me]. *)
Lemma cpus_ok_enter t t' cs c pos pos' me :
  cpus_ok t cs -> cs !! c = Some (CpuSched None pos) -> running t me = false ->
  (forall i, running t' i = running t i || (i =? me)%nat) ->
  cpus_ok t' (<[c := CpuSched (Some me) pos']> cs).
Proof.
  intros [H1 H2] Hc Hme He. pose proof (lookup_lt_Some _ _ _ Hc) as Hlt.
  assert (Hl : forall d i, cpu_cur <$> <[c := CpuSched (Some me) pos']> cs !! d = Some (Some i) <->
                     (d = c /\ i = me) \/ (d <> c /\ cpu_cur <$> cs !! d = Some (Some i))).
  { intros d i. destruct (decide (c = d)) as [<-|Hne].
    - rewrite list_lookup_insert_eq by done. naive_solver.
    - rewrite list_lookup_insert_ne by done. naive_solver. }
  assert (Hno : forall d, cpu_cur <$> cs !! d = Some (Some me) -> False).
  { intros d Hd. assert (running t me = true) by (apply H1; eauto). congruence. }
  split.
  - intros i. rewrite He, orb_true_iff, Nat.eqb_eq, H1. split.
    + intros [[d Hd]| ->]; [|exists c; apply Hl; auto]. exists d. apply Hl. right. split; [|done].
      intros ->. rewrite Hc in Hd. done.
    + intros [d [[-> ->]|[_ Hd]]%Hl]; eauto.
  - intros d d' i [[-> ->]|[_ Hd]]%Hl [[-> ?]|[_ Hd']]%Hl; subst; try done; [by destruct (Hno d')|by destruct (Hno d)|by eapply H2].
Qed.

Section Inv.
Context {S : Type} `{!ProcEnv S, !ProcEnvLaws S}.
Context (forkret_ trapret_ : Z).

(** The process a CPU runs. *)
Lemma runs_proc (s : sys S) c me :
  sys_ok s -> runs s c me -> exists p, ptable (kst s) !! me = Some p /\ p_state p = RUNNING.
Proof. intros [_ _ [H _]] Hr. apply running_true, H. by exists c. Qed.

Definition asleep (c : chan) (q : proc) : proc := set_state SLEEPING (set_chan (Some c) q).

(** [wait] on each of its branches. *)
Lemma wait_eq me t np ip (e : S) p :
  length t = NPROC -> t !! me = Some p ->
  wait me (KState t np ip e) =
  match find_proc (zombie_child me) t with
  | Some i => (r ← reap i; match r with inr pid => mret pid | inl _ => mret (-1) end) (KState t np ip e)
  | None =>
      if negb (existsb (child_of me) t) || p_killed p then Ok (-1) (KState t np ip e)
      else Sleep (ChanProc me) (KState (<[me := asleep (ChanProc me) p]> t) np ip e)
  end.
Proof.
  intros Hlen Hme. unfold wait. unfold mbind at 1, M_bind at 1. rewrite wait_scan_eq by done.
  destruct (find_proc (zombie_child me) t) as [i|].
  - unfold mbind at 1, M_bind at 1. unfold reap, mbind, M_bind, getp, gets. simpl.
    repeat (case_match; simpl; try done); by simplify_eq.
  - unfold mbind, M_bind, getp, gets. simpl. rewrite Hme. simpl. case_match; [done|].
    unfold sleep, updp, modify. simpl. by rewrite (alter_insert_some _ t me p) by done.
Qed.

Lemma reap_wlp i t np ip (e : S) q :
  t !! i = Some q ->
  wlp (reap i) (fun r k => r = inr (p_pid q) /\ exists e', k = KState (<[i := reaped q]> t) np ip e')
    (fun _ _ => False) (KState t np ip e).
Proof.
  intros Hi. unfold reap. wlp_step. eapply wlp_getp; [done|].
  wlp_step. apply wlp_env; [|by intros c e' ?%kfree_awake]. intros [] e1 _.
  wlp_step. eapply wlp_updp; [done|].
  wlp_step. apply wlp_env; [|by intros c e' ?%freevm_awake]. intros [] e2 _.
  wlp_step. apply wlp_upd2. wlp_step. eauto.
Qed.

Lemma zombie_child_true me q : zombie_child me q = true -> p_parent q = Some me /\ p_state q = ZOMBIE.
Proof. intros [H1 H2]%andb_true_iff. by apply bool_decide_eq_true in H1, H2. Qed.

Lemma has_child me t : existsb (child_of me) t = true -> exists j r, t !! j = Some r /\ p_parent r = Some me.
Proof.
  intros (r & Hr & Hp)%existsb_exists. apply list_elem_of_In, list_elem_of_lookup in Hr as [j Hj].
  apply bool_decide_eq_true in Hp. eauto.
Qed.

Lemma wait_wlp me init t np (e : S) p :
  table_ok init np t -> t !! me = Some p -> p_state p = RUNNING ->
  wlp (wait me)
    (fun _ k => exists t' e', k = KState t' np (Some init) e' /\ table_ok init np t' /\
        forall i, running t' i = running t i)
    (fun _ k => exists t', k = KState t' np (Some init) e /\ table_ok init np t' /\
        forall i, running t' i = running t i && negb (i =? me)%nat)
    (KState t np (Some init) e).
Proof.
  intros Ht Hme Hp. assert (Hlt : (me < length t)%nat) by (by eapply lookup_lt_Some).
  unfold wlp. rewrite (wait_eq me t np (Some init) e p) by (done || apply Ht).
  destruct (find_proc (zombie_child me) t) as [i|] eqn:Hf.
  - apply find_proc_Some in Hf as (q & Hi & [Hpar Hz]%zombie_child_true & _).
    match goal with |- match ?m ?s with _ => _ end => change (wlp m
      (fun _ k => exists t' e', k = KState t' np (Some init) e' /\ table_ok init np t' /\
        forall i, running t' i = running t i)
      (fun _ k => exists t', k = KState t' np (Some init) e /\ table_ok init np t' /\
        forall i, running t' i = running t i && negb (i =? me)%nat) s) end.
    wlp_step. eapply wlp_mono; [by apply reap_wlp| |done].
    intros r k (-> & e' & ->). wlp_step. exists (<[i := reaped q]> t), e'. split_and!; [done| |].
    + by eapply table_ok_reap.
    + intros j. rewrite running_insert by (by eapply lookup_lt_Some). destruct (decide (i = j)) as [<-|]; [|done].
      unfold running. rewrite Hi, Hz. done.
  - destruct (negb (existsb (child_of me) t) || p_killed p) eqn:E; [by exists t, e|].
    apply orb_false_iff in E as [Hc Hk]. apply negb_false_iff, has_child in Hc.
    eexists. split; [done|]. split.
    + eapply table_ok_insert; try done.
      * unfold kind. simpl. by rewrite Hp.
      * apply (slot_ok_live np me p); try done; [by eapply to_slot|congruence|].
        intros _. eexists. split; [done|]. by intros ? [= ->].
      * intros _. split; [done|]. split; [|done]. intros j r Hr Hpr Hz.
        pose proof (find_proc_None _ _ _ _ Hf Hr) as Hn. unfold zombie_child, child_of in Hn.
        by rewrite Hpr, Hz, !bool_decide_true in Hn.
    + intros j. rewrite running_insert by done. destruct (decide (me = j)) as [<-|Hne].
      * by rewrite Nat.eqb_refl, andb_false_r.
      * replace (j =? me)%nat with false by lia. by rewrite andb_true_r.
Qed.

(** A change of one process that stays alive, as the scheduler, [sleep],
    [yield], [kill] and the process's own work make it. *)
Lemma table_ok_live init np t i p q :
  table_ok init np t -> t !! i = Some p -> kind p = KLive ->
  p_pid q = p_pid p -> p_parent q = p_parent p -> length (p_ofile q) = length (p_ofile p) ->
  kind q = KLive -> p_state q <> EMBRYO ->
  (p_state q = SLEEPING -> exists c, p_chan q = Some c /\ forall r, c <> ChanProc r) ->
  table_ok init np (<[i := q]> t).
Proof.
  intros Ht Hi Hk Ep Epar Ef Hkq He Hc. eapply table_ok_insert; try done; [congruence| |].
  - apply (slot_ok_live np i p); try done; [by eapply to_slot| |].
    + intros Hu. apply kind_free in Hu. congruence.
    + intros Hs. destruct (Hc Hs) as (c & ? & Hn). exists c. split; [done|]. intros r Hr. by destruct (Hn r).
  - intros [Hs Hch]. destruct (Hc Hs) as (c & ? & Hn). simplify_eq. by destruct (Hn i).
Qed.

Lemma running_same t i p q j :
  t !! i = Some p -> bool_decide (p_state q = RUNNING) = bool_decide (p_state p = RUNNING) ->
  running (<[i := q]> t) j = running t j.
Proof.
  intros Hi Hs. rewrite running_insert by (by eapply lookup_lt_Some).
  destruct (decide (i = j)) as [<-|]; [|done]. unfold running. by rewrite Hi.
Qed.

Lemma running_stops t i q j :
  (i < length t)%nat -> p_state q <> RUNNING ->
  running (<[i := q]> t) j = running t j && negb (j =? i)%nat.
Proof.
  intros Hi Hs. rewrite running_insert by done. destruct (decide (i = j)) as [<-|Hne].
  - by rewrite Nat.eqb_refl, andb_false_r, bool_decide_false.
  - replace (j =? i)%nat with false by lia. by rewrite andb_true_r.
Qed.

Lemma kill_wlp init pid t np (e : S) :
  table_ok init np t ->
  wlp (kill pid) (fun _ k => exists t', k = KState t' np (Some init) e /\ table_ok init np t' /\
        forall i, running t' i = running t i) (fun _ _ => False) (KState t np (Some init) e).
Proof.
  intros Ht. unfold kill. do 2 wlp_step. simpl.
  destruct (find_proc (fun p => p_pid p =? pid) t) as [i|] eqn:Hf; [|wlp_step; by exists t].
  apply find_proc_Some in Hf as (q & Hi & _ & _). pose proof (lookup_lt_Some _ _ _ Hi) as Hlt.
  wlp_step. eapply wlp_updp; [done|]. wlp_step. eapply wlp_getp; [by apply list_lookup_insert_eq|]. simpl.
  assert (Hok : slot_ok np i q) by (by eapply to_slot).
  wlp_step. wlp_step; [apply wlp_upd2|]; wlp_step; eexists; (split; [done|]).
  - apply bool_decide_eq_true in H. split.
    + eapply table_ok_live; try done; unfold kind; simpl; by rewrite ?H.
    + intros j. eapply running_same; [done|]. by rewrite !bool_decide_false by (simpl; congruence).
  - apply bool_decide_eq_false in H. split; [|intros j; by eapply running_same].
    eapply table_ok_insert; try done; [by destruct Hok|]. intros [Hs _]. by destruct H.
Qed.

(** ** The steps keep the invariant *)

Lemma scheduler_next_runnable pos t i :
  scheduler_next pos t = Some i -> exists q, t !! i = Some q /\ p_state q = RUNNABLE.
Proof.
  assert (Hfind : forall pos, scheduler_find pos t = Some i -> exists q, t !! i = Some q /\ p_state q = RUNNABLE).
  { intros n (j & Hj & ->)%fmap_Some. apply find_proc_Some in Hj as (q & Hq & Hs & _).
    rewrite lookup_drop in Hq. apply bool_decide_eq_true in Hs. eauto. }
  unfold scheduler_next. destruct (scheduler_find pos t) eqn:E; [intros [= ->]|]; eauto.
Qed.

Lemma schedule_sys_ok t np init (e : S) cs c pos me :
  sys_ok (Sys (KState t np (Some init) e) cs) -> table_ok init np t ->
  cs !! c = Some (CpuSched None pos) -> scheduler_next pos t = Some me ->
  sys_ok (Sys (KState (alter (set_chan None ∘ set_state RUNNING) me t) np (Some init) e)
              (<[c := CpuSched (Some me) (me + 1)]> cs)).
Proof.
  intros [Hnp _ Hcpu] Ht Hc (q & Hq & Hs)%scheduler_next_runnable. simpl in *.
  assert (Hm : (me < length t)%nat) by (by eapply lookup_lt_Some).
  rewrite (alter_insert_some _ t me q) by done. split; simpl; [done| |].
  - exists init. split; [done|]. eapply table_ok_live; try done. unfold kind. by rewrite Hs.
  - eapply cpus_ok_enter; [done|done| |].
    + unfold running. by rewrite Hq, Hs.
    + intros i. rewrite running_insert by done. destruct (decide (me = i)) as [<-|].
      * by rewrite Nat.eqb_refl, orb_true_r.
      * replace (i =? me)%nat with false by lia. by rewrite orb_false_r.
Qed.

Lemma fork_sys_ok t np init (e : S) cs me p r k :
  sys_ok (Sys (KState t np (Some init) e) cs) -> table_ok init np t ->
  t !! me = Some p -> p_state p = RUNNING -> np < 2 ^ 31 - 1 ->
  fork forkret_ trapret_ me (KState t np (Some init) e) = Ok r k -> sys_ok (Sys k cs).
Proof.
  intros [Hnp _ Hcpu] Ht Hme Hp Hlt Hf. simpl in Hnp. eapply wlp_ok in Hf; [|by eapply fork_wlp].
  destruct Hf as (e' & [[_ ->]|(i & q0 & q & (Hi & Hun & _) & -> & Hpid & _ & Hq)]); [by split; eauto|].
  rewrite s32_small by lia. split; simpl; [lia| |].
  - exists init. split; [done|]. destruct Hq as [(_ & Hs & Hpar & Hof)|(_ & Hs & Hpar & Hof)].
    + apply (table_ok_failed init np t i q0 q); try done. lia.
    + apply (table_ok_new init np t i me q0 q p); try done; [lia|]. rewrite Hof.
      by eapply so_nofile, (to_slot _ _ _ Ht).
  - eapply cpus_ok_same; [done|]. intros j. eapply running_same; [done|].
    rewrite !bool_decide_false; [done|congruence|]. destruct Hq as [(_ & -> & _)|(_ & -> & _)]; done.
Qed.

Lemma step_sys_ok (s s' : sys S) : step forkret_ trapret_ s s' -> sys_ok s -> sys_ok s'.
Proof.
  intros Hstep Hok. pose proof Hok as [Hnp (init & Hip & Ht) Hcpu].
  destruct Hstep as
    [s c pos me Hc Hnext|s c me r k Hr Hlt Hf|s c me k Hr He|s c me r k Hr Hw|s c me ch k Hr Hw
    |s c me ch k Hr Hch Hsl|s c me k Hr Hy|s ch k Hw|s c me pid r k Hr Hk|s c me q q' e Hr Hq Hown];
    destruct s as [[t np ip e0] cs]; simpl in *; subst ip;
    try (destruct (runs_proc _ _ _ Hok Hr) as (p & Hme & Hp); simpl in *;
         assert (Hlen : (me < length t)%nat) by (by eapply lookup_lt_Some));
    unfold runs in *; simpl in *.
  - by eapply schedule_sys_ok.
  - by eapply fork_sys_ok.
  - eapply wlp_ok in He; [|by eapply exit_wlp].
    destruct He as (t' & e' & -> & Ht' & _ & Hrun). split; simpl; [done|by eauto|]. by eapply cpus_ok_leave.
  - eapply wlp_ok in Hw; [|by eapply wait_wlp].
    destruct Hw as (t' & e' & -> & Ht' & Hrun). split; simpl; [done|by eauto|]. by eapply cpus_ok_same.
  - eapply wlp_slept in Hw; [|by eapply wait_wlp].
    destruct Hw as (t' & -> & Ht' & Hrun). split; simpl; [done|by eauto|]. by eapply cpus_ok_leave.
  - unfold sleep, updp, modify in Hsl. simplify_eq. simpl. rewrite (alter_insert_some _ t me p) by done.
    split; simpl; [done| |].
    + exists init. split; [done|]. eapply table_ok_live; try done; [unfold kind; by rewrite Hp|]. simpl. eauto.
    + eapply cpus_ok_leave; [done|done|]. intros i. by apply running_stops.
  - unfold yield, updp, modify in Hy. simplify_eq. simpl. rewrite (alter_insert_some _ t me p) by done.
    split; simpl; [done| |].
    + exists init. split; [done|]. eapply table_ok_live; try done. unfold kind. by rewrite Hp.
    + eapply cpus_ok_leave; [done|done|]. intros i. by apply running_stops.
  - unfold wakeup, wakeup1, modify in Hw. simplify_eq. split; simpl; [done| |].
    + exists init. split; [done|]. by apply table_ok_wakes.
    + eapply cpus_ok_same; [done|]. intros i. by rewrite running_wakes.
  - eapply wlp_ok in Hk; [|by eapply kill_wlp].
    destruct Hk as (t' & -> & Ht' & Hrun). split; simpl; [done|by eauto|]. by eapply cpus_ok_same.
  - simplify_eq. destruct Hown as (_ & Hs & Hpid & Hpar & _ & _ & Hof). split; simpl; [done| |].
    + exists init. split; [done|]. eapply table_ok_live; try done; unfold kind; rewrite ?Hs, ?Hp; try done; congruence.
    + eapply cpus_ok_same; [done|]. intros i. eapply running_same; [done|]. by rewrite Hs.
Qed.

Lemma userinit_wlp initcode (e : S) :
  wlp (userinit forkret_ trapret_ initcode) (fun _ k => exists q e',
      k = KState (<[0%nat := q]> (replicate NPROC proc_zero)) 2 (Some 0%nat) e' /\
      p_pid q = 1 /\ p_state q = RUNNABLE /\ p_parent q = None /\ p_ofile q = no_files)
    (fun _ _ => True) (KState (replicate NPROC proc_zero) 1 None e).
Proof.
  unfold userinit. wlp_step. eapply wlp_mono; [apply allocproc_wlp| |done].
  intros [i|] k (e1 & H); wlp_step; wlp_step; [|by wlp_step].
  destruct H as (q & ks & (Hi & Hun & Hfirst) & _ & ->). simpl.
  assert (i = 0%nat) as ->.
  { destruct i as [|i]; [done|]. by destruct (Hfirst 0%nat proc_zero); [lia|..]. }
  assert (q = proc_zero) as -> by (unfold NPROC in Hi; simpl in Hi; congruence).
  wlp_step. apply wlp_env; [|done]. intros pd e2 _. wlp_step. apply wlp_upd2. wlp_step; [by wlp_step|].
  wlp_step. apply wlp_env; [|done]. intros [] e3 _. do 3 (wlp_step; apply wlp_upd2).
  wlp_step. apply wlp_env; [|done]. intros cwd e4 _. wlp_step. apply wlp_upd2. apply wlp_upd2.
  eexists _, e4. split; [done|]. done.
Qed.

Lemma booted_sys_ok initcode (s : sys S) : booted forkret_ trapret_ initcode s -> sys_ok s.
Proof.
  intros [[e Hu] Hcs]. destruct s as [k cs]. simpl in *.
  eapply wlp_ok in Hu; [|by apply (userinit_wlp initcode e)].
  destruct Hu as (q & e' & -> & Hpid & Hst & Hpar & Hof).
  assert (Hl : forall i r, <[0%nat:=q]> (replicate NPROC proc_zero) !! i = Some r ->
                           i = 0%nat /\ r = q \/ i <> 0%nat /\ r = proc_zero).
  { intros [|i] r; [simpl; intros [= <-]; auto|]. rewrite list_lookup_insert_ne by done.
    intros [-> _]%lookup_replicate. auto. }
  assert (Hk : kind q = KLive) by (unfold kind; by rewrite Hst).
  split; cbn [kst ptable nextpid initproc cpus]; [lia| |].
  - exists 0%nat. split; [done|]. split.
    + by rewrite length_insert, length_replicate.
    + intros i r [[-> ->]|[Hi ->]]%Hl; split; rewrite ?Hpid, ?Hst, ?Hpar, ?Hof; try done; lia.
    + intros i j r r' [[-> ->]|[Hi ->]]%Hl [[-> ->]|[Hj ->]]%Hl; try done.
    + exists q. done.
    + intros i r [[-> ->]|[Hi ->]]%Hl; done.
    + intros i r [[-> ->]|[Hi ->]]%Hl [Hs _]; [congruence|done].
  - assert (Hnr : forall i, running (<[0%nat:=q]> (replicate NPROC proc_zero)) i = false).
    { intros i. apply not_true_is_false. intros (r & [[-> ->]|[_ ->]]%Hl & Hr)%running_true; [congruence|done]. }
    assert (Hno : forall c i, cpu_cur <$> cs !! c <> Some (Some i)).
    { intros c i. destruct (cs !! c) eqn:Hc; [|done]. eapply Forall_lookup_1 in Hcs; [|done]. by subst. }
    split; [intros i; rewrite Hnr; naive_solver|]. intros c c' i Hc. by destruct (Hno c i).
Qed.

Lemma reachable_sys_ok initcode (s : sys S) : reachable forkret_ trapret_ initcode s -> sys_ok s.
Proof. induction 1; [by eapply booted_sys_ok|by eapply step_sys_ok]. Qed.

End Inv.

(** ** The properties of the process system *)


(** C15: no exit is missed.  In every reachable state a process asleep in
    [wait] is not killed, has a child, and none of its children is a zombie:
    whenever there is something to report it has been woken. *)
Theorem wait_no_lost_exit (S : Type) `{!ProcEnv S, !ProcEnvLaws S} forkret_ trapret_ initcode (s : sys S) i q :
  reachable forkret_ trapret_ initcode s ->
  ptable (kst s) !! i = Some q -> p_state q = SLEEPING -> p_chan q = Some (ChanProc i) ->
  p_killed q = false /\
  (exists j r, ptable (kst s) !! j = Some r /\ p_parent r = Some i) /\
  (forall j r, ptable (kst s) !! j = Some r -> p_parent r = Some i -> p_state r <> ZOMBIE).
Proof.
  intros [_ (init & _ & Ht) _]%reachable_sys_ok Hi Hs Hc.
  destruct (to_wait _ _ _ Ht _ _ Hi) as (Hk & Hz & Hex); [by split|]. auto.
Qed.

(** The scheduler *)

(** How many slots the loop of [scheduler] passes from [pos] before slot [q]. *)
Definition rounds_to (pos q : nat) : nat := if (pos <=? q)%nat then q - pos else q + NPROC - pos.

Lemma scheduler_find_spec pos t q p :
  t !! q = Some p -> p_state p = RUNNABLE -> (pos <= q)%nat ->
  exists i, scheduler_find pos t = Some i /\ (pos <= i <= q)%nat.
Proof.
  intros Hq Hp Hle. unfold scheduler_find.
  assert (Hd : drop pos t !! (q - pos)%nat = Some p).
  { rewrite lookup_drop. by replace (pos + (q - pos))%nat with q by lia. }
  destruct (find_proc _ (drop pos t)) as [i|] eqn:Hf.
  - apply find_proc_Some in Hf as (r & Hr & _ & Hlt). exists (pos + i)%nat. split; [done|].
    destruct (decide (q < pos + i)%nat) as [Hgt|]; [|lia].
    specialize (Hlt (q - pos)%nat p ltac:(lia) Hd). by rewrite bool_decide_true in Hlt.
  - eapply find_proc_None in Hf; [|done]. by rewrite bool_decide_true in Hf.
Qed.

Lemma scheduler_find_range pos t i :
  scheduler_find pos t = Some i -> (pos <= i < length t)%nat.
Proof.
  intros (j & (r & Hr & _)%find_proc_Some & ->)%fmap_Some. rewrite lookup_drop in Hr.
  apply lookup_lt_Some in Hr. lia.
Qed.

Lemma scheduler_next_progress pos t q p :
  length t = NPROC -> (pos <= NPROC)%nat -> t !! q = Some p -> p_state p = RUNNABLE ->
  exists i, scheduler_next pos t = Some i /\ (i < NPROC)%nat /\
    (i = q \/ (rounds_to (i + 1) q < rounds_to pos q)%nat).
Proof.
  intros Hlen Hpos Hq Hp. pose proof (lookup_lt_Some _ _ _ Hq) as Hlt. unfold scheduler_next, rounds_to.
  destruct (decide (pos <= q)%nat) as [Hle|Hgt].
  - destruct (scheduler_find_spec pos t q p) as (i & -> & Hi); try done. exists i. split; [done|].
    replace (pos <=? q)%nat with true by lia. split; [lia|]. destruct (decide (i = q)); [by left|right].
    replace (i + 1 <=? q)%nat with true by lia. lia.
  - replace (pos <=? q)%nat with false by lia. destruct (scheduler_find pos t) as [i|] eqn:Hf.
    + apply scheduler_find_range in Hf. exists i. split; [done|]. split; [lia|right].
      replace (i + 1 <=? q)%nat with false by lia. lia.
    + destruct (scheduler_find_spec 0 t q p) as (i & -> & Hi); try done; [lia|]. exists i. split; [done|].
      split; [lia|]. destruct (decide (i = q)); [by left|right].
      replace (i + 1 <=? q)%nat with true by lia. lia.
Qed.

(** The processes one CPU switches to when its scheduler, at [pos], finds in
    turn the tables [ts]. *)
Fixpoint scheduler_picks (pos : nat) (ts : list (list proc)) : list nat :=
  match ts with
  | [] => []
  | t :: ts => match scheduler_next pos t with
               | Some i => i :: scheduler_picks (i + 1) ts
               | None => scheduler_picks pos ts
               end
  end.

(** C18: the scheduler is fair.  Whatever the other processes do, a process that
    is RUNNABLE each time a CPU picks what to run is picked among its next
    NPROC picks. *)
Theorem scheduler_round_robin pos ts q :
  (pos <= NPROC)%nat -> length ts = NPROC ->
  Forall (fun t => length t = NPROC /\ exists p, t !! q = Some p /\ p_state p = RUNNABLE) ts ->
  q ∈ scheduler_picks pos ts.
Proof.
  intros Hpos Hlen Hts.
  assert (Hgen : forall ts pos, (pos <= NPROC)%nat -> (rounds_to pos q < length ts)%nat ->
    Forall (fun t => length t = NPROC /\ exists p, t !! q = Some p /\ p_state p = RUNNABLE) ts ->
    q ∈ scheduler_picks pos ts).
  { clear. induction ts as [|t ts IH]; intros pos Hpos Hr Hts; [simpl in Hr; lia|].
    apply Forall_cons in Hts as [(Hlen & p & Hq & Hp) Hts]. simpl in Hr |- *.
    destruct (scheduler_next_progress pos t q p) as (i & -> & Hi & Hd); try done.
    destruct Hd as [->|Hd]; [apply elem_of_list_here || (apply elem_of_cons; by left)|].
    apply elem_of_cons. right. apply IH; [lia|lia|done]. }
  apply Hgen; [done| |done]. rewrite Hlen.
  destruct ts as [|t ts]; [done|]. apply Forall_cons in Hts as [(Hl & p & Hq & _) _].
  apply lookup_lt_Some in Hq. unfold rounds_to. case_match; lia.
Qed.

(** ** Functional behaviour *)

Section Returns.
Context {S : Type} `{!ProcEnv S}.
Context (forkret_ trapret_ : Z).

Lemma wp_env {A} (m : M S A) Q t np ip (e : S) a e' :
  m e = Ok a e' -> Q a (KState t np ip e') -> wp (on_env m) Q (KState t np ip e).
Proof. intros Hm HQ. unfold wp, on_env, zoom. simpl. by rewrite Hm. Qed.

Lemma wp_updp i f Q t np ip (e : S) q :
  t !! i = Some q -> Q tt (KState (<[i := f q]> t) np ip e) -> wp (updp i f) Q (KState t np ip e).
Proof. intros Hi HQ. unfold updp. wp_step. simpl. by erewrite alter_insert_some. Qed.

Lemma wp_upd2 i f Q t np ip (e : S) q :
  Q tt (KState (<[i := f q]> t) np ip e) -> wp (updp i f) Q (KState (<[i := q]> t) np ip e).
Proof. intros HQ. unfold updp. wp_step. simpl. by rewrite alter_insert_eq. Qed.

Lemma wp_getp i Q t np ip (e : S) q :
  t !! i = Some q -> Q q (KState t np ip e) -> wp (getp i) Q (KState t np ip e).
Proof. intros Hi HQ. unfold getp. wp_step. simpl. by rewrite Hi. Qed.

(** Taking a reference to each of a list of open files, in order. *)
Fixpoint dup_files (fs : list (option nat)) : M S unit :=
  match fs with
  | [] => mret tt
  | Some f :: fs => pe_filedup f;; dup_files fs
  | None :: fs => dup_files fs
  end.

Lemma find_unused_first t i q :
  first_free t i q -> find_proc (fun p => bool_decide (p_state p = UNUSED)) t = Some i.
Proof.
  intros (Hi & Hu & Hlt). unfold find_proc.
  replace (list_find _ t) with (Some (i, q)); [done|]. symmetry. apply list_find_Some.
  split_and!; [done|by apply bool_decide_eq_true|].
  intros j r Hr Hj. rewrite bool_decide_eq_true. by eapply Hlt.
Qed.

Context `{!ProcEnvLaws S}.

(** The files loop of [fork], from descriptor [n] on. *)
Lemma fork_files_wp me i t np ip p q fs (e e' : S) :
  t !! me = Some p -> me <> i -> p_ofile p = fs -> length fs = NOFILE -> p_ofile q = no_files ->
  dup_files fs e = Ok tt e' ->
  wp (fork_files me i) (fun _ k => k = KState (<[i := set_ofile fs q]> t) np ip e')
     (KState (<[i := q]> t) np ip e).
Proof.
  intros Hme Hne Hfs Hlen Hq Hdup. unfold fork_files.
  apply (wp_loop (fun n k => (n <= NOFILE)%nat /\ exists e1, dup_files (drop n fs) e1 = Ok tt e' /\
           k = KState (<[i := set_ofile (take n fs ++ replicate (NOFILE - n) None) q]> t) np ip e1)
         (fun n _ => (NOFILE - n)%nat)); [| |unfold NOFILE; lia].
  2: { split; [lia|]. exists e. rewrite drop_0. split; [done|].
    replace (take 0 fs ++ replicate (NOFILE - 0) None) with (p_ofile q) by (by rewrite Hq).
    by rewrite set_ofile_id. }
  intros n k (Hn & e1 & Hd & ->). wp_step.
  2: { wp_step. apply Nat.ltb_ge in H. replace n with NOFILE in * by lia.
       rewrite drop_ge in Hd by lia. rewrite take_ge, Nat.sub_diag by lia. simpl. rewrite app_nil_r.
       by injection Hd as ->. }
  apply Nat.ltb_lt in H. destruct (lookup_lt_is_Some_2 fs n) as [o Ho]; [lia|].
  rewrite (drop_S fs o n) in Hd by done.
  assert (Htake : take (n + 1) fs = take n fs ++ [o]) by (rewrite Nat.add_1_r; by apply take_S_r).
  assert (Hl : length (take n fs) = n) by (rewrite length_take; lia).
  wp_step. eapply wp_getp; [by rewrite list_lookup_insert_ne|]. simpl. rewrite Hfs, Ho.
  assert (Hrep : replicate (NOFILE - n) (None : option nat) = None :: replicate (NOFILE - (n + 1)) None).
  { by replace (NOFILE - n)%nat with (Datatypes.S (NOFILE - (n + 1))) by lia. }
  destruct o as [f|]; simpl in Hd.
  - unfold mbind, M_bind in Hd. destruct (pe_filedup f e1) as [f' e2| | |] eqn:Hf; try done.
    pose proof (filedup_same _ _ _ _ Hf) as ->.
    wp_step. eapply wp_env; [exact Hf|]. wp_step. apply wp_upd2. wp_step. split; [|lia]. split; [lia|].
    exists e2. rewrite Nat.add_1_r. split; [done|]. rewrite <- Nat.add_1_r, Htake.
    replace ((take n fs ++ [Some f]) ++ replicate (NOFILE - (n + 1)) None)
      with (<[n := Some f]> (take n fs ++ replicate (NOFILE - n) None)); [done|].
    rewrite Hrep, <- app_assoc, insert_app_r_alt by lia.
    by replace (n - length (take n fs))%nat with 0%nat by lia.
  - wp_step. split; [|lia]. split; [lia|]. exists e1. rewrite Nat.add_1_r. split; [done|].
    rewrite <- Nat.add_1_r, Htake, <- app_assoc. simpl. by rewrite <- Hrep.
Qed.

End Returns.


(** C17: [wait] on every branch.  It reaps the first zombie child: its kernel
    stack and its address space are freed, its slot becomes free and its pid is
    returned; without a zombie child it returns -1 if the process has no child
    or is killed, and otherwise goes to sleep on its own slot. *)
Theorem wait_correct (S : Type) `{!ProcEnv S} me t np ip (e : S) p :
  length t = NPROC -> t !! me = Some p ->
  (forall i q e1 e2, t !! i = Some q -> p_parent q = Some me -> p_state q = ZOMBIE ->
     (forall j r, (j < i)%nat -> t !! j = Some r -> p_parent r = Some me -> p_state r <> ZOMBIE) ->
     pe_kfree (p_kstack q) e = Ok tt e1 -> pe_freevm (p_pgdir q) e1 = Ok tt e2 ->
     exists q', wait me (KState t np ip e) = Ok (p_pid q) (KState (<[i := q']> t) np ip e2) /\
       p_state q' = UNUSED /\ p_pid q' = 0 /\ p_parent q' = None /\ p_kstack q' = 0 /\ p_killed q' = false) /\
  ((forall j r, t !! j = Some r -> p_parent r = Some me -> p_state r <> ZOMBIE) ->
     let kids := exists j r, t !! j = Some r /\ p_parent r = Some me in
     (~ kids \/ p_killed p = true -> wait me (KState t np ip e) = Ok (-1) (KState t np ip e)) /\
     (kids -> p_killed p = false ->
      wait me (KState t np ip e) =
      Sleep (ChanProc me) (KState (<[me := set_state SLEEPING (set_chan (Some (ChanProc me)) p)]> t) np ip e))).
Proof.
  intros Hlen Hme. rewrite (wait_eq me t np ip e p) by done. split.
  - intros i q e1 e2 Hi Hpar Hz Hfirst Hkf Hfv.
    assert (Hf : find_proc (zombie_child me) t = Some i).
    { unfold find_proc. replace (list_find _ t) with (Some (i, q)); [done|]. symmetry. apply list_find_Some.
      split_and!; [done| |].
      - unfold zombie_child, child_of. by rewrite Hpar, Hz, !bool_decide_true.
      - intros j r Hr Hj [Hp Hzr]%zombie_child_true. by eapply Hfirst. }
    rewrite Hf. exists (reaped q). split; [|done].
    assert (Hwp : wp (reap i) (fun r k => r = inr (p_pid q) /\ k = KState (<[i := reaped q]> t) np ip e2) (KState t np ip e)).
    { unfold reap. wp_step. eapply wp_getp; [done|]. wp_step. eapply wp_env; [exact Hkf|].
      wp_step. eapply wp_updp; [done|]. wp_step. eapply wp_env; [exact Hfv|].
      wp_step. apply wp_upd2. by wp_step. }
    apply wp_elim in Hwp as (r & k & Hr & -> & ->). unfold mbind, M_bind. by rewrite Hr.
  - intros Hno kids.
    assert (Hf : find_proc (zombie_child me) t = None).
    { destruct (find_proc (zombie_child me) t) as [i|] eqn:Hf; [|done].
      apply find_proc_Some in Hf as (q & Hi & [Hp Hz]%zombie_child_true & _). by destruct (Hno i q). }
    rewrite Hf. destruct (existsb (child_of me) t) eqn:Hc; simpl.
    + apply has_child in Hc. split; [|by intros _ ->]. intros [Hn| ->]; [by destruct Hn|done].
    + split; [done|]. intros (j & r & Hr & Hp). exfalso. apply not_true_iff_false in Hc. apply Hc, existsb_exists.
      exists r. split; [apply list_elem_of_In; by eapply list_elem_of_lookup_2|]. by apply bool_decide_eq_true.
Qed.

(** The first free slot is one slot. *)
Lemma first_free_inj t i j q r : first_free t i q -> first_free t j r -> i = j /\ q = r.
Proof.
  intros (Hi & Hq & Hlt) (Hj & Hr & Hlt'). destruct (decide (i = j)) as [->|Hne]; [by simplify_eq|].
  destruct (decide (i < j)%nat); [by destruct (Hlt' i q)|]. by destruct (Hlt j r); [lia|..].
Qed.

(** [kill] looks only at the pid, and a slot that was never used, or was
    reaped, has pid 0: [kill(0)] reports success and marks the first free slot
    as killed.  Nothing clears the mark, so the next child that [fork] makes
    is killed before it first runs. *)
Theorem kill_pid_zero_kills_next_fork (S : Type) `{!ProcEnv S} forkret_ trapret_ me t np ip (e : S) p i q0 :
  t !! me = Some p -> p_state p = RUNNING ->
  (forall j r, t !! j = Some r -> p_state r <> UNUSED -> p_pid r <> 0) ->
  first_free t i q0 -> p_pid q0 = 0 -> 0 < np ->
  exists t', kill 0 (KState t np ip e) = Ok 0 (KState t' np ip e) /\
  forall r k, fork forkret_ trapret_ me (KState t' np ip e) = Ok r k -> r <> -1 ->
    exists q', ptable k !! i = Some q' /\ p_state q' = RUNNABLE /\ p_pid q' = r /\ p_killed q' = true.
Proof.
  intros Hme Hp Hused Hff Hpid Hnp. pose proof Hff as (Hi & Hun & Hlt).
  pose proof (lookup_lt_Some _ _ _ Hi) as Hil. exists (<[i := set_killed true q0]> t). split.
  - assert (Hf : find_proc (fun q => p_pid q =? 0) t = Some i).
    { unfold find_proc. replace (list_find _ t) with (Some (i, q0)); [done|]. symmetry. apply list_find_Some.
      split_and!; [done|by rewrite Hpid|]. intros j r Hr Hj Hz%Z.eqb_eq. eapply Hused; [done| |done]. by eapply Hlt. }
    unfold kill, mbind, M_bind, gets, getp, updp, modify, when. simpl. rewrite Hf. simpl.
    rewrite (alter_insert_some _ t i q0), list_lookup_insert_eq by done. simpl. by rewrite Hun.
  - assert (Hff' : first_free (<[i := set_killed true q0]> t) i (set_killed true q0)).
    { split_and!; [by apply list_lookup_insert_eq|done|]. intros j r Hj. rewrite list_lookup_insert_ne by lia. by apply Hlt. }
    assert (Hne : i <> me) by (intros ->; simplify_eq; congruence).
    intros r k Hfork Hr. eapply wlp_ok in Hfork; [|eapply fork_wlp; [by rewrite list_lookup_insert_ne|done]].
    destruct Hfork as (e' & [[-> _]|(j & q1 & q & Hff1 & -> & Hq & Hk & Hc)]); [done|].
    destruct (first_free_inj _ _ _ _ _ Hff' Hff1) as [<- <-].
    destruct Hc as [(-> & _)|(-> & Hs & _)]; [done|]. exists q. split_and!; try done.
    apply list_lookup_insert_eq. by rewrite length_insert.
Qed.

(** ** A run of the system

    Other components that only count the pages they have handed out. *)

Definition page_counter : ProcEnv nat := {|
  pe_kalloc := fun n => Ok (4096 * (Z.of_nat n + 1)) (Datatypes.S n);
  pe_kfree := fun _ => mret tt;
  pe_setupkvm := fun n => Ok (4096 * (Z.of_nat n + 1)) (Datatypes.S n);
  pe_inituvm := fun _ _ => mret tt;
  pe_allocuvm := fun _ _ sz => mret sz;
  pe_deallocuvm := fun _ _ sz => mret sz;
  pe_copyuvm := fun _ _ n => Ok (4096 * (Z.of_nat n + 1)) (Datatypes.S n);
  pe_freevm := fun _ => mret tt;
  pe_filedup := fun f => mret f;
  pe_fileclose := fun _ => mret tt;
  pe_idup := fun i => mret i;
  pe_iput := fun _ => mret tt;
  pe_namei := fun _ => mret (Some 0%nat)
|}.

#[local] Existing Instance page_counter.

#[local] Instance page_counter_laws : ProcEnvLaws nat.
Proof. split; [done|done|]. by intros f e f' e' [= <- _]. Qed.

Definition state_of {S A} (d : S) (o : outcome S A) : S :=
  match o with Ok _ s | Sleep _ s | Panic _ s => s | NoFuel => d end.

Definition k_zero : kstate nat := KState (replicate NPROC proc_zero) 1 None 0%nat.
Definition k_boot : kstate nat := state_of k_zero (userinit 100 200 [] k_zero).
Definition k_run : kstate nat :=
  KState (alter (set_chan None ∘ set_state RUNNING) 0%nat (ptable k_boot))
         (nextpid k_boot) (initproc k_boot) (env k_boot).
Definition k_forked : kstate nat := state_of k_zero (fork 100 200 0 k_run).
Definition k_waits : kstate nat := state_of k_zero (wait 0 k_forked).

Lemma boot_schedule k :
  reachable 100 200 [] (Sys k [CpuSched None 0]) -> scheduler_next 0 (ptable k) = Some 0%nat ->
  reachable 100 200 [] (Sys (KState (alter (set_chan None ∘ set_state RUNNING) 0%nat (ptable k))
                                   (nextpid k) (initproc k) (env k)) [CpuSched (Some 0%nat) 1]).
Proof. intros Hk Hn. eapply reach_step; [exact Hk|]. by apply (st_schedule 100 200 (Sys k [CpuSched None 0]) 0 0 0). Qed.

Lemma run_fork k k' :
  reachable 100 200 [] (Sys k [CpuSched (Some 0%nat) 1]) -> nextpid k < 2 ^ 31 - 1 ->
  fork 100 200 0 k = Ok 2 k' -> reachable 100 200 [] (Sys k' [CpuSched (Some 0%nat) 1]).
Proof.
  intros Hk Hn Hf. eapply reach_step; [exact Hk|].
  by eapply (st_fork 100 200 (Sys k [CpuSched (Some 0%nat) 1]) 0 0).
Qed.

Lemma run_wait k k' :
  reachable 100 200 [] (Sys k [CpuSched (Some 0%nat) 1]) -> wait 0 k = Sleep (ChanProc 0) k' ->
  reachable 100 200 [] (Sys k' [CpuSched None 1]).
Proof.
  intros Hk Hw. eapply reach_step; [exact Hk|].
  by apply (st_wait_sleep 100 200 (Sys k [CpuSched (Some 0%nat) 1]) 0 0 (ChanProc 0) k').
Qed.

(** init forks a child and waits for it. *)
Lemma init_waits_reachable : reachable 100 200 [] (Sys k_waits [CpuSched None 1]).
Proof.
  assert (H0 : reachable 100 200 [] (Sys k_boot [CpuSched None 0])).
  { apply reach_boot. split; [exists 0%nat; by vm_compute|by repeat constructor]. }
  apply (run_wait k_forked); [|by vm_compute]. apply (run_fork k_run); [|by vm_compute..].
  unfold k_run. apply boot_schedule; [exact H0|by vm_compute].
Qed.


Lemma wait_no_lost_exit_witness :
  exists q, ptable k_waits !! 0%nat = Some q /\ p_killed q = false.
Proof.
  destruct (ptable k_waits !! 0%nat) as [q|] eqn:Hq; [|by vm_compute in Hq].
  exists q. split; [reflexivity|].
  assert (Hs : p_state q = SLEEPING) by (vm_compute in Hq; by simplify_eq).
  assert (Hc : p_chan q = Some (ChanProc 0)) by (vm_compute in Hq; by simplify_eq).
  exact (proj1 (wait_no_lost_exit nat 100 200 [] _ 0 q init_waits_reachable Hq Hs Hc)).
Defined.

Lemma scheduler_round_robin_witness :
  0%nat ∈ scheduler_picks 5 (replicate NPROC (ptable k_boot)).
Proof.
  apply scheduler_round_robin; [vm_compute; lia|reflexivity|].
  apply Forall_replicate. split; [reflexivity|]. eexists. split; reflexivity.
Defined.


Lemma wait_correct_witness :
  wait 0 k_run = Ok (-1) k_run.
Proof.
  destruct (ptable k_run !! 0%nat) as [p|] eqn:Hp; [|by vm_compute in Hp].
  assert (Hno : forall j r, ptable k_run !! j = Some r -> p_parent r <> Some 0%nat).
  { intros [|j] r Hr; [vm_compute in Hr; by simplify_eq|].
    assert (Hl : Forall (fun q => p_parent q = None) (ptable k_run)) by (vm_compute; repeat constructor).
    eapply Forall_lookup_1 in Hl; [|exact Hr]. by rewrite Hl. }
  destruct (wait_correct nat 0 (ptable k_run) 2 (Some 0%nat) (env k_run) p eq_refl Hp) as [_ H].
  apply H; [intros j r Hr Hpar; by destruct (Hno j r)|].
  left. intros (j & r & Hr & Hpar). by destruct (Hno j r).
Defined.

Lemma kill_pid_zero_kills_next_fork_witness :
  exists t', kill 0 k_run = Ok 0 (KState t' 2 (Some 0%nat) (env k_run)).
Proof.
  destruct (ptable k_run !! 0%nat) as [p|] eqn:Hp; [|by vm_compute in Hp].
  assert (Hff : first_free (ptable k_run) 1 proc_zero).
  { split; [reflexivity|]. split; [reflexivity|]. intros j r Hj. assert (j = 0)%nat as -> by lia.
    rewrite Hp. intros [= <-]. vm_compute in Hp. by simplify_eq. }
  destruct (kill_pid_zero_kills_next_fork nat 100 200 0 (ptable k_run) 2 (Some 0%nat) (env k_run) p 1 proc_zero)
    as (t' & Hk & _); try done; try (vm_compute in Hp; by simplify_eq).
  - assert (Hl : Forall (fun q => p_state q = UNUSED \/ p_pid q <> 0) (ptable k_run)).
    { vm_compute. repeat (constructor; [by (left + right)|]). constructor. }
    intros j r Hr Hs. eapply Forall_lookup_1 in Hl; [|exact Hr]. by destruct Hl.
  - exists t'. exact Hk.
Defined.
