(* ===== verification/Trap.v ===== *)
(** * Traps and the clock: [src/trap.c], [syscall] and the rest of [src/sysproc.c]

    [trap] on one CPU.  A computation that answers [None] has called exit() and
    never comes back; [elsewhere] is what the rest of the system does between the
    moment this process gives up the CPU and the moment it runs again. *)

From stdpp Require Import base numbers list strings.
From Stdlib Require Import Lia ZArith ZifyBool.
From S2P Require Import Prelude CString Syscall Proc ProcSys.
Open Scope Z_scope.

Definition T_SYSCALL : Z := 64.
Definition T_IRQ0 : Z := 32.
Definition IRQ_TIMER : Z := 0.
Definition IRQ_KBD : Z := 1.
Definition IRQ_COM1 : Z := 4.
Definition IRQ_ETH : Z := 11.
Definition IRQ_IDE : Z := 14.
Definition IRQ_SPURIOUS : Z := 31.

(** ** The interrupt descriptor table *)

(** [SETGATE(gate, istrap, sel, off, d)] *)
Record gatedesc := Gate {
  off_15_0 : Z; gate_cs : Z; gate_args : Z; gate_rsv1 : Z; gate_type : Z; gate_s : Z; gate_dpl : Z; gate_p : Z;
  off_31_16 : Z }.

Definition STS_IG32 : Z := 0xE.
Definition STS_TG32 : Z := 0xF.
Definition SEG_KCODE : Z := 1.

Definition SETGATE (istrap : bool) (sel off d : Z) : gatedesc :=
  Gate (Z.land off 0xffff) sel 0 0 (if istrap then STS_TG32 else STS_IG32) 0 d 1 (Z.shiftr off 16).

(** [vectors]: the addresses of the 256 entry points of vectors.S. *)
Definition tvinit (vectors : nat -> Z) : list gatedesc :=
  <[Z.to_nat T_SYSCALL := SETGATE true (Z.shiftl SEG_KCODE 3) (vectors (Z.to_nat T_SYSCALL)) DPL_USER]>
    ((fun i => SETGATE false (Z.shiftl SEG_KCODE 3) (vectors i) 0) <$> seq 0 256).

(** The vectors a program can raise with an int instruction. *)
Definition user_callable (idt : list gatedesc) (i : nat) : bool :=
  match idt !! i with Some g => (gate_p g =? 1) && (DPL_USER <=? gate_dpl g) | None => false end.

(** ** State *)

(** The processes with the other components, and [ticks]. *)
Record tstate (S : Type) := TState { t_k : kstate S; ticks : Z }.
Arguments TState {S} t_k ticks.
Arguments t_k {S} _.
Arguments ticks {S} _.

(** What trap.c calls of the other components: the device drivers, and the
    system calls of sysfile.c.  [te_mem] is the user memory under a page table. *)
Class TrapEnv (S : Type) := {
  te_mem : S -> Z -> mem;
  te_ideintr : M (kstate S) unit;
  te_kbdintr : M (kstate S) unit;
  te_uartintr : M (kstate S) unit;
  te_ethintr : M (kstate S) unit;
  te_lapiceoi : M S unit;
  te_file_call : sysno -> nat -> M (kstate S) Z
}.

Section Trap.
Context {S : Type} `{!ProcEnv S} `{!TrapEnv S}.
Context (forkret_ trapret_ : Z) (elsewhere : M (tstate S) unit) (fuel : nat).

Notation T := (tstate S).

Definition on_k {A} (m : M (kstate S) A) : M T A := zoom t_k (fun k s => TState k (ticks s)) m.
Definition lapiceoi : M T unit := on_k (on_env te_lapiceoi).

(** ** System calls on processes and the clock *)

Definition uproc_of (k : kstate S) (p : proc) : uproc :=
  UProc (p_sz p) (tf_esp (p_tf p)) (p_killed p) (te_mem (env k) (p_pgdir p)).
Definition arg (me : nat) (n : Z) : M T (option Z) :=
  p ← on_k (getp me); k ← gets t_k; mret (argint (uproc_of k p) n).

(** A call of [m] that sleeps runs it again when it has been woken. *)
Fixpoint complete {A} (n : nat) (me : nat) (m : M T A) : M T A := fun s =>
  match n with
  | O => NoFuel
  | Datatypes.S n =>
      match m s with
      | Sleep _ s' => (elsewhere;; on_k (sleep_return me);; complete n me m) s'
      | r => r
      end
  end.

(** The loop of [sys_sleep] until it returns or sleeps. *)
Definition sleep_ticks (me : nat) (n ticks0 : Z) : M T Z :=
  now ← gets ticks;
  if u32 (now - ticks0) <? u32 n then
    p ← on_k (getp me);
    if p_killed p then mret (-1)
    else on_k (sleep me ChanTicks);; sleep_on ChanTicks
  else mret 0.

Definition sys_sleep (me : nat) : M T Z :=
  a ← arg me 0;
  match a with
  | None => mret (-1)
  | Some n => ticks0 ← gets ticks; complete fuel me (sleep_ticks me n ticks0)
  end.

Definition sys_uptime : M T Z := t ← gets ticks; mret (s32 t).

Definition sys_exit (me : nat) : M T (option Z) := on_k (exit me);; mret None.

Definition handler (me : nat) (h : sysno) : M T (option Z) :=
  let returns (m : M T Z) : M T (option Z) := r ← m; mret (Some r) in
  match h with
  | SYS_exit => sys_exit me
  | SYS_fork => returns (on_k (sys_fork forkret_ trapret_ me))
  | SYS_wait => returns (complete fuel me (on_k (sys_wait me)))
  | SYS_kill => returns (a ← arg me 0; match a with None => mret (-1) | Some pid => on_k (sys_kill pid) end)
  | SYS_getpid => returns (on_k (sys_getpid me))
  | SYS_sbrk => returns (a ← arg me 0; match a with None => mret (-1) | Some n => on_k (sys_sbrk me n) end)
  | SYS_sleep => returns (sys_sleep me)
  | SYS_uptime => returns sys_uptime
  | h => returns (on_k (te_file_call h me))
  end.

Definition set_eax_of (me : nat) (r : Z) : M T unit :=
  on_k (updp me (fun p => set_tf (set_eax (u32 r) (p_tf p)) p)).

Definition syscall (me : nat) : M T (option unit) :=
  p ← on_k (getp me);
  match sys_lookup (s32 (tf_eax (p_tf p))) with
  | Some h =>
      r ← handler me h;
      match r with None => mret None | Some r => set_eax_of me r;; mret (Some tt) end
  | None => set_eax_of me (-1);; mret (Some tt)
  end.

(** ** trap *)

(** [if(proc->killed) exit();] and then [m]. *)
Definition unless_killed (me : nat) (m : M T (option unit)) : M T (option unit) :=
  p ← on_k (getp me);
  if p_killed p then on_k (exit me);; mret None else m.

Definition handle_syscall (me : nat) (tf : trapframe) : M T (option unit) :=
  unless_killed me (
    on_k (updp me (set_tf tf));;
    r ← syscall me;
    match r with
    | None => mret None
    | Some _ => unless_killed me (mret (Some tt))
    end).

(** [id]: cpu->id.  Whether the trap was handled. *)
Definition handle_device_interrupt (id : Z) (tf : trapframe) : M T bool :=
  let no := tf_trapno tf in
  if no =? T_IRQ0 + IRQ_TIMER then
    when (id =? 0) (
      modify (fun s => TState (t_k s) (u32 (ticks s + 1)));;
      on_k (wakeup (Some ChanTicks)));;
    lapiceoi;; mret true
  else if no =? T_IRQ0 + IRQ_IDE then on_k te_ideintr;; lapiceoi;; mret true
  else if no =? T_IRQ0 + IRQ_IDE + 1 then mret true
  else if no =? T_IRQ0 + IRQ_KBD then on_k te_kbdintr;; lapiceoi;; mret true
  else if no =? T_IRQ0 + IRQ_COM1 then on_k te_uartintr;; lapiceoi;; mret true
  else if no =? T_IRQ0 + IRQ_ETH then on_k te_ethintr;; lapiceoi;; mret true
  else if (no =? T_IRQ0 + 7) || (no =? T_IRQ0 + IRQ_SPURIOUS) then lapiceoi;; mret true
  else mret false.

(** [cur]: the variable [proc], null in the scheduler. *)
Definition handle_unexpected_trap (cur : option nat) (tf : trapframe) : M T unit :=
  match cur with
  | Some me => if Z.land (tf_cs tf) 3 =? 0 then panic "trap" else on_k (updp me (set_killed true))
  | None => panic "trap"
  end.

(** [if(proc && proc->killed && (tf->cs&3) == DPL_USER) exit();] *)
Definition exit_if_killed (cur : option nat) (tf : trapframe) (m : M T (option unit)) : M T (option unit) :=
  match cur with
  | Some me => if Z.land (tf_cs tf) 3 =? DPL_USER then unless_killed me m else m
  | None => m
  end.

Definition yield_on_tick (cur : option nat) (tf : trapframe) : M T unit :=
  match cur with
  | Some me =>
      p ← on_k (getp me);
      when (bool_decide (p_state p = RUNNING) && (tf_trapno tf =? T_IRQ0 + IRQ_TIMER))
        (on_k (yield me);; elsewhere)
  | None => mret tt
  end.

Definition trap (id : Z) (cur : option nat) (tf : trapframe) : M T (option unit) :=
  if tf_trapno tf =? T_SYSCALL then
    match cur with Some me => handle_syscall me tf | None => panic "null pointer" end
  else
    handled ← handle_device_interrupt id tf;
    when (negb handled) (handle_unexpected_trap cur tf);;
    exit_if_killed cur tf (
      yield_on_tick cur tf;;
      exit_if_killed cur tf (mret (Some tt))).

End Trap.

(** ** Only the system call gate can be called from user code *)

Lemma user_callable_tvinit vectors i : user_callable (tvinit vectors) i = (i =? Z.to_nat T_SYSCALL)%nat.
Proof.
  unfold user_callable, tvinit. set (f := fun i => SETGATE false _ _ 0).
  destruct (decide (i = Z.to_nat T_SYSCALL)) as [->|Hne].
  - rewrite list_lookup_insert_eq by (rewrite length_fmap, length_seq; unfold T_SYSCALL; lia). done.
  - rewrite list_lookup_insert_ne, list_lookup_fmap by done. replace (i =? _)%nat with false by lia.
    destruct (decide (i < 256)%nat); [rewrite lookup_seq_lt by lia; done|].
    by rewrite lookup_seq_ge by lia.
Qed.

Section Facts.
Context {S : Type} `{!ProcEnv S} `{!TrapEnv S}.
Context (forkret_ trapret_ : Z) (elsewhere : M (tstate S) unit) (fuel : nat).
Implicit Types (me : nat) (s : tstate S).

Definition killed me s : bool := p_killed (default proc_zero (ptable (t_k s) !! me)).

Definition is_device (no : Z) : bool :=
  bool_decide (no ∈ [T_IRQ0 + IRQ_TIMER; T_IRQ0 + IRQ_IDE; T_IRQ0 + IRQ_IDE + 1; T_IRQ0 + IRQ_KBD;
                     T_IRQ0 + IRQ_COM1; T_IRQ0 + IRQ_ETH; T_IRQ0 + 7; T_IRQ0 + IRQ_SPURIOUS]).

Notation lives me := (fun (r : option unit) s => r = Some tt -> killed me s = false) (only parsing).

Notation W := (fun (_ : chan) (_ : tstate S) => True) (only parsing).

(** Whatever [m] does. *)
Lemma wlp_after {A B} (m : M (tstate S) A) (k : A -> M (tstate S) B) Q s :
  (forall a s', wlp (k a) Q W s') -> wlp (m ≫= k) Q W s.
Proof. intros Hk. eapply wlp_seq with (P := fun _ _ => True); [by apply wlp_intro|auto]. Qed.

Lemma unless_killed_lives me m s (Q : option unit -> tstate S -> Prop) :
  (forall s', killed me s = true -> Q None s') -> (killed me s = false -> wlp m Q W s) ->
  wlp (unless_killed me m) Q W s.
Proof.
  intros Hn Hm. unfold unless_killed, getp, on_k. do 3 wlp_step.
  replace (TState (t_k s) (ticks s)) with s by (by destruct s). wlp_step; [|by apply Hm].
  apply wlp_after. intros _ s'. by apply wlp_ret, Hn.
Qed.

Lemma handle_syscall_lives me tf s :
  wlp (handle_syscall forkret_ trapret_ elsewhere fuel me tf) (lives me) W s.
Proof.
  unfold handle_syscall. apply unless_killed_lives; [done|]. intros _.
  apply wlp_after. intros _ s1. apply wlp_after. intros [[]|] s2; [|by wlp_step].
  apply unless_killed_lives; [done|]. intros Hk. by wlp_step.
Qed.

Lemma exit_if_killed_lives me tf m s (Q : option unit -> tstate S -> Prop) :
  Z.land (tf_cs tf) 3 = DPL_USER ->
  (forall s', killed me s = true -> Q None s') -> (killed me s = false -> wlp m Q W s) ->
  wlp (exit_if_killed (Some me) tf m) Q W s.
Proof. intros Hu. unfold exit_if_killed. rewrite Hu. apply unless_killed_lives. Qed.

Lemma handle_device_interrupt_handles id tf s :
  wlp (handle_device_interrupt id tf)
      (fun b s' => b = is_device (tf_trapno tf) /\ (b = false -> s' = s)) W s.
Proof.
  unfold handle_device_interrupt, is_device. set (no := tf_trapno tf).
  repeat (wlp_step; [repeat (apply wlp_after; intros _ ?); wlp_step; split; [|done];
                     symmetry; apply bool_decide_true; rewrite !elem_of_cons; lia|]).
  wlp_step. split; [|done]. symmetry. apply bool_decide_false. rewrite !elem_of_cons, elem_of_nil. lia.
Qed.

(** C22: a killed process does not get back to user mode.  Whatever the devices,
    the system calls and the other processes do meanwhile, when [trap] returns
    from a system call, or from any trap taken in user mode, the process is not
    killed; and a trap that is neither a system call nor a device interrupt,
    taken in user mode, never returns. *)
Theorem killed_process_never_resumes id me tf s s' :
  trap forkret_ trapret_ elsewhere fuel id (Some me) tf s = Ok (Some tt) s' ->
  tf_trapno tf = T_SYSCALL \/ Z.land (tf_cs tf) 3 = DPL_USER ->
  (me < length (ptable (t_k s)))%nat ->
  killed me s' = false /\ (tf_trapno tf = T_SYSCALL \/ is_device (tf_trapno tf) = true).
Proof.
  intros Ht Hu Hme.
  enough (Hw : wlp (trap forkret_ trapret_ elsewhere fuel id (Some me) tf)
     (fun r s' => r = Some tt -> killed me s' = false /\ (tf_trapno tf = T_SYSCALL \/ is_device (tf_trapno tf) = true)) W s)
    by (by apply (wlp_ok _ _ _ _ _ _ Hw Ht)).
  unfold trap. destruct (tf_trapno tf =? T_SYSCALL) eqn:E.
  { eapply wlp_mono; [apply handle_syscall_lives| |done]. intros r s1 Hr Hr1. split; [by apply Hr|left; lia]. }
  destruct Hu as [Hu|Hu]; [lia|]. eapply wlp_seq; [apply handle_device_interrupt_handles|].
  intros b s1 [-> Hb]. cbv beta. destruct (is_device (tf_trapno tf)) eqn:Ed; cbn [negb].
  - apply wlp_after. intros _ s2. apply exit_if_killed_lives; [done|done|]. intros _.
    apply wlp_after. intros _ s3. apply exit_if_killed_lives; [done|done|]. intros Hk. wlp_step. auto.
  - rewrite (Hb eq_refl). unfold handle_unexpected_trap. rewrite Hu. unfold when, on_k, updp.
    do 3 wlp_step. apply exit_if_killed_lives; [done|done|]. unfold killed at 1. cbn [t_k ptable].
    rewrite list_lookup_alter_eq. apply lookup_lt_is_Some in Hme as [p ->]. done.
Qed.

(** The rest of the system lets the process run again at the next tick, and
    does not kill it. *)
Definition next_tick me (m : M (tstate S) unit) : Prop :=
  forall s, exists s', m s = Ok tt s' /\ ticks s' = u32 (ticks s + 1) /\ killed me s' = killed me s.

Lemma killed_updp me f s :
  (forall p, p_killed (f p) = p_killed p) ->
  killed me (TState (KState (alter f me (ptable (t_k s))) (nextpid (t_k s)) (initproc (t_k s)) (env (t_k s))) (ticks s))
  = killed me s.
Proof.
  intros Hf. unfold killed. cbn [t_k ptable]. rewrite list_lookup_alter_eq.
  destruct (ptable (t_k s) !! me); [apply Hf|done].
Qed.

Lemma on_k_getp me s : on_k (getp me) s = Ok (default proc_zero (ptable (t_k s) !! me)) s.
Proof. by destruct s. Qed.

(** One round of the loop of [sys_sleep]. *)
Lemma sleep_ticks_once me n ticks0 s :
  if u32 (ticks s - ticks0) <? u32 n then
    if killed me s then sleep_ticks me n ticks0 s = Ok (-1) s
    else exists s', sleep_ticks me n ticks0 s = Sleep ChanTicks s' /\ ticks s' = ticks s /\ killed me s' = false
  else sleep_ticks me n ticks0 s = Ok 0 s.
Proof.
  unfold sleep_ticks, mbind, M_bind, gets. cbn beta iota. destruct (_ <? _); [|done].
  rewrite on_k_getp. fold (killed me s).
  destruct (killed me s) eqn:E; [done|]. eexists. split; [reflexivity|].
  split; [done|]. cbn [t_k ticks]. rewrite killed_updp by done. exact E.
Qed.

Lemma sleep_ticks_on_time me n ticks0 k f j s :
  next_tick me elsewhere -> 0 <= ticks0 < 2 ^ 32 -> killed me s = false ->
  ticks s = u32 (ticks0 + j) -> 0 <= j -> u32 n = j + Z.of_nat k -> (k < f)%nat ->
  exists s', complete elsewhere f me (sleep_ticks me n ticks0) s = Ok 0 s' /\
             ticks s' = u32 (ticks0 + u32 n).
Proof.
  intros Htick H0. revert f j s. induction k as [|k IH]; intros [|f] j s Hk Hs Hj Hn Hf; [lia| |lia|].
  all: pose proof (u32_range n); pose proof (sleep_ticks_once me n ticks0 s) as H1.
  all: assert (Hj' : u32 (ticks s - ticks0) = j) by (rewrite Hs; unfold u32 in *; Z.div_mod_to_equations; lia).
  all: rewrite Hj' in H1; cbn [complete].
  - replace (j <? u32 n) with false in H1 by lia. rewrite H1. exists s. split; [done|]. rewrite Hs. f_equal. lia.
  - replace (j <? u32 n) with true in H1 by lia. rewrite Hk in H1. destruct H1 as (s1 & -> & Ht1 & Hk1).
    destruct (Htick s1) as (s2 & H2 & Ht2 & Hk2). unfold mbind at 1, M_bind at 1. rewrite H2.
    unfold mbind, M_bind, on_k, zoom, sleep_return, updp, modify. cbn beta iota.
    apply (IH _ (j + 1)); [| |lia|lia|lia].
    + rewrite killed_updp by done. by rewrite Hk2.
    + cbn [ticks]. rewrite Ht2, Ht1, Hs, u32_add_l. f_equal. lia.
Qed.

(** [sys_sleep] wakes up on time.  Woken at every tick of the clock and not
    killed, sleep(n) returns 0 when exactly n ticks have passed (n as an
    unsigned number), also across the wrap of the 32-bit counter; a process
    that is killed before that gets -1 at once. *)
Theorem sys_sleep_on_time me n s :
  next_tick me elsewhere -> 0 <= ticks s < 2 ^ 32 ->
  argint (uproc_of (t_k s) (default proc_zero (ptable (t_k s) !! me))) 0 = Some n ->
  (Z.to_nat (u32 n) < fuel)%nat ->
  if killed me s && (0 <? u32 n) then sys_sleep elsewhere fuel me s = Ok (-1) s
  else exists s', sys_sleep elsewhere fuel me s = Ok 0 s' /\ ticks s' = u32 (ticks s + u32 n).
Proof.
  intros Htick H0 Harg Hf.
  assert (Hrun : sys_sleep elsewhere fuel me s = complete elsewhere fuel me (sleep_ticks me n (ticks s)) s).
  { unfold sys_sleep, arg, mbind, M_bind. rewrite on_k_getp. unfold gets, mret, M_ret. by rewrite Harg. }
  rewrite Hrun. destruct (killed me s && (0 <? u32 n)) eqn:E.
  - destruct fuel as [|f]; [lia|]. cbn [complete]. pose proof (sleep_ticks_once me n (ticks s) s) as H1.
    rewrite Z.sub_diag in H1. change (u32 0) with 0 in H1. apply andb_true_iff in E as [Ek En].
    rewrite En, Ek in H1. by rewrite H1.
  - destruct (killed me s) eqn:Ek.
    + destruct fuel as [|f]; [lia|]. cbn [complete]. pose proof (sleep_ticks_once me n (ticks s) s) as H1.
      rewrite Z.sub_diag in H1. change (u32 0) with 0 in H1. simpl in E. rewrite E in H1. rewrite H1.
      exists s. split; [done|]. pose proof (u32_range n). replace (u32 n) with 0 by lia. by rewrite Z.add_0_r, u32_small.
    + pose proof (u32_range n). apply (sleep_ticks_on_time me n (ticks s) (Z.to_nat (u32 n)) fuel 0); try done; [|lia].
      by rewrite Z.add_0_r, u32_small.
Qed.

End Facts.

(** ** Examples *)

#[local] Existing Instance ProcSys.page_counter.

(** Devices that do nothing; the first argument of a call is 3. *)
Definition quiet : TrapEnv nat := {|
  te_mem := fun _ _ a => if a =? 4100 then 3 else 0;
  te_ideintr := mret tt; te_kbdintr := mret tt; te_uartintr := mret tt; te_ethintr := mret tt;
  te_lapiceoi := mret tt; te_file_call := fun _ _ => mret 0
|}.

#[local] Existing Instance quiet.

Definition tf_timer : trapframe := TF 0 0 0 0 0 0 0 0 0 0 0 0 (T_IRQ0 + IRQ_TIMER) 0 0 0x23 0 0 0.
Definition tick : M (tstate nat) unit := handle_device_interrupt 0 tf_timer;; mret tt.

Lemma tick_next me : next_tick me tick.
Proof.
  intros s. eexists. split; [reflexivity|]. split; [done|]. unfold killed. cbn [t_k ptable].
  rewrite list_lookup_fmap. destruct (ptable (t_k s) !! me) as [p|]; [|done]. simpl. unfold wakes. by case_match.
Qed.

Definition at_wrap : tstate nat :=
  TState (KState (alter (set_sz 8192) 0%nat (ptable ProcSys.k_run)) 2 (Some 0%nat) 0%nat) (2 ^ 32 - 1).

Lemma sys_sleep_on_time_witness :
  exists s', sys_sleep tick 4 0 at_wrap = Ok 0 s' /\ ticks s' = u32 (ticks at_wrap + u32 3).
Proof.
  pose proof (sys_sleep_on_time tick 4 0 3 at_wrap (tick_next 0) ltac:(split; [vm_compute; discriminate|vm_compute; reflexivity])
    ltac:(vm_compute; reflexivity) ltac:(vm_compute; lia)) as H.
  assert (Hk : killed 0 at_wrap && (0 <? u32 3) = false) by (vm_compute; reflexivity).
  rewrite Hk in H. exact H.
Defined.

(** A timer interrupt in user mode. *)
Lemma killed_process_never_resumes_witness :
  exists s', trap 100 200 (mret tt) 1 0 (Some 0%nat) tf_timer at_wrap = Ok (Some tt) s' /\ killed 0 s' = false.
Proof.
  assert (Hr : returned (trap 100 200 (mret tt) 1 0 (Some 0%nat) tf_timer at_wrap) = Some (Some tt))
    by (vm_compute; reflexivity).
  apply returned_Ok in Hr as [s' E]. exists s'. split; [exact E|].
  apply (killed_process_never_resumes 100 200 (mret tt) 1 0 0 tf_timer at_wrap s' E); [right; reflexivity|].
  apply Nat.ltb_lt. vm_compute. reflexivity.
Defined.

