(* ===== verification/User.v ===== *)
(** * User programs: [src/user.h], [src/usys.S], [src/printf.c], [src/ulib.c]

    A user program is a tree: at each node a system call, with a subtree for
    every answer.  [sys c] is the stub of usys.S for the call [c]; the
    functions of the user library that make system calls ([printf], [gets],
    [stat]) are such trees.

    [run] runs a program in a process: what the kernel answers where the
    outcome depends on the rest of the system is an oracle, that may look at
    all that has happened before; descriptors and the data read are computed. *)

From stdpp Require Import base numbers list strings gmap.
From Stdlib Require Import Lia ZArith ZifyBool.
From S2P Require Import Prelude Fs.
Open Scope Z_scope.

Definition chars (s : string) : list Z := (fun a => Z.of_nat (Ascii.nat_of_ascii a)) <$> String.list_ascii_of_string s.

(** ** Programs *)

Inductive call :=
| Sfork | Swait | Spipe
| Swrite (fd : Z) (bs : list Z)
| Sread (fd : Z) (n : Z)
| Sclose (fd : Z)
| Skill (pid : Z)
| Sexec (path : list Z) (argv : list (list Z))
| Sopen (path : list Z) (mode : Z)
| Smknod (path : list Z) (major minor : Z)
| Sunlink (path : list Z)
| Sfstat (fd : Z)
| Slink (old new : list Z)
| Smkdir (path : list Z)
| Schdir (path : list Z)
| Sdup (fd : Z)
| Sgetpid
| Ssbrk (n : Z)
| Ssleep (n : Z)
| Suptime
| Sioctl (fd request : Z).

(** What a call gives its caller: an int; for [read] the bytes, for [pipe] the
    two descriptors and for [fstat] the struct, or -1. *)
Definition answer (c : call) : Set :=
  match c with
  | Spipe => option (Z * Z)
  | Sread _ _ => option (list Z)
  | Sfstat _ => option stat
  | _ => Z
  end.

Inductive prog (A : Type) : Type :=
| Ret (a : A)
| Exit
| OutOfFuel
| Vis (c : call) (k : answer c -> prog A).
Arguments Ret {A} a.
Arguments Exit {A}.
Arguments OutOfFuel {A}.
Arguments Vis {A} c k.

Global Instance prog_ret : MRet prog := fun A => Ret.
Global Instance prog_bind : MBind prog := fun A B k =>
  fix go (p : prog A) : prog B :=
    match p with
    | Ret a => k a
    | Exit => Exit
    | OutOfFuel => OutOfFuel
    | Vis c h => Vis c (fun r => go (h r))
    end.

Definition sys (c : call) : prog (answer c) := Vis c Ret.

(** ** printf *)

(** [write(fd, &c, 1)] *)
Definition putc (fd c : Z) : prog unit := _ ← sys (Swrite fd [c]); Ret ().

Fixpoint puts (fd : Z) (s : list Z) : prog unit :=
  match s with
  | [] => Ret ()
  | c :: s => _ ← putc fd c; puts fd s
  end.

(** static char digits[] = "0123456789ABCDEF" *)
Definition udigits : list Z := chars "0123456789ABCDEF".

(** [buf] from its start. *)
Fixpoint uprintint_buf (fuel : nat) (base x : Z) : list Z :=
  match fuel with
  | O => []
  | S fuel => default 0 (udigits !! Z.to_nat (x mod base)) :: (if x / base =? 0 then [] else uprintint_buf fuel base (x / base))
  end.

Definition uprintint (fd xx base : Z) (sgn : bool) : prog unit :=
  let neg := sgn && (xx <? 0) in
  let x := if neg then u32 (- xx) else u32 xx in
  puts fd (rev (uprintint_buf 32 base x ++ (if neg then [45] else []))).

(** The words after the format: an int, or the address of a string. *)
Inductive arg := Aint (x : Z) | Astr (s : option (list Z)).

Definition word_of (ap : list arg) : Z := match ap with Aint x :: _ => x | _ => 0 end.
Definition str_of (ap : list arg) : list Z :=
  match ap with Astr (Some s) :: _ => s | Astr None :: _ => chars "(null)" | _ => [] end.

(** [percent] is the variable [state]. *)
Fixpoint printf_from (fd : Z) (percent : bool) (fmt : list Z) (ap : list arg) : prog unit :=
  match fmt with
  | [] => Ret ()
  | c :: fmt =>
      if negb percent then
        if c =? 37 then printf_from fd true fmt ap
        else _ ← putc fd c; printf_from fd false fmt ap
      else if c =? 100 then
        _ ← uprintint fd (s32 (word_of ap)) 10 true; printf_from fd false fmt (tail ap)
      else if (c =? 120) || (c =? 112) then
        _ ← uprintint fd (s32 (word_of ap)) 16 false; printf_from fd false fmt (tail ap)
      else if c =? 115 then
        _ ← puts fd (str_of ap); printf_from fd false fmt (tail ap)
      else if c =? 99 then
        _ ← putc fd (u8 (word_of ap)); printf_from fd false fmt (tail ap)
      else if c =? 37 then
        _ ← putc fd c; printf_from fd false fmt ap
      else
        _ ← putc fd 37; _ ← putc fd c; printf_from fd false fmt ap
  end.

Definition printf (fd : Z) (fmt : string) (ap : list arg) : prog unit := printf_from fd false (chars fmt) ap.

Definition NL : string := String (Ascii.ascii_of_nat 10) EmptyString.

(** ** ulib *)

(** The loop of [gets], for [n] more characters. *)
Fixpoint gets_from (n : nat) : prog (list Z) :=
  match n with
  | O => Ret []
  | S n =>
      r ← sys (Sread 0 1);
      match r with
      | Some (c :: _) => if (c =? 10) || (c =? 13) then Ret [c] else rest ← gets_from n; Ret (c :: rest)
      | _ => Ret []
      end
  end.

(** The string that [gets(buf, max)] leaves in [buf]. *)
Definition gets (max : Z) : prog (list Z) := gets_from (Z.to_nat (max - 1)).

Definition stat_path (n : list Z) : prog (option stat) :=
  fd ← sys (Sopen n 0);
  if fd <? 0 then Ret None
  else r ← sys (Sfstat fd); _ ← sys (Sclose fd); Ret r.

(** ** Processes *)

(** What a descriptor is open on: what the process was started with, a file
    opened by the [id]-th call that made an object, or an end of a pipe. *)
Inductive obj := Std (i : nat) | Opened (id : nat) (path : list Z) (mode : Z) | PipeR (id : nat) | PipeW (id : nat).

Definition NOFILE : nat := 16.

(** The descriptor table. *)
Abbreviation table := (list (option obj)).

Inductive event :=
| Wrote (o : obj) (bs : list Z)
| Did (c : call)                                    (* any other call with an effect *)
| Execs (path : list Z) (argv : list (list Z)) (t : table)   (* [exec], with the descriptors of the image *)
| Waits (t : table)                                 (* [wait], with the descriptors of the caller *)
| Ends (t : table).                                 (* [exit] *)

Record ust := UState {
  log : list event;            (* what all processes did, so far *)
  next : nat;                  (* objects made *)
  input : gmap nat (list Z);   (* the bytes left to read in the files opened *)
  stdin : list Z;              (* the bytes left on [Std 0] *)
  chunks : list nat            (* how many bytes the next calls of [read] give at most *)
}.

Definition say (e : event) (s : ust) : ust := UState (log s ++ [e]) (next s) (input s) (stdin s) (chunks s).
Definition fresh (s : ust) : ust := UState (log s) (S (next s)) (input s) (stdin s) (chunks s).

Inductive done (A : Type) := Returned (a : A) (t : table) | Ended | Stuck.
Arguments Returned {A} a t.
Arguments Ended {A}.
Arguments Stuck {A}.

(** The first free descriptor. *)
Fixpoint free_fd (t : table) : option nat :=
  match t with
  | [] => None
  | None :: _ => Some 0%nat
  | Some _ :: t => S <$> free_fd t
  end.

Definition fd_get (t : table) (fd : Z) : option obj := if fd <? 0 then None else mjoin (t !! Z.to_nat fd).

(** Put [o] in the first free descriptor. *)
Definition fd_alloc (t : table) (o : obj) : option (Z * table) :=
  n ← free_fd t; Some (Z.of_nat n, <[n := Some o]> t).

Section Run.
(** What the kernel answers where the call can fail or depends on others. *)
Context (oracle : list event -> call -> Z).
(** The bytes of a file when it is opened. *)
Context (content : list event -> list Z -> list Z).
Context (fstat_of : list event -> obj -> stat).

Definition avail (s : ust) (o : obj) : list Z :=
  match o with Std _ => stdin s | Opened id _ _ => default [] (input s !! id) | _ => [] end.

(** The next bytes of [o], at most [n], and at least one when there is one. *)
Definition take_bytes (o : obj) (n : nat) (s : ust) : list Z * ust :=
  let all := avail s o in
  let k := match chunks s with c :: _ => Nat.min n (S c) | [] => n end in
  let cs := tail (chunks s) in
  (take k all,
   match o with
   | Opened id _ _ => UState (log s) (next s) (<[id := drop k all]> (input s)) (stdin s) cs
   | Std _ => UState (log s) (next s) (input s) (drop k all) cs
   | _ => UState (log s) (next s) (input s) (stdin s) cs
   end).

(** One call of a process that is neither [fork], [exec] nor [exit]. *)
Definition do_call (c : call) (t : table) (s : ust) : answer c * table * ust :=
  match c return answer c * table * ust with
  | Sopen path mode =>
      if oracle (log s) (Sopen path mode) <? 0 then (-1, t, s) else
      match fd_alloc t (Opened (next s) path mode) with
      | Some (fd, t) =>
          (fd, t, UState (log s) (S (next s)) (<[next s := content (log s) path]> (input s)) (stdin s) (chunks s))
      | None => (-1, t, s)
      end
  | Sclose fd => match fd_get t fd with Some _ => (0, <[Z.to_nat fd := None]> t, s) | None => (-1, t, s) end
  | Sdup fd =>
      match fd_get t fd with
      | Some o => match fd_alloc t o with Some (fd, t) => (fd, t, s) | None => (-1, t, s) end
      | None => (-1, t, s)
      end
  | Spipe =>
      if oracle (log s) Spipe <? 0 then (None, t, s) else
      match fd_alloc t (PipeR (next s)) with
      | Some (fd0, t1) =>
          match fd_alloc t1 (PipeW (next s)) with Some (fd1, t2) => (Some (fd0, fd1), t2, fresh s) | None => (None, t, s) end
      | None => (None, t, s)
      end
  | Swrite fd bs => match fd_get t fd with Some o => (Z.of_nat (length bs), t, say (Wrote o bs) s) | None => (-1, t, s) end
  | Sread fd n =>
      match fd_get t fd with
      | Some o => if oracle (log s) (Sread fd n) <? 0 then (None, t, s)
                  else let '(bs, s) := take_bytes o (Z.to_nat n) s in (Some bs, t, s)
      | None => (None, t, s)
      end
  | Sfstat fd =>
      match fd_get t fd with
      | Some o => if oracle (log s) (Sfstat fd) <? 0 then (None, t, s) else (Some (fstat_of (log s) o), t, s)
      | None => (None, t, s)
      end
  | Swait => (oracle (log s) Swait, t, say (Waits t) s)
  | c => (oracle (log s) c, t, say (Did c) s)
  end.

(** Run [p]: a child runs first, to its end; the processes share nothing but
    the objects, so this order shows what each of them does.  A child or a
    program that returns from its main function is stuck: [main] of every
    program ends with [exit]. *)
Fixpoint run {A} (p : prog A) (t : table) (s : ust) : done A * ust :=
  match p with
  | Ret a => (Returned a t, s)
  | Exit => (Ended, say (Ends t) s)
  | OutOfFuel => (Stuck, s)
  | Vis c k =>
      match c as c return (answer c -> prog A) -> done A * ust with
      | Sfork => fun k =>
          let pid := oracle (log s) Sfork in
          if pid <? 0 then run (k (-1)) t s
          else match run (k 0) t (say (Did Sfork) s) with
               | (Ended, s) => run (k pid) t s
               | (_, s) => (Stuck, s)
               end
      | Sexec path argv => fun k =>
          if oracle (log s) (Sexec path argv) <? 0 then run (k (-1)) t s
          else (Ended, say (Execs path argv t) s)
      | c => fun k => let '(r, t, s) := do_call c t s in run (k r) t s
      end k
  end.
End Run.

(** ** Output *)

(** The characters [printf] prints. *)
Fixpoint fmt_text (percent : bool) (fmt : list Z) (ap : list arg) : list Z :=
  match fmt with
  | [] => []
  | c :: fmt =>
      if negb percent then if c =? 37 then fmt_text true fmt ap else c :: fmt_text false fmt ap
      else
        let num base sgn :=
          let neg := sgn && (s32 (word_of ap) <? 0) in
          rev (uprintint_buf 32 base (if neg then u32 (- s32 (word_of ap)) else u32 (s32 (word_of ap))) ++ (if neg then [45] else [])) in
        if c =? 100 then num 10 true ++ fmt_text false fmt (tail ap)
        else if (c =? 120) || (c =? 112) then num 16 false ++ fmt_text false fmt (tail ap)
        else if c =? 115 then str_of ap ++ fmt_text false fmt (tail ap)
        else if c =? 99 then u8 (word_of ap) :: fmt_text false fmt (tail ap)
        else if c =? 37 then c :: fmt_text false fmt ap
        else 37 :: c :: fmt_text false fmt ap
  end.

(** [bs] written one character at a time. *)
Definition wrote (o : obj) (bs : list Z) (s : ust) : ust := foldl (fun s c => say (Wrote o [c]) s) s bs.

Lemma wrote_app o a b s : wrote o (a ++ b) s = wrote o b (wrote o a s).
Proof. apply foldl_app. Qed.

Lemma wrote_log o bs s : wrote o bs s = UState (log s ++ ((fun c => Wrote o [c]) <$> bs)) (next s) (input s) (stdin s) (chunks s).
Proof.
  revert s. induction bs as [|c bs IH]; intros s; [by destruct s; simpl; rewrite app_nil_r|].
  simpl. rewrite IH. simpl. by rewrite <- app_assoc.
Qed.

(** What [open] of [file] does to the state. *)
Definition opens (content : list event -> list Z -> list Z) (file : list Z) (s : ust) : ust :=
  UState (log s) (S (next s)) (<[next s := content (log s) file]> (input s)) (stdin s) (chunks s).

Section Output.
Context (oracle : list event -> call -> Z) (content : list event -> list Z -> list Z) (fstat_of : list event -> obj -> stat).
Abbreviation run := (run oracle content fstat_of).

Lemma run_bind_assoc {A B C} (m : prog A) (f : A -> prog B) (g : B -> prog C) t s :
  run ((m ≫= f) ≫= g) t s = run (m ≫= fun x => f x ≫= g) t s.
Proof.
  revert t s. induction m as [a| | |c k IH]; intros t s; [done..|]. cbn [mbind prog_bind User.run] in *.
  destruct c; cbv zeta; rewrite ?IH; try done.
  1: { destruct (_ <? 0); [done|]. destruct (run _ _ _) as [[] s0]; done || apply IH. }
  all: match goal with |- context [do_call ?a ?b ?c ?d ?e ?f] => destruct (do_call a b c d e f) as [[r t'] s'] end; apply IH.
Qed.

Lemma run_putc {A} fd c o (k : unit -> prog A) t s :
  fd_get t fd = Some o -> run (putc fd c ≫= k) t s = run (k ()) t (say (Wrote o [c]) s).
Proof. intros Ho. simpl. by rewrite Ho. Qed.

Lemma run_puts {A} fd bs o (k : unit -> prog A) t s :
  fd_get t fd = Some o -> run (puts fd bs ≫= k) t s = run (k ()) t (wrote o bs s).
Proof.
  intros Ho. revert s. induction bs as [|c bs IH]; intros s; [done|]. cbn [puts].
  rewrite run_bind_assoc, (run_putc _ _ _ _ _ _ Ho). apply IH.
Qed.

Lemma run_printf_from {A} fd percent fmt ap o (k : unit -> prog A) t s :
  fd_get t fd = Some o -> run (printf_from fd percent fmt ap ≫= k) t s = run (k ()) t (wrote o (fmt_text percent fmt ap) s).
Proof.
  intros Ho. revert percent ap s. induction fmt as [|c fmt IH]; intros percent ap s; [done|].
  cbn [printf_from fmt_text]. unfold uprintint. destruct percent; cbv [negb]; repeat case_match;
    rewrite ?run_bind_assoc, ?(run_putc _ _ _ _ _ _ Ho), ?run_bind_assoc, ?(run_putc _ _ _ _ _ _ Ho), ?(run_puts _ _ _ _ _ _ Ho), ?IH, ?wrote_app; done.
Qed.

Lemma run_printf {A} fd fmt ap o (k : unit -> prog A) t s :
  fd_get t fd = Some o -> run (printf fd fmt ap ≫= k) t s = run (k ()) t (wrote o (fmt_text false (chars fmt) ap) s).
Proof. apply run_printf_from. Qed.

(** Calls on a known table. *)
Lemma run_close {A} fd o (k : Z -> prog A) t s :
  fd_get t fd = Some o -> run (sys (Sclose fd) ≫= k) t s = run (k 0) (<[Z.to_nat fd := None]> t) s.
Proof. intros H. cbn [mbind prog_bind sys User.run do_call]. by rewrite H. Qed.

Lemma run_dup {A} fd o fd' t' (k : Z -> prog A) t s :
  fd_get t fd = Some o -> fd_alloc t o = Some (fd', t') -> run (sys (Sdup fd) ≫= k) t s = run (k fd') t' s.
Proof. intros H1 H2. cbn [mbind prog_bind sys User.run do_call]. by rewrite H1, H2. Qed.

Lemma run_open {A} file mode fd' t' (k : Z -> prog A) t s :
  0 <= oracle (log s) (Sopen file mode) -> fd_alloc t (Opened (next s) file mode) = Some (fd', t') ->
  run (sys (Sopen file mode) ≫= k) t s = run (k fd') t' (opens content file s).
Proof. intros H1 H2. cbn [mbind prog_bind sys User.run do_call]. replace (_ <? 0) with false by lia. by rewrite H2. Qed.

Lemma run_open_fails {A} file mode (k : Z -> prog A) t s :
  oracle (log s) (Sopen file mode) < 0 -> run (sys (Sopen file mode) ≫= k) t s = run (k (-1)) t s.
Proof. intros H1. cbn [mbind prog_bind sys User.run do_call]. by replace (_ <? 0) with true by lia. Qed.

Lemma run_exec_fails {A} path argv (k : Z -> prog A) t s :
  oracle (log s) (Sexec path argv) < 0 -> run (sys (Sexec path argv) ≫= k) t s = run (k (-1)) t s.
Proof. intros H1. cbn [mbind prog_bind sys User.run]. by replace (_ <? 0) with true by lia. Qed.

Lemma run_exec {A} path argv (k : Z -> prog A) t s :
  0 <= oracle (log s) (Sexec path argv) -> run (sys (Sexec path argv) ≫= k) t s = (Ended, say (Execs path argv t) s).
Proof. intros H1. cbn [mbind prog_bind sys User.run]. by replace (_ <? 0) with false by lia. Qed.

End Output.
