(* ===== verification/Sh.v ===== *)
(** * The shell's parser: [src/sh.c]

    The parser works on one line, in place: a token is a pair of pointers into
    the line, and [nulterminate] stores a null at the end of each token of the
    command once it is complete.  [ps] is modelled by the characters from it to
    [es]; a pointer is the number of characters before it.  The commands that
    malloc'ed structs hold are values of [cmd]. *)

From stdpp Require Import base numbers list strings.
From Stdlib Require Import Lia ZArith ZifyBool.
From S2P Require Import Prelude User.
Open Scope Z_scope.

Definition MAXARGS : nat := 10.

Definition O_RDONLY : Z := 0x000.
Definition O_WRONLY : Z := 0x001.
Definition O_CREATE : Z := 0x200.

(** The characters of " \t\r\n\v" and of the symbols. *)
Definition whitespace : list Z := [32; 9; 13; 10; 11].
Definition LT : Z := 60.
Definition BAR : Z := 124.
Definition GT : Z := 62.
Definition AMP : Z := 38.
Definition SEMI : Z := 59.
Definition LPAR : Z := 40.
Definition RPAR : Z := 41.
Definition symbols : list Z := [LT; BAR; GT; AMP; SEMI; LPAR; RPAR].

(** What [gettoken] returns for a word and for the symbol for appending. *)
Definition WORD : Z := 97.
Definition APPEND : Z := 43.

(** [strchr(set, c) != 0]; the null is in no set. *)
Definition strchr (set : list Z) (c : Z) : bool := existsb (Z.eqb c) set.
Arguments strchr : simpl never.

(** ** Commands *)

(** A token: the offsets of its first character and of the one after it. *)
Record token := Token { q : nat; eq_ : nat }.

(** The struct types of sh.c; [S] is how strings are given: as tokens by the
    parser, as characters once they are read. *)
Inductive cmd (S : Type) : Type :=
| EXEC (argv : list S)
| REDIR (cmd : cmd S) (file : S) (mode fd : Z)
| PIPE (left right : cmd S)
| LIST (left right : cmd S)
| BACK (cmd : cmd S).
Arguments EXEC {S} argv.
Arguments REDIR {S} cmd file mode fd.
Arguments PIPE {S} left right.
Arguments LIST {S} left right.
Arguments BACK {S} cmd.

(** ** Tokens *)

Fixpoint skip_ws (s : list Z) : list Z :=
  match s with
  | c :: t => if strchr whitespace c then skip_ws t else s
  | [] => []
  end.

Fixpoint skip_word (s : list Z) : list Z :=
  match s with
  | c :: t => if negb (strchr whitespace c) && negb (strchr symbols c) then skip_word t else s
  | [] => []
  end.

(** The token at [s], which starts with no white space: what [gettoken]
    returns and the characters after the token. *)
Definition token_at (s : list Z) : Z * list Z :=
  match s with
  | [] => (0, s)
  | c :: t =>
      if c =? 0 then (0, s)
      else if strchr [BAR; LPAR; RPAR; SEMI; AMP; LT] c then (c, t)
      else if c =? GT then match t with c' :: t' => if c' =? GT then (APPEND, t') else (c, t) | [] => (c, t) end
      else (WORD, skip_word s)
  end.

Section Parse.
Context (len : nat).    (* strlen of the line *)

Definition offset (s : list Z) : nat := (len - length s)%nat.

Definition gettoken (s : list Z) : Z * token * list Z :=
  let s := skip_ws s in
  let '(ret, e) := token_at s in
  (ret, Token (offset s) (offset e), skip_ws e).

Definition peek (s : list Z) (toks : list Z) : list Z * bool :=
  let s := skip_ws s in
  (s, match s with c :: _ => negb (c =? 0) && strchr toks c | [] => false end).

(** ** Parsing *)

(** [panic] prints the message and a newline. *)
Definition panic_text (msg : string) : list Z := chars msg ++ [10].

Inductive result (A : Type) : Type :=
| Parsed (a : A) (s : list Z)
| Panic_ (out : list Z)      (* what is printed on descriptor 2 before [exit] *)
| NoFuel_.
Arguments Parsed {A} a s.
Arguments Panic_ {A} out.
Arguments NoFuel_ {A}.

Definition rbind {A B} (r : result A) (k : A -> list Z -> result B) : result B :=
  match r with Parsed a s => k a s | Panic_ m => Panic_ m | NoFuel_ => NoFuel_ end.

(** A redirection that [parseredirs] puts around the command. *)
Record redir := Redir { r_file : token; r_mode : Z; r_fd : Z }.
Definition redircmd (c : cmd token) (r : redir) : cmd token := REDIR c (r_file r) (r_mode r) (r_fd r).

(** The loop of [parseredirs], with the redirections found before; each round
    takes at least one character, so [fuel] counts characters. *)
Fixpoint parseredirs (fuel : nat) (rs : list redir) (s : list Z) : result (list redir) :=
  match fuel with
  | O => NoFuel_
  | S fuel =>
      let '(s, b) := peek s [LT; GT] in
      if b then
        let '(tok, _, s) := gettoken s in
        let '(tok2, w, s) := gettoken s in
        if negb (tok2 =? WORD) then Panic_ (panic_text "missing file for redirection")
        else
          let rs := if tok =? LT then rs ++ [Redir w O_RDONLY 0]
                    else if (tok =? GT) || (tok =? APPEND) then rs ++ [Redir w (Z.lor O_WRONLY O_CREATE) 1]
                    else rs in
          parseredirs fuel rs s
      else Parsed rs s
  end.

(** The loop of [parseexec]: the arguments and the redirections so far.  The
    struct execcmd is filled in place, inside the redirections around it. *)
Fixpoint parseargs (fuel : nat) (argv : list token) (rs : list redir) (s : list Z)
    : result (list token * list redir) :=
  match fuel with
  | O => NoFuel_
  | S fuel =>
      let '(s, b) := peek s [BAR; RPAR; AMP; SEMI] in
      if b then Parsed (argv, rs) s
      else
        let '(tok, w, s) := gettoken s in
        if tok =? 0 then Parsed (argv, rs) s
        else if negb (tok =? WORD) then Panic_ (panic_text "syntax")
        else
          let argv := argv ++ [w] in
          if (MAXARGS <=? length argv)%nat then Panic_ (panic_text "too many args")
          else rbind (parseredirs (S (length s)) rs s) (parseargs fuel argv)
  end.

(** [while(peek(ps, es, "&")){ gettoken(ps, es, 0, 0); cmd = backcmd(cmd); }] *)
Fixpoint parsebacks (fuel : nat) (c : cmd token) (s : list Z) : result (cmd token) :=
  match fuel with
  | O => NoFuel_
  | S fuel =>
      let '(s, b) := peek s [AMP] in
      if b then let '(_, _, s) := gettoken s in parsebacks fuel (BACK c) s
      else Parsed c s
  end.

Fixpoint parseline (fuel : nat) (s : list Z) : result (cmd token) :=
  match fuel with
  | O => NoFuel_
  | S fuel =>
      rbind (parsepipe fuel s) (fun c s =>
      rbind (parsebacks (S (length s)) c s) (fun c s =>
      let '(s, b) := peek s [SEMI] in
      if b then
        let '(_, _, s) := gettoken s in
        rbind (parseline fuel s) (fun r s => Parsed (LIST c r) s)
      else Parsed c s))
  end
with parsepipe (fuel : nat) (s : list Z) : result (cmd token) :=
  match fuel with
  | O => NoFuel_
  | S fuel =>
      rbind (parseexec fuel s) (fun c s =>
      let '(s, b) := peek s [BAR] in
      if b then
        let '(_, _, s) := gettoken s in
        rbind (parsepipe fuel s) (fun r s => Parsed (PIPE c r) s)
      else Parsed c s)
  end
with parseexec (fuel : nat) (s : list Z) : result (cmd token) :=
  match fuel with
  | O => NoFuel_
  | S fuel =>
      let '(s, b) := peek s [LPAR] in
      if b then parseblock fuel s
      else
        rbind (parseredirs (S (length s)) [] s) (fun rs s =>
        rbind (parseargs (S (length s)) [] rs s) (fun '(argv, rs) s =>
        Parsed (foldl redircmd (EXEC argv) rs) s))
  end
with parseblock (fuel : nat) (s : list Z) : result (cmd token) :=
  match fuel with
  | O => NoFuel_
  | S fuel =>
      let '(s, b) := peek s [LPAR] in
      if negb b then Panic_ (panic_text "parseblock")
      else
        let '(_, _, s) := gettoken s in
        rbind (parseline fuel s) (fun c s =>
        let '(s, b) := peek s [RPAR] in
        if negb b then Panic_ (panic_text "syntax - missing )")
        else
          let '(_, _, s) := gettoken s in
          rbind (parseredirs (S (length s)) [] s) (fun rs s => Parsed (foldl redircmd c rs) s))
  end.

End Parse.
Arguments Parsed {A} a s.
Arguments Panic_ {A} out.
Arguments NoFuel_ {A}.

(** ** The whole line *)

(** [ *e = 0] for every token of the command. *)
Fixpoint nulterminate (c : cmd token) (buf : list Z) : list Z :=
  match c with
  | EXEC argv => foldl (fun b w => <[eq_ w := 0]> b) buf argv
  | REDIR c w _ _ => <[eq_ w := 0]> (nulterminate c buf)
  | PIPE l r | LIST l r => nulterminate r (nulterminate l buf)
  | BACK c => nulterminate c buf
  end.

(** [parsecmd] of the characters [s]: the command, and the buffer, which ends
    with the null of the string. *)
Definition parsecmd (fuel : nat) (s : list Z) : result (cmd token * list Z) :=
  rbind (parseline (length s) fuel s) (fun c rest =>
  let '(rest, _) := peek rest [] in
  match rest with
  | [] => Parsed (c, nulterminate c (s ++ [0])) []
  | _ => Panic_ (chars "leftovers: " ++ rest ++ [10] ++ panic_text "syntax")
  end).

(** The string at an offset of the buffer. *)
Fixpoint cstring (b : list Z) : list Z :=
  match b with
  | c :: t => if c =? 0 then [] else c :: cstring t
  | [] => []
  end.
Definition str_at (buf : list Z) (w : token) : list Z := cstring (drop (q w) buf).

Fixpoint map_cmd {A B} (f : A -> B) (c : cmd A) : cmd B :=
  match c with
  | EXEC argv => EXEC (f <$> argv)
  | REDIR c w mode fd => REDIR (map_cmd f c) (f w) mode fd
  | PIPE l r => PIPE (map_cmd f l) (map_cmd f r)
  | LIST l r => LIST (map_cmd f l) (map_cmd f r)
  | BACK c => BACK (map_cmd f c)
  end.
