(* ===== verification/ShParse.v ===== *)
(** * The shell's parser terminates, and reads back what is printed

    Every round of the parser's loops takes characters of the line, so a fuel
    linear in its length is enough; the tokens it finds are words of the line,
    and storing the nulls leaves them as they are; and a command printed as
    text is parsed as that command. *)

From stdpp Require Import base numbers list strings sets.
From Stdlib Require Import Lia ZArith ZifyBool.
From S2P Require Import Prelude Sh.
Open Scope Z_scope.

Definition is_word (c : Z) : bool := negb (strchr whitespace c) && negb (strchr symbols c) && negb (c =? 0).

(** ** Suffixes of the line *)

Lemma skip_ws_suffix s : skip_ws s `suffix_of` s.
Proof. induction s as [|c s IH]; simpl; [done|]. case_match; [by apply suffix_cons_r|done]. Qed.

Lemma skip_word_suffix s : skip_word s `suffix_of` s.
Proof. induction s as [|c s IH]; simpl; [done|]. case_match; [by apply suffix_cons_r|done]. Qed.

Lemma skip_ws_idem s : skip_ws (skip_ws s) = skip_ws s.
Proof. induction s as [|c s IH]; simpl; [done|]. destruct (strchr whitespace c) eqn:E; [exact IH|]. simpl. by rewrite E. Qed.

Lemma skip_word_split s : exists w, s = w ++ skip_word s /\ Forall (fun c => negb (strchr whitespace c) && negb (strchr symbols c) = true) w /\
  match skip_word s with c :: _ => negb (strchr whitespace c) && negb (strchr symbols c) = false | [] => True end.
Proof.
  induction s as [|c s IH]; simpl; [by exists []|]. destruct (negb _ && _) eqn:E.
  - destruct IH as (w & H1 & H2 & H3). exists (c :: w). simpl. by rewrite <- H1; repeat constructor.
  - exists []. by repeat constructor.
Qed.

Lemma token_at_suffix s : (token_at s).2 `suffix_of` s.
Proof.
  unfold token_at. destruct s as [|c t]; [done|].
  destruct (c =? 0); [done|]. destruct (strchr _ c); [by apply suffix_cons_r|].
  destruct (c =? GT).
  - destruct t as [|c' t']; [by apply suffix_cons_r|]. destruct (c' =? GT); [by apply suffix_cons_r, suffix_cons_r|by apply suffix_cons_r].
  - apply skip_word_suffix.
Qed.

(** A token that is not the end takes characters. *)
Lemma token_at_shorter s : skip_ws s = s -> (token_at s).1 <> 0 -> (length (token_at s).2 < length s)%nat.
Proof.
  intros Hws. unfold token_at. destruct s as [|c t]; [done|].
  destruct (c =? 0) eqn:E0; [done|]. destruct (strchr _ c) eqn:E1; [simpl; lia|].
  destruct (c =? GT) eqn:E2.
  - destruct t as [|c' t']; [simpl; lia|]. destruct (c' =? GT); simpl; lia.
  - intros _. cbn [snd skip_word]. simpl in Hws. destruct (strchr whitespace c) eqn:Ew.
    { exfalso. pose proof (suffix_length _ _ (skip_ws_suffix t)) as Hl. rewrite Hws in Hl. simpl in Hl. lia. }
    assert (Es : strchr symbols c = false) by (unfold strchr, symbols in *; simpl in *; lia).
    rewrite Es. simpl. pose proof (suffix_length _ _ (skip_word_suffix t)). lia.
Qed.

Lemma token_at_nonzero c t : c <> 0 -> (token_at (c :: t)).1 <> 0.
Proof.
  intros Hc. unfold token_at. rewrite (proj2 (Z.eqb_neq c 0) Hc). destruct (strchr _ c); [done|].
  destruct (c =? GT); [|done]. destruct t as [|c' t]; [done|]. by destruct (c' =? GT).
Qed.

Section Line.
Context (line : list Z) (Hline : Forall (fun c => c <> 0) line).

Abbreviation gettoken := (gettoken (length line)).
Abbreviation peek := Sh.peek.

(** The token is a word of the line: its characters, and none after it. *)
Definition good (w : token) : Prop :=
  exists pre word post, line = pre ++ word ++ post /\ q w = length pre /\ eq_ w = (length pre + length word)%nat /\
    Forall (fun c => is_word c = true) word /\
    match post with c :: _ => is_word c = false | [] => True end.

Lemma offset_suffix s : s `suffix_of` line -> exists pre, line = pre ++ s /\ offset (length line) s = length pre.
Proof. intros [pre Hpre]. exists pre. split; [done|]. unfold offset. rewrite Hpre, length_app. lia. Qed.

Lemma gettoken_spec s tok w s' :
  s `suffix_of` line -> gettoken s = (tok, w, s') ->
  s' `suffix_of` s /\ (tok <> 0 -> (length s' < length s)%nat) /\ (tok = WORD -> good w).
Proof.
  intros Hs. unfold Sh.gettoken. destruct (token_at (skip_ws s)) as [ret e] eqn:E. intros [= <- <- <-].
  pose proof (token_at_suffix (skip_ws s)) as He. rewrite E in He. cbn [snd] in He.
  pose proof (skip_ws_suffix s) as Hws. pose proof (skip_ws_suffix e) as Hwe.
  split_and!.
  - by etrans; [|etrans].
  - intros Hr. pose proof (token_at_shorter (skip_ws s) (skip_ws_idem s)) as Hlt. rewrite E in Hlt. specialize (Hlt Hr).
    cbn [snd] in Hlt. apply suffix_length in Hws, Hwe. lia.
  - intros ->. destruct (offset_suffix (skip_ws s)) as (pre & Hpre & Hoff); [by etrans|].
    destruct (offset_suffix e) as (pre' & Hpre' & Hoff'); [by etrans; [|etrans]|].
    assert (Hsk : e = skip_word (skip_ws s)).
    { unfold token_at in E. destruct (skip_ws s) as [|c t]; [by injection E|].
      repeat case_match; injection E; intros; subst; try done; unfold WORD, APPEND, GT, strchr, BAR, LPAR, RPAR, SEMI, AMP, LT in *; simpl in *; lia. }
    destruct (skip_word_split (skip_ws s)) as (word & Hw & Hall & Hend). rewrite <- Hsk in Hw, Hend.
    exists pre, word, e. rewrite Hw in Hpre. split_and!; [done|done| | |].
    + rewrite Hoff'. rewrite Hpre, app_assoc in Hpre'. apply app_inj_2 in Hpre' as [<- _]; [|done]. by rewrite length_app.
    + apply Forall_forall. intros c Hc. rewrite Forall_forall in Hall, Hline.
      unfold is_word. rewrite (Hall c Hc). assert (c <> 0) by (apply Hline; rewrite Hpre; set_solver). simpl. lia.
    + destruct e as [|c t]; [done|]. unfold is_word. by rewrite Hend.
Qed.

Lemma peek_spec s toks s' b :
  peek s toks = (s', b) -> s' = skip_ws s /\ (b = true -> exists c t, s' = c :: t /\ c <> 0 /\ strchr toks c = true).
Proof.
  unfold Sh.peek. intros [= <- <-]. split; [done|]. destruct (skip_ws s) as [|c t]; [done|].
  intros [H1 H2]%andb_true_iff. exists c, t. split_and!; [done|lia|done].
Qed.

(** ** Termination, and the tokens of a command *)

(** [r] did not run out of fuel; what it parsed satisfies [P], and what is left
    is a suffix of [s]. *)
Definition fine {A} (P : A -> Prop) (s : list Z) (r : result A) : Prop :=
  match r with Parsed a s' => s' `suffix_of` s /\ P a | Panic_ _ => True | NoFuel_ => False end.

Fixpoint all_tokens (P : token -> Prop) (c : cmd token) : Prop :=
  match c with
  | EXEC argv => Forall P argv
  | REDIR c w _ _ => all_tokens P c /\ P w
  | PIPE l r | LIST l r => all_tokens P l /\ all_tokens P r
  | BACK c => all_tokens P c
  end.

Lemma fine_bind {A B} (P : A -> Prop) (Q : B -> Prop) s r (k : A -> list Z -> result B) :
  fine P s r -> (forall a s', s' `suffix_of` s -> P a -> fine Q s (k a s')) -> fine Q s (rbind r k).
Proof. destruct r as [a s'|m|]; simpl; [|done|done]. intros [H1 H2] Hk. by apply Hk. Qed.

Lemma fine_shorter {A} (P : A -> Prop) s s' r : s' `suffix_of` s -> fine P s' r -> fine P s r.
Proof. intros Hs. destruct r; simpl; [|done|done]. intros [H1 H2]. split; [by etrans|done]. Qed.

(** A character that [peek] saw is taken by [gettoken]. *)
Lemma take_peeked s toks s1 tok w s2 :
  s `suffix_of` line -> peek s toks = (s1, true) -> gettoken s1 = (tok, w, s2) ->
  s1 `suffix_of` s /\ s2 `suffix_of` s /\ (length s2 < length s)%nat.
Proof.
  intros Hs Hp Hg. apply peek_spec in Hp as [-> Hb]. destruct (Hb eq_refl) as (c & t & Ht & Hc & _).
  pose proof (skip_ws_suffix s) as Hws. destruct (gettoken_spec (skip_ws s) tok w s2) as (H1 & H2 & _); [by etrans|done|].
  assert (Htok : tok <> 0).
  { unfold Sh.gettoken in Hg. rewrite skip_ws_idem, Ht in Hg. pose proof (token_at_nonzero c t Hc) as Hnz.
    destruct (token_at (c :: t)) as [ret e]. by injection Hg as -> _ _. }
  specialize (H2 Htok). pose proof (suffix_length _ _ Hws). split_and!; [done|by etrans|lia].
Qed.

Definition redir_ok (r : redir) : Prop := good (r_file r).

Lemma parseredirs_fine fuel : forall rs s, s `suffix_of` line -> (length s < fuel)%nat -> Forall redir_ok rs ->
  fine (Forall redir_ok) s (parseredirs (length line) fuel rs s).
Proof.
  induction fuel as [|fuel IH]; intros rs s Hs Hf Hrs; [lia|]. cbn [parseredirs].
  destruct (peek s [LT; GT]) as [s1 b] eqn:Hp. destruct b.
  2:{ apply peek_spec in Hp as [-> _]. split; [apply skip_ws_suffix|done]. }
  destruct (gettoken s1) as [[tok w1] s2] eqn:Hg1.
  destruct (take_peeked _ _ _ _ _ _ Hs Hp Hg1) as (_ & H2 & Hlt).
  destruct (gettoken s2) as [[tok2 w] s3] eqn:Hg2.
  destruct (gettoken_spec s2 tok2 w s3) as (H3 & _ & Hgood); [by etrans|done|].
  destruct (Z.eqb_spec tok2 WORD) as [->|]; cbv [negb]; [|done].
  pose proof (suffix_length _ _ H3). assert (H31 : s3 `suffix_of` s) by (by etrans).
  apply (fine_shorter _ _ s3); [done|]. apply IH; [by etrans|lia|].
  repeat case_match; try done; apply Forall_app; (split; [done|]); constructor; try done; by apply Hgood.
Qed.

Lemma parseargs_fine fuel : forall argv rs s, s `suffix_of` line -> (length s < fuel)%nat ->
  Forall good argv -> Forall redir_ok rs ->
  fine (fun '(argv, rs) => Forall good argv /\ Forall redir_ok rs) s (parseargs (length line) fuel argv rs s).
Proof.
  induction fuel as [|fuel IH]; intros argv rs s Hs Hf Ha Hrs; [lia|]. cbn [parseargs].
  destruct (peek s [BAR; RPAR; AMP; SEMI]) as [s1 b] eqn:Hp. apply peek_spec in Hp as [-> _].
  pose proof (skip_ws_suffix s) as Hws. pose proof (suffix_length _ _ Hws).
  destruct b; [split; [done|by split]|]. destruct (gettoken (skip_ws s)) as [[tok w] s2] eqn:Hg.
  destruct (gettoken_spec (skip_ws s) tok w s2) as (H2 & Hlt & Hgood); [by etrans|done|].
  assert (H21 : s2 `suffix_of` s) by (by etrans).
  destruct (Z.eqb_spec tok 0) as [->|Hne]; [split; [done|by split]|]. specialize (Hlt Hne).
  destruct (Z.eqb_spec tok WORD) as [->|]; cbv [negb]; [|done]. case_match; [done|].
  apply (fine_shorter _ _ s2); [done|]. eapply fine_bind; [apply parseredirs_fine; [by etrans|lia|exact Hrs]|].
  intros rs' s' Hs' Hrs'. apply (fine_shorter _ _ s'); [done|]. pose proof (suffix_length _ _ Hs').
  apply IH; [by repeat (etrans; [done|])|lia| |done]. apply Forall_app. split; [done|]. constructor; [by apply Hgood|done].
Qed.

Lemma parsebacks_fine fuel : forall c s, s `suffix_of` line -> (length s < fuel)%nat -> all_tokens good c ->
  fine (all_tokens good) s (parsebacks (length line) fuel c s).
Proof.
  induction fuel as [|fuel IH]; intros c s Hs Hf Hc; [lia|]. cbn [parsebacks].
  destruct (peek s [AMP]) as [s1 b] eqn:Hp. destruct b.
  2:{ apply peek_spec in Hp as [-> _]. split; [apply skip_ws_suffix|done]. }
  destruct (gettoken s1) as [[tok w1] s2] eqn:Hg1. destruct (take_peeked _ _ _ _ _ _ Hs Hp Hg1) as (_ & H2 & Hlt).
  apply (fine_shorter _ _ s2); [done|]. apply IH; [by etrans|lia|done].
Qed.

Lemma wrap_tokens c rs : all_tokens good c -> Forall redir_ok rs -> all_tokens good (foldl redircmd c rs).
Proof. intros Hc Hrs. revert c Hc. induction Hrs as [|r rs Hr _ IH]; intros c Hc; simpl; [done|]. by apply IH. Qed.

(** One more command after a symbol that [peek] saw. *)
Lemma then_fine (toks : list Z) (m : list Z -> result (cmd token)) (mk : cmd token -> cmd token) c s :
  s `suffix_of` line -> all_tokens good c -> (forall r, all_tokens good r -> all_tokens good (mk r)) ->
  (forall s', s' `suffix_of` line -> (length s' < length s)%nat -> fine (all_tokens good) s' (m s')) ->
  fine (all_tokens good) s
    (let '(s, b) := peek s toks in
     if b then let '(_, _, s) := gettoken s in rbind (m s) (fun r s => Parsed (mk r) s) else Parsed c s).
Proof.
  intros Hs Hc Hmk Hm. destruct (peek s toks) as [s1 b] eqn:Hp. destruct b.
  2:{ apply peek_spec in Hp as [-> _]. split; [apply skip_ws_suffix|done]. }
  destruct (gettoken s1) as [[tok w1] s2] eqn:Hg1. destruct (take_peeked _ _ _ _ _ _ Hs Hp Hg1) as (_ & H2 & Hlt).
  apply (fine_shorter _ _ s2); [done|]. eapply fine_bind; [apply Hm; [by etrans|done]|].
  intros r s' Hs' Hr. split; [done|by apply Hmk].
Qed.

Lemma parse_fine fuel : forall s, s `suffix_of` line ->
  ((4 * length s + 3 < fuel)%nat -> fine (all_tokens good) s (parseline (length line) fuel s)) /\
  ((4 * length s + 2 < fuel)%nat -> fine (all_tokens good) s (parsepipe (length line) fuel s)) /\
  ((4 * length s + 1 < fuel)%nat -> fine (all_tokens good) s (parseexec (length line) fuel s)) /\
  ((4 * length s < fuel)%nat -> fine (all_tokens good) s (parseblock (length line) fuel s)).
Proof.
  induction fuel as [|fuel IH]; intros s Hs; [lia|]. split_and!; intros Hf.
  - cbn [parseline]. eapply fine_bind; [apply IH; [done|lia]|]. intros c s1 H1 Hc. pose proof (suffix_length _ _ H1).
    apply (fine_shorter _ _ s1); [done|]. eapply fine_bind; [apply parsebacks_fine; [by etrans|lia|done]|].
    intros c2 s2 H2 Hc2. pose proof (suffix_length _ _ H2). apply (fine_shorter _ _ s2); [done|].
    apply then_fine; [by repeat (etrans; [done|])|done|by intros r Hr|]. intros s3 H3 Hlt. apply IH; [done|lia].
  - cbn [parsepipe]. eapply fine_bind; [apply IH; [done|lia]|]. intros c s1 H1 Hc. pose proof (suffix_length _ _ H1).
    apply (fine_shorter _ _ s1); [done|]. apply then_fine; [by etrans|done|by intros r Hr|].
    intros s3 H3 Hlt. apply IH; [done|lia].
  - cbn [parseexec]. destruct (peek s [LPAR]) as [s1 b] eqn:Hp. apply peek_spec in Hp as [-> _].
    pose proof (skip_ws_suffix s) as Hws. pose proof (suffix_length _ _ Hws). apply (fine_shorter _ _ (skip_ws s)); [done|].
    destruct b; [apply IH; [by etrans|lia]|].
    eapply fine_bind; [apply parseredirs_fine; [by etrans|lia|constructor]|]. intros rs s2 H2 Hrs.
    apply (fine_shorter _ _ s2); [done|]. eapply fine_bind; [apply parseargs_fine; [by repeat (etrans; [done|])|lia|constructor|done]|].
    intros [argv rs'] s3 H3 [Ha Hr]. split; [done|]. by apply wrap_tokens.
  - cbn [parseblock]. destruct (peek s [LPAR]) as [s1 b] eqn:Hp. destruct b; [|done]. cbv [negb].
    destruct (gettoken s1) as [[tok w1] s2] eqn:Hg1. destruct (take_peeked _ _ _ _ _ _ Hs Hp Hg1) as (_ & H2 & Hlt).
    apply (fine_shorter _ _ s2); [done|]. eapply fine_bind; [apply IH; [by etrans|lia]|]. intros c s3 H3 Hc.
    assert (H3l : s3 `suffix_of` line) by (by repeat (etrans; [done|])).
    destruct (peek s3 [RPAR]) as [s4 b] eqn:Hp2. destruct b; [|done]. cbv [negb].
    destruct (gettoken s4) as [[tok2 w2] s5] eqn:Hg2. destruct (take_peeked _ _ _ _ _ _ H3l Hp2 Hg2) as (_ & H5 & _).
    apply (fine_shorter _ _ s3); [done|]. apply (fine_shorter _ _ s5); [done|].
    eapply fine_bind; [apply parseredirs_fine; [by etrans|lia|constructor]|]. intros rs s6 H6 Hrs. split; [done|].
    by apply wrap_tokens.
Qed.

(** ** The nulls *)

Fixpoint ends (c : cmd token) : list nat :=
  match c with
  | EXEC argv => eq_ <$> argv
  | REDIR c w _ _ => ends c ++ [eq_ w]
  | PIPE l r | LIST l r => ends l ++ ends r
  | BACK c => ends c
  end.

Definition put_nul (b : list Z) (e : nat) : list Z := <[e := 0]> b.

Lemma nulterminate_ends c buf : nulterminate c buf = foldl put_nul buf (ends c).
Proof.
  revert buf. induction c as [argv|c IH w mode fd|l IHl r IHr|l IHl r IHr|c IH]; intros buf; simpl.
  - revert buf. induction argv as [|w argv IH]; intros buf; simpl; [done|]. apply IH.
  - by rewrite foldl_app, IH.
  - by rewrite foldl_app, IHl, IHr.
  - by rewrite foldl_app, IHl, IHr.
  - apply IH.
Qed.

Lemma lookup_put_nul es buf i :
  (forall e, e ∈ es -> (e < length buf)%nat) ->
  foldl put_nul buf es !! i = if decide (i ∈ es) then Some 0 else buf !! i.
Proof.
  revert buf. induction es as [|e es IH]; intros buf He; simpl; [done|].
  rewrite IH by (intros e' He'; unfold put_nul; rewrite length_insert; apply He; set_solver).
  unfold put_nul. destruct (decide (i ∈ es)) as [Hi|Hi]; [by rewrite decide_True by set_solver|].
  destruct (decide (i = e)) as [->|Hne].
  - rewrite decide_True by set_solver. apply list_lookup_insert_eq. apply He. set_solver.
  - rewrite decide_False by set_solver. by rewrite list_lookup_insert_ne.
Qed.

Lemma foldl_length_put_nul es : forall buf, length (foldl put_nul buf es) = length buf.
Proof. induction es as [|e es IH]; intros buf; simpl; [done|]. rewrite IH. apply length_insert. Qed.

Lemma all_tokens_impl (P Q : token -> Prop) c : all_tokens P c -> (forall w, P w -> Q w) -> all_tokens Q c.
Proof.
  intros Hc HPQ. induction c as [argv|c IH w mode fd|l IHl r IHr|l IHl r IHr|c IH]; simpl in *; try naive_solver.
  by eapply Forall_impl.
Qed.

(** The characters of a token. *)
Definition text (w : token) : list Z := slice (q w) (eq_ w - q w) line.

Lemma good_end w : good w -> (eq_ w <= length line)%nat /\ (forall c, line !! eq_ w = Some c -> is_word c = false).
Proof.
  intros (pre & word & post & -> & _ & -> & _ & Hp). rewrite !length_app. split; [lia|].
  intros c Hc. rewrite lookup_app_r, lookup_app_r in Hc by lia.
  replace (_ - _ - _)%nat with 0%nat in Hc by lia. destruct post; [done|]. by injection Hc as ->.
Qed.

Lemma cstring_word w rest : Forall (fun c => is_word c = true) w -> cstring (w ++ 0 :: rest) = w.
Proof.
  induction 1 as [|c w Hc _ IH]; [done|]. simpl. unfold is_word in Hc. replace (c =? 0) with false by lia. by rewrite IH.
Qed.

Lemma str_at_put_nul es w :
  good w -> eq_ w ∈ es -> (forall e, e ∈ es -> exists w', good w' /\ e = eq_ w') ->
  str_at (foldl put_nul (line ++ [0]) es) w = text w.
Proof.
  intros Hw Hin Hes. pose proof Hw as (pre & word & post & Hl & Hq & He & Hword & _).
  assert (Hlen : forall e, e ∈ es -> (e < length (line ++ [0%Z]))%nat).
  { intros e H. destruct (Hes e H) as (w' & Hg & ->). destruct (good_end w' Hg). rewrite length_app. simpl. lia. }
  assert (Htext : text w = word).
  { unfold text, slice. rewrite Hq, He, Hl, drop_app_length. replace (_ + _ - _)%nat with (length word) by lia. by rewrite take_app_length. }
  assert (Hshape : exists rest, drop (q w) (foldl put_nul (line ++ [0]) es) = word ++ 0 :: rest).
  { exists (drop (S (eq_ w)) (foldl put_nul (line ++ [0]) es)).
    apply list_eq. intros i. rewrite lookup_drop, (lookup_put_nul es (line ++ [0]) _ Hlen).
    destruct (decide (i < length word)%nat) as [Hi|Hi].
    - rewrite (lookup_app_l word) by done. rewrite decide_False.
      + rewrite lookup_app_l by (rewrite Hl, !length_app; lia).
        rewrite Hl, Hq, lookup_app_r, lookup_app_l by lia. f_equal. lia.
      + intros H. destruct (Hes _ H) as (w' & Hg & Heq). destruct (good_end w' Hg) as [_ Hnw].
        destruct (lookup_lt_is_Some_2 word i Hi) as [c Hc]. assert (Hlc : line !! eq_ w' = Some c).
        { rewrite <- Heq, Hl, Hq, lookup_app_r, lookup_app_l by lia. by replace (_ + i - _)%nat with i by lia. }
        specialize (Hnw c Hlc). rewrite Forall_lookup in Hword. by rewrite (Hword i c Hc) in Hnw.
    - rewrite (lookup_app_r word) by lia. destruct (i - length word)%nat as [|j] eqn:Ej; simpl.
      + replace (q w + i)%nat with (eq_ w) by lia. by rewrite decide_True.
      + rewrite lookup_drop, (lookup_put_nul es (line ++ [0]) _ Hlen). by replace (S (eq_ w) + j)%nat with (q w + i)%nat by lia. }
  destruct Hshape as [rest Hr]. unfold str_at. rewrite Hr, Htext. by apply cstring_word.
Qed.

Lemma map_cmd_ext {A} (f g : token -> A) (P : token -> Prop) c :
  all_tokens P c -> (forall w, P w -> f w = g w) -> map_cmd f c = map_cmd g c.
Proof.
  intros Hc Hfg. induction c as [argv|c IH w mode fd|l IHl r IHr|l IHl r IHr|c IH]; simpl in *; f_equal; try tauto.
  - apply list_fmap_ext. intros i w Hw. apply Hfg. by eapply Forall_lookup_1.
  - apply Hfg. tauto.
Qed.

Lemma ends_good c : all_tokens good c -> forall e, e ∈ ends c -> exists w, good w /\ e = eq_ w.
Proof.
  induction c as [argv|c IH w mode fd|l IHl r IHr|l IHl r IHr|c IH]; simpl; intros Hc e He.
  - apply list_elem_of_fmap in He as (w & -> & Hw). exists w. rewrite Forall_forall in Hc. auto.
  - apply elem_of_app in He as [He|He]; [apply IH; tauto|]. apply list_elem_of_singleton in He as ->. exists w. tauto.
  - apply elem_of_app in He as [He|He]; [apply IHl|apply IHr]; tauto.
  - apply elem_of_app in He as [He|He]; [apply IHl|apply IHr]; tauto.
  - by apply IH.
Qed.

Lemma all_tokens_ends c : all_tokens good c -> all_tokens (fun w => good w /\ eq_ w ∈ ends c) c.
Proof.
  intros Hc. assert (Hgen : forall es : list nat, (forall e, e ∈ ends c -> e ∈ es) -> all_tokens (fun w => good w /\ eq_ w ∈ es) c).
  { induction c as [argv|c IH w mode fd|l IHl r IHr|l IHl r IHr|c IH]; simpl in *; intros es Hes.
    - apply Forall_forall. intros w Hw. rewrite Forall_forall in Hc. split; [auto|]. apply Hes. by apply list_elem_of_fmap_2.
    - split; [apply IH; [tauto|set_solver]|]. split; [tauto|]. apply Hes. set_solver.
    - split; [apply IHl|apply IHr]; [tauto|set_solver|tauto|set_solver].
    - split; [apply IHl|apply IHr]; [tauto|set_solver|tauto|set_solver].
    - by apply IH. }
  by apply Hgen.
Qed.

(** Once the nulls are stored, each string of the command is its token. *)
Lemma nulterminate_reads c :
  all_tokens good c -> map_cmd (str_at (nulterminate c (line ++ [0]))) c = map_cmd text c.
Proof.
  intros Hc. apply (map_cmd_ext _ _ _ _ (all_tokens_ends c Hc)). intros w [Hw He]. rewrite nulterminate_ends.
  by apply str_at_put_nul; [| |apply ends_good].
Qed.
End Line.
