(* ===== verification/ShPrint.v ===== *)
(** * Commands as text

    [print] writes a command with the parentheses its structure needs;
    [parsecmd] of the text gives the command back. *)

From stdpp Require Import base numbers list strings sets.
From Stdlib Require Import Lia ZArith ZifyBool.
From S2P Require Import Prelude User Sh ShParse.
Open Scope Z_scope.

Abbreviation scmd := (cmd (list Z)).

Inductive level := ExecL | PipeL | BackL | LineL.

Definition paren (b : bool) (s : list Z) : list Z := if b then LPAR :: s ++ [RPAR] else s.

(** A word and the space after it. *)
Definition pr_word (w : list Z) : list Z := w ++ [32].
Definition pr_redir (f : list Z) (fd : Z) : list Z := (if fd =? 0 then LT else GT) :: pr_word f.

Fixpoint print_at (lvl : level) (c : scmd) : list Z :=
  match c with
  | EXEC argv => argv ≫= pr_word
  | REDIR c f _ fd => print_at ExecL c ++ pr_redir f fd
  | PIPE l r => paren (match lvl with ExecL => true | _ => false end) (print_at ExecL l ++ BAR :: print_at PipeL r)
  | BACK c => paren (match lvl with ExecL | PipeL => true | _ => false end) (print_at BackL c ++ [AMP])
  | LIST l r => paren (match lvl with LineL => false | _ => true end) (print_at BackL l ++ SEMI :: print_at LineL r)
  end.

Definition print (c : scmd) : list Z := print_at LineL c.

Definition word_ok (w : list Z) : Prop := w <> [] /\ Forall (fun c => is_word c = true) w.

(** The commands the shell has: at most nine arguments, and the two kinds of
    redirection. *)
Fixpoint cmd_ok (c : scmd) : Prop :=
  match c with
  | EXEC argv => (length argv < MAXARGS)%nat /\ Forall word_ok argv
  | REDIR c f mode fd => cmd_ok c /\ word_ok f /\ (mode = O_RDONLY /\ fd = 0 \/ mode = Z.lor O_WRONLY O_CREATE /\ fd = 1)
  | PIPE l r | LIST l r => cmd_ok l /\ cmd_ok r
  | BACK c => cmd_ok c
  end.

(** ** What comes next *)

(** The first character that is not white space is one of [cs], or there is none. *)
Definition next_in (cs : list Z) (s : list Z) : Prop :=
  match skip_ws s with [] => True | c :: _ => c ∈ cs end.

Lemma skip_ws_not_ws c t : strchr whitespace c = false -> skip_ws (c :: t) = c :: t.
Proof. intros H. simpl. by rewrite H. Qed.

Lemma skip_ws_space s : skip_ws (32 :: s) = skip_ws s.
Proof. done. Qed.

Lemma strchr_elem cs c : strchr cs c = true <-> c ∈ cs.
Proof.
  unfold strchr. rewrite existsb_exists. split.
  - intros (x & Hx & E). rewrite list_elem_of_In. by replace c with x by lia.
  - intros H. exists c. rewrite <- list_elem_of_In. split; [done|lia].
Qed.

Lemma word_not_ws c : is_word c = true -> strchr whitespace c = false /\ strchr symbols c = false /\ c <> 0.
Proof. unfold is_word. destruct (strchr whitespace c), (strchr symbols c); simpl; lia. Qed.

Lemma skip_ws_word w s : word_ok w -> skip_ws (w ++ s) = w ++ s.
Proof.
  intros [Hne Hw]. destruct w as [|c w]; [done|]. apply Forall_cons in Hw as [Hc _].
  apply skip_ws_not_ws. by apply word_not_ws.
Qed.

Lemma skip_word_app w s :
  Forall (fun c => is_word c = true) w -> skip_word (w ++ 32 :: s) = 32 :: s.
Proof.
  induction 1 as [|c w Hc _ IH]; [done|]. simpl. destruct (word_not_ws c Hc) as (-> & -> & _). done.
Qed.

Lemma peek_no s toks cs : next_in cs s -> (forall c, c ∈ cs -> c ∉ toks) -> Sh.peek s toks = (skip_ws s, false).
Proof.
  intros Hn Hd. unfold Sh.peek. f_equal. unfold next_in in Hn. destruct (skip_ws s) as [|c t]; [done|].
  destruct (strchr toks c) eqn:E; [|by rewrite andb_false_r]. apply strchr_elem in E. by destruct (Hd c Hn).
Qed.

Lemma peek_yes c t toks : strchr whitespace c = false -> c <> 0 -> c ∈ toks -> Sh.peek (c :: t) toks = (c :: t, true).
Proof.
  intros Hw H0 Hin. unfold Sh.peek. rewrite skip_ws_not_ws by done. apply strchr_elem in Hin. rewrite Hin.
  by rewrite (proj2 (Z.eqb_neq c 0) H0).
Qed.

Lemma peek_word w s toks : word_ok w -> (forall c, c ∈ toks -> c ∈ symbols) -> Sh.peek (w ++ s) toks = (w ++ s, false).
Proof.
  intros Hw Ht. unfold Sh.peek. rewrite skip_ws_word by done. f_equal. destruct Hw as [Hne Hw].
  destruct w as [|c w]; [done|]. apply Forall_cons in Hw as [Hc _]. cbn [app].
  destruct (strchr toks c) eqn:E; [|by rewrite andb_false_r]. apply strchr_elem, Ht, strchr_elem in E.
  destruct (word_not_ws c Hc) as (_ & E2 & _). by rewrite E in E2.
Qed.

Section Line.
Context (line : list Z).

Abbreviation gettoken := (gettoken (length line)).
Abbreviation text := (text line).

(** [gettoken] of a symbol, and of a word. *)
Lemma gettoken_symbol c t :
  c ∈ [BAR; LPAR; RPAR; SEMI; AMP; LT] -> exists w, gettoken (c :: t) = (c, w, skip_ws t).
Proof.
  intros Hc. unfold Sh.gettoken. assert (Hw : strchr whitespace c = false /\ c <> 0 /\ strchr [BAR; LPAR; RPAR; SEMI; AMP; LT] c = true).
  { rewrite !elem_of_cons, elem_of_nil in Hc. destruct Hc as [->|[->|[->|[->|[->|[->|[]]]]]]]; done. }
  destruct Hw as (H1 & H2 & H3). rewrite skip_ws_not_ws by done. unfold token_at.
  rewrite (proj2 (Z.eqb_neq c 0) H2), H3. by eexists.
Qed.

Lemma gettoken_gt t : (match t with c :: _ => c <> GT | [] => True end) -> exists w, gettoken (GT :: t) = (GT, w, skip_ws t).
Proof.
  intros Ht. unfold Sh.gettoken. rewrite skip_ws_not_ws by done. unfold token_at.
  change (GT =? 0) with false. change (strchr [BAR; LPAR; RPAR; SEMI; AMP; LT] GT) with false. change (GT =? GT) with true.
  destruct t as [|c t]; [by eexists|]. rewrite (proj2 (Z.eqb_neq c GT)) by done. by eexists.
Qed.

Lemma gettoken_word w s :
  word_ok w -> (pr_word w ++ s) `suffix_of` line ->
  exists tk, gettoken (pr_word w ++ s) = (WORD, tk, skip_ws s) /\ text tk = w.
Proof.
  intros Hw Hs. unfold Sh.gettoken, pr_word in *. rewrite <- app_assoc in *. cbn [app] in *. rewrite skip_ws_word by done.
  assert (Htok : token_at (w ++ 32 :: s) = (WORD, 32 :: s)).
  { destruct Hw as [Hne Hw]. destruct w as [|c w]; [done|]. pose proof Hw as Hw'. apply Forall_cons in Hw as [Hc _].
    destruct (word_not_ws c Hc) as (H1 & H2 & H3). cbn [app]. unfold token_at. rewrite (proj2 (Z.eqb_neq c 0) H3).
    assert (Hns : strchr [BAR; LPAR; RPAR; SEMI; AMP; LT] c = false /\ (c =? GT) = false).
    { unfold strchr, symbols in *. cbn [existsb] in *. lia. }
    destruct Hns as [-> ->]. f_equal. exact (skip_word_app (c :: w) s Hw'). }
  rewrite Htok. eexists. split; [done|]. unfold ShParse.text, offset. cbn [q eq_].
  destruct Hs as [pre ->]. rewrite !length_app. cbn [length].
  replace (length pre + (length w + S (length s)) - (length w + S (length s)))%nat with (length pre) by lia.
  replace (length pre + (length w + S (length s)) - S (length s) - length pre)%nat with (length w) by lia.
  unfold slice. by rewrite drop_app_length, take_app_length.
Qed.

(** ** Redirections *)

Definition mode_of (fd : Z) : Z := if fd =? 0 then O_RDONLY else Z.lor O_WRONLY O_CREATE.

Definition pr_redirs (rs : list (list Z * Z)) : list Z := rs ≫= fun x => pr_redir x.1 x.2.

Definition redir_is (r : redir) (x : list Z * Z) : Prop :=
  text (r_file r) = x.1 /\ r_fd r = x.2 /\ r_mode r = mode_of x.2.

Definition redir_word_ok (x : list Z * Z) : Prop := word_ok x.1 /\ (x.2 = 0 \/ x.2 = 1).

(** What can follow a simple command. *)
Definition STOP : list Z := [BAR; RPAR; AMP; SEMI].

Lemma word_not_gt w s : word_ok w -> match w ++ s with c :: _ => c <> GT | [] => True end.
Proof.
  intros [Hne Hw]. destruct w as [|c w]; [done|]. apply Forall_cons in Hw as [Hc _]. cbn [app].
  destruct (word_not_ws c Hc) as (_ & H & _). intros ->. done.
Qed.

Lemma length_pr_redirs_cons f fd rs rest :
  (length (skip_ws (pr_redirs rs ++ rest)) < length (pr_redirs ((f, fd) :: rs) ++ rest))%nat.
Proof.
  pose proof (suffix_length _ _ (skip_ws_suffix (pr_redirs rs ++ rest))). unfold pr_redirs, pr_redir, pr_word in *.
  cbn [mbind list_bind fst snd] in *. rewrite !length_app in *. simpl in *. rewrite length_app. simpl. lia.
Qed.

(** The loops start with [peek]. *)
Lemma parseredirs_skip fuel rs s : parseredirs (length line) fuel rs (skip_ws s) = parseredirs (length line) fuel rs s.
Proof. destruct fuel; [done|]. cbn [parseredirs]. unfold Sh.peek. by rewrite skip_ws_idem. Qed.

Lemma parseredirs_print rs : forall rs0 rest fuel, Forall redir_word_ok rs -> next_in STOP rest \/ (exists w s, word_ok w /\ rest = w ++ s) ->
  (pr_redirs rs ++ rest) `suffix_of` line -> (length (skip_ws (pr_redirs rs ++ rest)) < fuel)%nat ->
  exists rs', parseredirs (length line) fuel rs0 (pr_redirs rs ++ rest) = Parsed (rs0 ++ rs') (skip_ws rest) /\
    Forall2 redir_is rs' rs.
Proof.
  induction rs as [|[f fd] rs IH]; intros rs0 rest fuel Hrs Hnext Hs Hfuel; destruct fuel as [|fuel]; try lia; cbn [parseredirs].
  { exists []. rewrite app_nil_r. cbn [pr_redirs mbind list_bind app]. split; [|constructor].
    destruct Hnext as [Hnext|(w & t & Hw & ->)].
    - rewrite (peek_no _ _ STOP) by (done || set_solver). done.
    - rewrite peek_word by (done || set_solver). by rewrite skip_ws_word. }
  apply Forall_cons in Hrs as [[Hf Hfd] Hrs]. cbn [fst snd] in *.
  pose proof (length_pr_redirs_cons f fd rs rest) as Hlen.
  assert (Htext : pr_redirs ((f, fd) :: rs) ++ rest = (if fd =? 0 then LT else GT) :: pr_word f ++ pr_redirs rs ++ rest).
  { unfold pr_redirs, pr_redir. cbn [mbind list_bind fst snd app]. by rewrite <- app_assoc. }
  rewrite Htext in *. set (sym := if fd =? 0 then LT else GT) in *.
  assert (Hsk : skip_ws (pr_word f ++ pr_redirs rs ++ rest) = pr_word f ++ pr_redirs rs ++ rest)
    by (unfold pr_word; rewrite <- app_assoc; by apply skip_ws_word).
  assert (Hsym : exists w, gettoken (sym :: pr_word f ++ pr_redirs rs ++ rest) = (sym, w, skip_ws (pr_word f ++ pr_redirs rs ++ rest))).
  { unfold sym. destruct (fd =? 0); [apply gettoken_symbol; set_solver|].
    apply gettoken_gt. unfold pr_word. rewrite <- app_assoc. by apply word_not_gt. }
  destruct Hsym as [w0 Hg]. rewrite peek_yes; [|by unfold sym; case_match|by unfold sym; case_match|unfold sym; case_match; set_solver].
  rewrite Hg, Hsk. apply suffix_cons_l in Hs as Hs2. destruct (gettoken_word f (pr_redirs rs ++ rest) Hf Hs2) as (tk & -> & Htk).
  rewrite Z.eqb_refl. cbv [negb].
  set (r := Redir tk (mode_of fd) fd). replace (if sym =? LT then _ else _) with (rs0 ++ [r]).
  2:{ unfold r, sym, mode_of. destruct Hfd as [-> | ->]; done. }
  destruct (IH (rs0 ++ [r]) rest fuel Hrs Hnext) as (rs' & E & HF).
  - etrans; [|exact Hs2]. by apply suffix_app_r.
  - rewrite skip_ws_not_ws in Hfuel by (unfold sym; by case_match). simpl in Hfuel, Hlen. lia.
  - exists (r :: rs'). rewrite parseredirs_skip, E, <- app_assoc. split; [done|]. by constructor.
Qed.

(** ** Arguments *)

Lemma peek_stop rest toks : next_in toks rest -> (forall c, c ∈ toks -> c <> 0) ->
  Sh.peek rest toks = (skip_ws rest, match skip_ws rest with [] => false | _ => true end).
Proof.
  intros Hn H0. unfold Sh.peek. f_equal. unfold next_in in Hn. destruct (skip_ws rest) as [|c t]; [done|].
  rewrite (proj2 (Z.eqb_neq c 0) (H0 c Hn)). by apply strchr_elem.
Qed.

Lemma STOP_nonzero c : c ∈ STOP -> c <> 0.
Proof. intros H ->. revert H. unfold STOP. rewrite !elem_of_cons, elem_of_nil. intros [|[|[|[|[]]]]]; done. Qed.

Lemma parseargs_stop fuel argv rs rest :
  next_in STOP rest -> (0 < fuel)%nat -> parseargs (length line) fuel argv rs rest = Parsed (argv, rs) (skip_ws rest).
Proof.
  intros Hn Hf. destruct fuel as [|fuel]; [lia|]. cbn [parseargs]. fold STOP.
  rewrite (peek_stop _ STOP Hn STOP_nonzero). by destruct (skip_ws rest).
Qed.

Lemma parseargs_print words : forall argv0 rs0 rs rest fuel,
  Forall word_ok words -> words <> [] -> (length argv0 + length words < MAXARGS)%nat -> Forall redir_word_ok rs ->
  next_in STOP rest -> ((words ≫= pr_word) ++ pr_redirs rs ++ rest) `suffix_of` line ->
  (length ((words ≫= pr_word) ++ pr_redirs rs ++ rest) < fuel)%nat ->
  exists argv' rs', parseargs (length line) fuel argv0 rs0 ((words ≫= pr_word) ++ pr_redirs rs ++ rest)
      = Parsed (argv0 ++ argv', rs0 ++ rs') (skip_ws rest) /\ text <$> argv' = words /\ Forall2 redir_is rs' rs.
Proof.
  induction words as [|w words IH]; intros argv0 rs0 rs rest fuel Hw Hne Hargc Hrs Hnext Hs Hfuel; [done|].
  apply Forall_cons in Hw as [Hw Hws]. destruct fuel as [|fuel]; [lia|]. cbn [parseargs].
  rewrite bind_cons, <- app_assoc in *. set (tl := (words ≫= pr_word) ++ pr_redirs rs ++ rest) in *.
  assert (Hsk : skip_ws (pr_word w ++ tl) = pr_word w ++ tl) by (unfold pr_word; rewrite <- app_assoc; by apply skip_ws_word).
  assert (Hpk : Sh.peek (pr_word w ++ tl) [BAR; RPAR; AMP; SEMI] = (pr_word w ++ tl, false)).
  { unfold pr_word. rewrite <- app_assoc. apply peek_word; [done|set_solver]. }
  rewrite Hpk. destruct (gettoken_word w tl Hw Hs) as (tk & -> & Htk).
  change (WORD =? 0) with false. change (negb (WORD =? WORD)) with false. cbv iota.
  replace (MAXARGS <=? length (argv0 ++ [tk]))%nat with false
    by (rewrite length_app; cbn [length] in *; lia).
  assert (Hlt : (length tl < fuel)%nat) by (unfold pr_word in Hfuel; rewrite !length_app in Hfuel; simpl in Hfuel; lia).
  assert (Htl : tl `suffix_of` line) by (etrans; [|exact Hs]; by apply suffix_app_r).
  pose proof (skip_ws_suffix tl) as Hstl. pose proof (suffix_length _ _ Hstl) as Hltl.
  destruct words as [|w' words].
  - (* the last word: the redirections *)
    unfold tl in *. cbn [mbind list_bind app] in *. rewrite parseredirs_skip.
    destruct (parseredirs_print rs rs0 rest (S (length (skip_ws (pr_redirs rs ++ rest)))) Hrs (or_introl Hnext)) as (rs' & -> & HF);
      [done|lia|].
    cbn [rbind]. rewrite parseargs_stop; [|unfold next_in in *; by rewrite skip_ws_idem|simpl in *; lia].
    exists [tk], rs'. rewrite skip_ws_idem. split_and!; [done| |done]. by rewrite list_fmap_singleton, Htk.
  - apply Forall_cons in Hws as Hws'. destruct Hws' as [Hw' _].
    assert (Hsk' : skip_ws tl = tl).
    { unfold tl. rewrite bind_cons, <- app_assoc. unfold pr_word at 1 3. rewrite <- app_assoc. by apply skip_ws_word. }
    rewrite Hsk'.
    destruct (parseredirs_print [] rs0 tl (S (length tl))) as (rs' & Hpr & HF); [constructor| |done| |].
    { right. unfold tl. rewrite bind_cons, <- app_assoc. unfold pr_word at 1. rewrite <- app_assoc. by eexists w', _. }
    { change (pr_redirs [] ++ tl) with tl. rewrite Hsk'. lia. }
    change (pr_redirs [] ++ tl) with tl in Hpr. rewrite Hpr. apply Forall2_nil_inv_r in HF as ->. rewrite app_nil_r, Hsk'. cbn [rbind].
    destruct (IH (argv0 ++ [tk]) rs0 rs rest fuel Hws) as (argv' & rs'' & E & Ha & HF'); try done.
    { rewrite length_app. cbn [length] in *. lia. }
    fold tl in E. rewrite E.
    exists (tk :: argv'), rs''. rewrite <- app_assoc. split_and!; [done| |done]. by rewrite fmap_cons, Htk, Ha.
Qed.

(** ** The levels of the grammar *)

Definition wrap (c : scmd) (rs : list (list Z * Z)) : scmd := foldl (fun c x => REDIR c x.1 (mode_of x.2) x.2) c rs.

Lemma map_wrap c rs' rs :
  Forall2 redir_is rs' rs -> map_cmd text (foldl redircmd c rs') = wrap (map_cmd text c) rs.
Proof.
  intros H. revert c. induction H as [|r x rs' rs (H1 & H2 & H3) _ IH]; intros c; [done|].
  simpl. rewrite IH. simpl. by rewrite H1, H2, H3.
Qed.

(** Each parser starts with [peek] too. *)
Lemma parseexec_skip fuel s : parseexec (length line) fuel (skip_ws s) = parseexec (length line) fuel s.
Proof. destruct fuel; [done|]. cbn [parseexec]. unfold Sh.peek. by rewrite skip_ws_idem. Qed.

Lemma parsepipe_skip fuel s : parsepipe (length line) fuel (skip_ws s) = parsepipe (length line) fuel s.
Proof. destruct fuel; [done|]. cbn [parsepipe]. by rewrite parseexec_skip. Qed.

Lemma parseline_skip fuel s : parseline (length line) fuel (skip_ws s) = parseline (length line) fuel s.
Proof. destruct fuel; [done|]. cbn [parseline]. by rewrite parsepipe_skip. Qed.

(** [r] is the command [c], and [rest] is left. *)
Definition reads (r : result (cmd token)) (c : scmd) (rest : list Z) : Prop :=
  exists c', r = Parsed c' (skip_ws rest) /\ map_cmd text c' = c.

Definition parseback (fuel : nat) (s : list Z) : result (cmd token) :=
  rbind (parsepipe (length line) fuel s) (fun c s => parsebacks (length line) (S (length s)) c s).

(** A command printed for a level is read at that level: a simple command may
    have more redirections after it, and a background command more ampersands. *)
Definition readsE (c : scmd) : Prop := forall rs rest fuel,
  Forall redir_word_ok rs -> next_in STOP rest -> (print_at ExecL c ++ pr_redirs rs ++ rest) `suffix_of` line ->
  (4 * length (print_at ExecL c ++ pr_redirs rs ++ rest) + 1 < fuel)%nat ->
  reads (parseexec (length line) fuel (print_at ExecL c ++ pr_redirs rs ++ rest)) (wrap c rs) rest.

Definition readsP (c : scmd) : Prop := forall rest fuel,
  next_in [RPAR; AMP; SEMI] rest -> (print_at PipeL c ++ rest) `suffix_of` line ->
  (4 * length (print_at PipeL c ++ rest) + 2 < fuel)%nat ->
  reads (parsepipe (length line) fuel (print_at PipeL c ++ rest)) c rest.

Definition readsB (c : scmd) : Prop := forall n rest fuel,
  next_in [RPAR; SEMI] rest -> (print_at BackL c ++ replicate n AMP ++ rest) `suffix_of` line ->
  (4 * length (print_at BackL c ++ replicate n AMP ++ rest) + 2 < fuel)%nat ->
  reads (parseback fuel (print_at BackL c ++ replicate n AMP ++ rest)) (Nat.iter n BACK c) rest.

Definition readsL (c : scmd) : Prop := forall rest fuel,
  next_in [RPAR] rest -> (print_at LineL c ++ rest) `suffix_of` line ->
  (4 * length (print_at LineL c ++ rest) + 3 < fuel)%nat ->
  reads (parseline (length line) fuel (print_at LineL c ++ rest)) c rest.

Lemma next_in_mono cs cs' s : next_in cs s -> cs ⊆ cs' -> next_in cs' s.
Proof. unfold next_in. destruct (skip_ws s); [done|]. set_solver. Qed.

Lemma next_in_cons c cs s : strchr whitespace c = false -> c ∈ cs -> next_in cs (c :: s).
Proof. intros Hw Hc. unfold next_in. by rewrite skip_ws_not_ws. Qed.

Lemma next_in_skip cs s : next_in cs s -> next_in cs (skip_ws s).
Proof. unfold next_in. by rewrite skip_ws_idem. Qed.

(** [peek] of a symbol that is there, and [gettoken]. *)
Lemma peek_symbol c t {A} (k : list Z -> A) d :
  c ∈ [BAR; LPAR; RPAR; SEMI; AMP; LT] ->
  (let '(s, b) := Sh.peek (skip_ws (c :: t)) [c] in if b then let '(_, _, s) := gettoken s in k s else d s) = k (skip_ws t).
Proof.
  intros Hc. assert (Hw : strchr whitespace c = false /\ c <> 0).
  { rewrite !elem_of_cons, elem_of_nil in Hc. destruct Hc as [->|[->|[->|[->|[->|[->|[]]]]]]]; done. }
  destruct Hw. rewrite skip_ws_not_ws, peek_yes by (done || set_solver).
  destruct (gettoken_symbol c t Hc) as [w ->]. done.
Qed.

Lemma readsE_P c : print_at PipeL c = print_at ExecL c -> readsE c -> readsP c.
Proof.
  intros Hp HE rest fuel Hn Hs Hf. rewrite Hp in *. destruct fuel as [|fuel]; [lia|].
  destruct (HE [] rest fuel) as (c' & E & Hc); [constructor|by apply (next_in_mono _ _ _ Hn); unfold STOP; set_solver|done|simpl; lia|].
  simpl in E. exists c'. cbn [parsepipe]. rewrite E. cbn [rbind].
  rewrite (peek_no _ _ [RPAR; AMP; SEMI]) by (by apply next_in_skip || set_solver). by rewrite skip_ws_idem.
Qed.

Lemma parsebacks_print n : forall c rest fuel, next_in [RPAR; SEMI] rest ->
  (length (skip_ws (replicate n AMP ++ rest)) < fuel)%nat ->
  parsebacks (length line) fuel c (skip_ws (replicate n AMP ++ rest)) = Parsed (Nat.iter n BACK c) (skip_ws rest).
Proof.
  induction n as [|n IH]; intros c rest fuel Hn Hf; (destruct fuel as [|fuel]; [lia|]); cbn [parsebacks].
  - cbn [replicate app]. rewrite (peek_no _ _ [RPAR; SEMI]) by (by apply next_in_skip || set_solver). by rewrite skip_ws_idem.
  - cbn [replicate app] in *. rewrite (peek_symbol AMP (replicate n AMP ++ rest) (parsebacks (length line) fuel (BACK c))) by set_solver.
    rewrite skip_ws_not_ws in Hf by done. cbn [length] in Hf.
    pose proof (suffix_length _ _ (skip_ws_suffix (replicate n AMP ++ rest))).
    rewrite IH by (done || lia). by rewrite Nat.iter_succ_r.
Qed.

Lemma map_iter_back n c : map_cmd text (Nat.iter n BACK c) = Nat.iter n BACK (map_cmd text c).
Proof. induction n as [|n IH]; simpl; [done|]. by rewrite IH. Qed.

Lemma readsP_B c : print_at BackL c = print_at PipeL c -> readsP c -> readsB c.
Proof.
  intros Hp HP n rest fuel Hn Hs Hf. rewrite Hp in *.
  destruct (HP (replicate n AMP ++ rest) fuel) as (c' & E & Hc); [|done|done|].
  { destruct n; [by apply (next_in_mono _ _ _ Hn); unfold STOP; set_solver|]. apply next_in_cons; [done|set_solver]. }
  unfold parseback. rewrite E. cbn [rbind]. rewrite parsebacks_print by (done || lia).
  exists (Nat.iter n BACK c'). split; [done|]. by rewrite map_iter_back, Hc.
Qed.

Lemma readsB_L c : print_at LineL c = print_at BackL c -> readsB c -> readsL c.
Proof.
  intros Hp HB rest fuel Hn Hs Hf. rewrite Hp in *. destruct fuel as [|fuel]; [lia|].
  destruct (HB 0%nat rest fuel) as (c' & E & Hc); [by apply (next_in_mono _ _ _ Hn); unfold STOP; set_solver|done|simpl; lia|].
  unfold parseback in E. cbn [replicate app] in E. exists c'. split; [|done]. cbn [parseline].
  destruct (parsepipe _ fuel _) as [c1 s1| |]; [|done|done]. cbn [rbind] in *. rewrite E. cbn [rbind].
  rewrite (peek_no _ _ [RPAR]) by (by apply next_in_skip || set_solver). by rewrite skip_ws_idem.
Qed.

(** Parentheses bring a whole line to the level of a simple command. *)
Lemma readsL_E c : print_at ExecL c = LPAR :: print_at LineL c ++ [RPAR] -> readsL c -> readsE c.
Proof.
  intros Hp HL rs rest fuel Hrs Hn Hs Hf. rewrite Hp in *. cbn [app] in *. rewrite <- app_assoc in *. cbn [app] in *.
  destruct fuel as [|[|fuel]]; [lia|simpl in Hf; lia|]. cbn [parseexec].
  rewrite peek_yes by (done || set_solver). cbn [parseblock]. rewrite peek_yes by (done || set_solver). cbv [negb].
  destruct (gettoken_symbol LPAR (print_at LineL c ++ RPAR :: pr_redirs rs ++ rest)) as [w ->]; [set_solver|].
  apply suffix_cons_l in Hs as Hs1. rewrite parseline_skip.
  destruct (HL (RPAR :: pr_redirs rs ++ rest) fuel) as (c' & -> & Hc); [apply next_in_cons; [done|set_solver]|done|simpl in Hf; lia|].
  cbn [rbind]. rewrite skip_ws_not_ws, peek_yes by (done || set_solver).
  destruct (gettoken_symbol RPAR (pr_redirs rs ++ rest)) as [w2 ->]; [set_solver|]. rewrite parseredirs_skip.
  destruct (parseredirs_print rs [] rest (S (length (skip_ws (pr_redirs rs ++ rest)))) Hrs (or_introl Hn)) as (rs' & -> & HF).
  { etrans; [|exact Hs1]. apply suffix_app_r. by apply suffix_cons_r. }
  { lia. }
  exists (foldl redircmd c' rs'). split; [done|]. by rewrite (map_wrap _ _ _ HF), Hc.
Qed.

Lemma print_words_skip argv s : Forall word_ok argv -> argv <> [] ->
  exists w t, word_ok w /\ (argv ≫= pr_word) ++ s = w ++ t.
Proof.
  intros H Hne. destruct argv as [|w argv]; [done|]. apply Forall_cons in H as [Hw _].
  exists w. eexists. split; [done|]. rewrite bind_cons. unfold pr_word at 1. by rewrite <- !app_assoc.
Qed.

Lemma readsE_exec argv : cmd_ok (EXEC argv) -> readsE (EXEC argv).
Proof.
  intros [Hargc Hw] rs rest fuel Hrs Hn Hs Hf. destruct fuel as [|fuel]; [lia|]. cbn [parseexec print_at] in *.
  destruct (decide (argv = [])) as [->|Hne].
  - (* nothing but redirections *)
    cbn [mbind list_bind app] in *.
    assert (Hpk : Sh.peek (pr_redirs rs ++ rest) [LPAR] = (skip_ws (pr_redirs rs ++ rest), false)).
    { destruct rs as [|[f fd] rs]; [by apply (peek_no _ _ STOP); [|set_solver]|].
      apply (peek_no _ _ [LT; GT]); [|set_solver]. apply next_in_cons; cbn [fst snd]; case_match; done || set_solver. }
    rewrite Hpk, parseredirs_skip.
    destruct (parseredirs_print rs [] rest (S (length (skip_ws (pr_redirs rs ++ rest)))) Hrs (or_introl Hn)) as (rs' & -> & HF); [done|lia|].
    cbn [rbind app]. rewrite parseargs_stop by (by apply next_in_skip || lia). cbn [rbind].
    exists (foldl redircmd (EXEC []) rs'). split; [by rewrite skip_ws_idem|]. by rewrite (map_wrap _ _ _ HF).
  - destruct (print_words_skip argv (pr_redirs rs ++ rest) Hw Hne) as (w & t & Hw1 & Ht).
    destruct (parseargs_print argv [] [] rs rest (S (length (w ++ t))) Hw Hne Hargc Hrs Hn Hs) as (argv' & rs' & E & Ha & HF);
      [rewrite Ht; lia|].
    rewrite Ht in *. rewrite peek_word by (done || set_solver).
    destruct (parseredirs_print [] [] (w ++ t) (S (length (w ++ t)))) as (rs0 & E0 & HF0);
      [constructor|right; by exists w, t|done| |].
    { pose proof (suffix_length _ _ (skip_ws_suffix (w ++ t))). cbn [pr_redirs mbind list_bind app]. lia. }
    change (pr_redirs [] ++ w ++ t) with (w ++ t) in E0. rewrite E0. apply Forall2_nil_inv_r in HF0 as ->.
    cbn [rbind app] in *. rewrite skip_ws_word, E by done. cbn [rbind].
    exists (foldl redircmd (EXEC argv') rs'). split; [done|]. rewrite (map_wrap _ _ _ HF). simpl. by rewrite Ha.
Qed.

Lemma readsE_redir c f mode fd : cmd_ok (REDIR c f mode fd) -> readsE c -> readsE (REDIR c f mode fd).
Proof.
  intros (_ & Hf & Hm) HE rs rest fuel Hrs Hn Hs Hfuel. cbn [print_at] in *. rewrite <- app_assoc in *.
  rewrite (app_assoc (pr_redir f fd)) in *. change (pr_redir f fd ++ pr_redirs rs) with (pr_redirs ((f, fd) :: rs)) in *.
  destruct (HE ((f, fd) :: rs) rest fuel) as (c' & E & Hc); [|done|done|done|].
  { constructor; [|done]. split; [done|]. simpl. lia. }
  exists c'. split; [done|]. rewrite Hc. unfold wrap. simpl. f_equal. f_equal. destruct Hm as [[-> ->]|[-> ->]]; done.
Qed.

Lemma readsP_pipe l r : readsE l -> readsP r -> readsP (PIPE l r).
Proof.
  intros HE HP rest fuel Hn Hs Hf. cbn [print_at paren] in *. rewrite <- app_assoc in *. cbn [app] in *.
  destruct fuel as [|fuel]; [lia|]. cbn [parsepipe].
  destruct (HE [] (BAR :: print_at PipeL r ++ rest) fuel) as (l' & El & Hl);
    [constructor|apply next_in_cons; [done|set_solver]|done|simpl in *; lia|].
  cbn [pr_redirs mbind list_bind app] in El. rewrite El. cbn [rbind].
  rewrite (peek_symbol BAR (print_at PipeL r ++ rest)
    (fun s => rbind (parsepipe (length line) fuel s) (fun r s => Parsed (PIPE l' r) s))) by set_solver.
  rewrite parsepipe_skip. destruct (HP rest fuel) as (r' & -> & Hr); [done| | |].
  { etrans; [|exact Hs]. apply suffix_app_r. by apply suffix_cons_r. }
  { rewrite !length_app in *. simpl in Hf. rewrite length_app in Hf. lia. }
  exists (PIPE l' r'). split; [done|]. simpl. by rewrite Hl, Hr.
Qed.

Lemma readsB_back c : readsB c -> readsB (BACK c).
Proof.
  intros HB n rest fuel Hn Hs Hf. cbn [print_at paren] in *. rewrite <- app_assoc in *.
  change ([AMP] ++ replicate n AMP ++ rest) with (replicate (S n) AMP ++ rest) in *.
  destruct (HB (S n) rest fuel Hn Hs Hf) as (c' & E & Hc). exists c'. split; [done|]. by rewrite Hc, Nat.iter_succ_r.
Qed.

Lemma readsL_list l r : readsB l -> readsL r -> readsL (LIST l r).
Proof.
  intros HB HL rest fuel Hn Hs Hf. cbn [print_at paren] in *. rewrite <- app_assoc in *. cbn [app] in *.
  destruct fuel as [|fuel]; [lia|]. cbn [parseline].
  destruct (HB 0%nat (SEMI :: print_at LineL r ++ rest) fuel) as (l' & El & Hl);
    [apply next_in_cons; [done|set_solver]|done|simpl in *; lia|].
  unfold parseback in El. cbn [replicate app] in El.
  destruct (parsepipe _ fuel _) as [c1 s1| |]; [|done|done]. cbn [rbind] in *. rewrite El. cbn [rbind].
  rewrite (peek_symbol SEMI (print_at LineL r ++ rest)
    (fun s => rbind (parseline (length line) fuel s) (fun r s => Parsed (LIST l' r) s))) by set_solver.
  rewrite parseline_skip. destruct (HL rest fuel) as (r' & -> & Hr); [done| | |].
  { etrans; [|exact Hs]. apply suffix_app_r. by apply suffix_cons_r. }
  { rewrite !length_app in *. simpl in Hf. rewrite length_app in Hf. lia. }
  exists (LIST l' r'). split; [done|]. simpl in *. by rewrite Hl, Hr.
Qed.

(** Every command is read back at every level. *)
Lemma reads_all c : cmd_ok c -> readsE c /\ readsP c /\ readsB c /\ readsL c.
Proof.
  induction c as [argv|c IH f mode fd|l IHl r IHr|l IHl r IHr|c IH]; intros Hc.
  - pose proof (readsE_exec argv Hc) as HE. pose proof (readsE_P (EXEC argv) eq_refl HE) as HP. pose proof (readsP_B (EXEC argv) eq_refl HP) as HB.
    pose proof (readsB_L (EXEC argv) eq_refl HB). done.
  - pose proof (readsE_redir c f mode fd Hc (proj1 (IH (proj1 Hc)))) as HE. pose proof (readsE_P (REDIR c f mode fd) eq_refl HE) as HP.
    pose proof (readsP_B (REDIR c f mode fd) eq_refl HP) as HB. pose proof (readsB_L (REDIR c f mode fd) eq_refl HB). done.
  - destruct Hc as [Hl Hr]. destruct (IHl Hl) as (HEl & _), (IHr Hr) as (_ & HPr & _).
    pose proof (readsP_pipe l r HEl HPr) as HP. pose proof (readsP_B (PIPE l r) eq_refl HP) as HB. pose proof (readsB_L (PIPE l r) eq_refl HB) as HL.
    pose proof (readsL_E (PIPE l r) eq_refl HL). done.
  - destruct Hc as [Hl Hr]. destruct (IHl Hl) as (_ & _ & HBl & _), (IHr Hr) as (_ & _ & _ & HLr).
    pose proof (readsL_list l r HBl HLr) as HL. pose proof (readsL_E (LIST l r) eq_refl HL) as HE. pose proof (readsE_P (LIST l r) eq_refl HE) as HP.
    pose proof (readsP_B (LIST l r) eq_refl HP). done.
  - destruct (IH Hc) as (_ & _ & HBc & _). pose proof (readsB_back c HBc) as HB. pose proof (readsB_L (BACK c) eq_refl HB) as HL.
    pose proof (readsL_E (BACK c) eq_refl HL) as HE. pose proof (readsE_P (BACK c) eq_refl HE). done.
Qed.
End Line.

(** ** The parser on a whole line *)

Lemma print_chars (P : Z -> Prop) lvl c :
  (forall x, is_word x = true -> P x) -> P 32 -> Forall P symbols -> cmd_ok c -> Forall P (print_at lvl c).
Proof.
  intros Hw H32 Hsym. assert (Hs : forall x, x ∈ symbols -> P x) by (by rewrite <- Forall_forall).
  assert (Hword : forall w, word_ok w -> Forall P (pr_word w)).
  { intros w [_ Hc]. apply Forall_app. split; [|by repeat constructor]. by eapply Forall_impl. }
  assert (Hparen : forall b s, Forall P s -> Forall P (paren b s)).
  { intros [] s Hss; [|done]. constructor; [apply Hs; set_solver|]. apply Forall_app. split; [done|].
    constructor; [apply Hs; set_solver|done]. }
  assert (Hin : P BAR /\ P AMP /\ P SEMI /\ P LT /\ P GT) by (split_and!; apply Hs; set_solver). destruct Hin as (? & ? & ? & ? & ?).
  revert lvl. induction c as [argv|c IH f mode fd|l IHl r IHr|l IHl r IHr|c IH]; intros lvl Hc; cbn [print_at].
  - destruct Hc as [_ Hc]. apply Forall_bind. by eapply Forall_impl.
  - destruct Hc as (Hc & Hf & _). apply Forall_app. split; [by apply IH|]. constructor; [by case_match|by apply Hword].
  - destruct Hc. apply Hparen, Forall_app. split; [by apply IHl|]. constructor; [done|by apply IHr].
  - destruct Hc. apply Hparen, Forall_app. split; [by apply IHl|]. constructor; [done|by apply IHr].
  - apply Hparen, Forall_app. split; [by apply IH|]. by repeat constructor.
Qed.

(** A printed command has no null and no end of line. *)
Lemma print_plain lvl c : cmd_ok c -> Forall (fun x => x <> 0 /\ x <> 10 /\ x <> 13) (print_at lvl c).
Proof.
  apply print_chars; [|lia|by repeat constructor]. intros x Hx. destruct (word_not_ws x Hx) as (H & _ & H0).
  split_and!; [done|by intros ->..].
Qed.

Lemma print_nonzero lvl c : cmd_ok c -> Forall (fun x => x <> 0) (print_at lvl c).
Proof. intros Hc. eapply Forall_impl; [by apply print_plain|]. by intros x [? _]. Qed.

Lemma blank_nonzero ws : skip_ws ws = [] -> Forall (fun x => x <> 0) ws.
Proof.
  induction ws as [|c ws IH]; [done|]. simpl. destruct (strchr whitespace c) eqn:E; [|done]. intros H.
  constructor; [by intros ->|by apply IH].
Qed.

Lemma parsecmd_reads c ws fuel :
  cmd_ok c -> skip_ws ws = [] -> (4 * length (print c ++ ws) + 3 < fuel)%nat ->
  exists c' buf, parsecmd fuel (print c ++ ws) = Parsed (c', buf) [] /\ map_cmd (str_at buf) c' = c.
Proof.
  intros Hc Hws Hf. set (s := print c ++ ws) in *.
  assert (Hnz : Forall (fun x => x <> 0) s) by (apply Forall_app; split; [by apply print_nonzero|by apply blank_nonzero]).
  destruct (reads_all s c Hc) as (_ & _ & _ & HL).
  destruct (HL ws fuel) as (c' & E & Hm); [unfold next_in; by rewrite Hws|done|done|].
  change (print_at LineL c ++ ws) with s in E.
  destruct (parse_fine s Hnz fuel s) as (Hfine & _); [done|]. specialize (Hfine Hf). rewrite E in Hfine.
  destruct Hfine as [_ Htok]. exists c', (nulterminate c' (s ++ [0])). unfold parsecmd. rewrite E. cbn [rbind]. unfold Sh.peek.
  rewrite skip_ws_idem, Hws. split; [done|]. by rewrite nulterminate_reads.
Qed.

(** C25: The shell's parser reads back every command.  A command, printed with
    the parentheses its structure needs, is parsed as that command: the same
    nesting of pipelines, lists, background commands and redirections, with
    each argument and each file name, as the strings the nulls leave in the
    buffer, the words that were printed; white space may follow. *)
Theorem parsecmd_print c ws fuel :
  cmd_ok c -> skip_ws ws = [] -> (4 * length (print c ++ ws) + 3 < fuel)%nat ->
  exists c' buf, parsecmd fuel (print c ++ ws) = Parsed (c', buf) [] /\ map_cmd (str_at buf) c' = c.
Proof. apply parsecmd_reads. Qed.

(** C26: The shell's parser ends on every line.  Each round of its loops and
    each level of its recursion takes a character of the line or goes one level
    down, so a recursion depth linear in the length is enough: it returns a
    command or a syntax error; and every string of the command is a word of the
    line, ended by a null. *)
Theorem parsecmd_ends s fuel :
  Forall (fun c => c <> 0) s -> (4 * length s + 3 < fuel)%nat ->
  (exists msg, parsecmd fuel s = Panic_ msg) \/
  (exists c buf, parsecmd fuel s = Parsed (c, buf) [] /\ length buf = S (length s) /\
     all_tokens (fun w => good s w /\ str_at buf w = text s w) c).
Proof.
  intros Hs Hf. destruct (parse_fine s Hs fuel s) as (Hfine & _); [done|]. specialize (Hfine Hf).
  unfold parsecmd. destruct (parseline (length s) fuel s) as [c rest|msg|]; [|by left; exists msg|done].
  destruct Hfine as [_ Hc]. cbn [rbind Sh.peek]. unfold Sh.peek. destruct (skip_ws rest); [|left; by eexists].
  right. exists c, (nulterminate c (s ++ [0])). split_and!; [done| |].
  - rewrite nulterminate_ends, (foldl_length_put_nul (ends c)), length_app. simpl. lia.
  - apply (all_tokens_impl (fun w => good s w /\ eq_ w ∈ ends c)); [by apply all_tokens_ends|].
    intros w [Hw He]. split; [done|]. rewrite nulterminate_ends. apply str_at_put_nul; [done..|by apply ends_good].
Qed.

(** [(a <i; b x &) | c >o] *)
Definition demo_cmd : scmd :=
  PIPE (LIST (REDIR (EXEC [chars "a"]) (chars "i") O_RDONLY 0) (BACK (EXEC [chars "b"; chars "x"])))
    (REDIR (EXEC [chars "c"]) (chars "o") (Z.lor O_WRONLY O_CREATE) 1).

Lemma demo_cmd_ok : cmd_ok demo_cmd.
Proof.
  assert (Hw : forall c, c ∈ [97; 98; 99; 105; 111; 120] -> word_ok [c]).
  { intros c Hc. split; [done|]. repeat constructor. rewrite !elem_of_cons, elem_of_nil in Hc.
    destruct Hc as [->|[->|[->|[->|[->|[->|[]]]]]]]; done. }
  simpl. split_and!; try (repeat constructor; apply Hw; set_solver); try (apply Hw; set_solver).
Qed.

Lemma parsecmd_print_witness :
  print demo_cmd = chars "(a <i ;b x &)|c >o " /\
  exists c' buf, parsecmd 84 (print demo_cmd ++ [10]) = Parsed (c', buf) [] /\ map_cmd (str_at buf) c' = demo_cmd.
Proof. split; [vm_compute; reflexivity|]. apply (parsecmd_print demo_cmd [10] 84); [exact demo_cmd_ok|done|vm_compute; lia]. Defined.

Lemma parsecmd_ends_witness :
  parsecmd 40 (chars "a | (b") = Panic_ (panic_text "syntax - missing )") /\
  ((exists msg, parsecmd 40 (chars "a | (b") = Panic_ msg) \/
   (exists c buf, parsecmd 40 (chars "a | (b") = Parsed (c, buf) [] /\ length buf = S (length (chars "a | (b")) /\
      all_tokens (fun w => good (chars "a | (b") w /\ str_at buf w = text (chars "a | (b") w) c)).
Proof.
  split; [vm_compute; reflexivity|]. apply (parsecmd_ends (chars "a | (b") 40); [|vm_compute; lia].
  unfold chars. simpl. repeat constructor; vm_compute; discriminate.
Defined.
