(* ===== verification/ShRun.v ===== *)
(** * The shell runs its commands: [src/sh.c]

    [runcmd] sets up descriptors and children for a command; [main] reads lines
    and runs each of them in a child.  [plumb] says which images a command
    starts and what their descriptors are; [runcmd_plumbs] that [runcmd] starts
    exactly these, whatever [close], [dup] and [pipe] it needs for that. *)

From stdpp Require Import base numbers list strings gmap sets.
From Stdlib Require Import Lia ZArith ZifyBool.
From S2P Require Import Prelude Fs User Sh ShParse ShPrint.
Open Scope Z_scope.

Definition O_RDWR : Z := 0x002.

(** ** The code *)

Definition panic {A} (s : string) : prog A := _ ← printf 2 ("%s" +:+ NL) [Astr (Some (chars s))]; Exit.

Definition fork1 : prog Z :=
  pid ← sys Sfork;
  if pid =? -1 then panic "fork" else Ret pid.

(** [runcmd] never returns. *)
Fixpoint runcmd (cmd : scmd) : prog Empty_set :=
  match cmd with
  | EXEC argv =>
      match argv with
      | [] => Exit
      | argv0 :: _ =>
          _ ← sys (Sexec argv0 argv);
          _ ← printf 2 ("exec %s failed" +:+ NL) [Astr (Some argv0)]; Exit
      end
  | REDIR cmd file mode fd =>
      _ ← sys (Sclose fd);
      r ← sys (Sopen file mode);
      if (r : Z) <? 0 then _ ← printf 2 ("open %s failed" +:+ NL) [Astr (Some file)]; Exit
      else runcmd cmd
  | LIST l r =>
      pid ← fork1;
      if pid =? 0 then runcmd l
      else _ ← sys Swait; runcmd r
  | PIPE l r =>
      p ← sys Spipe;
      match p with
      | None => panic "pipe"
      | Some (p0, p1) =>
          pid ← fork1;
          if pid =? 0 then
            _ ← sys (Sclose 1); _ ← sys (Sdup p1); _ ← sys (Sclose p0); _ ← sys (Sclose p1); runcmd l
          else
          pid ← fork1;
          if pid =? 0 then
            _ ← sys (Sclose 0); _ ← sys (Sdup p0); _ ← sys (Sclose p0); _ ← sys (Sclose p1); runcmd r
          else
          _ ← sys (Sclose p0); _ ← sys (Sclose p1); _ ← sys Swait; _ ← sys Swait; Exit
      end
  | BACK cmd =>
      pid ← fork1;
      if pid =? 0 then runcmd cmd else Exit
  end.

(** [runcmd(parsecmd(buf))] for the string [s] in [buf]. *)
Definition run_line (s : list Z) : prog Empty_set :=
  match parsecmd (4 * length s + 4) s with
  | Parsed (c, buf) _ => runcmd (map_cmd (str_at buf) c)
  | Panic_ out => _ ← puts 2 out; Exit
  | NoFuel_ => OutOfFuel
  end.

(** The string in [buf], unless it is empty. *)
Definition getcmd (nbuf : Z) : prog (option (list Z)) :=
  _ ← printf 2 "$ " [];
  buf ← gets nbuf;
  Ret (match cstring buf with [] => None | s => Some s end).

(** [while((fd = open("console", O_RDWR)) >= 0)]; a process has 16 descriptors. *)
Fixpoint open_console (fuel : nat) : prog unit :=
  match fuel with
  | O => OutOfFuel
  | S fuel =>
      fd ← sys (Sopen (chars "console") O_RDWR);
      if (fd : Z) <? 0 then Ret ()
      else if 3 <=? fd then _ ← sys (Sclose fd); Ret ()
      else open_console fuel
  end.

Fixpoint main_loop (fuel : nat) : prog Empty_set :=
  match fuel with
  | O => OutOfFuel
  | S fuel =>
      l ← getcmd 100;
      match l with
      | None => Exit
      | Some buf =>
          if bool_decide (take 3 buf = chars "cd ") then
            let dir := drop 3 (removelast buf) in
            r ← sys (Schdir dir);
            if (r : Z) <? 0 then _ ← printf 2 ("cannot cd %s" +:+ NL) [Astr (Some dir)]; main_loop fuel
            else main_loop fuel
          else
            pid ← fork1;
            if pid =? 0 then run_line buf
            else _ ← sys Swait; main_loop fuel
      end
  end.

Definition main (fuel : nat) : prog Empty_set := _ ← open_console 17; main_loop fuel.

(** ** What a command starts *)

(** A process whose descriptors are [a], [b] and [e], and no other. *)
Definition std (a b e : obj) : table := [Some a; Some b; Some e] ++ replicate 13 None.

Section Plumb.
Context (oracle : list event -> call -> Z) (content : list event -> list Z -> list Z) (fstat_of : list event -> obj -> stat).

(** What [c] does with standard input [a], standard output [b] and standard
    error [e]:
    - each simple command is executed with three descriptors;
    - a redirection replaces one of them by the file, and when that cannot be
      opened a message is all that happens;
    - the commands of a pipeline have its two ends in place of the output of
      the left one and the input of the right one; the process that started
      them waits for both;
    - the commands of a list have all three, one after the other;
    - nothing waits for a command in the background. *)
Fixpoint plumb (c : scmd) (a b e : obj) (s : ust) : ust :=
  match c with
  | EXEC [] => say (Ends (std a b e)) s
  | EXEC ((argv0 :: _) as argv) =>
      if oracle (log s) (Sexec argv0 argv) <? 0
      then say (Ends (std a b e)) (wrote e (chars "exec " ++ argv0 ++ chars " failed" ++ [10]) s)
      else say (Execs argv0 argv (std a b e)) s
  | REDIR c file mode fd =>
      if oracle (log s) (Sopen file mode) <? 0
      then say (Ends (<[Z.to_nat fd := None]> (std a b e))) (wrote e (chars "open " ++ file ++ chars " failed" ++ [10]) s)
      else let f := Opened (next s) file mode in
           plumb c (if fd =? 0 then f else a) (if fd =? 0 then b else f) e (opens content file s)
  | LIST l r =>
      plumb r a b e (say (Waits (std a b e)) (plumb l a b e (say (Did Sfork) s)))
  | PIPE l r =>
      let s1 := plumb l a (PipeW (next s)) e (say (Did Sfork) (fresh s)) in
      let s2 := plumb r (PipeR (next s)) b e (say (Did Sfork) s1) in
      say (Ends (std a b e)) (say (Waits (std a b e)) (say (Waits (std a b e)) s2))
  | BACK c => say (Ends (std a b e)) (plumb c a b e (say (Did Sfork) s))
  end.

(** The system has room for the processes and the pipes. *)
Definition roomy : Prop := (forall l, 0 < oracle l Sfork) /\ (forall l, 0 <= oracle l Spipe).

Abbreviation run := (User.run oracle content fstat_of).

(** A fork: the child, then the parent. *)
Lemma run_fork1 (k : Z -> prog Empty_set) t s s' :
  roomy -> run (k 0) t (say (Did Sfork) s) = (Ended, s') ->
  run (fork1 ≫= k) t s = run (k (oracle (log s) Sfork)) t s'.
Proof.
  intros [Hf _] Hk. specialize (Hf (log s)). cbn [fork1 mbind prog_bind sys User.run]. cbv zeta.
  replace (oracle (log s) Sfork <? 0) with false by lia. change (0 =? -1) with false. cbv iota. cbn [prog_bind].
  change (Ret 0 ≫= k) with (k 0). rewrite Hk. replace (oracle (log s) Sfork =? -1) with false by lia. done.
Qed.

Lemma run_wait_call {A} (k : Z -> prog A) t s :
  run (sys Swait ≫= k) t s = run (k (oracle (log s) Swait)) t (say (Waits t) s).
Proof. done. Qed.

(** The two children of a pipeline, and the process that waits for them. *)
Lemma run_pipe_left a b e n (K : prog Empty_set) s :
  run (_ ← sys (Sclose 1); _ ← sys (Sdup 4); _ ← sys (Sclose 3); _ ← sys (Sclose 4); K)
      ([Some a; Some b; Some e; Some (PipeR n); Some (PipeW n)] ++ replicate 11 None) s
  = run K (std a (PipeW n) e) s.
Proof. by rewrite (run_close oracle content fstat_of 1 b), (run_dup oracle content fstat_of 4 (PipeW n) 1 ([Some a; Some (PipeW n); Some e; Some (PipeR n); Some (PipeW n)] ++ replicate 11 None)),
  (run_close oracle content fstat_of 3 (PipeR n)), (run_close oracle content fstat_of 4 (PipeW n)). Qed.

Lemma run_pipe_right a b e n (K : prog Empty_set) s :
  run (_ ← sys (Sclose 0); _ ← sys (Sdup 3); _ ← sys (Sclose 3); _ ← sys (Sclose 4); K)
      ([Some a; Some b; Some e; Some (PipeR n); Some (PipeW n)] ++ replicate 11 None) s
  = run K (std (PipeR n) b e) s.
Proof. by rewrite (run_close oracle content fstat_of 0 a), (run_dup oracle content fstat_of 3 (PipeR n) 0 ([Some (PipeR n); Some b; Some e; Some (PipeR n); Some (PipeW n)] ++ replicate 11 None)),
  (run_close oracle content fstat_of 3 (PipeR n)), (run_close oracle content fstat_of 4 (PipeW n)). Qed.

Lemma run_pipe_parent a b e n s :
  run ((_ ← sys (Sclose 3); _ ← sys (Sclose 4); _ ← sys Swait; _ ← sys Swait; Exit) : prog Empty_set)
      ([Some a; Some b; Some e; Some (PipeR n); Some (PipeW n)] ++ replicate 11 None) s
  = (Ended, say (Ends (std a b e)) (say (Waits (std a b e)) (say (Waits (std a b e)) s))).
Proof. by rewrite (run_close oracle content fstat_of 3 (PipeR n)), (run_close oracle content fstat_of 4 (PipeW n)), !run_wait_call. Qed.

Lemma run_pipe (k : option (Z * Z) -> prog Empty_set) a b e s :
  roomy -> run (sys Spipe ≫= k) (std a b e) s
  = run (k (Some (3, 4))) ([Some a; Some b; Some e; Some (PipeR (next s)); Some (PipeW (next s))] ++ replicate 11 None) (fresh s).
Proof.
  intros [_ Hp]. specialize (Hp (log s)). cbn [mbind prog_bind sys User.run do_call].
  by replace (oracle (log s) Spipe <? 0) with false by lia.
Qed.

Lemma exec_message x :
  fmt_text false (chars ("exec %s failed" +:+ NL)) [Astr (Some x)] = chars "exec " ++ x ++ chars " failed" ++ [10].
Proof. reflexivity. Qed.

Lemma open_message x :
  fmt_text false (chars ("open %s failed" +:+ NL)) [Astr (Some x)] = chars "open " ++ x ++ chars " failed" ++ [10].
Proof. reflexivity. Qed.

Lemma runcmd_plumb c : cmd_ok c -> roomy -> forall a b e s, run (runcmd c) (std a b e) s = (Ended, plumb c a b e s).
Proof.
  intros Hc Hroom. induction c as [argv|c IH f mode fd|l IHl r IHr|l IHl r IHr|c IH]; intros a b e s; cbn [runcmd plumb].
  - destruct argv as [|argv0 argv]; [done|].
    destruct (Z.ltb_spec (oracle (log s) (Sexec argv0 (argv0 :: argv))) 0); [|by rewrite (run_exec oracle content fstat_of)].
    by rewrite (run_exec_fails oracle content fstat_of), (run_printf oracle content fstat_of 2 _ _ e), exec_message.
  - destruct Hc as (Hc & Hf & Hm).
    assert (Hfd : fd = 0 \/ fd = 1) by lia. rewrite (run_close oracle content fstat_of fd (if fd =? 0 then a else b)) by (by destruct Hfd as [-> | ->]).
    destruct (Z.ltb_spec (oracle (log s) (Sopen f mode)) 0) as [Ho|Ho].
    + rewrite (run_open_fails oracle content fstat_of) by done. change (-1 <? 0) with true. cbv iota.
      by rewrite (run_printf oracle content fstat_of 2 _ _ e), open_message by (by destruct Hfd as [-> | ->]).
    + destruct Hfd as [-> | ->].
      * rewrite (run_open oracle content fstat_of f mode 0 (std (Opened (next s) f mode) b e)) by done. by apply IH.
      * rewrite (run_open oracle content fstat_of f mode 1 (std a (Opened (next s) f mode) e)) by done. by apply IH.
  - destruct Hc as [Hl Hr]. rewrite run_pipe by done. cbv beta iota.
    erewrite run_fork1; [|done|]; [|cbv beta; change (0 =? 0) with true; cbv iota; rewrite run_pipe_left; by apply IHl].
    destruct Hroom as [Hfork Hpipe] eqn:EH. clear EH.
    rewrite (proj2 (Z.eqb_neq _ 0)) by (pose proof (Hfork (log (fresh s))); lia).
    erewrite run_fork1; [|done|]; [|cbv beta; change (0 =? 0) with true; cbv iota; rewrite run_pipe_right; by apply IHr].
    rewrite (proj2 (Z.eqb_neq _ 0)) by (match goal with |- oracle ?l _ <> _ => pose proof (Hfork l) end; lia).
    by rewrite run_pipe_parent.
  - destruct Hc as [Hl Hr].
    erewrite run_fork1; [|done|]; [|cbv beta; change (0 =? 0) with true; cbv iota; by apply IHl].
    rewrite (proj2 (Z.eqb_neq _ 0)) by (destruct Hroom as [Hfork _]; pose proof (Hfork (log s)); lia).
    rewrite run_wait_call. by apply IHr.
  - erewrite run_fork1; [|done|]; [|cbv beta; change (0 =? 0) with true; cbv iota; by apply IH].
    rewrite (proj2 (Z.eqb_neq _ 0)) by (destruct Hroom as [Hfork _]; pose proof (Hfork (log s)); lia). done.
Qed.

(** ** Reading lines *)

(** [m] characters of the standard input have been read. *)
Definition consumed (m : nat) (s : ust) : ust := UState (log s) (next s) (input s) (drop m (stdin s)) (drop m (chunks s)).

Lemma consumed_consumed m n s : consumed m (consumed n s) = consumed (n + m) s.
Proof. unfold consumed. simpl. by rewrite !drop_drop. Qed.

Definition reads_ok : Prop := forall l, 0 <= oracle l (Sread 0 1).

Lemma run_read1 {A} (k : option (list Z) -> prog A) t s :
  reads_ok -> fd_get t 0 = Some (Std 0) ->
  run (sys (Sread 0 1) ≫= k) t s = run (k (Some (take 1 (stdin s)))) t (consumed 1 s).
Proof.
  intros Hr Ht. specialize (Hr (log s)). cbn [mbind prog_bind sys User.run do_call]. rewrite Ht.
  replace (_ <? 0) with false by lia. unfold take_bytes, consumed. cbn [avail]. change (Z.to_nat 1) with 1%nat.
  replace (match chunks s with c :: _ => Nat.min 1 (S c) | [] => 1%nat end) with 1%nat by (by destruct (chunks s)).
  replace (tail (chunks s)) with (drop 1 (chunks s)) by (by destruct (chunks s)). done.
Qed.

Lemma run_gets {A} w : forall n rest (k : list Z -> prog A) t s,
  reads_ok -> fd_get t 0 = Some (Std 0) -> Forall (fun x => x <> 0 /\ x <> 10 /\ x <> 13) w -> (length w < n)%nat ->
  stdin s = w ++ 10 :: rest ->
  run (gets_from n ≫= k) t s = run (k (w ++ [10])) t (consumed (S (length w)) s).
Proof.
  induction w as [|c w IH]; intros n rest k t s Hr Ht Hw Hn Hin; (destruct n as [|n]; [simpl in Hn; lia|]); cbn [gets_from];
    rewrite run_bind_assoc, (run_read1 _ _ _ Hr Ht), Hin; cbn [app take].
  - done.
  - apply Forall_cons in Hw as [Hc Hw]. replace ((c =? 10) || (c =? 13)) with false by lia.
    rewrite run_bind_assoc, (IH n rest) by (done || simpl in Hn; (lia || (simpl; by rewrite Hin))).
    by rewrite consumed_consumed.
Qed.

Lemma run_gets_eof {A} n (k : list Z -> prog A) t s :
  reads_ok -> fd_get t 0 = Some (Std 0) -> stdin s = [] -> (0 < n)%nat -> run (gets_from n ≫= k) t s = run (k []) t (consumed 1 s).
Proof.
  intros Hr Ht Hin Hn. destruct n as [|n]; [lia|]. cbn [gets_from]. by rewrite run_bind_assoc, (run_read1 _ _ _ Hr Ht), Hin.
Qed.

Lemma cstring_nonzero s : Forall (fun x => x <> 0) s -> cstring s = s.
Proof. induction 1 as [|c s Hc _ IH]; [done|]. simpl. by rewrite (proj2 (Z.eqb_neq c 0) Hc), IH. Qed.

Definition prompt (s : ust) : ust := wrote (Std 2) (chars "$ ") s.

Lemma prompt_stdin s : stdin (prompt s) = stdin s.
Proof. unfold prompt. by rewrite wrote_log. Qed.

Definition tty : table := std (Std 0) (Std 1) (Std 2).

Lemma run_getcmd c rest (k : option (list Z) -> prog Empty_set) s :
  reads_ok -> cmd_ok c -> (length (print c) < 99)%nat -> stdin s = print c ++ 10 :: rest ->
  run (getcmd 100 ≫= k) tty s = run (k (Some (print c ++ [10]))) tty (consumed (S (length (print c))) (prompt s)).
Proof.
  intros Hr Hc Hl Hin. unfold getcmd. rewrite run_bind_assoc, (run_printf oracle content fstat_of 2 _ _ (Std 2)) by done.
  pose proof (print_plain LineL c Hc) as Hp. fold (print c) in Hp. change (fmt_text false (chars "$ ") []) with (chars "$ ").
  fold (prompt s). rewrite run_bind_assoc. unfold gets. change (Z.to_nat (100 - 1)) with 99%nat.
  rewrite (run_gets (print c) 99 rest) by (done || by rewrite prompt_stdin). cbn [mbind prog_bind].
  rewrite cstring_nonzero; [by destruct (print c)|]. apply Forall_app. split; [|by repeat constructor].
  eapply Forall_impl; [exact Hp|]. by intros x [? _].
Qed.

Lemma run_getcmd_eof (k : option (list Z) -> prog Empty_set) s :
  reads_ok -> stdin s = [] -> run (getcmd 100 ≫= k) tty s = run (k None) tty (consumed 1 (prompt s)).
Proof.
  intros Hr Hin. unfold getcmd. rewrite run_bind_assoc, (run_printf oracle content fstat_of 2 _ _ (Std 2)) by done.
  change (fmt_text false (chars "$ ") []) with (chars "$ "). fold (prompt s). rewrite run_bind_assoc. unfold gets.
  change (Z.to_nat (100 - 1)) with 99%nat. by rewrite run_gets_eof by (done || lia || by rewrite prompt_stdin).
Qed.

(** ** Sessions *)

Lemma plumb_stdin c : forall a b e s, stdin (plumb c a b e s) = stdin s.
Proof.
  induction c as [argv|c IH f mode fd|l IHl r IHr|l IHl r IHr|c IH]; intros a b e s; cbn [plumb].
  - destruct argv; [done|]. case_match; [by rewrite wrote_log|done].
  - case_match; [by rewrite wrote_log|]. by rewrite IH.
  - simpl. rewrite IHr. simpl. by rewrite IHl.
  - rewrite IHr. simpl. by rewrite IHl.
  - simpl. by rewrite IH.
Qed.

(** What the shell does with the lines of [cs]: a prompt for each, a child that
    runs it with the descriptors of the shell, and a wait; then it ends. *)
Fixpoint session (cs : list scmd) (s : ust) : ust :=
  match cs with
  | [] => say (Ends tty) (consumed 1 (prompt s))
  | c :: cs =>
      session cs (say (Waits tty)
        (plumb c (Std 0) (Std 1) (Std 2) (say (Did Sfork) (consumed (S (length (print c))) (prompt s)))))
  end.

(** A command that fits in the buffer and is not the built-in [cd]. *)
Definition typable (c : scmd) : Prop :=
  cmd_ok c /\ (length (print c) < 99)%nat /\ take 3 (print c ++ [10]) <> chars "cd ".

Lemma run_run_line c s :
  cmd_ok c -> roomy -> run (run_line (print c ++ [10])) tty s = (Ended, plumb c (Std 0) (Std 1) (Std 2) s).
Proof.
  intros Hc Hroom. unfold run_line.
  destruct (parsecmd_reads c [10] (4 * length (print c ++ [10]) + 4)) as (c' & buf & -> & Hm); [done|done|lia|].
  rewrite Hm. by apply runcmd_plumb.
Qed.

Lemma main_loop_session cs : forall fuel s,
  Forall typable cs -> roomy -> reads_ok -> stdin s = (cs ≫= fun c => print c ++ [10]) -> (length cs < fuel)%nat ->
  run (main_loop fuel) tty s = (Ended, session cs s).
Proof.
  induction cs as [|c cs IH]; intros fuel s Hcs Hroom Hr Hin Hf; (destruct fuel as [|fuel]; [lia|]); cbn [main_loop session].
  - by rewrite run_getcmd_eof.
  - apply Forall_cons in Hcs as [(Hc & Hl & Hcd) Hcs]. rewrite bind_cons, <- app_assoc in Hin. cbn [app] in Hin.
    rewrite (run_getcmd c (cs ≫= fun c => print c ++ [10])) by done. rewrite bool_decide_eq_false_2 by done.
    erewrite run_fork1; [|done|]; [|cbv beta; change (0 =? 0) with true; cbv iota; by apply run_run_line].
    rewrite (proj2 (Z.eqb_neq _ 0))
      by (destruct Hroom as [Hfork _]; match goal with |- oracle ?l _ <> _ => pose proof (Hfork l) end; lia).
    rewrite run_wait_call. apply IH; [done..| |simpl in Hf; lia].
    cbn [stdin say]. rewrite plumb_stdin. cbn [stdin say consumed]. rewrite prompt_stdin, Hin.
    rewrite cons_middle, app_assoc, drop_app_length'; [done|]. rewrite length_app. simpl. lia.
Qed.

Lemma run_open_console (k : unit -> prog Empty_set) s :
  run (open_console 17 ≫= k) tty s
  = run (k ()) tty (if oracle (log s) (Sopen (chars "console") O_RDWR) <? 0 then s else opens content (chars "console") s).
Proof.
  cbn [open_console]. rewrite run_bind_assoc.
  destruct (Z.ltb_spec (oracle (log s) (Sopen (chars "console") O_RDWR)) 0).
  - by rewrite (run_open_fails oracle content fstat_of).
  - rewrite (run_open oracle content fstat_of _ _ 3 ([Some (Std 0); Some (Std 1); Some (Std 2); Some (Opened (next s) (chars "console") O_RDWR)] ++ replicate 12 None)) by done.
    change (3 <? 0) with false. change (3 <=? 3) with true. cbv iota. rewrite run_bind_assoc.
    by rewrite (run_close oracle content fstat_of 3 (Opened (next s) (chars "console") O_RDWR)).
Qed.
End Plumb.

(** C27: The shell connects the processes of a command as the command says.  From
    a process with three descriptors, [runcmd] executes each simple command with
    exactly three descriptors, its redirections and the ends of its pipes in
    their places; no process keeps another end of a pipe open, neither the
    images nor the processes that wait, so that the reader of a pipe sees its
    end when the writers are done; a command that cannot be executed, or whose
    file cannot be opened, prints a message and ends. *)
Theorem runcmd_plumbs oracle content fstat_of c a b e s :
  cmd_ok c -> roomy oracle ->
  User.run oracle content fstat_of (runcmd c) (std a b e) s = (Ended, plumb oracle content c a b e s).
Proof. intros Hc Hr. by apply runcmd_plumb. Qed.

(** The shell runs its input, line by line.  For commands typed one per line,
    [main] prompts for each, parses it, runs it in a child with the descriptors
    of the shell, and waits for the child before the next prompt; at the end of
    the input it exits. *)
Theorem shell_session oracle content fstat_of cs fuel s :
  Forall typable cs -> roomy oracle -> reads_ok oracle ->
  stdin s = (cs ≫= fun c => print c ++ [10]) -> (length cs < fuel)%nat ->
  User.run oracle content fstat_of (main fuel) tty s
  = (Ended, session oracle content cs
              (if oracle (log s) (Sopen (chars "console") O_RDWR) <? 0 then s else opens content (chars "console") s)).
Proof.
  intros Hcs Hroom Hr Hin Hf. unfold main. rewrite run_open_console. apply main_loop_session; try done. by case_match.
Qed.

(** ** Examples *)

(** Every call succeeds but [exec] of "b". *)
Definition demo_oracle (_ : list event) (c : call) : Z :=
  match c with Sexec path _ => if bool_decide (path = chars "b") then -1 else 0 | _ => 1 end.
Definition demo_content (_ : list event) (_ : list Z) : list Z := [].
Definition demo_fstat (_ : list event) (_ : obj) : stat := Stat 0 0 0 0 0.
Definition demo_start (inp : list Z) : ust := UState [] 0 ∅ inp [].

Lemma demo_roomy : roomy demo_oracle.
Proof. split; intros l; simpl; lia. Qed.

(** The images that were executed, and their first descriptors. *)
Definition images (l : list event) : list (list Z * list (option obj)) :=
  l ≫= fun e => match e with Execs p _ t => [(p, take 5 t)] | _ => [] end.

Lemma runcmd_plumbs_witness :
  exists s, User.run demo_oracle demo_content demo_fstat (runcmd demo_cmd) tty (demo_start []) = (Ended, s) /\
    images (log s) =
      [(chars "a", [Some (Opened 1 (chars "i") 0); Some (PipeW 0); Some (Std 2); None; None]);
       (chars "c", [Some (PipeR 0); Some (Opened 2 (chars "o") 0x201); Some (Std 2); None; None])].
Proof.
  eexists. split; [apply (runcmd_plumbs demo_oracle demo_content demo_fstat demo_cmd (Std 0) (Std 1) (Std 2) (demo_start []) demo_cmd_ok demo_roomy)|].
  vm_compute. reflexivity.
Defined.

Lemma demo_typable : typable demo_cmd.
Proof. split; [exact demo_cmd_ok|]. split; [vm_compute; lia|]. vm_compute. discriminate. Qed.

Lemma shell_session_witness :
  exists s, User.run demo_oracle demo_content demo_fstat (main 2) tty (demo_start (print demo_cmd ++ [10])) = (Ended, s) /\
    length (images (log s)) = 2%nat.
Proof.
  eexists. split.
  - apply (shell_session demo_oracle demo_content demo_fstat [demo_cmd] 2 (demo_start (print demo_cmd ++ [10]))).
    + constructor; [exact demo_typable|constructor].
    + exact demo_roomy.
    + intros l. simpl. lia.
    + vm_compute. reflexivity.
    + simpl. lia.
  - vm_compute. reflexivity.
Defined.
