(* ===== verification/Programs.v ===== *)
(** * User programs: cat, wc, echo, ls, ln, mkdir, rm, kill, zombie, init

    [main] of each program, on the words of its command line: [src/cat.c],
    [src/wc.c], [src/echo.c], [src/ls.c], [src/ln.c], [src/mkdir.c], [src/rm.c],
    [src/kill.c], [src/zombie.c], [src/init.c]. *)

From stdpp Require Import base numbers list strings gmap.
From Stdlib Require Import Lia ZArith ZifyBool.
From S2P Require Import Prelude CString Fs User.
Open Scope Z_scope.

Definition O_RDWR : Z := 0x002.

(** argv[i]; the words of a command line *)
Definition arg_str (argv : list (list Z)) (i : nat) : list Z := default [] (argv !! i).

(** ** cat *)

Module Cat.
(** [while((n = read(fd, buf, sizeof(buf))) > 0) write(1, buf, n);] *)
Fixpoint cat (fuel : nat) (fd : Z) : prog unit :=
  match fuel with
  | O => OutOfFuel
  | S fuel =>
      r ← sys (Sread fd 512);
      match r with
      | None => _ ← printf 1 ("cat: read error" +:+ NL) []; Exit
      | Some [] => Ret ()
      | Some bs => _ ← sys (Swrite 1 bs); cat fuel fd
      end
  end.

Fixpoint files (fuel : nat) (names : list (list Z)) : prog unit :=
  match names with
  | [] => Exit
  | name :: names =>
      fd ← sys (Sopen name 0);
      if (fd : Z) <? 0 then _ ← printf 1 ("cat: cannot open %s" +:+ NL) [Astr (Some name)]; Exit
      else _ ← cat fuel fd; _ ← sys (Sclose fd); files fuel names
  end.

Definition main (fuel : nat) (argv : list (list Z)) : prog unit :=
  if (length argv <=? 1)%nat then _ ← cat fuel 0; Exit else files fuel (tail argv).
End Cat.

(** ** wc *)

Module Wc.
(** The counters l, w, c and inword. *)
Record counts := Counts { lines : Z; words : Z; cs : Z; inword : bool }.

(** strchr(" \r\t\n\v", c); the null ends the string *)
Definition blank (c : Z) : bool := existsb (Z.eqb c) [32; 13; 9; 10; 11].

Definition count1 (k : counts) (c : Z) : counts :=
  let l := if c =? 10 then s32 (lines k + 1) else lines k in
  if blank c then Counts l (words k) (s32 (cs k + 1)) false
  else if inword k then Counts l (words k) (s32 (cs k + 1)) true
  else Counts l (s32 (words k + 1)) (s32 (cs k + 1)) true.

Fixpoint wc (fuel : nat) (fd : Z) (name : list Z) (k : counts) : prog unit :=
  match fuel with
  | O => OutOfFuel
  | S fuel =>
      r ← sys (Sread fd 512);
      match r with
      | None => _ ← printf 1 ("wc: read error" +:+ NL) []; Exit
      | Some [] => printf 1 ("%d %d %d %s" +:+ NL) [Aint (lines k); Aint (words k); Aint (cs k); Astr (Some name)]
      | Some bs => wc fuel fd name (foldl count1 k bs)
      end
  end.

Definition zero : counts := Counts 0 0 0 false.

Fixpoint files (fuel : nat) (names : list (list Z)) : prog unit :=
  match names with
  | [] => Exit
  | name :: names =>
      fd ← sys (Sopen name 0);
      if (fd : Z) <? 0 then _ ← printf 1 ("cat: cannot open %s" +:+ NL) [Astr (Some name)]; Exit
      else _ ← wc fuel fd name zero; _ ← sys (Sclose fd); files fuel names
  end.

Definition main (fuel : nat) (argv : list (list Z)) : prog unit :=
  if (length argv <=? 1)%nat then _ ← wc fuel 0 [] zero; Exit else files fuel (tail argv).
End Wc.

(** ** echo, ln, mkdir, rm, kill, zombie *)

Module Small.
Fixpoint echo_words (words : list (list Z)) : prog unit :=
  match words with
  | [] => Exit
  | w :: words =>
      _ ← printf 1 "%s%s" [Astr (Some w); Astr (Some (match words with [] => [10] | _ => [32] end))];
      echo_words words
  end.
Definition echo (argv : list (list Z)) : prog unit := echo_words (tail argv).

Definition ln (argv : list (list Z)) : prog unit :=
  if negb (length argv =? 3)%nat then _ ← printf 2 ("Usage: ln old new" +:+ NL) []; Exit
  else
    r ← sys (Slink (arg_str argv 1) (arg_str argv 2));
    _ ← (if (r : Z) <? 0 then printf 2 ("link %s %s: failed" +:+ NL) [Astr (Some (arg_str argv 1)); Astr (Some (arg_str argv 2))] else Ret ());
    Exit.

Fixpoint mkdirs (names : list (list Z)) : prog unit :=
  match names with
  | [] => Exit
  | name :: names =>
      r ← sys (Smkdir name);
      if (r : Z) <? 0 then _ ← printf 2 ("mkdir: %s failed to create" +:+ NL) [Astr (Some name)]; Exit
      else mkdirs names
  end.
Definition mkdir (argv : list (list Z)) : prog unit :=
  if (length argv <? 2)%nat then _ ← printf 2 ("Usage: mkdir files..." +:+ NL) []; Exit else mkdirs (tail argv).

Fixpoint rms (names : list (list Z)) : prog unit :=
  match names with
  | [] => Exit
  | name :: names =>
      r ← sys (Sunlink name);
      if (r : Z) <? 0 then _ ← printf 2 ("rm: %s failed to delete" +:+ NL) [Astr (Some name)]; Exit
      else rms names
  end.
Definition rm (argv : list (list Z)) : prog unit :=
  if (length argv <? 2)%nat then _ ← printf 2 ("Usage: rm files..." +:+ NL) []; Exit else rms (tail argv).

(** [kill(atoi(argv[i]))]: [atoi] of the string and its null *)
Definition atoi (s : list Z) : Z := default 0 (Ulib.atoi (S (length s)) (view (s ++ [0]))).

Fixpoint kills (pids : list (list Z)) : prog unit :=
  match pids with
  | [] => Exit
  | p :: pids => _ ← sys (Skill (atoi p)); kills pids
  end.
Definition kill (argv : list (list Z)) : prog unit :=
  if (length argv <? 1)%nat then _ ← printf 2 ("usage: kill pid..." +:+ NL) []; Exit else kills (tail argv).

Definition zombie : prog unit :=
  pid ← sys Sfork;
  if 0 <? (pid : Z) then _ ← sys (Ssleep 5); Exit else Exit.
End Small.

(** ** ls *)

Module Ls.
Definition DIRSIZ : nat := 14.
Definition T_DIR_ : Z := 1.
Definition T_FILE_ : Z := 2.

(** What is after the last slash; [for(p=path+strlen(path); p >= path && *p != '/'; p--) ;] *)
Fixpoint last_part (path : list Z) : list Z :=
  match path with
  | [] => []
  | c :: rest => if existsb (Z.eqb 47) rest then last_part rest else if c =? 47 then rest else path
  end.

(** Padded with blanks.  The static array is only written up to [DIRSIZ], so its
    last byte stays null. *)
Definition fmtname (path : list Z) : list Z :=
  let p := last_part path in
  if (DIRSIZ <=? length p)%nat then p else p ++ replicate (DIRSIZ - length p) 32.

(** The string in an array of characters. *)
Fixpoint string_in (b : list Z) : list Z :=
  match b with c :: t => if c =? 0 then [] else c :: string_in t | [] => [] end.

Definition print_entry (path : list Z) (st : stat) : prog unit :=
  printf 1 ("%s %d %d %d" +:+ NL) [Astr (Some (fmtname path)); Aint (st_type st); Aint (st_ino st); Aint (st_size st)].

(** [while(read(fd, &de, sizeof(de)) == sizeof(de))]: a struct dirent is an inode
    number of two bytes and a name of [DIRSIZ]. *)
Fixpoint entries (fuel : nat) (fd : Z) (path : list Z) : prog unit :=
  match fuel with
  | O => OutOfFuel
  | S fuel =>
      r ← sys (Sread fd 16);
      match r with
      | Some de =>
          if negb (length de =? 16)%nat then Ret ()
          else if le_dec (take 2 de) =? 0 then entries fuel fd path
          else
            let buf := path ++ [47] ++ string_in (drop 2 de) in
            st ← stat_path buf;
            match st with
            | None => _ ← printf 1 ("ls: cannot stat %s" +:+ NL) [Astr (Some buf)]; entries fuel fd path
            | Some st => _ ← print_entry buf st; entries fuel fd path
            end
      | None => Ret ()
      end
  end.

Definition ls (fuel : nat) (path : list Z) : prog unit :=
  fd ← sys (Sopen path 0);
  if (fd : Z) <? 0 then printf 2 ("ls: cannot open %s" +:+ NL) [Astr (Some path)]
  else
  r ← sys (Sfstat fd);
  match r with
  | None => _ ← printf 2 ("ls: cannot stat %s" +:+ NL) [Astr (Some path)]; _ ← sys (Sclose fd); Ret ()
  | Some st =>
      _ ← (if st_type st =? T_FILE_ then print_entry path st
           else if st_type st =? T_DIR_ then
             if 512 <? Z.of_nat (length path) + 1 + Z.of_nat DIRSIZ + 1 then printf 1 ("ls: path too long" +:+ NL) []
             else entries fuel fd path
           else Ret ());
      _ ← sys (Sclose fd); Ret ()
  end.

Fixpoint paths (fuel : nat) (names : list (list Z)) : prog unit :=
  match names with
  | [] => Exit
  | name :: names => _ ← ls fuel name; paths fuel names
  end.

Definition main (fuel : nat) (argv : list (list Z)) : prog unit :=
  if (length argv <? 2)%nat then _ ← ls fuel (chars "."); Exit else paths fuel (tail argv).
End Ls.

(** ** init *)

Module Init.
(** [while((wpid=wait()) >= 0 && wpid != pid)] *)
Fixpoint reap (fuel : nat) (pid : Z) : prog unit :=
  match fuel with
  | O => OutOfFuel
  | S fuel =>
      wpid ← sys Swait;
      if (0 <=? (wpid : Z)) && negb (wpid =? pid) then _ ← printf 1 ("zombie!" +:+ NL) []; reap fuel pid
      else Ret ()
  end.

Fixpoint shells (fuel : nat) : prog unit :=
  match fuel with
  | O => OutOfFuel
  | S fuel =>
      _ ← printf 1 ("init: starting sh" +:+ NL) [];
      pid ← sys Sfork;
      if (pid : Z) <? 0 then _ ← printf 1 ("init: fork failed" +:+ NL) []; Exit
      else if pid =? 0 then
        _ ← sys (Sexec (chars "sh") [chars "sh"]);
        _ ← printf 1 ("init: exec sh failed" +:+ NL) []; Exit
      else _ ← reap fuel pid; shells fuel
  end.

Definition main (fuel : nat) : prog unit :=
  fd ← sys (Sopen (chars "console") O_RDWR);
  _ ← (if (fd : Z) <? 0 then _ ← sys (Smknod (chars "console") 1 1); _ ← sys (Sopen (chars "console") O_RDWR); Ret () else Ret ());
  _ ← sys (Sdup 0);
  _ ← sys (Sdup 0);
  fd ← sys (Sopen (chars "eth") O_RDWR);
  _ ← (if (fd : Z) <? 0 then _ ← sys (Smknod (chars "eth") 2 0); Ret () else _ ← sys (Sclose fd); Ret ());
  shells fuel.
End Init.
