(* ===== verification/ProgramsCorrect.v ===== *)
(** * cat and wc are correct

    Whatever number of bytes each [read] gives, [cat] writes the bytes of its
    files in their order, and [wc] the numbers of lines, words and characters. *)

From stdpp Require Import base numbers list strings gmap.
From Stdlib Require Import Lia ZArith ZifyBool.
From S2P Require Import Prelude Fs User Programs.
Open Scope Z_scope.

Section Programs.
Context (oracle : list event -> call -> Z) (content : list event -> list Z -> list Z) (fstat_of : list event -> obj -> stat).
Abbreviation run := (User.run oracle content fstat_of).

(** Reads do not fail. *)
Definition reads_succeed : Prop := forall l fd n, 0 <= oracle l (Sread fd n).

(** An object with bytes to read. *)
Definition source (o : obj) : Prop := match o with Std _ | Opened _ _ _ => True | _ => False end.

(** A read takes some of the bytes that are left. *)
Lemma run_read {A} fd n o (k : option (list Z) -> prog A) t s :
  reads_succeed -> fd_get t fd = Some o -> source o -> 0 < n ->
  exists bs s', run (sys (Sread fd n) ≫= k) t s = run (k (Some bs)) t s' /\ avail s o = bs ++ avail s' o /\
    log s' = log s /\ next s' = next s /\ (bs = [] -> avail s o = []).
Proof.
  intros Hr Ht Ho Hn. specialize (Hr (log s) fd n). cbn [mbind prog_bind sys User.run do_call]. rewrite Ht.
  replace (_ <? 0) with false by lia. unfold take_bytes. set (m := match chunks s with c :: _ => Nat.min (Z.to_nat n) (S c) | [] => Z.to_nat n end).
  assert (Hm : (0 < m)%nat) by (unfold m; case_match; lia).
  assert (Htk : forall l : list Z, take m l = [] -> l = []) by (intros [|x l]; [done|]; destruct m; [lia|done]).
  eexists _, _. split; [reflexivity|]. destruct o as [i|j path mode|j|j]; try done; cbn [avail log next input stdin].
  - split_and!; [by rewrite take_drop|done|done|]. apply Htk.
  - rewrite lookup_insert_eq. cbn [from_option]. unfold id. split_and!; [by rewrite take_drop|done|done|]. apply Htk.
Qed.

(** The bytes written to [o], in the pieces they were written. *)
Definition wrote_pieces (o : obj) (pieces : list (list Z)) (s s' : ust) : Prop := log s' = log s ++ (Wrote o <$> pieces).

Lemma run_write {A} fd bs o (k : Z -> prog A) t s :
  fd_get t fd = Some o -> run (sys (Swrite fd bs) ≫= k) t s = run (k (Z.of_nat (length bs))) t (say (Wrote o bs) s).
Proof. intros Ht. cbn [mbind prog_bind sys User.run do_call]. by rewrite Ht. Qed.

Lemma cat_run {A} fuel : forall fd o out (k : unit -> prog A) t s,
  reads_succeed -> fd_get t fd = Some o -> source o -> fd_get t 1 = Some out -> (length (avail s o) < fuel)%nat ->
  exists pieces s', run (Cat.cat fuel fd ≫= k) t s = run (k ()) t s' /\ wrote_pieces out pieces s s' /\
    mjoin pieces = avail s o /\ next s' = next s.
Proof.
  induction fuel as [|fuel IH]; intros fd o out k t s Hr Ho Hs Hout Hf; [lia|]. cbn [Cat.cat]. rewrite run_bind_assoc.
  destruct (run_read fd 512 o (fun x => match x with None => _ ← printf 1 ("cat: read error" +:+ NL) []; Exit | Some [] => Ret ()
    | Some bs => _ ← sys (Swrite 1 bs); Cat.cat fuel fd end ≫= k) t s) as (bs & s1 & -> & Hav & Hlog & Hnx & Hend); [done..|].
  destruct bs as [|b bs].
  - exists [], s1. specialize (Hend eq_refl). split_and!; [done|unfold wrote_pieces; by rewrite Hlog, app_nil_r|by rewrite Hend|done].
  - rewrite run_bind_assoc, (run_write 1 (b :: bs) out) by done.
    assert (Hav' : avail (say (Wrote out (b :: bs)) s1) o = avail s1 o) by (by destruct o).
    destruct (IH fd o out k t (say (Wrote out (b :: bs)) s1)) as (pieces & s2 & -> & Hw & Hp & Hn2); [done..| |].
    { rewrite Hav'. rewrite Hav, length_app in Hf. simpl in Hf. lia. }
    exists ((b :: bs) :: pieces), s2. split_and!; [done| | |by rewrite Hn2].
    + unfold wrote_pieces in *. rewrite Hw. cbn [say log]. by rewrite Hlog, <- app_assoc.
    + rewrite Hav, <- Hav', <- Hp. done.
Qed.

(** The files are there, and stay as they are. *)
Definition files_are (c : list Z -> list Z) (names : list (list Z)) : Prop :=
  Forall (fun p => forall l, 0 <= oracle l (Sopen p 0) /\ content l p = c p) names.

Lemma fd_alloc_get t o n t' fd : fd_alloc t o = Some (n, t') -> fd_get t' n = Some o /\ (fd_get t fd <> None -> fd_get t' fd = fd_get t fd) /\ 0 <= n.
Proof.
  unfold fd_alloc. destruct (free_fd t) as [i|] eqn:E; [|done]. cbn. intros [= <- <-].
  assert (Hi : (i < length t)%nat /\ t !! i = Some None).
  { clear fd. revert i E. induction t as [|[x|] t IH]; intros i E; cbn in E; [done| |].
    - destruct (free_fd t) as [j|]; [|done]. injection E as <-. destruct (IH j eq_refl). simpl. split; [lia|done].
    - injection E as <-. simpl. split; [lia|done]. }
  destruct Hi as [Hi Hn]. split_and!; [| |lia].
  - unfold fd_get. replace (Z.of_nat i <? 0) with false by lia. rewrite Nat2Z.id, list_lookup_insert_eq by done. done.
  - unfold fd_get. destruct (fd <? 0); [done|]. intros Hg. destruct (decide (Z.to_nat fd = i)) as [Heq|Hne].
    + subst i. exfalso. apply Hg. by rewrite Hn.
    + by rewrite list_lookup_insert_ne.
Qed.

Lemma free_fd_close t o n t' : fd_alloc t o = Some (n, t') -> <[Z.to_nat n := None]> t' = t.
Proof.
  unfold fd_alloc. destruct (free_fd t) as [i|] eqn:E; [|done]. cbn. intros [= <- <-]. rewrite Nat2Z.id, list_insert_insert_eq.
  apply list_insert_id. revert i E. induction t as [|[x|] t IH]; intros i E; cbn in E; [done| |].
  - destruct (free_fd t) as [j|]; [|done]. injection E as <-. exact (IH j eq_refl).
  - by injection E as <-.
Qed.

Lemma cat_files_run names : forall c out fuel t s,
  reads_succeed -> files_are c names -> fd_get t 1 = Some out -> free_fd t <> None ->
  Forall (fun p => (length (c p) < fuel)%nat) names ->
  exists pieces s', run (Cat.files fuel names) t s = (Ended, s') /\
    log s' = log s ++ (Wrote out <$> pieces) ++ [Ends t] /\ mjoin pieces = names ≫= c.
Proof.
  induction names as [|p names IH]; intros c out fuel t s Hr Hfiles Hout Hfree Hfuel; cbn [Cat.files].
  - by exists [], (say (Ends t) s).
  - apply Forall_cons in Hfiles as [Hp Hfiles]. apply Forall_cons in Hfuel as [Hfp Hfuel].
    destruct (Hp (log s)) as [Ho Hc].
    destruct (fd_alloc t (Opened (next s) p 0)) as [[fd t']|] eqn:Ea; [|unfold fd_alloc in Ea; by destruct (free_fd t)].
    destruct (fd_alloc_get _ _ _ _ 1 Ea) as (Hg & Hg1 & Hpos).
    rewrite (run_open oracle content fstat_of _ _ _ _ _ _ _ Ho Ea). replace (fd <? 0) with false by lia. set (s1 := opens content p s).
    destruct (cat_run fuel fd (Opened (next s) p 0) out (fun _ => _ ← sys (Sclose fd); Cat.files fuel names) t' s1) as (pieces & s2 & -> & Hw & Hj & _);
      [done|done|done|by rewrite Hg1, Hout by (by rewrite Hout)|by cbn [avail s1 opens input]; rewrite lookup_insert_eq; cbn [from_option id]; rewrite Hc|].
    rewrite (run_close oracle content fstat_of _ _ _ _ _ Hg), (free_fd_close _ _ _ _ Ea).
    destruct (IH c out fuel t s2) as (pieces2 & s3 & -> & Hl & Hj2); [done..|].
    exists (pieces ++ pieces2), s3. split_and!; [done| |].
    + rewrite Hl. unfold wrote_pieces in Hw. rewrite Hw. cbn [s1 opens log]. by rewrite fmap_app, <- !app_assoc.
    + rewrite join_app, Hj2, Hj. cbn [avail s1 opens input]. rewrite lookup_insert_eq. cbn [from_option id]. by rewrite Hc.
Qed.

(** ** wc *)

(** Where a word starts: a character that is not blank, at the start or after one
    that is. *)
Definition starts_word (bs : list Z) (i : nat) : bool :=
  match bs !! i with
  | Some c => negb (Wc.blank c) && match i with O => true | S j => match bs !! j with Some d => Wc.blank d | None => true end end
  | None => false
  end.
Definition nlines (bs : list Z) : Z := Z.of_nat (length (filter (fun c => c = 10) bs)).
Definition nwords (bs : list Z) : Z := Z.of_nat (length (filter (fun i => starts_word bs i = true) (seq 0 (length bs)))).

Lemma filter_ext_in {A} (P Q : A -> Prop) `{!forall x, Decision (P x), !forall x, Decision (Q x)} l :
  Forall (fun x => P x <-> Q x) l -> filter P l = filter Q l.
Proof.
  induction 1 as [|x l Hx _ IH]; [done|]. rewrite !filter_cons, IH. destruct (decide (P x)), (decide (Q x)); try done; tauto.
Qed.

Lemma nlines_snoc bs c : nlines (bs ++ [c]) = nlines bs + (if c =? 10 then 1 else 0).
Proof.
  unfold nlines. rewrite filter_app, length_app, filter_cons. destruct (Z.eqb_spec c 10); [rewrite decide_True|rewrite decide_False]; simpl; lia.
Qed.

Lemma nwords_snoc bs c : nwords (bs ++ [c]) = nwords bs + (if starts_word (bs ++ [c]) (length bs) then 1 else 0).
Proof.
  unfold nwords. rewrite length_app. cbn [length]. rewrite seq_app, filter_app, length_app. cbn [seq Nat.add].
  rewrite filter_cons. replace (filter (fun i => starts_word (bs ++ [c]) i = true) (seq 0 (length bs)))
    with (filter (fun i => starts_word bs i = true) (seq 0 (length bs))).
  - destruct (starts_word (bs ++ [c]) (length bs)); [rewrite decide_True|rewrite decide_False]; simpl; done || lia.
  - apply filter_ext_in. apply Forall_forall. intros i Hi. apply elem_of_seq in Hi. unfold starts_word.
    rewrite lookup_app_l by lia. destruct (bs !! i); [|done]. destruct i as [|j]; [done|]. by rewrite lookup_app_l by lia.
Qed.

Lemma nwords_le bs : 0 <= nwords bs <= Z.of_nat (length bs).
Proof. unfold nwords. pose proof (length_filter (fun i => starts_word bs i = true) (seq 0 (length bs))) as H. rewrite length_seq in H. lia. Qed.

Lemma nlines_le bs : 0 <= nlines bs <= Z.of_nat (length bs).
Proof. unfold nlines. pose proof (length_filter (fun c => c = 10) bs). lia. Qed.

Lemma count_all bs :
  Z.of_nat (length bs) < 2 ^ 31 ->
  foldl Wc.count1 Wc.zero bs =
    Wc.Counts (nlines bs) (nwords bs) (Z.of_nat (length bs)) (match last bs with Some c => negb (Wc.blank c) | None => false end).
Proof.
  induction bs as [|c bs IH] using rev_ind; intros Hl; [done|]. rewrite length_app in Hl. cbn [length] in Hl.
  rewrite foldl_snoc, IH, nlines_snoc, nwords_snoc, last_snoc, length_app by lia. cbn [length].
  pose proof (nwords_le bs). pose proof (nlines_le bs). unfold Wc.count1. cbn [Wc.lines Wc.words Wc.cs Wc.inword].
  rewrite !s32_small by lia.
  assert (Hsw : starts_word (bs ++ [c]) (length bs) = negb (Wc.blank c) && match last bs with Some d => Wc.blank d | None => true end).
  { unfold starts_word. rewrite lookup_app_r, Nat.sub_diag by lia. cbn. f_equal. rewrite last_lookup.
    destruct bs as [|d bs]; [done|]. cbn [length Nat.pred]. rewrite lookup_app_l by (simpl; lia).
    destruct (lookup_lt_is_Some_2 (d :: bs) (length bs)) as [x ->]; [simpl; lia|done]. }
  rewrite Hsw. destruct (c =? 10), (Wc.blank c), (last bs) as [d|]; cbn [negb andb]; try (destruct (Wc.blank d)); cbn [negb];
    f_equal; lia.
Qed.

(** The decimal numeral [printf] prints for a number. *)
Definition decimal (x : Z) : list Z := rev (uprintint_buf 32 10 x).
Definition value (ds : list Z) : Z := foldl (fun n d => 10 * n + (d - 48)) 0 ds.

Lemma value_snoc ds d : value (ds ++ [d]) = 10 * value ds + (d - 48).
Proof. unfold value. by rewrite foldl_app. Qed.

Lemma udigit d : 0 <= d < 10 -> default 0 (udigits !! Z.to_nat d) = 48 + d.
Proof.
  intros Hd. assert (Hin : d ∈ seqZ 0 10) by (apply elem_of_seqZ; lia).
  assert (Hall : Forall (fun d => default 0 (udigits !! Z.to_nat d) = 48 + d) (seqZ 0 10)) by (repeat constructor).
  rewrite Forall_forall in Hall. by apply Hall.
Qed.

Lemma decimal_value x : 0 <= x < 2 ^ 31 -> value (decimal x) = x.
Proof.
  intros Hx. unfold decimal. assert (Hf : 0 <= x < 10 ^ Z.of_nat 32) by (change (10 ^ Z.of_nat 32) with 100000000000000000000000000000000; lia).
  clear Hx. revert x Hf. generalize 32%nat. induction n as [|n IH]; intros x Hx.
  { change (10 ^ Z.of_nat 0) with 1 in Hx. simpl. unfold value. simpl. lia. }
  rewrite Nat2Z.inj_succ, Z.pow_succ_r in Hx by lia. pose proof (Z.mod_pos_bound x 10). pose proof (Z.div_mod x 10).
  cbn [uprintint_buf rev]. rewrite value_snoc, udigit by lia. destruct (Z.eqb_spec (x / 10) 0) as [E|E].
  - unfold value. simpl. lia.
  - rewrite IH; [lia|]. split; [apply Z.div_pos; lia|]. apply Z.div_lt_upper_bound; lia.
Qed.

Lemma wc_run {A} fuel : forall fd o out name c0 (k : unit -> prog A) t s,
  reads_succeed -> fd_get t fd = Some o -> source o -> fd_get t 1 = Some out -> (length (avail s o) < fuel)%nat ->
  exists s', log s' = log s /\ let c := foldl Wc.count1 c0 (avail s o) in
    run (Wc.wc fuel fd name c0 ≫= k) t s =
    run (k ()) t (wrote out (fmt_text false (chars ("%d %d %d %s" +:+ NL)) [Aint (Wc.lines c); Aint (Wc.words c); Aint (Wc.cs c); Astr (Some name)]) s').
Proof.
  induction fuel as [|fuel IH]; intros fd o out name c0 k t s Hr Ho Hs Hout Hf; [lia|]. cbn [Wc.wc]. rewrite run_bind_assoc.
  destruct (run_read fd 512 o (fun x => match x with None => _ ← printf 1 ("wc: read error" +:+ NL) []; Exit
    | Some [] => printf 1 ("%d %d %d %s" +:+ NL) [Aint (Wc.lines c0); Aint (Wc.words c0); Aint (Wc.cs c0); Astr (Some name)]
    | Some bs => Wc.wc fuel fd name (foldl Wc.count1 c0 bs) end ≫= k) t s) as (bs & s1 & Erun & Hav & Hlog & Hnx & Hend); [done..|].
  rewrite Erun. clear Erun. destruct bs as [|b bs].
  - exists s1. split; [done|]. rewrite (Hend eq_refl). cbv zeta. by rewrite (run_printf oracle content fstat_of 1 _ _ out).
  - destruct (IH fd o out name (foldl Wc.count1 c0 (b :: bs)) k t s1) as (s2 & Hl2 & Hrun); [done..| |].
    { rewrite Hav, length_app in Hf. simpl in Hf. lia. }
    exists s2. split; [by rewrite Hl2|]. rewrite Hav, foldl_app. exact Hrun.
Qed.

(** The line [wc] prints for a file [name] of contents [bs]. *)
Definition wc_line (name bs : list Z) : list Z :=
  decimal (nlines bs) ++ [32] ++ decimal (nwords bs) ++ [32] ++ decimal (Z.of_nat (length bs)) ++ [32] ++ name ++ [10].

Lemma wc_text l w c name : 0 <= l < 2 ^ 31 -> 0 <= w < 2 ^ 31 -> 0 <= c < 2 ^ 31 ->
  fmt_text false (chars ("%d %d %d %s" +:+ NL)) [Aint l; Aint w; Aint c; Astr (Some name)]
  = decimal l ++ [32] ++ decimal w ++ [32] ++ decimal c ++ [32] ++ name ++ [10].
Proof.
  intros Hl Hw Hc. assert (Hd : forall x, 0 <= x < 2 ^ 31 ->
    rev (uprintint_buf 32 10 (if true && (s32 x <? 0) then u32 (- s32 x) else u32 (s32 x)) ++ (if true && (s32 x <? 0) then [45] else [])) = decimal x).
  { intros x Hx. rewrite s32_small by lia. replace (true && (x <? 0)) with false by lia. cbv iota. rewrite app_nil_r, u32_small by lia. done. }
  cbn -[uprintint_buf]. unfold word_of. cbn [tail]. rewrite <- (Hd l), <- (Hd w), <- (Hd c) by done. cbn -[uprintint_buf]. by rewrite <- ?app_assoc.
Qed.

Lemma wc_files_run names : forall c out fuel t s,
  reads_succeed -> files_are c names -> fd_get t 1 = Some out -> free_fd t <> None ->
  Forall (fun p => (length (c p) < fuel)%nat /\ Z.of_nat (length (c p)) < 2 ^ 31) names ->
  exists s', run (Wc.files fuel names) t s = (Ended, s') /\
    log s' = log s ++ ((fun x => Wrote out [x]) <$> (names ≫= fun p => wc_line p (c p))) ++ [Ends t].
Proof.
  induction names as [|p names IH]; intros c out fuel t s Hr Hfiles Hout Hfree Hfuel; cbn [Wc.files].
  - by exists (say (Ends t) s).
  - apply Forall_cons in Hfiles as [Hp Hfiles]. apply Forall_cons in Hfuel as [[Hfp Hlp] Hfuel].
    destruct (Hp (log s)) as [Ho Hc].
    destruct (fd_alloc t (Opened (next s) p 0)) as [[fd t']|] eqn:Ea; [|unfold fd_alloc in Ea; by destruct (free_fd t)].
    destruct (fd_alloc_get _ _ _ _ 1 Ea) as (Hg & Hg1 & Hpos).
    rewrite (run_open oracle content fstat_of _ _ _ _ _ _ _ Ho Ea). replace (fd <? 0) with false by lia. set (s1 := opens content p s).
    assert (Hav : avail s1 (Opened (next s) p 0) = c p) by (cbn [avail s1 opens input]; rewrite lookup_insert_eq; exact Hc).
    destruct (wc_run fuel fd (Opened (next s) p 0) out p Wc.zero (fun _ => _ ← sys (Sclose fd); Wc.files fuel names) t' s1) as (s2 & Hl2 & Hrun);
      [done|done|done|by rewrite Hg1, Hout by (by rewrite Hout)|by rewrite Hav|].
    rewrite Hrun, Hav. cbv zeta. rewrite count_all by done. cbn [Wc.lines Wc.words Wc.cs].
    pose proof (nlines_le (c p)). pose proof (nwords_le (c p)). rewrite wc_text by lia. fold (wc_line p (c p)).
    rewrite (run_close oracle content fstat_of _ _ _ _ _ Hg), (free_fd_close _ _ _ _ Ea).
    destruct (IH c out fuel t (wrote out (wc_line p (c p)) s2)) as (s3 & -> & Hl); [done..|].
    exists s3. split; [done|]. rewrite Hl, wrote_log. cbn [log]. rewrite Hl2. cbn [s1 opens log]. rewrite bind_cons, fmap_app.
    by rewrite <- !app_assoc.
Qed.
End Programs.

(** Cat copies its files.  However many bytes each read gives, [cat] writes to
    its standard output the bytes of the files of its command line, in their
    order, and nothing else, and ends with the descriptors it had. *)
Theorem cat_copies oracle content fstat_of c out fuel t s arg0 name names :
  reads_succeed oracle -> files_are oracle content c (name :: names) -> fd_get t 1 = Some out -> free_fd t <> None ->
  Forall (fun p => (length (c p) < fuel)%nat) (name :: names) ->
  exists pieces s', User.run oracle content fstat_of (Cat.main fuel (arg0 :: name :: names)) t s = (Ended, s') /\
    log s' = log s ++ (Wrote out <$> pieces) ++ [Ends t] /\ mjoin pieces = (name :: names) ≫= c.
Proof. intros. by apply cat_files_run. Qed.

(** Wc counts.  However many bytes each read gives, [wc] prints for each file
    the numerals of the number of its newlines, of its words, which are the
    places where a character that is not blank follows a blank or starts the
    file, and of its characters. *)
Theorem wc_counts oracle content fstat_of c out fuel t s arg0 name names :
  reads_succeed oracle -> files_are oracle content c (name :: names) -> fd_get t 1 = Some out -> free_fd t <> None ->
  Forall (fun p => (length (c p) < fuel)%nat /\ Z.of_nat (length (c p)) < 2 ^ 31) (name :: names) ->
  (exists s', User.run oracle content fstat_of (Wc.main fuel (arg0 :: name :: names)) t s = (Ended, s') /\
    log s' = log s ++ ((fun x => Wrote out [x]) <$> ((name :: names) ≫= fun p => wc_line p (c p))) ++ [Ends t]) /\
  (forall x, 0 <= x < 2 ^ 31 -> value (decimal x) = x).
Proof. intros. split; [by apply wc_files_run|exact decimal_value]. Qed.

(** ** Examples *)

Definition demo_files (p : list Z) : list Z := if bool_decide (p = chars "f") then chars "ab c" ++ [10] else chars "x".
Definition demo_table : table := [Some (Std 0); Some (Std 1); Some (Std 2)] ++ replicate 13 None.
Definition demo_answers (_ : list event) (_ : call) : Z := 0.

Lemma demo_files_are : files_are demo_answers (fun _ => demo_files) demo_files [chars "f"; chars "g"].
Proof. apply Forall_forall. intros p _ l. split; [by vm_compute|done]. Qed.

(** The reads give two bytes, one and then as many as asked for. *)
Definition demo_us : ust := UState [] 0 ∅ [] [1; 0]%nat.

Lemma cat_copies_witness :
  exists pieces s', User.run demo_answers (fun _ => demo_files) (fun _ _ => Stat 0 0 0 0 0)
      (Cat.main 10 [chars "cat"; chars "f"; chars "g"]) demo_table demo_us = (Ended, s') /\
    log s' = (Wrote (Std 1) <$> pieces) ++ [Ends demo_table] /\ mjoin pieces = chars "ab c" ++ [10] ++ chars "x".
Proof.
  apply (cat_copies demo_answers (fun _ => demo_files) (fun _ _ => Stat 0 0 0 0 0) demo_files (Std 1) 10 demo_table demo_us (chars "cat") (chars "f") [chars "g"]).
  - intros l fd n. by vm_compute.
  - exact demo_files_are.
  - reflexivity.
  - discriminate.
  - repeat constructor; vm_compute; lia.
Defined.

Lemma wc_counts_witness :
  exists s', User.run demo_answers (fun _ => demo_files) (fun _ _ => Stat 0 0 0 0 0)
      (Wc.main 10 [chars "wc"; chars "f"]) demo_table demo_us = (Ended, s') /\
    log s' = ((fun x => Wrote (Std 1) [x]) <$> (chars "1 2 5 f" ++ [10])) ++ [Ends demo_table].
Proof.
  apply (wc_counts demo_answers (fun _ => demo_files) (fun _ _ => Stat 0 0 0 0 0) demo_files (Std 1) 10 demo_table demo_us (chars "wc") (chars "f") []).
  - intros l fd n. by vm_compute.
  - apply Forall_forall. intros p _ l. split; [by vm_compute|reflexivity].
  - reflexivity.
  - discriminate.
  - repeat constructor; vm_compute; done || lia.
Defined.
