(* ===== verification/Grep.v ===== *)
(** * grep: [src/grep.c]

    The matcher, against the language its patterns denote, and the loop over the
    lines of the input.  The loop works on a buffer of 1024 bytes, of which the
    part before and the part after in memory are modelled too. *)

From stdpp Require Import base numbers list strings gmap.
From Stdlib Require Import Lia ZArith ZifyBool.
From S2P Require Import Prelude Fs User Sh ProgramsCorrect.
Open Scope Z_scope.

Definition STAR : Z := 42.
Definition DOT : Z := 46.
Definition DOLLAR : Z := 36.
Definition CARET : Z := 94.

(** ** The matcher *)

(** [matchstar(c, re, text)], with [mh] for [matchhere(re, _)] *)
Fixpoint matchstar (mh : list Z -> bool) (c : Z) (text : list Z) : bool :=
  mh text ||
  match text with
  | x :: text => ((x =? c) || (c =? DOT)) && matchstar mh c text
  | [] => false
  end.

Fixpoint matchhere (re text : list Z) : bool :=
  match re with
  | [] => true
  | c :: re1 =>
      let step := match text with x :: text => ((c =? DOT) || (c =? x)) && matchhere re1 text | [] => false end in
      match re1 with
      | d :: re2 => if d =? STAR then matchstar (matchhere re2) c text else step
      | [] => if c =? DOLLAR then bool_decide (text = []) else step
      end
  end.

Fixpoint match_from (re text : list Z) : bool :=
  matchhere re text || match text with _ :: text => match_from re text | [] => false end.

Definition match_ (re text : list Z) : bool :=
  match re with
  | c :: re1 => if c =? CARET then matchhere re1 text else match_from re text
  | [] => match_from re text
  end.

(** ** The loop *)

Definition BUFSIZE : nat := 1024.

(** The memory: [BUFSIZE] bytes before the buffer, the buffer, and what follows.
    Positions count from the start of the buffer. *)
Definition at_pos (p : Z) : nat := Z.to_nat (p + Z.of_nat BUFSIZE).

(** [strchr(p, '\n')] *)
Fixpoint find_nl (bs : list Z) : option nat :=
  match bs with
  | [] => None
  | c :: bs => if c =? 0 then None else if c =? 10 then Some 0%nat else S <$> find_nl bs
  end.

(** [while((q = strchr(p, '\n')) != 0)]: the memory and [p] at the end *)
Fixpoint grep_lines (fuel : nat) (pattern : list Z) (mem : list Z) (p : Z) : prog (list Z * Z) :=
  match fuel with
  | O => OutOfFuel
  | S fuel =>
      match find_nl (drop (at_pos p) mem) with
      | None => Ret (mem, p)
      | Some n =>
          let q := p + Z.of_nat n in
          let mem := <[at_pos q := 0]> mem in
          if match_ pattern (cstring (drop (at_pos p) mem)) then
            let mem := <[at_pos q := 10]> mem in
            _ ← sys (Swrite 1 (slice (at_pos p) (S n) mem));
            grep_lines fuel pattern mem (q + 1)
          else grep_lines fuel pattern mem (q + 1)
      end
  end.

Fixpoint grep (fuel : nat) (pattern : list Z) (fd : Z) (mem : list Z) (m : Z) : prog (list Z) :=
  match fuel with
  | O => OutOfFuel
  | S fuel =>
      r ← sys (Sread fd (Z.of_nat BUFSIZE - m));
      match r with
      | Some ((_ :: _) as bs) =>
          let mem := splice (at_pos m) bs mem in
          let m := m + Z.of_nat (length bs) in
          r ← grep_lines (S (length mem)) pattern mem 0;
          let '(mem, p) := (r : list Z * Z) in
          let m := if p =? 0 then 0 else m in
          if 0 <? m then
            let m := m - p in
            grep fuel pattern fd (splice (at_pos 0) (slice (at_pos p) (Z.to_nat m) mem) mem) m
          else grep fuel pattern fd mem m
      | _ => Ret mem
      end
  end.

Fixpoint files (fuel : nat) (pattern : list Z) (mem : list Z) (names : list (list Z)) : prog unit :=
  match names with
  | [] => Exit
  | name :: names =>
      fd ← sys (Sopen name 0);
      if (fd : Z) <? 0 then _ ← printf 1 ("grep: cannot open %s" +:+ NL) [Astr (Some name)]; Exit
      else
        mem ← grep fuel pattern fd mem 0;
        _ ← sys (Sclose fd);
        files fuel pattern mem names
  end.

(** [mem] is the memory when the program starts: the buffer is zero. *)
Definition main (fuel : nat) (mem : list Z) (argv : list (list Z)) : prog unit :=
  match argv with
  | _ :: pattern :: names =>
      match names with
      | [] => _ ← grep fuel pattern 0 mem 0; Exit
      | _ => files fuel pattern mem names
      end
  | _ => _ ← printf 2 ("usage: grep pattern [file ...]" +:+ NL) []; Exit
  end.

(** ** What a pattern denotes *)

Inductive item := One (c : Z) | Many (c : Z) | AtEnd.

(** The character [x] is one that [c] stands for. *)
Definition covers (c x : Z) : Prop := c = DOT \/ c = x.

Fixpoint items (re : list Z) : list item :=
  match re with
  | [] => []
  | c :: re1 =>
      match re1 with
      | d :: re2 => if d =? STAR then Many c :: items re2 else One c :: items re1
      | [] => if c =? DOLLAR then [AtEnd] else [One c]
      end
  end.

(** [w] is a word of the pattern when [rest] comes after it. *)
Fixpoint denotes (its : list item) (w rest : list Z) : Prop :=
  match its with
  | [] => w = []
  | One c :: its => exists x w', w = x :: w' /\ covers c x /\ denotes its w' rest
  | Many c :: its => exists w1 w2, w = w1 ++ w2 /\ Forall (covers c) w1 /\ denotes its w2 rest
  | AtEnd :: its => rest = [] /\ denotes its w rest
  end.

Definition here (re text : list Z) : Prop := exists w rest, text = w ++ rest /\ denotes (items re) w rest.

Lemma matchstar_spec mh c text :
  matchstar mh c text = true <-> exists w t, text = w ++ t /\ Forall (covers c) w /\ mh t = true.
Proof.
  induction text as [|x text IH]; cbn [matchstar].
  - rewrite orb_false_r. split; [by intros; exists [], []|]. intros (w & t & E & _ & H). by destruct w, t.
  - rewrite orb_true_iff, andb_true_iff, IH. split.
    + intros [H|[Hx (w & t & -> & Hw & H)]]; [by exists [], (x :: text)|]. exists (x :: w), t. split_and!; [done| |done].
      constructor; [|done]. unfold covers. lia.
    + intros (w & t & E & Hw & H). destruct w as [|y w]; [left; by simpl in E; rewrite E|].
      simpl in E. injection E as -> ->. apply Forall_cons in Hw as [Hy Hw]. right. split; [unfold covers, DOT in *; lia|by exists w, t].
Qed.

Lemma here_step c re1 text :
  (forall t, matchhere re1 t = true <-> here re1 t) ->
  match text with x :: t => ((c =? DOT) || (c =? x)) && matchhere re1 t | [] => false end = true <->
  exists w rest, text = w ++ rest /\ denotes (One c :: items re1) w rest.
Proof.
  intros Hre. split.
  - destruct text as [|x t]; [done|]. intros [Hc Ht]%andb_true_iff. apply Hre in Ht as (w & rest & -> & Hd).
    exists (x :: w), rest. split; [done|]. exists x, w. split_and!; [done|unfold covers; lia|done].
  - intros (w & rest & -> & x & w' & -> & Hc & Hd). simpl. apply andb_true_iff. split; [unfold covers in Hc; lia|]. apply Hre. by exists w', rest.
Qed.

(** The recursion of [matchhere] skips one or two characters. *)
Lemma re_ind (P : list Z -> Prop) :
  P [] -> (forall c, P [c]) -> (forall c d re, P re -> P (d :: re) -> P (c :: d :: re)) -> forall re, P re.
Proof.
  intros H0 H1 H2 re. cut (P re /\ forall c, P (c :: re)); [by intros [? _]|].
  induction re as [|d re [IH1 IH2]]; [done|]. split; [apply IH2|]. intros c. by apply H2.
Qed.

Lemma matchhere_spec re : forall text, matchhere re text = true <-> here re text.
Proof.
  induction re as [|c|c d re IH1 IH2] using re_ind; intros text.
  - split; [|done]. intros _. by exists [], text.
  - cbn [matchhere]. unfold here. cbn [items]. destruct (Z.eqb_spec c DOLLAR) as [->|Hc].
    + rewrite bool_decide_eq_true. split; [by intros ->; exists [], []|]. intros (w & rest & -> & -> & ->). done.
    + apply (here_step c []). intros t. split; [|done]. intros _. by exists [], t.
  - cbn [matchhere]. unfold here. cbn [items]. destruct (d =? STAR).
    + rewrite matchstar_spec. split.
      * intros (w1 & t & -> & Hw & (w2 & rest & -> & Hd)%IH1). exists (w1 ++ w2), rest. split; [by rewrite app_assoc|]. by exists w1, w2.
      * intros (w & rest & -> & w1 & w2 & -> & Hw & Hd). exists w1, (w2 ++ rest). split_and!; [by rewrite app_assoc|done|].
        apply IH1. by exists w2, rest.
    + apply (here_step c (d :: re)). exact IH2.
Qed.

Lemma match_from_spec re text : match_from re text = true <-> exists pre t, text = pre ++ t /\ here re t.
Proof.
  induction text as [|x text IH]; cbn [match_from]; rewrite orb_true_iff, matchhere_spec.
  - split; [intros [H|H]; [by exists [], []|done]|]. intros (pre & t & E & H). left. by destruct pre, t.
  - rewrite IH. split.
    + intros [H|(pre & t & -> & H)]; [by exists [], (x :: text)|]. by exists (x :: pre), t.
    + intros (pre & t & E & H). destruct pre as [|y pre]; [left; by simpl in E; rewrite E|]. injection E as -> ->. right. by exists pre, t.
Qed.

(** C30: The matcher of grep decides the language of its patterns.  A line matches
    when some part of it, one at its start if the pattern begins with a caret,
    is a word of the pattern: a character or a dot stands for one character, a
    character and a star for any number of them, a dollar at the end for the end
    of the line. *)
Theorem match_correct re text :
  match_ re text = true <->
  match re with
  | c :: re1 => if c =? CARET then here re1 text else exists pre t, text = pre ++ t /\ here re t
  | [] => True
  end.
Proof.
  destruct re as [|c re]; cbn [match_].
  - split; [done|]. intros _. apply match_from_spec. exists [], text. split; [done|]. by exists [], text.
  - destruct (c =? CARET); [apply matchhere_spec|apply match_from_spec].
Qed.

(** ** The lines *)

Definition plain (l : list Z) : Prop := Forall (fun c => c <> 0 /\ c <> 10) l.
Definition line_text (l : list Z) : list Z := l ++ [10].

Lemma find_nl_line l rest : plain l -> find_nl (l ++ 10 :: rest) = Some (length l).
Proof.
  induction 1 as [|c l Hc _ IH]; [done|]. simpl. rewrite IH. by replace (c =? 0) with false by lia; replace (c =? 10) with false by lia.
Qed.

Lemma find_nl_none l rest : plain l -> find_nl (l ++ 0 :: rest) = None.
Proof.
  induction 1 as [|c l Hc _ IH]; [done|]. simpl. rewrite IH. by replace (c =? 0) with false by lia; replace (c =? 10) with false by lia.
Qed.

Lemma cstring_plain l rest : plain l -> cstring (l ++ 0 :: rest) = l.
Proof. induction 1 as [|c l Hc _ IH]; [done|]. simpl. replace (c =? 0) with false by lia. by rewrite IH. Qed.

Lemma drop_insert_mid (mem l rest : list Z) i x y :
  drop i mem = l ++ x :: rest -> drop i (<[(i + length l)%nat := y]> mem) = l ++ y :: rest /\ mem !! (i + length l)%nat = Some x.
Proof.
  intros H. split.
  - rewrite drop_insert_ge by lia. replace (i + length l - i)%nat with (length l) by lia. rewrite H.
    rewrite insert_app_r_alt, Nat.sub_diag by lia. done.
  - rewrite <- lookup_drop, H, lookup_app_r, Nat.sub_diag by lia. done.
Qed.

Section Lines.
Context (oracle : list event -> call -> Z) (content : list event -> list Z -> list Z) (fstat_of : list event -> obj -> stat).
Abbreviation run := (User.run oracle content fstat_of).

(** From a position where lines, the start of a line and a null follow. *)
Lemma grep_lines_run {A} pattern out t ls : forall fuel tl rest mem p (k : list Z * Z -> prog A) s,
  fd_get t 1 = Some out -> 0 <= p -> Forall plain ls -> plain tl ->
  drop (at_pos p) mem = (ls ≫= line_text) ++ tl ++ 0 :: rest -> (length ls < fuel)%nat ->
  exists mem', length mem' = length mem /\ drop (at_pos (p + Z.of_nat (length (ls ≫= line_text)))) mem' = tl ++ 0 :: rest /\
    run (grep_lines fuel pattern mem p ≫= k) t s =
    run (k (mem', p + Z.of_nat (length (ls ≫= line_text)))) t
        (UState (log s ++ ((fun l => Wrote out (line_text l)) <$> filter (fun l => match_ pattern l = true) ls)) (next s) (input s) (stdin s) (chunks s)).
Proof.
  induction ls as [|l ls IH]; intros fuel tl rest mem p k s Hout Hp Hls Htl Hmem Hf; (destruct fuel as [|fuel]; [lia|]); cbn [grep_lines].
  - cbn [mbind list_bind app length] in *. exists mem. rewrite Hmem, find_nl_none, !Z.add_0_r by done.
    split_and!; [done|done|]. cbn [prog_bind]. rewrite app_nil_r. by destruct s.
  - apply Forall_cons in Hls as [Hl Hls]. rewrite bind_cons, <- app_assoc in Hmem. unfold line_text at 1 in Hmem. rewrite <- app_assoc in Hmem. cbn [app] in Hmem.
    rewrite Hmem, find_nl_line by done. set (more := (ls ≫= line_text) ++ tl ++ 0 :: rest) in *.
    assert (Hpos : at_pos (p + Z.of_nat (length l)) = (at_pos p + length l)%nat) by (unfold at_pos; lia). rewrite Hpos.
    destruct (drop_insert_mid mem l more (at_pos p) 10 0 Hmem) as [Hm0 Hq]. rewrite Hm0, cstring_plain by done.
    assert (Hnext : forall mem1, drop (at_pos p) mem1 = l ++ 10 :: more \/ drop (at_pos p) mem1 = l ++ 0 :: more ->
      drop (at_pos (p + Z.of_nat (length l) + 1)) mem1 = more).
    { intros mem1 Hm. replace (at_pos (p + Z.of_nat (length l) + 1)) with (at_pos p + S (length l))%nat by (unfold at_pos; lia).
      rewrite <- drop_drop. destruct Hm as [-> | ->]; by rewrite drop_app_ge, Nat.sub_succ_l, Nat.sub_diag by lia. }
    rewrite bind_cons, length_app. unfold line_text at 1 3. rewrite length_app. cbn [length].
    replace (p + Z.of_nat (length l + 1 + length (ls ≫= line_text)))
      with (p + Z.of_nat (length l) + 1 + Z.of_nat (length (ls ≫= line_text))) by lia.
    rewrite filter_cons. destruct (match_ pattern l) eqn:Em.
    + rewrite decide_True by done. rewrite list_insert_insert_eq, (list_insert_id mem _ 10 Hq).
      assert (Hsl : slice (at_pos p) (S (length l)) mem = line_text l).
      { unfold slice. rewrite Hmem. unfold line_text. rewrite take_app_ge, Nat.sub_succ_l, Nat.sub_diag by lia. done. }
      rewrite Hsl, run_bind_assoc, (run_write oracle content fstat_of 1 _ out) by done.
      destruct (IH fuel tl rest mem (p + Z.of_nat (length l) + 1) k (say (Wrote out (line_text l)) s)) as (mem' & H1 & H2 & H3);
        [done|lia|done|done|by apply Hnext; left|simpl in Hf; lia|].
      exists mem'. split_and!; [done|done|]. rewrite H3. cbn [say log next input stdin chunks]. by rewrite <- app_assoc.
    + rewrite decide_False by congruence.
      destruct (IH fuel tl rest (<[(at_pos p + length l)%nat := 0]> mem) (p + Z.of_nat (length l) + 1) k s) as (mem' & H1 & H2 & H3);
        [done|lia|done|done|by apply Hnext; right|simpl in Hf; lia|].
      exists mem'. split_and!; [by rewrite H1, length_insert|done|done].
Qed.

(** The bytes that a read from the standard input gives when they all fit. *)
Lemma run_read_all {A} n i (k : option (list Z) -> prog A) t s :
  reads_succeed oracle -> fd_get t 0 = Some (Std i) -> chunks s = [] -> (length (stdin s) <= Z.to_nat n)%nat ->
  run (sys (Sread 0 n) ≫= k) t s = run (k (Some (stdin s))) t (UState (log s) (next s) (input s) [] []).
Proof.
  intros Hr Ht Hc Hn. specialize (Hr (log s) 0 n). cbn [mbind prog_bind sys User.run do_call]. rewrite Ht.
  replace (_ <? 0) with false by lia. unfold take_bytes. cbn [avail]. rewrite Hc, take_ge, drop_ge by lia. done.
Qed.

Lemma zero_buffer bs after :
  (length bs < BUFSIZE)%nat ->
  drop (at_pos 0) (splice (at_pos 0) bs (replicate (at_pos 0 + BUFSIZE + after) 0)) =
  bs ++ 0 :: replicate (BUFSIZE - S (length bs) + after) 0.
Proof.
  intros Hl. unfold splice. rewrite drop_app_length' by (rewrite length_take, length_replicate; lia). f_equal.
  rewrite drop_replicate. replace (_ - _)%nat with (S (BUFSIZE - S (length bs) + after)) by lia. done.
Qed.
End Lines.

Lemma nil_lines ls : (ls ≫= line_text) = [] -> ls = [].
Proof. destruct ls as [|[|x l] ls]; [done|..]; discriminate. Qed.

(** C31: grep prints the matching lines.  When one read gives the whole of the
    standard input, which has no null character and is shorter than the buffer,
    [grep] writes the lines that match the pattern, each with its newline and in
    their order, and nothing else. *)
Theorem grep_prints_matches oracle content fstat_of pattern ls tl i out after fuel arg0 t s :
  reads_succeed oracle -> fd_get t 0 = Some (Std i) -> fd_get t 1 = Some out -> chunks s = [] ->
  Forall plain ls -> plain tl -> stdin s = (ls ≫= line_text) ++ tl -> (length (stdin s) < BUFSIZE)%nat ->
  exists s', User.run oracle content fstat_of (main (S (S fuel)) (replicate (at_pos 0 + BUFSIZE + after) 0) [arg0; pattern]) t s = (Ended, s') /\
    log s' = log s ++ ((fun l => Wrote out (line_text l)) <$> filter (fun l => match_ pattern l = true) ls) ++ [Ends t].
Proof.
  intros Hr Hin Hout Hc Hls Htl Hs Hl. cbn [main]. set (mem := replicate _ 0). set (k := fun _ : list Z => Exit : prog unit).
  set (zs := replicate (BUFSIZE - S (length (stdin s)) + after) 0).
  assert (Hmem : length (splice (at_pos 0) (stdin s) mem) = length mem) by (apply length_splice; unfold mem; rewrite length_replicate; lia).
  assert (Hlen : (length ls <= length (ls ≫= line_text))%nat).
  { clear. induction ls as [|l ls IH]; [done|]. rewrite bind_cons, length_app. unfold line_text at 1. rewrite length_app. simpl. lia. }
  assert (Hend : forall fuel mem1 m s1, 0 <= m < Z.of_nat BUFSIZE -> stdin s1 = [] -> chunks s1 = [] ->
    User.run oracle content fstat_of (grep (S fuel) pattern 0 mem1 m ≫= k) t s1 = (Ended, say (Ends t) s1)).
  { intros fuel1 mem1 m s1 Hm H0 H1. cbn [grep]. rewrite run_bind_assoc, (run_read_all oracle content fstat_of _ i), H0 by (try done; rewrite H0; simpl; lia).
    destruct s1; simpl in H0, H1; subst. done. }
  specialize (Hend fuel). remember (S fuel) as f eqn:Hf.
  cbn [grep]. rewrite run_bind_assoc, (run_read_all oracle content fstat_of _ i) by (done || lia).
  set (s1 := UState (log s) (next s) (input s) [] []).
  destruct (stdin s) as [|c bs] eqn:Ei.
  - symmetry in Hs. apply app_eq_nil in Hs as [->%nil_lines ->]. eexists. split; [reflexivity|]. done.
  - rewrite <- Ei in *. rewrite run_bind_assoc.
    destruct (grep_lines_run oracle content fstat_of pattern out t ls (S (length (splice (at_pos 0) (stdin s) mem))) tl zs
      (splice (at_pos 0) (stdin s) mem) 0 (fun r => (let '(mem, p) := (r : list Z * Z) in
          let m := if p =? 0 then 0 else 0 + Z.of_nat (length (stdin s)) in
          if 0 <? m then grep f pattern 0 (splice (at_pos 0) (slice (at_pos p) (Z.to_nat (m - p)) mem) mem) (m - p)
          else grep f pattern 0 mem m) ≫= k) s1) as (mem' & _ & _ & Hrun); try done.
    + unfold mem, zs. rewrite <- Ei, zero_buffer by done. rewrite Hs at 1. by rewrite <- app_assoc.
    + rewrite Hmem. unfold mem. rewrite length_replicate. rewrite Hs, length_app in Hl. lia.
    + cbv zeta in Hrun. rewrite Hrun. clear Hrun. assert (Hn : length (stdin s) = (length (ls ≫= line_text) + length tl)%nat) by (by rewrite Hs, length_app).
      eexists. split; [|shelve]. cbv zeta. case_match; [case_match; [lia|]|case_match]; (rewrite Hend; [reflexivity|lia|done|done]).
      Unshelve. cbn [say log s1]. by rewrite <- app_assoc.
Qed.

(** ** Examples *)

Definition grep_demo (bs : list Z) (cs : list nat) : done unit * list event :=
  let '(r, s) := User.run demo_answers (fun _ => demo_files) (fun _ _ => Stat 0 0 0 0 0)
    (main 10 (replicate (at_pos 0 + BUFSIZE + 10) 0) [chars "grep"; chars "c"]) demo_table (UState [] 0 ∅ bs cs) in (r, log s).

(** Grep prints lines again.  The buffer is not ended by a null after a read,
    so the search for the next newline goes on into the bytes of earlier reads:
    when the input comes in two reads, the second of them shorter, a line of the
    first is matched and written a second time. *)
Theorem grep_repeats_stale_lines :
  let bs := chars "ab" ++ [10] ++ chars "cd" ++ [10] ++ chars "xy" ++ [10] in
  grep_demo bs [] = (Ended, [Wrote (Std 1) (chars "cd" ++ [10]); Ends demo_table]) /\
  grep_demo bs [5; 2]%nat = (Ended, [Wrote (Std 1) (chars "cd" ++ [10]); Wrote (Std 1) (chars "cd" ++ [10]); Ends demo_table]).
Proof. by vm_compute. Qed.

Lemma grep_prints_matches_witness :
  exists s', User.run demo_answers (fun _ => demo_files) (fun _ _ => Stat 0 0 0 0 0)
      (main 2 (replicate (at_pos 0 + BUFSIZE + 10) 0) [chars "grep"; chars "^b*c"]) demo_table
      (UState [] 0 ∅ (chars "bbc" ++ [10] ++ chars "ab" ++ [10] ++ chars "cd" ++ [10] ++ chars "c") []) = (Ended, s') /\
    log s' = [Wrote (Std 1) (chars "bbc" ++ [10]); Wrote (Std 1) (chars "cd" ++ [10]); Ends demo_table].
Proof.
  apply (grep_prints_matches demo_answers (fun _ => demo_files) (fun _ _ => Stat 0 0 0 0 0) (chars "^b*c")
    [chars "bbc"; chars "ab"; chars "cd"] (chars "c") 0 (Std 1) 10 0 (chars "grep") demo_table
    (UState [] 0 ∅ (chars "bbc" ++ [10] ++ chars "ab" ++ [10] ++ chars "cd" ++ [10] ++ chars "c") [])).
  - intros l fd n. by vm_compute.
  - reflexivity.
  - reflexivity.
  - reflexivity.
  - repeat constructor; discriminate.
  - repeat constructor; discriminate.
  - reflexivity.
  - vm_compute. lia.
Defined.
