(* ===== verification/Mkfs.v ===== *)
(** * The tool that makes the file system: [src/mkfs.c]

    The image is a file of the host; [img] has its sectors, as those of the disk
    that the kernel will find them on, and [nsect] its length in sectors.  The
    calls to [lseek] and [write] on it are taken to succeed; a read of a sector
    past its end does not.  A file to be copied is its name on the command line
    and what the reads of it give, or nothing if it cannot be opened.  The host
    is a little-endian machine. *)

From stdpp Require Import base numbers strings list gmap.
From Stdlib Require Import Lia ZArith ZifyBool.
From S2P Require Import Prelude Ide Fs.
Open Scope Z_scope.

Definition nblocks : Z := 995.
Definition ninodes : Z := 200.
Definition size : Z := 1024.

Record mk := Mk { img : sectors; nsect : Z; freeblock : Z; usedblocks : Z; freeinode : Z }.

Definition set_img (f : sectors -> sectors) (n : Z) (s : mk) : mk :=
  Mk (f (img s)) (Z.max (nsect s) n) (freeblock s) (usedblocks s) (freeinode s).
Definition set_used (free used : Z) (s : mk) : mk := Mk (img s) (nsect s) free used (freeinode s).
Definition set_freeinode (i : Z) (s : mk) : mk := Mk (img s) (nsect s) (freeblock s) (usedblocks s) i.

(** Byte [i] of [x], and the number whose bytes are these. *)
Definition byte_of (x : Z) (i : Z) : Z := Z.shiftr x (8 * i) mod 256.
Definition xshort (x : Z) : Z := le_dec [byte_of x 0; byte_of x 1].
Definition xint (x : Z) : Z := le_dec [byte_of x 0; byte_of x 1; byte_of x 2; byte_of x 3].

Definition die {A} : M mk A := panic "exit".
Definition assert_ (b : bool) : M mk unit := if b then mret tt else panic "assert".

(** The sector on the disk that the kernel will see. *)
Definition sector (sec : Z) : Z * Z := (ROOTDEV, sec).

Definition wsect (sec : Z) (buf : list Z) : M mk unit :=
  modify (set_img (fun d => <[sector sec := buf]> d) (sec + 1)).

Definition rsect (sec : Z) : M mk (list Z) :=
  n ← gets nsect;
  if sec <? n then gets (fun s => blk (img s) (sector sec)) else die.

(** A dinode in memory; of an [inode] it has the fields from the type on, the
    others say which inode it is. *)
Definition ident (inum : Z) : inode := Inode ROOTDEV inum 0 0 0 0 0 0 0 [].

Definition i2b (inum : Z) : Z := inum / IPB + 2.

Definition winode (inum : Z) (ip : inode) : M mk unit :=
  let bn := i2b inum in
  buf ← rsect bn;
  wsect bn (store_dinode ip (dinode_off inum) buf).

Definition rinode (inum : Z) : M mk inode :=
  let bn := i2b inum in
  buf ← rsect bn;
  mret (load_dinode buf (dinode_off inum) (ident inum)).

Definition ialloc (type : Z) : M mk Z :=
  inum ← gets freeinode;
  _ ← modify (set_freeinode (u32 (inum + 1)));
  let din := Inode ROOTDEV inum 0 0 (xshort type) 0 0 (xshort 1) (xint 0) (replicate 13 0) in
  _ ← winode inum din;
  mret inum.

(** for(i = 0; i < used; i++) buf[i/8] |= 1 << (i%8) *)
Fixpoint set_bits (used : nat) : list Z :=
  match used with
  | O => zero_block
  | S i => set_bit (Z.of_nat i) (set_bits i)
  end.

Definition balloc (used : Z) : M mk unit :=
  _ ← assert_ (used <? 512 * 8);
  wsect (ninodes / IPB + 3) (set_bits (Z.to_nat used)).

(** freeblock++, usedblocks++ *)
Definition take_block : M mk Z :=
  b ← gets freeblock;
  _ ← modify (fun s => set_used (u32 (b + 1)) (u32 (usedblocks s + 1)) s);
  mret b.

(** The entry for block [fbn] in the indirect block of the file. *)
Definition indirect_entry (fbn : Z) (din : inode) : M mk Z :=
  indirect ← rsect (xint (addr_at din NDIRECT));
  let off := Z.to_nat (4 * (fbn - NDIRECT)) in
  indirect ← (if ldw 4 indirect off =? 0 then
                b ← take_block;
                let indirect := stw 4 off (xint b) indirect in
                _ ← wsect (xint (addr_at din NDIRECT)) indirect;
                mret indirect
              else mret indirect);
  mret (xint (ldw 4 indirect off)).

(** The block of the file for [fbn], which is given one if it has none. *)
Definition file_block (fbn : Z) (din : inode) : M mk (inode * Z) :=
  if fbn <? NDIRECT then
    din ← (if xint (addr_at din fbn) =? 0 then b ← take_block; mret (set_addr fbn (xint b) din) else mret din);
    mret (din, xint (addr_at din fbn))
  else
    din ← (if xint (addr_at din NDIRECT) =? 0 then b ← take_block; mret (set_addr NDIRECT (xint b) din) else mret din);
    x ← indirect_entry fbn din;
    mret (din, x).

(** [p] has the [n] bytes that are left. *)
Definition append_step (st : list Z * Z * inode) : M mk (list Z * Z * inode + (Z * inode)) :=
  let '(p, off, din) := st in
  let n := Z.of_nat (length p) in
  if 0 <? n then
    let fbn := off / 512 in
    _ ← assert_ (fbn <? MAXFILE);
    r ← file_block fbn din;
    let '(din, x) := (r : inode * Z) in
    let n1 := Z.min n ((fbn + 1) * 512 - off) in
    buf ← rsect x;
    _ ← wsect x (splice (Z.to_nat (off - fbn * 512)) (take (Z.to_nat n1) p) buf);
    mret (inl (drop (Z.to_nat n1) p, u32 (off + n1), din))
  else mret (inr (off, din)).

Definition iappend (inum : Z) (xp : list Z) : M mk unit :=
  din ← rinode inum;
  r ← loop (S (length xp)) append_step (xp, xint (i_size din), din);
  let '(off, din) := (r : Z * inode) in
  winode inum (set_isize (xint off) din).

(** ** main *)

Record hostfile := HostFile { hf_name : list Z; hf_reads : option (list (list Z)) }.

(** A directory entry: bzero, the number, the name. *)
Definition dirent (inum : Z) (name : list Z) : list Z := le_enc 2 (xshort inum) ++ resize DIRSIZ 0 name.

Fixpoint append_reads (inum : Z) (reads : list (list Z)) : M mk unit :=
  match reads with
  | [] | [] :: _ => mret tt
  | buf :: reads => _ ← iappend inum buf; append_reads inum reads
  end.

(** Skip the leading underscore of a name. *)
Definition stored_name (name : list Z) : list Z :=
  match name with c :: rest => if c =? 95 then rest else name | [] => [] end.

Definition add_file (rootino : Z) (f : hostfile) : M mk unit :=
  _ ← assert_ (negb (existsb (Z.eqb SLASH) (hf_name f)));
  match hf_reads f with
  | None => die
  | Some reads =>
      inum ← ialloc T_FILE;
      _ ← iappend rootino (<[(2 + (DIRSIZ - 1))%nat := 0]> (dirent inum (stored_name (hf_name f))));
      append_reads inum reads
  end.

Fixpoint add_files (rootino : Z) (fs : list hostfile) : M mk unit :=
  match fs with
  | [] => mret tt
  | f :: fs => _ ← add_file rootino f; add_files rootino fs
  end.

(** for(i = 0; i < n; i++) wsect(i, zeroes) *)
Definition wipe (n : Z) : M mk unit :=
  loop (S (Z.to_nat n)) (fun i : Z => if i <? n then _ ← wsect i zero_block; mret (inl (i + 1)) else mret (inr tt)) 0.

Definition superblock_bytes : list Z :=
  splice 0 (le_enc 4 (xint size) ++ le_enc 4 (xint nblocks) ++ le_enc 4 (xint ninodes)) zero_block.

(** "fix size of root inode dir" *)
Definition fix_root (rootino : Z) : M mk unit :=
  din ← rinode rootino;
  let off := xint (i_size din) in
  let off := (off / BSIZE + 1) * BSIZE in
  winode rootino (set_isize (xint off) din).

(** [opened]: the image could be created. *)
Definition main (opened : bool) (fs : list hostfile) : M mk unit :=
  if negb opened then die else
  let bitblocks := size / (512 * 8) + 1 in
  let used := ninodes / IPB + 3 + bitblocks in
  _ ← modify (set_used used used);
  _ ← assert_ (nblocks + used =? size);
  _ ← wipe (nblocks + used);
  _ ← wsect 1 superblock_bytes;
  rootino ← ialloc T_DIR;
  _ ← assert_ (rootino =? ROOTINO);
  _ ← iappend rootino (dirent rootino [46]);
  _ ← iappend rootino (dirent rootino [46; 46]);
  _ ← add_files rootino fs;
  _ ← fix_root rootino;
  used ← gets usedblocks;
  balloc used.

(** The state when the program starts, with an empty image. *)
Definition mk0 : mk := Mk ∅ 0 0 0 1.
