(* ===== verification/MkfsCorrect.v ===== *)
(** * mkfs makes the file system that the kernel reads

    The bitmap is written at the end; [view s] is the image as it would be if it
    were written now.  On it every step of mkfs is one of the steps that the
    kernel makes when a file grows, so that the invariants of [FsFile] hold
    throughout. *)

From stdpp Require Import base numbers strings list gmap.
From Stdlib Require Import Lia ZArith ZifyBool.
From S2P Require Import Prelude Ide BlockDev Fs FsAlloc FsInode FsFile Mkfs.
Open Scope Z_scope.

Abbreviation disk_ok := (FsFile.disk_ok ROOTDEV size ninodes).
Abbreviation inode_ok := (FsFile.inode_ok ROOTDEV size ninodes).
Abbreviation file_ok := (FsFile.file_ok ROOTDEV size ninodes).
Abbreviation mapped := (FsFile.mapped ROOTDEV size ninodes).
Abbreviation written := (FsFile.written ROOTDEV size ninodes).
Abbreviation bit := (FsAlloc.bit ROOTDEV ninodes).
Abbreviation mark := (FsAlloc.mark ROOTDEV ninodes).
Abbreviation baddr := (FsFile.baddr ROOTDEV).
Abbreviation fbyte := (FsFile.fbyte ROOTDEV).
Abbreviation content := (FsFile.content ROOTDEV).
Abbreviation in_file := (FsFile.in_file ROOTDEV).
Abbreviation disjoint := (FsFile.disjoint ROOTDEV).
Abbreviation cost := (FsFile.cost ROOTDEV).
Abbreviation nfree := (FsFile.nfree ROOTDEV size ninodes).

(** The bitmap's sector and the first data block. *)
Definition BITMAP : Z := 28.
Definition DATA : Z := 29.

Ltac mk_consts := unfold BITMAP, DATA, size, ninodes, nblocks in *; fs_consts.
Ltac mk_lia := mk_consts; Z.div_mod_to_equations; lia.

Lemma datastart_is : datastart size ninodes = DATA.
Proof. done. Qed.
Lemma bmstart_is : bmstart ninodes = BITMAP.
Proof. done. Qed.
Lemma bblock_is b : 0 <= b < 4096 -> BBLOCK b ninodes = BITMAP.
Proof. intros. unfold BBLOCK. mk_lia. Qed.

(** ** Byte order *)

Lemma xint_id x : 0 <= x < 2 ^ 32 -> xint x = x.
Proof. intros. unfold xint, byte_of, le_dec. rewrite !Z.shiftr_div_pow2 by lia. Z.div_mod_to_equations; lia. Qed.
Lemma xshort_id x : 0 <= x < 2 ^ 16 -> xshort x = x.
Proof. intros. unfold xshort, byte_of, le_dec. rewrite !Z.shiftr_div_pow2 by lia. Z.div_mod_to_equations; lia. Qed.

(** ** The bitmap *)

Lemma length_set_bits n : length (set_bits n) = BLEN.
Proof. induction n as [|n IH]; [done|]. cbn [set_bits]. by rewrite length_set_bit. Qed.

Lemma bit_free_set_bits n b : (n <= 1024)%nat -> 0 <= b < 4096 -> bit_free (set_bits n) b = negb (b <? Z.of_nat n).
Proof.
  intros Hn Hb. induction n as [|n IH].
  - cbn [set_bits]. unfold bit_free, byte_at, zero_block. destruct (decide (Z.to_nat (b / 8) < BLEN)%nat).
    + rewrite lookup_replicate_2 by done. replace (b <? Z.of_nat 0) with false by lia. done.
    + rewrite lookup_ge_None_2 by (rewrite length_replicate; lia). replace (b <? Z.of_nat 0) with false by lia. done.
  - cbn [set_bits]. rewrite bit_free_set by (rewrite ?length_set_bits; done || mk_lia). rewrite IH by lia. lia.
Qed.

Definition fin (n : Z) (d : sectors) : sectors := <[sector BITMAP := set_bits (Z.to_nat n)]> d.

Lemma blk_fin n d x : x <> BITMAP -> blk (fin n d) (sector x) = blk d (sector x).
Proof. intros. apply blk_insert_ne. intros [=]. congruence. Qed.

Lemma bit_fin n d b : 0 <= n <= 1024 -> 0 <= b < 4096 -> bit (fin n d) b = (b <? n).
Proof.
  intros Hn Hb. unfold FsAlloc.bit. rewrite bblock_is by done. unfold fin. rewrite blk_insert, bit_free_set_bits by mk_lia.
  rewrite negb_involutive. replace (b mod BPB) with b by mk_lia. lia.
Qed.

Lemma fin_mark n d : 0 <= n < 1024 -> mark n (fin n d) = fin (n + 1) d.
Proof.
  intros Hn. unfold FsAlloc.mark. rewrite bblock_is by lia. unfold fin. rewrite blk_insert, insert_insert_eq.
  replace (n mod BPB) with n by mk_lia. replace (Z.to_nat (n + 1)) with (S (Z.to_nat n)) by lia. cbn [set_bits]. by rewrite Z2Nat.id by lia.
Qed.

Lemma fin_insert n d x dat : x <> BITMAP -> fin n (<[sector x := dat]> d) = <[sector x := dat]> (fin n d).
Proof. intros. unfold fin. apply insert_insert_ne. intros [=]. congruence. Qed.

Lemma nfree_fin n d : 0 <= n <= 1024 -> nfree (fin n d) = Z.to_nat (1024 - n).
Proof.
  intros Hn. unfold FsFile.nfree.
  assert (H : forall k lo, 0 <= lo -> lo + Z.of_nat k <= 1024 -> length (filter (fun b => bit (fin n d) b = false) (seqZ lo (Z.of_nat k))) = Z.to_nat (lo + Z.of_nat k - Z.max lo n)).
  { induction k as [|k IH]; intros lo Hlo Hhi; [simpl; lia|]. rewrite seqZ_cons, filter_cons, bit_fin by lia.
    replace (Z.pred (Z.of_nat (S k))) with (Z.of_nat k) by lia. pose proof (IH (Z.succ lo) ltac:(lia) ltac:(lia)).
    case_decide as Hc; simpl; destruct (Z.ltb_spec lo n); try done; lia. }
  change size with (Z.of_nat 1024). rewrite H by lia. lia.
Qed.

(** ** Blocks of a file *)

Definition view (s : mk) : sectors := fin (freeblock s) (img s).

Definition basics (s : mk) : Prop := nsect s = 1024 /\ usedblocks s = freeblock s /\ DATA <= freeblock s <= 1024.

(** The rest of the state is as before. *)
Definition same_rest (s s' : mk) : Prop := basics s' /\ freeinode s' = freeinode s.

Lemma take_block_run s :
  basics s -> freeblock s < 1024 ->
  wp take_block (fun b s' => b = freeblock s /\ same_rest s s' /\ img s' = img s /\ freeblock s' = freeblock s + 1 /\ view s' = mark b (view s)) s.
Proof.
  intros (H1 & H2 & H3) Hlt. unfold take_block. repeat wp_step. unfold same_rest, basics, view, set_used. cbn [img nsect freeblock usedblocks freeinode].
  rewrite H2, u32_small by mk_lia. split_and!; try done; try mk_lia. rewrite fin_mark by mk_lia. done.
Qed.

Lemma rsect_run s sec Q : basics s -> sec < 1024 -> Q (blk (img s) (sector sec)) s -> wp (rsect sec) Q s.
Proof. intros (H1 & _) Hs HQ. unfold rsect. repeat wp_step; [done|lia]. Qed.

(** Writing a data block. *)
Lemma wsect_run s x dat :
  basics s -> DATA <= x < 1024 ->
  wp (wsect x dat) (fun _ s' => same_rest s s' /\ freeblock s' = freeblock s /\ view s' = <[sector x := dat]> (view s)) s.
Proof.
  intros (H1 & H2 & H3) Hx. unfold wsect. repeat wp_step. unfold same_rest, basics, view, set_img. cbn [img nsect freeblock usedblocks freeinode].
  rewrite fin_insert by mk_lia. split_and!; try done; mk_lia.
Qed.

Lemma bit_view s b : basics s -> 0 <= b < 4096 -> bit (view s) b = (b <? freeblock s).
Proof. intros (_ & _ & H). apply bit_fin. mk_lia. Qed.

(** The addresses of a file fit in 32 bits. *)
Lemma xint_baddr d ip bn : inode_ok d ip -> 0 <= bn < MAXFILE -> xint (baddr d ip bn) = baddr d ip bn.
Proof.
  intros Hok Hbn. apply xint_id. destruct (decide (baddr d ip bn = 0)) as [->|Hne]; [lia|].
  destruct (FsFile.ok_own _ _ _ _ _ Hok _ (FsFile.in_file_baddr _ _ _ _ Hbn Hne)). rewrite datastart_is in *. mk_lia.
Qed.

Lemma xint_ind d ip : inode_ok d ip -> xint (ind ip) = ind ip.
Proof.
  intros Hok. apply xint_id. destruct (decide (ind ip = 0)) as [->|Hne]; [lia|].
  destruct (FsFile.ok_own _ _ _ _ _ Hok _ (FsFile.in_file_ind _ d _ Hne)). rewrite datastart_is in *. mk_lia.
Qed.

Lemma file_block_direct s din fbn :
  basics s -> disk_ok (view s) -> inode_ok (view s) din -> 0 <= fbn < NDIRECT -> freeblock s + Z.of_nat (cost (view s) din fbn) <= 1024 ->
  wp (file_block fbn din) (fun '(din', x) s' => mapped (view s) din fbn (view s') din' x /\ same_rest s s' /\
    freeblock s' = freeblock s + Z.of_nat (cost (view s) din fbn)) s.
Proof.
  intros Hb Hd Hok Hbn Hc. assert (Hbm : 0 <= fbn < MAXFILE) by mk_lia.
  assert (Ha : addr_at din fbn = baddr (view s) din fbn) by (unfold FsFile.baddr; by replace (fbn <? NDIRECT) with true by lia).
  unfold file_block. replace (fbn <? NDIRECT) with true by lia. rewrite Ha, (xint_baddr _ _ _ Hok Hbm).
  apply wp_bind. destruct (Z.eqb_spec (baddr (view s) din fbn) 0) as [H0|H0].
  - assert (Hcost : cost (view s) din fbn = 1%nat) by (unfold FsFile.cost; rewrite H0; simpl; by replace (NDIRECT <=? fbn) with false by lia).
    rewrite Hcost in *. apply wp_bind. eapply wp_mono; [apply take_block_run; [done|lia]|].
    intros b s' (-> & Hs & _ & Hf & Hv). pose proof Hb as (_ & _ & Hfr). apply wp_ret. rewrite xint_id by mk_lia. apply wp_ret.
    rewrite addr_at_set, Z.eqb_refl by (apply (FsFile.ok_len _ _ _ _ _ Hok) || mk_lia). rewrite xint_id by mk_lia.
    split_and!; [|done|lia]. rewrite Hv. apply FsFile.mapped_direct; [done|done|mk_lia| |done|done]. rewrite bit_view by (done || mk_lia). lia.
  - apply wp_ret. rewrite Ha, (xint_baddr _ _ _ Hok Hbm). apply wp_ret. assert (Hcost : cost (view s) din fbn = 0%nat) by (unfold FsFile.cost; by replace (baddr (view s) din fbn =? 0) with false by lia).
    rewrite Hcost. split; [by apply FsFile.mapped_kept|]; split; [done|lia].
Qed.

Lemma indirect_entry_run s din fbn :
  basics s -> disk_ok (view s) -> inode_ok (view s) din -> NDIRECT <= fbn < MAXFILE -> ind din <> 0 ->
  freeblock s + Z.of_nat (cost (view s) din fbn) <= 1024 ->
  wp (indirect_entry fbn din) (fun x s' => mapped (view s) din fbn (view s') din x /\ same_rest s s' /\
    freeblock s' = freeblock s + Z.of_nat (cost (view s) din fbn)) s.
Proof.
  intros Hb Hd Hok Hbn Hi Hc. assert (Hbm : 0 <= fbn < MAXFILE) by mk_lia. pose proof Hd as (_ & Hl & _).
  destruct (FsFile.ok_own _ _ _ _ _ Hok (ind din)) as [Hr _]; [by apply FsFile.in_file_ind|]. rewrite datastart_is in Hr.
  unfold indirect_entry. change (addr_at din NDIRECT) with (ind din). rewrite (xint_ind _ _ Hok).
  apply wp_bind, rsect_run; [done|mk_lia|]. rewrite <- (blk_fin (freeblock s)) by mk_lia. fold (view s). set (off := Z.to_nat (4 * (fbn - NDIRECT))).
  assert (Ha : ldw 4 (blk (view s) (sector (ind din))) off = baddr (view s) din fbn).
  { unfold FsFile.baddr. replace (fbn <? NDIRECT) with false by lia. by replace (ind din =? 0) with false by lia. }
  rewrite Ha. apply wp_bind. destruct (Z.eqb_spec (baddr (view s) din fbn) 0) as [H0|H0].
  - assert (Hcost : cost (view s) din fbn = 1%nat).
    { unfold FsFile.cost. rewrite H0. simpl. replace (ind din =? 0) with false by lia. by rewrite andb_false_r. }
    rewrite Hcost in *. apply wp_bind. eapply wp_mono; [apply take_block_run; [done|lia]|].
    intros b s1 (-> & [Hs1 Hs1'] & _ & Hf1 & Hv1). pose proof Hb as (_ & _ & Hfr). rewrite xint_id by mk_lia.
    apply wp_bind. eapply wp_mono; [apply wsect_run; [done|mk_lia]|]. intros _ s2 ([Hs2 Hs2'] & Hf2 & Hv2). apply wp_ret.
    assert (Hsz : (off + 4 <= length (blk (view s) (sector (ind din))))%nat) by (unfold sector; rewrite Hl; unfold off, BLEN; mk_lia).
    rewrite ldw_stw_same, Z.mod_small, xint_id by (done || change (256 ^ Z.of_nat 4) with (2 ^ 32); mk_lia). apply wp_ret.
    split; [|split; [split; [done|lia]|lia]]. rewrite Hv2, Hv1. apply FsFile.mapped_entry; [done|done|mk_lia| |done|done|done]. rewrite bit_view by (done || mk_lia). lia.
  - apply wp_ret. rewrite Ha, (xint_baddr _ _ _ Hok Hbm). apply wp_ret. assert (Hcost : cost (view s) din fbn = 0%nat) by (unfold FsFile.cost; by replace (baddr (view s) din fbn =? 0) with false by lia).
    rewrite Hcost. split; [by apply FsFile.mapped_kept|]. split; [done|lia].
Qed.

Lemma file_block_run s din fbn :
  basics s -> disk_ok (view s) -> inode_ok (view s) din -> 0 <= fbn < MAXFILE -> freeblock s + Z.of_nat (cost (view s) din fbn) <= 1024 ->
  wp (file_block fbn din) (fun '(din', x) s' => mapped (view s) din fbn (view s') din' x /\ same_rest s s' /\
    freeblock s' = freeblock s + Z.of_nat (cost (view s) din fbn)) s.
Proof.
  intros Hb Hd Hok Hbn Hc. destruct (decide (fbn < NDIRECT)); [apply file_block_direct; (done || lia)|].
  unfold file_block. replace (fbn <? NDIRECT) with false by lia. change (addr_at din NDIRECT) with (ind din). rewrite (xint_ind _ _ Hok).
  apply wp_bind. destruct (Z.eqb_spec (ind din) 0) as [H0|H0].
  - assert (Hba : baddr (view s) din fbn = 0) by (unfold FsFile.baddr; replace (fbn <? NDIRECT) with false by lia; by rewrite H0).
    assert (Hcost : cost (view s) din fbn = 2%nat).
    { unfold FsFile.cost. rewrite Hba, H0. simpl. by replace (NDIRECT <=? fbn) with true by lia. }
    rewrite Hcost in *. apply wp_bind. eapply wp_mono; [apply take_block_run; [done|lia]|].
    intros b s1 (-> & [Hs1 Hs1'] & _ & Hf1 & Hv1). pose proof Hb as (_ & _ & Hfr). rewrite xint_id by mk_lia. apply wp_ret, wp_bind.
    assert (Hfree : bit (view s) (freeblock s) = false) by (rewrite bit_view by (done || mk_lia); lia).
    assert (Hfb : 0 <= freeblock s < size) by mk_lia.
    destruct (FsFile.attach_ind _ _ _ (view s) din (freeblock s) Hd Hok Hfb Hfree H0) as (Hok1 & _ & Hind & _ & Hba1).
    pose proof (FsFile.disk_ok_mark _ _ _ (view s) _ Hd Hfb Hfree) as Hd1. rewrite <- Hv1 in *.
    assert (Hcost1 : cost (view s1) (set_addr NDIRECT (freeblock s) din) fbn = 1%nat).
    { unfold FsFile.cost. rewrite Hba1, Hba, Hind by done. simpl. replace (freeblock s =? 0) with false by mk_lia. by rewrite andb_false_r. }
    eapply wp_mono; [apply indirect_entry_run; [done|done|done|lia|rewrite Hind; mk_lia|rewrite Hcost1; lia]|].
    intros x s2 (Hm & [Hs2 Hs2'] & Hf2). apply wp_ret. rewrite Hcost1 in *. split; [|split; [split; [done|lia]|lia]].
    apply (FsFile.mapped_ind _ _ _ (view s) din fbn (freeblock s)); try done; [lia|]. by rewrite <- Hv1.
  - apply wp_ret, wp_bind. eapply wp_mono; [apply indirect_entry_run; [done|done|done|lia|done|done]|].
    intros x s' Hx. by apply wp_ret.
Qed.

(** ** Appending *)

(** The blocks of a file of [n] bytes, the indirect block included. *)
Definition nb (n : Z) : Z := (n + 511) / 512 + (if NDIRECT * BSIZE <? n then 1 else 0).

(** A file of [n] bytes has no blocks past its end, and its last block is zero
    from there on. *)
Definition exact (d : sectors) (ip : inode) (n : Z) : Prop :=
  (forall bn, 0 <= bn < MAXFILE -> baddr d ip bn <> 0 -> bn * BSIZE < n) /\ (ind ip <> 0 -> NDIRECT * BSIZE < n) /\
  (forall o, n <= o < MAXFILE * BSIZE -> baddr d ip (o / BSIZE) <> 0 -> fbyte d ip o = 0).

Lemma cost_nb d ip n c :
  exact d ip n -> (forall bn, 0 <= bn -> bn * BSIZE < n -> baddr d ip bn <> 0) ->
  0 <= n -> 0 < c -> n mod BSIZE + c <= BSIZE -> n + c <= MAXFILE * BSIZE -> Z.of_nat (cost d ip (n / BSIZE)) = nb (n + c) - nb n.
Proof.
  intros (Hx & Hi & _) Hm Hn Hc Hfit Hmax. unfold FsFile.cost.
  assert (Hind : ind ip = 0 <-> n <= NDIRECT * BSIZE).
  { split; [|intros; destruct (decide (ind ip = 0)); [done|]; specialize (Hi ltac:(done)); lia].
    intros H0. destruct (Z.leb_spec n (NDIRECT * BSIZE)) as [?|Hgt]; [done|]. exfalso. apply (Hm NDIRECT); [mk_lia|lia|].
    unfold FsFile.baddr. rewrite Z.ltb_irrefl. by rewrite H0. }
  assert (Hb : baddr d ip (n / BSIZE) = 0 <-> n mod BSIZE = 0).
  { split; intros H0.
    - destruct (decide (n mod BSIZE = 0)); [done|]. exfalso. apply (Hm (n / BSIZE)); [mk_lia|mk_lia|done].
    - destruct (decide (baddr d ip (n / BSIZE) = 0)); [done|]. pose proof (Hx (n / BSIZE) ltac:(mk_lia) ltac:(done)). mk_lia. }
  unfold nb. destruct (Z.eqb_spec (baddr d ip (n / BSIZE)) 0) as [H0|H0].
  - assert (n mod BSIZE = 0) by tauto. destruct (Z.leb_spec NDIRECT (n / BSIZE)), (Z.eqb_spec (ind ip) 0) as [Hi0|Hi0]; cbn [andb].
    + assert (n <= NDIRECT * BSIZE) by tauto. replace (NDIRECT * BSIZE <? n + c) with true by mk_lia. replace (NDIRECT * BSIZE <? n) with false by mk_lia. mk_lia.
    + assert (~ n <= NDIRECT * BSIZE) by tauto. replace (NDIRECT * BSIZE <? n + c) with true by mk_lia. replace (NDIRECT * BSIZE <? n) with true by mk_lia. mk_lia.
    + replace (NDIRECT * BSIZE <? n + c) with false by mk_lia. replace (NDIRECT * BSIZE <? n) with false by mk_lia. mk_lia.
    + assert (~ n <= NDIRECT * BSIZE) by tauto. mk_lia.
  - assert (n mod BSIZE <> 0) by tauto. destruct (Z.ltb_spec (NDIRECT * BSIZE) n); [replace (NDIRECT * BSIZE <? n + c) with true by mk_lia; mk_lia|].
    replace (NDIRECT * BSIZE <? n + c) with false by mk_lia. mk_lia.
Qed.

Lemma nb_mono n c : 0 <= n -> 0 <= c -> nb n <= nb (n + c).
Proof. intros. unfold nb. destruct (Z.ltb_spec (NDIRECT * BSIZE) n), (Z.ltb_spec (NDIRECT * BSIZE) (n + c)); mk_lia. Qed.

Lemma nb_nonneg n : 0 <= n -> 0 <= nb n.
Proof. intros. unfold nb. case_match; mk_lia. Qed.

(** Mapping the block at the end of the file and writing to it. *)
Lemma exact_step d ip n c d' ip' b bs :
  exact d ip n -> inode_ok d' ip' -> inode_ok d ip -> mapped d ip (n / BSIZE) d' ip' b -> 0 <= n -> 0 < c -> n mod BSIZE + c <= BSIZE -> n + c <= MAXFILE * BSIZE ->
  length bs = Z.to_nat c -> length (blk d' (sector b)) = BLEN ->
  exact (<[sector b := splice (Z.to_nat (n mod BSIZE)) bs (blk d' (sector b))]> d') ip' (n + c).
Proof.
  intros (Hx & Hi & Hz) Hok Hok0 Hm Hn Hc Hfit Hmax Hbs Hl. pose proof (m_addr _ _ _ _ _ _ _ _ _ Hm) as Hb. pose proof (m_nz _ _ _ _ _ _ _ _ _ Hm) as Hnz. set (bn := n / BSIZE) in *.
  assert (Hbn : 0 <= bn < MAXFILE) by (unfold bn; mk_lia). set (dat := splice _ _ _). set (d2 := <[sector b := dat]> d').
  assert (Hba : forall bn', baddr d2 ip' bn' = baddr d' ip' bn').
  { intros bn'. apply FsFile.baddr_ext. intros Hi'. unfold d2. rewrite blk_insert_ne; [done|]. intros [= E]. rewrite <- Hb in E. by apply (FsFile.ok_ind _ _ _ _ _ Hok bn Hbn Hi'). }
  assert (Hlast : forall bn', 0 <= bn' < MAXFILE -> bn' <> bn -> baddr d' ip' bn' <> 0 -> bn' * BSIZE < n).
  { intros bn' Hbn' Hne. rewrite (m_others _ _ _ _ _ _ _ _ _ Hm) by done. by apply Hx. }
  split_and!.
  - intros bn' Hbn'. rewrite Hba. destruct (decide (bn' = bn)) as [->|Hne]; [intros _; unfold bn; mk_lia|]. intros Hne'. pose proof (Hlast _ Hbn' Hne Hne'). lia.
  - intros Hi'. destruct (decide (NDIRECT <= bn)) as [Hle|Hlt]; [unfold bn in Hle; mk_lia|].
    rewrite (m_ind_kept _ _ _ _ _ _ _ _ _ Hm) in Hi' by lia. specialize (Hi Hi'). lia.
  - intros o Ho. rewrite Hba. intros Hne. assert (Hr : 0 <= o / BSIZE < MAXFILE) by mk_lia.
    destruct (decide (o / BSIZE = bn)) as [E|E]; [|pose proof (Hlast _ Hr E Hne); mk_lia].
    unfold FsFile.fbyte. rewrite Hba, E, Hb. change (ROOTDEV, b) with (sector b). unfold d2. rewrite blk_insert. unfold dat.
    rewrite FsFile.byte_at_splice by (rewrite ?Hl, ?Hbs; unfold BLEN; mk_lia). rewrite Hbs.
    replace (_ && _) with false by (unfold bn in E; mk_lia). destruct (decide (baddr d ip bn = 0)) as [H0|H0].
    + unfold sector. rewrite (m_fresh _ _ _ _ _ _ _ _ _ Hm H0). apply FsFile.byte_at_zero_block.
    + destruct (m_kept _ _ _ _ _ _ _ _ _ Hm H0) as [-> ->]. rewrite <- (Hz o) by (try lia; by rewrite E). unfold FsFile.fbyte. by rewrite E, Hb.
Qed.

(** [tot] bytes of [p] have been appended to the file [ip]. *)
Definition appended (s0 : mk) (ip : inode) (p : list Z) (tot : Z) (s : mk) (din : inode) : Prop :=
  written (view s0) ip (i_size ip) p tot (view s) din /\ exact (view s) din (i_size ip + tot) /\ same_rest s0 s /\
  freeblock s = freeblock s0 - nb (i_size ip) + nb (i_size ip + tot).

Lemma append_step_run s0 ip p tot s din :
  file_ok (view s0) ip -> i_size ip + Z.of_nat (length p) <= MAXFILE * BSIZE ->
  freeblock s0 - nb (i_size ip) + nb (i_size ip + Z.of_nat (length p)) <= 1024 ->
  0 <= tot < Z.of_nat (length p) -> appended s0 ip p tot s din ->
  wp (append_step (drop (Z.to_nat tot) p, i_size ip + tot, din)) (fun r s' => exists c din', 0 < c <= Z.of_nat (length p) - tot /\
    r = inl (drop (Z.to_nat (tot + c)) p, i_size ip + (tot + c), din') /\ appended s0 ip p (tot + c) s' din') s.
Proof.
  intros (Hd0 & Hok0 & Hsz & Hmap) Hmax Hfit Ht (Hw & He & [Hs Hs'] & Hf). set (n := i_size ip) in *. set (off := n + tot) in *.
  pose proof (w_disk _ _ _ _ _ _ _ _ _ _ Hw) as Hd. pose proof (w_ok _ _ _ _ _ _ _ _ _ _ Hw) as Hok.
  unfold append_step. rewrite length_drop. replace (0 <? _) with true by lia. set (c := Z.min _ _).
  assert (Hc : 0 < c <= Z.of_nat (length p) - tot /\ off mod BSIZE + c <= BSIZE) by (unfold c; mk_lia).
  assert (Hbn : 0 <= off / BSIZE < MAXFILE) by mk_lia. change (off / 512) with (off / BSIZE).
  replace (off / BSIZE <? MAXFILE) with true by lia. apply wp_bind. cbn [assert_]. apply wp_ret, wp_bind.
  assert (Hcost : Z.of_nat (cost (view s) din (off / BSIZE)) = nb (off + c) - nb off).
  { apply cost_nb; [done| |lia|lia|lia|lia]. intros bn H1 H2. apply (w_map _ _ _ _ _ _ _ _ _ _ Hw); [done|]. fold n. lia. }
  pose proof (nb_mono (off + c) (Z.of_nat (length p) - tot - c) ltac:(lia) ltac:(lia)) as Hmono.
  replace (off + c + (Z.of_nat (length p) - tot - c)) with (n + Z.of_nat (length p)) in Hmono by lia.
  eapply wp_mono; [apply file_block_run; [done|done|done|done|lia]|]. intros [din' x] s1 (Hm & [Hs1 Hs1'] & Hf1).
  pose proof (m_addr _ _ _ _ _ _ _ _ _ Hm) as Hx. pose proof (m_nz _ _ _ _ _ _ _ _ _ Hm) as Hnz. pose proof (m_ok _ _ _ _ _ _ _ _ _ Hm) as Hok1.
  assert (Hr : DATA <= x < 1024).
  { rewrite <- Hx. apply (FsFile.ok_own _ _ _ _ _ Hok1). apply FsFile.in_file_baddr; [done|congruence]. }
  apply wp_bind, rsect_run; [done|lia|]. rewrite <- (blk_fin (freeblock s1)) by mk_lia. fold (view s1).
  apply wp_bind. eapply wp_mono; [apply wsect_run; [done|done]|]. intros _ s2 ([Hs2 Hs2'] & Hf2 & Hv2). apply wp_ret.
  exists c, din'. split; [lia|]. rewrite drop_drop, u32_small by (change (MAXFILE * BSIZE) with 71680 in *; lia).
  replace (Z.to_nat tot + Z.to_nat c)%nat with (Z.to_nat (tot + c)) by lia. replace (off + c) with (n + (tot + c)) in * by lia. split; [done|].
  replace (off - off / BSIZE * 512) with (off mod BSIZE) in Hv2 by mk_lia.
  unfold appended; fold n. split; [|split; [|split; [split; [done|congruence]|lia]]].
  - rewrite Hv2. apply (FsFile.written_step _ _ _ _ _ _ _ _ _ (view s) din); try done; fold n; try lia. apply Hc.
  - rewrite Hv2. replace (n + (tot + c)) with (off + c) by lia. apply (exact_step (view s) din); try done; try lia; [rewrite length_take, length_drop; lia|]. apply (m_disk _ _ _ _ _ _ _ _ _ Hm).
Qed.

Lemma append_loop_run s ip p fuel :
  basics s -> file_ok (view s) ip -> exact (view s) ip (i_size ip) -> i_size ip + Z.of_nat (length p) <= MAXFILE * BSIZE ->
  freeblock s - nb (i_size ip) + nb (i_size ip + Z.of_nat (length p)) <= 1024 -> (length p < fuel)%nat ->
  wp (loop fuel append_step (p, i_size ip, ip)) (fun '(off, din) s' => off = i_size ip + Z.of_nat (length p) /\ appended s ip p (Z.of_nat (length p)) s' din) s.
Proof.
  intros Hb Hfile He Hmax Hfit Hfu.
  apply (wp_loop_ghost (fun n st s' => exists tot din, 0 <= tot <= Z.of_nat (length p) /\ st = (drop (Z.to_nat tot) p, i_size ip + tot, din) /\
    appended s ip p tot s' din /\ n = Z.to_nat (Z.of_nat (length p) - tot)) _ _ _ (length p)); [| |done].
  - intros n st s' (tot & din & Ht & -> & Ha & ->). destruct (decide (tot = Z.of_nat (length p))) as [->|Hne].
    + rewrite drop_ge by lia. unfold append_step. apply wp_ret. done.
    + eapply wp_mono; [apply (append_step_run s ip p tot); (done || lia)|]. intros r s1 (c & din' & Hc & -> & Ha').
      exists (Z.to_nat (Z.of_nat (length p) - (tot + c))). split; [lia|]. exists (tot + c), din'. split_and!; [lia|lia|done|done|done].
  - exists 0, ip. rewrite Z.add_0_r. split_and!; [lia|lia|done| |lia]. unfold appended. rewrite Z.add_0_r.
    pose proof Hfile as (_ & _ & Hsz & _). split; [apply FsFile.written_start; [done|lia]|]. split; [done|]. split; [done|lia].
Qed.

(** ** Inodes *)

(** Inode [inum] as the image has it. *)
Definition ino (d : sectors) (inum : Z) : inode := load_dinode (blk d (sector (IBLOCK inum))) (dinode_off inum) (ident inum).

(** An inode in memory that can be written to the image as [inum]. *)
Definition good (inum : Z) (ip : inode) : Prop :=
  inode_typed ip /\ i_dev ip = ROOTDEV /\ i_inum ip = inum /\ i_ref ip = 0 /\ i_flags ip = 0.

Lemma ino_good d inum ip : dfields (ino d inum) = dfields ip -> good inum ip -> ino d inum = ip.
Proof. intros Hf (_ & H1 & H2 & H3 & H4). destruct ip. unfold dfields in Hf. simpl in *. by simplify_eq. Qed.

Lemma ino_put_same ip d inum : good inum ip -> length (blk d (sector (IBLOCK inum))) = BLEN -> ino (put_inode ip d) inum = ip.
Proof.
  intros Hg Hl. apply ino_good; [|done]. pose proof Hg as (Ht & H1 & H2 & _). unfold ino, put_inode. rewrite H1, H2. unfold sector. rewrite blk_insert.
  apply load_store_same; [done|]. unfold sector in Hl. rewrite Hl. apply dinode_off_bound.
Qed.

Lemma ino_put_other ip d inum inum' :
  good inum ip -> length (blk d (sector (IBLOCK inum))) = BLEN -> inum' <> inum -> ino (put_inode ip d) inum' = ino d inum'.
Proof.
  intros (Ht & H1 & H2 & _) Hl Hne. unfold ino, put_inode, sector. rewrite H1, H2.
  destruct (decide (IBLOCK inum' = IBLOCK inum)) as [E|E]; [|by rewrite blk_insert_ne by congruence].
  rewrite E, blk_insert. apply load_store_other; [apply Ht|done|]. intros Hm. apply Hne. unfold IBLOCK in E. mk_lia.
Qed.

(** [winode] is the kernel's [iupdate]. *)
Lemma winode_run s inum ip :
  basics s -> 0 <= inum < ninodes -> good inum ip ->
  wp (winode inum ip) (fun _ s' => same_rest s s' /\ freeblock s' = freeblock s /\ view s' = put_inode ip (view s)) s.
Proof.
  intros Hb Hi (_ & H1 & H2 & _). pose proof Hb as (B1 & B2 & B3). unfold winode. change (i2b inum) with (IBLOCK inum). apply wp_bind.
  assert (Hib : 2 <= IBLOCK inum < BITMAP) by (unfold IBLOCK; mk_lia). apply rsect_run; [done|mk_lia|].
  unfold wsect. repeat wp_step. unfold same_rest, basics, view, set_img. cbn [img nsect freeblock usedblocks freeinode].
  split_and!; try done; try mk_lia. rewrite fin_insert by mk_lia. unfold put_inode. rewrite H1, H2.
  change (ROOTDEV, IBLOCK inum) with (sector (IBLOCK inum)). by rewrite blk_fin by mk_lia.
Qed.

Lemma rinode_run s inum Q : basics s -> 0 <= inum < ninodes -> Q (ino (view s) inum) s -> wp (rinode inum) Q s.
Proof.
  intros Hb Hi HQ. unfold rinode. change (i2b inum) with (IBLOCK inum). assert (Hib : 2 <= IBLOCK inum < BITMAP) by (unfold IBLOCK; mk_lia).
  apply wp_bind, rsect_run; [done|mk_lia|]. apply wp_ret. unfold ino, view in HQ. by rewrite blk_fin in HQ by mk_lia.
Qed.

(** ** The files made so far *)

(** Inode [inum] is a file of type [ty] with the bytes [bs]. *)
Record is_file (d : sectors) (inum ty : Z) (bs : list Z) : Prop := {
  f_good : good inum (ino d inum);
  f_ok : file_ok d (ino d inum);
  f_exact : exact d (ino d inum) (i_size (ino d inum));
  f_bytes : content d (ino d inum) = bs;
  f_type : i_type (ino d inum) = ty;
  f_nlink : i_nlink (ino d inum) = 1 }.

Definition total (T : list (Z * list Z)) : Z := foldr (fun e n => nb (Z.of_nat (length e.2)) + n) 0 T.

(** Entry [i] of [T] is the type and the bytes of inode [i + 1]. *)
Record mk_ok (s : mk) (T : list (Z * list Z)) : Prop := {
  k_basics : basics s;
  k_inodes : freeinode s = Z.of_nat (length T) + 1 /\ Z.of_nat (length T) < ninodes;
  k_free : freeblock s = DATA + total T;
  k_disk : disk_ok (view s);
  k_file : forall i ty bs, T !! i = Some (ty, bs) -> is_file (view s) (Z.of_nat i + 1) ty bs;
  k_disj : forall i j, (i < length T)%nat -> (j < length T)%nat -> i <> j -> disjoint (view s) (ino (view s) (Z.of_nat i + 1)) (ino (view s) (Z.of_nat j + 1)) }.

Lemma total_insert T i ty bs ty' bs' :
  T !! i = Some (ty, bs) -> total (<[i := (ty', bs')]> T) = total T - nb (Z.of_nat (length bs)) + nb (Z.of_nat (length bs')).
Proof.
  revert i. induction T as [|e T IH]; intros [|i]; simpl; try done.
  - intros [= ->]. simpl. lia.
  - intros Hi. rewrite (IH _ Hi). lia.
Qed.

Lemma total_cons e T : total (e :: T) = nb (Z.of_nat (length e.2)) + total T.
Proof. done. Qed.

Lemma total_app T1 T2 : total (T1 ++ T2) = total T1 + total T2.
Proof. induction T1 as [|e T1 IH]; simpl; lia. Qed.

Lemma size_is d inum ty bs : is_file d inum ty bs -> i_size (ino d inum) = Z.of_nat (length bs).
Proof. intros Hf. pose proof (f_ok _ _ _ _ Hf) as (_ & _ & Hs & _). rewrite <- (f_bytes _ _ _ _ Hf), FsFile.length_content; lia. Qed.

(** A change of the image that keeps the blocks of a file and its inode. *)
Lemma is_file_ext d d' inum ty bs :
  is_file d inum ty bs -> ino d' inum = ino d inum -> file_ok d' (ino d inum) -> content d' (ino d inum) = content d (ino d inum) ->
  (forall b, in_file d' (ino d inum) b <-> in_file d (ino d inum) b) ->
  (forall bn, 0 <= bn < MAXFILE -> baddr d' (ino d inum) bn = baddr d (ino d inum) bn) ->
  (forall o, 0 <= o < MAXFILE * BSIZE -> baddr d (ino d inum) (o / BSIZE) <> 0 -> fbyte d' (ino d inum) o = fbyte d (ino d inum) o) -> is_file d' inum ty bs.
Proof.
  intros [H1 H2 (H3 & H3' & H3'') H4 H5 H6] E Hok Hc Hin Hba Hfb. constructor; rewrite ?E; try done; [|congruence]. pose proof H2 as (_ & _ & Hs & _).
  split_and!; [|done|].
  - intros bn Hbn. rewrite Hba by done. by apply H3.
  - intros o Ho. rewrite Hba by mk_lia. intros Hne. rewrite Hfb by (done || lia). by apply H3''.
Qed.

Lemma addrs_uint d ip : inode_ok d ip -> Forall is_uint (i_addrs ip).
Proof.
  intros Hok. apply Forall_forall. intros a [k Hk]%list_elem_of_lookup. pose proof (lookup_lt_Some _ _ _ Hk) as Hlt. rewrite (FsFile.ok_len _ _ _ _ _ Hok) in Hlt.
  assert (Ha : addr_at ip (Z.of_nat k) = a) by (unfold addr_at; by rewrite Nat2Z.id, Hk). unfold is_uint.
  destruct (decide (a = 0)) as [->|Hne]; [lia|]. enough (DATA <= a < 1024) by mk_lia. rewrite <- Ha in *.
  apply (FsFile.ok_own _ _ _ _ _ Hok). destruct (decide (k = 12%nat)) as [->|]; [by apply (FsFile.in_file_ind _ d ip)|].
  split; [done|]. right. exists (Z.of_nat k). split; [mk_lia|]. unfold FsFile.baddr. by replace (Z.of_nat k <? NDIRECT) with true by mk_lia.
Qed.

(** Another file, while this one grows. *)
Lemma other_kept d ip d' ip' j ty bs :
  FsFile.ext ROOTDEV size ninodes d ip d' ip' -> disk_ok d -> disk_ok d' -> inode_ok d ip -> 0 <= j < ninodes -> is_file d j ty bs -> disjoint d ip (ino d j) ->
  is_file d' j ty bs /\ ino d' j = ino d j /\ disjoint d' ip' (ino d' j) /\ (forall b, in_file d' (ino d j) b <-> in_file d (ino d j) b).
Proof.
  intros He Hd Hd' Hok Hj Hf Hdis. destruct (FsFile.other_file_ext _ _ _ _ _ _ _ _ He Hd' (f_ok _ _ _ _ Hf) Hdis) as (H1 & H2 & H3).
  assert (Hino : ino d' j = ino d j).
  { enough (E : blk d' (sector (IBLOCK j)) = blk d (sector (IBLOCK j))) by (unfold ino; by rewrite E). unfold sector. apply (FsFile.e_frame _ _ _ _ _ _ _ He); rewrite ?bmstart_is; [unfold IBLOCK; mk_lia| | |unfold IBLOCK; mk_lia].
    - pose proof Hd as (_ & _ & Hm & _). apply Hm. rewrite datastart_is. unfold IBLOCK. mk_lia.
    - intros Hin. destruct (FsFile.ok_own _ _ _ _ _ Hok _ Hin) as [Hr _]. rewrite datastart_is in Hr. unfold IBLOCK in Hr. mk_lia. }
  pose proof (f_ok _ _ _ _ Hf) as (_ & Hjok & _).
  assert (Hblk : forall b, in_file d (ino d j) b -> blk d' (ROOTDEV, b) = blk d (ROOTDEV, b)).
  { intros b Hb. destruct (FsFile.ok_own _ _ _ _ _ Hjok b Hb) as [Hr Hbt]. rewrite datastart_is in Hr.
    apply (FsFile.e_frame _ _ _ _ _ _ _ He); try done; [mk_lia| |right; rewrite datastart_is; lia]. intros Hi. by apply (Hdis b). }
  assert (Hbit : forall b, in_file d (ino d j) b -> bit d' b = true).
  { intros b Hb. destruct (FsFile.ok_own _ _ _ _ _ Hjok b Hb) as [Hr Hbt]. rewrite datastart_is in Hr. apply (FsFile.e_bits _ _ _ _ _ _ _ He); [mk_lia|done]. }
  destruct (FsFile.file_ext _ _ _ d d' (ino d j) Hjok Hd' Hblk Hbit) as (_ & Hba & Hin & Hfb).
  rewrite Hino. split; [|done]. by eapply is_file_ext.
Qed.

(** A file, when an inode is written. *)
Lemma put_kept d ip inum jp :
  good inum ip -> disk_ok d -> 0 <= inum < ninodes -> file_ok d jp ->
  file_ok (put_inode ip d) jp /\ content (put_inode ip d) jp = content d jp /\ (forall b, in_file (put_inode ip d) jp b <-> in_file d jp b) /\
  (forall bn, baddr (put_inode ip d) jp bn = baddr d jp bn) /\
  (forall o, 0 <= o < MAXFILE * BSIZE -> baddr d jp (o / BSIZE) <> 0 -> fbyte (put_inode ip d) jp o = fbyte d jp o).
Proof.
  intros (Ht & H1 & H2 & _) Hd Hi Hf. assert (Hl : length (i_addrs ip) = 13%nat) by apply Ht. rewrite <- H2 in Hi.
  destruct (FsFile.other_file_put _ _ _ d ip jp Hd H1 Hl Hi Hf) as (F1 & F2 & F3).
  destruct (FsFile.put_inode_ok _ _ _ d ip Hd H1 Hl Hi) as (_ & Hb & _). pose proof Hf as (_ & Hok & _).
  assert (Hba : forall bn, baddr (put_inode ip d) jp bn = baddr d jp bn).
  { intros bn. apply FsFile.baddr_ext. intros Hne. apply Hb. apply (FsFile.ok_own _ _ _ _ _ Hok). by apply FsFile.in_file_ind. }
  split_and!; [done|done|done|done|]. intros o Ho Hne. unfold FsFile.fbyte. rewrite Hba, Hb; [done|].
  apply (FsFile.ok_own _ _ _ _ _ Hok). apply FsFile.in_file_baddr; [mk_lia|done].
Qed.

(** What the file is once its inode is written. *)
Lemma appended_file s ip p s1 din inum ty bs :
  is_file (view s) inum ty bs -> ip = ino (view s) inum -> 0 <= inum < ninodes -> i_size ip + Z.of_nat (length p) <= MAXFILE * BSIZE ->
  appended s ip p (Z.of_nat (length p)) s1 din ->
  let ip' := set_isize (i_size ip + Z.of_nat (length p)) din in
  good inum ip' /\ is_file (put_inode ip' (view s1)) inum ty (bs ++ p) /\ ino (put_inode ip' (view s1)) inum = ip' /\
  (forall b, in_file (put_inode ip' (view s1)) ip' b <-> in_file (view s1) din b).
Proof.
  intros Hf -> Hi Hmax (Hw & He & Hs & Hfr) ip'. set (ip := ino (view s) inum) in *. set (n := i_size ip + Z.of_nat (length p)) in *.
  pose proof (f_ok _ _ _ _ Hf) as Hok. pose proof Hok as (_ & _ & Hsz & _). fold ip in Hok, Hsz. pose proof (size_is _ _ _ _ Hf) as Hlen. fold ip in Hlen.
  destruct (FsFile.written_file ROOTDEV size ninodes (view s) ip (i_size ip) p (Z.of_nat (length p)) (view s1) din Hok ltac:(lia) ltac:(lia) Hmax Hw) as (Hok1 & Hsize & Hc).
  pose proof (FsFile.e_fields _ _ _ _ _ _ _ (w_ext _ _ _ _ _ _ _ _ _ _ Hw)) as Hfields. pose proof (w_disk _ _ _ _ _ _ _ _ _ _ Hw) as Hd1.
  assert (Hip : FsFile.resized din n = ip') by (unfold FsFile.resized, ip'; rewrite Hfields; cbn [i_size set_iaddrs]; f_equal; lia).
  fold n in Hok1, Hsize, Hc. rewrite Hip in Hok1, Hc. pose proof (f_good _ _ _ _ Hf) as Hg0. fold ip in Hg0. destruct Hg0 as ((T1 & T2 & T3 & T4 & T5 & T6 & T7) & G2 & G3 & G4 & G5).
  assert (Hg : good inum ip').
  { pose proof (addrs_uint _ _ (w_ok _ _ _ _ _ _ _ _ _ _ Hw)) as Hau. pose proof (FsFile.ok_len _ _ _ _ _ (w_ok _ _ _ _ _ _ _ _ _ _ Hw)) as Hal.
    unfold ip'. rewrite Hfields. unfold good, inode_typed. cbn. split_and!; try done; change (MAXFILE * BSIZE) with 71680 in *; unfold is_uint, n in *; lia. }
  destruct (put_kept _ ip' inum ip' Hg Hd1 Hi Hok1) as (P1 & P2 & P3 & P4 & P5).
  assert (Hsame : ino (put_inode ip' (view s1)) inum = ip') by (apply ino_put_same; [done|]; apply Hd1).
  split_and!; [done| |done|done]. constructor; rewrite Hsame; try done.
  - destruct He as (E1 & E2 & E3). split_and!; [|done|].
    + intros bn Hbn. rewrite P4. by apply E1.
    + intros o Ho. rewrite P4. intros Hne. rewrite P5 by (done || (cbn in Ho; lia)). by apply E3.
  - rewrite P2, Hc. unfold splice. rewrite (take_ge p) by lia. rewrite (take_ge (content _ _)), drop_ge by (rewrite FsFile.length_content by lia; lia).
    rewrite app_nil_r. f_equal. apply (f_bytes _ _ _ _ Hf).
  - unfold ip'. rewrite Hfields. apply (f_type _ _ _ _ Hf).
  - unfold ip'. rewrite Hfields. apply (f_nlink _ _ _ _ Hf).
Qed.

Lemma iappend_run s T i ty bs p :
  mk_ok s T -> T !! i = Some (ty, bs) -> Z.of_nat (length bs) + Z.of_nat (length p) <= MAXFILE * BSIZE -> DATA + total (<[i := (ty, bs ++ p)]> T) <= 1024 ->
  wp (iappend (Z.of_nat i + 1) p) (fun _ s' => mk_ok s' (<[i := (ty, bs ++ p)]> T)) s.
Proof.
  intros [Kb [Ki1 Ki2] Kf Kd Kfile Kdis] HT Hmax Hfit. set (inum := Z.of_nat i + 1) in *. pose proof (lookup_lt_Some _ _ _ HT) as Hlt.
  assert (Hi : 0 <= inum < ninodes) by lia. pose proof (Kfile _ _ _ HT) as Hf. fold inum in Hf. rewrite (total_insert _ _ _ _ _ _ HT), length_app in Hfit.
  pose proof (size_is _ _ _ _ Hf) as Hsz. unfold iappend. apply wp_bind, rinode_run; [done|done|]. set (ip := ino (view s) inum) in *.
  rewrite (xint_id (i_size ip)) by (change (MAXFILE * BSIZE) with 71680 in *; lia). rewrite <- Hsz in Hmax.
  apply wp_bind. eapply wp_mono; [apply (append_loop_run s ip p); [done|apply (f_ok _ _ _ _ Hf)|apply (f_exact _ _ _ _ Hf)|done|rewrite Hsz, Nat2Z.inj_add in *; lia|lia]|].
  intros [off din] s1 [-> Ha]. rewrite xint_id by (change (MAXFILE * BSIZE) with 71680 in *; lia).
  destruct (appended_file s ip p s1 din inum ty bs Hf eq_refl Hi Hmax Ha) as (Hg & Hf2 & Hino2 & Hin2). set (ip' := set_isize _ din) in *.
  destruct Ha as (Hw & _ & [Hs1 Hs1'] & Hfr1). pose proof (w_ext _ _ _ _ _ _ _ _ _ _ Hw) as Hext. pose proof (w_disk _ _ _ _ _ _ _ _ _ _ Hw) as Hd1.
  pose proof (f_ok _ _ _ _ Hf) as (_ & Hok & _). fold ip in Hok.
  eapply wp_mono; [apply winode_run; done|]. intros _ s2 ([Hs2 Hs2'] & Hfr2 & Hv2).
  assert (Hother : forall j ty' bs', T !! j = Some (ty', bs') -> j <> i -> let jp := ino (view s) (Z.of_nat j + 1) in
    is_file (view s2) (Z.of_nat j + 1) ty' bs' /\ ino (view s2) (Z.of_nat j + 1) = jp /\ disjoint (view s2) ip' jp /\ (forall b, in_file (view s2) jp b <-> in_file (view s) jp b)).
  { intros j ty' bs' Hj Hne jp. pose proof (lookup_lt_Some _ _ _ Hj). assert (Hj' : 0 <= Z.of_nat j + 1 < ninodes) by lia.
    destruct (other_kept _ ip _ din _ ty' bs' Hext Kd Hd1 Hok Hj' (Kfile _ _ _ Hj)) as (O1 & O2 & O3 & O4); [apply Kdis; [done|done|congruence]|].
    destruct (put_kept _ ip' inum _ Hg Hd1 Hi (f_ok _ _ _ _ O1)) as (P1 & P2 & P3 & P4 & P5).
    assert (Hino : ino (put_inode ip' (view s1)) (Z.of_nat j + 1) = ino (view s1) (Z.of_nat j + 1)) by (apply (ino_put_other _ _ inum); [done|apply Hd1|lia]).
    rewrite Hv2. fold jp in O2, O4. rewrite Hino, O2. rewrite O2 in *. split_and!; [|done| |intros b; by rewrite P3, O4].
    - eapply is_file_ext; [exact O1|by rewrite Hino, O2|by rewrite O2|by rewrite O2|by rewrite O2| |]; rewrite O2; [intros; apply P4|done].
    - intros b Hb1%Hin2 Hb2%P3. by apply (O3 b). }
  constructor.
  - done.
  - rewrite length_insert. lia.
  - rewrite (total_insert _ _ _ _ _ _ HT), length_app, Nat2Z.inj_add. rewrite <- Hsz in *. lia.
  - rewrite Hv2. assert (Hi' := Hi). destruct Hg as (Ht & G1 & G2 & _). rewrite <- G2 in Hi'. apply (FsFile.put_inode_ok _ _ _ _ ip' Hd1 G1); [apply Ht|done].
  - intros j ty' bs'. destruct (decide (i = j)) as [<-|Hne]; [rewrite list_lookup_insert_eq by done; intros [= <- <-]; by rewrite Hv2|].
    rewrite list_lookup_insert_ne by done. intros Hj. apply Hother; [done|congruence].
  - intros j k. rewrite length_insert. intros Hj Hk Hjk. destruct (lookup_lt_is_Some_2 _ _ Hj) as [[t1 b1] HTj], (lookup_lt_is_Some_2 _ _ Hk) as [[t2 b2] HTk].
    destruct (decide (j = i)) as [->|Hji], (decide (k = i)) as [->|Hki]; [done|..].
    + destruct (Hother _ _ _ HTk Hki) as (_ & -> & O3 & _). fold inum. rewrite Hv2, Hino2, <- Hv2. done.
    + destruct (Hother _ _ _ HTj Hji) as (_ & -> & O3 & _). fold inum. rewrite Hv2, Hino2, <- Hv2. intros b H1 H2. by apply (O3 b).
    + destruct (Hother _ _ _ HTj Hji) as (_ & -> & _ & I1), (Hother _ _ _ HTk Hki) as (_ & -> & _ & I2). intros b H1%I1 H2%I2. by apply (Kdis j k Hj Hk Hjk b).
Qed.

(** ** New inodes *)

Definition empty_inode (inum ty : Z) : inode := Inode ROOTDEV inum 0 0 ty 0 0 1 0 (replicate 13 0).

Lemma empty_baddr d inum ty bn : baddr d (empty_inode inum ty) bn = 0.
Proof.
  assert (Ha : forall k, addr_at (empty_inode inum ty) k = 0).
  { intros k. unfold addr_at, empty_inode. cbn [i_addrs]. destruct (replicate 13 0 !! Z.to_nat k) as [v|] eqn:E; [|done]. by apply lookup_replicate in E as [-> _]. }
  unfold FsFile.baddr, ind. rewrite !Ha. by case_match.
Qed.

Lemma empty_in_file d inum ty b : ~ in_file d (empty_inode inum ty) b.
Proof. intros [Hne [->|(bn & _ & ->)]]; [done|]. by rewrite empty_baddr in Hne. Qed.

Lemma empty_good inum ty : is_short ty -> good inum (empty_inode inum ty).
Proof.
  intros Hty. unfold good, inode_typed, empty_inode. cbn [i_type i_major i_minor i_nlink i_size i_addrs i_dev i_inum i_ref i_flags].
  split_and!; try done. apply Forall_replicate. done.
Qed.

Lemma empty_is_file d inum ty :
  disk_ok d -> is_short ty -> ino d inum = empty_inode inum ty -> is_file d inum ty [].
Proof.
  intros Hd Hty E. constructor; rewrite E; try done.
  - by apply empty_good.
  - split; [done|]. split; [|split; [cbn; mk_lia|cbn; intros; mk_lia]].
    constructor; try done; try (intros; by rewrite empty_baddr in *).
    intros b Hb. by apply empty_in_file in Hb.
  - split_and!; [|done|]; intros ? _ Hne; by rewrite empty_baddr in Hne.
Qed.

Lemma ialloc_run s T ty :
  mk_ok s T -> Z.of_nat (length T) + 1 < ninodes -> 0 <= ty < 2 ^ 15 ->
  wp (ialloc ty) (fun inum s' => inum = Z.of_nat (length T) + 1 /\ mk_ok s' (T ++ [(ty, [])])) s.
Proof.
  intros [Kb [Ki1 Ki2] Kf Kd Kfile Kdis] Hlen Hty. unfold ialloc. apply wp_bind, wp_gets. rewrite Ki1. set (inum := Z.of_nat (length T) + 1) in *.
  assert (Hi : 0 <= inum < ninodes) by lia. rewrite (u32_small (inum + 1)) by mk_lia. apply wp_bind, wp_modify. rewrite (xshort_id ty), (xshort_id 1), (xint_id 0) by lia.
  fold (empty_inode inum ty). set (ip := empty_inode inum ty). set (s1 := set_freeinode (inum + 1) s).
  assert (Hg : good inum ip) by (apply empty_good; unfold is_short; lia).
  apply wp_bind. eapply wp_mono; [apply (winode_run s1); [exact Kb|done|done]|]. intros _ s2 ([Hs2 Hs2'] & Hf2 & Hv2). apply wp_ret. split; [done|].
  change (view s1) with (view s) in Hv2. pose proof Hg as ((_ & _ & _ & _ & _ & G6 & _) & G1 & G2 & _).
  assert (Hd2 : disk_ok (view s2)) by (rewrite Hv2; apply FsFile.put_inode_ok; try done; by rewrite G2).
  assert (Hnew : ino (view s2) inum = ip) by (rewrite Hv2; apply ino_put_same; [done|]; apply Kd).
  assert (Hold : forall i ty' bs', T !! i = Some (ty', bs') -> let jp := ino (view s) (Z.of_nat i + 1) in
    is_file (view s2) (Z.of_nat i + 1) ty' bs' /\ ino (view s2) (Z.of_nat i + 1) = jp /\ (forall b, in_file (view s2) jp b <-> in_file (view s) jp b)).
  { intros i ty' bs' HT jp. pose proof (lookup_lt_Some _ _ _ HT). destruct (put_kept _ ip inum jp Hg Kd Hi (f_ok _ _ _ _ (Kfile _ _ _ HT))) as (P1 & P2 & P3 & P4 & P5).
    assert (Hino : ino (put_inode ip (view s)) (Z.of_nat i + 1) = jp) by (apply (ino_put_other _ _ inum); [done|apply Kd|lia]).
    rewrite Hv2. split_and!; [|done|done]. eapply is_file_ext; [by apply Kfile|done|done|done|done|intros; apply P4|done]. }
  constructor.
  - done.
  - rewrite length_app. simpl. cbn in Hs2'. lia.
  - rewrite total_app. change (total [(ty, [])]) with 0. change (freeblock s1) with (freeblock s) in Hf2. lia.
  - done.
  - intros i ty' bs' [HT|[Hlt HT]]%lookup_app_Some; [by apply Hold|]. apply list_lookup_singleton_Some in HT as [Hi0 [= <- <-]].
    replace (Z.of_nat i + 1) with inum by lia. apply empty_is_file; [done|unfold is_short; lia|done].
  - intros i j. rewrite length_app. simpl. intros Hi' Hj Hij. destruct (decide (i = length T)) as [->|Hni]; [fold inum; rewrite Hnew; by intros b Hb%empty_in_file|].
    destruct (decide (j = length T)) as [->|Hnj]; [fold inum; rewrite Hnew; by intros b _ Hb%empty_in_file|].
    assert (Hi1 : (i < length T)%nat) by lia. assert (Hj1 : (j < length T)%nat) by lia.
    destruct (lookup_lt_is_Some_2 _ _ Hi1) as [[t1 b1] HTi], (lookup_lt_is_Some_2 _ _ Hj1) as [[t2 b2] HTj].
    destruct (Hold _ _ _ HTi) as (_ & -> & I1), (Hold _ _ _ HTj) as (_ & -> & I2). intros b H1%I1 H2%I2. by apply (Kdis i j Hi1 Hj1 Hij b).
Qed.

(** ** The files of the command line *)

(** The bytes that the reads give before the end of the file. *)
Fixpoint file_bytes (reads : list (list Z)) : list Z :=
  match reads with
  | [] | [] :: _ => []
  | buf :: reads => buf ++ file_bytes reads
  end.

Definition bytes_of (f : hostfile) : list Z := file_bytes (default [] (hf_reads f)).

(** The entry of a file in the root directory: at most 13 characters of the name. *)
Definition entry (inum : Z) (f : hostfile) : list Z := <[(2 + (DIRSIZ - 1))%nat := 0]> (dirent inum (stored_name (hf_name f))).

Definition root_bytes (fs : list hostfile) : list Z :=
  dirent ROOTINO [46] ++ dirent ROOTINO [46; 46] ++ mjoin (imap (fun k f => entry (Z.of_nat k + 2) f) fs).

(** The inodes from 1 on. *)
Definition table (fs : list hostfile) : list (Z * list Z) := (T_DIR, root_bytes fs) :: ((fun f => (T_FILE, bytes_of f)) <$> fs).

Lemma length_dirent inum name : length (dirent inum name) = 16%nat.
Proof. unfold dirent. by rewrite length_app, length_le_enc, length_resize. Qed.

Lemma length_root_bytes fs : length (root_bytes fs) = (16 * (length fs + 2))%nat.
Proof.
  unfold root_bytes. rewrite !length_app, !length_dirent.
  assert (H : forall (g : nat -> hostfile -> list Z), (forall k f, length (g k f) = 16%nat) -> length (mjoin (imap g fs)) = (16 * length fs)%nat).
  { induction fs as [|f fs IH]; intros g Hg; [done|]. rewrite imap_cons. change (length (g 0%nat f ++ mjoin (imap (g ∘ S) fs)) = (16 * S (length fs))%nat). rewrite length_app, Hg, (IH (g ∘ S)) by (intros; apply Hg). lia. }
  rewrite H; [lia|]. intros k f. unfold entry. by rewrite length_insert, length_dirent.
Qed.

Lemma root_bytes_snoc fs f : root_bytes (fs ++ [f]) = root_bytes fs ++ entry (Z.of_nat (length fs) + 2) f.
Proof. unfold root_bytes. rewrite imap_app, join_app, imap_cons. cbn [imap mjoin list_join]. rewrite app_nil_r, Nat.add_0_r. by rewrite <- !app_assoc. Qed.

Lemma table_snoc fs f : table (fs ++ [f]) = (T_DIR, root_bytes fs ++ entry (Z.of_nat (length fs) + 2) f) :: ((fun f => (T_FILE, bytes_of f)) <$> fs) ++ [(T_FILE, bytes_of f)].
Proof. unfold table. by rewrite root_bytes_snoc, fmap_app. Qed.

Lemma append_reads_run reads : forall s T i ty bs,
  mk_ok s T -> T !! i = Some (ty, bs) -> Z.of_nat (length bs) + Z.of_nat (length (file_bytes reads)) <= MAXFILE * BSIZE ->
  DATA + total (<[i := (ty, bs ++ file_bytes reads)]> T) <= 1024 ->
  wp (append_reads (Z.of_nat i + 1) reads) (fun _ s' => mk_ok s' (<[i := (ty, bs ++ file_bytes reads)]> T)) s.
Proof.
  induction reads as [|buf reads IH]; intros s T i ty bs Hok HT Hmax Hfit.
  - apply wp_ret. cbn [file_bytes]. rewrite app_nil_r. by rewrite list_insert_id.
  - destruct buf as [|c buf].
    { apply wp_ret. cbn [file_bytes]. rewrite app_nil_r. by rewrite list_insert_id. }
    cbn [append_reads file_bytes] in *. set (b := c :: buf) in *. pose proof (lookup_lt_Some _ _ _ HT) as Hlt.
    rewrite (total_insert _ _ _ _ _ _ HT), !length_app, !Nat2Z.inj_add in Hfit. rewrite length_app, Nat2Z.inj_add in Hmax.
    pose proof (nb_mono (Z.of_nat (length bs) + Z.of_nat (length b)) (Z.of_nat (length (file_bytes reads))) ltac:(lia) ltac:(lia)) as Hm.
    rewrite <- Z.add_assoc in Hm.
    apply wp_bind. eapply wp_mono; [apply (iappend_run s T i ty bs b); [done|done|lia|rewrite (total_insert _ _ _ _ _ _ HT), length_app, Nat2Z.inj_add; lia]|].
    intros [] s1 Hok1. eapply wp_mono; [apply (IH s1 (<[i := (ty, bs ++ b)]> T) i ty (bs ++ b)); [done|by rewrite list_lookup_insert_eq|rewrite length_app; lia|]|].
    + rewrite list_insert_insert_eq, (total_insert _ _ _ _ _ _ HT), !length_app, !Nat2Z.inj_add, <- Z.add_assoc. lia.
    + intros [] s2. rewrite list_insert_insert_eq, <- app_assoc. done.
Qed.

(** A file of the command line that can be copied. *)
Definition copyable (f : hostfile) : Prop :=
  existsb (Z.eqb SLASH) (hf_name f) = false /\ is_Some (hf_reads f) /\ Z.of_nat (length (bytes_of f)) <= MAXFILE * BSIZE.

Lemma add_file_run s pre f :
  mk_ok s (table pre) -> copyable f -> Z.of_nat (length pre) + 2 < ninodes -> DATA + total (table (pre ++ [f])) <= 1024 ->
  wp (add_file ROOTINO f) (fun _ s' => mk_ok s' (table (pre ++ [f]))) s.
Proof.
  intros Hok (Hn & [reads Hr] & Hmax) Hlen Hfit. unfold add_file. rewrite Hn. apply wp_bind. cbn [negb assert_]. apply wp_ret. rewrite Hr.
  assert (HT : length (table pre) = S (length pre)) by (unfold table; cbn [length]; by rewrite length_fmap).
  assert (Hbytes : bytes_of f = file_bytes reads) by (unfold bytes_of; by rewrite Hr). rewrite table_snoc in Hfit |- *. rewrite Hbytes in *.
  set (F := (fun f => (T_FILE, bytes_of f)) <$> pre) in *. set (e := entry (Z.of_nat (length pre) + 2) f) in *.
  assert (He : length e = 16%nat) by (unfold e, entry; by rewrite length_insert, length_dirent).
  apply wp_bind. eapply wp_mono; [apply ialloc_run; [done|rewrite HT; lia|done]|]. intros inum s1 [-> Hok1]. rewrite HT in *.
  replace (Z.of_nat (S (length pre)) + 1) with (Z.of_nat (length pre) + 2) by lia. fold (entry (Z.of_nat (length pre) + 2) f). fold e.
  assert (HF : length F = length pre) by (unfold F; by rewrite length_fmap).
  pose proof (length_root_bytes pre) as Hroot. rewrite total_cons, total_app, total_cons in Hfit. cbn [snd] in Hfit.
  set (T2 := (T_DIR, root_bytes pre ++ e) :: F ++ [(T_FILE, [])]).
  assert (Hpos : 0 <= nb (Z.of_nat (length (file_bytes reads)))) by (apply nb_nonneg; lia).
  apply wp_bind. eapply wp_mono.
  { apply (iappend_run s1 ((T_DIR, root_bytes pre) :: F ++ [(T_FILE, [])]) 0 T_DIR (root_bytes pre) e Hok1 eq_refl); [rewrite Hroot, He; mk_lia|].
    cbn [insert list_insert]. rewrite total_cons, total_app, total_cons. change (nb (Z.of_nat (length (T_FILE, @nil Z).2))) with 0. cbn [snd]. lia. }
  intros [] s2 Hok2. change (mk_ok s2 T2) in Hok2.
  assert (Hlast : T2 !! S (length pre) = Some (T_FILE, [])) by (change ((F ++ [(T_FILE, [])]) !! length pre = Some (T_FILE, @nil Z)); rewrite lookup_app_r, HF, Nat.sub_diag by lia; done).
  assert (Hins : <[S (length pre) := (T_FILE, [] ++ file_bytes reads)]> T2 = (T_DIR, root_bytes pre ++ e) :: F ++ [(T_FILE, file_bytes reads)]).
  { change (<[S (length pre) := ?x]> T2) with ((T_DIR, root_bytes pre ++ e) :: <[length pre := x]> (F ++ [(T_FILE, [])])).
    by rewrite insert_app_r_alt, HF, Nat.sub_diag by lia. }
  eapply wp_mono; [replace (Z.of_nat (length pre) + 2) with (Z.of_nat (S (length pre)) + 1) by lia; apply (append_reads_run reads s2 T2 _ T_FILE []); [done|done|cbn [length]; lia|]|].
  - rewrite Hins, total_cons, total_app, total_cons. cbn [snd]. lia.
  - intros [] s3. by rewrite Hins.
Qed.

Lemma total_nonneg T : 0 <= total T.
Proof. induction T as [|e T IH]; [done|]. rewrite total_cons. pose proof (nb_nonneg (Z.of_nat (length e.2)) ltac:(lia)). lia. Qed.

Lemma total_table_app fs fs' : total (table fs) <= total (table (fs ++ fs')).
Proof.
  induction fs' as [|f fs' IH] using rev_ind; [by rewrite app_nil_r|]. etrans; [exact IH|]. rewrite app_assoc. set (l := fs ++ fs').
  rewrite table_snoc. unfold table at 1. rewrite !total_cons, total_app, total_cons. cbn [snd]. rewrite length_app, Nat2Z.inj_add.
  pose proof (nb_mono (Z.of_nat (length (root_bytes l))) (Z.of_nat (length (entry (Z.of_nat (length l) + 2) f))) ltac:(lia) ltac:(lia)).
  pose proof (total_nonneg [(T_FILE, bytes_of f)]) as H0. rewrite total_cons in H0. cbn [snd] in H0. change (total []) with 0 in *. lia.
Qed.

Lemma add_files_run fs : forall s pre,
  mk_ok s (table pre) -> Forall copyable fs -> Z.of_nat (length (pre ++ fs)) + 1 < ninodes -> DATA + total (table (pre ++ fs)) <= 1024 ->
  wp (add_files ROOTINO fs) (fun _ s' => mk_ok s' (table (pre ++ fs))) s.
Proof.
  induction fs as [|f fs IH]; intros s pre Hok Hc Hlen Hfit; cbn [add_files].
  - apply wp_ret. by rewrite app_nil_r.
  - apply Forall_cons in Hc as [Hf Hc]. rewrite (cons_middle f pre fs), app_assoc in Hfit |- *. rewrite length_app in Hlen. cbn [length] in Hlen.
    pose proof (total_table_app (pre ++ [f]) fs). apply wp_bind. eapply wp_mono; [apply (add_file_run s pre f); [done|done|lia|lia]|].
    intros [] s1 Hok1. apply IH; [done|done|rewrite !length_app; cbn [length]; lia|done].
Qed.

(** ** The whole program *)

Lemma wipe_run n s :
  (forall k, blk (img s) k = zero_block) -> nsect s = 0 -> 0 <= n ->
  wp (wipe n) (fun _ s' => (forall k, blk (img s') k = zero_block) /\ nsect s' = n /\ freeblock s' = freeblock s /\ usedblocks s' = usedblocks s /\ freeinode s' = freeinode s) s.
Proof.
  intros H0 Hn Hpos. unfold wipe.
  apply (wp_loop (fun i s' => 0 <= i <= n /\ (forall k, blk (img s') k = zero_block) /\ nsect s' = i /\ freeblock s' = freeblock s /\ usedblocks s' = usedblocks s /\ freeinode s' = freeinode s)
    (fun i _ => Z.to_nat (n - i))); [|split_and!; (done || lia)|lia].
  intros i s' (Hi & Hb & Hs & H1 & H2 & H3). apply wp_if; intros Hc.
  - unfold wsect. repeat wp_step. unfold set_img. cbn [img nsect freeblock usedblocks freeinode]. split; [|lia]. split_and!; try lia; try done.
    intros k. destruct (decide (sector i = k)) as [<-|Hne]; [by rewrite blk_insert|by rewrite blk_insert_ne].
  - apply wp_ret. split_and!; try done. lia.
Qed.

Lemma length_superblock : length superblock_bytes = BLEN.
Proof. done. Qed.

Lemma sb_view d : blk d (sector 1) = superblock_bytes -> sb_of d ROOTDEV = Superblock 1024 995 200.
Proof. unfold sector. intros E. unfold sb_of. rewrite E. by vm_compute. Qed.

(** The image with its superblock only. *)
Lemma fresh_ok s :
  nsect s = 1024 -> freeblock s = DATA -> usedblocks s = DATA -> freeinode s = 1 ->
  blk (img s) (sector 1) = superblock_bytes -> (forall k, k <> sector 1 -> blk (img s) k = zero_block) -> mk_ok s [].
Proof.
  intros H1 H2 H3 H4 Hsb Hz. assert (Hb : basics s) by (unfold basics; mk_lia).
  assert (Hl : forall k, length (blk (view s) k) = BLEN).
  { intros k. unfold view, fin. destruct (decide (sector BITMAP = k)) as [<-|Hne]; [rewrite blk_insert; apply length_set_bits|]. rewrite blk_insert_ne by done.
    destruct (decide (k = sector 1)) as [->|Hne1]; [by rewrite Hsb|]. by rewrite Hz. }
  constructor; [done|by rewrite H4|by rewrite H2| |done|intros i j Hi; simpl in Hi; lia].
  split; [|split; [done|split]].
  - assert (Hs1 : sb_of (view s) ROOTDEV = Superblock 1024 995 200) by (apply sb_view; unfold view; by rewrite blk_fin by mk_lia).
    constructor; rewrite ?Hs1; try done; unfold ROOTDEV, size, ninodes; lia || done.
  - intros b Hb'. rewrite datastart_is in Hb'. rewrite bit_view by (done || mk_lia). lia.
  - intros b Hb' Hf. rewrite bit_view in Hf by (done || mk_lia). change (ROOTDEV, b) with (sector b). unfold view. rewrite blk_fin by mk_lia. apply Hz. intros [= ->]. mk_lia.
Qed.

(** The fix of the size changes only the size of the root's inode. *)
Lemma fix_root_run s T bs :
  mk_ok s T -> T !! 0%nat = Some (T_DIR, bs) ->
  wp (fix_root ROOTINO) (fun _ s' => same_rest s s' /\ freeblock s' = freeblock s /\
    view s' = put_inode (set_isize ((Z.of_nat (length bs) / BSIZE + 1) * BSIZE) (ino (view s) ROOTINO)) (view s)) s.
Proof.
  intros Hok HT. pose proof (k_file _ _ Hok _ _ _ HT) as Hf. change (Z.of_nat 0 + 1) with ROOTINO in Hf. pose proof (size_is _ _ _ _ Hf) as Hs.
  pose proof (f_ok _ _ _ _ Hf) as (_ & _ & Hmax & _). destruct (f_good _ _ _ _ Hf) as ((T1 & T2 & T3 & T4 & T5 & T6 & T7) & G).
  unfold fix_root. apply wp_bind, rinode_run; [apply (k_basics _ _ Hok)|done|]. rewrite Hs in *.
  rewrite (xint_id (Z.of_nat (length bs))), xint_id by mk_lia. eapply wp_mono; [apply winode_run; [apply (k_basics _ _ Hok)|done|]|done].
  unfold good, inode_typed. cbn [i_type i_major i_minor i_nlink i_size i_addrs i_dev i_inum i_ref i_flags set_isize]. unfold is_uint. split_and!; try done; try apply G; mk_lia.
Qed.

Lemma inode_ok_size d ip n : inode_ok d ip -> inode_ok d (set_isize n ip).
Proof. by intros []. Qed.

(** The root directory: its entries, and zeroes up to the size it is given. *)
Definition is_root (d : sectors) (bs : list Z) : Prop :=
  let ip := ino d ROOTINO in
  let n := Z.of_nat (length bs) in
  inode_ok d ip /\ i_type ip = T_DIR /\ i_nlink ip = 1 /\ i_size ip = (n / BSIZE + 1) * BSIZE /\ take (length bs) (content d ip) = bs /\
  (n mod BSIZE <> 0 -> file_ok d ip /\ content d ip = bs ++ replicate (Z.to_nat (i_size ip - n)) 0) /\
  (n mod BSIZE = 0 -> baddr d ip (n / BSIZE) = 0).

Lemma content_prefix d ip n m : 0 <= n <= m -> take (Z.to_nat n) (content d (set_isize m ip)) = content d (set_isize n ip).
Proof.
  intros H. unfold FsFile.content. cbn [i_size set_isize]. rewrite <- fmap_take. f_equal. apply list_eq. intros k.
  destruct (decide (k < Z.to_nat n)%nat); [rewrite lookup_take_lt, !lookup_seqZ_lt by lia; done|].
  rewrite lookup_take_ge, lookup_seqZ_ge by lia. done.
Qed.

Lemma root_fixed d bs :
  disk_ok d -> is_file d ROOTINO T_DIR bs -> Z.of_nat (length bs) + BSIZE <= MAXFILE * BSIZE ->
  is_root (put_inode (set_isize ((Z.of_nat (length bs) / BSIZE + 1) * BSIZE) (ino d ROOTINO)) d) bs.
Proof.
  intros Hd Hf Hmax. pose proof (size_is _ _ _ _ Hf) as Hs. pose proof (f_ok _ _ _ _ Hf) as Hok. pose proof (f_exact _ _ _ _ Hf) as (E1 & E2 & E3).
  set (ip := ino d ROOTINO) in *. set (n := Z.of_nat (length bs)) in *. set (m := (n / BSIZE + 1) * BSIZE). set (ip' := set_isize m ip). set (d' := put_inode ip' d).
  assert (Hm : n < m <= n + BSIZE) by (unfold m, n; mk_lia).
  assert (Hg : good ROOTINO ip').
  { pose proof (f_good _ _ _ _ Hf) as ((T1 & T2 & T3 & T4 & T5 & T6 & T7) & G1 & G2 & G3 & G4). unfold good, inode_typed, ip'.
    cbn [i_type i_major i_minor i_nlink i_size i_addrs i_dev i_inum i_ref i_flags set_isize]. unfold is_uint. split_and!; try done; change (MAXFILE * BSIZE) with 71680 in *; lia. }
  destruct (put_kept d ip' ROOTINO ip Hg Hd ltac:(done) Hok) as (P1 & P2 & P3 & P4 & P5). fold d' in P1, P2, P3, P4, P5.
  assert (Hino : ino d' ROOTINO = ip') by (apply ino_put_same; [done|apply Hd]). unfold is_root. rewrite Hino. fold n m.
  pose proof Hok as (_ & _ & _ & Hmap). pose proof P1 as (Hd' & Hok' & _).
  assert (Htake : take (length bs) (content d' ip') = bs).
  { replace (length bs) with (Z.to_nat n) by lia. unfold ip'. rewrite content_prefix by lia. rewrite <- (f_bytes _ _ _ _ Hf). fold ip. rewrite <- P2, <- Hs.
    by destruct ip. }
  split_and!; [by apply inode_ok_size|apply (f_type _ _ _ _ Hf)|apply (f_nlink _ _ _ _ Hf)|done|done| |].
  - intros Hmod. assert (Hin : forall bn, 0 <= bn -> bn * BSIZE < m -> baddr d' ip bn <> 0).
    { intros bn H0 Hlt. rewrite P4. apply Hmap; [done|]. rewrite Hs. fold n. unfold m in Hlt. mk_lia. }
    split; [split; [done|]; split; [by apply inode_ok_size|]; split; [cbn [i_size ip' set_isize]; change (MAXFILE * BSIZE) with 71680 in *; lia|exact Hin]|].
    rewrite <- Htake at 1. rewrite <- (take_drop (length bs) (content d' ip')) at 1. f_equal. cbn [i_size ip' set_isize]. apply list_eq. intros k. rewrite lookup_drop.
    replace (length bs + k)%nat with (Z.to_nat (n + Z.of_nat k)) by lia. rewrite FsFile.lookup_content by lia. cbn [i_size ip' set_isize].
    destruct (Z.ltb_spec (n + Z.of_nat k) m) as [Hlt|Hge]; [|symmetry; apply lookup_replicate_None; lia].
    rewrite lookup_replicate_2 by lia. f_equal. set (o := n + Z.of_nat k) in *. change (fbyte d' ip' o) with (fbyte d' ip o).
    assert (Hb : baddr d ip (o / BSIZE) <> 0) by (rewrite <- P4; apply Hin; unfold o in *; mk_lia).
    rewrite P5 by (done || (unfold o, m in *; change (MAXFILE * BSIZE) with 71680 in *; lia)). apply E3; [rewrite Hs; fold n; unfold o, m in *; change (MAXFILE * BSIZE) with 71680 in *; lia|done].
  - intros Hmod. change (baddr d' ip' (n / BSIZE)) with (baddr d' ip (n / BSIZE)). rewrite P4. destruct (decide (baddr d ip (n / BSIZE) = 0)) as [|Hne]; [done|].
    pose proof (E1 (n / BSIZE) ltac:(unfold n in *; mk_lia) Hne). rewrite Hs in *. fold n in H. mk_lia.
Qed.

(** The files that [main] is given can be copied and there is room for them. *)
Definition fits (fs : list hostfile) : Prop :=
  Forall copyable fs /\ Z.of_nat (length fs) + 1 < ninodes /\ DATA + total (table fs) <= size.

(** The image has the files of the command line, and no two share a block. *)
Definition has_files (d : sectors) (fs : list hostfile) : Prop :=
  (forall k f, fs !! k = Some f -> is_file d (Z.of_nat k + 2) T_FILE (bytes_of f)) /\
  (forall i j, (i <= length fs)%nat -> (j <= length fs)%nat -> i <> j -> disjoint d (ino d (Z.of_nat i + 1)) (ino d (Z.of_nat j + 1))).

Lemma image_done s fs :
  mk_ok s (table fs) -> Z.of_nat (length fs) + 1 < ninodes ->
  let d := put_inode (set_isize ((Z.of_nat (length (root_bytes fs)) / BSIZE + 1) * BSIZE) (ino (view s) ROOTINO)) (view s) in
  disk_ok d /\ has_files d fs /\ is_root d (root_bytes fs).
Proof.
  intros [Kb _ _ Kd Kfile Kdis] Hlen d. pose proof (Kfile 0%nat _ _ eq_refl) as Hroot. change (Z.of_nat 0 + 1) with ROOTINO in Hroot.
  assert (Hrl : length (root_bytes fs) = (16 * (length fs + 2))%nat) by apply length_root_bytes.
  assert (HR : is_root d (root_bytes fs)) by (apply root_fixed; [done|done|rewrite Hrl; mk_lia]).
  set (ip' := set_isize _ _) in d. assert (Hg : good ROOTINO ip').
  { pose proof (f_good _ _ _ _ Hroot) as ((T1 & T2 & T3 & T4 & T5 & T6 & T7) & G1 & G2 & G3 & G4). unfold good, inode_typed, ip'.
    cbn [i_type i_major i_minor i_nlink i_size i_addrs i_dev i_inum i_ref i_flags set_isize]. unfold is_uint. rewrite Hrl. split_and!; try done; mk_lia. }
  assert (HT : length (table fs) = S (length fs)) by (unfold table; cbn [length]; by rewrite length_fmap).
  assert (Hkeep : forall i ty bs, table fs !! i = Some (ty, bs) -> file_ok d (ino (view s) (Z.of_nat i + 1)) /\
    (forall b, in_file d (ino d (Z.of_nat i + 1)) b <-> in_file (view s) (ino (view s) (Z.of_nat i + 1)) b) /\ ((0 < i)%nat -> is_file d (Z.of_nat i + 1) ty bs)).
  { intros i ty bs Hi. pose proof (Kfile _ _ _ Hi) as Hf. destruct (put_kept _ ip' ROOTINO _ Hg Kd ltac:(done) (f_ok _ _ _ _ Hf)) as (P1 & P2 & P3 & P4 & P5).
    fold d in P1, P2, P3, P4, P5. split; [done|]. destruct i as [|i].
    - split; [|lia]. change (Z.of_nat 0 + 1) with ROOTINO in *. replace (ino d ROOTINO) with ip' by (symmetry; apply ino_put_same; [done|apply Kd]). exact P3.
    - assert (Hino : ino d (Z.of_nat (S i) + 1) = ino (view s) (Z.of_nat (S i) + 1)) by (apply (ino_put_other _ _ ROOTINO); [done|apply Kd|unfold ROOTINO; lia]).
      split; [by rewrite Hino|]. intros _. by eapply is_file_ext. }
  destruct (Hkeep 0%nat _ _ eq_refl) as [(Hd & _) _]. split; [exact Hd|]. split; [|exact HR]. split.
  - intros k f Hk. destruct (Hkeep (S k) T_FILE (bytes_of f)) as (_ & _ & H); [change (((fun f => (T_FILE, bytes_of f)) <$> fs) !! k = Some (T_FILE, bytes_of f)); by rewrite list_lookup_fmap, Hk|].
    replace (Z.of_nat k + 2) with (Z.of_nat (S k) + 1) by lia. apply H. lia.
  - intros i j Hi Hj Hij. assert (Hi' : (i < length (table fs))%nat) by lia. assert (Hj' : (j < length (table fs))%nat) by lia.
    destruct (lookup_lt_is_Some_2 _ _ Hi') as [[t1 b1] H1], (lookup_lt_is_Some_2 _ _ Hj') as [[t2 b2] H2].
    destruct (Hkeep _ _ _ H1) as (_ & I1 & _), (Hkeep _ _ _ H2) as (_ & I2 & _). intros b Hb1%I1 Hb2%I2. by apply (Kdis i j Hi' Hj' Hij b).
Qed.

Lemma main_run fs : fits fs -> wp (main true fs) (fun _ s => disk_ok (img s) /\ has_files (img s) fs /\ is_root (img s) (root_bytes fs)) mk0.
Proof.
  intros (Hc & Hlen & Hfit). unfold main. cbn [negb]. apply wp_bind, wp_modify. apply wp_bind. cbn [assert_]. apply wp_ret, wp_bind.
  eapply wp_mono; [apply wipe_run; [done|done|done]|]. intros [] s1 (Z1 & N1 & F1 & U1 & I1). apply wp_bind, wp_modify.
  set (s2 := set_img _ _ s1). assert (Hok2 : mk_ok s2 []).
  { apply fresh_ok; unfold s2, set_img; cbn [img nsect freeblock usedblocks freeinode]; [rewrite N1; done|by rewrite F1|by rewrite U1|by rewrite I1|by rewrite blk_insert|].
    intros k Hk. by rewrite blk_insert_ne. }
  apply wp_bind. eapply wp_mono; [apply (ialloc_run s2 [] T_DIR); [done|done|done]|]. intros inum s3 [-> Hok3]. apply wp_bind, wp_ret.
  change (Z.of_nat (length []) + 1) with ROOTINO. change ([] ++ [(T_DIR, [])]) with [(T_DIR, @nil Z)] in Hok3.
  apply wp_bind. eapply wp_mono; [apply (iappend_run s3 [(T_DIR, [])] 0 T_DIR [] (dirent ROOTINO [46])); [exact Hok3|done|by vm_compute|by vm_compute]|]. intros [] s4 Hok4.
  apply wp_bind. eapply wp_mono; [apply (iappend_run s4 [(T_DIR, dirent ROOTINO [46])] 0 T_DIR (dirent ROOTINO [46]) (dirent ROOTINO [46; 46])); [exact Hok4|done|by vm_compute|by vm_compute]|]. intros [] s5 Hok5.
  change (mk_ok s5 (table [])) in Hok5. apply wp_bind. eapply wp_mono; [apply (add_files_run fs s5 []); [done|done|done|done]|]. intros [] s6 Hok6. cbn [app] in Hok6.
  apply wp_bind. eapply wp_mono; [apply (fix_root_run s6 (table fs) (root_bytes fs)); [done|done]|]. intros [] s7 ([(N7 & U7 & B7) _] & F7 & V7).
  apply wp_bind, wp_gets. unfold balloc, assert_. rewrite U7. replace (freeblock s7 <? 512 * 8) with true by mk_lia. apply wp_bind, wp_ret. unfold wsect. apply wp_modify.
  unfold set_img. cbn [img]. change (<[sector (ninodes / IPB + 3) := _]> (img s7)) with (view s7). rewrite V7. by apply image_done.
Qed.

(** C33: mkfs makes a file system.  Given files that can be read, are not too large
    and fit on the disk, mkfs succeeds; on the image it leaves, the superblock,
    the bitmap and the blocks are as the kernel's invariants require, inode
    [k + 2] is a file with the bytes of the [k]-th file, the files share no
    blocks, and the root directory has an entry for each of them. *)
Theorem mkfs_makes_file_system fs :
  fits fs -> exists s, main true fs mk0 = Ok tt s /\ disk_ok (img s) /\ has_files (img s) fs /\ is_root (img s) (root_bytes fs).
Proof. intros Hf. destruct (wp_elim _ _ _ (main_run fs Hf)) as ([] & s & Hs & HQ). exists s. split; [exact Hs|exact HQ]. Qed.

(** ** An example *)

Definition demo_hostfiles : list hostfile :=
  [HostFile [95; 97] (Some [[104; 105]; [33]]); HostFile [98] (Some [replicate 512 7; replicate 100 8])].

Lemma mkfs_makes_file_system_witness :
  exists s, main true demo_hostfiles mk0 = Ok tt s /\ content (img s) (ino (img s) 2) = [104; 105; 33] /\
    content (img s) (ino (img s) 3) = replicate 512 7 ++ replicate 100 8 /\ is_root (img s) (root_bytes demo_hostfiles).
Proof.
  destruct (mkfs_makes_file_system demo_hostfiles) as (s & Hs & _ & [Hf _] & Hr).
  - split; [repeat constructor; (vm_compute; done) || eauto|]. split; vm_compute; (done || discriminate).
  - exists s. split; [exact Hs|]. split; [exact (f_bytes _ _ _ _ (Hf 0%nat _ eq_refl))|]. split; [exact (f_bytes _ _ _ _ (Hf 1%nat _ eq_refl))|exact Hr].
Defined.
