(* ===== verification/MkfsTree.v ===== *)
(** * The kernel on the image that mkfs makes

    [mkfs.c] lays out the disk and [fs.c] reads it, each with its own code for
    inodes, blocks and directory entries.  Here they meet: the root directory
    that mkfs writes is, to the kernel, a directory with an entry for every
    file, and a path to a file leads the kernel to its bytes. *)

From stdpp Require Import base numbers strings list gmap list_numbers.
From Stdlib Require Import Lia ZArith ZifyBool.
From S2P Require Import Prelude CString Ide BlockDev Fs FsAlloc DemoDisk FsInode FsFile FsDir Mkfs MkfsCorrect.
Open Scope Z_scope.

(** The name a file of the command line gets: at most 13 characters. *)
Definition file_name (f : hostfile) : list Z := take (DIRSIZ - 1) (stored_name (hf_name f)).

(** Names that the kernel can tell apart. *)
Definition nameable (fs : list hostfile) : Prop :=
  Forall (fun f => is_path (hf_name f)) fs /\ NoDup ([[46]; [46; 46]] ++ (file_name <$> fs)) /\
  Forall (fun f => file_name f <> []) fs.

(** mkfs rounds the size of the root directory up to a block, and one block
    too many when the entries fill their blocks: the last one has no storage. *)
Definition root_mapped (fs : list hostfile) : Prop := ((length fs + 2) mod 32 <> 0)%nat.

(** ** The entries of the root directory *)

Lemma dirents_one n nm : 0 <= n < 65536 -> length nm = DIRSIZ -> dirents (le_enc 2 n ++ nm) = [(n, name_of nm)].
Proof.
  intros Hn Hl. unfold dirents. rewrite length_app, length_le_enc, Hl. change ((2 + DIRSIZ) / DIRENT)%nat with 1%nat.
  cbn [seq fmap list_fmap]. unfold de_inum, de_name, ldw. change (DIRENT * 0)%nat with 0%nat.
  rewrite slice_app_l, slice_app_r by (rewrite length_le_enc; lia). rewrite length_le_enc. unfold slice. rewrite !drop_0.
  rewrite (take_ge (le_enc 2 n)) by (rewrite length_le_enc; lia). rewrite take_ge by lia. rewrite le_dec_enc, Z.mod_small by (simpl; lia). done.
Qed.

Lemma dirent_entry inum nm : 0 <= inum < 65536 -> dirents (dirent inum nm) = [(inum, name_of (resize DIRSIZ 0 nm))].
Proof. intros Hi. unfold dirent. rewrite xshort_id by lia. apply dirents_one; [lia|apply length_resize]. Qed.

Lemma name_of_cut nm :
  Forall (fun c => c <> 0) nm -> name_of (<[(DIRSIZ - 1)%nat := 0]> (resize DIRSIZ 0 nm)) = take (DIRSIZ - 1) nm.
Proof.
  intros Hnz. replace (<[(DIRSIZ - 1)%nat := 0]> (resize DIRSIZ 0 nm)) with (padded DIRSIZ (take (DIRSIZ - 1) nm)).
  { apply cstrn_padded; [rewrite length_take; lia|by apply Forall_take]. }
  unfold padded. apply list_eq. intros i. destruct (decide (i < DIRSIZ)%nat) as [Hi|Hi].
  - destruct (decide (i = DIRSIZ - 1)%nat) as [->|Hne].
    + rewrite list_lookup_insert_eq by (rewrite length_resize; unfold DIRSIZ; lia).
      rewrite lookup_app_r by (rewrite length_take; lia). apply lookup_replicate_2. rewrite length_take. unfold DIRSIZ. lia.
    + rewrite list_lookup_insert_ne by done. destruct (decide (i < length nm)%nat).
      * rewrite lookup_app_l by (rewrite length_take; lia). by rewrite lookup_take_lt, lookup_resize by lia.
      * rewrite lookup_app_r by (rewrite length_take; lia). rewrite lookup_resize_new by lia. apply lookup_replicate_2. rewrite length_take. lia.
  - rewrite !lookup_ge_None_2; [done|rewrite length_insert, length_resize; lia|]. rewrite length_app, length_replicate, length_take. lia.
Qed.

Lemma file_entry inum f :
  0 <= inum < 65536 -> is_path (hf_name f) -> dirents (entry inum f) = [(inum, file_name f)].
Proof.
  intros Hi Hp. unfold entry, dirent. rewrite xshort_id by lia.
  rewrite insert_app_r_alt by (rewrite length_le_enc; lia). rewrite length_le_enc. change (2 + (DIRSIZ - 1) - 2)%nat with (DIRSIZ - 1)%nat.
  rewrite dirents_one by (lia || by rewrite length_insert, length_resize). unfold file_name. rewrite name_of_cut; [done|].
  assert (Hnz : Forall (fun c => c <> 0) (hf_name f)) by (eapply Forall_impl; [exact Hp|]; intros c Hc; cbv beta in *; lia).
  unfold stored_name. destruct (hf_name f) as [|c r]; [done|]. destruct (c =? 95); [by apply Forall_cons in Hnz as [_ ?]|done].
Qed.

Lemma le_dec_zeros n : le_dec (replicate n 0) = 0.
Proof. induction n as [|n IH]; [done|]. cbn [replicate le_dec]. by rewrite IH. Qed.

Lemma name_of_zeros n : name_of (replicate n 0) = [].
Proof. unfold name_of. cbn [cstrn DIRSIZ]. unfold CString.view. by destruct n. Qed.

Lemma dirents_zero n : exists m, dirents (replicate n 0) = replicate m (0, []).
Proof.
  exists (n / DIRENT)%nat. unfold dirents. rewrite length_replicate. generalize (n / DIRENT)%nat. intros m.
  apply list_eq. intros i. rewrite list_lookup_fmap. destruct (decide (i < m)%nat) as [Hi|Hi].
  - rewrite lookup_seq_lt, lookup_replicate_2 by done. cbn [fmap option_fmap option_map]. unfold de_inum, de_name, ldw, slice.
    rewrite !drop_replicate, !take_replicate. by rewrite le_dec_zeros, name_of_zeros.
  - rewrite lookup_seq_ge, lookup_ge_None_2; [done|rewrite length_replicate; lia|lia].
Qed.

(** The entries mkfs writes. *)
Definition root_entries (fs : list hostfile) : list (Z * list Z) :=
  [(ROOTINO, [46]); (ROOTINO, [46; 46])] ++ imap (fun k f => (Z.of_nat k + 2, file_name f)) fs.

Lemma dirents_root_bytes fs :
  Forall (fun f => is_path (hf_name f)) fs -> Z.of_nat (length fs) + 2 < 65536 -> dirents (root_bytes fs) = root_entries fs.
Proof.
  induction fs as [|f fs IH] using rev_ind; intros Hp Hl; [by vm_compute|].
  apply Forall_app in Hp as [Hp [Hf _]%Forall_cons]. rewrite length_app in Hl. cbn [length] in Hl.
  rewrite root_bytes_snoc, (dirents_app _ _ (length fs + 2)) by (by rewrite length_root_bytes).
  rewrite IH, file_entry by (done || lia). unfold root_entries. rewrite imap_app, <- !app_assoc. cbn [imap]. by rewrite Nat.add_0_r.
Qed.

Lemma bytes_root fs : Forall (fun f => is_path (hf_name f)) fs -> bytes (root_bytes fs).
Proof.
  assert (Hde : forall inum nm, bytes nm -> bytes (dirent inum nm)).
  { intros inum nm Hn. unfold dirent. apply Forall_app. split; [apply bytes_le_enc|]. apply Forall_resize; [unfold is_byte; lia|done]. }
  induction fs as [|f fs IH] using rev_ind; intros Hp.
  - unfold root_bytes. cbn [imap mjoin list_join]. rewrite app_nil_r. apply Forall_app. split; apply Hde; unfold bytes, is_byte; by apply (bool_decide_unpack _).
  - apply Forall_app in Hp as [Hp [Hf _]%Forall_cons]. rewrite root_bytes_snoc. apply Forall_app. split; [by apply IH|].
    unfold entry. apply Forall_insert; [|unfold is_byte; lia]. apply Hde. assert (Hn : bytes (hf_name f)) by (eapply Forall_impl; [exact Hf|]; intros c Hc; cbv beta in *; unfold is_byte; lia).
    unfold stored_name. destruct (hf_name f) as [|c r]; [done|]. destruct (c =? 95); [by apply Forall_cons in Hn as [_ ?]|done].
Qed.

Lemma file_name_path f : copyable f -> is_path (hf_name f) -> is_path (file_name f) /\ SLASH ∉ file_name f.
Proof.
  intros (Hs & _) Hp. assert (Hn : is_path (stored_name (hf_name f)) /\ SLASH ∉ stored_name (hf_name f)).
  { assert (Hns : SLASH ∉ hf_name f).
    { intros Hin%list_elem_of_In. assert (existsb (Z.eqb SLASH) (hf_name f) = true) by (apply existsb_exists; exists SLASH; by split). congruence. }
    unfold stored_name. destruct (hf_name f) as [|c r]; [done|]. destruct (c =? 95); [|done].
    apply Forall_cons in Hp as [_ Hp]. split; [done|]. set_solver. }
  destruct Hn as [H1 H2]. unfold file_name. split; [by apply Forall_take|].
  intros [i [Hi _]%lookup_take_Some]%list_elem_of_lookup. apply H2. by eapply list_elem_of_lookup_2.
Qed.

Section Image.
Context (fs : list hostfile) (d : sectors).
Context (Hnames : nameable fs) (Hmapped : root_mapped fs) (Hlen : Z.of_nat (length fs) + 1 < ninodes).
Context (Hd : disk_ok d) (Hfiles : has_files d fs) (Hroot : is_root d (root_bytes fs)).

(** The root directory as the kernel reads it. *)
Lemma root_is_dir :
  i_type (on_disk d ROOTINO) = T_DIR /\ i_nlink (on_disk d ROOTINO) = 1 /\ file_ok d (on_disk d ROOTINO) /\
  bytes (dir_bytes d (on_disk d ROOTINO)) /\
  exists m, dirents (dir_bytes d (on_disk d ROOTINO)) = root_entries fs ++ replicate m (0, []).
Proof using Hnames Hmapped Hlen Hroot.
  change (on_disk d ROOTINO) with (ino d ROOTINO). destruct Hroot as (_ & Hty & Hnl & Hsz & _ & Hin & _). destruct Hnames as (Hp & _ & _).
  rewrite length_root_bytes in Hsz, Hin. destruct Hin as [Hf Hc].
  { unfold root_mapped in Hmapped. intros E. apply Hmapped. change BSIZE with 512 in E.
    apply Nat2Z.inj. rewrite Nat2Z.inj_mod. rewrite Nat2Z.inj_mul in E. Z.div_mod_to_equations. lia. }
  set (ip := ino d ROOTINO) in *. set (q := Z.of_nat (16 * (length fs + 2)) / BSIZE + 1) in *.
  assert (Hdb : dir_bytes d ip = content d ip).
  { unfold dir_bytes, content, FsDir.nblocks. rewrite Hsz. do 2 f_equal. fs_lia. }
  split_and!; [done|done|done|rewrite Hdb, Hc; apply Forall_app; split; [by apply bytes_root|apply Forall_replicate; unfold is_byte; lia]|].
  rewrite Hdb, Hc, (dirents_app _ _ (length fs + 2)) by apply length_root_bytes.
  rewrite dirents_root_bytes by (done || (unfold ninodes in *; lia)).
  destruct (dirents_zero (Z.to_nat (i_size ip - Z.of_nat (16 * (length fs + 2))))) as [m ->]. by exists m.
Qed.

Lemma reachable_image inum : reachable d inum -> exists k, (k <= length fs)%nat /\ inum = Z.of_nat k + 1.
Proof using Hnames Hmapped Hlen Hfiles Hroot Hd.
  destruct root_is_dir as (_ & _ & _ & _ & m & Hent).
  induction 1 as [|inum e j name _ (k & Hk & ->) Hty He Hj]; [exists 0%nat; split; [lia|done]|]. destruct k as [|k].
  - change (Z.of_nat 0 + 1) with ROOTINO in *. rewrite Hent in He. apply list_elem_of_lookup_2 in He. unfold root_entries in He.
    rewrite !elem_of_app in He. destruct He as [[He|He]|[[= -> ->] _]%elem_of_replicate]; [|  |done].
    + exists 0%nat. split; [lia|]. set_solver.
    + apply list_elem_of_lookup in He as [i He]. rewrite list_lookup_imap in He. apply fmap_Some in He as (f & Hf & [= -> ->]).
      exists (S i). split; [apply lookup_lt_Some in Hf; lia|lia].
  - exfalso. destruct (lookup_lt_is_Some_2 fs k ltac:(lia)) as [f Hf]. destruct Hfiles as [Hfile _].
    pose proof (f_type _ _ _ _ (Hfile _ _ Hf)) as E. replace (Z.of_nat (S k) + 1) with (Z.of_nat k + 2) in Hty by lia.
    change (ino d) with (on_disk d) in E. by rewrite E in Hty.
Qed.

Lemma tree_image : tree_ok size ninodes d.
Proof using Hnames Hmapped Hlen Hfiles Hroot Hd.
  destruct root_is_dir as (Rt & Rn & Rf & Rb & _). destruct Hfiles as [Hfile _].
  assert (Hnode : forall k, (S k <= length fs)%nat -> i_type (on_disk d (Z.of_nat (S k) + 1)) = T_FILE /\ i_nlink (on_disk d (Z.of_nat (S k) + 1)) = 1).
  { intros k Hk. destruct (lookup_lt_is_Some_2 fs k ltac:(lia)) as [f Hf]. replace (Z.of_nat (S k) + 1) with (Z.of_nat k + 2) by lia.
    destruct (Hfile _ _ Hf) as [_ _ _ _ Ht Hn]. by split. }
  constructor; [done| |].
  - intros inum Hr. split; [done|]. destruct (reachable_image _ Hr) as (k & Hk & ->). split; [lia|]. destruct k as [|k].
    + change (Z.of_nat 0 + 1) with ROOTINO. rewrite Rt, Rn. done.
    + destruct (Hnode k Hk) as [-> ->]. done.
  - intros inum Hr Hty. destruct (reachable_image _ Hr) as (k & Hk & ->). destruct k as [|k]; [by split|].
    exfalso. destruct (Hnode k Hk) as [E _]. by rewrite E in Hty.
Qed.

Lemma walk_image k f : fs !! k = Some f -> copyable f -> walk d false ROOTINO (elems (SLASH :: file_name f)) = Some (Z.of_nat k + 2).
Proof using Hnames Hmapped Hlen Hd Hfiles Hroot.
  intros Hf Hc. destruct root_is_dir as (Hty & _ & _ & _ & m & Hent). destruct Hnames as (Hp & Hnd & Hne).
  destruct (file_name_path f Hc) as [_ Hs]; [exact (Forall_lookup_1 _ _ _ _ Hp Hf)|].
  rewrite elems_slash, elems_single; [|exact (Forall_lookup_1 _ _ _ _ Hne Hf)|done|unfold file_name; rewrite length_take; lia].
  cbn [walk]. rewrite Hty. cbn [Z.eqb T_DIR negb andb]. rewrite Hent, dir_find_app.
  assert (Hnm : (root_entries fs).*2 = [[46]; [46; 46]] ++ (file_name <$> fs)).
  { unfold root_entries. rewrite fmap_app. f_equal. rewrite fmap_imap. apply list_eq. intros i. rewrite list_lookup_imap, list_lookup_fmap. by destruct (fs !! i). }
  rewrite (dir_find_first _ _ (2 + k) (Z.of_nat k + 2)); [done| |lia|].
  - unfold root_entries. rewrite lookup_app_r by (simpl; lia). cbn [length]. rewrite list_lookup_imap. replace (2 + k - 2)%nat with k by lia. by rewrite Hf.
  - intros j n Hj E. rewrite <- Hnm in Hnd. assert (Hj2 : (root_entries fs).*2 !! j = Some (file_name f)) by (by rewrite list_lookup_fmap, E).
    assert (Hk2 : (root_entries fs).*2 !! (2 + k)%nat = Some (file_name f)).
    { rewrite Hnm, lookup_app_r by (simpl; lia). cbn [length]. replace (2 + k - 2)%nat with k by lia. by rewrite list_lookup_fmap, Hf. }
    pose proof (NoDup_lookup _ _ _ _ Hnd Hj2 Hk2). lia.
Qed.
End Image.

(** C34: the kernel reads what mkfs writes.  mkfs, given files that can be read
    and fit, with names that differ, makes an image on which the kernel, in
    whatever state its caches are, finds every file under its name: [namei] of
    the path returns an inode, [ilock] loads it, and [readi] of any range
    returns that range of the bytes the file had on the host. *)
Theorem kernel_reads_image {S} `{HB : !BlockOps S} `{HS : !BlockSpec S} files :
  (2 <= bcap)%nat -> fits files -> nameable files -> root_mapped files ->
  exists s, main true files mk0 = Ok tt s /\
    forall (x : fs S) ic cwd dev_read k f off n,
      at_fs x (img s) ∅ ic -> cache_ok (img s) None ic -> two_free ic -> files !! k = Some f ->
      is_uint off -> is_uint n ->
      exists i x1 x2 x3, namei cwd (SLASH :: file_name f) x = Ok (Some i) x1 /\ ilock i x1 = Ok tt x2 /\
        readi dev_read i off n x2 =
          Ok (if bad_range (Z.of_nat (length (bytes_of f))) off n then (-1, [])
              else let m := Z.min n (Z.of_nat (length (bytes_of f)) - off) in
                   (m, slice (Z.to_nat off) (Z.to_nat m) (bytes_of f))) x3.
Proof.
  intros Hcap Hfits Hnames Hmapped. destruct (wp_elim _ _ _ (main_run files Hfits)) as ([] & s & Hs & Hd & Hfiles & Hroot).
  exists s. split; [exact Hs|]. intros x ic cwd dev_read k f off n Hx Hc Hfree Hf Hoff Hn. set (d := img s) in *.
  destruct Hfits as (Hcopy & Hlen & _). pose proof (Forall_lookup_1 _ _ _ _ Hcopy Hf) as Hcf. pose proof Hnames as (Hp & _).
  destruct (file_name_path f Hcf (Forall_lookup_1 _ _ _ _ Hp Hf)) as [Hpath _].
  pose proof (tree_image files d Hnames Hmapped Hlen Hd Hfiles Hroot) as Ht.
  pose proof (walk_image files d Hnames Hmapped Hlen Hd Hfiles Hroot k f Hf Hcf) as Hwalk. destruct Hfiles as [Hfile _]. pose proof (Hfile _ _ Hf) as HF.
  assert (W1 : wp (namei cwd (SLASH :: file_name f)) (fun r x1 => exists i, r = Some i /\ at_node ninodes d ic x1 i (Z.of_nat k + 2)) x).
  { assert (Hp1 : is_path (SLASH :: file_name f)) by (apply Forall_cons; split; [unfold SLASH; lia|exact Hpath]).
    assert (Hn0 : bytes (replicate DIRSIZ 0)) by (apply Forall_replicate; unfold is_byte; lia).
    unfold namei. wp_step.
    apply (namex_wp size ninodes Hcap x d ic cwd ROOTINO _ false _ _ Hx Ht Hc Hfree (eq_refl : starts d ic cwd (SLASH :: file_name f) ROOTINO) Hp1 (eq_refl : length (replicate DIRSIZ 0) = DIRSIZ) Hn0).
    intros r name' x1 Ha _. rewrite Hwalk in Ha. wp_step. exact Ha. }
  destruct (wp_elim _ _ _ W1) as (r & x1 & R1 & i & -> & Hnode).
  assert (W2 : wp (ilock i) (fun _ x2 => exists ic2 ip, at_fs x2 d ∅ ic2 /\ ic2 !! i = Some ip /\ ikey ip = (ROOTDEV, Z.of_nat k + 2) /\
                 dfields ip = dfields (on_disk d (Z.of_nat k + 2))) x1).
  { eapply (enter_node size ninodes Hcap); [exact Ht|exact Hc|exact Hnode|]. intros x2 ic2 ip Hx2 _ _ Hi Hk Hdf. eauto 7. }
  destruct (wp_elim _ _ _ W2) as ([] & x2 & R2 & ic2 & ip & Hx2 & Hi & [= Ed _] & Hdf).
  destruct (same_file size ninodes d ip (on_disk d (Z.of_nat k + 2))) as (Hok & _ & Hty & Hcon & Hsz); [done|done|exact (f_ok _ _ _ _ HF)|].
  assert (Hlenf : i_size ip = Z.of_nat (length (bytes_of f))) by (rewrite Hsz; exact (size_is _ _ _ _ HF)).
  assert (Hbs : content d ip = bytes_of f) by (rewrite Hcon; exact (f_bytes _ _ _ _ HF)).
  assert (W3 : wp (readi dev_read i off n) (fun r _ => r = (if bad_range (Z.of_nat (length (bytes_of f))) off n then (-1, [])
              else let m := Z.min n (Z.of_nat (length (bytes_of f)) - off) in
                   (m, slice (Z.to_nat off) (Z.to_nat m) (bytes_of f)))) x2).
  { eapply (readi_wp ROOTDEV size ninodes Hcap); [exact Hx2|exact Hi|exact Hok| |exact Hoff|exact Hn|by rewrite Hlenf, Hbs].
    rewrite Hty. change (on_disk d) with (ino d). by rewrite (f_type _ _ _ _ HF). }
  destruct (wp_elim _ _ _ W3) as (r & x3 & R3 & ->).
  exists i, x1, x2, x3. split; [exact R1|]. split; [exact R2|exact R3].
Qed.

(** ** An example *)

Lemma empty_cache_ok d : cache_ok d None demo_icache.
Proof.
  assert (Hlk : forall j jp, demo_icache !! j = Some jp -> i_ref jp = 0) by (by intros j jp [-> _]%lookup_replicate).
  constructor; try done.
  - intros j jp Hj. rewrite (Hlk _ _ Hj). done.
  - intros j jp Hj. rewrite (Hlk _ _ Hj). done.
  - intros j jp Hj. rewrite (Hlk _ _ Hj). done.
  - intros j k jp kp Hj _. rewrite (Hlk _ _ Hj). done.
Qed.

(** The kernel after [binit], on an image. *)
Definition booted_on (d : sectors) : fs ide := MkFs (Bio.booted (HA := SimAta.sim_ata) zero_block (SimAta.sim0 d)) demo_icache.

Lemma booted_on_at d : (forall k, length (blk d k) = BLEN) -> at_fs (booted_on d) d ∅ demo_icache.
Proof.
  intros Hl. split; [|done].
  exact (wp_run _ _ _ _ _ (Bio.binit_wp (HA := SimAta.sim_ata) zero_block (SimAta.sim0 d) eq_refl Hl) (Bio.binit_booted _ _)).
Qed.

Lemma demo_fits : fits demo_hostfiles.
Proof. split; [repeat constructor; (vm_compute; done) || eauto|]. split; vm_compute; (done || discriminate). Qed.

(** "/a" on an image made from the files "_a" and "b". *)
Lemma kernel_reads_image_witness :
  exists s i x1 x2 x3, main true demo_hostfiles mk0 = Ok tt s /\
    namei 0 [47; 97] (booted_on (img s)) = Ok (Some i) x1 /\ ilock i x1 = Ok tt x2 /\
    readi (fun _ => None) i 1 100 x2 = Ok (2, [105; 33]) x3.
Proof.
  destruct (kernel_reads_image (S := ide) demo_hostfiles) as (s & Hs & Hread).
  - vm_compute. lia.
  - exact demo_fits.
  - split; [repeat constructor|]. split; [by apply (bool_decide_unpack _)|repeat constructor; discriminate].
  - discriminate.
  - destruct (wp_elim _ _ _ (main_run demo_hostfiles demo_fits)) as ([] & s' & Hs' & Hd & _).
    rewrite Hs in Hs'. injection Hs' as <-.
    destruct (Hread (booted_on (img s)) demo_icache 0%nat (fun _ => None) 0%nat (HostFile [95; 97] (Some [[104; 105]; [33]])) 1 100)
      as (i & x1 & x2 & x3 & R1 & R2 & R3).
    + apply booted_on_at, Hd.
    + apply empty_cache_ok.
    + exists 0%nat, 1%nat, null_inode, null_inode. repeat split; discriminate.
    + reflexivity.
    + unfold is_uint. lia.
    + unfold is_uint. lia.
    + exists s, i, x1, x2, x3. split; [exact Hs|]. split; [exact R1|]. split; [exact R2|exact R3].
Defined.
