(* ===== verification/Umalloc.v ===== *)
(** * The user allocator: [src/umalloc.c]

    The words of the process's memory are a function from addresses; a block
    starts with a header of two words, the pointer to the next free block and
    the size of the block in units of headers.  Free blocks form a ring in the
    order of their addresses that starts at the static header [base].
    [grant sz n] says whether the kernel has the pages to grow a process of [sz]
    bytes by [n]; for the rest [sbrk] is what [growproc] does. *)

From stdpp Require Import base numbers list.
From Stdlib Require Import Lia ZArith ZifyBool.
From S2P Require Import Prelude Vm.
Open Scope Z_scope.

Record heap := Heap { mem : Z -> Z; freep : Z; brk : Z }.

Definition upd (m : Z -> Z) (a v : Z) : Z -> Z := fun x => if x =? a then v else m x.

(** sizeof(Header) *)
Definition HDR : Z := 8.

Definition set_freep (p : Z) (h : heap) : heap := Heap (mem h) p (brk h).
Definition set_brk (b : Z) (h : heap) : heap := Heap (mem h) (freep h) b.
Definition ptr (a : Z) : M heap Z := gets (fun h => mem h a).
Definition size (a : Z) : M heap Z := gets (fun h => mem h (a + 4)).
Definition set_ptr (a v : Z) : M heap unit := modify (fun h => Heap (upd (mem h) a v) (freep h) (brk h)).
Definition set_size (a v : Z) : M heap unit := modify (fun h => Heap (upd (mem h) (a + 4) v) (freep h) (brk h)).

Section Umalloc.
Context (base_ : Z) (grant : Z -> Z -> bool).

(** (char* )-1 *)
Definition MINUS1 : Z := 2 ^ 32 - 1.

Definition sbrk (n : Z) : M heap Z :=
  sz ← gets brk;
  if 0 <? n then
    if (USERTOP <? u32 (sz + n)) || negb (grant sz n) then mret MINUS1
    else _ ← modify (set_brk (u32 (sz + n))); mret sz
  else if n <? 0 then
    let sz' := if sz <=? u32 (sz + n) then sz else u32 (sz + n) in
    if sz' =? 0 then mret MINUS1 else _ ← modify (set_brk sz'); mret sz
  else mret sz.

(** The place of the block at [bp] in the ring: the free block before it. *)
Definition place (fuel : nat) (bp : Z) : M heap Z :=
  p0 ← gets freep;
  loop fuel (fun p : Z =>
    next ← ptr p;
    mret (if ((p <? bp) && (bp <? next)) || ((next <=? p) && ((p <? bp) || (bp <? next))) then inr p else inl next)) p0.

(** Link the block at [bp] to what follows [p], or merge it with that. *)
Definition join_next (bp p : Z) : M heap unit :=
  bsize ← size bp;
  next ← ptr p;
  if u32 (bp + bsize * HDR) =? next then
    nsize ← size next;
    _ ← set_size bp (u32 (bsize + nsize));
    next ← ptr p;
    nn ← ptr next;
    set_ptr bp nn
  else set_ptr bp next.

(** Link [p] to the block at [bp], or merge them. *)
Definition join_prev (bp p : Z) : M heap unit :=
  psize ← size p;
  if u32 (p + psize * HDR) =? bp then
    bsize ← size bp;
    _ ← set_size p (u32 (psize + bsize));
    bnext ← ptr bp;
    set_ptr p bnext
  else set_ptr p bp.

Definition free (fuel : nat) (ap : Z) : M heap unit :=
  let bp := u32 (ap - HDR) in
  p ← place fuel bp;
  _ ← join_next bp p;
  _ ← join_prev bp p;
  modify (set_freep p).

Definition morecore (fuel : nat) (nu : Z) : M heap Z :=
  let nu := if nu <? 4096 then 4096 else nu in
  p ← sbrk (s32 (u32 (nu * HDR)));
  if p =? MINUS1 then mret 0
  else
    _ ← set_size p nu;
    _ ← free fuel (u32 (p + HDR));
    gets freep.

(** Take [nunits] from the block [p], which has [sz] of them, after [prevp]. *)
Definition take_from (nunits prevp p sz : Z) : M heap Z :=
  r ← (if sz =? nunits then
         next ← ptr p;
         _ ← set_ptr prevp next;
         mret p
       else
         _ ← set_size p (u32 (sz - nunits));
         sz ← size p;
         let p := u32 (p + sz * HDR) in
         _ ← set_size p nunits;
         mret p);
  _ ← modify (set_freep prevp);
  mret (u32 ((r : Z) + HDR)).

Definition search (fuel : nat) (nunits : Z) (st : Z * Z) : M heap (Z * Z + Z) :=
  let '(prevp, p) := st in
  sz ← size p;
  if nunits <=? sz then r ← take_from nunits prevp p sz; mret (inr r)
  else
    fp ← gets freep;
    if p =? fp then
      q ← morecore fuel nunits;
      if q =? 0 then mret (inr 0) else next ← ptr q; mret (inl (q, next))
    else next ← ptr p; mret (inl (p, next)).

Definition units (nbytes : Z) : Z := u32 (u32 (u32 (nbytes + HDR) - 1) / HDR + 1).

Definition malloc (fuel : nat) (nbytes : Z) : M heap Z :=
  let nunits := units nbytes in
  fp ← gets freep;
  _ ← when (fp =? 0) (
        _ ← modify (set_freep base_);
        _ ← set_ptr base_ base_;
        set_size base_ 0);
  prevp ← gets freep;
  p ← ptr prevp;
  loop fuel (search fuel nunits) (prevp, p).
End Umalloc.
