(* ===== verification/UmallocCorrect.v ===== *)
(** * The user allocator is correct

    The free blocks are a ring in the order of their addresses, no two of them
    adjacent, and disjoint from the blocks that were handed out; [malloc] and
    [free] keep it so, end, and touch no block that is in use. *)

From stdpp Require Import base numbers list gmap.
From Stdlib Require Import Lia ZArith ZifyBool.
From S2P Require Import Prelude Vm Umalloc.
Open Scope Z_scope.

(** ** Rings *)

Notation blk := (Z * Z)%type.

(** Following the pointers from [a] visits the blocks [l]. *)
Fixpoint path (m : Z -> Z) (a : Z) (l : list blk) : Prop :=
  match l with
  | [] => True
  | (x, n) :: l => m a = x /\ m (x + 4) = n /\ path m x l
  end.

(** The address of the last block, [a] if there is none. *)
Fixpoint lasta (a : Z) (l : list blk) : Z :=
  match l with
  | [] => a
  | (x, _) :: l => lasta x l
  end.

(** The end of the last block, [lo] if there is none. *)
Fixpoint endof (lo : Z) (l : list blk) : Z :=
  match l with
  | [] => lo
  | (x, n) :: l => endof (x + n * HDR) l
  end.

(** In the order of their addresses, with gaps between them and after [lo]. *)
Fixpoint gaps (lo : Z) (l : list blk) : Prop :=
  match l with
  | [] => True
  | (x, n) :: l => lo < x /\ x mod 4 = 0 /\ 1 <= n /\ gaps (x + n * HDR) l
  end.

Lemma ring_path_app m a l1 l2 : path m a (l1 ++ l2) <-> path m a l1 /\ path m (lasta a l1) l2.
Proof. revert a. induction l1 as [|[x n] l1 IH]; intros a; simpl; [tauto|]. rewrite IH. tauto. Qed.

Lemma lasta_app a l1 l2 : lasta a (l1 ++ l2) = lasta (lasta a l1) l2.
Proof. revert a. induction l1 as [|[x n] l1 IH]; intros a; simpl; [done|]. apply IH. Qed.

Lemma endof_app lo l1 l2 : endof lo (l1 ++ l2) = endof (endof lo l1) l2.
Proof. revert lo. induction l1 as [|[x n] l1 IH]; intros lo; simpl; [done|]. apply IH. Qed.

Lemma gaps_app lo l1 l2 : gaps lo (l1 ++ l2) <-> gaps lo l1 /\ gaps (endof lo l1) l2.
Proof. revert lo. induction l1 as [|[x n] l1 IH]; intros lo; simpl; [tauto|]. rewrite IH. tauto. Qed.

Lemma gaps_weaken lo lo' l : gaps lo l -> lo' <= lo -> gaps lo' l.
Proof. destruct l as [|[x n] l]; simpl; [done|]. intros (?&?&?&?) ?. split_and!; [lia|done..]. Qed.

Lemma gaps_endof lo l : gaps lo l -> lo <= endof lo l.
Proof.
  revert lo. induction l as [|[x n] l IH]; intros lo; simpl; [lia|]. intros (H1 & _ & H2 & H%IH). unfold HDR in *. lia.
Qed.

(** The last block starts its header's length before its end. *)
Lemma gaps_lasta a l : gaps (a + 4) l -> a <= lasta a l /\ lasta a l + 4 <= endof (a + 4) l /\ (l <> [] -> a + 4 < lasta a l).
Proof.
  assert (H : forall l a lo, gaps lo l -> a + 4 <= lo -> a <= lasta a l /\ lasta a l + 4 <= endof lo l /\ (l <> [] -> lo < lasta a l)).
  { clear. induction l as [|[x n] l IH]; intros a lo; simpl; [intros _ ?; split_and!; [lia|lia|done]|].
    intros (H1 & _ & H2 & Hg) Ha. destruct (IH x (x + n * HDR) Hg) as (H3 & H4 & _); [unfold HDR; lia|]. split_and!; [lia|done|lia]. }
  intros Hg. destruct (H l a (a + 4) Hg) as (?&?&?); [lia|]. done.
Qed.

Lemma gaps_lasta_end a lo l : gaps lo l -> l <> [] -> lasta a l + HDR <= endof lo l.
Proof.
  revert a lo. induction l as [|[x n] l IH]; intros a lo; simpl; [done|]. intros (_ & _ & H & Hg) _.
  destruct l as [|b l]; [simpl; unfold HDR; lia|]. by apply IH.
Qed.

Lemma gaps_in lo l x n : gaps lo l -> (x, n) ∈ l -> lo < x /\ x mod 4 = 0 /\ 1 <= n /\ x + n * HDR <= endof lo l.
Proof.
  revert lo. induction l as [|[y k] l IH]; intros lo; simpl; [by intros _ []%not_elem_of_nil|].
  intros (H1 & H2 & H3 & Hg) [Heq|Hin]%elem_of_cons.
  - simplify_eq. pose proof (gaps_endof _ _ Hg). done.
  - destruct (IH _ Hg Hin) as (?&?&?&?). unfold HDR in *. split_and!; [lia|done|done|done].
Qed.

(** A block that is disjoint from those of the list has its place in it. *)
Lemma split_at lo l b n :
  gaps lo l -> lo < b -> 1 <= n -> Forall (fun '(x, k) => x + k * HDR <= b \/ b + n * HDR <= x) l ->
  exists pre post, l = pre ++ post /\ endof lo pre <= b /\ gaps (b + n * HDR - 1) post.
Proof.
  revert lo. induction l as [|[x k] l IH]; intros lo Hg Hlo Hn Hd.
  - exists [], []. split_and!; [done|simpl; lia|done].
  - simpl in Hg. destruct Hg as (H1 & H2 & H3 & Hg). apply Forall_cons in Hd as [[Hd|Hd] Hds].
    + destruct (Z.eq_dec (x + k * HDR) b) as [He|Hne].
      * exists [(x, k)], l. split_and!; [done|simpl; lia|]. destruct l as [|[y j] l]; [done|]. simpl in *.
        destruct Hg as (?&?&?&?). apply Forall_cons in Hds as [[?|?] _]; unfold HDR in *; split_and!; (done || lia).
      * destruct (IH _ Hg) as (pre & post & -> & Hp & Hq); [lia|lia|done|]. exists ((x, k) :: pre), post. done.
    + exists [], ((x, k) :: l). split_and!; [done|simpl; lia|]. simpl. split_and!; [lia|done|done|done].
Qed.

(** Changes above the last block's header, or below the blocks, do not matter. *)
Lemma path_before m m' a l :
  gaps (a + 4) l -> path m a l -> (forall w, w < lasta a l -> m' w = m w) -> m' (lasta a l + 4) = m (lasta a l + 4) -> path m' a l.
Proof.
  revert a. induction l as [|[x n] l IH]; intros a; simpl; [done|]. intros (H1 & _ & H2 & Hg) (<- & Hn & Hp) Hw Hs.
  assert (Hg' : gaps (m a + 4) l) by (eapply gaps_weaken; [exact Hg|unfold HDR; lia]).
  destruct (gaps_lasta _ _ Hg') as (H3 & _ & H4). split_and!.
  - apply Hw. lia.
  - destruct l as [|b l]; [exact (eq_trans Hs Hn)|]. rewrite Hw; [done|]. apply H4. done.
  - by apply IH.
Qed.

Lemma path_after m m' x x' lo e l :
  gaps lo l -> path m x l -> m (lasta x l) = e -> (forall w, lo < w -> m' w = m w) -> m' x' = m x -> path m' x' l /\ m' (lasta x' l) = e.
Proof.
  intros Hg Hp He Hw Hx. destruct l as [|[y n] l]; simpl in *; [split; [done|]; congruence|].
  destruct Hg as (H1 & _ & H2 & Hg), Hp as (<- & Hn & Hp). rewrite Hx.
  assert (Hrest : forall y, lo < y -> path m y l -> m (lasta y l) = e -> path m' y l /\ m' (lasta y l) = e).
  { clear Hn Hp He Hx. assert (Hg' : gaps lo l) by (eapply gaps_weaken; [exact Hg|unfold HDR; lia]). clear Hg H2.
    induction l as [|[z k] l IH]; intros y Hy Hp He; simpl in *; [split; [done|]; by rewrite Hw|].
    destruct Hg' as (G1 & _ & G2 & Hg), Hp as (<- & Hn & Hp). rewrite !Hw by lia.
    assert (Hg' : gaps lo l) by (eapply gaps_weaken; [exact Hg|unfold HDR; lia]). destruct (IH Hg' (m y)); [lia|done|done|]. done. }
  destruct (Hrest (m x)); [lia|done|done|]. rewrite Hw by lia. done.
Qed.

(** ** The invariant *)

Definition apart (a n b k : Z) : Prop := a + n * HDR <= b \/ b + k * HDR <= a.

Ltac hlia := unfold apart, HDR, USERTOP in *; lia.

Section Correct.
Context (base_ : Z) (grant : Z -> Z -> bool).

(** The ring by position: [base] has position 0. *)
Definition node (fs : list blk) (i : nat) : Z := lasta base_ (take i fs).

Lemma node_0 fs : node fs 0 = base_.
Proof. done. Qed.

Lemma node_last fs : node fs (length fs) = lasta base_ fs.
Proof. unfold node. by rewrite take_ge. Qed.

Lemma node_S fs i x n : fs !! i = Some (x, n) -> node fs (S i) = x.
Proof. intros H. unfold node. by rewrite (take_S_r _ _ _ H), lasta_app. Qed.

Lemma node_pre pre post : node (pre ++ post) (length pre) = lasta base_ pre.
Proof. unfold node. by rewrite take_app_length. Qed.

Lemma node_lt fs i j : gaps (base_ + 4) fs -> (i < j <= length fs)%nat -> node fs i + 4 < node fs j.
Proof.
  intros Hg Hij. unfold node. replace j with (i + (j - i))%nat by lia. rewrite <- take_take_drop, lasta_app.
  rewrite <- (take_drop i fs), gaps_app in Hg. destruct Hg as [H1 H2].
  rewrite <- (take_drop (j - i) (drop i fs)), gaps_app in H2. destruct H2 as [H2 _].
  destruct (gaps_lasta _ _ H1) as (_ & H3 & _).
  destruct (gaps_lasta (lasta base_ (take i fs)) (take (j - i) (drop i fs))) as (_ & _ & H4); [by eapply gaps_weaken|].
  apply H4. intros Hnil%(f_equal length). rewrite length_take, length_drop in Hnil. simpl in Hnil. lia.
Qed.

Lemma node_next m fs i :
  path m base_ fs -> (i < length fs)%nat -> m (node fs i) = node fs (S i) /\ fs !! i = Some (node fs (S i), m (node fs (S i) + 4)).
Proof.
  intros Hp Hi. destruct (lookup_lt_is_Some_2 fs i Hi) as [[x n] Hx]. rewrite (node_S _ _ _ _ Hx).
  rewrite <- (take_drop_middle _ _ _ Hx), ring_path_app in Hp. simpl in Hp. destruct Hp as (_ & H1 & H2 & _). unfold node. by rewrite H1, H2.
Qed.

Record ok (h : heap) (fs : list blk) (A : gmap Z Z) : Prop := {
  ok_path : path (mem h) base_ fs;
  ok_ring : mem h (lasta base_ fs) = base_;
  ok_base : mem h (base_ + 4) = 0;
  ok_gaps : gaps (base_ + 4) fs;
  ok_freep : exists i, (i <= length fs)%nat /\ freep h = node fs i;
  ok_limits : 0 < base_ /\ (base_ mod 4 = 0 /\ base_ + HDR <= brk h) /\ brk h mod 4 = 0 /\ endof (base_ + 4) fs <= brk h <= USERTOP;
  ok_used : forall a n, A !! a = Some n -> base_ + 4 < a /\ a mod 4 = 0 /\ 1 <= n /\ a + n * HDR <= brk h /\ mem h (a + 4) = n;
  ok_free : forall a n x k, A !! a = Some n -> (x, k) ∈ fs -> apart a n x k;
  ok_apart : forall a n b k, A !! a = Some n -> A !! b = Some k -> a <> b -> apart a n b k }.

(** The words of the blocks in use are as they were. *)
Definition kept (A : gmap Z Z) (h h' : heap) : Prop :=
  forall a n w, A !! a = Some n -> a <= w < a + n * HDR -> mem h' w = mem h w.

Lemma place_run h fs A bp k fuel :
  ok h fs A -> (k <= length fs)%nat -> node fs k < bp -> ((k < length fs)%nat -> bp < node fs (S k)) -> (length fs < fuel)%nat ->
  wp (place fuel bp) (fun p h' => h' = h /\ p = node fs k) h.
Proof.
  intros Hok Hk Hlo Hhi Hf. unfold place. apply wp_bind, wp_gets. destruct (ok_freep _ _ _ Hok) as (i & Hi & ->).
  set (d := fun i => (if decide (i <= k) then k - i else length fs - i + 1 + k)%nat).
  apply (wp_loop_ghost (fun n p h' => h' = h /\ exists i, (i <= length fs)%nat /\ p = node fs i /\ n = d i) _ _ _ (d i));
    [|by split; [|exists i]|unfold d; case_decide; lia].
  intros n p h' [-> (j & Hj & -> & ->)]. unfold ptr. apply wp_bind, wp_gets, wp_ret.
  pose proof (ok_gaps _ _ _ Hok) as Hg.
  assert (H0 : forall j, (j <= length fs)%nat -> base_ <= node fs j).
  { intros [|j'] Hj'; [by rewrite node_0|]. pose proof (node_lt fs 0 (S j') Hg ltac:(lia)). rewrite node_0 in *. lia. }
  pose proof (H0 j Hj). pose proof (H0 k Hk).
  assert (Hkj : (k < j)%nat -> node fs (S k) <= node fs j).
  { intros. destruct (decide (S k = j)) as [<-|]; [lia|]. pose proof (node_lt fs (S k) j Hg ltac:(lia)). lia. }
  assert (Hjk : (j < k)%nat -> node fs (S j) <= node fs k).
  { intros. destruct (decide (S j = k)) as [<-|]; [lia|]. pose proof (node_lt fs (S j) k Hg ltac:(lia)). lia. }
  destruct (decide (j < length fs)%nat) as [Hlt|Hge].
  - destruct (node_next _ _ _ (ok_path _ _ _ Hok) Hlt) as [-> _]. pose proof (node_lt fs j (S j) Hg ltac:(lia)).
    destruct (decide (j = k)) as [->|Hne].
    + rewrite (proj2 (orb_true_iff _ _)) by lia. done.
    + rewrite (proj2 (orb_false_iff _ _)) by lia. exists (d (S j)). split; [unfold d; repeat case_decide; lia|]. split; [done|]. exists (S j). done.
  - replace j with (length fs) in * by lia. rewrite node_last, (ok_ring _ _ _ Hok), <- node_last.
    destruct (decide (length fs = k)) as [<-|Hne].
    + rewrite (proj2 (orb_true_iff _ _)) by lia. done.
    + rewrite (proj2 (orb_false_iff _ _)) by lia. exists (d 0%nat). split; [unfold d; repeat case_decide; lia|]. split; [done|]. exists 0%nat. split; [lia|done].
Qed.

Lemma store_eq m a v : upd m a v a = v.
Proof. unfold upd. by rewrite Z.eqb_refl. Qed.

Lemma store_ne m a v w : w <> a -> upd m a v w = m w.
Proof. intros. unfold upd. by replace (w =? a) with false by lia. Qed.

(** The block at [bp] with what was merged into it, before [post]. *)
Record linked (m : Z -> Z) (bp n : Z) (post : list blk) (top : Z) : Prop := {
  ln_size : m (bp + 4) = n;
  ln_path : path m bp post;
  ln_ring : m (lasta bp post) = base_;
  ln_gaps : gaps (bp + n * HDR) post;
  ln_pos : 1 <= n;
  ln_top : endof (bp + n * HDR) post <= top }.

Lemma join_next_run h pre post bp n :
  path (mem h) (lasta base_ pre) post -> mem h (lasta base_ (pre ++ post)) = base_ -> gaps (bp + n * HDR - 1) post ->
  endof (bp + n * HDR) post <= brk h <= USERTOP -> 0 < base_ <= lasta base_ pre -> lasta base_ pre + 4 < bp -> 1 <= n -> mem h (bp + 4) = n ->
  wp (join_next bp (lasta base_ pre)) (fun _ h' => freep h' = freep h /\ brk h' = brk h /\
    (forall w, w <> bp -> w <> bp + 4 -> mem h' w = mem h w) /\
    exists n' post', linked (mem h') bp n' post' (brk h) /\ n <= n' /\
      (forall a k, 1 <= k -> apart a k bp n -> (forall x j, (x, j) ∈ post -> apart a k x j) -> apart a k bp n' /\ (forall x j, (x, j) ∈ post' -> apart a k x j))) h.
Proof.
  intros Hp Hr Hg Htop HP Hbp Hn Hs. set (P := lasta base_ pre) in *. rewrite lasta_app in Hr. fold P in Hr.
  assert (Hend : bp + n * HDR <= endof (bp + n * HDR) post).
  { destruct post as [|[x k] post]; simpl in *; [lia|]. destruct Hg as (?&_&?&?%gaps_endof). unfold HDR in *. lia. }
  unfold join_next, size, ptr, set_size, set_ptr. repeat wp_step; cbn [mem freep brk] in *; rewrite Hs in *; rewrite (u32_small (_ + _ * _)) in * by hlia.
  - destruct post as [|[x k] post]; simpl in *; [hlia|]. destruct Hp as (HPx & Hk & Hp), Hg as (Hx & _ & Hk1 & Hg).
    rewrite HPx in *. rewrite Hk, (store_ne _ _ _ P), HPx, (store_ne _ _ _ x) by hlia. pose proof (gaps_endof _ _ Hg). rewrite u32_small by hlia.
    set (m' := upd _ _ _). assert (Hm : forall w, w <> bp -> w <> bp + 4 -> m' w = mem h w) by (intros; unfold m'; rewrite !store_ne by lia; done).
    split_and!; [done|done|done|]. exists (n + k), post.
    destruct (path_after (mem h) m' x bp (x + k * HDR) base_ post) as [Hp' Hr']; [done|done|done|intros; apply Hm; hlia|by unfold m'; rewrite store_eq|].
    replace (x + k * HDR) with (bp + (n + k) * HDR) in * by hlia. split_and!; [|lia|].
    + constructor; [by unfold m'; rewrite store_ne, store_eq by lia|done|done|done|lia|lia].
    + intros a j Hj Ha Hpost. split; [specialize (Hpost x k ltac:(left)); hlia|]. intros y i Hy. apply Hpost. by right.
  - set (m' := upd _ _ _). assert (Hm : forall w, w <> bp -> m' w = mem h w) by (intros; unfold m'; rewrite store_ne by lia; done).
    split_and!; [done|done|by intros; apply Hm|]. exists n, post.
    assert (Hg' : gaps (bp + n * HDR) post).
    { destruct post as [|[x k] post]; [done|]. simpl in *. destruct Hg as (?&?&?&?). split_and!; [hlia|done..]. }
    destruct (path_after (mem h) m' P bp (bp + n * HDR) base_ post) as [Hp' Hr']; [done|done|done|intros; apply Hm; hlia|by unfold m'; rewrite store_eq|].
    split_and!; [|lia|done]. constructor; [by rewrite Hm by lia|done|done|done|lia|lia].
Qed.

Lemma lasta_base pre : gaps (base_ + 4) pre -> lasta base_ pre <> base_ + 4.
Proof. intros Hg. pose proof (gaps_lasta _ _ Hg) as (_ & _ & H). destruct pre; [simpl; lia|]. specialize (H ltac:(done)). lia. Qed.

(** A block apart from the free ones does not touch the header of the last of them. *)
Lemma last_header_apart pre b k w :
  gaps (base_ + 4) pre -> (forall y i, (y, i) ∈ pre -> apart b k y i) -> base_ + 4 < b -> b <= w < b + k * HDR ->
  w <> lasta base_ pre /\ w <> lasta base_ pre + 4.
Proof.
  intros Hg Hap Hb Hw. destruct (decide (pre = [])) as [->|Hne]; [simpl; lia|]. destruct (exists_last Hne) as (pre0 & [y i] & ->).
  rewrite lasta_app. rewrite gaps_app in Hg. simpl in *. specialize (Hap y i ltac:(set_solver)). hlia.
Qed.

Lemma join_prev_run h pre bp n post top :
  linked (mem h) bp n post top -> path (mem h) base_ pre -> mem h (base_ + 4) = 0 -> gaps (base_ + 4) pre -> endof (base_ + 4) pre <= bp ->
  0 < base_ -> bp mod 4 = 0 -> base_ + 4 < bp -> top <= USERTOP ->
  wp (join_prev bp (lasta base_ pre)) (fun _ h' => freep h' = freep h /\ brk h' = brk h /\ mem h' (base_ + 4) = 0 /\
    (forall w, w <> lasta base_ pre -> w <> lasta base_ pre + 4 -> mem h' w = mem h w) /\
    exists fs, path (mem h') base_ fs /\ mem h' (lasta base_ fs) = base_ /\ gaps (base_ + 4) fs /\ endof (base_ + 4) fs <= top /\
      (exists i, (i <= length fs)%nat /\ lasta base_ pre = node fs i) /\ (exists x j, (x, j) ∈ fs /\ n <= j) /\
      (forall a k, 1 <= k -> apart a k bp n -> (forall x j, (x, j) ∈ pre ++ post -> apart a k x j) -> forall x j, (x, j) ∈ fs -> apart a k x j)) h.
Proof.
  intros [Ls Lp Lr Lg Ln Lt] Hp H0 Hg Hend Hb Hb4 Hlo Htop. pose proof (gaps_lasta _ _ Hg) as (HP1 & HP2 & HP3). pose proof (gaps_endof _ _ Lg) as He.
  set (P := lasta base_ pre) in *.
  assert (HPend : P + mem h (P + 4) * HDR <= bp /\ (pre = [] \/ exists pre0, pre = pre0 ++ [(P, mem h (P + 4))])).
  { destruct (decide (pre = [])) as [->|Hne]; [subst P; simpl in *; rewrite H0; split; [lia|by left]|].
    destruct (exists_last Hne) as (pre0 & [x k] & ->). rewrite ring_path_app in Hp. rewrite endof_app in Hend. subst P. rewrite lasta_app in *. simpl in *.
    destruct Hp as (_ & _ & -> & _). split; [lia|]. right. by exists pre0. }
  destruct HPend as [HPe Hpre]. assert (Hk0 : 0 <= mem h (P + 4)).
  { destruct Hpre as [Hnil|[pre0 Hpre]]; [unfold P; rewrite Hnil; simpl; lia|]. rewrite Hpre, gaps_app in Hg. simpl in Hg. lia. }
  unfold join_prev, size, ptr, set_size, set_ptr. repeat wp_step; cbn [mem freep brk] in *; rewrite (u32_small (_ + _ * _)) in * by hlia.
  - destruct Hpre as [Hnil|[pre0 Hpre]]; [unfold P in *; rewrite Hnil in *; simpl in *; rewrite H0 in *; hlia|].
    rewrite Ls, u32_small, (store_ne _ _ _ bp) by hlia. set (k := mem h (P + 4)) in *.
    rewrite Hpre, gaps_app in Hg. rewrite Hpre, ring_path_app in Hp. simpl in Hg, Hp. destruct Hg as (Hg0 & HPlo & HP4 & Hk & _), Hp as (Hp0 & HP0 & _).
    pose proof (gaps_lasta _ _ Hg0) as (G1 & G2 & _). set (m' := upd _ _ _).
    assert (Hm : forall w, w <> P -> w <> P + 4 -> m' w = mem h w) by (intros; unfold m'; rewrite !store_ne by lia; done).
    destruct (path_after (mem h) m' bp P (bp + n * HDR) base_ post) as [Hp' Hr']; [done|done|done|intros; apply Hm; hlia|by unfold m'; rewrite store_eq|].
    split_and!; [done|done|by rewrite Hm by lia|done|]. exists (pre0 ++ (P, k + n) :: post).
    assert (HPe' : P + (k + n) * HDR = bp + n * HDR) by hlia. split_and!.
    + rewrite ring_path_app. split; [apply (path_before (mem h)); [done|done|intros; apply Hm; lia|apply Hm; lia]|]. simpl.
      split_and!; [by rewrite Hm by lia|by unfold m'; rewrite store_ne, store_eq by lia|done].
    + by rewrite lasta_app.
    + rewrite gaps_app. simpl. rewrite HPe'. split_and!; [done|lia|done|lia|done].
    + rewrite endof_app. simpl. by rewrite HPe'.
    + exists (S (length pre0)). split; [rewrite length_app; simpl; lia|]. symmetry. apply (node_S _ _ _ (k + n)). by apply list_lookup_middle.
    + exists P, (k + n). split; [set_solver|lia].
    + intros a j Hj Ha Hall x i Hx. rewrite Hpre in Hall. apply elem_of_app in Hx as [Hx|[Hx|Hx]%elem_of_cons]; [apply Hall; set_solver| |apply Hall; set_solver].
      injection Hx as -> ->. specialize (Hall P k ltac:(set_solver)). hlia.
  - set (m' := upd _ _ _). assert (Hm : forall w, w <> P -> m' w = mem h w) by (intros; unfold m'; rewrite store_ne by lia; done).
    destruct (path_after (mem h) m' bp bp (bp + n * HDR) base_ post) as [Hp' Hr']; [done|done|done|intros; apply Hm; hlia|apply Hm; lia|].
    pose proof (lasta_base _ Hg) as Hbase. fold P in Hbase.
    split_and!; [done|done|by rewrite Hm by lia|by intros; apply Hm|]. exists (pre ++ (bp, n) :: post). split_and!.
    + rewrite ring_path_app. split; [apply (path_before (mem h)); [done|done|intros w Hw; apply Hm; change (w < P) in Hw; lia|apply Hm; change (P + 4 <> P); lia]|]. simpl. fold P.
      split_and!; [by unfold m'; rewrite store_eq|by rewrite Hm by lia|done].
    + by rewrite lasta_app.
    + rewrite gaps_app. simpl. split_and!; [done| |done|done|done].
      destruct Hpre as [Hnil|[pre0 Hpre]]; [rewrite Hnil; simpl; lia|]. rewrite Hpre, endof_app. simpl. hlia.
    + by rewrite endof_app.
    + exists (length pre). split; [rewrite length_app; lia|]. by rewrite node_pre.
    + exists bp, n. split; [set_solver|lia].
    + intros a j Hj Ha Hall x i Hx. apply elem_of_app in Hx as [Hx|[Hx|Hx]%elem_of_cons]; [apply Hall; set_solver|by simplify_eq|apply Hall; set_solver].
Qed.

Lemma kept_refl A h : kept A h h.
Proof. done. Qed.

Lemma kept_trans A h1 h2 h3 : kept A h1 h2 -> kept A h2 h3 -> kept A h1 h3.
Proof. intros H1 H2 a n w Ha Hw. rewrite (H2 a n w), (H1 a n w) by done. done. Qed.

(** [free] of a block in use. *)
Lemma free_run h fs A bp n fuel :
  ok h fs A -> A !! bp = Some n -> (length fs < fuel)%nat ->
  wp (free fuel (bp + HDR)) (fun _ h' => exists fs', ok h' fs' (delete bp A) /\ kept (delete bp A) h h' /\ brk h' = brk h /\
    exists x j, (x, j) ∈ fs' /\ n <= j) h.
Proof.
  intros Hok Hbp Hf. pose proof Hok as [Hp Hr H0 Hg Hfp (Hb & [Hb4 Hb8] & Htop4 & Htop) Hu Hfree Hap].
  destruct (Hu _ _ Hbp) as (Hlo & Hbp4 & Hn & Hbtop & Hsz).
  destruct (split_at (base_ + 4) fs bp n) as (pre & post & -> & Hpre & Hpost); [done|done|done|apply Forall_forall; intros [x k] Hx; destruct (Hfree _ _ _ _ Hbp Hx); hlia|].
  rewrite ring_path_app in Hp. rewrite gaps_app in Hg. destruct Hp as [Hp1 Hp2], Hg as [Hg1 Hg2]. pose proof (gaps_lasta _ _ Hg1) as (G1 & G2 & G3).
  assert (HPbp : lasta base_ pre + 4 < bp).
  { destruct (decide (pre = [])) as [->|Hne]; [done|]. pose proof (gaps_lasta_end base_ _ _ Hg1 Hne). hlia. }
  unfold free. rewrite (u32_small (bp + HDR - HDR)) by hlia. replace (bp + HDR - HDR) with bp by lia.
  apply wp_bind. eapply wp_mono.
  { apply (place_run h (pre ++ post) A bp (length pre)); [exact Hok|rewrite length_app; lia|rewrite node_pre; lia| |done].
    intros Hl. destruct post as [|[x k] post]; [rewrite length_app in Hl; simpl in Hl; lia|]. rewrite (node_S _ _ x k) by (by apply list_lookup_middle).
    simpl in Hpost. hlia. }
  intros p h' [-> ->]. rewrite node_pre. rewrite endof_app in Htop.
  assert (Hend : endof (bp + n * HDR) post <= brk h).
  { destruct post as [|[x k] post]; simpl in *; lia. }
  apply wp_bind. eapply wp_mono; [eapply (join_next_run h pre post bp n); [done|done|done|hlia|lia|lia|done|done]|].
  intros _ h1 (F1 & B1 & M1 & n1 & post1 & L1 & Hn1 & A1). cbn beta.
  assert (Hp1' : path (mem h1) base_ pre) by (apply (path_before (mem h)); [done|done|intros; apply M1; lia|apply M1; lia]).
  apply wp_bind. eapply wp_mono; [eapply (join_prev_run h1 pre bp n1 post1 (brk h)); [done|done|by rewrite M1 by lia|done|done|done|done|done|lia]|].
  intros _ h2 (F2 & B2 & Z2 & M2 & fs & P2 & R2 & G & E2 & N2 & (x & j & Hx & Hj) & A2). apply wp_modify.
  assert (Hother : forall a k w, delete bp A !! a = Some k -> a <= w < a + k * HDR -> mem h2 w = mem h w).
  { intros a k w [Hne Ha]%lookup_delete_Some Hw. pose proof (Hap _ _ _ _ Ha Hbp ltac:(done)) as Hab. destruct (Hu _ _ Ha) as (? & ? & ? & ? & ?).
    destruct (last_header_apart pre a k w) as [Hw1 Hw2]; [done|intros; apply (Hfree a k); [done|set_solver]|done|done|].
    rewrite M2, M1 by hlia. done. }
  exists fs. split_and!.
  - constructor; cbn [mem freep brk set_freep]; [done|done|done|done|done| |..].
    + rewrite B2, B1. split_and!; [done|done|done|done|lia|lia].
    + intros a k Ha. pose proof Ha as [_ Ha']%lookup_delete_Some. destruct (Hu _ _ Ha') as (? & ? & ? & ? & ?). rewrite B2, B1.
      split_and!; [done|done|done|done|]. rewrite (Hother a k) by (done || hlia). done.
    + intros a k y i [Hne Ha]%lookup_delete_Some Hy. destruct (Hu _ _ Ha) as (? & ? & ? & ? & ?).
      destruct (A1 a k) as [Ha1 Ha2]; [done|by apply (Hap _ _ _ _ Ha Hbp)|intros; apply (Hfree a k); [done|set_solver]|].
      apply (A2 a k); [done|done| |done]. intros y' i' [Hy'|Hy']%elem_of_app; [apply (Hfree a k); [done|set_solver]|by apply Ha2].
    + intros a k b i [_ Ha]%lookup_delete_Some [_ Hb']%lookup_delete_Some. by apply Hap.
  - intros a k w Ha Hw. by apply (Hother a k).
  - cbn [brk set_freep]. congruence.
  - exists x, j. split; [done|lia].
Qed.

Lemma gaps_length lo l : gaps lo l -> lo + Z.of_nat (length l) * HDR <= endof lo l.
Proof.
  revert lo. induction l as [|[x n] l IH]; intros lo; simpl; [lia|]. intros (H1 & _ & H2 & H%IH). hlia.
Qed.

Lemma ok_length h fs A : ok h fs A -> Z.of_nat (length fs) * HDR < USERTOP.
Proof. intros Hok. pose proof (gaps_length _ _ (ok_gaps _ _ _ Hok)). pose proof (ok_limits _ _ _ Hok). hlia. Qed.

(** What [morecore] asks the kernel for. *)
Definition more (nu : Z) : Z := if nu <? 4096 then 4096 else nu.

(** The kernel's memory at the old end is a block that nobody uses. *)
Lemma ok_grow h fs A k :
  ok h fs A -> 1 <= k -> brk h + k * HDR <= USERTOP ->
  ok (Heap (upd (mem h) (brk h + 4) k) (freep h) (brk h + k * HDR)) fs (<[brk h := k]> A) /\ A !! brk h = None /\
  kept A h (Heap (upd (mem h) (brk h + 4) k) (freep h) (brk h + k * HDR)).
Proof.
  intros [Hp Hr H0 Hg Hfp (Hb & [Hb4 Hb8] & Htop4 & Htop) Hu Hfree Hap] Hk HT.
  pose proof (gaps_lasta _ _ Hg) as (G1 & G2 & _). pose proof (gaps_endof _ _ Hg).
  assert (Hnew : A !! brk h = None) by (apply eq_None_not_Some; intros [n Hn]; destruct (Hu _ _ Hn) as (? & ? & ? & ? & ?); hlia).
  split_and!; [|done|intros a n w Ha Hw; destruct (Hu _ _ Ha) as (? & ? & ? & ? & ?); cbn [mem]; apply store_ne; lia].
  constructor; cbn [mem freep brk]; [|by rewrite store_ne by lia|by rewrite store_ne by lia|done|done| |..].
  - apply (path_before (mem h)); [done|done|intros; apply store_ne; lia|apply store_ne; lia].
  - split_and!; [done|done|hlia| |hlia|hlia]. unfold HDR. rewrite Z.add_mod, Htop4 by lia. replace (k * 8) with (k * 2 * 4) by lia. by rewrite Z_mod_mult.
  - intros a n [[<- <-]|[Hne Ha]]%lookup_insert_Some; [split_and!; [hlia|done|done|lia|by rewrite store_eq]|].
    destruct (Hu _ _ Ha) as (? & ? & ? & ? & ?). split_and!; [done|done|done|hlia|rewrite store_ne by hlia; done].
  - intros a n x j [[<- <-]|[Hne Ha]]%lookup_insert_Some Hx; [|by apply (Hfree a n)]. pose proof (gaps_in _ _ _ _ Hg Hx). hlia.
  - intros a n b j [[<- <-]|[Hne Ha]]%lookup_insert_Some [[<- <-]|[Hne' Hb']]%lookup_insert_Some Hab; [done|..|by apply (Hap a n b j)].
    + destruct (Hu _ _ Hb') as (? & ? & ? & ? & ?). hlia.
    + destruct (Hu _ _ Ha) as (? & ? & ? & ? & ?). hlia.
Qed.

Lemma node_pos fs i : gaps (base_ + 4) fs -> 0 < base_ -> (i <= length fs)%nat -> 0 < node fs i.
Proof. intros Hg Hb Hi. destruct i; [done|]. pose proof (node_lt fs 0 (S i) Hg ltac:(lia)). rewrite node_0 in *. lia. Qed.

Lemma morecore_run h fs A nu fuel :
  ok h fs A -> 1 <= nu < 2 ^ 28 -> (length fs < fuel)%nat ->
  wp (morecore grant fuel nu) (fun q h' =>
    (q = 0 /\ h' = h /\ (USERTOP < brk h + more nu * HDR \/ grant (brk h) (more nu * HDR) = false)) \/
    (q = freep h' /\ q <> 0 /\ exists fs', ok h' fs' A /\ kept A h h' /\ exists x j, (x, j) ∈ fs' /\ nu <= j)) h.
Proof.
  intros Hok Hnu Hf. pose proof (ok_limits _ _ _ Hok) as (Hb & _ & _ & Htop). pose proof (gaps_endof _ _ (ok_gaps _ _ _ Hok)).
  unfold morecore. fold (more nu). assert (Hm : 4096 <= more nu < 2 ^ 28 /\ nu <= more nu) by (unfold more; destruct (Z.ltb_spec nu 4096); lia).
  rewrite (u32_small (more nu * HDR)), s32_small by hlia. unfold sbrk.
  apply wp_bind, wp_bind, wp_gets. replace (0 <? more nu * HDR) with true by hlia. rewrite (u32_small (brk h + _)) by hlia.
  apply wp_if; intros Hgr.
  - apply wp_ret. cbn. apply wp_ret. left. split_and!; [done|done|]. destruct (grant _ _); [left|by right]. hlia.
  - apply wp_bind, wp_modify, wp_ret. cbn beta. replace (brk h =? MINUS1) with false by (unfold MINUS1; hlia). unfold set_size.
    apply wp_bind, wp_modify. cbn [mem freep brk set_brk]. rewrite u32_small by hlia.
    destruct (ok_grow h fs A (more nu) Hok) as (Hok1 & Hnone & Hkept); [lia|hlia|].
    apply wp_bind. eapply wp_mono; [apply (free_run _ fs _ (brk h) (more nu) fuel Hok1); [by rewrite lookup_insert_eq|done]|].
    intros _ h' (fs' & Hok' & Hk' & _ & x & j & Hx & Hj). rewrite delete_insert_id in * by done. apply wp_gets. right.
    destruct (ok_freep _ _ _ Hok') as (i & Hi & Hfp). pose proof (node_pos _ _ (ok_gaps _ _ _ Hok') Hb Hi).
    split_and!; [done|lia|]. exists fs'. split_and!; [done|by eapply kept_trans|]. exists x, j. split; [done|lia].
Qed.

(** What is left of the block [p] of [sz] units when the last [n] of them, from
    [a] on, are taken: [mid].  The rest of the memory is as it was. *)
Record taken (m m' : Z -> Z) (P p sz a n : Z) (mid : list blk) : Prop := {
  tk_pos : 1 <= n;
  tk_size : m' (a + 4) = n;
  tk_end : a + n * HDR = p + sz * HDR;
  tk_same : forall w, w <> P -> w < p \/ p + sz * HDR <= w -> m' w = m w;
  tk_mid : mid = [] /\ a = p /\ m' P = m p \/
           exists k, mid = [(p, k)] /\ 1 <= k /\ a = p + k * HDR /\ m' P = p /\ m' p = m p /\ m' (p + 4) = k }.

Lemma taken_ring m m' pre p sz post a n mid :
  path m base_ (pre ++ (p, sz) :: post) -> m (lasta base_ (pre ++ (p, sz) :: post)) = base_ -> gaps (base_ + 4) (pre ++ (p, sz) :: post) ->
  taken m m' (lasta base_ pre) p sz a n mid ->
  path m' base_ (pre ++ mid ++ post) /\ m' (lasta base_ (pre ++ mid ++ post)) = base_ /\ gaps (base_ + 4) (pre ++ mid ++ post) /\
  endof (base_ + 4) (pre ++ mid ++ post) <= endof (base_ + 4) (pre ++ (p, sz) :: post) /\
  (forall x k, (x, k) ∈ pre ++ mid ++ post -> (x, k) ∈ pre ++ post \/ x = p /\ 1 <= k /\ a = p + k * HDR).
Proof.
  rewrite !ring_path_app, !gaps_app, !lasta_app, !endof_app. simpl. intros (Hp1 & HPp & Hsz & Hp2) Hr (Hg1 & Hlo & Hp4 & Hsz1 & Hg2) [Hn Hm He Hsame Hmid].
  pose proof (gaps_lasta _ _ Hg1) as (G1 & G2 & _). pose proof (gaps_endof _ _ Hg1). pose proof (gaps_endof _ _ Hg2).
  assert (Hpre : path m' base_ pre) by (apply (path_before m); [done|done|intros; apply Hsame; lia|apply Hsame; lia]).
  destruct Hmid as [(-> & -> & HP)|(k & -> & Hk & -> & HP & Hmp & Hmk)]; simpl.
  - destruct (path_after m m' p (lasta base_ pre) (p + sz * HDR) base_ post) as [Hp' Hr']; [done|done|done|intros; apply Hsame; hlia|done|].
    assert (Hg : gaps (endof (base_ + 4) pre) post) by (eapply gaps_weaken; [exact Hg2|hlia]).
    split_and!; try done; [|tauto]. destruct post as [|[x j] post]; simpl in *; [hlia|lia].
  - destruct (path_after m m' p p (p + sz * HDR) base_ post) as [Hp' Hr']; [done|done|done|intros; apply Hsame; hlia|done|].
    assert (Hg : gaps (p + k * HDR) post) by (eapply gaps_weaken; [exact Hg2|hlia]).
    split_and!; try (done || lia).
    + destruct post as [|[x j] post]; simpl in *; [hlia|lia].
    + intros x j. rewrite !elem_of_app, elem_of_cons. intros [?|[?|?]]; [tauto| |tauto]. right. by simplify_eq.
Qed.

Lemma gaps_apart lo pre p sz post x j :
  gaps lo (pre ++ (p, sz) :: post) -> (x, j) ∈ pre ++ post -> apart p sz x j.
Proof.
  rewrite gaps_app. simpl. intros (H1 & H2 & _ & _ & H3) [Hx|Hx]%elem_of_app.
  - pose proof (gaps_in _ _ _ _ H1 Hx). hlia.
  - pose proof (gaps_in _ _ _ _ H3 Hx). hlia.
Qed.

Lemma ok_taken h pre p sz post A m' mid a n :
  ok h (pre ++ (p, sz) :: post) A -> taken (mem h) m' (lasta base_ pre) p sz a n mid ->
  ok (Heap m' (lasta base_ pre) (brk h)) (pre ++ mid ++ post) (<[a := n]> A) /\ A !! a = None /\ kept A h (Heap m' (lasta base_ pre) (brk h)).
Proof.
  intros [Hp Hr H0 Hg Hfp (Hb & [Hb4 Hb8] & Htop4 & Htop) Hu Hfree Hap] Ht. pose proof (taken_ring _ _ _ _ _ _ _ _ _ Hp Hr Hg Ht) as (Tp & Tr & Tg & Te & Tin).
  destruct Ht as [Hn Hm He Hsame Hmid]. destruct (gaps_in _ _ p sz Hg) as (Hplo & Hp4 & Hsz & Hptop); [set_solver|].
  assert (Hpa : p <= a /\ a mod 4 = 0).
  { destruct Hmid as [(_ & -> & _)|(k & _ & ? & -> & _)]; [done|]. split; [hlia|]. unfold HDR. replace (p + k * 8) with (p + k * 2 * 4) by lia. by rewrite Z_mod_plus_full. }
  assert (Hother : forall b k, A !! b = Some k -> apart b k p sz) by (intros; eapply Hfree; [done|set_solver]).
  assert (HPout : forall b k w, A !! b = Some k -> b <= w < b + k * HDR -> m' w = mem h w).
  { intros b k w Hbk Hw. pose proof (Hother _ _ Hbk). destruct (Hu _ _ Hbk) as (? & ? & ? & ? & ?). apply Hsame; [|hlia].
    rewrite gaps_app in Hg. apply (last_header_apart pre b k); [apply Hg|intros; apply (Hfree b k); [done|set_solver]|done|done]. }
  assert (Hnone : A !! a = None) by (apply eq_None_not_Some; intros [k Hk]; pose proof (Hother _ _ Hk); destruct (Hu _ _ Hk) as (? & ? & ? & ? & ?); hlia).
  assert (Hin : forall x k, (x, k) ∈ pre ++ post -> (x, k) ∈ pre ++ (p, sz) :: post) by set_solver.
  split_and!; [|done|done]. constructor; cbn [mem freep brk]; [done|done| |done| | |..].
  - rewrite Hsame; [done| |lia]. rewrite gaps_app in Hg. pose proof (lasta_base _ (proj1 Hg)). lia.
  - exists (length pre). split; [rewrite length_app; lia|]. by rewrite node_pre.
  - split_and!; [done|done|done|done|lia|lia].
  - intros b k [[<- <-]|[Hne Hbk]]%lookup_insert_Some; [split_and!; [lia|lia|lia|lia|done]|].
    destruct (Hu _ _ Hbk) as (? & ? & ? & ? & ?). split_and!; [done|done|done|done|]. rewrite (HPout b k) by (done || hlia). done.
  - intros b k x j [[<- <-]|[Hne Hbk]]%lookup_insert_Some [Hx|(-> & Hj & Haj)]%Tin.
    + pose proof (gaps_apart _ _ _ _ _ _ _ Hg Hx). pose proof (Hin _ _ Hx) as Hx'. pose proof (gaps_in _ _ _ _ Hg Hx'). hlia.
    + hlia.
    + by apply Hfree, Hin.
    + pose proof (Hother _ _ Hbk). hlia.
  - intros b k c j [[<- <-]|[Hne Hbk]]%lookup_insert_Some [[<- <-]|[Hne' Hcj]]%lookup_insert_Some Hbc; [done|..|by apply (Hap b k c j)].
    + pose proof (Hother _ _ Hcj). hlia.
    + pose proof (Hother _ _ Hbk). hlia.
Qed.

Lemma take_from_run h pre p sz post A nunits :
  ok h (pre ++ (p, sz) :: post) A -> 1 <= nunits <= sz ->
  wp (take_from nunits (lasta base_ pre) p sz) (fun r h' => exists a fs', r = a + HDR /\ A !! a = None /\ ok h' fs' (<[a := nunits]> A) /\ kept A h h') h.
Proof.
  intros Hok Hn. pose proof (ok_limits _ _ _ Hok) as (Hb & [_ Hb8] & _ & Htop). pose proof (ok_gaps _ _ _ Hok) as Hg. pose proof (ok_path _ _ _ Hok) as Hp.
  destruct (gaps_in _ _ p sz Hg) as (Hplo & _ & _ & Hptop); [set_solver|]. rewrite ring_path_app in Hp. simpl in Hp. destruct Hp as (_ & HP & Hsz & _).
  rewrite gaps_app in Hg. simpl in Hg. pose proof (gaps_lasta _ _ (proj1 Hg)) as (G1 & G2 & _).
  unfold take_from. apply wp_bind. unfold ptr, size, set_ptr, set_size. apply wp_if; intros Hc.
  - repeat wp_step. destruct (ok_taken h pre p sz post A (upd (mem h) (lasta base_ pre) (mem h p)) [] p nunits Hok) as (H1 & H2 & H3).
    { constructor; [lia|rewrite store_ne by lia; lia|lia|by intros; rewrite store_ne by lia|]. left. by rewrite store_eq. }
    eexists p, _. split_and!; [by rewrite u32_small by hlia|done|exact H1|done].
  - repeat wp_step. set (k := u32 (sz - nunits)). assert (Hk : k = sz - nunits) by (apply u32_small; hlia).
    cbn [mem freep brk set_freep]. rewrite store_eq, (u32_small (p + k * HDR)) by hlia. set (m' := upd _ _ _).
    destruct (ok_taken h pre p sz post A m' [(p, k)] (p + k * HDR) nunits Hok) as (H1 & H2 & H3).
    { constructor; [lia|by unfold m'; rewrite store_eq|hlia|intros; unfold m'; rewrite !store_ne by hlia; done|]. right. exists k.
      unfold m'. split_and!; [done|lia|done|by rewrite !store_ne by hlia|by rewrite !store_ne by hlia|by rewrite store_ne, store_eq by hlia]. }
    eexists (p + k * HDR), _. split_and!; [by rewrite u32_small by hlia|done|exact H1|done].
Qed.

(** ** The search *)

(** Positions of the ring: the one before, the one after, and the distance. *)
Definition before (fs : list blk) (i : nat) : nat := match i with O => length fs | S i => i end.
Definition after (fs : list blk) (i : nat) : nat := if decide (i < length fs)%nat then S i else O.
Definition dist (fs : list blk) (i j : nat) : nat := if decide (i <= j)%nat then (j - i)%nat else (length fs + 1 - i + j)%nat.

Lemma node_inj fs i j : gaps (base_ + 4) fs -> (i <= length fs)%nat -> (j <= length fs)%nat -> node fs i = node fs j -> i = j.
Proof.
  intros Hg Hi Hj He. destruct (decide (i < j)%nat); [pose proof (node_lt fs i j Hg); lia|].
  destruct (decide (j < i)%nat); [pose proof (node_lt fs j i Hg); lia|lia].
Qed.

Lemma node_after h fs A i :
  ok h fs A -> (i <= length fs)%nat -> mem h (node fs i) = node fs (after fs i) /\ (after fs i <= length fs)%nat /\ before fs (after fs i) = i.
Proof.
  intros Hok Hi. unfold after. case_decide.
  - destruct (node_next _ _ _ (ok_path _ _ _ Hok) H) as [-> _]. split_and!; [done|lia|done].
  - replace i with (length fs) by lia. rewrite node_last, (ok_ring _ _ _ Hok). split_and!; [done|lia|done].
Qed.

Lemma node_size h fs A i :
  ok h fs A -> (i <= length fs)%nat -> i = O /\ mem h (node fs i + 4) = 0 \/ exists j, i = S j /\ fs !! j = Some (node fs i, mem h (node fs i + 4)).
Proof.
  intros Hok Hi. destruct i as [|j]; [left; split; [done|]; apply (ok_base _ _ _ Hok)|]. right. exists j.
  by destruct (node_next _ _ j (ok_path _ _ _ Hok)) as [_ ->].
Qed.

(** The result of [malloc]: none, when neither the ring nor the kernel has a block
    of that size, or a new block. *)
Definition malloced (h : heap) (A : gmap Z Z) (nunits r : Z) (h' : heap) : Prop :=
  (r = 0 /\ h' = h /\ (exists fs, ok h fs A /\ forall x k, (x, k) ∈ fs -> k < nunits) /\
     (USERTOP < brk h + more nunits * HDR \/ grant (brk h) (more nunits * HDR) = false)) \/
  (exists a fs', r = a + HDR /\ A !! a = None /\ ok h' fs' (<[a := nunits]> A) /\ kept A h h').

(** At [p], position [i], on the way to [freep]; on the second round there is a
    block that is large enough on the way. *)
Definition searching (h : heap) (A : gmap Z Z) (nunits : Z) (n : nat) (st : Z * Z) (h' : heap) : Prop :=
  exists fs i f, ok h' fs A /\ (i <= length fs)%nat /\ (f <= length fs)%nat /\ st = (node fs (before fs i), node fs i) /\ freep h' = node fs f /\ kept A h h' /\
    (h' = h /\ (forall j, (j <= length fs)%nat -> (dist fs i f < dist fs j f)%nat -> mem h (node fs j + 4) < nunits) /\
       n = (dist fs i f + Z.to_nat USERTOP)%nat \/
     exists g, (g <= length fs)%nat /\ nunits <= mem h' (node fs g + 4) /\ (dist fs i g <= dist fs i f)%nat /\ n = dist fs i g).

Lemma search_more h fs A f nunits n fuel :
  ok h fs A -> (f <= length fs)%nat -> freep h = node fs f -> 1 <= nunits < 2 ^ 28 -> (length fs < fuel)%nat -> (Z.to_nat USERTOP <= n)%nat ->
  (forall j, (j <= length fs)%nat -> mem h (node fs j + 4) < nunits) ->
  wp (q ← morecore grant fuel nunits; if q =? 0 then mret (inr 0) else next ← ptr q; mret (inl (q, next)))
     (fun r h' => match r with inl st => exists n', (n' < n)%nat /\ searching h A nunits n' st h' | inr r => malloced h A nunits r h' end) h.
Proof.
  intros Hok Hf Hfp Hn Hfu HN Hsmall. apply wp_bind. eapply wp_mono; [by apply (morecore_run h fs A)|].
  intros q h' [(-> & -> & Hno)|(Hq & Hq0 & fs' & Hok' & Hk & x & k & Hx & Hk')]; cbn beta.
  - apply wp_ret. left. split_and!; [done|done| |done]. exists fs. split; [done|]. intros y j [i Hi]%list_elem_of_lookup.
    destruct (node_next _ _ i (ok_path _ _ _ Hok) (lookup_lt_Some _ _ _ Hi)) as [_ Hi']. rewrite Hi in Hi'. simplify_eq. apply Hsmall. apply lookup_lt_Some in Hi. lia.
  - replace (q =? 0) with false by lia. unfold ptr. apply wp_bind, wp_gets, wp_ret.
    destruct (ok_freep _ _ _ Hok') as (f' & Hf' & Hfp'). apply list_elem_of_lookup in Hx as [g Hg]. pose proof (lookup_lt_Some _ _ _ Hg) as Hgl.
    destruct (node_next _ _ g (ok_path _ _ _ Hok') Hgl) as [_ Hg']. rewrite Hg in Hg'. simplify_eq.
    destruct (node_after _ _ _ _ Hok' Hf') as (Ha & Ha1 & Ha2). pose proof (ok_length _ _ _ Hok').
    exists (dist fs' (after fs' f') (S g)). split; [unfold dist; case_decide; hlia|].
    exists fs', (after fs' f'), f'. split_and!; [done|done|done|by rewrite Ha2, Hfp', Ha|done|done|]. right. exists (S g).
    split_and!; [lia|done| |done]. clear -Hf' Hgl. unfold dist, after in *. repeat case_decide; lia.
Qed.

Lemma search_step h A nunits n st h' fuel :
  1 <= nunits < 2 ^ 28 -> (Z.to_nat USERTOP <= fuel)%nat -> searching h A nunits n st h' ->
  wp (search grant fuel nunits st)
     (fun r h' => match r with inl st => exists n', (n' < n)%nat /\ searching h A nunits n' st h' | inr r => malloced h A nunits r h' end) h'.
Proof.
  intros Hn Hfu (fs & i & f & Hok & Hi & Hf & -> & Hfp & Hk & Hcase). unfold search, size.
  apply wp_bind, wp_gets. pose proof (ok_length _ _ _ Hok). pose proof (ok_gaps _ _ _ Hok) as Hg. apply wp_if; intros Hc.
  - destruct (node_size _ _ _ _ Hok Hi) as [[-> Hz]|(j & -> & Hj)]; [lia|]. set (sz := mem h' (node fs (S j) + 4)) in *. cbn [before].
    pose proof (take_drop_middle _ _ _ Hj) as Hsplit. rewrite <- Hsplit in Hok.
    apply wp_bind. eapply wp_mono; [apply (take_from_run h' (take j fs) (node fs (S j)) sz (drop (S j) fs) A); [exact Hok|lia]|].
    intros r h2 (a & fs' & -> & Ha & Hok' & Hk'). apply wp_ret. right. exists a, fs'. split_and!; [done|done|done|by eapply kept_trans].
  - apply wp_bind, wp_gets. apply wp_if; intros Hp.
    + assert (i = f) as -> by (apply (node_inj fs); [done|done|done|lia]).
      destruct Hcase as [(-> & Hsmall & ->)|(g & Hgl & Hgn & Hd & ->)].
      * apply (search_more h fs A f); [done|done|done|done|hlia|unfold dist; case_decide; lia|].
        intros j Hj. destruct (decide (j = f)) as [->|Hne]; [lia|]. apply Hsmall; [done|]. unfold dist. repeat case_decide; lia.
      * assert (g = f) as -> by (unfold dist in Hd; repeat case_decide; lia). lia.
    + destruct (node_after _ _ _ _ Hok Hi) as (Ha & Ha1 & Ha2). unfold ptr. apply wp_bind, wp_gets, wp_ret.
      assert (Hne : i <> f) by (intros ->; lia).
      assert (Hdi : forall g, (g <= length fs)%nat -> i <> g -> dist fs i g = S (dist fs (after fs i) g)).
      { clear -Hi. intros g Hg Hne. unfold dist, after. repeat case_decide; lia. }
      destruct Hcase as [(-> & Hsmall & ->)|(g & Hgl & Hgn & Hd & ->)].
      * exists (dist fs (after fs i) f + Z.to_nat USERTOP)%nat. rewrite (Hdi f) by done. split; [lia|].
        exists fs, (after fs i), f. split_and!; [done|done|done|by rewrite Ha2, Ha|done|done|]. left. split_and!; [done| |done].
        intros j Hj Hlt. destruct (decide (j = i)) as [->|Hji]; [lia|]. apply Hsmall; [done|]. rewrite (Hdi f) by done.
        clear -Hlt Hji Hj Hi Hf Hne. unfold dist, after in *. repeat case_decide; lia.
      * assert (Hig : i <> g) by (intros ->; lia). exists (dist fs (after fs i) g). rewrite (Hdi g) in * by done. rewrite (Hdi f) in * by done. split; [lia|].
        exists fs, (after fs i), f. split_and!; [done|done|done|by rewrite Ha2, Ha|done|done|]. right. exists g. split_and!; [done|done|lia|done].
Qed.

(** ** Histories *)

(** Before the first call of [malloc] the ring is not there. *)
Definition untouched (h : heap) : Prop :=
  freep h = 0 /\ 0 < base_ /\ base_ mod 4 = 0 /\ base_ + HDR <= brk h <= USERTOP /\ brk h mod 4 = 0.

Definition inv (h : heap) (A : gmap Z Z) : Prop := untouched h /\ A = ∅ \/ exists fs, ok h fs A.

Lemma units_enough nbytes : 0 <= nbytes < 2 ^ 31 - 16 -> 1 <= units nbytes < 2 ^ 28 /\ nbytes <= (units nbytes - 1) * HDR.
Proof.
  intros Hn. unfold units, HDR. rewrite (u32_small (nbytes + 8)), (u32_small (nbytes + 8 - 1)) by lia.
  rewrite u32_small by (Z.div_mod_to_equations; lia). Z.div_mod_to_equations; lia.
Qed.

(** The state in which the search starts. *)
Definition started (h : heap) : heap := if freep h =? 0 then Heap (upd (upd (mem h) base_ base_) (base_ + 4) 0) base_ (brk h) else h.

Lemma inv_started h A : inv h A -> exists fs, ok (started h) fs A.
Proof.
  intros [[(Hf & Hb & Hb4 & Hb8 & Htop) ->]|[fs Hok]]; unfold started.
  - rewrite Hf, Z.eqb_refl. exists []. constructor; cbn [mem freep brk]; [done|simpl; by rewrite store_ne, store_eq by lia|by rewrite store_eq|done| | |by intros ? ?|by intros ? ? ? ?|by intros ? ?].
    + exists 0%nat. split; [simpl; lia|done].
    + simpl. split_and!; hlia.
  - pose proof (ok_limits _ _ _ Hok) as (Hb & _). destruct (ok_freep _ _ _ Hok) as (i & Hi & Hfp).
    pose proof (node_pos fs i (ok_gaps _ _ _ Hok) Hb Hi). replace (freep h =? 0) with false by lia. by exists fs.
Qed.

Lemma malloc_run h A nbytes fuel :
  inv h A -> 0 <= nbytes < 2 ^ 31 - 16 -> (2 * Z.to_nat USERTOP <= fuel)%nat ->
  wp (malloc base_ grant fuel nbytes) (fun r h' => malloced (started h) A (units nbytes) r h') h.
Proof.
  intros Hinv Hn Hfu. destruct (inv_started _ _ Hinv) as [fs Hok]. destruct (units_enough nbytes Hn) as [Hu _].
  assert (Hgo : forall k : unit -> M heap Z, (forall h', h' = started h -> wp (k tt) (fun r h' => malloced (started h) A (units nbytes) r h') h') ->
    wp (when (freep h =? 0) (_ ← modify (set_freep base_); _ ← set_ptr base_ base_; set_size base_ 0) ≫= k) (fun r h' => malloced (started h) A (units nbytes) r h') h).
  { intros k Hk. apply wp_bind, wp_when; intros Hc.
    - unfold set_ptr, set_size. repeat wp_step. apply Hk. unfold started. by rewrite Hc.
    - apply Hk. unfold started. by rewrite Hc. }
  unfold malloc. apply wp_bind, wp_gets. apply Hgo. intros h' ->. unfold ptr. apply wp_bind, wp_gets, wp_bind, wp_gets.
  destruct (ok_freep _ _ _ Hok) as (f & Hf & Hfp). destruct (node_after _ _ _ _ Hok Hf) as (Ha & Ha1 & Ha2). pose proof (ok_length _ _ _ Hok).
  apply (wp_loop_ghost (searching (started h) A (units nbytes)) _ _ _ (dist fs (after fs f) f + Z.to_nat USERTOP)).
  - intros n st s Hs. apply search_step; [done|lia|done].
  - exists fs, (after fs f), f. split_and!; [done|done|done|by rewrite Ha2, Hfp, Ha|done|done|]. left. split_and!; [done| |done].
    intros j Hj Hlt. exfalso. clear -Hj Hlt Hf. unfold dist, after in Hlt. repeat case_decide; lia.
  - unfold dist. case_decide; hlia.
Qed.

(** What a program does with its memory: calls, and stores in its blocks.  The
    second component lists the blocks in use with their sizes; [None] is a
    call that does not return, or a misuse. *)
Inductive act := Malloc (nbytes : Z) | Free (ap : Z) | Store (w v : Z).

Definition act_step (fuel : nat) (c : act) (s : heap * gmap Z Z) : option (heap * gmap Z Z) :=
  let '(h, A) := s in
  match c with
  | Malloc nbytes =>
      if bool_decide (0 <= nbytes < 2 ^ 31 - 16) then
        match malloc base_ grant fuel nbytes h with
        | Ok r h' => Some (h', if r =? 0 then A else <[r - HDR := units nbytes]> A)
        | _ => None
        end
      else None
  | Free ap =>
      match A !! (ap - HDR), free fuel ap h with
      | Some _, Ok _ h' => Some (h', delete (ap - HDR) A)
      | _, _ => None
      end
  | Store w v =>
      if bool_decide (map_Exists (fun a n => a + HDR <= w < a + n * HDR) A) then Some (Heap (upd (mem h) w v) (freep h) (brk h), A) else None
  end.

Fixpoint acts (fuel : nat) (cs : list act) (s : heap * gmap Z Z) : option (heap * gmap Z Z) :=
  match cs with
  | [] => Some s
  | c :: cs => s ← act_step fuel c s; acts fuel cs s
  end.

(** A store in a block in use is outside of the ring. *)
Lemma ok_store h fs A a n w v :
  ok h fs A -> A !! a = Some n -> a + HDR <= w < a + n * HDR -> ok (Heap (upd (mem h) w v) (freep h) (brk h)) fs A.
Proof.
  intros [Hp Hr H0 Hg Hfp Hl Hu Hfree Hap] Ha Hw. destruct (Hu _ _ Ha) as (Hlo & Ha4 & Hn & Htop & Hs).
  assert (Hring : forall i, (i <= length fs)%nat -> w <> node fs i /\ w <> node fs i + 4).
  { intros [|i] Hi; [rewrite node_0; hlia|]. destruct (node_next _ _ i Hp) as [_ Hi']; [lia|]. apply list_elem_of_lookup_2 in Hi'.
    pose proof (Hfree _ _ _ _ Ha Hi'). pose proof (gaps_in _ _ _ _ Hg Hi'). hlia. }
  assert (Hpath : forall l x, (forall i, (i <= length l)%nat -> w <> lasta x (take i l) /\ w <> lasta x (take i l) + 4) -> path (mem h) x l -> path (upd (mem h) w v) x l).
  { clear. induction l as [|[y k] l IH]; intros x Hx; simpl; [done|]. intros (<- & H2 & H3). pose proof (Hx 0%nat ltac:(lia)) as [G1 _]. pose proof (Hx 1%nat ltac:(simpl; lia)) as [_ G2]. simpl in G1, G2.
    split_and!; [by rewrite store_ne by lia|by rewrite store_ne by (simpl in *; lia)|]. apply IH; [|done]. intros i Hi. apply (Hx (S i)). simpl. lia. }
  pose proof (Hring 0%nat ltac:(lia)). pose proof (Hring (length fs) ltac:(lia)). rewrite node_0, node_last in *.
  constructor; cbn [mem freep brk]; [by apply Hpath|by rewrite store_ne by lia|by rewrite store_ne by lia|done|done|done| |done|done].
  intros b k Hb. destruct (Hu _ _ Hb) as (? & ? & ? & ? & ?). split_and!; [done|done|done|done|]. rewrite store_ne; [done|].
  destruct (decide (a = b)) as [->|Hne]; [simplify_eq; hlia|]. pose proof (Hap _ _ _ _ Ha Hb Hne). hlia.
Qed.

Lemma act_step_inv fuel c h A h' A' :
  inv h A -> (2 * Z.to_nat USERTOP <= fuel)%nat -> act_step fuel c (h, A) = Some (h', A') -> inv h' A'.
Proof.
  intros Hinv Hfu. destruct c as [nbytes|ap|w v]; cbn [act_step].
  - case_bool_decide as Hn; [|done]. destruct (wp_elim _ _ _ (malloc_run h A nbytes fuel Hinv Hn Hfu)) as (r & h1 & -> & Hr). intros [= <- <-]. right.
    destruct Hr as [(-> & -> & [fs [Hok _]] & _)|(a & fs & -> & _ & Hok & _)]; [by exists fs|]. exists fs.
    pose proof (ok_used _ _ _ Hok a (units nbytes) ltac:(by rewrite lookup_insert_eq)). pose proof (ok_limits _ _ _ Hok).
    replace (a + HDR =? 0) with false by hlia. by replace (a + HDR - HDR) with a by lia.
  - destruct (A !! (ap - HDR)) as [n|] eqn:Ha; [|done]. destruct Hinv as [[_ ->]|[fs Hok]]; [done|]. pose proof (ok_length _ _ _ Hok).
    destruct (wp_elim _ _ _ (free_run h fs A (ap - HDR) n fuel Hok Ha ltac:(hlia))) as (r & h1 & Hrun & fs' & Hok' & _).
    replace (ap - HDR + HDR) with ap in Hrun by lia. rewrite Hrun. intros [= <- <-]. right. by exists fs'.
  - case_bool_decide as Hw; [|done]. intros [= <- <-]. destruct Hw as (a & n & Ha & Hw). destruct Hinv as [[_ ->]|[fs Hok]]; [done|]. right. exists fs. by apply (ok_store h fs A a n).
Qed.
End Correct.

Lemma acts_inv base_ grant fuel cs : forall h A h' A',
  inv base_ h A -> (2 * Z.to_nat USERTOP <= fuel)%nat -> acts base_ grant fuel cs (h, A) = Some (h', A') -> inv base_ h' A'.
Proof.
  induction cs as [|c cs IH]; intros h A h' A' Hinv Hfu; cbn [acts]; [by intros [= <- <-]|].
  intros ([h1 A1] & Hs & Hr)%bind_Some. eapply IH; [|done|exact Hr]. by eapply act_step_inv.
Qed.

(** The blocks in use lie between [base] and the break, and apart. *)
Definition well_apart (base_ : Z) (h : heap) (A : gmap Z Z) : Prop :=
  (forall a n, A !! a = Some n -> base_ + 4 < a /\ a + n * HDR <= brk h) /\
  (forall a n b k, A !! a = Some n -> A !! b = Some k -> a <> b -> apart a n b k).

Lemma ok_well_apart base_ h fs A : ok base_ h fs A -> well_apart base_ h A.
Proof. intros Hok. split; [|by apply (ok_apart _ _ _ _ Hok)]. intros a n Ha. destruct (ok_used _ _ _ _ Hok _ _ Ha) as (?&?&?&?&?). done. Qed.

(** C32: malloc and free are correct.  After any history of calls and of stores in
    the blocks in use, those blocks do not overlap; every [malloc] returns, with
    0 only if all free blocks are too small and the kernel gives no memory, or
    else with a block of at least the size asked for that is apart from the
    others; every [free] of a block in use returns; and neither changes a word of
    the other blocks. *)
Theorem allocator_correct base_ grant fuel cs m0 brk0 h A :
  untouched base_ (Heap m0 0 brk0) -> (2 * Z.to_nat USERTOP <= fuel)%nat -> acts base_ grant fuel cs (Heap m0 0 brk0, ∅) = Some (h, A) ->
  well_apart base_ h A /\
  (forall nbytes, 0 <= nbytes < 2 ^ 31 - 16 -> exists r h', malloc base_ grant fuel nbytes h = Ok r h' /\ kept A h h' /\
     (r = 0 /\ (exists fs, path (mem h') base_ fs /\ mem h' (lasta base_ fs) = base_ /\ Forall (fun '(_, k) => k < units nbytes) fs) /\
        (USERTOP < brk h + more (units nbytes) * HDR \/ grant (brk h) (more (units nbytes) * HDR) = false) \/
      exists a, r = a + HDR /\ A !! a = None /\ nbytes <= (units nbytes - 1) * HDR /\ well_apart base_ h' (<[a := units nbytes]> A))) /\
  (forall a n, A !! a = Some n -> exists h', free fuel (a + HDR) h = Ok tt h' /\ kept (delete a A) h h' /\ well_apart base_ h' (delete a A)).
Proof.
  intros Hu Hfu Hacts. assert (Hinv : inv base_ h A) by (eapply acts_inv; [left; done|done|exact Hacts]). split_and!.
  - destruct Hinv as [[_ ->]|[fs Hok]]; [by split|by eapply ok_well_apart].
  - intros nbytes Hn. destruct (wp_elim _ _ _ (malloc_run _ grant h A nbytes fuel Hinv Hn Hfu)) as (r & h' & -> & Hr). exists r, h'. split; [done|].
    assert (Hst : kept A h (started base_ h)).
    { destruct Hinv as [[_ ->]|[fs Hok]]; [done|]. unfold started. destruct (freep h =? 0) eqn:E; [|done]. exfalso.
      destruct (ok_freep _ _ _ _ Hok) as (i & Hi & Hfp). pose proof (ok_limits _ _ _ _ Hok) as [Hb _]. pose proof (node_pos _ fs i (ok_gaps _ _ _ _ Hok) Hb Hi). lia. }
    assert (Hbrk : brk (started base_ h) = brk h) by (unfold started; by case_match). unfold malloced in Hr. rewrite Hbrk in Hr.
    destruct Hr as [(-> & -> & [fs [Hok Hsm]] & Hno)|(a & fs & -> & Ha & Hok & Hk)].
    + split; [done|]. left. split_and!; [done| |done]. exists fs. split_and!; [apply (ok_path _ _ _ _ Hok)|apply (ok_ring _ _ _ _ Hok)|].
      apply Forall_forall. intros [x k] Hx. by apply (Hsm x).
    + split; [by eapply kept_trans|]. right. exists a. split_and!; [done|done|by apply units_enough|by eapply ok_well_apart].
  - intros a n Ha. destruct Hinv as [[_ ->]|[fs Hok]]; [done|]. pose proof (ok_length _ _ _ _ Hok).
    destruct (wp_elim _ _ _ (free_run _ grant h fs A a n fuel Hok Ha ltac:(hlia))) as ([] & h' & -> & fs' & Hok' & Hk & _). exists h'.
    split_and!; [done|done|by eapply ok_well_apart].
Qed.

(** ** An example *)

Definition demo_fuel : nat := 2 * Z.to_nat USERTOP.
Definition demo_heap : heap := Heap (fun _ => 7) 0 8192.
Definition demo_acts : list act := [Malloc 10; Malloc 20; Store 40912 5; Free 40944; Malloc 3].
Definition demo_end : heap * gmap Z Z := default (demo_heap, ∅) (acts 100 (fun _ _ => true) demo_fuel demo_acts (demo_heap, ∅)).

Lemma default_Some {T} (o : option T) d : match o with Some _ => true | None => false end = true -> o = Some (default d o).
Proof. by destruct o. Qed.

Lemma allocator_correct_witness :
  well_apart 100 (fst demo_end) (snd demo_end) /\ map_to_list (snd demo_end) = [(40904, 4); (40944, 2)] /\ mem (fst demo_end) 40912 = 5 /\
  exists h', free demo_fuel 40912 (fst demo_end) = Ok tt h' /\ kept (delete 40904 (snd demo_end)) (fst demo_end) h'.
Proof.
  destruct (allocator_correct 100 (fun _ _ => true) demo_fuel demo_acts (fun _ => 7) 8192 (fst demo_end) (snd demo_end)) as (H1 & _ & H3).
  - unfold untouched. vm_compute. split_and!; (done || discriminate).
  - unfold demo_fuel. lia.
  - change (fun _ : Z => 7) with (mem demo_heap). rewrite <- surjective_pairing. apply default_Some. vm_compute. reflexivity.
  - split_and!; [exact H1|vm_compute; reflexivity|vm_compute; reflexivity|].
    destruct (H3 40904 4) as (h' & Hf & Hk & _); [vm_compute; reflexivity|]. exists h'. split; [exact Hf|exact Hk].
Defined.
