(* ===== verification/Bootmain.v ===== *)
(** * The boot loader: [src/bootmain.c]

    The boot sector reads the kernel, an ELF file that starts at sector 1 of the
    first disk, into memory and jumps to its entry point.  The disk is that of
    [Ide] (class [Ata], with the protocol [AtaSpec]); memory is a function from
    32-bit addresses to bytes. *)

From stdpp Require Import base numbers list gmap strings.
From Stdlib Require Import Lia ZArith ZifyBool.
From S2P Require Import Prelude Ide Exec.
Open Scope Z_scope.

Definition SECTSIZE : Z := 512.

(** ** Memory *)

(** The bytes [bs] stored from address [a] on. *)
Definition put (a : Z) (bs : list Z) (m : Z -> Z) : Z -> Z :=
  fun x => default (m x) (bs !! Z.to_nat (u32 (x - a))).

(** The [n] bytes at [a]. *)
Definition get (m : Z -> Z) (a : Z) (n : nat) : list Z :=
  (fun i => m (u32 (a + Z.of_nat i))) <$> seq 0 n.

(** [stosb(addr, data, cnt)] of [x86.h] *)
Definition stosb (addr data cnt : Z) (m : Z -> Z) : Z -> Z :=
  fun x => if u32 (x - addr) <? cnt then data else m x.

Record boot `{Ata} := Boot { bhw : hw; mem : Z -> Z }.

Section Boot.
Context `{HA : Ata}.

Definition inp (p : Z) : M boot Z :=
  fun s => let '(r, h) := inb p (bhw s) in Ok r (Boot _ h (mem s)).
Definition outp (p v : Z) : M boot unit :=
  modify (fun s => Boot _ (outb p (u8 v) (bhw s)) (mem s)).
Definition set_mem (f : (Z -> Z) -> Z -> Z) : M boot unit :=
  modify (fun s => Boot _ (bhw s) (f (mem s))).

(** [insl(port, addr, cnt)] *)
Definition insl_to (port addr cnt : Z) : M boot unit :=
  fun s => let '(d, h) := insl port cnt (bhw s) in Ok tt (Boot _ h (put addr d (mem s))).

(** ** bootmain.c *)

Definition waitdisk (fuel : nat) : M boot unit :=
  loop fuel (fun _ : unit =>
    r ← inp 0x1f7;
    mret (if negb (Z.land r 0xC0 =? 0x40) then inl tt else inr tt)) tt.

Definition readsect (fuel : nat) (dst offset : Z) : M boot unit :=
  waitdisk fuel;;
  outp 0x1f2 1;;
  outp 0x1f3 offset;;
  outp 0x1f4 (Z.shiftr offset 8);;
  outp 0x1f5 (Z.shiftr offset 16);;
  outp 0x1f6 (Z.lor (Z.shiftr offset 24) 0xE0);;
  outp 0x1f7 0x20;;
  waitdisk fuel;;
  insl_to 0x1f0 dst (SECTSIZE / 4).

Definition readseg (fuel : nat) (va count offset : Z) : M boot unit :=
  let eva := u32 (va + count) in
  let va := u32 (va - offset mod SECTSIZE) in
  let offset := offset / SECTSIZE + 1 in
  loop (Z.to_nat (count / SECTSIZE) + 3) (fun '(va, offset) =>
    if va <? eva then
      readsect fuel va offset;;
      mret (inl (u32 (va + SECTSIZE), u32 (offset + 1)))
    else mret (inr tt)) (va, offset).

(** The scratch space the header is read to. *)
Definition elf : Z := 0x10000.

(** The structures of [elf.h] in memory. *)
Definition hdr_at (m : Z -> Z) (a : Z) : elfhdr := read_elfhdr (get m a 52).
Definition ph_at (m : Z -> Z) (a : Z) : proghdr := read_proghdr (get m a 32).

(** The body of the loop over the program headers. *)
Definition load_segment (fuel : nat) (ph : Z) : M boot unit :=
  p ← gets (fun s => ph_at (mem s) ph);
  let va := ph_va p in
  readseg fuel va (ph_filesz p) (ph_offset p);;
  p ← gets (fun s => ph_at (mem s) ph);
  when (ph_filesz p <? ph_memsz p)
    (set_mem (stosb (u32 (va + ph_filesz p)) 0 (ph_memsz p - ph_filesz p))).

(** The address jumped to, or [None] when it returns to [bootasm.S]. *)
Definition bootmain (fuel : nat) : M boot (option Z) :=
  readseg fuel elf 4096 0;;
  h ← gets (fun s => hdr_at (mem s) elf);
  if negb (e_magic h =? ELF_MAGIC) then mret None else
  let ph := u32 (elf + e_phoff h) in
  let eph := u32 (ph + sizeof_proghdr * e_phnum h) in
  loop (Z.to_nat (e_phnum h) + 1) (fun ph =>
    if ph <? eph then
      load_segment fuel ph;;
      mret (inl (u32 (ph + sizeof_proghdr)))
    else mret (inr tt)) ph;;
  h ← gets (fun s => hdr_at (mem s) elf);
  mret (Some (e_entry h)).
End Boot.

(** ** What is on the disk *)

(** Byte [x] of the kernel file, which starts at sector 1 of disk 0. *)
Definition kbyte (d : sectors) (x : Z) : Z :=
  nth (Z.to_nat (x mod SECTSIZE)) (blk d (0, 1 + x / SECTSIZE)) 0.

(** Its headers. *)
Definition khdr (d : sectors) : elfhdr := hdr_at (kbyte d) 0.
Definition kph (d : sectors) (i : Z) : proghdr := ph_at (kbyte d) (e_phoff (khdr d) + sizeof_proghdr * i).

(** The memory [readseg] writes: whole sectors around [va, va + count). *)
Definition seg_lo (va offset : Z) : Z := va - offset mod SECTSIZE.
Definition seg_hi (va count offset : Z) : Z :=
  seg_lo va offset + SECTSIZE * ((count + offset mod SECTSIZE + 511) / SECTSIZE).

Definition ph_lo (p : proghdr) : Z := seg_lo (ph_va p) (ph_offset p).
Definition ph_hi (p : proghdr) : Z :=
  Z.max (seg_hi (ph_va p) (ph_filesz p) (ph_offset p)) (ph_va p + ph_memsz p).
Definition ph_end (p : proghdr) : Z := ph_va p + Z.max (ph_filesz p) (ph_memsz p).

Definition disk_bytes (d : sectors) : Prop := forall k, bytes (blk d k) /\ length (blk d k) = 512%nat.

(** A kernel the loader can load: its headers are in the first page of the
    file; each segment lies in memory and in the 128 GB the disk commands reach,
    off the scratch page; and the sectors of a segment do not run over an
    earlier segment. *)
Record kernel_ok (d : sectors) : Prop := {
  k_magic : e_magic (khdr d) = ELF_MAGIC;
  k_headers : e_phoff (khdr d) + sizeof_proghdr * e_phnum (khdr d) <= 4096;
  k_fits : forall i, 0 <= i < e_phnum (khdr d) ->
    0 <= ph_lo (kph d i) /\ ph_hi (kph d i) < 2 ^ 32 /\
    ph_offset (kph d i) + ph_filesz (kph d i) < 2 ^ 37 - 2 ^ 10 /\
    (ph_hi (kph d i) <= elf \/ elf + 4096 <= ph_lo (kph d i));
  k_apart : forall i j, 0 <= j < i -> i < e_phnum (khdr d) ->
    ph_end (kph d j) <= ph_lo (kph d i) \/ ph_hi (kph d i) <= ph_va (kph d j)
}.

(** The segment [p] of the kernel on [d] is in memory. *)
Definition loaded (d : sectors) (p : proghdr) (m : Z -> Z) : Prop :=
  (forall k, 0 <= k < ph_filesz p -> m (ph_va p + k) = kbyte d (ph_offset p + k)) /\
  (forall k, ph_filesz p <= k < ph_memsz p -> m (ph_va p + k) = 0).

(** ** Memory lemmas *)

Lemma put_in a bs m x : 0 <= x - a < Z.of_nat (length bs) -> Z.of_nat (length bs) <= 2 ^ 32 ->
  put a bs m x = nth (Z.to_nat (x - a)) bs 0.
Proof.
  intros H Hl. unfold put. rewrite u32_small by lia.
  destruct (lookup_lt_is_Some_2 bs (Z.to_nat (x - a)) ltac:(lia)) as [b Hb].
  rewrite Hb. simpl. by rewrite (nth_lookup_Some _ _ _ _ Hb).
Qed.

Lemma put_out a bs m x : 0 <= a -> a + Z.of_nat (length bs) <= 2 ^ 32 -> 0 <= x < 2 ^ 32 ->
  x < a \/ a + Z.of_nat (length bs) <= x -> put a bs m x = m x.
Proof.
  intros Ha Hl Hx Hd. unfold put. rewrite lookup_ge_None_2; [done|].
  assert (u32 (x - a) = if x <? a then x - a + 2 ^ 32 else x - a) as ->; [|split_if; lia].
  unfold u32. split_if; [|rewrite Z.mod_small; lia].
  rewrite <- (Z_mod_plus_full (x - a) 1), Z.mod_small; lia.
Qed.

Lemma stosb_zeroes a v n m x : 0 <= a -> 0 <= n -> a + n <= 2 ^ 32 -> 0 <= x < 2 ^ 32 ->
  stosb a v n m x = if (a <=? x) && (x <? a + n) then v else m x.
Proof.
  intros. unfold stosb, u32. destruct (a <=? x) eqn:E.
  - rewrite Z.mod_small by lia. simpl. destruct (x <? a + n) eqn:E2; split_if; lia.
  - rewrite <- (Z_mod_plus_full (x - a) 1), Z.mod_small by lia. simpl. split_if; lia.
Qed.

Lemma get_ext m m' a a' n :
  (forall i, 0 <= i < Z.of_nat n -> m (u32 (a + i)) = m' (u32 (a' + i))) -> get m a n = get m' a' n.
Proof.
  intros H. apply list_fmap_ext. intros i x Hx%lookup_seq. apply H. lia.
Qed.

Lemma bytes_get m a n : (forall x, is_byte (m x)) -> bytes (get m a n).
Proof. intros H. apply Forall_fmap, Forall_true. intros; apply H. Qed.

Lemma is_byte_kbyte d x : disk_bytes d -> is_byte (kbyte d x).
Proof.
  intros Hd. unfold kbyte. destruct (Hd (0, 1 + x / SECTSIZE)) as [Hb Hl].
  destruct (nth_lookup_or_length (blk d (0, 1 + x / SECTSIZE)) (Z.to_nat (x mod SECTSIZE)) 0) as [E|E].
  - eapply Forall_lookup_1 in E; done.
  - pose proof (Z.mod_pos_bound x SECTSIZE eq_refl). unfold SECTSIZE in *. lia.
Qed.

(** ** Reading sectors *)

Section Correct.
Context `{HS : AtaSpec}.

Lemma wp_waitdisk (Q : unit -> boot -> Prop) s :
  (forall h, hdisk h = hdisk (bhw s) -> hpend h = hpend (bhw s) -> (forall p, hreg h p = hreg (bhw s) p) ->
     Q tt (Boot _ h (mem s))) ->
  wp (waitdisk POLLS) Q s.
Proof.
  intros HQ.
  apply (wp_loop (fun _ s' => mem s' = mem s /\ hdisk (bhw s') = hdisk (bhw s) /\
                    hpend (bhw s') = hpend (bhw s) /\ forall p, hreg (bhw s') p = hreg (bhw s) p)
           (fun _ s' => hpolls (bhw s'))); [|done|apply polls_bound].
  intros [] s1 (Hm & Hd & Hp & Hr). apply wp_bind. unfold wp at 1, inp.
  pose proof (inb_status (bhw s1)) as Hin. destruct (inb 0x1f7 (bhw s1)) as [r h].
  destruct Hin as (Hst & Hd' & Hp' & Hr'). apply wp_ret.
  change (Z.lor IDE_BSY IDE_DRDY) with 0xC0 in Hst. change IDE_DRDY with 0x40 in Hst.
  destruct (Z.eqb_spec (Z.land r 0xC0) 0x40) as [E|E]; simpl.
  - rewrite Hm. apply HQ; try congruence; intros p; by rewrite Hr'.
  - destruct Hst as [[]|[Hlt _]]; [done|]. repeat split; try done; try congruence; intros p; by rewrite Hr'.
Qed.

Lemma wp_outp p v (Q : unit -> boot -> Prop) s : 0x1f2 <= p <= 0x1f6 ->
  (forall h, hdisk h = hdisk (bhw s) -> hreg h p = u8 v -> (forall q, q <> p -> hreg h q = hreg (bhw s) q) ->
     Q tt (Boot _ h (mem s))) ->
  wp (outp p v) Q s.
Proof.
  intros Hp HQ. unfold outp. apply wp_modify.
  pose proof (outb_reg p (u8 v) (bhw s) (or_introl Hp) (u8_range v)) as (Hd & Hv & Ho).
  by apply HQ.
Qed.

(** The registers select the sector on the first disk. *)
Lemma lba_offset (r : Z -> Z) off : 0 <= off < 2 ^ 28 ->
  r 0x1f3 = u8 off -> r 0x1f4 = u8 (Z.shiftr off 8) -> r 0x1f5 = u8 (Z.shiftr off 16) ->
  r 0x1f6 = u8 (Z.lor (Z.shiftr off 24) 0xE0) -> lba r = (0, off).
Proof.
  intros Ho H3 H4 H5 H6. unfold lba. rewrite H3, H4, H5, H6.
  rewrite !Z.shiftr_div_pow2 by lia.
  assert (E : Z.lor (off / 2 ^ 24) 0xE0 = off / 2 ^ 24 + 0xE0).
  { symmetry. apply Z.add_nocarry_lor. apply Z.bits_inj'. intros n Hn. rewrite Z.land_spec, Z.bits_0.
    destruct (decide (n < 4)).
    - assert (n = 0 \/ n = 1 \/ n = 2 \/ n = 3) as [->|[->|[->| ->]]] by lia; by rewrite andb_false_r.
    - rewrite (Z.bits_above_log2 (off / 2 ^ 24)); [done|apply Z.div_pos; lia|].
      destruct (decide (off / 2 ^ 24 = 0)) as [->|]; [simpl; lia|].
      apply Z.log2_lt_pow2; [Z.div_mod_to_equations; lia|].
      apply Z.lt_le_trans with (2 ^ 4); [Z.div_mod_to_equations; lia|apply Z.pow_le_mono_r; lia]. }
  rewrite E. unfold u8. f_equal; Z.div_mod_to_equations; lia.
Qed.

Lemma wp_readsect dst off (Q : unit -> boot -> Prop) s : 0 <= off < 2 ^ 28 ->
  (forall h, hdisk h = hdisk (bhw s) -> Q tt (Boot _ h (put dst (blk (hdisk (bhw s)) (0, off)) (mem s)))) ->
  wp (readsect POLLS dst off) Q s.
Proof.
  intros Ho HQ. unfold readsect. wp_step. apply wp_waitdisk. intros h0 Hd0 _ _.
  wp_step. apply wp_outp; [lia|]. intros h1 Hd1 Hv1 Hr1.
  wp_step. apply wp_outp; [lia|]. intros h2 Hd2 Hv2 Hr2.
  wp_step. apply wp_outp; [lia|]. intros h3 Hd3 Hv3 Hr3.
  wp_step. apply wp_outp; [lia|]. intros h4 Hd4 Hv4 Hr4.
  wp_step. apply wp_outp; [lia|]. intros h5 Hd5 Hv5 Hr5. cbn [bhw mem] in *.
  wp_step. unfold outp. apply wp_modify. change (u8 0x20) with IDE_CMD_READ. cbn [bhw mem].
  destruct (outb_read h5) as [Hd6 Hp6]; [by rewrite Hr5, Hr4, Hr3, Hr2, Hv1 by lia|].
  rewrite (lba_offset _ off Ho) in Hp6 by (by rewrite ?Hr5, ?Hr4, ?Hr3, ?Hv5, ?Hv4, ?Hv3, ?Hv2 by lia).
  wp_step. apply wp_waitdisk. intros h7 Hd7 Hp7 _. cbn [bhw mem] in *.
  unfold wp, insl_to. cbn [bhw mem].
  pose proof (insl_data h7 (0, off)) as Hin. change (SECTSIZE / 4) with (BSIZE / 4).
  destruct (insl 0x1f0 (BSIZE / 4) h7) as [dd h8]. destruct Hin as [-> Hd8]; [congruence|].
  replace (hdisk h7) with (hdisk (bhw s)) by congruence. apply HQ. congruence.
Qed.

(** A sector read at its place is that part of the file. *)
Lemma put_sector d m a0 off k x :
  disk_bytes d -> 0 <= a0 -> 0 <= k -> 0 <= off -> off mod SECTSIZE = 0 -> a0 + SECTSIZE * (k + 1) <= 2 ^ 32 -> 0 <= x < 2 ^ 32 ->
  put (a0 + SECTSIZE * k) (blk d (0, 1 + off / SECTSIZE + k)) m x =
  if (a0 + SECTSIZE * k <=? x) && (x <? a0 + SECTSIZE * (k + 1)) then kbyte d (off + (x - a0)) else m x.
Proof.
  intros Hd Ha Hk Ho Hm Hhi Hx. destruct (Hd (0, 1 + off / SECTSIZE + k)) as [_ Hl]. unfold SECTSIZE in *.
  destruct (a0 + 512 * k <=? x) eqn:E1, (x <? a0 + 512 * (k + 1)) eqn:E2; simpl;
    try (apply put_out; rewrite ?Hl; lia).
  rewrite put_in by (rewrite Hl; lia). unfold kbyte, SECTSIZE.
  replace ((off + (x - a0)) mod 512) with (x - (a0 + 512 * k)) by (Z.div_mod_to_equations; lia).
  by replace (1 + (off + (x - a0)) / 512) with (1 + off / 512 + k) by (Z.div_mod_to_equations; lia).
Qed.

Lemma wp_readseg va count off (Q : unit -> boot -> Prop) s :
  let d := hdisk (bhw s) in
  disk_bytes d -> 0 <= count -> 0 <= off -> 0 <= seg_lo va off -> seg_hi va count off < 2 ^ 32 ->
  off + count < 2 ^ 37 - 2 ^ 10 ->
  (forall s', hdisk (bhw s') = d ->
     (forall x, 0 <= x < 2 ^ 32 ->
        mem s' x = if (seg_lo va off <=? x) && (x <? seg_hi va count off) then kbyte d (off + (x - va)) else mem s x) ->
     Q tt s') ->
  wp (readseg POLLS va count off) Q s.
Proof.
  intros d Hd Hc Ho Hlo Hhi Hoff HQ. unfold readseg. unfold seg_hi in Hhi, HQ. unfold SECTSIZE in *.
  set (lo := seg_lo va off) in *. set (n := (count + off mod 512 + 511) / 512) in *.
  assert (Hva : va = lo + off mod 512) by (unfold lo, seg_lo, SECTSIZE; lia).
  assert (Hn : 512 * (n - 1) < count + off mod 512 <= 512 * n).
  { unfold n. Z.div_mod_to_equations. lia. }
  pose proof (Z.mod_pos_bound off 512 eq_refl) as Hmod.
  set (off0 := 512 * (off / 512)).
  assert (Hoff0 : off = off0 + off mod 512) by (unfold off0; Z.div_mod_to_equations; lia).
  assert (H0 : 0 <= off / 512) by (apply Z.div_pos; lia).
  assert (Hoff1 : off0 / 512 = off / 512) by (unfold off0; rewrite Z.mul_comm; by apply Z.div_mul).
  assert (Hn0 : 0 <= n) by lia.
  assert (Hnb : n <= count / 512 + 2) by (unfold n in *; Z.div_mod_to_equations; lia).
  replace (u32 (va - off mod 512)) with lo by (rewrite u32_small; lia).
  rewrite (u32_small (va + count)) by lia.
  apply (wp_loop_ghost (fun g '(a, o) s' => exists k, 0 <= k <= n /\ g = Z.to_nat (n - k) /\
           a = lo + 512 * k /\ o = 1 + off / 512 + k /\ hdisk (bhw s') = d /\
           forall x, 0 <= x < 2 ^ 32 ->
             mem s' x = if (lo <=? x) && (x <? lo + 512 * k) then kbyte d (off0 + (x - lo)) else mem s x)
           _ _ _ (Z.to_nat n)).
  2: { exists 0. rewrite !Z.mul_0_r, !Z.add_0_r, Z.sub_0_r. repeat split; try done; try lia.
       intros x Hx. destruct (lo <=? x) eqn:E1, (x <? lo) eqn:E2; simpl; try done; lia. }
  2: lia.
  intros g [a o] s1 (k & Hk & -> & -> & -> & Hd1 & Hm1).
  destruct (Z.ltb_spec (lo + 512 * k) (va + count)).
  - assert (k < n) by lia.
    wp_step. apply wp_readsect; [Z.div_mod_to_equations; lia|].
    intros h Hh. wp_step. exists (Z.to_nat (n - (k + 1))). split; [lia|]. exists (k + 1).
    rewrite u32_small by lia.
    rewrite u32_small by (Z.div_mod_to_equations; lia).
    cbn [bhw mem]. repeat split; try lia; [congruence|]. intros x Hx.
    rewrite Hd1, <- Hoff1, (put_sector d _ lo off0 k x); try done; unfold SECTSIZE; try lia.
    + rewrite Hm1 by done. split_if; bool_hyps; done || lia.
    + unfold off0. rewrite Z.mul_comm. apply Z.mod_mul. done.
  - assert (k = n) as -> by lia.
    wp_step. apply HQ; [done|]. intros x Hx. rewrite Hm1 by done.
    by replace (off0 + (x - lo)) with (off + (x - va)) by lia.
Qed.

(** ** The headers *)

(** The scratch page holds the first page of the file. *)
Definition hdr_page (d : sectors) (m : Z -> Z) : Prop := forall x, 0 <= x < 4096 -> m (elf + x) = kbyte d x.

Lemma get_page d m o n : hdr_page d m -> 0 <= o -> o + Z.of_nat n <= 4096 ->
  get m (elf + o) n = get (kbyte d) o n.
Proof.
  intros Hp Ho Hn. apply get_ext. intros i Hi. unfold elf in *.
  rewrite !u32_small by lia. rewrite <- Hp by lia. unfold elf. f_equal. lia.
Qed.

Lemma hdr_at_page d m : hdr_page d m -> hdr_at m elf = khdr d.
Proof. intros Hp. unfold khdr, hdr_at. by rewrite <- (get_page d m 0) by done. Qed.

Lemma ph_at_page d m o : hdr_page d m -> 0 <= o -> o + 32 <= 4096 -> ph_at m (elf + o) = ph_at (kbyte d) o.
Proof. intros. unfold ph_at. by rewrite (get_page d). Qed.

Lemma ph_range d a : disk_bytes d ->
  let p := ph_at (kbyte d) a in
  0 <= ph_offset p /\ 0 <= ph_va p /\ 0 <= ph_filesz p /\ 0 <= ph_memsz p.
Proof.
  intros Hd p. assert (Hb : bytes (get (kbyte d) a 32)) by (apply bytes_get; intros; by apply is_byte_kbyte).
  repeat split; apply (ldw_range 4 _ _ Hb); by vm_compute; lia.
Qed.

Lemma hdr_range d : disk_bytes d -> 0 <= e_phoff (khdr d) /\ 0 <= e_phnum (khdr d).
Proof.
  intros Hd. assert (Hb : bytes (get (kbyte d) 0 52)) by (apply bytes_get; intros; by apply is_byte_kbyte).
  split; [apply (ldw_range 4 _ _ Hb)|apply (ldw_range 2 _ _ Hb)]; by vm_compute; lia.
Qed.

Lemma seg_hi_ge va count off : va + count <= seg_hi va count off.
Proof. unfold seg_hi, seg_lo, SECTSIZE. Z.div_mod_to_equations. lia. Qed.

(** ** Loading a segment *)

Lemma wp_load_segment o (Q : unit -> boot -> Prop) s :
  let d := hdisk (bhw s) in let p := ph_at (kbyte d) o in
  disk_bytes d -> hdr_page d (mem s) -> 0 <= o -> o + 32 <= 4096 ->
  0 <= ph_lo p -> ph_hi p < 2 ^ 32 -> ph_offset p + ph_filesz p < 2 ^ 37 - 2 ^ 10 ->
  ph_hi p <= elf \/ elf + 4096 <= ph_lo p ->
  (forall s', hdisk (bhw s') = d -> hdr_page d (mem s') -> loaded d p (mem s') ->
     (forall x, 0 <= x < 2 ^ 32 -> x < ph_lo p \/ ph_hi p <= x -> mem s' x = mem s x) -> Q tt s') ->
  wp (load_segment POLLS (elf + o)) Q s.
Proof.
  intros d p Hd Hpg Ho1 Ho2 Hlo Hhi Hoff Hsc HQ.
  destruct (ph_range d o Hd) as (Hpo & Hpv & Hpf & Hpm). fold p in Hpo, Hpv, Hpf, Hpm.
  pose proof (seg_hi_ge (ph_va p) (ph_filesz p) (ph_offset p)) as Hge.
  assert (Hlv : ph_lo p <= ph_va p).
  { unfold ph_lo, seg_lo. pose proof (Z.mod_pos_bound (ph_offset p) SECTSIZE eq_refl). lia. }
  unfold load_segment. wp_step. wp_step. rewrite (ph_at_page d) by done. fold p. cbv zeta.
  wp_step. apply wp_readseg; try done; [unfold ph_hi in Hhi; lia|]. fold d. intros s1 Hd1 Hm1.
  fold (ph_lo p) in Hm1. set (hi1 := seg_hi (ph_va p) (ph_filesz p) (ph_offset p)) in *.
  assert (Hh1 : hi1 <= ph_hi p /\ ph_va p + ph_memsz p <= ph_hi p) by (unfold ph_hi; lia).
  assert (Hpg1 : hdr_page d (mem s1)).
  { intros x Hx. unfold elf in *. rewrite Hm1 by lia. split_if; bool_hyps; [lia|by apply Hpg]. }
  wp_step. wp_step. rewrite (ph_at_page d) by done. fold p. wp_step.
  - unfold set_mem. apply wp_modify. bool_hyps. rewrite u32_small by lia.
    assert (Hst : forall x, 0 <= x < 2 ^ 32 ->
      stosb (ph_va p + ph_filesz p) 0 (ph_memsz p - ph_filesz p) (mem s1) x =
      if (ph_va p + ph_filesz p <=? x) && (x <? ph_va p + ph_memsz p) then 0 else mem s1 x).
    { intros x Hx. rewrite stosb_zeroes by lia.
      by replace (ph_va p + ph_filesz p + (ph_memsz p - ph_filesz p)) with (ph_va p + ph_memsz p) by lia. }
    apply HQ; cbn [bhw mem]; [done| | |].
    + intros x Hx. unfold elf in *. rewrite Hst by lia. split_if; bool_hyps; [lia|by apply Hpg1].
    + split; intros k Hk; rewrite Hst by lia; split_if; bool_hyps; try done; try lia.
      rewrite Hm1 by lia. split_if; bool_hyps; try lia. f_equal. lia.
    + intros x Hx Hout. rewrite Hst by done. split_if; bool_hyps; try lia.
      rewrite Hm1 by done. split_if; bool_hyps; done || lia.
  - bool_hyps. apply HQ; [done|done| |].
    + split; intros k Hk; [|lia]. rewrite Hm1 by lia. split_if; bool_hyps; try lia. f_equal. lia.
    + intros x Hx Hout. rewrite Hm1 by done. split_if; bool_hyps; done || lia.
Qed.

(** ** bootmain *)

Lemma wp_read_header (Q : unit -> boot -> Prop) s :
  disk_bytes (hdisk (bhw s)) ->
  (forall s', hdisk (bhw s') = hdisk (bhw s) -> hdr_page (hdisk (bhw s)) (mem s') -> Q tt s') ->
  wp (readseg POLLS elf 4096 0) Q s.
Proof.
  intros Hd HQ. apply wp_readseg; try done. intros s' Hd' Hm. apply HQ; [done|].
  intros x Hx. rewrite Hm by (unfold elf; lia). change (seg_hi elf 4096 0) with (elf + 4096).
  change (seg_lo elf 0) with elf. split_if; bool_hyps; [f_equal; lia|lia].
Qed.

(** After [i] program headers: the scratch page is intact and the segments so
    far are in memory. *)
Definition segs_loaded (d : sectors) (i : Z) (s : boot) : Prop :=
  hdisk (bhw s) = d /\ hdr_page d (mem s) /\ forall j, 0 <= j < i -> loaded d (kph d j) (mem s).

Lemma wp_next_segment d i (Q : unit -> boot -> Prop) s :
  disk_bytes d -> kernel_ok d -> segs_loaded d i s -> 0 <= i < e_phnum (khdr d) ->
  (forall s', segs_loaded d (i + 1) s' -> Q tt s') ->
  wp (load_segment POLLS (elf + (e_phoff (khdr d) + sizeof_proghdr * i))) Q s.
Proof.
  intros Hd Hk (Hds & Hpg & Hl) Hi HQ. destruct (hdr_range d Hd) as [Hr _].
  pose proof (k_headers d Hk) as Hh. destruct (k_fits d Hk i Hi) as (Hf1 & Hf2 & Hf3 & Hf4).
  unfold sizeof_proghdr in *. subst d.
  apply wp_load_segment; try done; try lia. intros s' Hds' Hpg' Hl' Hout.
  change (ph_at _ _) with (kph (hdisk (bhw s)) i) in Hout.
  apply HQ. split; [done|]. split; [done|]. intros j Hj.
  destruct (decide (j = i)) as [->|]; [done|].
  destruct (ph_range (hdisk (bhw s)) (e_phoff (khdr (hdisk (bhw s))) + sizeof_proghdr * j) Hd) as (_ & Hv & Hfz & Hmz).
  fold (kph (hdisk (bhw s)) j) in Hv, Hfz, Hmz.
  destruct (k_fits _ Hk j) as (_ & Hj2 & _); [lia|].
  pose proof (k_apart _ Hk i j ltac:(lia) ltac:(lia)) as Hap. unfold ph_end in Hap.
  pose proof (seg_hi_ge (ph_va (kph (hdisk (bhw s)) j)) (ph_filesz (kph (hdisk (bhw s)) j)) (ph_offset (kph (hdisk (bhw s)) j))).
  unfold ph_hi in Hj2. destruct (Hl j) as [Hl1 Hl2]; [lia|].
  split; intros k Hk'; (rewrite Hout; [auto|lia|]); lia.
Qed.

(** C35 (functional): If the kernel on the disk can be loaded, [bootmain] jumps to its entry
    point with every segment in memory: the bytes of the file, and zeros up to
    the size in memory.  If the file is not an ELF file, it returns. *)
Theorem bootmain_loads_kernel s :
  let d := hdisk (bhw s) in
  disk_bytes d ->
  (kernel_ok d ->
     wp (bootmain POLLS) (fun r s' => r = Some (e_entry (khdr d)) /\
       forall i, 0 <= i < e_phnum (khdr d) -> loaded d (kph d i) (mem s')) s) /\
  (e_magic (khdr d) <> ELF_MAGIC -> wp (bootmain POLLS) (fun r _ => r = None) s).
Proof.
  intros d Hd. split.
  - intros Hk. unfold bootmain. wp_step. apply wp_read_header; [done|]. intros s1 Hd1 Hp1.
    wp_step. wp_step. rewrite (hdr_at_page d) by done. rewrite (k_magic d Hk), Z.eqb_refl. cbn [negb].
    pose proof (k_headers d Hk) as Hh. destruct (hdr_range d Hd) as [Hr Hn].
    set (o := e_phoff (khdr d)) in *. set (n := e_phnum (khdr d)) in *. unfold elf, sizeof_proghdr in *.
    rewrite (u32_small (0x10000 + o)) by lia. rewrite (u32_small (_ + _)) by lia.
    wp_step. apply (wp_loop_ghost (fun g ph s' => exists i, 0 <= i <= n /\ g = Z.to_nat (n - i) /\
      ph = 0x10000 + (o + 32 * i) /\ segs_loaded d i s') _ _ _ (Z.to_nat n)).
    2: { exists 0. repeat split; try done; lia. }
    2: lia.
    intros g ph s2 (i & Hi & -> & -> & Hs2). wp_step; bool_hyps.
    + wp_step. apply (wp_next_segment d i); try done; [subst n; lia|]. intros s3 Hs3.
      wp_step. rewrite u32_small by lia. exists (Z.to_nat (n - (i + 1))). split; [lia|].
      exists (i + 1). split; [lia|]. split; [done|]. split; [lia|done].
    + wp_step. wp_step. wp_step. wp_step. assert (i = n) as -> by lia. destruct Hs2 as (_ & Hp2 & Hl).
      by rewrite (hdr_at_page d).
  - intros Hk. unfold bootmain. wp_step. apply wp_read_header; [done|]. intros s1 Hd1 Hp1.
    wp_step. wp_step. rewrite (hdr_at_page d) by done. apply Z.eqb_neq in Hk. by rewrite Hk.
Qed.
End Correct.

(** ** A small kernel

    Two segments in one sector: four bytes with a bss of four, and two bytes. *)
Definition demo_sector : list Z :=
  let file :=
    le_enc 4 ELF_MAGIC ++ replicate 20 0 ++ le_enc 4 0x100080 ++ le_enc 4 52 ++ replicate 12 0 ++
    le_enc 2 2 ++ replicate 6 0 ++
    le_enc 4 1 ++ le_enc 4 128 ++ le_enc 4 0x100080 ++ le_enc 4 0x100080 ++ le_enc 4 4 ++ le_enc 4 8 ++ replicate 8 0 ++
    le_enc 4 1 ++ le_enc 4 132 ++ le_enc 4 0x100284 ++ le_enc 4 0x100284 ++ le_enc 4 2 ++ le_enc 4 2 ++ replicate 8 0 ++
    replicate 12 0 ++ [0xbc; 0xde; 0xf0; 0x12; 7; 9] in
  file ++ replicate (512 - length file) 0.

Definition demo_disk : sectors := <[(0, 1) := demo_sector]> ∅.
Definition demo_boot : boot :=
  Boot SimAta.sim_ata (SimAta.Sim demo_disk ∅ SimAta.Ready None None) (fun _ => 0xff).

Lemma demo_disk_bytes : disk_bytes demo_disk.
Proof.
  intros k. unfold demo_disk, blk. destruct (decide (k = (0, 1))) as [->|Hk].
  - rewrite lookup_insert_eq. simpl default. split; [|by vm_compute].
    unfold bytes. apply Forall_forall. intros x Hx.
    assert (Hb : forallb (fun b => (0 <=? b) && (b <? 256)) demo_sector = true) by (by vm_compute).
    rewrite forallb_forall in Hb. apply list_elem_of_In in Hx. specialize (Hb x Hx). unfold is_byte. lia.
  - rewrite lookup_insert_ne by done. rewrite lookup_empty. split; [|by vm_compute].
    apply Forall_replicate. unfold is_byte. lia.
Qed.

Lemma demo_kernel_ok : kernel_ok demo_disk.
Proof.
  assert (En : e_phnum (khdr demo_disk) = 2) by (by vm_compute).
  split; [by vm_compute|by vm_compute| |]; rewrite En.
  - intros i Hi. assert (i = 0 \/ i = 1) as [->| ->] by lia; vm_compute; repeat split; try done; by right.
  - intros i j Hj Hi. assert (i = 1) as -> by lia. assert (j = 0) as -> by lia. left. by vm_compute.
Qed.

Lemma bootmain_loads_kernel_witness :
  wp (bootmain 3) (fun r s' => r = Some 0x100080 /\
    forall i, 0 <= i < 2 -> loaded demo_disk (kph demo_disk i) (mem s')) demo_boot.
Proof. exact (proj1 (bootmain_loads_kernel demo_boot demo_disk_bytes) demo_kernel_ok). Defined.
