(* ===== verification/Intr.v ===== *)
(** * Interrupt controllers and timer: [src/lapic.c], [src/ioapic.c],
      [src/picirq.c], [src/timer.c]

    The hardware is reached by port instructions and by loads and stores of
    physical addresses: the class [Io].  The globals these files share with
    [mp.c] are the record [mach].  [PicSpec], [IoapicSpec], [LapicSpec] and
    [PitSpec] say what the data sheets say of the two 8259A controllers, the I/O
    APIC, the local APIC and the 8253 timer; [Board] is a machine with all of
    them. *)

From stdpp Require Import base numbers list gmap strings list_numbers.
From Stdlib Require Import Lia ZArith ZifyBool.
From S2P Require Import Prelude.
Open Scope Z_scope.

Definition T_IRQ0 : Z := 32.
Definition IRQ_TIMER : Z := 0.
Definition IRQ_ERROR : Z := 19.
Definition IRQ_SPURIOUS : Z := 31.

(** ** The hardware and the globals *)

(** Ports take and give bytes; [ld32], [st32], [st16] and [st8] are accesses to 
    words in memory or device registers, [mem8] is the contents of memory. *)
Class Io := {
  io : Type;
  inb : Z -> io -> Z * io;
  outb : Z -> Z -> io -> io;
  ld32 : Z -> io -> Z * io;
  st32 : Z -> Z -> io -> io;
  st16 : Z -> Z -> io -> io;
  st8 : Z -> Z -> io -> io;
  mem8 : io -> Z -> Z
}.

(** A word of [n] bytes in memory. *)
Definition ldm (m : Z -> Z) (n : nat) (a : Z) : Z := le_dec (m <$> seqZ a (Z.of_nat n)).

Lemma ldm_ext m m' n a : (forall x, a <= x < a + Z.of_nat n -> m x = m' x) -> ldm m n a = ldm m' n a.
Proof.
  intros H. unfold ldm. f_equal. apply list_fmap_ext. intros i x Hx%lookup_seqZ. apply H. lia.
Qed.

Record mach `{Io} := Mach {
  dev : io;
  cpus : gmap Z Z;           (* the id field of cpus[i]; from NCPU on, the memory behind the array *)
  bcpu : Z;                  (* index of the processor bcpu points to *)
  ismp : Z;
  ncpu : Z;
  ioapicid : Z;
  lapic : Z;                 (* the pointers, as addresses *)
  ioapic : Z;
  irqmask : Z;
  fl_if : bool;              (* readeflags() & FL_IF *)
  called : Z;                (* the static counter of cpunum *)
  printed : list (string * list Z)
}.

Section Ops.
Context `{HI : Io}.

Definition set_dev (h : io) (s : mach) : mach :=
  Mach _ h (cpus s) (bcpu s) (ismp s) (ncpu s) (ioapicid s) (lapic s) (ioapic s) (irqmask s) (fl_if s) (called s) (printed s).
Definition set_cpu_id (i v : Z) (s : mach) : mach :=
  Mach _ (dev s) (<[i := v]> (cpus s)) (bcpu s) (ismp s) (ncpu s) (ioapicid s) (lapic s) (ioapic s) (irqmask s) (fl_if s) (called s) (printed s).
Definition set_bcpu (v : Z) (s : mach) : mach :=
  Mach _ (dev s) (cpus s) v (ismp s) (ncpu s) (ioapicid s) (lapic s) (ioapic s) (irqmask s) (fl_if s) (called s) (printed s).
Definition set_ismp (v : Z) (s : mach) : mach :=
  Mach _ (dev s) (cpus s) (bcpu s) v (ncpu s) (ioapicid s) (lapic s) (ioapic s) (irqmask s) (fl_if s) (called s) (printed s).
Definition set_ncpu (v : Z) (s : mach) : mach :=
  Mach _ (dev s) (cpus s) (bcpu s) (ismp s) v (ioapicid s) (lapic s) (ioapic s) (irqmask s) (fl_if s) (called s) (printed s).
Definition set_ioapicid (v : Z) (s : mach) : mach :=
  Mach _ (dev s) (cpus s) (bcpu s) (ismp s) (ncpu s) v (lapic s) (ioapic s) (irqmask s) (fl_if s) (called s) (printed s).
Definition set_lapic (v : Z) (s : mach) : mach :=
  Mach _ (dev s) (cpus s) (bcpu s) (ismp s) (ncpu s) (ioapicid s) v (ioapic s) (irqmask s) (fl_if s) (called s) (printed s).
Definition set_ioapic (v : Z) (s : mach) : mach :=
  Mach _ (dev s) (cpus s) (bcpu s) (ismp s) (ncpu s) (ioapicid s) (lapic s) v (irqmask s) (fl_if s) (called s) (printed s).
Definition set_irqmask (v : Z) (s : mach) : mach :=
  Mach _ (dev s) (cpus s) (bcpu s) (ismp s) (ncpu s) (ioapicid s) (lapic s) (ioapic s) v (fl_if s) (called s) (printed s).
Definition set_called (v : Z) (s : mach) : mach :=
  Mach _ (dev s) (cpus s) (bcpu s) (ismp s) (ncpu s) (ioapicid s) (lapic s) (ioapic s) (irqmask s) (fl_if s) v (printed s).

Definition add_printed (fmt : string) (args : list Z) (s : mach) : mach :=
  Mach _ (dev s) (cpus s) (bcpu s) (ismp s) (ncpu s) (ioapicid s) (lapic s) (ioapic s) (irqmask s) (fl_if s) (called s)
    (printed s ++ [(fmt, args)]).

Definition cprintf (fmt : string) (args : list Z) : M mach unit := modify (add_printed fmt args).

Definition in_b (p : Z) : M mach Z := fun s => let '(r, h) := inb p (dev s) in Ok r (set_dev h s).
Definition out_b (p v : Z) : M mach unit := modify (fun s => set_dev (outb p (u8 v) (dev s)) s).
Definition load (a : Z) : M mach Z := fun s => let '(r, h) := ld32 a (dev s) in Ok r (set_dev h s).
Definition store (a v : Z) : M mach unit := modify (fun s => set_dev (st32 a (u32 v) (dev s)) s).
Definition store16 (a v : Z) : M mach unit := modify (fun s => set_dev (st16 a (u16 v) (dev s)) s).

(** [for] loops over a list of values of the loop variable. *)
Fixpoint for_each {S A} (l : list A) (f : A -> M S unit) : M S unit :=
  match l with [] => mret tt | x :: l => f x;; for_each l f end.

(** ** lapic.c *)

Definition ID : Z := 0x0020 / 4.
Definition VER : Z := 0x0030 / 4.
Definition TPR : Z := 0x0080 / 4.
Definition EOI : Z := 0x00B0 / 4.
Definition SVR : Z := 0x00F0 / 4.
Definition ENABLE : Z := 0x00000100.
Definition ESR : Z := 0x0280 / 4.
Definition ICRLO : Z := 0x0300 / 4.
Definition INIT : Z := 0x00000500.
Definition STARTUP : Z := 0x00000600.
Definition DELIVS : Z := 0x00001000.
Definition ASSERT : Z := 0x00004000.
Definition LEVEL : Z := 0x00008000.
Definition BCAST : Z := 0x00080000.
Definition ICRHI : Z := 0x0310 / 4.
Definition TIMER : Z := 0x0320 / 4.
Definition X1 : Z := 0x0000000B.
Definition PERIODIC : Z := 0x00020000.
Definition PCINT : Z := 0x0340 / 4.
Definition LINT0 : Z := 0x0350 / 4.
Definition LINT1 : Z := 0x0360 / 4.
Definition ERROR : Z := 0x0370 / 4.
Definition MASKED : Z := 0x00010000.
Definition TICR : Z := 0x0380 / 4.
Definition TDCR : Z := 0x03E0 / 4.

(** [lapic[index]] *)
Definition lapicr (index : Z) : M mach Z := l ← gets lapic; load (u32 (l + 4 * index)).

Definition lapicw (index value : Z) : M mach unit :=
  l ← gets lapic;
  store (u32 (l + 4 * index)) value;;
  _ ← lapicr ID;
  mret tt.

Definition lapicinit (fuel : nat) (c : Z) : M mach unit :=
  l ← gets lapic;
  cprintf "lapicinit: %d 0x%x" [c; l];;
  if l =? 0 then mret tt else
  lapicw SVR (Z.lor ENABLE (T_IRQ0 + IRQ_SPURIOUS));;
  lapicw TDCR X1;;
  lapicw TIMER (Z.lor PERIODIC (T_IRQ0 + IRQ_TIMER));;
  lapicw TICR 10000000;;
  lapicw LINT0 MASKED;;
  lapicw LINT1 MASKED;;
  v ← lapicr VER;
  when (4 <=? Z.land (Z.shiftr v 16) 0xFF) (lapicw PCINT MASKED);;
  lapicw ERROR (T_IRQ0 + IRQ_ERROR);;
  lapicw ESR 0;;
  lapicw ESR 0;;
  lapicw EOI 0;;
  lapicw ICRHI 0;;
  lapicw ICRLO (Z.lor (Z.lor BCAST INIT) LEVEL);;
  loop fuel (fun _ : unit =>
    r ← lapicr ICRLO;
    mret (if tst r DELIVS then inl tt else inr tt)) tt;;
  lapicw TPR 0.

(** [ra] is the return address the message shows. *)
Definition cpunum (ra : Z) : M mach Z :=
  i ← gets fl_if;
  when i
    (n ← gets called;
     modify (set_called (s32 (n + 1)));;
     when (n =? 0) (cprintf "cpu called from %x with interrupts enabled" [ra]));;
  l ← gets lapic;
  if negb (l =? 0) then (r ← lapicr ID; mret (Z.shiftr r 24)) else mret 0.

Definition lapiceoi : M mach unit :=
  l ← gets lapic;
  when (negb (l =? 0)) (lapicw EOI 0).

Definition microdelay (us : Z) : M mach unit := mret tt.

Definition IO_RTC : Z := 0x70.

Definition lapicstartap (apicid addr : Z) : M mach unit :=
  out_b IO_RTC 0xF;;
  out_b (IO_RTC + 1) 0x0A;;
  let wrv := Z.lor (Z.shiftl 0x40 4) 0x67 in
  store16 wrv 0;;
  store16 (wrv + 2) (Z.shiftr addr 4);;
  lapicw ICRHI (Z.shiftl apicid 24);;
  lapicw ICRLO (Z.lor (Z.lor INIT LEVEL) ASSERT);;
  microdelay 200;;
  lapicw ICRLO (Z.lor INIT LEVEL);;
  microdelay 100;;
  for_each (seqZ 0 2) (fun _ =>
    lapicw ICRHI (Z.shiftl apicid 24);;
    lapicw ICRLO (Z.lor STARTUP (Z.shiftr addr 12));;
    microdelay 200).

(** ** ioapic.c *)

Definition IOAPIC : Z := 0xFEC00000.
Definition REG_ID : Z := 0x00.
Definition REG_VER : Z := 0x01.
Definition REG_TABLE : Z := 0x10.
Definition INT_DISABLED : Z := 0x00010000.

Definition ioapicread (reg : Z) : M mach Z :=
  p ← gets ioapic; store p reg;; load (u32 (p + 16)).

Definition ioapicwrite (reg data : Z) : M mach unit :=
  p ← gets ioapic; store p reg;; store (u32 (p + 16)) data.

Definition ioapicinit : M mach unit :=
  mp ← gets ismp;
  if mp =? 0 then mret tt else
  modify (set_ioapic IOAPIC);;
  v ← ioapicread REG_VER;
  let maxintr := Z.land (Z.shiftr v 16) 0xFF in
  v ← ioapicread REG_ID;
  let id := Z.shiftr v 24 in
  want ← gets ioapicid;
  when (negb (id =? want)) (cprintf "ioapicinit: id isn't equal to ioapicid; not a MP" []);;
  for_each (seqZ 0 (maxintr + 1)) (fun i =>
    ioapicwrite (REG_TABLE + 2 * i) (Z.lor INT_DISABLED (T_IRQ0 + i));;
    ioapicwrite (REG_TABLE + 2 * i + 1) 0).

Definition ioapicenable (irq cpunum : Z) : M mach unit :=
  mp ← gets ismp;
  if mp =? 0 then mret tt else
  ioapicwrite (REG_TABLE + 2 * irq) (T_IRQ0 + irq);;
  ioapicwrite (REG_TABLE + 2 * irq + 1) (Z.shiftl cpunum 24).

(** ** picirq.c *)

Definition IO_PIC1 : Z := 0x20.
Definition IO_PIC2 : Z := 0xA0.
Definition IRQ_SLAVE : Z := 2.

(** The initial value of [irqmask]. *)
Definition irqmask0 : Z := clr 0xFFFF (Z.shiftl 1 IRQ_SLAVE).

Definition picsetmask (mask : Z) : M mach unit :=
  modify (set_irqmask mask);;
  out_b (IO_PIC1 + 1) mask;;
  out_b (IO_PIC2 + 1) (Z.shiftr mask 8).

Definition picenable (irq : Z) : M mach unit :=
  m ← gets irqmask;
  picsetmask (u16 (clr m (Z.shiftl 1 irq))).

Definition picinit : M mach unit :=
  out_b (IO_PIC1 + 1) 0xFF;;
  out_b (IO_PIC2 + 1) 0xFF;;
  out_b IO_PIC1 0x11;;
  out_b (IO_PIC1 + 1) T_IRQ0;;
  out_b (IO_PIC1 + 1) (Z.shiftl 1 IRQ_SLAVE);;
  out_b (IO_PIC1 + 1) 0x3;;
  out_b IO_PIC2 0x11;;
  out_b (IO_PIC2 + 1) (T_IRQ0 + 8);;
  out_b (IO_PIC2 + 1) IRQ_SLAVE;;
  out_b (IO_PIC2 + 1) 0x3;;
  out_b IO_PIC1 0x68;;
  out_b IO_PIC1 0x0a;;
  out_b IO_PIC2 0x68;;
  out_b IO_PIC2 0x0a;;
  m ← gets irqmask;
  when (negb (m =? 0xFFFF)) (picsetmask m).

(** ** timer.c *)

Definition IO_TIMER1 : Z := 0x040.
Definition TIMER_FREQ : Z := 1193182.
Definition TIMER_DIV (x : Z) : Z := (TIMER_FREQ + x / 2) / x.
Definition TIMER_MODE : Z := IO_TIMER1 + 3.
Definition TIMER_SEL0 : Z := 0x00.
Definition TIMER_RATEGEN : Z := 0x04.
Definition TIMER_16BIT : Z := 0x30.

Definition timerinit : M mach unit :=
  out_b TIMER_MODE (Z.lor (Z.lor TIMER_SEL0 TIMER_RATEGEN) TIMER_16BIT);;
  out_b IO_TIMER1 (TIMER_DIV 100 mod 256);;
  out_b IO_TIMER1 (TIMER_DIV 100 / 256);;
  picenable IRQ_TIMER.
End Ops.
