(* ===== verification/IntrCorrect.v ===== *)
(** * What the interrupt controllers are programmed to do

    The devices' documented behaviour as classes of laws over [Io], and the
    theorems about [picinit], [picenable], [ioapicinit], [ioapicenable],
    [lapicinit], [lapicstartap] and [timerinit] on them. *)

From stdpp Require Import base numbers list gmap strings list_numbers.
From Stdlib Require Import Lia ZArith ZifyBool.
From S2P Require Import Prelude Intr.
Open Scope Z_scope.

(** ** The 8259A *)

(** What the controller expects on its data port: a mask, or the next word of
    its initialisation sequence. *)
Inductive pic_stage := Masks | WantIcw2 | WantIcw3 | WantIcw4.

Record pic := Pic {
  p_stage : pic_stage;
  p_single : bool;           (* ICW1: no cascade *)
  p_need4 : bool;            (* ICW1: ICW4 follows *)
  p_vec : Z;                 (* ICW2 *)
  p_icw3 : Z;
  p_icw4 : Z;
  p_imr : Z;                 (* the interrupt mask *)
  p_smm : bool               (* special mask mode *)
}.

(** A byte on the command port: ICW1 starts the initialisation and clears the
    mask; OCW3 can set or reset special mask mode; OCW2 acknowledges. *)
Definition pic_cmd (v : Z) (p : pic) : pic :=
  if Z.testbit v 4 then Pic WantIcw2 (Z.testbit v 1) (Z.testbit v 0) (p_vec p) (p_icw3 p) 0 0 false
  else if Z.testbit v 3 && Z.testbit v 6 then
    Pic (p_stage p) (p_single p) (p_need4 p) (p_vec p) (p_icw3 p) (p_icw4 p) (p_imr p) (Z.testbit v 5)
  else p.

(** A byte on the data port. *)
Definition pic_data (v : Z) (p : pic) : pic :=
  let last := if p_need4 p then WantIcw4 else Masks in
  match p_stage p with
  | Masks => Pic Masks (p_single p) (p_need4 p) (p_vec p) (p_icw3 p) (p_icw4 p) v (p_smm p)
  | WantIcw2 => Pic (if p_single p then last else WantIcw3) (p_single p) (p_need4 p) (clr v 7) (p_icw3 p) (p_icw4 p) (p_imr p) (p_smm p)
  | WantIcw3 => Pic last (p_single p) (p_need4 p) (p_vec p) v (p_icw4 p) (p_imr p) (p_smm p)
  | WantIcw4 => Pic Masks (p_single p) (p_need4 p) (p_vec p) (p_icw3 p) v (p_imr p) (p_smm p)
  end.

Definition pic_ready (p : pic) : bool := match p_stage p with Masks => true | _ => false end.

(** The vector with which request line [irq] of the pair interrupts the CPU, if
    it does: lines 0 to 7 are the master's, 8 to 15 the slave's, whose output is
    the master's line given by its ICW3. *)
Definition pic_vector (m s : pic) (irq : Z) : option Z :=
  if irq <? 8 then
    if pic_ready m && negb (Z.testbit (p_imr m) irq) && negb (Z.testbit (p_icw3 m) irq)
    then Some (p_vec m + irq) else None
  else
    if pic_ready m && pic_ready s && Z.testbit (p_icw3 m) (p_icw3 s) && negb (Z.testbit (p_imr m) (p_icw3 s))
       && negb (Z.testbit (p_imr s) (irq - 8))
    then Some (p_vec s + (irq - 8)) else None.

Class PicSpec `{Io} := {
  pic1 : io -> pic;
  pic2 : io -> pic;
  pic1_outb : forall p v h, 0 <= v < 256 ->
    pic1 (outb p v h) = if p =? 0x20 then pic_cmd v (pic1 h) else if p =? 0x21 then pic_data v (pic1 h) else pic1 h;
  pic2_outb : forall p v h, 0 <= v < 256 ->
    pic2 (outb p v h) = if p =? 0xA0 then pic_cmd v (pic2 h) else if p =? 0xA1 then pic_data v (pic2 h) else pic2 h
}.

(** ** The I/O APIC *)

(** A register is selected by a store to the first word and accessed at the
    fifth; [ioregs] is what was last stored to each. *)
Class IoapicSpec `{Io} := {
  iosel : io -> Z;
  ioregs : io -> Z -> Z;
  io_entries : forall h, Z.land (Z.shiftr (ioregs h REG_VER) 16) 0xFF <= 119;
  io_select : forall v h, 0 <= v < 256 ->
    iosel (st32 IOAPIC v h) = v /\ forall r, ioregs (st32 IOAPIC v h) r = ioregs h r;
  io_write : forall v h, REG_TABLE <= iosel h -> 0 <= v < 2 ^ 32 ->
    let h' := st32 (IOAPIC + 16) v h in
    iosel h' = iosel h /\ forall r, ioregs h' r = if r =? iosel h then v else ioregs h r;
  io_read : forall h, let '(v, h') := ld32 (IOAPIC + 16) h in
    v = ioregs h (iosel h) /\ iosel h' = iosel h /\ forall r, ioregs h' r = ioregs h r
}.

(** ** The local APIC *)

(** The registers that keep what is stored to them. *)
Definition lapic_regs : list Z := [TPR; SVR; ICRHI; TIMER; PCINT; LINT0; LINT1; ERROR; TICR; TDCR].

(** A message between processors.  A processor that takes a startup message
    runs from the given page; what it will use are the two words before it. *)
Inductive ipi :=
| Msg (dest cmd : Z)
| Start (apicid addr stack entry : Z).

Definition ipi_of (m : Z -> Z) (dest cmd : Z) : ipi :=
  if Z.land cmd 0x700 =? STARTUP then
    let addr := Z.shiftl (Z.land cmd 0xFF) 12 in
    Start (Z.shiftr dest 24) addr (ldm m 4 (addr - 4)) (ldm m 4 (addr - 8))
  else Msg dest cmd.

(** A store to [ICRLO] sends an interprocessor interrupt to the processor in
    [ICRHI]: [ipis] are those sent so far.  Delivery takes a bounded number of
    reads.  The accesses of the driver reach memory at [wrv] and nothing else
    of it. *)
Class LapicSpec `{Io} := {
  lbase : Z;
  lreg : io -> Z -> Z;
  ipis : io -> list ipi;
  lpolls : io -> nat;
  LPOLLS : nat;
  lbase_ok : 0 < lbase /\ lbase + 0x400 <= 2 ^ 32;
  lpolls_bound : forall h, (lpolls h < LPOLLS)%nat;
  la_write : forall i v h, i ∈ lapic_regs -> 0 <= v < 2 ^ 32 ->
    let h' := st32 (lbase + 4 * i) v h in
    lreg h' i = v /\ (forall j, j <> i -> lreg h' j = lreg h j) /\ ipis h' = ipis h /\ forall x, mem8 h' x = mem8 h x;
  la_ack : forall i h, i = EOI \/ i = ESR ->
    let h' := st32 (lbase + 4 * i) 0 h in
    (forall j, lreg h' j = lreg h j) /\ ipis h' = ipis h /\ forall x, mem8 h' x = mem8 h x;
  la_send : forall v h, 0 <= v < 2 ^ 32 ->
    let h' := st32 (lbase + 4 * ICRLO) v h in
    ipis h' = ipis h ++ [ipi_of (mem8 h) (lreg h ICRHI) v] /\ (forall j, lreg h' j = lreg h j) /\ forall x, mem8 h' x = mem8 h x;
  la_read : forall i h, i = ID \/ i = VER \/ i = ICRLO -> let '(v, h') := ld32 (lbase + 4 * i) h in
    (i <> ICRLO -> v = lreg h i) /\
    (i = ICRLO -> tst v DELIVS = true -> (lpolls h' < lpolls h)%nat) /\
    (forall j, lreg h' j = lreg h j) /\ ipis h' = ipis h /\ forall x, mem8 h' x = mem8 h x;
  la_rtc : forall p v h, p = IO_RTC \/ p = IO_RTC + 1 ->
    let h' := outb p v h in
    (forall j, lreg h' j = lreg h j) /\ ipis h' = ipis h /\ forall x, mem8 h' x = mem8 h x;
  la_ram16 : forall a v h, 0 <= a -> a + 2 <= 0xA0000 -> 0 <= v < 2 ^ 16 ->
    let h' := st16 a v h in
    (forall j, lreg h' j = lreg h j) /\ ipis h' = ipis h /\
    forall x, mem8 h' x = if x =? a then v mod 256 else if x =? a + 1 then v / 256 else mem8 h x;
  la_ram8 : forall a v h, 0 <= a < 0xA0000 -> 0 <= v < 2 ^ 8 ->
    let h' := st8 a v h in
    (forall j, lreg h' j = lreg h j) /\ ipis h' = ipis h /\ forall x, mem8 h' x = if x =? a then v else mem8 h x;
  la_ram32 : forall a v h, 0 <= a -> a + 4 <= 0xA0000 -> 0 <= v < 2 ^ 32 ->
    let h' := st32 a v h in
    (forall j, lreg h' j = lreg h j) /\ ipis h' = ipis h /\
    forall x, mem8 h' x = if (a <=? x) && (x <? a + 4) then Z.shiftr v (8 * (x - a)) mod 256 else mem8 h x
}.

(** ** The 8253 timer *)

(** Counter 0: its mode, its divisor, and the low byte when one is pending. *)
Record pit := Pit { t_mode : Z; t_div : Z; t_low : option Z }.

(** A control word that selects counter 0 with 16-bit access; then the low and
    the high byte of the count. *)
Definition pit_ctl (v : Z) (t : pit) : pit :=
  if Z.land v 0xF0 =? 0x30 then Pit (Z.land (Z.shiftr v 1) 7) (t_div t) None else t.
Definition pit_cnt (v : Z) (t : pit) : pit :=
  match t_low t with
  | None => Pit (t_mode t) (t_div t) (Some v)
  | Some lo => Pit (t_mode t) (lo + 256 * v) None
  end.

Class PitSpec `{Io} := {
  pit0 : io -> pit;
  pit_outb : forall p v h, 0 <= v < 256 ->
    pit0 (outb p v h) = if p =? 0x43 then pit_ctl v (pit0 h) else if p =? 0x40 then pit_cnt v (pit0 h) else pit0 h
}.

(** Facts about small numbers by evaluation. *)
Lemma forallb_seqZ (P : Z -> bool) n i : forallb P (seqZ 0 n) = true -> 0 <= i < n -> P i = true.
Proof. intros H Hi. rewrite forallb_forall in H. apply H, list_elem_of_In, elem_of_seqZ. lia. Qed.

Lemma clr_range x m : 0 <= x -> 0 <= clr x m <= x.
Proof.
  intros Hx. unfold clr. split; [apply Z.ldiff_nonneg; lia|].
  assert (E : x - Z.ldiff x m = Z.ldiff x (Z.ldiff x m)).
  { apply Z.sub_nocarry_ldiff. apply Z.bits_inj'. intros n Hn. rewrite !Z.ldiff_spec, Z.bits_0.
    by destruct (Z.testbit x n), (Z.testbit m n). }
  assert (0 <= Z.ldiff x (Z.ldiff x m)) by (apply Z.ldiff_nonneg; lia). lia.
Qed.

(** ** The 8259As: lines are delivered as enabled *)

Section PicCorrect.
Context `{HP : PicSpec}.

(** Both controllers are initialised for vectors from [T_IRQ0] on, and their
    masks are [irqmask]. *)
Definition pics_follow (s : mach) : Prop :=
  0 <= irqmask s < 2 ^ 16 /\
  pic1 (dev s) = Pic Masks false true T_IRQ0 4 3 (u8 (irqmask s)) true /\
  pic2 (dev s) = Pic Masks false true (T_IRQ0 + 8) 2 3 (u8 (Z.shiftr (irqmask s) 8)) true.

Lemma wp_out_b p v (Q : unit -> mach -> Prop) s : Q tt (set_dev (outb p (u8 v) (dev s)) s) -> wp (out_b p v) Q s.
Proof. done. Qed.

(** The laws port by port. *)
Lemma pic1_cmd v h : 0 <= v < 256 -> pic1 (outb 0x20 v h) = pic_cmd v (pic1 h).
Proof. intros Hv. by rewrite pic1_outb. Qed.
Lemma pic1_data v h : 0 <= v < 256 -> pic1 (outb 0x21 v h) = pic_data v (pic1 h).
Proof. intros Hv. by rewrite pic1_outb. Qed.
Lemma pic1_other v h p : 0 <= v < 256 -> p <> 0x20 -> p <> 0x21 -> pic1 (outb p v h) = pic1 h.
Proof. intros Hv H1 H2. rewrite pic1_outb by done. by apply Z.eqb_neq in H1 as ->, H2 as ->. Qed.
Lemma pic2_cmd v h : 0 <= v < 256 -> pic2 (outb 0xA0 v h) = pic_cmd v (pic2 h).
Proof. intros Hv. by rewrite pic2_outb. Qed.
Lemma pic2_data v h : 0 <= v < 256 -> pic2 (outb 0xA1 v h) = pic_data v (pic2 h).
Proof. intros Hv. by rewrite pic2_outb. Qed.
Lemma pic2_other v h p : 0 <= v < 256 -> p <> 0xA0 -> p <> 0xA1 -> pic2 (outb p v h) = pic2 h.
Proof. intros Hv H1 H2. rewrite pic2_outb by done. by apply Z.eqb_neq in H1 as ->, H2 as ->. Qed.

Ltac pics :=
  change (IO_PIC1 + 1) with 0x21; change (IO_PIC2 + 1) with 0xA1; change IO_PIC1 with 0x20; change IO_PIC2 with 0xA0;
  repeat first [rewrite pic1_cmd by (by vm_compute)|rewrite pic1_data by (by vm_compute)
               |rewrite pic2_cmd by (by vm_compute)|rewrite pic2_data by (by vm_compute)
               |rewrite pic1_other by (by vm_compute)|rewrite pic2_other by (by vm_compute)].
Ltac outs := repeat first [wp_step; apply wp_out_b; cbn [dev set_dev]].

Lemma pics_masked m s v1 i1 v2 i2 :
  0 <= m < 2 ^ 16 ->
  pic1 (dev s) = Pic Masks false true T_IRQ0 4 3 v1 i1 -> pic2 (dev s) = Pic Masks false true (T_IRQ0 + 8) 2 3 v2 i2 ->
  i1 = true -> i2 = true -> wp (picsetmask m) (fun _ s' => irqmask s' = m /\ pics_follow s') s.
Proof.
  intros Hm H1 H2 -> ->. unfold picsetmask. wp_step. apply wp_modify. wp_step. apply wp_out_b. apply wp_out_b.
  split; [done|]. unfold pics_follow. cbn [dev set_dev set_irqmask irqmask]. split; [done|].
  rewrite !pic1_outb, !pic2_outb, H1, H2 by apply u8_range. split; done.
Qed.

Lemma picinit_wp s : 0 <= irqmask s < 2 ^ 16 -> irqmask s <> 0xFFFF ->
  wp picinit (fun _ s' => irqmask s' = irqmask s /\ pics_follow s') s.
Proof.
  intros Hm Hne. unfold picinit. outs. wp_step. wp_step. cbn [irqmask set_dev].
  apply Z.eqb_neq in Hne. rewrite Hne. cbn [negb when].
  apply (pics_masked _ _ 0 true 0 true); try done; cbn [dev set_dev].
  - pics. reflexivity.
  - pics. reflexivity.
Qed.

Lemma picenable_wp irq s : 0 <= irq < 16 -> pics_follow s ->
  wp (picenable irq) (fun _ s' => irqmask s' = clr (irqmask s) (2 ^ irq) /\ pics_follow s') s.
Proof.
  intros Hi (Hm & H1 & H2). unfold picenable. wp_step. wp_step. rewrite Z.shiftl_1_l.
  assert (Hr : 0 <= clr (irqmask s) (2 ^ irq) < 2 ^ 16).
  { pose proof (clr_range (irqmask s) (2 ^ irq)). lia. }
  rewrite u16_small by lia. by eapply pics_masked.
Qed.

(** The mask after some lines were enabled. *)
Definition enabled (irqs : list Z) (m : Z) : Z := foldl (fun m irq => clr m (2 ^ irq)) m irqs.

Lemma testbit_enabled irqs m i : 0 <= i -> Forall (fun q => 0 <= q < 16) irqs ->
  Z.testbit (enabled irqs m) i = Z.testbit m i && negb (bool_decide (i ∈ irqs)).
Proof.
  intros Hi Hq. revert m. induction Hq as [|q irqs Hq _ IH]; intros m.
  - simpl. by rewrite andb_true_r.
  - change (enabled (q :: irqs) m) with (enabled irqs (clr m (2 ^ q))). rewrite IH. unfold clr. rewrite Z.ldiff_spec, Z.pow2_bits_eqb by lia.
    rewrite (bool_decide_ext (i ∈ q :: irqs) (q = i \/ i ∈ irqs)) by (rewrite elem_of_cons; naive_solver).
    rewrite bool_decide_or, negb_orb, andb_assoc.
    by destruct (Z.testbit m i), (bool_decide (i ∈ irqs)), (Z.eqb_spec q i); case_bool_decide.
Qed.

Lemma picenable_all_wp irqs s : Forall (fun q => 0 <= q < 16) irqs -> pics_follow s ->
  wp (for_each irqs picenable) (fun _ s' => irqmask s' = enabled irqs (irqmask s) /\ pics_follow s') s.
Proof.
  intros Hq. revert s. induction Hq as [|q irqs Hq _ IH]; intros s Hs; simpl.
  - wp_step. done.
  - wp_step. eapply wp_mono; [by apply picenable_wp|]. intros [] s1 [E Hs1].
    eapply wp_mono; [by apply IH|]. intros [] s2 [E2 Hs2]. split; [|done]. by rewrite E2, E.
Qed.

(** What the CPU sees of a pair of controllers that follow [irqmask]. *)
Lemma pics_follow_vector s irq : pics_follow s -> 0 <= irq < 16 -> irq <> IRQ_SLAVE -> Z.testbit (irqmask s) IRQ_SLAVE = false ->
  pic_vector (pic1 (dev s)) (pic2 (dev s)) irq = if Z.testbit (irqmask s) irq then None else Some (T_IRQ0 + irq).
Proof.
  intros (Hm & H1 & H2) Hi Hne Hsl. unfold IRQ_SLAVE in *. rewrite H1, H2. unfold pic_vector. cbn [pic_ready p_stage p_imr p_icw3 p_vec andb].
  assert (Hlow : forall j, 0 <= j < 8 -> Z.testbit (u8 (irqmask s)) j = Z.testbit (irqmask s) j)
    by (intros; apply Z.mod_pow2_bits_low; lia).
  destruct (Z.ltb_spec irq 8) as [Hlt|Hge].
  - rewrite Hlow by lia. replace (Z.testbit 4 irq) with false.
    + rewrite andb_true_r. by destruct (Z.testbit (irqmask s) irq).
    + change 4 with (2 ^ 2). rewrite Z.pow2_bits_eqb by lia. lia.
  - rewrite (Hlow 2), Hsl by lia. unfold u8. rewrite Z.mod_pow2_bits_low, Z.shiftr_spec by lia.
    replace (irq - 8 + 8) with irq by lia. cbn [negb andb].
    destruct (Z.testbit (irqmask s) irq); [done|]. simpl. f_equal. unfold T_IRQ0. lia.
Qed.

(** C38 (functional): Once [picinit] has run from the initial mask, whatever the controllers were
    doing before, and [picenable] was called for the lines [irqs]: a line
    interrupts the CPU exactly if it was enabled, with vector [T_IRQ0 + irq]. *)
Theorem pic_delivers_enabled irqs s :
  irqmask s = irqmask0 -> Forall (fun q => 0 <= q < 16) irqs ->
  wp (picinit;; for_each irqs picenable)
    (fun _ s' => forall irq, 0 <= irq < 16 -> irq <> IRQ_SLAVE ->
       pic_vector (pic1 (dev s')) (pic2 (dev s')) irq =
       if bool_decide (irq ∈ irqs) then Some (T_IRQ0 + irq) else None) s.
Proof.
  intros H0 Hq. wp_step. eapply wp_mono; [by apply picinit_wp; rewrite H0|]. intros [] s1 [E1 Hs1].
  eapply wp_mono; [by apply picenable_all_wp|]. intros [] s2 [E2 Hs2] irq Hi Hne.
  assert (Hb : forall j, 0 <= j < 16 -> Z.testbit irqmask0 j = negb (j =? 2)).
  { intros j Hj. unfold irqmask0, clr, IRQ_SLAVE. rewrite Z.ldiff_spec. change (Z.shiftl 1 2) with (2 ^ 2).
    change 0xFFFF with (Z.ones 16). rewrite Z.ones_spec_low, Z.pow2_bits_eqb by lia. lia. }
  rewrite pics_follow_vector; try done.
  - rewrite E2, E1, H0, testbit_enabled, Hb by (done || lia). unfold IRQ_SLAVE in Hne.
    replace (irq =? 2) with false by lia. by case_bool_decide.
  - by rewrite E2, E1, H0, testbit_enabled, Hb by (done || (unfold IRQ_SLAVE; lia)).
Qed.
End PicCorrect.

(** ** Loops *)

Section Loops.
Context {S : Type}.

Lemma wp_for_each {A} (I : list A -> S -> Prop) (f : A -> M S unit) l (Q : unit -> S -> Prop) s :
  (forall pre x s, (exists post, l = pre ++ x :: post) -> I pre s -> wp (f x) (fun _ s' => I (pre ++ [x]) s') s) ->
  I [] s -> (forall s', I l s' -> Q tt s') -> wp (for_each l f) Q s.
Proof.
  intros Hstep H0 HQ.
  assert (G : forall post pre s, l = pre ++ post -> I pre s -> wp (for_each post f) Q s).
  { induction post as [|x post IH]; intros pre s1 E HI1; simpl.
    - wp_step. apply HQ. by rewrite E, app_nil_r.
    - wp_step. eapply wp_mono; [apply (Hstep pre); [by exists post|done]|]. intros [] s2 HI2.
      apply (IH (pre ++ [x])); [by rewrite <- app_assoc|done]. }
  by apply (G l []).
Qed.

(** Counting loops. *)
Lemma wp_for_upto (I : Z -> S -> Prop) (f : Z -> M S unit) n (Q : unit -> S -> Prop) s :
  0 <= n ->
  (forall i s, 0 <= i < n -> I i s -> wp (f i) (fun _ s' => I (i + 1) s') s) ->
  I 0 s -> (forall s', I n s' -> Q tt s') -> wp (for_each (seqZ 0 n) f) Q s.
Proof.
  intros Hn Hstep H0 HQ.
  apply (wp_for_each (fun l s => I (Z.of_nat (length l)) s)); [|done|].
  - intros pre x s1 [post E] HI1.
    assert (Hx : seqZ 0 n !! length pre = Some x) by (rewrite E; by apply list_lookup_middle).
    apply lookup_seqZ in Hx as [-> Hlt]. eapply wp_mono; [apply Hstep; [lia|done]|].
    intros [] s2 H2. rewrite length_app. simpl. by replace (Z.of_nat (length pre + 1)) with (0 + Z.of_nat (length pre) + 1) by lia.
  - intros s' H'. apply HQ. rewrite length_seqZ in H'. by replace n with (Z.of_nat (Z.to_nat n)) by lia.
Qed.
End Loops.

(** ** The I/O APIC: interrupts go where they are routed *)

Section IoapicCorrect.
Context `{HA : IoapicSpec}.

(** The vector and the destination of an entry of the redirection table that is
    enabled, edge-triggered, active high and delivered to a processor by its
    APIC id (bits 8 to 16 clear). *)
Definition entry_vector (lo hi : Z) : option (Z * Z) :=
  if Z.land lo 0x1FF00 =? 0 then Some (Z.land lo 0xFF, Z.shiftr hi 24) else None.
Definition io_vector (h : io) (i : Z) : option (Z * Z) :=
  entry_vector (ioregs h (REG_TABLE + 2 * i)) (ioregs h (REG_TABLE + 2 * i + 1)).

(** The index of the last entry. *)
Definition maxintr (h : io) : Z := Z.land (Z.shiftr (ioregs h REG_VER) 16) 0xFF.

Lemma wp_store a v (Q : unit -> mach -> Prop) s : Q tt (set_dev (st32 a (u32 v) (dev s)) s) -> wp (store a v) Q s.
Proof. done. Qed.

Lemma wp_ioapicwrite reg data (Q : unit -> mach -> Prop) s :
  ioapic s = IOAPIC -> REG_TABLE <= reg < 256 ->
  (forall s', ioapic s' = IOAPIC -> ismp s' = ismp s ->
     (forall r, ioregs (dev s') r = if r =? reg then u32 data else ioregs (dev s) r) -> Q tt s') ->
  wp (ioapicwrite reg data) Q s.
Proof.
  intros Hp Hr HQ. unfold REG_TABLE in Hr. unfold ioapicwrite. wp_step. wp_step. rewrite Hp.
  wp_step. apply wp_store. rewrite (u32_small reg) by lia. change (u32 (IOAPIC + 16)) with (IOAPIC + 16).
  apply wp_store. cbn [dev set_dev].
  destruct (io_select reg (dev s)) as [E1 E2]; [lia|].
  destruct (io_write (u32 data) (st32 IOAPIC reg (dev s))) as [_ E3]; [unfold REG_TABLE; lia|apply u32_range|].
  apply HQ; [done|done|]. intros r. cbn [dev set_dev]. by rewrite E3, E1, E2.
Qed.

Lemma wp_ioapicread reg (Q : Z -> mach -> Prop) s :
  ioapic s = IOAPIC -> 0 <= reg < 256 ->
  (forall s', ioapic s' = IOAPIC -> ismp s' = ismp s -> (forall r, ioregs (dev s') r = ioregs (dev s) r) ->
     Q (ioregs (dev s) reg) s') ->
  wp (ioapicread reg) Q s.
Proof.
  intros Hp Hr HQ. unfold ioapicread. wp_step. wp_step. rewrite Hp.
  wp_step. apply wp_store. rewrite (u32_small reg) by lia. change (u32 (IOAPIC + 16)) with (IOAPIC + 16).
  destruct (io_select reg (dev s)) as [E1 E2]; [lia|].
  unfold wp, load. cbn [dev set_dev].
  pose proof (io_read (st32 IOAPIC reg (dev s))) as Hrd. destruct (ld32 _ _) as [v h]. destruct Hrd as (-> & _ & E3).
  rewrite E1, E2. apply HQ; [done|done|]. intros r. cbn [dev set_dev]. by rewrite E3, E2.
Qed.

(** Both halves of an entry. *)
Lemma wp_entry i lo hi (Q : unit -> mach -> Prop) s :
  ioapic s = IOAPIC -> 0 <= i <= 119 ->
  (forall s', ioapic s' = IOAPIC -> ismp s' = ismp s -> maxintr (dev s') = maxintr (dev s) ->
     (forall j, io_vector (dev s') j = if j =? i then entry_vector (u32 lo) (u32 hi) else io_vector (dev s) j) -> Q tt s') ->
  wp (ioapicwrite (REG_TABLE + 2 * i) lo;; ioapicwrite (REG_TABLE + 2 * i + 1) hi) Q s.
Proof.
  intros Hp Hi HQ. unfold REG_TABLE in *.
  wp_step. apply wp_ioapicwrite; [done|unfold REG_TABLE; lia|]. intros s1 Hp1 Hm1 Hr1.
  apply wp_ioapicwrite; [done|unfold REG_TABLE; lia|]. intros s2 Hp2 Hm2 Hr2.
  apply HQ; [done|congruence| |].
  - unfold maxintr, REG_VER. rewrite Hr2, Hr1. split_if; bool_hyps; done || lia.
  - intros j. unfold io_vector, REG_TABLE. rewrite !Hr2, !Hr1. split_if; bool_hyps; done || lia.
Qed.

(** The values the code stores. *)
Lemma entry_disabled i hi : 0 <= i <= 119 -> entry_vector (u32 (Z.lor INT_DISABLED (T_IRQ0 + i))) hi = None.
Proof.
  intros Hi. unfold entry_vector.
  assert (H1 : negb (Z.land (u32 (Z.lor INT_DISABLED (T_IRQ0 + i))) 0x1FF00 =? 0) = true)
    by (apply (forallb_seqZ (fun i => negb (Z.land (u32 (Z.lor INT_DISABLED (T_IRQ0 + i))) 0x1FF00 =? 0)) 120); [by vm_compute|lia]).
  by apply negb_true_iff in H1 as ->.
Qed.

Lemma entry_enabled i c : 0 <= i <= 119 -> 0 <= c < 256 ->
  entry_vector (u32 (T_IRQ0 + i)) (u32 (Z.shiftl c 24)) = Some (T_IRQ0 + i, c).
Proof.
  intros Hi Hc. unfold entry_vector, T_IRQ0. rewrite !u32_small by (rewrite ?Z.shiftl_mul_pow2; lia).
  change 0xFF with (Z.ones 8). rewrite Z.land_ones, Z.mod_small by lia.
  rewrite Z.shiftr_shiftl_l, Z.sub_diag, Z.shiftl_0_r by lia.
  by rewrite (forallb_seqZ (fun i => Z.land (32 + i) 0x1FF00 =? 0) 120 i) by (lia || by vm_compute).
Qed.

Lemma maxintr_bounds h : 0 <= maxintr h <= 119.
Proof. unfold maxintr. split; [apply Z.land_nonneg; by right|apply io_entries]. Qed.

Lemma wp_when_cprintf b f l (Q : unit -> mach -> Prop) s :
  (forall s', dev s' = dev s -> ioapic s' = ioapic s -> ismp s' = ismp s -> Q tt s') -> wp (when b (cprintf f l)) Q s.
Proof. intros HQ. destruct b; [apply wp_modify|apply wp_ret]; by apply HQ. Qed.

Lemma ioapicinit_wp s : ismp s <> 0 ->
  wp ioapicinit (fun _ s' => ioapic s' = IOAPIC /\ ismp s' = ismp s /\ maxintr (dev s') = maxintr (dev s) /\
    forall i, 0 <= i <= maxintr (dev s) -> io_vector (dev s') i = None) s.
Proof.
  intros Hmp. unfold ioapicinit. wp_step. wp_step. apply Z.eqb_neq in Hmp. rewrite Hmp.
  wp_step. apply wp_modify. wp_step. apply wp_ioapicread; [done|done|]. intros s1 Hp1 Hm1 Hr1.
  wp_step. apply wp_ioapicread; [done|done|]. intros s2 Hp2 Hm2 Hr2. cbn [dev set_ioapic ismp] in *.
  wp_step. wp_step. wp_step. apply wp_when_cprintf. intros s3 Hd3 Hp3 Hm3. fold (maxintr (dev s)).
  pose proof (maxintr_bounds (dev s)) as Hmax.
  apply (wp_for_upto (fun n s' => ioapic s' = IOAPIC /\ ismp s' = ismp s /\ maxintr (dev s') = maxintr (dev s) /\
           forall i, 0 <= i < n -> io_vector (dev s') i = None)); [lia| | |].
  - intros i s4 Hi (Hp4 & Hm4 & Hv4 & Hd4). apply wp_entry; [done|lia|]. intros s5 Hp5 Hm5 Hv5 Hr5.
    split; [done|]. split; [congruence|]. split; [congruence|]. intros j Hj. rewrite Hr5.
    destruct (Z.eqb_spec j i) as [->|]; [by apply entry_disabled; lia|by apply Hd4; lia].
  - split; [congruence|]. split; [congruence|]. split; [unfold maxintr; by rewrite Hd3, Hr2, Hr1|]. intros i Hi. lia.
  - intros s' (Hp' & Hm' & Hv' & Hd'). repeat split; try done. intros i Hi. apply Hd'. lia.
Qed.

(** Where each line was last routed. *)
Definition routes (l : list (Z * Z)) : gmap Z Z := foldl (fun t '(irq, c) => <[irq := c]> t) ∅ l.

Lemma routes_snoc l irq c : routes (l ++ [(irq, c)]) = <[irq := c]> (routes l).
Proof. unfold routes. by rewrite foldl_app. Qed.

(** After [ioapicinit] on a multiprocessor and calls of [ioapicenable]: a line of
    the controller interrupts the processor it was last routed to, with vector
    [T_IRQ0 + irq]; a line that was not enabled interrupts nobody. *)
Theorem ioapic_routes_enabled l s :
  ismp s <> 0 -> Forall (fun '(irq, c) => 0 <= irq <= maxintr (dev s) /\ 0 <= c < 256) l ->
  wp (ioapicinit;; for_each l (fun '(irq, c) => ioapicenable irq c))
    (fun _ s' => forall irq, 0 <= irq <= maxintr (dev s) ->
       io_vector (dev s') irq = (fun c => (T_IRQ0 + irq, c)) <$> routes l !! irq) s.
Proof.
  intros Hmp Hl. wp_step. eapply wp_mono; [by apply ioapicinit_wp|]. intros [] s1 (Hp1 & Hm1 & Hv1 & Hd1).
  pose proof (maxintr_bounds (dev s)) as Hmax.
  apply (wp_for_each (fun pre s' => ioapic s' = IOAPIC /\ ismp s' = ismp s /\
           forall irq, 0 <= irq <= maxintr (dev s) ->
             io_vector (dev s') irq = (fun c => (T_IRQ0 + irq, c)) <$> routes pre !! irq)).
  - intros pre [irq c] s2 [post E] (Hp2 & Hm2 & Hr2).
    assert (Hic : 0 <= irq <= maxintr (dev s) /\ 0 <= c < 256).
    { rewrite E in Hl. apply Forall_app in Hl as [_ Hl]. by inversion Hl. }
    unfold ioapicenable. wp_step. wp_step. rewrite Hm2. apply Z.eqb_neq in Hmp as Hmp'. rewrite Hmp'.
    apply wp_entry; [done|lia|]. intros s3 Hp3 Hm3 _ Hr3. split; [done|]. split; [congruence|].
    intros j Hj. rewrite Hr3, routes_snoc. destruct (Z.eqb_spec j irq) as [->|Hne].
    + rewrite lookup_insert_eq. by apply entry_enabled; lia.
    + rewrite lookup_insert_ne by done. by apply Hr2.
  - split; [done|]. split; [done|]. intros irq Hi. by rewrite Hd1.
  - intros s' (_ & _ & H'). done.
Qed.
End IoapicCorrect.

Lemma ipi_of_ext m m' d v : (forall x, m x = m' x) -> ipi_of m d v = ipi_of m' d v.
Proof.
  intros H. unfold ipi_of. destruct (_ =? _); [|done]. f_equal; apply ldm_ext; intros; apply H.
Qed.

(** ** The local APIC *)

Section LapicCorrect.
Context `{HL : LapicSpec}.

(** Two states of the hardware with the same registers, messages and memory. *)
Definition same_lapic (h h' : io) : Prop :=
  (forall j, lreg h' j = lreg h j) /\ ipis h' = ipis h /\ forall x, mem8 h' x = mem8 h x.

Lemma lapic_addr i : 0 <= i < 0x100 -> u32 (lbase + 4 * i) = lbase + 4 * i.
Proof. intros Hi. destruct lbase_ok. apply u32_small. lia. Qed.

Lemma lapic_regs_range i : i ∈ lapic_regs -> 0 <= i < 0x100.
Proof. intros Hi. repeat (apply elem_of_cons in Hi as [->|Hi]; [by vm_compute|]). by apply not_elem_of_nil in Hi. Qed.

Lemma wp_lapicr i (Q : Z -> mach -> Prop) s : lapic s = lbase -> i = ID \/ i = VER ->
  (forall h, same_lapic (dev s) h -> Q (lreg (dev s) i) (set_dev h s)) -> wp (lapicr i) Q s.
Proof.
  intros Hl Hi HQ. unfold lapicr. wp_step. wp_step. rewrite Hl, lapic_addr by (by destruct Hi as [->| ->]; vm_compute).
  unfold wp, load. pose proof (la_read i (dev s)) as Hr. destruct (ld32 _ _) as [v h].
  destruct (Hr ltac:(tauto)) as (Hv & _ & Hs).
  rewrite Hv by (by destruct Hi as [->| ->]; vm_compute). by apply HQ.
Qed.

(** A store to a register and the read that waits for it. *)
Lemma wp_lapicw i v (Q : unit -> mach -> Prop) s :
  lapic s = lbase -> 0 <= i < 0x100 ->
  (forall h, same_lapic (st32 (lbase + 4 * i) (u32 v) (dev s)) h -> Q tt (set_dev h s)) -> wp (lapicw i v) Q s.
Proof.
  intros Hl Hi HQ. unfold lapicw. wp_step. wp_step. rewrite Hl, lapic_addr by done.
  wp_step. apply wp_modify. wp_step. apply wp_lapicr; [done|by left|]. intros h Hh. wp_step. by apply (HQ h).
Qed.

Lemma wp_lapicw_reg i v (Q : unit -> mach -> Prop) s : lapic s = lbase -> i ∈ lapic_regs -> 0 <= v < 2 ^ 32 ->
  (forall h, lreg h i = v -> (forall j, j <> i -> lreg h j = lreg (dev s) j) -> ipis h = ipis (dev s) ->
     (forall x, mem8 h x = mem8 (dev s) x) -> Q tt (set_dev h s)) ->
  wp (lapicw i v) Q s.
Proof.
  intros Hl Hi Hv HQ. apply wp_lapicw; [done|by apply lapic_regs_range|]. intros h (E1 & E2 & E3).
  rewrite u32_small in * by done. destruct (la_write i v (dev s) Hi Hv) as (H1 & H2 & H3 & H4).
  apply HQ; [by rewrite E1| |congruence|by intros; rewrite E3]. intros j Hj. by rewrite E1, H2.
Qed.

Lemma wp_lapicw_ack i (Q : unit -> mach -> Prop) s : lapic s = lbase -> i = EOI \/ i = ESR ->
  (forall h, same_lapic (dev s) h -> Q tt (set_dev h s)) -> wp (lapicw i 0) Q s.
Proof.
  intros Hl Hi HQ. apply wp_lapicw; [done|by destruct Hi as [->| ->]; vm_compute|]. intros h (E1 & E2 & E3).
  change (u32 0) with 0 in *. destruct (la_ack i (dev s) Hi) as (H1 & H2 & H3). apply HQ.
  split; [by intros; rewrite E1|]. split; [congruence|by intros; rewrite E3].
Qed.

Lemma wp_lapicw_send v (Q : unit -> mach -> Prop) s : lapic s = lbase -> 0 <= v < 2 ^ 32 ->
  (forall h, ipis h = ipis (dev s) ++ [ipi_of (mem8 (dev s)) (lreg (dev s) ICRHI) v] -> (forall j, lreg h j = lreg (dev s) j) ->
     (forall x, mem8 h x = mem8 (dev s) x) -> Q tt (set_dev h s)) ->
  wp (lapicw ICRLO v) Q s.
Proof.
  intros Hl Hv HQ. apply wp_lapicw; [done|done|]. intros h (E1 & E2 & E3). rewrite u32_small in * by done.
  destruct (la_send v (dev s) Hv) as (H1 & H2 & H3).
  apply HQ; [congruence|by intros; rewrite E1|by intros; rewrite E3].
Qed.

(** while(lapic[ICRLO] & DELIVS) ; *)
Lemma wp_delivered (Q : unit -> mach -> Prop) s : lapic s = lbase ->
  (forall h, same_lapic (dev s) h -> Q tt (set_dev h s)) ->
  wp (loop LPOLLS (fun _ : unit => r ← lapicr ICRLO; mret (if tst r DELIVS then inl tt else inr tt)) tt) Q s.
Proof.
  intros Hl HQ.
  apply (wp_loop (fun _ s' => exists h, s' = set_dev h s /\ same_lapic (dev s) h) (fun _ s' => lpolls (dev s')));
    [|by exists (dev s); destruct s|apply lpolls_bound].
  intros [] s1 (h & -> & Hh). wp_step. unfold lapicr. wp_step. wp_step.
  cbn [lapic set_dev]. rewrite Hl, lapic_addr by done. unfold wp at 1, load. cbn [dev set_dev].
  pose proof (la_read ICRLO h) as Hr. destruct (ld32 _ _) as [v h'].
  destruct Hr as (_ & Hp & Hr); [tauto|]. wp_step.
  assert (Hs : same_lapic (dev s) h').
  { destruct Hh as (A1 & A2 & A3), Hr as (B1 & B2 & B3). split; [by intros; rewrite B1|].
    split; [congruence|by intros; rewrite B3]. }
  destruct (tst v DELIVS) eqn:E; [|by apply HQ]. split; [by exists h'|]. by apply Hp.
Qed.

(** The state of the APIC after a sequence of accesses from [h0]: the registers
    stored to, and the interrupts sent. *)
Definition lstate (h0 : io) (regs : gmap Z Z) (sent : list ipi) (h : io) : Prop :=
  (forall j, lreg h j = default (lreg h0 j) (regs !! j)) /\ ipis h = ipis h0 ++ sent /\ forall x, mem8 h x = mem8 h0 x.

Lemma lstate_refl h : lstate h ∅ [] h.
Proof. split; [done|]. by rewrite app_nil_r. Qed.

Lemma lstate_same h0 r l h h' : lstate h0 r l h -> same_lapic h h' -> lstate h0 r l h'.
Proof.
  intros (H1 & H2 & H3) (E1 & E2 & E3). split; [intros; by rewrite E1, H1|].
  split; [congruence|intros; by rewrite E3].
Qed.

Lemma wp_lapicw_set h0 r l i v (Q : unit -> mach -> Prop) s :
  lstate h0 r l (dev s) -> lapic s = lbase -> i ∈ lapic_regs -> 0 <= v < 2 ^ 32 ->
  (forall h, lstate h0 (<[i := v]> r) l h -> Q tt (set_dev h s)) -> wp (lapicw i v) Q s.
Proof.
  intros (H1 & H2 & H3) Hl Hi Hv HQ. apply wp_lapicw_reg; try done. intros h E1 E2 E3 E4. apply HQ.
  split; [|split; [congruence|intros; by rewrite E4, H3]].
  intros j. destruct (decide (j = i)) as [->|Hne]; [by rewrite lookup_insert_eq|].
  by rewrite lookup_insert_ne, E2, H1.
Qed.

Lemma wp_lapicw_ipi h0 r l d v (Q : unit -> mach -> Prop) s :
  lstate h0 r l (dev s) -> lapic s = lbase -> 0 <= v < 2 ^ 32 -> r !! ICRHI = Some d ->
  (forall h, lstate h0 r (l ++ [ipi_of (mem8 h0) d v]) h -> Q tt (set_dev h s)) -> wp (lapicw ICRLO v) Q s.
Proof.
  intros (H1 & H2 & H3) Hl Hv Hd HQ. apply wp_lapicw_send; try done. intros h E1 E2 E3. apply HQ.
  split; [intros; by rewrite E2, H1|]. split; [|intros; by rewrite E3, H3].
  rewrite E1, H1, Hd, H2, <- app_assoc. by rewrite (ipi_of_ext _ (mem8 h0)) by done.
Qed.

Lemma wp_lapicw_ack' h0 r l i (Q : unit -> mach -> Prop) s :
  lstate h0 r l (dev s) -> lapic s = lbase -> i = EOI \/ i = ESR ->
  (forall h, lstate h0 r l h -> Q tt (set_dev h s)) -> wp (lapicw i 0) Q s.
Proof. intros Hs Hl Hi HQ. apply wp_lapicw_ack; try done. intros h Hh. apply HQ. by eapply lstate_same. Qed.

(** One access of a known kind. *)
Ltac lapic_op :=
  wp_step;
  lazymatch goal with
  | |- wp (lapicw ICRLO _) _ _ => eapply wp_lapicw_ipi; [eassumption|done|done|reflexivity|]
  | |- wp (lapicw EOI _) _ _ => eapply wp_lapicw_ack'; [eassumption|done|auto|]
  | |- wp (lapicw ESR _) _ _ => eapply wp_lapicw_ack'; [eassumption|done|auto|]
  | |- wp (lapicw _ _) _ _ => eapply wp_lapicw_set; [eassumption|done|by (unfold lapic_regs; set_solver)|done|]
  end;
  let h := fresh "h" in let Hh := fresh "Hh" in intros h Hh.

(** The registers [lapicinit] sets; the performance counter's only where the
    version says there is one. *)
Definition init_regs (ver : Z) : gmap Z Z :=
  let r := <[ERROR := T_IRQ0 + IRQ_ERROR]> (<[ICRHI := 0]> (<[TPR := 0]>
           (<[LINT1 := MASKED]> (<[LINT0 := MASKED]> (<[TICR := 10000000]>
           (<[TIMER := Z.lor PERIODIC (T_IRQ0 + IRQ_TIMER)]> (<[TDCR := X1]>
           (<[SVR := Z.lor ENABLE (T_IRQ0 + IRQ_SPURIOUS)]> ∅)))))))) in
  if 4 <=? Z.land (Z.shiftr ver 16) 0xFF then <[PCINT := MASKED]> r else r.

(** [lapicinit] after the performance counter. *)
Lemma lapicinit_tail h0 r s : lstate h0 r [] (dev s) -> lapic s = lbase ->
  wp (lapicw ERROR (T_IRQ0 + IRQ_ERROR);; lapicw ESR 0;; lapicw ESR 0;; lapicw EOI 0;; lapicw ICRHI 0;;
      lapicw ICRLO (Z.lor (Z.lor BCAST INIT) LEVEL);;
      loop LPOLLS (fun _ : unit => r ← lapicr ICRLO; mret (if tst r DELIVS then inl tt else inr tt)) tt;;
      lapicw TPR 0)
    (fun _ s' => lstate h0 (<[TPR := 0]> (<[ICRHI := 0]> (<[ERROR := T_IRQ0 + IRQ_ERROR]> r)))
                   [Msg 0 (Z.lor (Z.lor BCAST INIT) LEVEL)] (dev s')) s.
Proof.
  intros Hs Hl. do 5 lapic_op. wp_step.
  eapply wp_lapicw_ipi; [eassumption|done|done|by rewrite lookup_insert_eq|]. intros h5 Hh5.
  wp_step. apply wp_delivered; [done|]. intros h6 Hh6. eapply lstate_same in Hh6; [|exact Hh5].
  eapply wp_lapicw_set; [eassumption|done|unfold lapic_regs; set_solver|done|]. by intros h7 Hh7.
Qed.

(** [lapicinit] terminates; it leaves a machine without local APIC alone, and
    otherwise has the APIC enabled, its timer periodic at the timer's vector,
    the error interrupt at its vector, everything else masked, and one
    synchronising INIT broadcast. *)
Theorem lapicinit_programs c s :
  (lapic s = 0 -> wp (lapicinit LPOLLS c) (fun _ s' => dev s' = dev s) s) /\
  (lapic s = lbase -> wp (lapicinit LPOLLS c) (fun _ s' =>
     lstate (dev s) (init_regs (lreg (dev s) VER)) [Msg 0 (Z.lor (Z.lor BCAST INIT) LEVEL)] (dev s')) s).
Proof.
  split; intros Hl; unfold lapicinit; wp_step; wp_step; wp_step; apply wp_modify; rewrite Hl; [by wp_step|].
  destruct lbase_ok as [Hb _]. replace (lbase =? 0) with false by lia.
  pose proof (lstate_refl (dev s)) as H0.
  do 6 lapic_op. wp_step. apply wp_lapicr; [done|by right|]. intros h5 H5. wp_step.
  assert (Hv : lreg (dev s) VER = lreg h4 VER) by (by rewrite (proj1 Hh4)).
  cbn [dev set_dev] in *. rewrite <- Hv in *. unfold init_regs.
  eapply (lstate_same _ _ _ _ h5) in Hh4; [|done].
  wp_step; match goal with E : (4 <=? _) = _ |- _ => rewrite E end.
  - eapply wp_lapicw_set; [exact Hh4|done|unfold lapic_regs; set_solver|done|]. intros h6 Hh6.
    eapply wp_mono; [by eapply (lapicinit_tail (dev s)); [exact Hh6|]|]. by intros [] s' Hs'.
  - eapply wp_mono; [by eapply (lapicinit_tail (dev s)); [exact Hh4|]|]. by intros [] s' Hs'.
Qed.

(** ** Starting a processor *)

(** The universal startup algorithm: INIT asserted and deasserted, and two
    startup messages with the page of the start address. *)
Definition startup_ipis (m : Z -> Z) (apicid addr : Z) : list ipi :=
  let d := Z.shiftl apicid 24 in
  let start := Start apicid addr (ldm m 4 (addr - 4)) (ldm m 4 (addr - 8)) in
  [Msg d (Z.lor (Z.lor INIT LEVEL) ASSERT); Msg d (Z.lor INIT LEVEL); start; start].

(** The warm reset vector at 40:67 holds the start address as segment 0. *)
Definition warm_reset (addr : Z) (m : Z -> Z) : Z -> Z := fun x =>
  if (x =? 0x467) || (x =? 0x468) then 0
  else if x =? 0x469 then Z.shiftr addr 4 mod 256
  else if x =? 0x46A then Z.shiftr addr 4 / 256 else m x.

Lemma startup_page a : 0 <= a < 256 -> Z.lor STARTUP a = 0x600 + a.
Proof.
  intros Ha. apply Z.eqb_eq. by apply (forallb_seqZ (fun a => Z.lor STARTUP a =? 0x600 + a) 256).
Qed.

Lemma ipi_start m apicid addr : 0 <= apicid -> 0 <= addr < 2 ^ 20 -> addr mod 4096 = 0 ->
  ipi_of m (Z.shiftl apicid 24) (Z.lor STARTUP (Z.shiftr addr 12)) =
  Start apicid addr (ldm m 4 (addr - 4)) (ldm m 4 (addr - 8)).
Proof.
  intros Hid Ha Hal. rewrite Z.shiftr_div_pow2 by lia. set (a := addr / 2 ^ 12).
  assert (Hr : 0 <= a < 256) by (unfold a; Z.div_mod_to_equations; lia).
  assert (Hb : (Z.land (Z.lor STARTUP a) 0x700 =? STARTUP) && (Z.land (Z.lor STARTUP a) 0xFF =? a) = true)
    by (by apply (forallb_seqZ (fun a => (Z.land (Z.lor STARTUP a) 0x700 =? STARTUP) && (Z.land (Z.lor STARTUP a) 0xFF =? a)) 256)).
  apply andb_true_iff in Hb as [Hb1 Hb2%Z.eqb_eq]. unfold ipi_of. rewrite Hb1, Hb2.
  rewrite Z.shiftr_shiftl_l, Z.sub_diag, Z.shiftl_0_r by lia.
  replace (Z.shiftl a 12) with addr; [done|]. rewrite Z.shiftl_mul_pow2 by lia. unfold a. Z.div_mod_to_equations. lia.
Qed.

Lemma startup_ipis_ext m m' apicid addr : (forall x, addr - 8 <= x < addr -> m x = m' x) ->
  startup_ipis m apicid addr = startup_ipis m' apicid addr.
Proof.
  intros Hm. unfold startup_ipis.
  by rewrite (ldm_ext m m' 4 (addr - 4)), (ldm_ext m m' 4 (addr - 8)) by (intros; apply Hm; lia).
Qed.

Lemma wp_startup_regs h0 apicid addr s :
  0 <= apicid < 256 -> 0 <= addr < 2 ^ 20 -> addr mod 4096 = 0 -> lapic s = lbase -> lstate h0 ∅ [] (dev s) ->
  wp (lapicw ICRHI (Z.shiftl apicid 24);;
      lapicw ICRLO (Z.lor (Z.lor INIT LEVEL) ASSERT);;
      microdelay 200;;
      lapicw ICRLO (Z.lor INIT LEVEL);;
      microdelay 100;;
      for_each (seqZ 0 2) (fun _ =>
        lapicw ICRHI (Z.shiftl apicid 24);;
        lapicw ICRLO (Z.lor STARTUP (Z.shiftr addr 12));;
        microdelay 200))
    (fun _ s' => exists h, s' = set_dev h s /\ lstate h0 {[ICRHI := Z.shiftl apicid 24]} (startup_ipis (mem8 h0) apicid addr) h) s.
Proof.
  intros Hid Haddr Hal Hl Hs.
  assert (Hd : 0 <= Z.shiftl apicid 24 < 2 ^ 32) by (rewrite Z.shiftl_mul_pow2; lia).
  assert (Hv : 0 <= Z.lor STARTUP (Z.shiftr addr 12) < 2 ^ 32).
  { assert (0 <= Z.shiftr addr 12 < 256) by (rewrite Z.shiftr_div_pow2 by lia; Z.div_mod_to_equations; lia).
    rewrite startup_page; lia. }
  change (seqZ 0 2) with [0; 1]. cbn [for_each]. unfold microdelay.
  do 2 lapic_op. wp_step. wp_step. lapic_op. wp_step. wp_step. wp_step. do 2 lapic_op.
  wp_step. wp_step. do 2 lapic_op. wp_step. wp_step. rewrite !insert_insert_eq, !(ipi_start _ apicid addr) in * by (done || lia).
  eexists. split; [done|]. done.
Qed.

(** [lapicstartap] sets the warm reset vector and sends the startup sequence to
    the processor. *)
Lemma lapicstartap_wp apicid addr s :
  0 <= apicid < 256 -> 0x1000 <= addr < 2 ^ 20 -> addr mod 4096 = 0 -> lapic s = lbase ->
  wp (lapicstartap apicid addr)
    (fun _ s' => exists h, s' = set_dev h s /\ ipis h = ipis (dev s) ++ startup_ipis (mem8 (dev s)) apicid addr /\
       (forall x, mem8 h x = warm_reset addr (mem8 (dev s)) x) /\ forall j, j <> ICRHI -> lreg h j = lreg (dev s) j) s.
Proof.
  intros Hid Haddr Hal Hl. unfold lapicstartap.
  wp_step. apply wp_modify. wp_step. apply wp_modify. wp_step. apply wp_modify. wp_step. apply wp_modify.
  cbn [dev set_dev]. change (Z.lor (Z.shiftl 0x40 4) 0x67) with 0x467.
  assert (Ha : 0 <= Z.shiftr addr 4 < 2 ^ 16) by (rewrite Z.shiftr_div_pow2 by lia; Z.div_mod_to_equations; lia).
  rewrite (u16_small (Z.shiftr addr 4)) by lia. change (u16 0) with 0.
  destruct (la_rtc IO_RTC (u8 0xF) (dev s)) as (R1 & P1 & M1); [by left|].
  destruct (la_rtc (IO_RTC + 1) (u8 0x0A) (outb IO_RTC (u8 0xF) (dev s))) as (R2 & P2 & M2); [by right|].
  set (h2 := outb (IO_RTC + 1) _ _) in *.
  destruct (la_ram16 0x467 0 h2) as (R3 & P3 & M3); [done|done|done|].
  destruct (la_ram16 (0x467 + 2) (Z.shiftr addr 4) (st16 0x467 0 h2)) as (R4 & P4 & M4); [done|done|lia|].
  eapply wp_mono; [eapply wp_startup_regs; try done; [lia|apply lstate_refl]|].
  intros [] s' (h & -> & E1 & E2 & E3). exists h. split; [done|]. cbn [dev set_dev] in *.
  assert (Hw : forall x, mem8 (st16 (0x467 + 2) (Z.shiftr addr 4) (st16 0x467 0 h2)) x = warm_reset addr (mem8 (dev s)) x).
  { intros x. rewrite M4, M3, M2, M1. unfold warm_reset. change (0 mod 256) with 0. change (0 / 256) with 0.
    split_if; bool_hyps; done || lia. }
  split; [|split].
  - rewrite E2, P4, P3, P2, P1. f_equal. apply startup_ipis_ext. intros x Hx. rewrite Hw. unfold warm_reset.
    split_if; bool_hyps; done || lia.
  - intros x. by rewrite E3, Hw.
  - intros j Hj. rewrite E1, lookup_singleton_ne by done. simpl. by rewrite R4, R3, R2, R1.
Qed.
End LapicCorrect.

(** ** The timer of a uniprocessor *)

Section TimerCorrect.
Context `{HI : Io} `{!PicSpec} `{!PitSpec}.

(** The divisor nearest to 100 interrupts a second, in rate generator mode, and
    the timer's line enabled in addition to those that were. *)
Theorem timerinit_programs s : pics_follow s ->
  wp timerinit (fun _ s' => pit0 (dev s') = Pit 2 11932 None /\ Z.abs (100 * 11932 - TIMER_FREQ) <= 50 /\
    pics_follow s' /\ irqmask s' = clr (irqmask s) (2 ^ IRQ_TIMER)) s.
Proof.
  intros Hs. unfold timerinit. wp_step. apply wp_out_b. wp_step. apply wp_out_b. wp_step. apply wp_out_b.
  cbn [dev set_dev]. set (s1 := set_dev _ _).
  assert (Hs1 : pics_follow s1).
  { destruct Hs as (Hm & H1 & H2). split; [done|]. cbn [dev set_dev s1 irqmask].
    by rewrite !pic1_other, !pic2_other by (by vm_compute). }
  assert (Hp : pit0 (dev s1) = Pit 2 11932 None).
  { unfold s1. cbn [dev set_dev]. by rewrite !pit_outb by (by vm_compute). }
  unfold picenable, picsetmask. wp_step. wp_step. wp_step. apply wp_modify. wp_step. apply wp_out_b. apply wp_out_b.
  cbn [dev set_dev set_irqmask]. rewrite !pit_outb by apply u8_range. split; [exact Hp|]. split; [by vm_compute|].
  pose proof (picenable_wp IRQ_TIMER s1 ltac:(done) Hs1) as Hw. destruct Hw as [Hw1 Hw2]. done.
Qed.
End TimerCorrect.

(** ** A machine *)

Module Board.

Record board := MkBoard {
  b_pic1 : pic; b_pic2 : pic; b_pit : pit;
  b_sel : Z; b_ior : gmap Z Z;
  b_lreg : gmap Z Z; b_ipis : list ipi; b_busy : bool;
  b_mem : Z -> Z
}.

Definition LBASE : Z := 0xFEE00000.

Definition in_lapic (a : Z) : bool := (LBASE <=? a) && (a <? LBASE + 0x400).
Definition regs (b : board) (r : Z) : Z := if r =? REG_VER then 0x170011 else default 0 (b_ior b !! r).

Definition out (p v : Z) (b : board) : board :=
  MkBoard
    (if p =? 0x20 then pic_cmd v (b_pic1 b) else if p =? 0x21 then pic_data v (b_pic1 b) else b_pic1 b)
    (if p =? 0xA0 then pic_cmd v (b_pic2 b) else if p =? 0xA1 then pic_data v (b_pic2 b) else b_pic2 b)
    (if p =? 0x43 then pit_ctl v (b_pit b) else if p =? 0x40 then pit_cnt v (b_pit b) else b_pit b)
    (b_sel b) (b_ior b) (b_lreg b) (b_ipis b) (b_busy b) (b_mem b).

Definition st_lapic (i v : Z) (b : board) : board :=
  if i =? ICRLO then
    MkBoard (b_pic1 b) (b_pic2 b) (b_pit b) (b_sel b) (b_ior b) (b_lreg b)
      (b_ipis b ++ [ipi_of (b_mem b) (default 0 (b_lreg b !! ICRHI)) v]) true (b_mem b)
  else if (i =? EOI) || (i =? ESR) then b
  else MkBoard (b_pic1 b) (b_pic2 b) (b_pit b) (b_sel b) (b_ior b) (<[i := v]> (b_lreg b)) (b_ipis b) (b_busy b) (b_mem b).

Definition st_mem (n a v : Z) (b : board) : board :=
  MkBoard (b_pic1 b) (b_pic2 b) (b_pit b) (b_sel b) (b_ior b) (b_lreg b) (b_ipis b) (b_busy b)
    (fun x => if (a <=? x) && (x <? a + n) then Z.shiftr v (8 * (x - a)) mod 256 else b_mem b x).

Definition st (a v : Z) (b : board) : board :=
  if a =? IOAPIC then MkBoard (b_pic1 b) (b_pic2 b) (b_pit b) v (b_ior b) (b_lreg b) (b_ipis b) (b_busy b) (b_mem b)
  else if a =? IOAPIC + 16 then
    MkBoard (b_pic1 b) (b_pic2 b) (b_pit b) (b_sel b) (<[b_sel b := v]> (b_ior b)) (b_lreg b) (b_ipis b) (b_busy b) (b_mem b)
  else if in_lapic a then st_lapic ((a - LBASE) / 4) v b
  else st_mem 4 a v b.

Definition ld (a : Z) (b : board) : Z * board :=
  if a =? IOAPIC + 16 then (regs b (b_sel b), b)
  else if in_lapic a then
    let i := (a - LBASE) / 4 in
    if i =? ICRLO then
      (if b_busy b then DELIVS else 0,
       MkBoard (b_pic1 b) (b_pic2 b) (b_pit b) (b_sel b) (b_ior b) (b_lreg b) (b_ipis b) false (b_mem b))
    else (default 0 (b_lreg b !! i), b)
  else (le_dec (b_mem b <$> seqZ a 4), b).

#[global] Instance board_io : Io :=
  {| io := board; inb := fun p b => (0xFF, b); outb := out; ld32 := ld; st32 := st; st16 := st_mem 2; st8 := st_mem 1; mem8 := b_mem |}.

#[global] Program Instance board_pic : PicSpec := {| pic1 := b_pic1; pic2 := b_pic2 |}.
Next Obligation. done. Qed.
Next Obligation. done. Qed.

#[global] Program Instance board_pit : PitSpec := {| pit0 := b_pit |}.
Next Obligation. done. Qed.

Lemma st_ior v b r : REG_TABLE <= b_sel b -> regs (st (IOAPIC + 16) v b) r = if r =? b_sel b then v else regs b r.
Proof.
  intros Hs. unfold regs, REG_TABLE, REG_VER in *. change (b_ior (st (IOAPIC + 16) v b)) with (<[b_sel b := v]> (b_ior b)).
  destruct (Z.eqb_spec r 1) as [->|]; [by replace (1 =? b_sel b) with false by lia|].
  destruct (Z.eqb_spec r (b_sel b)) as [->|]; [by rewrite lookup_insert_eq|by rewrite lookup_insert_ne].
Qed.

#[global] Program Instance board_ioapic : IoapicSpec := {| iosel := b_sel; ioregs := regs |}.
Next Obligation. intros h. by vm_compute. Qed.
Next Obligation. intros v h Hv. done. Qed.
Next Obligation.
  intros v h Hs Hv. split; [done|]. intros r. by apply st_ior.
Qed.
Next Obligation. intros h. done. Qed.

Lemma st_lapic_addr i v b : 0 <= i < 0x100 -> st (LBASE + 4 * i) v b = st_lapic i v b.
Proof.
  intros Hi. unfold st. unfold IOAPIC, LBASE in *.
  replace (_ =? 0xFEC00000) with false by lia. replace (_ =? 0xFEC00000 + 16) with false by lia.
  unfold in_lapic, LBASE. replace (_ && _) with true by lia.
  by replace ((0xFEE00000 + 4 * i - 0xFEE00000) / 4) with i by (Z.div_mod_to_equations; lia).
Qed.

Lemma st_low a v b : 0 <= a < 0xA0000 -> st a v b = st_mem 4 a v b.
Proof.
  intros Ha. unfold st, IOAPIC, in_lapic, LBASE.
  replace (a =? _) with false by lia. replace (a =? _) with false by lia. by replace (_ && _) with false by lia.
Qed.

Lemma ld_lapic_addr i b : 0 <= i < 0x100 ->
  ld (LBASE + 4 * i) b =
  if i =? ICRLO then
      (if b_busy b then DELIVS else 0,
       MkBoard (b_pic1 b) (b_pic2 b) (b_pit b) (b_sel b) (b_ior b) (b_lreg b) (b_ipis b) false (b_mem b))
  else (default 0 (b_lreg b !! i), b).
Proof.
  intros Hi. unfold ld. unfold IOAPIC, LBASE in *. replace (_ =? 0xFEC00000 + 16) with false by lia.
  unfold in_lapic, LBASE. replace (_ && _) with true by lia.
  by replace ((0xFEE00000 + 4 * i - 0xFEE00000) / 4) with i by (Z.div_mod_to_equations; lia).
Qed.

Lemma st_lapic_reg i v b : i ∈ lapic_regs ->
  st_lapic i v b =
  MkBoard (b_pic1 b) (b_pic2 b) (b_pit b) (b_sel b) (b_ior b) (<[i := v]> (b_lreg b)) (b_ipis b) (b_busy b) (b_mem b).
Proof. intros Hi. repeat (apply elem_of_cons in Hi as [->|Hi]; [done|]). by apply not_elem_of_nil in Hi. Qed.

#[global] Program Instance board_lapic : LapicSpec :=
  {| lbase := LBASE; lreg := fun b i => default 0 (b_lreg b !! i); ipis := b_ipis;
     lpolls := fun b => if b_busy b then 1%nat else 0%nat; LPOLLS := 2 |}.
Next Obligation. by vm_compute. Qed.
Next Obligation. intros h. simpl. destruct (b_busy h); lia. Qed.
Next Obligation.
  intros i v h Hi Hv. cbn [st32 board_io mem8]. rewrite st_lapic_addr.
  - rewrite st_lapic_reg by done. cbn [b_lreg b_ipis b_mem]. split; [by rewrite lookup_insert_eq|].
    split; [|done]. intros j Hj. by rewrite lookup_insert_ne.
  - by apply lapic_regs_range.
Qed.
Next Obligation.
  intros i h Hi. cbn [st32 board_io mem8]. rewrite st_lapic_addr by (by destruct Hi as [->| ->]; vm_compute).
  by destruct Hi as [->| ->].
Qed.
Next Obligation. intros v h Hv. cbn [st32 board_io mem8]. by rewrite st_lapic_addr by (by vm_compute). Qed.
Next Obligation.
  intros i h Hi. cbn [ld32 board_io mem8]. rewrite ld_lapic_addr by (by destruct Hi as [->|[->| ->]]; vm_compute).
  destruct (Z.eqb_spec i ICRLO) as [->|Hne].
  - split; [done|]. split; [|done]. intros _ Ht. cbn [b_busy]. destruct (b_busy h); [lia|done].
  - by repeat split.
Qed.
Next Obligation. intros p v h Hp. done. Qed.
Next Obligation.
  intros a v h Ha1 Ha2 Hv. cbn [st16 board_io mem8 b_mem st_mem]. split; [done|]. split; [done|]. intros x.
  destruct (Z.eqb_spec x a) as [->|]; [|destruct (Z.eqb_spec x (a + 1)) as [->|]].
  - replace (_ && _) with true by lia. by rewrite Z.sub_diag, Z.shiftr_0_r.
  - replace (_ && _) with true by lia. replace (8 * (a + 1 - a)) with 8 by lia.
    rewrite Z.shiftr_div_pow2 by lia. apply Z.mod_small. Z.div_mod_to_equations; lia.
  - by replace (_ && _) with false by lia.
Qed.
Next Obligation.
  intros a v h Ha Hv. cbn [st8 board_io mem8 b_mem st_mem]. split; [done|]. split; [done|]. intros x.
  destruct (Z.eqb_spec x a) as [->|]; [|by replace (_ && _) with false by lia].
  replace (_ && _) with true by lia. rewrite Z.sub_diag, Z.shiftr_0_r. apply Z.mod_small. lia.
Qed.
Next Obligation. intros a v h Ha1 Ha2 Hv. cbn [st32 board_io mem8]. by rewrite st_low by lia. Qed.

(** Controllers in an unknown state, and memory full of ones. *)
Definition power_on : board :=
  MkBoard (Pic WantIcw3 true false 8 0 0 0 false) (Pic Masks false false 0x70 0 0 0xFF false) (Pit 0 0 None)
    0 ∅ {[VER := 0x50014]} [] false (fun _ => 0xFF).
End Board.

(** The globals before the start, on that machine; with [mp] processors. *)
Definition mach0 (mp l : Z) : @mach Board.board_io :=
  Mach Board.board_io Board.power_on ∅ 0 mp 1 0 l 0 irqmask0 false 0 [].

Lemma pic_delivers_enabled_witness :
  wp (picinit;; for_each [1; 4; 14; 11] picenable)
    (fun _ s' => forall irq, 0 <= irq < 16 -> irq <> IRQ_SLAVE ->
       pic_vector (pic1 (dev s')) (pic2 (dev s')) irq =
       if bool_decide (irq ∈ [1; 4; 14; 11]) then Some (T_IRQ0 + irq) else None) (mach0 0 0).
Proof. apply (pic_delivers_enabled [1; 4; 14; 11] (mach0 0 0)); [done|]. repeat constructor; lia. Defined.

Lemma ioapic_routes_enabled_witness :
  wp (ioapicinit;; for_each [(1, 0); (14, 0); (14, 1)] (fun '(irq, c) => ioapicenable irq c))
    (fun _ s' => forall irq, 0 <= irq <= maxintr (dev (mach0 1 0)) ->
       io_vector (dev s') irq = (fun c => (T_IRQ0 + irq, c)) <$> routes [(1, 0); (14, 0); (14, 1)] !! irq) (mach0 1 0).
Proof.
  apply (ioapic_routes_enabled [(1, 0); (14, 0); (14, 1)] (mach0 1 0)); [done|].
  assert (E : maxintr (dev (mach0 1 0)) = 23) by (by vm_compute). rewrite E. repeat constructor; lia.
Defined.

Lemma lapicinit_programs_witness :
  wp (lapicinit 2 0) (fun _ s' =>
     lstate Board.power_on (init_regs 0x50014) [Msg 0 0x88500] (dev s')) (mach0 1 Board.LBASE).
Proof. exact (proj2 (lapicinit_programs 0 (mach0 1 Board.LBASE)) eq_refl). Defined.
