(* ===== verification/Mp.v ===== *)
(** * Multiprocessor tables: [src/mp.c], [src/mp.h]

    [mpinit] finds the MP floating pointer structure in the memory of the BIOS,
    checks the configuration table it points to, and reads the processors and
    the I/O APIC off the table's entries.  Memory is that of the class [Io] of
    [Intr]; the globals are those of [mach]. *)

From stdpp Require Import base numbers list gmap strings list_numbers.
From Stdlib Require Import Lia ZArith ZifyBool.
From S2P Require Import Prelude Intr.
From S2P Require CString.
Open Scope Z_scope.

Definition NCPU : Z := 8.

(** ** mp.h *)

Definition mp_layout : layout :=
  [("signature", 4); ("physaddr", 4); ("length", 1); ("specrev", 1); ("checksum", 1); ("type", 1); ("imcrp", 1);
   ("reserved", 3)]%string.
Definition mpconf_layout : layout :=
  [("signature", 4); ("length", 2); ("version", 1); ("checksum", 1); ("product", 20); ("oemtable", 4); ("oemlength", 2);
   ("entry", 2); ("lapicaddr", 4); ("xlength", 2); ("xchecksum", 1); ("reserved", 1)]%string.
Definition mpproc_layout : layout :=
  [("type", 1); ("apicid", 1); ("version", 1); ("flags", 1); ("signature", 4); ("feature", 4); ("reserved", 8)]%string.
Definition mpioapic_layout : layout :=
  [("type", 1); ("apicno", 1); ("version", 1); ("flags", 1); ("addr", 4)]%string.

Definition sizeof_mp : Z := Eval vm_compute in sizeof mp_layout.
Definition sizeof_mpconf : Z := Eval vm_compute in sizeof mpconf_layout.
Definition sizeof_mpproc : Z := Eval vm_compute in sizeof mpproc_layout.
Definition sizeof_mpioapic : Z := Eval vm_compute in sizeof mpioapic_layout.

(** The fields the code uses of the structures at [p]. *)
Definition mp_physaddr (m : Z -> Z) (p : Z) : Z := ldm m 4 (p + offsetof "physaddr" mp_layout).
Definition mp_imcrp (m : Z -> Z) (p : Z) : Z := m (p + offsetof "imcrp" mp_layout).
Definition conf_length (m : Z -> Z) (p : Z) : Z := ldm m 2 (p + offsetof "length" mpconf_layout).
Definition conf_version (m : Z -> Z) (p : Z) : Z := m (p + offsetof "version" mpconf_layout).
Definition conf_lapicaddr (m : Z -> Z) (p : Z) : Z := ldm m 4 (p + offsetof "lapicaddr" mpconf_layout).
Definition proc_apicid (m : Z -> Z) (p : Z) : Z := m (p + offsetof "apicid" mpproc_layout).
Definition proc_flags (m : Z -> Z) (p : Z) : Z := m (p + offsetof "flags" mpproc_layout).
Definition ioapic_apicno (m : Z -> Z) (p : Z) : Z := m (p + offsetof "apicno" mpioapic_layout).

Definition MPBOOT : Z := 0x02.
Definition MPPROC : Z := 0x00.
Definition MPBUS : Z := 0x01.
Definition MPIOAPIC : Z := 0x02.
Definition MPIOINTR : Z := 0x03.
Definition MPLINTR : Z := 0x04.

(** ** mp.c *)

(** The sum of the bytes, as a uchar. *)
Definition sum (m : Z -> Z) (addr len : Z) : Z := u8 (s32 (foldl (fun a i => a + m i) 0 (seqZ addr len))).

(** [memcmp(p, sig, 4) == 0] *)
Definition has_sig (m : Z -> Z) (p : Z) (sig : list Z) : bool :=
  CString.Kernel.memcmp (CString.at_ptr m p) (CString.view sig) 4 =? 0.

Definition MP_SIG : list Z := [95; 77; 80; 95].       (* _MP_ *)
Definition PCMP_SIG : list Z := [80; 67; 77; 80].     (* PCMP *)

Section Mp.
Context `{HI : Io}.

Definition mpbcpu : M mach Z := gets bcpu.

Definition rdmem : M mach (Z -> Z) := gets (fun s => mem8 (dev s)).

(** One round of the loop of [mpsearch1]. *)
Definition mpsearch1_step (e p : Z) : M mach (Z + Z) :=
  m ← rdmem;
  mret (if p <? e then
          if has_sig m p MP_SIG && (sum m p sizeof_mp =? 0) then inr p else inl (u32 (p + sizeof_mp))
        else inr 0).

Definition mpsearch1 (addr len : Z) : M mach Z :=
  let e := u32 (addr + len) in
  loop (Z.to_nat (len / sizeof_mp) + 2) (mpsearch1_step e) addr.

Definition mpsearch : M mach Z :=
  m ← rdmem;
  let bda := 0x400 in
  let p := Z.shiftl (Z.lor (Z.shiftl (m (bda + 0x0F)) 8) (m (bda + 0x0E))) 4 in
  mp ← (if negb (p =? 0) then mpsearch1 p 1024
        else let p := Z.lor (Z.shiftl (m (bda + 0x14)) 8) (m (bda + 0x13)) * 1024 in
             mpsearch1 (u32 (p - 1024)) 1024);
  if negb (mp =? 0) then mret mp else mpsearch1 0xF0000 0x10000.

(** The configuration table (0 is null) and the structure it was found by. *)
Definition mpconfig : M mach (Z * Z) :=
  mp ← mpsearch;
  m ← rdmem;
  if (mp =? 0) || (mp_physaddr m mp =? 0) then mret (0, 0) else
  let conf := mp_physaddr m mp in
  if negb (has_sig m conf PCMP_SIG) then mret (0, 0) else
  if negb (conf_version m conf =? 1) && negb (conf_version m conf =? 4) then mret (0, 0) else
  if negb (sum m conf (conf_length m conf) =? 0) then mret (0, 0) else
  mret (conf, mp).

(** The body of the loop over the entries: the switch on the entry at [p], and
    where the next one is. *)
Definition mpentry (p : Z) : M mach Z :=
  m ← rdmem;
  let t := m p in
  if t =? MPPROC then
    n ← gets ncpu;
    when (negb (n =? proc_apicid m p))
      (cprintf "mpinit: ncpu=%d apicid=%d" [n; proc_apicid m p];; modify (set_ismp 0));;
    when (tst (proc_flags m p) MPBOOT) (modify (set_bcpu n));;
    modify (set_cpu_id n (u8 n));;
    modify (set_ncpu (n + 1));;
    mret (u32 (p + sizeof_mpproc))
  else if t =? MPIOAPIC then
    modify (set_ioapicid (ioapic_apicno m p));;
    mret (u32 (p + sizeof_mpioapic))
  else if (t =? MPBUS) || (t =? MPIOINTR) || (t =? MPLINTR) then mret (u32 (p + 8))
  else
    cprintf "mpinit: unknown config type %x" [t];;
    modify (set_ismp 0);;
    mret p.

(** One round of the loop of [mpinit], up to [e]. *)
Definition mploop (e p : Z) : M mach (Z + unit) :=
  if p <? e then p' ← mpentry p; mret (inl p') else mret (inr tt).

(** After the loop. *)
Definition mpfinish (mp : Z) : M mach unit :=
  i ← gets ismp;
  if i =? 0 then
    modify (set_ncpu 1);;
    modify (set_lapic 0);;
    modify (set_ioapicid 0)
  else
    m ← rdmem;
    when (negb (mp_imcrp m mp =? 0))
      (out_b 0x22 0x70;;
       v ← in_b 0x23;
       out_b 0x23 (Z.lor v 1)).

Definition mpinit (fuel : nat) : M mach unit :=
  modify (set_bcpu 0);;
  r ← mpconfig;
  let '(conf, mp) := r in
  if conf =? 0 then mret tt else
  modify (set_ismp 1);;
  m ← rdmem;
  modify (set_lapic (conf_lapicaddr m conf));;
  let e := u32 (conf + conf_length m conf) in
  loop fuel (mploop e) (u32 (conf + sizeof_mpconf));;
  mpfinish mp.
End Mp.

(** ** Finding the table *)

Section Search.
Implicit Types m : Z -> Z.

Definition is_mp m (p : Z) : bool := has_sig m p MP_SIG && (sum m p sizeof_mp =? 0).

(** The places where the structure can be in the [len] bytes at [a]. *)
Definition places (a len : Z) : list Z := (fun i => a + sizeof_mp * i) <$> seqZ 0 (len / sizeof_mp).

(** The EBDA's segment and the size of base memory in the BIOS data area. *)
Definition ebda m : Z := Z.shiftl (Z.lor (Z.shiftl (m (0x400 + 0x0F)) 8) (m (0x400 + 0x0E))) 4.
Definition basemem m : Z := Z.lor (Z.shiftl (m (0x400 + 0x14)) 8) (m (0x400 + 0x13)) * 1024.

(** The first KB of the EBDA, or without one the last KB of base memory; then
    the BIOS ROM from 0xF0000 on. *)
Definition candidates m : list Z :=
  (if negb (ebda m =? 0) then places (ebda m) 1024
   else if basemem m =? 0 then [] else places (basemem m - 1024) 1024)
  ++ places 0xF0000 0x10000.

(** Memory holds bytes, and there is more of it than the first KB. *)
Definition bios_ok m : Prop := (forall x, is_byte (m x)) /\ basemem m <> 1024.

Definition first_mp m (l : list Z) : Z := default 0 (head (filter (is_mp m) l)).

Lemma first_mp_app m l l' : 0 ∉ l -> first_mp m (l ++ l') = if first_mp m l =? 0 then first_mp m l' else first_mp m l.
Proof.
  intros H0. unfold first_mp. rewrite filter_app. destruct (filter (is_mp m) l) as [|p r] eqn:E; [done|]. simpl.
  assert (Hp : p ∈ filter (is_mp m) l) by (rewrite E; apply elem_of_cons; by left).
  apply list_elem_of_filter in Hp as [_ Hp]. destruct (Z.eqb_spec p 0) as [->|]; done.
Qed.

(** The two bytes at [a] of a word that was composed by shifts. *)
Lemma word_bound m a b : (forall x, is_byte (m x)) -> 0 <= Z.lor (Z.shiftl (m a) 8) (m b) < 65536.
Proof.
  intros Hm. pose proof (Hm a) as Ha. pose proof (Hm b) as Hb. unfold is_byte in *.
  rewrite <- Z.add_nocarry_lor.
  - rewrite Z.shiftl_mul_pow2; lia.
  - apply Z.bits_inj'. intros n Hn. rewrite Z.land_spec, Z.bits_0. destruct (decide (n < 8)).
    + by rewrite Z.shiftl_spec_low.
    + rewrite (Z.bits_above_log2 (m b)); [by rewrite andb_false_r|lia|].
      destruct (decide (m b = 0)) as [->|]; [simpl; lia|]. apply Z.log2_lt_pow2; [lia|].
      apply Z.lt_le_trans with (2 ^ 8); [lia|apply Z.pow_le_mono_r; lia].
Qed.
End Search.

Section Correct.
Context `{HI : Io}.
Implicit Types s : mach.

Lemma loop_next {St R} fuel (body : St -> M mach (St + R)) st st' s s' :
  body st s = Ok (inl st') s' -> loop (S fuel) body st s = loop fuel body st' s'.
Proof. intros E. cbn [loop]. unfold mbind, M_bind. by rewrite E. Qed.

Lemma loop_last {St R} fuel (body : St -> M mach (St + R)) st r s s' :
  body st s = Ok (inr r) s' -> loop (S fuel) body st s = Ok r s'.
Proof. intros E. cbn [loop]. unfold mbind, M_bind. by rewrite E. Qed.

Lemma mpsearch1_step_eq e p s : mpsearch1_step e p s =
  Ok (if p <? e then if is_mp (mem8 (dev s)) p then inr p else inl (u32 (p + sizeof_mp)) else inr 0) s.
Proof. done. Qed.

(** [mpsearch1] finds the first structure in the area. *)
Lemma mpsearch1_finds a n s : 0 <= a -> 0 <= n -> a + sizeof_mp * n < 2 ^ 32 ->
  mpsearch1 a (sizeof_mp * n) s = Ok (first_mp (mem8 (dev s)) (places a (sizeof_mp * n))) s.
Proof.
  intros Ha Hn Hb. unfold mpsearch1, places, sizeof_mp in *. rewrite u32_small by lia.
  replace (16 * n / 16) with n by (Z.div_mod_to_equations; lia).
  assert (G : forall k i fuel, n = i + Z.of_nat k -> 0 <= i -> (k < fuel)%nat ->
    loop fuel (mpsearch1_step (a + 16 * n)) (a + 16 * i) s =
    Ok (first_mp (mem8 (dev s)) ((fun i => a + 16 * i) <$> seqZ i (Z.of_nat k))) s).
  { induction k as [|k IH]; intros i fuel E Hi Hf; (destruct fuel as [|fuel]; [lia|]).
    - apply loop_last. rewrite mpsearch1_step_eq. by replace (a + 16 * i <? a + 16 * n) with false by lia.
    - rewrite seqZ_cons by lia. rewrite fmap_cons. unfold first_mp. rewrite filter_cons.
      destruct (decide (is_mp (mem8 (dev s)) (a + 16 * i))) as [Hp|Hp].
      + apply loop_last. rewrite mpsearch1_step_eq. replace (a + 16 * i <? a + 16 * n) with true by lia.
        by rewrite (Is_true_eq_true _ Hp).
      + rewrite (loop_next _ _ _ (a + 16 * (i + 1)) _ s).
        * rewrite IH by lia. unfold Z.succ. by replace (Z.pred (Z.of_nat (S k))) with (Z.of_nat k) by lia.
        * rewrite mpsearch1_step_eq. replace (a + 16 * i <? a + 16 * n) with true by lia.
          apply Is_true_false_1 in Hp. rewrite Hp.
          rewrite u32_small by (unfold sizeof_mp; lia). unfold sizeof_mp. do 2 f_equal. lia. }
  specialize (G (Z.to_nat n) 0 (Z.to_nat n + 2)%nat ltac:(lia) ltac:(lia) ltac:(lia)).
  by rewrite Z.mul_0_r, Z.add_0_r, Z2Nat.id in G by lia.
Qed.

Lemma places_pos a len : 0 < a -> 0 ∉ places a len.
Proof.
  intros Ha (i & E & Hi)%list_elem_of_fmap. apply elem_of_seqZ in Hi. unfold sizeof_mp in E. lia.
Qed.

(** A search, and the BIOS ROM if it fails. *)
Lemma search_then (search : M mach Z) l s :
  let m := mem8 (dev s) in
  search s = Ok (first_mp m l) s -> 0 ∉ l ->
  (mp ← search; if negb (mp =? 0) then mret mp else mpsearch1 0xF0000 0x10000) s =
  Ok (first_mp m (l ++ places 0xF0000 0x10000)) s.
Proof.
  intros m Hs Hl. rewrite first_mp_app by done. unfold mbind, M_bind. rewrite Hs.
  destruct (first_mp m l =? 0); [by apply (mpsearch1_finds 0xF0000 4096)|done].
Qed.

(** [mpsearch] finds the first structure among the candidates. *)
Lemma mpsearch_finds s : bios_ok (mem8 (dev s)) ->
  mpsearch s = Ok (first_mp (mem8 (dev s)) (candidates (mem8 (dev s)))) s.
Proof.
  intros [Hm Hne]. set (m := mem8 (dev s)) in *.
  pose proof (word_bound m (0x400 + 0x0F) (0x400 + 0x0E) Hm) as H1.
  pose proof (word_bound m (0x400 + 0x14) (0x400 + 0x13) Hm) as H2.
  assert (He : 0 <= ebda m < 2 ^ 20) by (unfold ebda; rewrite Z.shiftl_mul_pow2; lia).
  assert (Hb : basemem m = 0 \/ 1024 <= basemem m < 2 ^ 26) by (unfold basemem; lia).
  unfold mpsearch. unfold mbind at 1, M_bind at 1, rdmem at 1, gets at 1. fold m. fold (ebda m). fold (basemem m).
  unfold candidates. apply search_then.
  - destruct (Z.eqb_spec (ebda m) 0) as [Ez|Ez]; cbn [negb].
    + destruct Hb as [->|Hb]; [done|]. replace (basemem m =? 0) with false by lia.
      rewrite u32_small by lia. apply (mpsearch1_finds _ 64); unfold sizeof_mp; lia.
    + apply (mpsearch1_finds _ 64); unfold sizeof_mp; lia.
  - destruct (Z.eqb_spec (ebda m) 0) as [Ez|Ez]; cbn [negb].
    + destruct (Z.eqb_spec (basemem m) 0); [apply not_elem_of_nil|].
      apply places_pos. lia.
    + apply places_pos. lia.
Qed.

(** ** The entries of the table *)

Inductive entry := EProc (apicid flags : Z) | EIoapic (apicno : Z) | EOther (type : Z).

Definition entry_size (e : entry) : Z := match e with EProc _ _ => sizeof_mpproc | _ => 8 end.
Definition table_size (l : list entry) : Z := foldr (fun e n => entry_size e + n) 0 l.

Definition entry_at (m : Z -> Z) (p : Z) (e : entry) : Prop :=
  match e with
  | EProc a f => m p = MPPROC /\ proc_apicid m p = a /\ proc_flags m p = f
  | EIoapic a => m p = MPIOAPIC /\ ioapic_apicno m p = a
  | EOther t => m p = t /\ (t = MPBUS \/ t = MPIOINTR \/ t = MPLINTR)
  end.

Fixpoint table_at (m : Z -> Z) (p : Z) (l : list entry) : Prop :=
  match l with
  | [] => True
  | e :: l => entry_at m p e /\ table_at m (p + entry_size e) l
  end.

(** What an entry does to the globals. *)
Definition apply_entry (s : mach) (e : entry) : mach :=
  match e with
  | EProc a f =>
      let n := ncpu s in
      let s := if n =? a then s else set_ismp 0 (add_printed "mpinit: ncpu=%d apicid=%d" [n; a] s) in
      let s := if tst f MPBOOT then set_bcpu n s else s in
      set_ncpu (n + 1) (set_cpu_id n (u8 n) s)
  | EIoapic a => set_ioapicid a s
  | EOther _ => s
  end.

Lemma mpentry_apply p e s : entry_at (mem8 (dev s)) p e -> 0 <= p -> p + entry_size e < 2 ^ 32 ->
  mpentry p s = Ok (p + entry_size e) (apply_entry s e).
Proof.
  intros He Hp Hs. unfold mpentry. unfold mbind at 1, M_bind at 1, rdmem at 1, gets at 1.
  destruct e as [a f|a|t]; cbn [entry_at entry_size apply_entry] in *; unfold sizeof_mpproc, sizeof_mpioapic in *.
  - destruct He as (-> & -> & ->). rewrite u32_small by lia. cbn [Z.eqb MPPROC].
    unfold mbind, M_bind, gets, when. destruct (ncpu s =? a), (tst f MPBOOT); done.
  - destruct He as (-> & ->). by rewrite (u32_small (p + 8)) by lia.
  - destruct He as (-> & Ht). rewrite (u32_small (p + 8)) by lia. by destruct Ht as [->|[->| ->]].
Qed.

Lemma apply_entry_dev s e : dev (apply_entry s e) = dev s.
Proof. destruct e as [a f| |]; [|done|done]. simpl. by destruct (ncpu s =? a), (tst f MPBOOT). Qed.

Lemma entry_size_pos e : 8 <= entry_size e.
Proof. destruct e; simpl; unfold sizeof_mpproc; lia. Qed.
Lemma table_size_pos l : 0 <= table_size l.
Proof. induction l as [|e l IH]; simpl; [lia|]. pose proof (entry_size_pos e). lia. Qed.

Lemma mploop_entries l e p fuel s :
  table_at (mem8 (dev s)) p l -> 0 <= p -> p + table_size l <= e -> e < 2 ^ 32 ->
  loop (length l + fuel) (mploop e) p s = loop fuel (mploop e) (p + table_size l) (foldl apply_entry s l).
Proof.
  revert p s. induction l as [|x l IH]; intros p s Ht Hp Hb He; [by simpl; rewrite Z.add_0_r|].
  destruct Ht as [Hx Ht]. cbn [length Nat.add foldl]. change (table_size (x :: l)) with (entry_size x + table_size l) in *.
  pose proof (entry_size_pos x). pose proof (table_size_pos l).
  rewrite (loop_next _ _ _ (p + entry_size x) _ (apply_entry s x)).
  - rewrite IH; [by rewrite Z.add_assoc| |lia|lia|done]. by rewrite apply_entry_dev.
  - unfold mploop. replace (p <? e) with true by lia. unfold mbind, M_bind. by rewrite (mpentry_apply p x) by (done || lia).
Qed.

(** ** What the table says *)

(** The processors in order, as APIC id and flags. *)
Definition procs (l : list entry) : list (Z * Z) :=
  omap (fun e => match e with EProc a f => Some (a, f) | _ => None end) l.

(** The last processor marked as the one that booted, numbering from [k]. *)
Fixpoint boot_cpu (k d : Z) (ps : list (Z * Z)) : Z :=
  match ps with
  | [] => d
  | (_, f) :: ps => boot_cpu (k + 1) (if tst f MPBOOT then k else d) ps
  end.

Definition last_ioapic (d : Z) (l : list entry) : Z :=
  foldl (fun d e => match e with EIoapic a => a | _ => d end) d l.

(** The APIC ids are the processor numbers from [k] on. *)
Definition numbered (k : Z) (ps : list (Z * Z)) : bool :=
  bool_decide (ps.*1 = seqZ k (Z.of_nat (length ps))).

Lemma numbered_cons k a f ps : numbered k ((a, f) :: ps) = (k =? a) && numbered (k + 1) ps.
Proof.
  unfold numbered. cbn [length fmap list_fmap fst]. rewrite seqZ_cons by lia.
  replace (Z.pred (Z.of_nat (S (length ps)))) with (Z.of_nat (length ps)) by lia. unfold Z.succ.
  destruct (Z.eqb_spec k a) as [->|Hne].
  - cbn [andb]. apply bool_decide_ext. split; [by intros [= ->]|by intros ->].
  - apply bool_decide_false. by intros [=].
Qed.

(** The globals after the entries. *)
Lemma foldl_entries l s : 0 <= ncpu s ->
  let s' := foldl apply_entry s l in
  let n := Z.of_nat (length (procs l)) in
  dev s' = dev s /\ lapic s' = lapic s /\ ncpu s' = ncpu s + n /\
  ismp s' = (if numbered (ncpu s) (procs l) then ismp s else 0) /\
  bcpu s' = boot_cpu (ncpu s) (bcpu s) (procs l) /\
  ioapicid s' = last_ioapic (ioapicid s) l /\
  forall i, cpus s' !! i = if (ncpu s <=? i) && (i <? ncpu s + n) then Some (u8 i) else cpus s !! i.
Proof.
  revert s. induction l as [|e l IH]; intros s Hn; cbn [foldl procs omap list_omap length boot_cpu].
  - repeat split; try done; [lia|]. intros i. by replace (_ && _) with false by lia.
  - destruct e as [a f|a|t]; [|by apply (IH (set_ioapicid a s))|by apply IH].
    specialize (IH (apply_entry s (EProc a f))). cbv zeta in IH.
    assert (En : ncpu (apply_entry s (EProc a f)) = ncpu s + 1) by done.
    assert (El : lapic (apply_entry s (EProc a f)) = lapic s)
      by (simpl; by destruct (ncpu s =? a), (tst f MPBOOT)).
    assert (Em : ismp (apply_entry s (EProc a f)) = if ncpu s =? a then ismp s else 0)
      by (simpl; by destruct (ncpu s =? a), (tst f MPBOOT)).
    assert (Eb : bcpu (apply_entry s (EProc a f)) = if tst f MPBOOT then ncpu s else bcpu s)
      by (simpl; by destruct (ncpu s =? a), (tst f MPBOOT)).
    assert (Ei : ioapicid (apply_entry s (EProc a f)) = ioapicid s)
      by (simpl; by destruct (ncpu s =? a), (tst f MPBOOT)).
    assert (Ec : cpus (apply_entry s (EProc a f)) = <[ncpu s := u8 (ncpu s)]> (cpus s))
      by (simpl; by destruct (ncpu s =? a), (tst f MPBOOT)).
    rewrite En, El, Em, Eb, Ei, Ec, apply_entry_dev in IH.
    destruct IH as (H1 & H2 & H3 & H4 & H5 & H6 & H7); [lia|].
    fold (procs l) in *. set (n := Z.of_nat (length (procs l))) in *.
    change (length ((a, f) :: procs l)) with (S (length (procs l))).
    rewrite numbered_cons. repeat split; try done; [lia| |].
    + rewrite H4. by destruct (ncpu s =? a), (numbered (ncpu s + 1) (procs l)).
    + intros i. rewrite H7. replace (Z.of_nat (S (length (procs l)))) with (n + 1) by lia.
      destruct (decide (i = ncpu s)) as [->|Hne].
      * rewrite lookup_insert_eq. by split_if; bool_hyps; lia || done.
      * rewrite lookup_insert_ne by done. split_if; bool_hyps; done || lia.
Qed.

(** ** mpinit *)

(** The structure at [mp] points to a table [mpconfig] accepts. *)
Definition conf_valid (m : Z -> Z) (mp : Z) : bool :=
  let conf := mp_physaddr m mp in
  negb (mp =? 0) && negb (conf =? 0) && has_sig m conf PCMP_SIG &&
  ((conf_version m conf =? 1) || (conf_version m conf =? 4)) && (sum m conf (conf_length m conf) =? 0).

Definition find_mp (m : Z -> Z) : Z := first_mp m (candidates m).

Lemma mpconfig_checks s : let m := mem8 (dev s) in bios_ok m ->
  mpconfig s = Ok (if conf_valid m (find_mp m) then (mp_physaddr m (find_mp m), find_mp m) else (0, 0)) s.
Proof.
  intros m Hm. unfold mpconfig. unfold mbind at 1, M_bind at 1. rewrite mpsearch_finds by done.
  unfold mbind at 1, M_bind at 1, rdmem at 1, gets at 1. fold m. fold (find_mp m). unfold conf_valid.
  destruct (find_mp m =? 0); [done|]. destruct (mp_physaddr m (find_mp m) =? 0); [done|]. cbn [orb negb andb].
  destruct (has_sig m (mp_physaddr m (find_mp m)) PCMP_SIG); [|done]. cbn [negb andb].
  rewrite <- negb_orb. destruct (_ || _); [|done]. cbn [negb andb]. by destruct (sum _ _ _ =? 0).
Qed.

(** Without a table the globals keep their values. *)
Lemma mpinit_no_table s fuel : let m := mem8 (dev s) in bios_ok m -> conf_valid m (find_mp m) = false ->
  mpinit fuel s = Ok tt (set_bcpu 0 s).
Proof.
  intros m Hm Hv. unfold mpinit. unfold mbind at 1, M_bind at 1, modify at 1. unfold mbind at 1, M_bind at 1.
  rewrite mpconfig_checks by done. cbn [dev set_bcpu]. fold m. by rewrite Hv.
Qed.

(** Up to the loop. *)
Lemma mpinit_start s fuel : let m := mem8 (dev s) in let conf := mp_physaddr m (find_mp m) in
  bios_ok m -> conf_valid m (find_mp m) = true ->
  mpinit fuel s =
  (loop fuel (mploop (u32 (conf + conf_length m conf))) (u32 (conf + sizeof_mpconf));; mpfinish (find_mp m))
    (set_lapic (conf_lapicaddr m conf) (set_ismp 1 (set_bcpu 0 s))).
Proof.
  intros m conf Hm Hv. unfold mpinit. unfold mbind at 1, M_bind at 1, modify at 1. unfold mbind at 1, M_bind at 1.
  rewrite mpconfig_checks by done. cbn [dev set_bcpu]. fold m. rewrite Hv. fold conf.
  assert (Hc : (conf =? 0) = false).
  { unfold conf_valid in Hv. fold conf in Hv. destruct (conf =? 0); [|done]. by rewrite andb_false_r in Hv. }
  by rewrite Hc.
Qed.

(** The end of [mpinit] on a multiprocessor touches the interrupt mode register
    only; on another machine it falls back. *)
Lemma mpfinish_mp mp s : ismp s <> 0 -> exists h, mpfinish mp s = Ok tt (set_dev h s).
Proof.
  intros Hi. apply Z.eqb_neq in Hi. unfold mpfinish. unfold mbind at 1, M_bind at 1, gets at 1. rewrite Hi.
  unfold mbind at 1, M_bind at 1, rdmem at 1, gets at 1. destruct (mp_imcrp (mem8 (dev s)) mp =? 0); cbn [negb when].
  - exists (dev s). by destruct s.
  - unfold mbind, M_bind, out_b, in_b, modify. cbn [dev set_dev]. destruct (inb _ _) as [v h]. by eexists.
Qed.

Lemma mpfinish_up mp s : ismp s = 0 -> mpfinish mp s = Ok tt (set_ioapicid 0 (set_lapic 0 (set_ncpu 1 s))).
Proof. intros Hi. unfold mpfinish. unfold mbind at 1, M_bind at 1, gets at 1. by rewrite Hi. Qed.


(** An entry of another type is never passed. *)
Lemma mploop_stuck fuel e p l s :
  table_at (mem8 (dev s)) p l -> MPLINTR < mem8 (dev s) (p + table_size l) -> 0 <= p -> p + table_size l < e -> e < 2 ^ 32 ->
  loop fuel (mploop e) p s = NoFuel.
Proof.
  revert p l s. induction fuel as [|fuel IH]; intros p l s Ht Hu Hp Hb He; [done|]. unfold MPLINTR in Hu.
  destruct l as [|x l].
  - cbn [table_size foldr] in *. rewrite Z.add_0_r in *.
    rewrite (loop_next _ _ _ p _ (set_ismp 0 (add_printed "mpinit: unknown config type %x" [mem8 (dev s) p] s))).
    + apply (IH p []); cbn [table_size foldr]; rewrite ?Z.add_0_r; done.
    + unfold mploop. replace (p <? e) with true by lia. unfold mpentry.
      unfold mbind at 1 2, M_bind at 1 2, rdmem at 1, gets at 1. unfold MPPROC, MPIOAPIC, MPBUS, MPIOINTR, MPLINTR.
      replace (_ =? 0) with false by lia. replace (_ =? 2) with false by lia.
      by replace (_ || _ || _) with false by lia.
  - destruct Ht as [Hx Ht]. change (table_size (x :: l)) with (entry_size x + table_size l) in *. rewrite Z.add_assoc in *.
    pose proof (entry_size_pos x). pose proof (table_size_pos l).
    rewrite (loop_next _ _ _ (p + entry_size x) _ (apply_entry s x)).
    + apply (IH _ l); rewrite ?apply_entry_dev; done || lia.
    + unfold mploop. replace (p <? e) with true by lia. unfold mbind, M_bind.
      by rewrite (mpentry_apply p x) by (done || lia).
Qed.

(** A table with an entry of a type other than the five known ones: [mpinit]
    prints its message forever, with any number of rounds of its loop. *)
Theorem mpinit_unknown_entry_loops l s fuel :
  let m := mem8 (dev s) in let conf := mp_physaddr m (find_mp m) in
  bios_ok m -> conf_valid m (find_mp m) = true ->
  table_at m (conf + sizeof_mpconf) l -> MPLINTR < m (conf + sizeof_mpconf + table_size l) ->
  sizeof_mpconf + table_size l < conf_length m conf -> 0 <= conf -> conf + conf_length m conf < 2 ^ 32 ->
  mpinit fuel s = NoFuel.
Proof.
  intros m conf Hm Hv Ht Hu Hlen Hc Hb. rewrite mpinit_start by done. fold m conf.
  pose proof (table_size_pos l). unfold sizeof_mpconf in *. rewrite !u32_small by lia.
  unfold mbind, M_bind. by rewrite (mploop_stuck _ _ _ l) by (done || lia).
Qed.
End Correct.

(** ** Tables of a BIOS *)

(** Bytes whose sum the byte at [i] makes zero. *)
Definition checksummed (i : nat) (l : list Z) : list Z := <[i := u8 (- foldr Z.add 0 l)]> l.

Definition entry_bytes (e : entry) : list Z :=
  match e with
  | EProc a f => [MPPROC; a; 0x14; f] ++ replicate 16 0
  | EIoapic a => [MPIOAPIC; a; 0x11; 1] ++ le_enc 4 IOAPIC
  | EOther t => t :: replicate 7 0
  end.

(** The floating pointer structure at 0xF0000, the table behind it, and [tail]
    as further entries. *)
Definition demo_rom (l : list entry) (tail : list Z) : list Z :=
  let body := (l ≫= entry_bytes) ++ tail in
  checksummed 10 (MP_SIG ++ le_enc 4 0xF0010 ++ [1; 4; 0; 0; 0; 0; 0; 0]) ++
  checksummed 7 (PCMP_SIG ++ le_enc 2 (44 + Z.of_nat (length body)) ++ [4; 0] ++ replicate 28 0 ++
                 le_enc 4 0xFEE00000 ++ replicate 4 0 ++ body).

(** No EBDA, 640 KB of base memory. *)
Definition demo_mem (rom : list Z) : Z -> Z := fun a =>
  if a =? 0x413 then 0x80 else if a =? 0x414 then 0x02
  else if (0xF0000 <=? a) && (a <? 0xF0000 + Z.of_nat (length rom)) then default 0 (rom !! Z.to_nat (a - 0xF0000)) else 0.

Definition rom_ok (rom : list Z) : bool := forallb (fun b => (0 <=? b) && (b <? 256)) rom.

Lemma demo_bios_ok rom : rom_ok rom = true -> bios_ok (demo_mem rom).
Proof.
  intros Hr. split; [|done]. intros x. unfold demo_mem, is_byte. split_if; try lia.
  destruct (rom !! Z.to_nat (x - 0xF0000)) as [b|] eqn:Eb; simpl; [|lia].
  unfold rom_ok in Hr. rewrite forallb_forall in Hr. apply list_elem_of_lookup_2, list_elem_of_In in Eb.
  specialize (Hr b Eb). lia.
Qed.

#[local] Instance rom_io (rom : list Z) : Io :=
  {| io := unit; inb := fun _ h => (0, h); outb := fun _ _ h => h; ld32 := fun _ h => (0, h);
     st32 := fun _ _ h => h; st16 := fun _ _ h => h; st8 := fun _ _ h => h; mem8 := fun _ => demo_mem rom |}.

Definition demo_table : list entry := [EProc 0 3; EProc 1 1; EOther MPBUS; EIoapic 2].
Definition demo_mach (rom : list Z) : @mach (rom_io rom) := Mach (rom_io rom) tt ∅ 0 0 0 0 0 0 irqmask0 false 0 [].


Lemma mpinit_unknown_entry_loops_witness :
  let rom := demo_rom [EProc 0 3] (5 :: replicate 7 0) in
  mpinit 100 (demo_mach rom) = NoFuel.
Proof.
  intros rom. assert (E : mp_physaddr (demo_mem rom) (find_mp (demo_mem rom)) = 0xF0010) by (by vm_compute).
  apply (mpinit_unknown_entry_loops [EProc 0 3] (demo_mach rom));
    change (mem8 (dev (demo_mach rom))) with (demo_mem rom); rewrite ?E;
    [by apply demo_bios_ok; vm_compute|by vm_compute|by vm_compute; repeat split|by vm_compute..].
Defined.
