(* ===== verification/Main.v ===== *)
(** * Starting the other processors: [bootothers] and [jmpkstack] of [src/main.c]

    [bootothers] copies the start code to low memory and starts the processors
    one after the other, each with a stack of its own, waiting until each is
    up.  The processors are hardware: the class [Aps] has the volatile read of
    their [booted] flag, and [ApSpec] says that a processor that was told to
    start at the copied code with [mpmain] as entry sets it. *)

From stdpp Require Import base numbers list gmap strings list_numbers.
From Stdlib Require Import Lia ZArith ZifyBool.
From S2P Require Import Prelude Kalloc Intr IntrCorrect.
Open Scope Z_scope.

Definition KSTACKSIZE : Z := 4096.

(** Where the start code goes. *)
Definition code : Z := 0x7000.

Class Aps `{Io} := { ld_booted : Z -> io -> Z * io }.

Record bstate `{Io} := Bstate { bm : mach; bk : kmem }.

Section Main.
Context `{HA : Aps}.

Definition on_m {A} (x : M mach A) : M bstate A := zoom bm (fun m s => Bstate _ m (bk s)) x.
Definition on_k {A} (x : M kmem A) : M bstate A := zoom bk (fun k s => Bstate _ (bm s) k) x.

(** [kstack + PGSIZE], the stack [mainc] runs on. *)
Definition jmpkstack : M kmem Z :=
  kstack ← kalloc;
  if kstack =? 0 then panic "jmpkstack kalloc" else mret (kstack + PGSIZE).

(** [memmove(dst, src, n)] with the source's bytes. *)
Definition memmove_to (dst : Z) (src : list Z) : M mach unit :=
  for_each (imap (fun i b => (Z.of_nat i, b)) src) (fun '(i, b) =>
    modify (fun s => set_dev (st8 (dst + i) b (dev s)) s)).

Definition booted (c : Z) : M mach Z :=
  fun s => let '(v, h) := ld_booted c (dev s) in Ok v (set_dev h s).

(** The loop body for [cpus[c]]; [mpmain] is the address of that function. *)
Definition start_cpu (fuel : nat) (ra mpmain c : Z) : M bstate unit :=
  me ← on_m (cpunum ra);
  if c =? me then mret tt else
  stack ← on_k kalloc;
  on_m (store (code - 4) (stack + KSTACKSIZE));;
  on_m (store (code - 8) mpmain);;
  id ← on_m (gets (fun s => default 0 (cpus s !! c)));
  on_m (lapicstartap id code);;
  loop fuel (fun _ : unit => b ← on_m (booted c); mret (if b =? 0 then inl tt else inr tt)) tt.

Definition bootothers (fuel : nat) (ra mpmain : Z) (image : list Z) : M bstate unit :=
  on_m (memmove_to code image);;
  n ← on_m (gets ncpu);
  for_each (seqZ 0 n) (start_cpu fuel ra mpmain).
End Main.

(** ** The processors *)

Class ApSpec `{LapicSpec} `{!Aps} := {
  mpmain : Z;
  mpmain_word : 0 <= mpmain < 2 ^ 32;
  apolls : Z -> io -> nat;
  APOLLS : nat;
  apolls_bound : forall c h, (apolls c h < APOLLS)%nat;
  ap_boots : forall c stack h, Start c code stack mpmain ∈ ipis h ->
    let '(v, h') := ld_booted c h in
    (v = 0 -> (apolls c h' < apolls c h)%nat) /\
    (forall j, lreg h' j = lreg h j) /\ ipis h' = ipis h /\ forall x, x < 0x8000 -> mem8 h' x = mem8 h x
}.

(** ** Every processor is started, with a stack of its own *)

Lemma ldm_word m a v : (forall x, a <= x < a + 4 -> m x = Z.shiftr v (8 * (x - a)) mod 256) -> 0 <= v < 2 ^ 32 ->
  ldm m 4 a = v.
Proof.
  intros Hm Hv. unfold ldm. change (Z.of_nat 4) with 4.
  rewrite (seqZ_cons a 4), (seqZ_cons (Z.succ a)), (seqZ_cons (Z.succ (Z.succ a))), (seqZ_cons (Z.succ (Z.succ (Z.succ a)))) by lia.
  rewrite !fmap_cons. cbn [le_dec]. rewrite !Hm by lia.
  replace (a - a) with 0 by lia. replace (Z.succ a - a) with 1 by lia. replace (Z.succ (Z.succ a) - a) with 2 by lia.
  replace (Z.succ (Z.succ (Z.succ a)) - a) with 3 by lia. rewrite !Z.shiftr_div_pow2 by lia.
  simpl. Z.div_mod_to_equations. lia.
Qed.

Section Correct.
Context `{HP : ApSpec} (kend : Z) (Hkend : 0 < kend).

(** The messages that start processor [c] on [stack]. *)
Definition start_msgs (c stack : Z) : list ipi :=
  let d := Z.shiftl c 24 in
  [Msg d (Z.lor (Z.lor INIT LEVEL) ASSERT); Msg d (Z.lor INIT LEVEL);
   Start c code (stack + KSTACKSIZE) mpmain; Start c code (stack + KSTACKSIZE) mpmain].

Lemma startup_start_msgs m c stack :
  ldm m 4 (code - 4) = stack + KSTACKSIZE -> ldm m 4 (code - 8) = mpmain -> startup_ipis m c code = start_msgs c stack.
Proof. intros E1 E2. unfold startup_ipis. by rewrite E1, E2. Qed.

(** A step that keeps the APIC's registers and messages and memory from [lo] up
    to 0x8000. *)
Definition quiet (lo : Z) (h h' : io) : Prop :=
  (forall j, j <> ICRHI -> lreg h' j = lreg h j) /\ forall x, lo <= x < 0x8000 -> mem8 h' x = mem8 h x.

(** while(c->booted == 0) ; *)
Lemma wp_booted c stack (Q : unit -> bstate -> Prop) s : Start c code stack mpmain ∈ ipis (dev (bm s)) ->
  (forall h, ipis h = ipis (dev (bm s)) -> quiet 0 (dev (bm s)) h -> Q tt (Bstate _ (set_dev h (bm s)) (bk s))) ->
  wp (loop APOLLS (fun _ : unit => b ← on_m (booted c); mret (if b =? 0 then inl tt else inr tt)) tt) Q s.
Proof.
  intros Hst HQ.
  apply (wp_loop (fun _ s' => exists h, s' = Bstate _ (set_dev h (bm s)) (bk s) /\ ipis h = ipis (dev (bm s)) /\
           quiet 0 (dev (bm s)) h) (fun _ s' => apolls c (dev (bm s')))).
  - intros [] s1 (h & -> & Hi & Hq). wp_step. unfold on_m. wp_step. unfold wp at 1, booted. cbn [bm bk dev set_dev].
    pose proof (ap_boots c stack h) as Hb. destruct (ld_booted c h) as [v h']. rewrite Hi in Hb. specialize (Hb Hst).
    destruct Hb as (Hv & Hr & Hi' & Hm). wp_step.
    assert (Hq' : quiet 0 (dev (bm s)) h').
    { destruct Hq as [Q1 Q2]. split; [intros j Hj; by rewrite Hr, Q1|intros x Hx; by rewrite Hm, Q2 by lia]. }
    destruct (Z.eqb_spec v 0) as [E|E]; cbn [bm bk dev set_dev].
    + split; [exists h'; split; [done|]; split; [congruence|done]|]. by apply Hv.
    + apply HQ; [congruence|done].
  - exists (dev (bm s)). destruct s as [[] k]. done.
  - apply apolls_bound.
Qed.

Lemma wp_cpunum ra (Q : Z -> mach -> Prop) s : lapic s = lbase -> fl_if s = false ->
  (forall h, same_lapic (dev s) h -> Q (Z.shiftr (lreg (dev s) ID) 24) (set_dev h s)) -> wp (cpunum ra) Q s.
Proof.
  intros Hl Hi HQ. unfold cpunum. wp_step. wp_step. rewrite Hi. wp_step. cbn [when]. wp_step. wp_step. wp_step. rewrite Hl.
  destruct lbase_ok as [Hb _]. replace (lbase =? 0) with false by lia. cbn [negb]. wp_step.
  apply wp_lapicr; [done|by left|]. intros h Hh. wp_step. by apply HQ.
Qed.

(** The two words before the start code. *)
Lemma wp_store_words stack (Q : unit -> bstate -> Prop) s : 0 <= stack + KSTACKSIZE < 2 ^ 32 ->
  (forall h, ldm (mem8 h) 4 (code - 4) = stack + KSTACKSIZE -> ldm (mem8 h) 4 (code - 8) = mpmain ->
     ipis h = ipis (dev (bm s)) -> quiet code (dev (bm s)) h -> Q tt (Bstate _ (set_dev h (bm s)) (bk s))) ->
  wp (on_m (store (code - 4) (stack + KSTACKSIZE))) (fun _ => wp (on_m (store (code - 8) mpmain)) Q) s.
Proof.
  intros Hs HQ. pose proof mpmain_word as Hw. unfold on_m.
  wp_step. apply wp_modify. wp_step. apply wp_modify. cbn [bm bk dev set_dev].
  rewrite !u32_small by lia. set (h1 := st32 (code - 4) _ _). set (h2 := st32 (code - 8) _ _).
  destruct (la_ram32 (code - 4) (stack + KSTACKSIZE) (dev (bm s))) as (R1 & P1 & M1); [done|done|lia|].
  destruct (la_ram32 (code - 8) mpmain h1) as (R2 & P2 & M2); [done|done|lia|]. fold h1 h2 in R1, P1, M1, R2, P2, M2.
  unfold code in *. apply (HQ h2).
  - apply ldm_word; [|lia]. intros x Hx. rewrite M2, M1. by split_if; bool_hyps; lia || done.
  - apply ldm_word; [|lia]. intros x Hx. rewrite M2. by split_if; bool_hyps; lia || done.
  - congruence.
  - split; [intros; by rewrite R2, R1|]. intros x Hx. unfold code in Hx. rewrite M2, M1. split_if; bool_hyps; done || lia.
Qed.

(** What stays as it is while a processor is started. *)
Definition ready (c : Z) (s : mach) : Prop :=
  lapic s = lbase /\ fl_if s = false /\ cpus s !! c = Some c /\ 0 <= c < 256.

Lemma wp_start_cpu ra c x l (Q : unit -> bstate -> Prop) s :
  ready c (bm s) -> kinv kend (bk s) (x :: l) -> Z.shiftr (lreg (dev (bm s)) ID) 24 <> c ->
  (forall h k', ipis h = ipis (dev (bm s)) ++ start_msgs c x -> quiet code (dev (bm s)) h -> kinv kend k' l ->
     Q tt (Bstate _ (set_dev h (bm s)) k')) ->
  wp (start_cpu APOLLS ra mpmain c) Q s.
Proof.
  intros (Hl & Hf & Hc & Hr) Hk Hne HQ. unfold start_cpu. wp_step. unfold on_m at 1. wp_step.
  apply wp_cpunum; [done|done|]. intros h0 (R0 & P0 & M0). replace (c =? _) with false by lia.
  assert (Hx : allocatable kend x) by (destruct Hk as (_ & _ & Ha); by inversion Ha).
  wp_step. unfold on_k. wp_step. eapply wp_mono; [by apply kalloc_wp|]. intros r k' (_ & -> & _ & Hk').
  assert (Hxr : 0 <= x + KSTACKSIZE < 2 ^ 32) by (destruct Hx as [_ Hx]; unfold KSTACKSIZE, PHYSTOP in *; lia).
  cbn [bm bk]. wp_step. eapply wp_mono.
  { apply (wp_store_words x (fun _ => wp (id ← on_m (gets (fun s => default 0 (cpus s !! c))); on_m (lapicstartap id code);;
      loop APOLLS (fun _ : unit => b ← on_m (booted c); mret (if b =? 0 then inl tt else inr tt)) tt) Q)); [done|].
    intros h1 W1 W2 P1 [R1 M1]. cbn [bm bk dev set_dev] in *.
    wp_step. unfold on_m at 1. wp_step. wp_step. cbn [cpus set_dev bm]. rewrite Hc. cbn [default bk].
    wp_step. unfold on_m at 1. wp_step.
    eapply wp_mono; [apply lapicstartap_wp; [done|done|done|done]|].
    intros [] s2 (h2 & -> & P2 & M2 & R2). cbn [bm bk dev set_dev] in *.
    rewrite (startup_start_msgs _ _ x) in P2 by done.
    apply (wp_booted c (x + KSTACKSIZE)); cbn [bm bk dev set_dev].
    - rewrite P2. apply elem_of_app. right. unfold start_msgs. set_solver.
    - intros h3 P3 [R3 M3]. apply (HQ h3 k'); [by rewrite P3, P2, P1, P0| |done]. split.
      + intros j Hj. by rewrite R3, R2, R1, R0 by done.
      + intros y Hy. unfold code in *. rewrite M3, M2 by lia. unfold warm_reset.
        replace (_ || _) with false by lia. replace (y =? _) with false by lia. replace (y =? _) with false by lia.
        by rewrite M1, M0 by lia. }
  intros [] s3 H3. by apply wp_bind.
Qed.

(** The processor that runs is passed over. *)
Lemma wp_start_self ra c (Q : unit -> bstate -> Prop) s :
  lapic (bm s) = lbase -> fl_if (bm s) = false -> c = Z.shiftr (lreg (dev (bm s)) ID) 24 ->
  (forall h, same_lapic (dev (bm s)) h -> Q tt (Bstate _ (set_dev h (bm s)) (bk s))) ->
  wp (start_cpu APOLLS ra mpmain c) Q s.
Proof.
  intros Hl Hf Hc HQ. unfold start_cpu. wp_step. unfold on_m at 1. wp_step. apply wp_cpunum; [done|done|].
  intros h Hh. replace (c =? _) with true by lia. wp_step. by apply HQ.
Qed.

(** The bytes of [src] from [dst] on. *)
Definition over (dst : Z) (src : list Z) (m : Z -> Z) (x : Z) : Z :=
  if dst <=? x then default (m x) (src !! Z.to_nat (x - dst)) else m x.

Lemma over_snoc dst src b m x : over dst (src ++ [b]) m x = if x =? dst + Z.of_nat (length src) then b else over dst src m x.
Proof.
  unfold over. destruct (Z.eqb_spec x (dst + Z.of_nat (length src))) as [->|Hne].
  - replace (dst <=? _) with true by lia. by rewrite list_lookup_middle by lia.
  - destruct (Z.leb_spec dst x); [|done]. destruct (decide (x < dst + Z.of_nat (length src))).
    + by rewrite lookup_app_l by lia.
    + rewrite lookup_app_r by lia. rewrite !lookup_ge_None_2; [done|lia|simpl; lia].
Qed.

Lemma wp_memmove_to dst src (Q : unit -> mach -> Prop) s :
  0 <= dst -> dst + Z.of_nat (length src) <= 0xA0000 -> bytes src ->
  (forall h, ipis h = ipis (dev s) -> (forall j, lreg h j = lreg (dev s) j) ->
     (forall x, mem8 h x = over dst src (mem8 (dev s)) x) -> Q tt (set_dev h s)) ->
  wp (memmove_to dst src) Q s.
Proof.
  intros Hd Hl Hb HQ. unfold memmove_to.
  apply (wp_for_each (fun pre s' => exists h, s' = set_dev h s /\ ipis h = ipis (dev s) /\
           (forall j, lreg h j = lreg (dev s) j) /\ forall x, mem8 h x = over dst (pre.*2) (mem8 (dev s)) x)).
  - intros pre [i b] s1 [post E] (h & -> & P1 & R1 & M1). apply wp_modify. cbn [dev set_dev].
    assert (Hi : imap (fun i b => (Z.of_nat i, b)) src !! length pre = Some (i, b))
      by (rewrite E; by apply list_lookup_middle).
    rewrite list_lookup_imap in Hi. apply fmap_Some in Hi as (b' & Hb' & [= -> <-]).
    pose proof (lookup_lt_Some _ _ _ Hb') as Hlt. pose proof (Forall_lookup_1 _ _ _ _ Hb Hb') as Hbb.
    unfold is_byte in Hbb. destruct (la_ram8 (dst + Z.of_nat (length pre)) b h) as (R2 & P2 & M2); [lia|done|].
    eexists. split; [done|]. split; [congruence|]. split; [intros; by rewrite R2|]. intros x.
    rewrite M2, fmap_app. cbn [fmap list_fmap snd]. rewrite over_snoc, length_fmap. by rewrite M1.
  - exists (dev s). split; [by destruct s|]. split; [done|]. split; [done|]. intros x. unfold over. by destruct (dst <=? x).
  - intros s' (h & -> & P1 & R1 & M1). apply HQ; [done|done|]. intros x. rewrite M1. f_equal.
    rewrite fmap_imap. transitivity (imap (fun _ b => b) src); [by apply imap_ext|]. clear. induction src; simpl; [done|].
    f_equal. exact IHsrc.
Qed.

(** The processors that are not this one, which is [me]. *)
Definition others (me : Z) (l : list Z) : list Z := filter (fun c => c <> me) l.

(** The messages that start [cs] on the first of the stacks. *)
Definition all_msgs (stacks cs : list Z) : list ipi :=
  concat (imap (fun i c => start_msgs c (nth i stacks 0)) cs).

Lemma all_msgs_snoc stacks cs c :
  all_msgs stacks (cs ++ [c]) = all_msgs stacks cs ++ start_msgs c (nth (length cs) stacks 0).
Proof. unfold all_msgs. rewrite imap_app, concat_app. simpl. by rewrite Nat.add_0_r. Qed.

(** After the processors [pre] of the machine [s]. *)
Definition boot_inv (s : bstate) (me : Z) (image free pre : list Z) (s' : bstate) : Prop :=
  exists h, bm s' = set_dev h (bm s) /\
    (forall j, j <> ICRHI -> lreg h j = lreg (dev (bm s)) j) /\
    ipis h = ipis (dev (bm s)) ++ all_msgs free (others me pre) /\
    kinv kend (bk s') (drop (length (others me pre)) free) /\
    forall x, code <= x < 0x8000 -> mem8 h x = over code image (mem8 (dev (bm s))) x.

Lemma boot_inv_step ra me image free pre c s s1 :
  me = Z.shiftr (lreg (dev (bm s)) ID) 24 -> ready c (bm s) ->
  (length (others me (pre ++ [c])) <= length free)%nat -> boot_inv s me image free pre s1 ->
  wp (start_cpu APOLLS ra mpmain c) (fun _ s' => boot_inv s me image free (pre ++ [c]) s') s1.
Proof.
  intros Em Hr Hlen (h & Hs1 & R1 & P1 & K1 & M1). pose proof Hr as (Hl & Hf & _).
  assert (Hsnoc : others me (pre ++ [c]) = others me pre ++ others me [c]) by apply filter_app.
  assert (Hme : Z.shiftr (lreg h ID) 24 = me) by (by rewrite R1).
  unfold boot_inv at 1. destruct (decide (c = me)) as [Heq|Hne].
  - assert (Hoc : others me [c] = []) by (unfold others; by rewrite filter_cons_False by tauto).
    rewrite Hoc, app_nil_r in Hsnoc. rewrite Hsnoc.
    apply wp_start_self; rewrite Hs1; cbn [lapic fl_if dev set_dev bk]; [done|done|congruence|].
    intros h' (R' & P' & M'). exists h'. split; [done|]. split; [intros j Hj; by rewrite R', R1|].
    split; [by rewrite P', P1|]. split; [done|]. intros y Hy. by rewrite M', M1.
  - assert (Hoc : others me [c] = [c]) by (unfold others; by rewrite filter_cons_True).
    rewrite Hoc in Hsnoc. rewrite Hsnoc, length_app in *. cbn [length] in *. rewrite all_msgs_snoc.
    destruct (lookup_lt_is_Some_2 free (length (others me pre))) as [x Hx]; [lia|].
    rewrite (nth_lookup_Some _ _ _ _ Hx). rewrite (drop_S _ _ _ Hx) in K1.
    eapply (wp_start_cpu ra c x); [by rewrite Hs1|exact K1|rewrite Hs1; cbn [dev set_dev]; by rewrite Hme|].
    intros h' k' P' [R' M'] K'. rewrite Hs1 in *. cbn [bm bk dev set_dev] in *.
    exists h'. split; [done|]. split; [intros j Hj; by rewrite R', R1|].
    split; [by rewrite P', P1, app_assoc|]. rewrite Nat.add_1_r. split; [done|]. intros y Hy. by rewrite M', M1.
Qed.

End Correct.

(** ** Three processors *)

Definition is_start (c : Z) (i : ipi) : bool := match i with Start d _ _ _ => d =? c | Msg _ _ => false end.

(** Processors that are up as soon as they are told to start. *)
#[local] Instance board_aps : Aps (H := Board.board_io) :=
  {| ld_booted := fun c (b : @io Board.board_io) => (if existsb (is_start c) (Board.b_ipis b) then 1 else 0, b) |}.

#[local] Program Instance board_ap : ApSpec (H0 := Board.board_lapic) :=
  {| mpmain := 0x100500; apolls := fun _ _ => 0%nat; APOLLS := 1 |}.
Next Obligation. done. Qed.
Next Obligation. intros c h. simpl. lia. Qed.
Next Obligation.
  intros c stack h Hs. cbn [ld_booted board_aps]. assert (E : existsb (is_start c) (Board.b_ipis h) = true).
  { apply existsb_exists. exists (Start c code stack 0x100500). split; [by apply list_elem_of_In|]. apply Z.eqb_refl. }
  rewrite E. by repeat split.
Qed.

Definition demo_state : @bstate Board.board_io :=
  Bstate Board.board_io
    (Mach Board.board_io Board.power_on {[0 := 0; 1 := 1; 2 := 2]} 0 1 3 0 Board.LBASE IOAPIC irqmask0 false 0 [])
    (after (kinit two_pages) (Kmem ∅ 0)).

Definition demo_free : list Z := [PHYSTOP - PGSIZE; PHYSTOP - 2 * PGSIZE].

Lemma demo_kinv : kinv two_pages (bk demo_state) demo_free.
Proof.
  split; [by vm_compute|]. split; [by apply (bool_decide_unpack _); vm_compute|].
  repeat constructor; by vm_compute.
Qed.

