(* ===== verification/Seg.v ===== *)
(** * Segments and address space switches: [seginit], [switchuvm], [switchkvm]
      and [vmenable] of [src/vm.c], with the descriptors of [src/mmu.h]

    Each CPU has a descriptor table in its [struct cpu]; one of its segments
    starts at the CPU's own [cpu] and [proc] variables, which the kernel reaches
    through the gs register.  The model is one CPU: its [struct cpu] at address
    [ca], the registers that hold segments and page tables, and what the
    instructions that load them do (Intel's manual, volume 3), a fault being a
    panic with the name of the exception. *)

From stdpp Require Import base numbers list gmap strings.
From Stdlib Require Import Lia ZArith ZifyBool.
From S2P Require Import Prelude Spinlock.
From S2P Require Kalloc Vm.
Open Scope Z_scope.

(** ** mmu.h *)

Record segdesc := SegDesc {
  lim_15_0 : Z; base_15_0 : Z; base_23_16 : Z; seg_type : Z; seg_s : Z; seg_dpl : Z; seg_p : Z;
  lim_19_16 : Z; seg_avl : Z; seg_rsv1 : Z; seg_db : Z; seg_g : Z; base_31_24 : Z
}.

(** Bit fields keep the low bits of what is stored. *)
Definition bits (n x : Z) : Z := x mod 2 ^ n.

Definition SEG (type base lim dpl : Z) : segdesc :=
  SegDesc (Z.land (Z.shiftr lim 12) 0xffff) (Z.land base 0xffff)
    (Z.land (Z.shiftr base 16) 0xff) (bits 4 type) 1 (bits 2 dpl) 1
    (bits 4 (Z.shiftr lim 28)) 0 0 1 1 (bits 8 (Z.shiftr base 24)).

Definition SEG16 (type base lim dpl : Z) : segdesc :=
  SegDesc (Z.land lim 0xffff) (Z.land base 0xffff)
    (Z.land (Z.shiftr base 16) 0xff) (bits 4 type) 1 (bits 2 dpl) 1
    (bits 4 (Z.shiftr lim 16)) 0 0 1 0 (bits 8 (Z.shiftr base 24)).

Definition set_s (v : Z) (d : segdesc) : segdesc :=
  SegDesc (lim_15_0 d) (base_15_0 d) (base_23_16 d) (seg_type d) (bits 1 v) (seg_dpl d) (seg_p d)
    (lim_19_16 d) (seg_avl d) (seg_rsv1 d) (seg_db d) (seg_g d) (base_31_24 d).

Definition STA_X : Z := 0x8.
Definition STA_W : Z := 0x2.
Definition STA_R : Z := 0x2.
Definition STS_T32A : Z := 0x9.
Definition STS_T32B : Z := 0xB.
Definition DPL_USER : Z := 0x3.
Definition CR0_PG : Z := 0x80000000.

(** ** proc.h *)

Definition SEG_KCODE : Z := 1.
Definition SEG_KDATA : Z := 2.
Definition SEG_KCPU : Z := 3.
Definition SEG_UCODE : Z := 4.
Definition SEG_UDATA : Z := 5.
Definition SEG_TSS : Z := 6.
Definition NSEGS : nat := 7.

(** [struct taskstate] of mmu.h. *)
Definition taskstate : layout :=
  [("link", 4); ("esp0", 4); ("ss0", 2); ("padding1", 2); ("esp1", 4); ("ss1", 2); ("padding2", 2); ("esp2", 4);
   ("ss2", 2); ("padding3", 2); ("cr3", 4); ("eip", 4); ("eflags", 4); ("eax", 4); ("ecx", 4); ("edx", 4); ("ebx", 4);
   ("esp", 4); ("ebp", 4); ("esi", 4); ("edi", 4); ("es", 2); ("padding4", 2); ("cs", 2); ("padding5", 2); ("ss", 2);
   ("padding6", 2); ("ds", 2); ("padding7", 2); ("fs", 2); ("padding8", 2); ("gs", 2); ("padding9", 2); ("ldt", 2);
   ("padding10", 2); ("t", 2); ("iomb", 2)]%string.
Definition sizeof_ts : Z := Eval vm_compute in sizeof taskstate.

(** [struct cpu]; the compiler aligns the pointer after [id]. *)
Definition cpu_layout : layout :=
  [("id", 1); ("pad", 3); ("scheduler", 4); ("ts", sizeof_ts); ("gdt", 8 * Z.of_nat NSEGS); ("booted", 4); ("ncli", 4);
   ("intena", 4); ("cpu", 4); ("proc", 4)]%string.
Definition cpu_ts : Z := Eval vm_compute in offsetof "ts" cpu_layout.
Definition cpu_gdt : Z := Eval vm_compute in offsetof "gdt" cpu_layout.
Definition cpu_cpu : Z := Eval vm_compute in offsetof "cpu" cpu_layout.
Definition KSTACKSIZE : Z := 4096.

(** ** A CPU *)

Record pstate := PState {
  gdt : list segdesc;        (* cpu->gdt *)
  ts_ss0 : Z;                (* cpu->ts.ss0, cpu->ts.esp0 *)
  ts_esp0 : Z;
  cli : cpu;                 (* interrupt flag, ncli, intena *)
  words : gmap Z Z;          (* memory that is written through gs *)
  gdtr : Z * Z;              (* base and limit of the descriptor table *)
  gs : Z;
  tr : Z;
  cr3 : Z;
  cr0 : Z;
  kpgdir : Z
}.

Definition null_desc : segdesc := SegDesc 0 0 0 0 0 0 0 0 0 0 0 0 0.

Definition set_desc (i : Z) (d : segdesc) (s : pstate) : pstate :=
  PState (<[Z.to_nat i := d]> (gdt s)) (ts_ss0 s) (ts_esp0 s) (cli s) (words s) (gdtr s) (gs s) (tr s) (cr3 s) (cr0 s) (kpgdir s).
Definition set_ts (ss0 esp0 : Z) (s : pstate) : pstate :=
  PState (gdt s) ss0 esp0 (cli s) (words s) (gdtr s) (gs s) (tr s) (cr3 s) (cr0 s) (kpgdir s).
Definition set_cli (c : cpu) (s : pstate) : pstate :=
  PState (gdt s) (ts_ss0 s) (ts_esp0 s) c (words s) (gdtr s) (gs s) (tr s) (cr3 s) (cr0 s) (kpgdir s).
Definition set_word (a v : Z) (s : pstate) : pstate :=
  PState (gdt s) (ts_ss0 s) (ts_esp0 s) (cli s) (<[a := v]> (words s)) (gdtr s) (gs s) (tr s) (cr3 s) (cr0 s) (kpgdir s).
Definition set_gdtr (p n : Z) (s : pstate) : pstate :=
  PState (gdt s) (ts_ss0 s) (ts_esp0 s) (cli s) (words s) (p, n) (gs s) (tr s) (cr3 s) (cr0 s) (kpgdir s).
Definition set_gs (v : Z) (s : pstate) : pstate :=
  PState (gdt s) (ts_ss0 s) (ts_esp0 s) (cli s) (words s) (gdtr s) v (tr s) (cr3 s) (cr0 s) (kpgdir s).
Definition set_tr (v : Z) (s : pstate) : pstate :=
  PState (gdt s) (ts_ss0 s) (ts_esp0 s) (cli s) (words s) (gdtr s) (gs s) v (cr3 s) (cr0 s) (kpgdir s).
Definition set_cr3 (v : Z) (s : pstate) : pstate :=
  PState (gdt s) (ts_ss0 s) (ts_esp0 s) (cli s) (words s) (gdtr s) (gs s) (tr s) v (cr0 s) (kpgdir s).
Definition set_cr0 (v : Z) (s : pstate) : pstate :=
  PState (gdt s) (ts_ss0 s) (ts_esp0 s) (cli s) (words s) (gdtr s) (gs s) (tr s) (cr3 s) v (kpgdir s).

(** What the hardware makes of a descriptor. *)
Definition desc_base (d : segdesc) : Z := base_15_0 d + 2 ^ 16 * base_23_16 d + 2 ^ 24 * base_31_24 d.
Definition desc_limit (d : segdesc) : Z :=
  let l := lim_15_0 d + 2 ^ 16 * lim_19_16 d in if seg_g d =? 1 then 4096 * l + 4095 else l.

Section Cpu.
Context (ca : Z).

(** The descriptor a selector stands for, if the table the CPU uses is the one
    in its [struct cpu] and has it. *)
Definition lookup_desc (sel : Z) (s : pstate) : option segdesc :=
  if bool_decide (fst (gdtr s) = ca + cpu_gdt) && (sel + 7 <=? snd (gdtr s)) && negb (sel / 8 =? 0)
  then gdt s !! Z.to_nat (sel / 8) else None.

(** x86.h *)
Definition lgdt (p size : Z) : M pstate unit := modify (set_gdtr p (size - 1)).

Definition loadgs (v : Z) : M pstate unit :=
  d ← gets (lookup_desc v);
  match d with
  | Some d => if (seg_p d =? 1) && (seg_s d =? 1) then modify (set_gs v) else panic "#GP"
  | None => panic "#GP"
  end.

(** The task register takes an available task state segment, which becomes busy. *)
Definition ltr (sel : Z) : M pstate unit :=
  d ← gets (lookup_desc sel);
  match d with
  | Some d =>
      if (seg_p d =? 1) && (seg_s d =? 0) && (seg_type d =? STS_T32A) then
        modify (set_desc (sel / 8)
          (SegDesc (lim_15_0 d) (base_15_0 d) (base_23_16 d) STS_T32B (seg_s d) (seg_dpl d) (seg_p d)
             (lim_19_16 d) (seg_avl d) (seg_rsv1 d) (seg_db d) (seg_g d) (base_31_24 d)));;
        modify (set_tr sel)
      else panic "#GP"
  | None => panic "#GP"
  end.

(** A store to [%gs:off]. *)
Definition gs_store (off v : Z) : M pstate unit :=
  d ← gets (fun s => lookup_desc (gs s) s);
  match d with
  | Some d => if off + 3 <=? desc_limit d then modify (set_word (u32 (desc_base d + off)) v) else panic "#GP"
  | None => panic "#GP"
  end.

(** ** vm.c *)

Definition seginit : M pstate unit :=
  modify (set_desc SEG_KCODE (SEG (Z.lor STA_X STA_R) 0 0xffffffff 0));;
  modify (set_desc SEG_KDATA (SEG STA_W 0 0xffffffff 0));;
  modify (set_desc SEG_UCODE (SEG (Z.lor STA_X STA_R) 0 0xffffffff DPL_USER));;
  modify (set_desc SEG_UDATA (SEG STA_W 0 0xffffffff DPL_USER));;
  modify (set_desc SEG_KCPU (SEG STA_W (ca + cpu_cpu) 8 0));;
  lgdt (ca + cpu_gdt) (8 * Z.of_nat NSEGS);;
  loadgs (Z.shiftl SEG_KCPU 3);;
  gs_store 0 ca;;
  gs_store 4 0.

Definition set_kpgdir (v : Z) (s : pstate) : pstate :=
  PState (gdt s) (ts_ss0 s) (ts_esp0 s) (cli s) (words s) (gdtr s) (gs s) (tr s) (cr3 s) (cr0 s) v.

Definition kvmalloc (kdata : Z) : M (pstate * Kalloc.kmem) unit :=
  k ← zoom snd (fun m s => (fst s, m)) (Vm.setupkvm kdata);
  modify (fun s => (set_kpgdir k (fst s), snd s)).

Definition switchkvm : M pstate unit :=
  k ← gets kpgdir; modify (set_cr3 k).

Definition vmenable : M pstate unit :=
  switchkvm;;
  c ← gets cr0;
  modify (set_cr0 (Z.lor c CR0_PG)).

(** [switchuvm] up to the page table; [kstack] is [proc->kstack]. *)
Definition switch_tss (kstack : Z) : M pstate unit :=
  modify (fun s => set_cli (pushcli (cli s)) s);;
  modify (set_desc SEG_TSS (SEG16 STS_T32A (ca + cpu_ts) (sizeof_ts - 1) 0));;
  modify (fun s => set_desc SEG_TSS (set_s 0 (default null_desc (gdt s !! Z.to_nat SEG_TSS))) s);;
  modify (fun s => set_ts (Z.shiftl SEG_KDATA 3) (ts_esp0 s) s);;
  modify (fun s => set_ts (ts_ss0 s) (u32 (kstack + KSTACKSIZE)) s);;
  ltr (Z.shiftl SEG_TSS 3).

(** [pgdir] is [p->pgdir]. *)
Definition switchuvm (kstack pgdir : Z) : M pstate unit :=
  switch_tss kstack;;
  if pgdir =? 0 then panic "switchuvm: no pgdir" else
  modify (set_cr3 pgdir);;
  zoom cli set_cli popcli.
End Cpu.

(** ** Descriptors in memory *)

(** Bit fields of the given widths are laid out from the lowest bit. *)
Fixpoint pack (ns xs : list Z) : Z :=
  match ns, xs with
  | n :: ns, x :: xs => x + 2 ^ n * pack ns xs
  | _, _ => 0
  end.
Fixpoint unpack (ns : list Z) (w : Z) : list Z :=
  match ns with
  | [] => []
  | n :: ns => bits n w :: unpack ns (w / 2 ^ n)
  end.

Definition widths0 : list Z := [16; 16].
Definition widths1 : list Z := [8; 4; 1; 2; 1; 4; 1; 1; 1; 1; 8].

(** The two words of a descriptor. *)
Definition desc_words (d : segdesc) : Z * Z :=
  (pack widths0 [lim_15_0 d; base_15_0 d],
   pack widths1 [base_23_16 d; seg_type d; seg_s d; seg_dpl d; seg_p d; lim_19_16 d; seg_avl d; seg_rsv1 d;
                 seg_db d; seg_g d; base_31_24 d]).

(** What the CPU reads from them. *)
Definition words_desc (w : Z * Z) : segdesc :=
  match unpack widths0 (fst w), unpack widths1 (snd w) with
  | [l0; b0], [b1; t; ss; dpl; p; l1; avl; rsv; db; g; b2] => SegDesc l0 b0 b1 t ss dpl p l1 avl rsv db g b2
  | _, _ => null_desc
  end.

Definition fits (n x : Z) : Prop := 0 <= x < 2 ^ n.

(** Every field fits its width. *)
Definition desc_ok (d : segdesc) : Prop :=
  fits 16 (lim_15_0 d) /\ fits 16 (base_15_0 d) /\ fits 8 (base_23_16 d) /\ fits 4 (seg_type d) /\ fits 1 (seg_s d) /\
  fits 2 (seg_dpl d) /\ fits 1 (seg_p d) /\ fits 4 (lim_19_16 d) /\ fits 1 (seg_avl d) /\ fits 1 (seg_rsv1 d) /\
  fits 1 (seg_db d) /\ fits 1 (seg_g d) /\ fits 8 (base_31_24 d).

Lemma bits_fits n x : 0 <= n -> fits n (bits n x).
Proof. intros Hn. apply Z.mod_pos_bound. by apply Z.pow_pos_nonneg. Qed.
Lemma land_fits n x : 0 <= n -> fits n (Z.land x (Z.ones n)).
Proof. intros Hn. rewrite Z.land_ones by done. by apply bits_fits. Qed.

Ltac desc_fields := cbn [lim_15_0 base_15_0 base_23_16 seg_type seg_s seg_dpl seg_p lim_19_16 seg_avl seg_rsv1 seg_db seg_g base_31_24].
Ltac fits_tac :=
  lazymatch goal with
  | |- fits _ (bits _ _) => by apply bits_fits
  | |- fits 16 (Z.land _ _) => by apply (land_fits 16)
  | |- fits 8 (Z.land _ _) => by apply (land_fits 8)
  | |- _ => by vm_compute
  end.

Lemma SEG_ok t b l d : desc_ok (SEG t b l d).
Proof. unfold desc_ok, SEG. desc_fields. split_and!; fits_tac. Qed.
Lemma SEG16_ok t b l d : desc_ok (SEG16 t b l d).
Proof. unfold desc_ok, SEG16. desc_fields. split_and!; fits_tac. Qed.

(** The CPU reads back what was written. *)
Lemma unpack_pack ns xs : Forall2 (fun n x => 0 <= n /\ fits n x) ns xs -> unpack ns (pack ns xs) = xs.
Proof.
  induction 1 as [|n x ns xs [Hn Hx] _ IH]; [done|]. simpl. unfold bits, fits in *.
  assert (H2 : 0 < 2 ^ n) by (by apply Z.pow_pos_nonneg). f_equal.
  - rewrite Z.mul_comm, Z_mod_plus_full. by apply Z.mod_small.
  - rewrite Z.mul_comm, Z_div_plus_full, Z.div_small by lia. exact IH.
Qed.

Lemma words_desc_words d : desc_ok d -> words_desc (desc_words d) = d.
Proof.
  intros (?&?&?&?&?&?&?&?&?&?&?&?&?). unfold words_desc, desc_words. cbn [fst snd].
  rewrite (unpack_pack widths0), (unpack_pack widths1); [by destruct d| |]; unfold widths0, widths1;
    repeat (constructor; [split; [lia|assumption]|]); constructor.
Qed.

(** The addresses a segment stands for. *)
Lemma base_split b : fits 32 b -> Z.land b 0xffff + 2 ^ 16 * Z.land (Z.shiftr b 16) 0xff + 2 ^ 24 * bits 8 (Z.shiftr b 24) = b.
Proof.
  unfold fits, bits. intros Hb. change 0xffff with (Z.ones 16). change 0xff with (Z.ones 8).
  rewrite !Z.land_ones, !Z.shiftr_div_pow2 by lia. Z.div_mod_to_equations. lia.
Qed.

Lemma SEG_base t b l d : fits 32 b -> desc_base (SEG t b l d) = b.
Proof. apply base_split. Qed.
Lemma SEG16_base t b l d : fits 32 b -> desc_base (SEG16 t b l d) = b.
Proof. apply base_split. Qed.
Lemma SEG_limit t b l d : fits 32 l -> desc_limit (SEG t b l d) = 4096 * (l / 4096) + 4095.
Proof.
  unfold desc_limit, SEG, fits, bits. cbn. intros Hl. change 0xffff with (Z.ones 16).
  rewrite Z.land_ones, !Z.shiftr_div_pow2 by lia. Z.div_mod_to_equations. lia.
Qed.
Lemma SEG16_limit t b l d : fits 20 l -> desc_limit (SEG16 t b l d) = l.
Proof.
  unfold desc_limit, SEG16, fits, bits. cbn. intros Hl. change 0xffff with (Z.ones 16).
  rewrite Z.land_ones, !Z.shiftr_div_pow2 by lia. Z.div_mod_to_equations. lia.
Qed.

(** ** A CPU's segments *)

Section Correct.
Context (ca : Z) (Hca : 0 <= ca /\ ca + 188 <= 2 ^ 32).

(** The five segments [seginit] makes, and the registers that use them. *)
Definition segs_ok (s : pstate) : Prop :=
  length (gdt s) = NSEGS /\ Forall desc_ok (gdt s) /\ gdtr s = (ca + cpu_gdt, 55) /\ gs s = Z.shiftl SEG_KCPU 3 /\
  gdt s !! Z.to_nat SEG_KCODE = Some (SEG (Z.lor STA_X STA_R) 0 0xffffffff 0) /\
  gdt s !! Z.to_nat SEG_KDATA = Some (SEG STA_W 0 0xffffffff 0) /\
  gdt s !! Z.to_nat SEG_UCODE = Some (SEG (Z.lor STA_X STA_R) 0 0xffffffff DPL_USER) /\
  gdt s !! Z.to_nat SEG_UDATA = Some (SEG STA_W 0 0xffffffff DPL_USER) /\
  gdt s !! Z.to_nat SEG_KCPU = Some (SEG STA_W (ca + cpu_cpu) 8 0).

Lemma lookup_desc_ok s i d : fst (gdtr s) = ca + cpu_gdt -> snd (gdtr s) = 55 -> 0 < i < 7 ->
  gdt s !! Z.to_nat i = Some d -> lookup_desc ca (Z.shiftl i 3) s = Some d.
Proof.
  intros H1 H2 Hi Hd. unfold lookup_desc. rewrite bool_decide_true, H2 by done. rewrite Z.shiftl_mul_pow2 by lia.
  replace (i * 2 ^ 3 / 8) with i by (Z.div_mod_to_equations; lia).
  replace (_ + 7 <=? 55) with true by lia. by replace (i =? 0) with false by lia.
Qed.

(** A store through gs goes to the CPU's own variables. *)
Lemma wp_gs_store s off v (Q : unit -> pstate -> Prop) : segs_ok s -> 0 <= off <= 4 ->
  Q tt (set_word (ca + cpu_cpu + off) v s) -> wp (gs_store ca off v) Q s.
Proof.
  intros (_ & _ & Hr & Hg & _ & _ & _ & _ & Hd) Ho HQ. unfold gs_store. wp_step. wp_step. rewrite Hg.
  rewrite (lookup_desc_ok s SEG_KCPU _ ltac:(by rewrite Hr) ltac:(by rewrite Hr) ltac:(done) Hd).
  rewrite SEG_limit by done. change (8 / 4096) with 0. replace (off + 3 <=? _) with true by lia. wp_step.
  rewrite SEG_base by (unfold fits, cpu_cpu; lia). by rewrite u32_small by (unfold cpu_cpu; lia).
Qed.

(** Storing descriptors that fit keeps the table one. *)
Lemma Forall_desc_insert l i d : Forall desc_ok l -> desc_ok d -> Forall desc_ok (<[i := d]> l).
Proof. intros. by apply Forall_insert. Qed.

Lemma segs_loaded s : length (gdt s) = NSEGS -> Forall desc_ok (gdt s) ->
  segs_ok (set_gs (Z.shiftl SEG_KCPU 3) (set_gdtr (ca + cpu_gdt) 55
    (set_desc SEG_KCPU (SEG STA_W (ca + cpu_cpu) 8 0)
    (set_desc SEG_UDATA (SEG STA_W 0 0xffffffff DPL_USER) (set_desc SEG_UCODE (SEG (Z.lor STA_X STA_R) 0 0xffffffff DPL_USER)
    (set_desc SEG_KDATA (SEG STA_W 0 0xffffffff 0) (set_desc SEG_KCODE (SEG (Z.lor STA_X STA_R) 0 0xffffffff 0) s))))))).
Proof.
  intros Hl Hf. unfold segs_ok. cbn [gdt gdtr gs set_gs set_gdtr set_desc].
  split; [by rewrite !length_insert|]. split; [repeat apply Forall_desc_insert; try done; apply SEG_ok|].
  split; [done|]. split; [done|].
  destruct (gdt s) as [|d0 [|d1 [|d2 [|d3 [|d4 [|d5 [|d6 [|d7 l]]]]]]]]; by try discriminate Hl.
Qed.

(** [seginit] loads the CPU's own table without fault; its kernel and user
    segments are there, and [cpu] and [proc], which are reached through gs, are
    the variables in the CPU's own [struct cpu]: they hold its address and null. *)
Lemma seginit_wp s : length (gdt s) = NSEGS -> Forall desc_ok (gdt s) ->
  wp (seginit ca) (fun _ s' => segs_ok s' /\ words s' !! (ca + cpu_cpu) = Some ca /\
    words s' !! (ca + cpu_cpu + 4) = Some 0 /\ cli s' = cli s) s.
Proof.
  intros Hl Hf. unfold seginit. do 5 (wp_step; wp_step). unfold lgdt. wp_step. wp_step.
  pose proof (segs_loaded s Hl Hf) as Hs. unfold loadgs. wp_step. wp_step. wp_step.
  change (8 * Z.of_nat NSEGS - 1) with 55. pose proof Hs as (_ & _ & Hr & _ & _ & _ & _ & _ & Hd).
  match goal with |- context [lookup_desc ca _ ?s1] => set (s1' := s1) end.
  rewrite (lookup_desc_ok s1' SEG_KCPU _ eq_refl eq_refl ltac:(done) Hd). cbn [seg_p seg_s SEG].
  rewrite !Z.eqb_refl. cbn [andb]. wp_step. wp_step. apply wp_gs_store; [exact Hs|lia|]. apply wp_gs_store; [exact Hs|lia|].
  cbn [words set_word cli]. split; [exact Hs|]. rewrite lookup_insert_ne, Z.add_0_r, lookup_insert_eq by lia.
  by rewrite lookup_insert_eq.
Qed.


(** ** Switching to a process *)

(** The counter of [pushcli] is in range, and interrupts are off inside it. *)
Definition cli_ok (c : cpu) : Prop := 0 <= ncli c < 2 ^ 31 - 1 /\ (0 < ncli c -> eflags_IF c = false).

Lemma push_pop c : cli_ok c -> wp popcli (fun _ c' => eflags_IF c' = eflags_IF c /\ ncli c' = ncli c) (pushcli c).
Proof.
  intros [Hn Hi]. destruct (pushcli_ok c) as [E1 E2]; [lia|]. eapply wp_intro; [apply popcli_ok; [lia|done]|].
  cbn [eflags_IF ncli]. split; [|lia]. rewrite E1. unfold pushcli. destruct (Z.eqb_spec (ncli c) 0) as [E|E].
  - rewrite E. done.
  - rewrite Hi by lia. by replace (ncli c + 1 =? 1) with false by lia.
Qed.

(** The task register holds the CPU's task state segment. *)
Definition tss_loaded (s : pstate) : Prop :=
  tr s = Z.shiftl SEG_TSS 3 /\
  exists d, gdt s !! Z.to_nat SEG_TSS = Some d /\ desc_base d = ca + cpu_ts /\ desc_limit d = sizeof_ts - 1 /\
    seg_type d = STS_T32B /\ seg_s d = 0 /\ seg_p d = 1.

(** Setting the task state segment's descriptor keeps the others. *)
Lemma segs_ok_tss s d : segs_ok s -> desc_ok d -> segs_ok (set_desc SEG_TSS d s).
Proof.
  intros (Hl & Hf & Hr & Hg & H1 & H2 & H3 & H4 & H5) Hd. unfold segs_ok. cbn [gdt gdtr gs set_desc].
  split; [by rewrite length_insert|]. split; [by apply Forall_desc_insert|].
  rewrite !list_lookup_insert_ne by done. done.
Qed.

(** The descriptor before and after the task register took it. *)
Definition tss_desc (type : Z) : segdesc :=
  let d := SEG16 type (ca + cpu_ts) (sizeof_ts - 1) 0 in set_s 0 d.

Lemma tss_desc_ok type : desc_ok (tss_desc type).
Proof.
  pose proof (SEG16_ok type (ca + cpu_ts) (sizeof_ts - 1) 0) as H. unfold desc_ok in *. cbn in *. intuition; by vm_compute.
Qed.

(** [ltr] never faults after [seginit]: the descriptor was just made available. *)
Lemma wp_ltr s (Q : unit -> pstate -> Prop) : segs_ok s -> gdt s !! Z.to_nat SEG_TSS = Some (tss_desc STS_T32A) ->
  Q tt (set_tr (Z.shiftl SEG_TSS 3) (set_desc SEG_TSS (tss_desc STS_T32B) s)) -> wp (ltr ca (Z.shiftl SEG_TSS 3)) Q s.
Proof.
  intros (_ & _ & Hr & _) Hd HQ. unfold ltr. wp_step. wp_step.
  rewrite (lookup_desc_ok s SEG_TSS _ ltac:(by rewrite Hr) ltac:(by rewrite Hr) ltac:(done) Hd).
  change ((seg_p (tss_desc STS_T32A) =? 1) && _ && _) with true. cbv iota. wp_step. wp_step. wp_step. exact HQ.
Qed.

(** Up to the page table, [switchuvm] runs without fault whatever process it is
    for. *)
Lemma wp_switch_tss kstack s (Q : unit -> pstate -> Prop) : segs_ok s ->
  (forall s', segs_ok s' -> tss_loaded s' -> ts_ss0 s' = Z.shiftl SEG_KDATA 3 -> ts_esp0 s' = u32 (kstack + KSTACKSIZE) ->
     cli s' = pushcli (cli s) -> words s' = words s -> Q tt s') ->
  wp (switch_tss ca kstack) Q s.
Proof.
  intros Hs HQ. pose proof Hs as (Hl & _). unfold switch_tss. do 5 (wp_step; wp_step).
  assert (H6 : (Z.to_nat SEG_TSS < length (gdt s))%nat) by (rewrite Hl; by apply Nat.ltb_lt).
  assert (Hd : gdt (set_desc SEG_TSS (SEG16 STS_T32A (ca + cpu_ts) (sizeof_ts - 1) 0) s) !! Z.to_nat SEG_TSS =
    Some (SEG16 STS_T32A (ca + cpu_ts) (sizeof_ts - 1) 0)) by (by apply list_lookup_insert_eq).
  cbn [gdt set_cli set_desc] in *. rewrite Hd. cbn [default].
  change (set_s 0 (SEG16 STS_T32A (ca + cpu_ts) (sizeof_ts - 1) 0)) with (tss_desc STS_T32A).
  apply wp_ltr.
  - apply (segs_ok_tss _ (tss_desc STS_T32A)); [|apply tss_desc_ok]. apply (segs_ok_tss s); [done|apply SEG16_ok].
  - cbn [gdt set_ts set_desc]. apply list_lookup_insert_eq. by rewrite length_insert.
  - apply HQ; try done.
    + apply (segs_ok_tss _ (tss_desc STS_T32B)); [|apply tss_desc_ok].
      apply (segs_ok_tss _ (tss_desc STS_T32A)); [|apply tss_desc_ok]. apply (segs_ok_tss s); [done|apply SEG16_ok].
    + split; [done|]. exists (tss_desc STS_T32B). cbn [gdt set_tr set_ts set_desc].
      split; [apply list_lookup_insert_eq; by rewrite !length_insert|].
      assert (Hb : fits 32 (ca + cpu_ts)) by (unfold fits, cpu_ts; lia).
      split; [exact (SEG16_base STS_T32B (ca + cpu_ts) (sizeof_ts - 1) 0 Hb)|done].
Qed.

Lemma switchuvm_wp kstack pgdir s :
  segs_ok s -> cli_ok (cli s) -> 0 <= kstack + KSTACKSIZE < 2 ^ 32 -> pgdir <> 0 ->
  wp (switchuvm ca kstack pgdir) (fun _ s' =>
     segs_ok s' /\ tss_loaded s' /\ ts_ss0 s' = Z.shiftl SEG_KDATA 3 /\ ts_esp0 s' = kstack + KSTACKSIZE /\
     cr3 s' = pgdir /\ words s' = words s /\
     eflags_IF (cli s') = eflags_IF (cli s) /\ ncli (cli s') = ncli (cli s)) s.
Proof.
  intros Hs Hc Hk Hp. apply Z.eqb_neq in Hp. unfold switchuvm. wp_step. apply wp_switch_tss; [done|].
  intros s' Hs' Ht Hss Hesp Hcl Hw. rewrite Hp. wp_step. wp_step. wp_step. cbn [cli set_cr3]. rewrite Hcl.
  eapply wp_mono; [by apply push_pop|]. intros [] c' [E1 E2]. cbn [ts_ss0 ts_esp0 cr3 words cli set_cli set_cr3].
  by rewrite u32_small in Hesp by lia.
Qed.

(** C40 (safety): On a CPU whose segments are set up, [switchuvm] to a process with a page
    table never faults: afterwards the task state segment of the CPU is loaded,
    traps from user mode will switch to the top of the process's kernel stack,
    the address space is the process's, and interrupts are as before.  Without
    a page table it panics. *)
Theorem switchuvm_switches kstack pgdir s :
  segs_ok s -> cli_ok (cli s) -> 0 <= kstack -> kstack + KSTACKSIZE < 2 ^ 32 ->
  (pgdir <> 0 -> wp (switchuvm ca kstack pgdir) (fun _ s' =>
     segs_ok s' /\ tss_loaded s' /\ ts_ss0 s' = Z.shiftl SEG_KDATA 3 /\ ts_esp0 s' = kstack + KSTACKSIZE /\
     cr3 s' = pgdir /\ words s' = words s /\
     eflags_IF (cli s') = eflags_IF (cli s) /\ ncli (cli s') = ncli (cli s)) s) /\
  (pgdir = 0 -> exists s', switchuvm ca kstack pgdir s = Panic "switchuvm: no pgdir" s').
Proof.
  intros Hs Hc Hk1 Hk2. split.
  - intros Hp. apply switchuvm_wp; try done. unfold KSTACKSIZE in *. lia.
  - intros ->. destruct (wp_elim (switch_tss ca kstack) (fun _ _ => True) s) as ([] & s' & E & _).
    + by apply wp_switch_tss.
    + exists s'. unfold switchuvm, mbind, M_bind. by rewrite E.
Qed.

(** ** The table is one the CPU can read

    The table in memory after any number of switches. *)
Definition gdt_words (s : pstate) : list (Z * Z) := desc_words <$> gdt s.

(** Switches to processes, given by their kernel stack and page table. *)
Fixpoint switches (l : list (Z * Z)) : M pstate unit :=
  match l with [] => mret tt | (kstack, pgdir) :: l => switchuvm ca kstack pgdir;; switches l end.

Lemma switches_wp l s : segs_ok s -> cli_ok (cli s) ->
  Forall (fun '(kstack, pgdir) => 0 <= kstack /\ kstack + KSTACKSIZE < 2 ^ 32 /\ pgdir <> 0) l ->
  wp (switches l) (fun _ s' => segs_ok s') s.
Proof.
  intros Hs Hc Hl. revert s Hs Hc. induction Hl as [|[k p] l (H1 & H2 & H3) _ IH]; intros s Hs Hc; simpl; [done|].
  wp_step. eapply wp_mono; [apply switchuvm_wp; try done; unfold KSTACKSIZE in *; lia|].
  intros [] s' (Hs' & _ & _ & _ & _ & _ & E1 & E2). apply IH; [done|]. destruct Hc. by split; rewrite E2, ?E1.
Qed.

End Correct.

(** ** A CPU at its start *)

Definition demo_ca : Z := 0x10b000.
Definition demo_cpu : pstate := PState (replicate 7 null_desc) 0 0 (Cpu false 0 false) ∅ (0, 0) 0 0 0 1 0x200000.

Lemma demo_ca_ok : 0 <= demo_ca /\ demo_ca + 188 <= 2 ^ 32.
Proof. by vm_compute. Qed.

Lemma null_desc_ok : desc_ok null_desc.
Proof. by vm_compute. Qed.


(** The CPU after [seginit]. *)
Definition demo_segs : pstate := match seginit demo_ca demo_cpu with Ok _ s => s | _ => demo_cpu end.

Lemma demo_segs_ok : segs_ok demo_ca demo_segs.
Proof.
  destruct (wp_elim _ _ _ (seginit_wp demo_ca demo_ca_ok demo_cpu eq_refl (Forall_replicate desc_ok 7 null_desc null_desc_ok)))
    as (u & s' & E & Hs & _).
  unfold demo_segs. rewrite E. exact Hs.
Qed.

Lemma switchuvm_switches_witness :
  (0x301000 <> 0 -> wp (switchuvm demo_ca 0x300000 0x301000) (fun _ s' =>
     segs_ok demo_ca s' /\ tss_loaded demo_ca s' /\ ts_ss0 s' = 16 /\ ts_esp0 s' = 0x301000 /\
     cr3 s' = 0x301000 /\ words s' = words demo_segs /\
     eflags_IF (cli s') = eflags_IF (cli demo_segs) /\ ncli (cli s') = ncli (cli demo_segs)) demo_segs) /\
  (0x301000 = 0 -> exists s', switchuvm demo_ca 0x300000 0x301000 demo_segs = Panic "switchuvm: no pgdir" s').
Proof.
  apply (switchuvm_switches demo_ca demo_ca_ok 0x300000 0x301000 demo_segs demo_segs_ok); [|lia|by vm_compute].
  by vm_compute.
Defined.
